(* ===== verification/_CoqProject ===== *)
-Q . S2P
Prelude.v
PyStr.v
Conf.v
Net.v
Models.v
Text.v
TextTheory.v
Rpki.v
RpkiTheory.v
ScopeFilter.v
Fields.v
RpslObjects.v
FieldsTheory.v
RpslParser.v
RpslTheory.v
Queries.v
QueriesTheory.v
RoutePref.v
RoutePrefTheory.v
Database.v
DatabaseHandler.v
StorageTheory.v
JournalTheory.v
StoreTheory.v
Nrtm.v
NrtmTheory.v
Importers.v
ImportersTheory.v
RoaImport.v
RoaImportTheory.v
Retrieval.v
Nrtm4.v
Nrtm4Client.v
Nrtm4Server.v
Nrtm4Theory.v
UpdateValidators.v
UpdateRequests.v
UpdateHandler.v
TransactionTheory.v
UpdatesTheory.v
UpdateAuthTheory.v
UpdatePassTheory.v
UpdateSafety.v
UpdateReferenceTheory.v
UpdateAtomicTheory.v
UpdateExamples.v
Preload.v
PreloadTheory.v
PreloadManager.v
PreloadManagerTheory.v
PreloadExamples.v
QueryResolver.v
QueryResolverTheory.v
Whois.v
WhoisTheory.v
WhoisClient.v
WhoisClientTheory.v
WhoisExamples.v
MirrorRuns.v
MirrorRunsTheory.v
MirrorExport.v
MirrorExportTheory.v
MirrorScheduler.v
MirrorSchedulerTheory.v
ConfCheck.v
ConfCheckTheory.v
Web.v
WebMntners.v
WebMntnersTheory.v
WebExamples.v
WebAccounts.v
WebAccountsTheory.v
WebAccountsExamples.v
GraphqlSchema.v
GraphqlResolvers.v
GraphqlTheory.v
GraphqlExamples.v
EventStream.v
EventStreamTheory.v
EventStreamExamples.v
