(* ===== verification/Prelude.v ===== *)
(** * IRRd: a verification development

    IRRd (under [src/irrd/]) is an Internet Routing Registry server.  It stores
    RPSL objects of many sources in PostgreSQL, accepts changes to the sources it
    is authoritative for, mirrors other registries and lets others mirror it,
    derives the visibility of objects from ROAs, a scope filter and route
    preferences, and answers whois and GraphQL queries.  A web interface manages
    the users of internal authentication, and an event stream reports changes.

    ** Parts, and how they interact

    The database handler is in the middle.  Update submissions, mirror runs and
    ROA imports parse text into RPSL objects, validate them, and write them
    through the handler, which keeps a journal of every visible change and
    publishes what was changed.  Exports, NRTM and NRTMv4 serve that journal to
    mirrors, whose runs read it back into the same handler.  The validators of
    RPKI, scope filter and route preference read the stored objects and ask the
    handler to update statuses.  The preload store follows the handler's messages,
    and whois queries are resolved from the database and that store.  GraphQL
    queries and the event stream read objects and journal from the database; the
    web interface changes the users, permissions and tokens by which submissions
    are authenticated.  The scheduler starts the periodic runs, as the
    configuration says.

    ** Files and the code they model

    - [Prelude.v]: exceptions ([exn]), fallible values ([res]), the state and
      exception monad ([st]) in which the methods of mutable objects are written
      (an exception keeps the state reached), Python's ordered sets and dicts;
      [PyStr.v]: Python's string methods; [Net.v]: addresses and the interface of
      the package IPy; [Models.v]: the enumerations and rows of [storage/models.py].
    - [Conf.v] ([conf/__init__.py], [vendor/dotted]): looking up settings;
      [ConfCheck.v] ([conf/__init__.py], [conf/known_keys.py]): the checks of a new
      configuration and reloading; [ConfCheckTheory.v].
    - [Text.v], [TextTheory.v] ([utils/text.py], [utils/validators.py],
      [rpsl/auth.py]): paragraphs, removal of password hashes, AS numbers.
    - [Fields.v], [FieldsTheory.v] ([rpsl/fields.py]): one constructor per field
      class and its [parse]; [RpslObjects.v] ([rpsl/rpsl_objects.py]): the tables of
      all object classes; [RpslParser.v], [RpslTheory.v] ([rpsl/parser.py]):
      parsing, validating and rendering objects.
    - [Rpki.v], [RpkiTheory.v] ([rpki/validators.py]); [ScopeFilter.v]
      ([scopefilter/validators.py]); [RoutePref.v], [RoutePrefTheory.v]
      ([routepref/routepref.py]): the three validators of visibility.
    - [Queries.v], [QueriesTheory.v] ([storage/queries.py]): query builders, run on
      a table; [Database.v]: the tables and the effect of each statement;
      [DatabaseHandler.v] ([storage/database_handler.py],
      [storage/event_stream.py]): the handler, its record [handler] being the
      attributes of the object, one definition for each method; [StorageTheory.v],
      [JournalTheory.v], [StoreTheory.v], [TransactionTheory.v]: what it keeps.
    - [UpdateValidators.v], [UpdateRequests.v], [UpdateHandler.v]
      ([updates/validators.py], [updates/parser.py], [updates/suspension.py],
      [updates/handler.py]): a submission from its text to its reports;
      [UpdatesTheory.v], [UpdateAuthTheory.v], [UpdatePassTheory.v],
      [UpdateSafety.v], [UpdateReferenceTheory.v], [UpdateAtomicTheory.v],
      [UpdateExamples.v].
    - [Nrtm.v], [NrtmTheory.v] ([mirroring/nrtm_generator.py],
      [mirroring/nrtm_operation.py], the stream parser of [mirroring/parsers.py]);
      [Importers.v], [ImportersTheory.v] (the file parsers of
      [mirroring/parsers.py]); [Retrieval.v] ([mirroring/retrieval.py]);
      [RoaImport.v], [RoaImportTheory.v] ([rpki/importer.py],
      [rpki/notifications.py]); [MirrorRuns.v], [MirrorRunsTheory.v]
      ([mirroring/mirror_runners_import.py]); [MirrorExport.v],
      [MirrorExportTheory.v] ([mirroring/mirror_runners_export.py]);
      [MirrorScheduler.v], [MirrorSchedulerTheory.v] ([mirroring/scheduler.py],
      [mirroring/jobs.py]).
    - [Nrtm4.v], [Nrtm4Client.v], [Nrtm4Server.v], [Nrtm4Theory.v]
      ([mirroring/nrtm4/]): the documents, the client and the server.
    - [Preload.v], [PreloadTheory.v], [PreloadManager.v], [PreloadManagerTheory.v],
      [PreloadExamples.v] ([storage/preload.py]): the content of the store, and the
      processes that keep it up to date as a step relation.
    - [QueryResolver.v], [QueryResolverTheory.v] ([server/query_resolver.py]);
      [Whois.v], [WhoisTheory.v] ([server/whois/], [server/access_check.py]);
      [WhoisClient.v], [WhoisClientTheory.v] ([utils/whois_client.py]);
      [WhoisExamples.v].
    - [Web.v] ([storage/models.py], [storage/orm_provider.py], [webui/helpers.py],
      [webui/auth/decorators.py], [utils/email.py]): the tables of users and of
      internal authentication, and one HTTP request with its session and its
      transaction; [WebMntners.v], [WebMntnersTheory.v], [WebExamples.v]
      ([webui/endpoints_mntners.py]): API tokens, permissions and migrations;
      [WebAccounts.v], [WebAccountsTheory.v], [WebAccountsExamples.v]
      ([webui/auth/]): accounts, passwords, second factors.
    - [GraphqlSchema.v], [GraphqlResolvers.v], [GraphqlTheory.v],
      [GraphqlExamples.v] ([server/graphql/]): the generated schema, the resolvers
      of every query and the fields of objects.
    - [EventStream.v], [EventStreamTheory.v], [EventStreamExamples.v]
      ([server/http/event_stream.py], [storage/event_stream.py]): the initial
      download, the WebSocket and the follower, as steps between transactions.

    A method of the code is a definition of the same name; where two classes have a
    method of one name, the class comes first ([cr_] for ChangeRequest, [sr_] for
    SuspensionRequest).  The code's objects are records with the code's attributes;
    a method that changes its object runs in [st] with that record for its state.

    ** What the theorems show

    - Updates: what is saved was authorised, and keeps references intact unless
      one submission adds and deletes the same object; a submission that raises
      commits nothing, unless Redis refuses what is sent after the commit; the
      resolver ends.
    - The handler refines a map from keys to texts, numbers its journal without
      gaps, and a mirror that applies the journal holds the visible objects, for
      the calls that the two theorems name.
    - Mirroring: what NRTM, NRTMv4 and exports serve is read back; an NRTMv4
      client follows its server and the server's directory stays in agreement with
      its status; file and ROA imports leave exactly what the files hold; a mirror
      run that fails commits nothing, but for complete reloads and refused
      messages; a process is not started twice.
    - Visibility: both RPKI validators agree with each other and with RFC 6811,
      SLURM filters with RFC 8416, and each validator reports exactly the objects
      whose status changes; evaluating the route preference around changed prefixes
      agrees with evaluating all routes, at and below these prefixes.
    - Queries: recursive as-sets end and are exact; the preload store settles on
      the database, but for parts whose last reload request was dropped; the
      responses of the server are read back by any client and by IRRd's own;
      password hashes are only sent to whois clients with access to NRTM, and never
      to GraphQL clients; the event stream sends every later journal entry once,
      until it meets one that it cannot read.
    - Web interface: who gains access to a maintainer, creates, changes and deletes
      API tokens, and changes accounts; maintainers keep a permission; how long a
      link to reset a password is accepted.
    - Parsing: round trips up to empty lines, complete objects, idempotent
      normalisation, and AS numbers within 32 bits.
    - Configuration: what is in use has passed the checks, and then the scheduler
      and the scope filter do not raise and sources have one role each.

    ** Parameters and bounds

    Third-party packages are interfaces with the facts that the code relies on:
    [IPyLib] and [IPyLaws], [Datrie], [Radix], [IPSetLib]; the file [Net.v] has an
    instance of the first.  The class [Redis] says which messages Redis takes; a
    refused message raises, also after the commit of a transaction.  For the web
    interface, passlib, zxcvbn, pyotp, WebAuthn, and what imia, WTForms, the rate
    limiter and the CSRF check make of a request are parameters or part of the
    request; for GraphQL, Ariadne's conversion of names is.  Password hashing,
    GnuPG, keys and signatures, gzip, SHA-256, the JSON coder, pydantic's reading of
    declared types, the collation and the key generator of PostgreSQL, and the
    transports are arguments of the definitions that use them.  The clock is part of
    the state of a handler and an input elsewhere; the order of iteration over a set
    of strings is a parameter.

    Recursion that is not on the structure of the data has fuel that is computed
    from the data: the length of the text for scanners ([replace], [split_blank],
    [like_fuel], [clean_ip_value_error]) as each step takes a character; the
    number of rows for the chunks of a buffer; the binary logarithm for decimal
    digits, with a proof that it is enough ([dec_fuel_enough]).  The resolver
    of submissions has the code's own limit on passes, with a proof that it is
    never reached ([UpdatesTheory.v]).  Recursive sets have Python's own limit on
    recursion, and the theorem on as-sets names the bound under which it is not
    met.
    Integers of the code are unbounded and are [Z]; AS numbers and addresses have
    their widths as hypotheses and theorems.

    ** What is not modelled, and why

    Characters are 8-bit and case conversion is that of ASCII.  Logging is left
    out, except where a log text is a result.  Values of settings are those of
    YAML with text for keys; floating-point numbers, and the text of lists in
    messages, are not.  The text of SQL statements, connection handling, Alembic's
    migrations and the SQL of the object-relational mapping belong to SQLAlchemy
    and PostgreSQL.  Sockets, worker processes, signals other than the
    one to reload, file locks and the daemon are operating-system code.  The web
    pages that show objects ([webui/endpoints.py], [webui/rendering.py]), templates,
    and the application, status and metrics of [server/http/] are output and wiring
    around the modules modelled here.  The scripts ([scripts/]) are command lines of
    them, but for [irr_rpsl_submit.py], a client of the HTTP interface.  E-mail
    parsing ([updates/email.py], the parser of [utils/email.py]) and PGP
    ([utils/pgp.py]) call the standard library and GnuPG. *)
From stdpp Require Export base tactics option list gmap sets strings.
From Stdlib Require Export ZArith Lia.

Declare Scope irrd_scope.
Delimit Scope irrd_scope with irrd.

Create HintDb irrd.

(** ** Exceptions and fallible computations *)

(** The exceptions the modelled code raises and catches, with the message or
    key they carry.  [InvalidQueryException], [ValidationError],
    [NRTM4ClientError] and [WhoisQueryError] are subclasses of [ValueError] in the code. *)
Inductive exn : Type :=
| ValueError (msg : string)
| ValidationError (msg : string)
| InvalidQueryException (msg : string)
| NRTM4ClientError (msg : string)
| NRTMGeneratorException (msg : string)
| ROAParserException (msg : string)
| UnknownRPSLObjectClassException (msg cls : string)
| RPSLImportError (msg : string)
| KeyError (key : string)
| IndexError
| AttributeError
| AssertionError
| StopIteration
| RuntimeError (msg : string)
| OSError (msg : string)
| WhoisQueryError (msg : string)
| GenericException (msg : string).

(** [except ValueError] also catches the subclasses. *)
Definition is_ValueError (e : exn) : bool :=
  match e with
  | ValueError _ | ValidationError _ | InvalidQueryException _ | NRTM4ClientError _ | WhoisQueryError _ => true
  | _ => false
  end.

(** [str(exc)]. *)
Definition exn_str (e : exn) : string :=
  match e with
  | ValueError m | ValidationError m | InvalidQueryException m | NRTM4ClientError m
  | NRTMGeneratorException m | ROAParserException m | UnknownRPSLObjectClassException m _
  | RPSLImportError m | KeyError m | RuntimeError m | OSError m | WhoisQueryError m | GenericException m => m
  | IndexError | AttributeError | AssertionError | StopIteration => ""
  end.

Inductive res (A : Type) : Type :=
| Ok (a : A)
| Raise (e : exn).
Arguments Ok {A} a.
Arguments Raise {A} e.

#[export] Instance res_ret : MRet res := @Ok.
#[export] Instance res_bind : MBind res := λ A B f m,
  match m with Ok a => f a | Raise e => Raise e end.

Definition is_Ok {A} (m : res A) : bool := match m with Ok _ => true | Raise _ => false end.
Definition res_option {A} (m : res A) : option A := match m with Ok a => Some a | Raise _ => None end.

Lemma res_bind_Ok {A B} (m : res A) (f : A → res B) b :
  m ≫= f = Ok b ↔ ∃ a, m = Ok a ∧ f a = Ok b.
Proof. destruct m; naive_solver. Qed.

Fixpoint res_map {A B} (f : A → res B) (l : list A) : res (list B) :=
  match l with
  | [] => Ok []
  | x :: l' => y ← f x; ys ← res_map f l'; Ok (y :: ys)
  end.

Lemma res_map_Forall2 {A B} (f : A → res B) l l' :
  res_map f l = Ok l' → Forall2 (λ x y, f x = Ok y) l l'.
Proof.
  revert l'. induction l as [|x l IH]; intros l' Hl; simpl in Hl; simplify_eq; [constructor|].
  destruct (f x) as [y|] eqn:E; simpl in Hl; [|done].
  destruct (res_map f l) as [ys|]; simpl in Hl; [|done]. simplify_eq. constructor; eauto.
Qed.

Lemma Forall2_elem_l {A B} (P : A → B → Prop) l l' x :
  Forall2 P l l' → x ∈ l → ∃ y, y ∈ l' ∧ P x y.
Proof.
  induction 1 as [|x' y' l l' Hp Hall IH]; [set_solver|].
  intros [->|Hin]%elem_of_cons; [exists y'; set_solver|]. destruct (IH Hin) as (y & ? & ?). set_solver.
Qed.

Lemma Forall2_elem_r {A B} (P : A → B → Prop) l l' y :
  Forall2 P l l' → y ∈ l' → ∃ x, x ∈ l ∧ P x y.
Proof.
  induction 1 as [|x' y' l l' Hp Hall IH]; [set_solver|].
  intros [->|Hin]%elem_of_cons; [exists x'; set_solver|]. destruct (IH Hin) as (x & ? & ?). set_solver.
Qed.

Lemma Forall2_choice {A B} (P : A → B → Prop) l :
  (∀ x, x ∈ l → ∃ y, P x y) → ∃ l', Forall2 P l l'.
Proof.
  induction l as [|x l IH]; intros Hl; [by exists []|].
  destruct (Hl x) as [y Hy]; [set_solver|]. destruct IH as [l' Hl']; [set_solver|]. eexists. by constructor.
Qed.

Lemma res_map_id {A} (f : A → res A) l : (∀ x, x ∈ l → f x = Ok x) → res_map f l = Ok l.
Proof.
  induction l as [|x l IH]; intros Hf; simpl; [done|].
  rewrite Hf by set_solver. simpl. rewrite IH by set_solver. done.
Qed.

(** ** State passing with exceptions: a Python method that mutates its object
    and may raise keeps the mutations made before the exception. *)
Definition st (S A : Type) : Type := S → S * res A.
#[export] Instance st_ret S : MRet (st S) := λ A a s, (s, Ok a).
#[export] Instance st_bind S : MBind (st S) := λ A B f m s,
  match m s with
  | (s', Ok a) => f a s'
  | (s', Raise e) => (s', Raise e)
  end.
Definition st_raise {S A} (e : exn) : st S A := λ s, (s, Raise e).
Definition st_get {S} : st S S := λ s, (s, Ok s).
Definition st_modify {S} (f : S → S) : st S unit := λ s, (f s, Ok tt).
Definition st_lift {S A} (m : res A) : st S A := λ s, (s, m).

Fixpoint st_iter {S A} (f : A → st S unit) (l : list A) : st S unit :=
  match l with
  | [] => mret tt
  | x :: l' => _ ← f x; st_iter f l'
  end.

(** Running a sequence of steps. *)
Lemma st_bind_Ok {S A B} (m : st S A) (f : A → st S B) s s' b :
  (m ≫= f) s = (s', Ok b) → ∃ s1 a, m s = (s1, Ok a) ∧ f a s1 = (s', Ok b).
Proof. unfold mbind, st_bind. destruct (m s) as [s1 [a|e]]; [eauto|done]. Qed.
Lemma st_lift_Ok {S A} (m : res A) (s s' : S) a : st_lift m s = (s', Ok a) → s' = s ∧ m = Ok a.
Proof. by intros [= <- ->]. Qed.
Lemma st_bind_same' {S A B} (m : st S A) (f g : A → st S B) s :
  (∀ a s1, m s = (s1, Ok a) → f a s1 = g a s1) → (m ≫= f) s = (m ≫= g) s.
Proof. intros Hfg. unfold mbind, st_bind. destruct (m s) as [s1 [a|e]]; [by apply Hfg|done]. Qed.
Lemma st_bind_same {S A B} (m : st S A) (f g : A → st S B) s : (∀ a s1, f a s1 = g a s1) → (m ≫= f) s = (m ≫= g) s.
Proof. intros Hfg. apply st_bind_same'. auto. Qed.

(** ** Automation *)

(** Split every conjunction, boolean connective and [if] in sight. *)
Ltac bool_solve :=
  repeat match goal with
  | H : (_ && _)%bool = true |- _ => apply andb_true_iff in H as [? ?]
  | H : (_ || _)%bool = false |- _ => apply orb_false_iff in H as [? ?]
  | H : negb _ = true |- _ => apply negb_true_iff in H
  | H : negb _ = false |- _ => apply negb_false_iff in H
  | H : (_ =? _)%Z = true |- _ => apply Z.eqb_eq in H
  | H : (_ =? _)%Z = false |- _ => apply Z.eqb_neq in H
  | H : (_ <=? _)%Z = true |- _ => apply Z.leb_le in H
  | H : (_ <=? _)%Z = false |- _ => apply Z.leb_gt in H
  | H : (_ <? _)%Z = true |- _ => apply Z.ltb_lt in H
  | H : (_ <? _)%Z = false |- _ => apply Z.ltb_ge in H
  end.

(** Case analysis on the scrutinee of a [match] in the goal, keeping the equation. *)
Ltac case_eqn E :=
  match goal with
  | |- context [match ?x with _ => _ end] => destruct x eqn:E
  end.

(** ** Lists *)

Lemma existsb_spec {A} (f : A → bool) l :
  existsb f l = true ↔ ∃ x, x ∈ l ∧ f x = true.
Proof.
  rewrite existsb_exists. by setoid_rewrite list_elem_of_In.
Qed.

Lemma existsb_false {A} (f : A → bool) l :
  existsb f l = false ↔ ∀ x, x ∈ l → f x = false.
Proof.
  rewrite <- not_true_iff_false, existsb_spec. split.
  - intros H x Hx. destruct (f x) eqn:E; [|done]. exfalso; eauto.
  - intros H (x & Hx & E). by rewrite H in E.
Qed.

Lemma forallb_spec {A} (f : A → bool) l :
  forallb f l = true ↔ ∀ x, x ∈ l → f x = true.
Proof.
  rewrite forallb_forall. by setoid_rewrite list_elem_of_In.
Qed.

Lemma existsb_ext_in {A} (f g : A → bool) l :
  (∀ x, x ∈ l → f x = g x) → existsb f l = existsb g l.
Proof.
  intros H. induction l as [|x l IH]; [done|]. simpl.
  rewrite H by set_solver. f_equal. apply IH. intros. apply H. set_solver.
Qed.

(** The first element on which [f] is defined: a loop that returns. *)
Fixpoint list_find_map {A B} (f : A → option B) (l : list A) : option B :=
  match l with
  | [] => None
  | x :: l' => match f x with Some y => Some y | None => list_find_map f l' end
  end.

Lemma list_find_map_Some {A B} (f : A → option B) l y :
  list_find_map f l = Some y → ∃ x, x ∈ l ∧ f x = Some y.
Proof.
  induction l as [|x l IH]; simpl; [done|].
  destruct (f x) eqn:E; [|set_solver]. intros; simplify_eq. set_solver.
Qed.

Lemma list_find_map_None {A B} (f : A → option B) l :
  list_find_map f l = None ↔ ∀ x, x ∈ l → f x = None.
Proof.
  induction l as [|x l IH]; simpl; [set_solver|].
  destruct (f x) eqn:E; [split; [done|]; intros H; rewrite H in E by set_solver; done|].
  rewrite IH. set_solver.
Qed.

(** First occurrences, in order: [OrderedSet] built by successive [add]. *)
Definition oset_add {A} `{EqDecision A} (l : list A) (x : A) : list A :=
  if decide (x ∈ l) then l else l ++ [x].
Definition oset_update {A} `{EqDecision A} (l l' : list A) : list A := foldl oset_add l l'.

Lemma oset_add_NoDup {A} `{EqDecision A} (l : list A) x : NoDup l → NoDup (oset_add l x).
Proof.
  intros H. unfold oset_add. case_decide; [done|].
  apply NoDup_app. split_and!; [done| |apply NoDup_singleton].
  intros y Hy Hy'. set_solver.
Qed.

Lemma oset_add_elem {A} `{EqDecision A} (l : list A) x y : y ∈ oset_add l x ↔ y ∈ l ∨ y = x.
Proof. unfold oset_add. case_decide; set_solver. Qed.

Lemma oset_update_NoDup {A} `{EqDecision A} (l' l : list A) :
  NoDup l → NoDup (oset_update l l').
Proof.
  revert l. induction l' as [|x l' IH]; intros l H; [done|].
  apply IH. by apply oset_add_NoDup.
Qed.

Lemma oset_update_elem {A} `{EqDecision A} (l' l : list A) y :
  y ∈ oset_update l l' ↔ y ∈ l ∨ y ∈ l'.
Proof.
  revert l. induction l' as [|x l' IH]; intros l; simpl; [set_solver|].
  unfold oset_update in *. rewrite IH, oset_add_elem. set_solver.
Qed.

#[export] Hint Resolve oset_add_NoDup oset_update_NoDup : irrd.

Lemma existsb_fmap {A B} (f : B → bool) (g : A → B) l :
  existsb f (g <$> l) = existsb (λ x, f (g x)) l.
Proof. induction l as [|x l IH]; csimpl; [done|]. by rewrite IH. Qed.

Lemma filter_elem {A} (f : A → bool) l x : x ∈ List.filter f l ↔ x ∈ l ∧ f x = true.
Proof. by rewrite !list_elem_of_In, filter_In. Qed.

(** Elements of a list with the same key, when keys do not repeat. *)
Lemma NoDup_fmap_inj {A B} (f : A → B) l x y : NoDup (f <$> l) → x ∈ l → y ∈ l → f x = f y → x = y.
Proof.
  induction l as [|z l IH]; csimpl; [intros _ ?%elem_of_nil; done|]. intros [Hz Hnd]%NoDup_cons Hx Hy E.
  apply elem_of_cons in Hx as [->|Hx], Hy as [->|Hy]; [done| | |by apply IH].
  - destruct Hz. rewrite E. by apply list_elem_of_fmap_2.
  - destruct Hz. rewrite <- E. by apply list_elem_of_fmap_2.
Qed.

(** ** Insertion-ordered dictionaries *)

(** [d[k] = v]: in place when [k] is present, at the end otherwise. *)
Fixpoint dict_set {K V} `{EqDecision K} (k : K) (v : V) (d : list (K * V)) : list (K * V) :=
  match d with
  | [] => [(k, v)]
  | (k', v') :: d' => if decide (k = k') then (k, v) :: d' else (k', v') :: dict_set k v d'
  end.
Fixpoint dict_get {K V} `{EqDecision K} (k : K) (d : list (K * V)) : option V :=
  match d with
  | [] => None
  | (k', v) :: d' => if decide (k = k') then Some v else dict_get k d'
  end.

Lemma dict_set_get {K V} `{EqDecision K} k k' (v : V) (d : list (K * V)) :
  dict_get k' (dict_set k v d) = if decide (k' = k) then Some v else dict_get k' d.
Proof.
  induction d as [|[k1 v1] d IH]; simpl; [done|].
  destruct (decide (k = k1)) as [->|Hne]; simpl; [by repeat case_decide|].
  rewrite IH. repeat case_decide; congruence.
Qed.

Lemma dict_set_keys {K V} `{EqDecision K} k k' (v : V) (d : list (K * V)) :
  k' ∈ (dict_set k v d).*1 ↔ k' = k ∨ k' ∈ d.*1.
Proof.
  induction d as [|[k1 v1] d IH]; simpl; [set_solver|].
  case_decide; subst; simpl; [set_solver|]. set_solver.
Qed.

Lemma dict_set_NoDup {K V} `{EqDecision K} k (v : V) (d : list (K * V)) :
  NoDup d.*1 → NoDup (dict_set k v d).*1.
Proof.
  induction d as [|[k1 v1] d IH]; simpl; [intros _; apply NoDup_singleton|].
  intros [Hni Hnd]%NoDup_cons. case_decide; subst; simpl; apply NoDup_cons; [done|].
  split; [|by apply IH]. rewrite dict_set_keys. naive_solver.
Qed.

Lemma dict_get_elem {K V} `{EqDecision K} k (v : V) (d : list (K * V)) :
  NoDup d.*1 → dict_get k d = Some v ↔ (k, v) ∈ d.
Proof.
  induction d as [|[k1 v1] d IH]; simpl; [set_solver|].
  intros [Hni Hnd]%NoDup_cons. rewrite elem_of_cons. case_decide; subst.
  - split; [intros [= ->]; by left|]. intros [[= ->]|Hin]; [done|]. destruct Hni.
    by apply (list_elem_of_fmap_2 fst) in Hin.
  - rewrite IH by done. naive_solver.
Qed.

#[export] Hint Resolve dict_set_NoDup : irrd.

(** ** Inevitability *)

(** Whatever steps are taken, [P] is reached: there is always a next step until
    it is, and no run avoids it for ever. *)
Inductive inevitable {S} (step : S → S → Prop) (P : S → Prop) (s : S) : Prop :=
| inevitable_now : P s → inevitable step P s
| inevitable_later : (∃ s', step s s') → (∀ s', step s s' → inevitable step P s') → inevitable step P s.

(** An invariant under which there is a step, and each one decreases a measure. *)
Lemma inevitable_measure {S} (step : S → S → Prop) (P Inv : S → Prop) (work : S → nat) :
  (∀ s, Inv s → P s ∨ (∃ s', step s s') ∧ ∀ s', step s s' → Inv s' ∧ work s' < work s) →
  ∀ s, Inv s → inevitable step P s.
Proof.
  intros Hstep s. remember (work s) as n eqn:Hn. revert s Hn.
  induction (lt_wf n) as [n _ IH]. intros s -> Hs. destruct (Hstep s Hs) as [HP|[Hex Hall]]; [by left|].
  right; [done|]. intros s' Hs'. destruct (Hall s' Hs') as [HI Hw]. by eapply IH.
Qed.

(** ** Concatenations *)

Lemma concat_nil {A B} (f : A → list B) l : concat (f <$> l) = [] ↔ ∀ x, x ∈ l → f x = [].
Proof. induction l as [|x l IH]; csimpl; [set_solver|]. rewrite app_nil, IH. set_solver. Qed.
