(* ===== verification/PyStr.v ===== *)
(** * The Python string operations the code uses

    A Python [str] is modelled as a [string] of 8-bit characters; the case
    conversions and [str.strip] act on the ASCII range (RPSL data is ASCII for
    every key, name and number this development reasons about; other
    characters are carried along unchanged).  [split], [join], [strip],
    [startswith], [replace], [int] and [str] of an integer follow the language
    reference. *)
From S2P Require Import Prelude.
From Stdlib.Strings Require Export Ascii.

Definition NL : string := String "010" "".
Definition CR : string := String "013" "".
Definition ch_nl : ascii := "010".
Definition ch_cr : ascii := "013".
Definition ch_tab : ascii := "009".
Definition ch_space : ascii := " ".
Definition ch_comma : ascii := ",".
Definition ch_colon : ascii := ":".

(** Concatenation computes on a known head character. *)
#[global] Arguments String.append !_ _ / : simpl nomatch.

#[export] Instance ascii_eq_dec : EqDecision ascii := ascii_dec.

(** ** Case *)
Definition upper_ascii (c : ascii) : ascii :=
  let n := N_of_ascii c in
  if ((97 <=? n) && (n <=? 122))%N then ascii_of_N (n - 32) else c.
Definition lower_ascii (c : ascii) : ascii :=
  let n := N_of_ascii c in
  if ((65 <=? n) && (n <=? 90))%N then ascii_of_N (n + 32) else c.

Fixpoint str_map (f : ascii → ascii) (s : string) : string :=
  match s with "" => "" | String c s' => String (f c) (str_map f s') end.
Definition str_upper : string → string := str_map upper_ascii.
Definition str_lower : string → string := str_map lower_ascii.

(** ** Predicates *)
Fixpoint str_all (p : ascii → bool) (s : string) : bool :=
  match s with "" => true | String c s' => p c && str_all p s' end.
Fixpoint str_any (p : ascii → bool) (s : string) : bool :=
  match s with "" => false | String c s' => p c || str_any p s' end.
(** [c in s] for a single character. *)
Definition has_char (c : ascii) : string → bool := str_any (λ d, bool_decide (c = d)).
Definition startswith (p s : string) : bool := String.prefix p s.
(** [sub in s] for a string. *)
Fixpoint contains (sub s : string) : bool :=
  String.prefix sub s || match s with "" => false | String _ s' => contains sub s' end.
Definition str_drop (n : nat) (s : string) : string := String.substring n (String.length s - n) s.
Definition str_take (n : nat) (s : string) : string := String.substring 0 n s.
Fixpoint str_rev_app (s acc : string) : string :=
  match s with "" => acc | String c s' => str_rev_app s' (String c acc) end.
Definition str_rev (s : string) : string := str_rev_app s "".
Definition endswith (p s : string) : bool := String.prefix (str_rev p) (str_rev s).

(** ** UTF-8 *)
(** [str.encode("utf-8")]: the bytes, as characters; a character from 128 takes
    two. *)
Fixpoint utf8_encode (s : string) : string :=
  match s with
  | "" => ""
  | String c s' =>
      let n := N_of_ascii c in
      if (n <? 128)%N then String c (utf8_encode s')
      else String (ascii_of_N (192 + n / 64)) (String (ascii_of_N (128 + n mod 64)) (utf8_encode s'))
  end.
(** [bytes.decode("utf-8", errors="backslashreplace")].  A sequence for a
    character that these strings do not hold is taken for invalid bytes. *)
Definition hex_char (n : N) : ascii := ascii_of_N (if (n <? 10)%N then 48 + n else 87 + n).
Definition byte_escape (c : ascii) : string :=
  String "\" (String "x" (String (hex_char (N_of_ascii c / 16)) (String (hex_char (N_of_ascii c mod 16)) ""))).
Definition two_bytes (c d : ascii) : option ascii :=
  let n := N_of_ascii c in
  let m := N_of_ascii d in
  if (((n =? 194) || (n =? 195)) && (128 <=? m) && (m <? 192))%N then Some (ascii_of_N ((n - 192) * 64 + (m - 128))) else None.
Fixpoint utf8_decode (s : string) : string :=
  match s with
  | "" => ""
  | String c s' =>
      if (N_of_ascii c <? 128)%N then String c (utf8_decode s')
      else match s' with
           | String d s'' =>
               match two_bytes c d with
               | Some x => String x (utf8_decode s'')
               | None => byte_escape c +:+ utf8_decode s'
               end
           | "" => byte_escape c
           end
  end.

(** ** Stripping *)
(** [str.isspace] on the ASCII range: what [str.strip()] removes. *)
Definition is_space (c : ascii) : bool :=
  let n := N_of_ascii c in
  (((9 <=? n) && (n <=? 13)) || ((28 <=? n) && (n <=? 32)))%N.
Fixpoint lstrip_if (p : ascii → bool) (s : string) : string :=
  match s with
  | "" => ""
  | String c s' => if p c then lstrip_if p s' else s
  end.
(** Removing from the right: a character goes when it and all that follow it
    satisfy [p]. *)
Fixpoint rstrip_if (p : ascii → bool) (s : string) : string :=
  match s with
  | "" => ""
  | String c s' =>
      match rstrip_if p s' with
      | "" => if p c then "" else String c ""
      | r => String c r
      end
  end.
Definition strip_if (p : ascii → bool) (s : string) : string := rstrip_if p (lstrip_if p s).
Definition strip : string → string := strip_if is_space.
(** [s.strip(chars)]. *)
Definition strip_chars (chars : string) : string → string := strip_if (λ c, has_char c chars).

(** ** Splitting and joining *)
(** [s.split(c)] for a one-character separator: never empty. *)
Fixpoint split_on (c : ascii) (s : string) : list string :=
  match s with
  | "" => [""]
  | String d s' =>
      if bool_decide (c = d) then "" :: split_on c s'
      else match split_on c s' with
           | [] => [String d ""]
           | w :: ws => String d w :: ws
           end
  end.
(** [s.split(c, maxsplit=1)], [None] when [c] does not occur. *)
Fixpoint split_once (c : ascii) (s : string) : option (string * string) :=
  match s with
  | "" => None
  | String d s' =>
      if bool_decide (c = d) then Some ("", s')
      else match split_once c s' with
           | None => None
           | Some (a, b) => Some (String d a, b)
           end
  end.
(** [s.split("\n\n")]. *)
Fixpoint split_double (c : ascii) (s : string) : list string :=
  match s with
  | "" => [""]
  | String d s' =>
      if bool_decide (c = d) then
        match s' with
        | String e s'' =>
            if bool_decide (c = e) then "" :: split_double c s''
            else match split_double c s' with
                 | [] => [String d ""]
                 | w :: ws => String d w :: ws
                 end
        | "" => [String d ""]
        end
      else match split_double c s' with
           | [] => [String d ""]
           | w :: ws => String d w :: ws
           end
  end.
Fixpoint join (sep : string) (l : list string) : string :=
  match l with
  | [] => ""
  | [x] => x
  | x :: l' => x +:+ sep +:+ join sep l'
  end.
Definition concat_str (l : list string) : string := foldr String.append "" l.

(** [s.replace(c, new)] for a one-character [c]. *)
Fixpoint replace_char (c : ascii) (new s : string) : string :=
  match s with
  | "" => ""
  | String d s' =>
      if bool_decide (c = d) then new +:+ replace_char c new s'
      else String d (replace_char c new s')
  end.

(** [s.replace(old, new)], [old] not empty: leftmost, not overlapping. *)
Fixpoint replace_fuel (fuel : nat) (old new s : string) : string :=
  match fuel with
  | 0%nat => s
  | S fuel' =>
      match s with
      | "" => ""
      | String d s' =>
          if String.prefix old s
          then new +:+ replace_fuel fuel' old new (str_drop (String.length old) s)
          else String d (replace_fuel fuel' old new s')
      end
  end.
Definition replace_all (old new s : string) : string :=
  replace_fuel (S (String.length s)) old new s.

Fixpoint repeat_char (n : nat) (c : ascii) : string :=
  match n with 0%nat => "" | S n' => String c (repeat_char n' c) end.
(** [s.ljust(n)]. *)
Definition ljust (n : nat) (s : string) : string :=
  s +:+ repeat_char (n - String.length s) ch_space.

(** ** Integers *)
Definition is_digit (c : ascii) : bool :=
  let n := N_of_ascii c in ((48 <=? n) && (n <=? 57))%N.
Definition digit_val (c : ascii) : Z := Z.of_N (N_of_ascii c) - 48.

(** The digits of [int(s)]: decimal digits, single underscores between them. *)
Fixpoint parse_digits (acc : Z) (prev_digit : bool) (s : string) : option Z :=
  match s with
  | "" => if prev_digit then Some acc else None
  | String c s' =>
      if is_digit c then parse_digits (acc * 10 + digit_val c) true s'
      else if (bool_decide (c = "_"%char) && prev_digit)%bool then parse_digits acc false s'
      else None
  end.
(** [int(s)]: [None] stands for its [ValueError]. *)
Definition py_int (s : string) : option Z :=
  match strip s with
  | "" => None
  | String c s' =>
      if bool_decide (c = "-"%char) then Z.opp <$> parse_digits 0 false s'
      else if bool_decide (c = "+"%char) then parse_digits 0 false s'
      else parse_digits 0 false (String c s')
  end.

Definition digit_char (n : Z) : ascii := ascii_of_N (48 + Z.to_N n).
Fixpoint dec_fuel (fuel : nat) (n : Z) (acc : string) : string :=
  match fuel with
  | 0%nat => acc
  | S fuel' =>
      let acc' := String (digit_char (n mod 10)) acc in
      if (n <? 10)%Z then acc' else dec_fuel fuel' (n / 10) acc'
  end.
(** [str(n)]. *)
Definition str_of_Z (n : Z) : string :=
  if (n <? 0)%Z then String "-" (dec_fuel (S (Z.to_nat (Z.log2 (- n)))) (- n) "")
  else dec_fuel (S (Z.to_nat (Z.log2 n))) n "".

(** ** Lemmas *)

Lemma str_app_nil_r s : s +:+ "" = s.
Proof. induction s as [|c s IH]; simpl; [done|]. by rewrite IH. Qed.

Lemma str_app_assoc a b c : (a +:+ b) +:+ c = a +:+ b +:+ c.
Proof. induction a as [|x a IH]; simpl; [done|]. by rewrite IH. Qed.

Lemma str_length_app a b : String.length (a +:+ b) = String.length a + String.length b.
Proof. induction a as [|c a IH]; simpl; [done|]. by rewrite IH. Qed.

Lemma str_all_app p a b : str_all p (a +:+ b) = str_all p a && str_all p b.
Proof. induction a as [|c a IH]; simpl; [done|]. by rewrite IH, andb_assoc. Qed.

Lemma str_any_app p a b : str_any p (a +:+ b) = str_any p a || str_any p b.
Proof. induction a as [|c a IH]; simpl; [done|]. by rewrite IH, orb_assoc. Qed.

Lemma str_any_all p s : str_any p s = negb (str_all (λ c, negb (p c)) s).
Proof. induction s as [|c s IH]; simpl; [done|]. rewrite IH. by destruct (p c). Qed.

Lemma str_all_mono (p q : ascii → bool) s :
  (∀ c, p c = true → q c = true) → str_all p s = true → str_all q s = true.
Proof.
  intros Hpq. induction s as [|c s IH]; simpl; [done|].
  rewrite !andb_true_iff. naive_solver.
Qed.

Lemma has_char_app c a b : has_char c (a +:+ b) = has_char c a || has_char c b.
Proof. apply str_any_app. Qed.

Lemma has_char_cons c d s : has_char c (String d s) = bool_decide (c = d) || has_char c s.
Proof. done. Qed.

Lemma str_drop_0 s : str_drop 0 s = s.
Proof.
  unfold str_drop. rewrite Nat.sub_0_r. induction s as [|c s IH]; simpl; [done|].
  by f_equal.
Qed.

Lemma str_drop_S c n s : str_drop (S n) (String c s) = str_drop n s.
Proof. done. Qed.

Lemma str_drop_app a b : str_drop (String.length a) (a +:+ b) = b.
Proof. induction a as [|c a IH]; simpl; [apply str_drop_0|]. by rewrite str_drop_S. Qed.

Lemma prefix_app a b : String.prefix a (a +:+ b) = true.
Proof.
  induction a as [|c a IH]; simpl; [by destruct b|].
  destruct (ascii_dec c c); [done|congruence].
Qed.

Lemma prefix_spec a s : String.prefix a s = true ↔ ∃ b, s = a +:+ b.
Proof.
  revert s. induction a as [|c a IH]; intros s; simpl.
  - split; [|by destruct s]. intros _. by exists s.
  - destruct s as [|d s].
    + split; [done|]. intros [b ?]. done.
    + simpl. destruct (ascii_dec c d) as [->|Hne].
      * split; [intros Hp; apply IH in Hp as [b ->]; by exists b|].
        intros [b Hb]. simplify_eq/=. apply prefix_app.
      * split; [done|]. intros [b ?]. simplify_eq/=.
Qed.

Lemma prefix_app_l p x s :
  String.length p ≤ String.length x → String.prefix p (x +:+ s) = String.prefix p x.
Proof.
  revert x. induction p as [|c p IH]; intros [|d x] Hl; simpl in *; try lia; try done.
  - by destruct s.
  - destruct (ascii_dec c d); [|done]. apply IH. lia.
Qed.

Lemma prefix_longer p x s :
  String.length x ≤ String.length p → String.prefix p (x +:+ s) = true → ∃ r, p = x +:+ r.
Proof.
  revert p. induction x as [|d x IH]; intros p Hl Hp; [by exists p|].
  destruct p as [|c p]; simpl in *; [lia|].
  destruct (ascii_dec c d) as [->|]; [|done]. destruct (IH p) as [r ->]; [lia|done|]. by exists r.
Qed.

Lemma str_drop_app_l k x s :
  k ≤ String.length x → str_drop k (x +:+ s) = str_drop k x +:+ s.
Proof.
  revert x. induction k as [|k IH]; intros x Hl; [by rewrite !str_drop_0|].
  destruct x as [|c x]; simpl in *; [lia|]. rewrite !str_drop_S. apply IH. lia.
Qed.

Lemma str_drop_length k s : String.length (str_drop k s) = String.length s - k.
Proof.
  revert s. induction k as [|k IH]; intros s; [rewrite str_drop_0; lia|].
  destruct s as [|c s]; [done|]. rewrite str_drop_S, IH. simpl. lia.
Qed.

Lemma contains_cons sub c s :
  contains sub (String c s) = String.prefix sub (String c s) || contains sub s.
Proof. done. Qed.

Lemma contains_prefix sub s : String.prefix sub s = true → contains sub s = true.
Proof. intros H. destruct s; simpl in *; by rewrite H. Qed.

Lemma contains_spec sub s : contains sub s = true ↔ ∃ a b, s = a +:+ sub +:+ b.
Proof.
  split.
  - induction s as [|c s IH].
    + intros Hc. destruct sub; [|done]. by exists "", "".
    + rewrite contains_cons, orb_true_iff. intros [Hp|Hc].
      * apply prefix_spec in Hp as [b Hb]. by exists "", b.
      * destruct (IH Hc) as (a & b & ->). by exists (String c a), b.
  - intros (a & b & ->). induction a as [|c a IH].
    + apply contains_prefix. apply (prefix_app sub b).
    + change (String c a +:+ sub +:+ b) with (String c (a +:+ sub +:+ b)).
      by rewrite contains_cons, IH, orb_true_r.
Qed.

Lemma str_snoc s : s ≠ "" → ∃ s' c, s = s' +:+ String c "".
Proof.
  induction s as [|c s IH]; [done|]. intros _. destruct s as [|d s].
  - by exists "", c.
  - destruct IH as (s' & e & ->); [done|]. by exists (String c s'), e.
Qed.

(** *** Stripping *)

Lemma rstrip_id p s : str_all (λ c, negb (p c)) s = true → rstrip_if p s = s.
Proof.
  induction s as [|c s IH]; simpl; [done|]. intros [Hc Hs]%andb_true_iff.
  rewrite IH by done. destruct s; [|done]. by destruct (p c).
Qed.

Lemma strip_if_id p s : str_all (λ c, negb (p c)) s = true → strip_if p s = s.
Proof.
  intros H. unfold strip_if. rewrite (rstrip_id p); [|].
  all: destruct s as [|c s]; simpl in *; [done|]; apply andb_true_iff in H as [Hc Hs];
    apply negb_true_iff in Hc; rewrite Hc; simpl; by rewrite ?Hc, ?Hs.
Qed.

(** Only the ends matter. *)
Lemma rstrip_last p s c : p c = false → rstrip_if p (s +:+ String c "") = s +:+ String c "".
Proof.
  intros Hc. induction s as [|d s IH]; simpl; [by rewrite Hc|].
  rewrite IH. by destruct s.
Qed.

Lemma strip_if_ends p c s d :
  p c = false → p d = false →
  strip_if p (String c (s +:+ String d "")) = String c (s +:+ String d "").
Proof.
  intros Hc Hd. unfold strip_if. simpl lstrip_if. rewrite Hc.
  apply (rstrip_last p (String c s)). done.
Qed.

(** *** Splitting and joining *)

Lemma split_on_nonempty c s : split_on c s ≠ [].
Proof. destruct s as [|d s]; simpl; [done|]. case_bool_decide; [done|]. by destruct (split_on c s). Qed.

Lemma join_cons sep x y l : join sep (x :: y :: l) = x +:+ sep +:+ join sep (y :: l).
Proof. done. Qed.

Lemma join_split_on c s : join (String c "") (split_on c s) = s.
Proof.
  induction s as [|d s IH]; simpl; [done|].
  pose proof (split_on_nonempty c s) as Hne.
  case_bool_decide as Hcd; destruct (split_on c s) as [|w ws] eqn:E; try done.
  - destruct Hcd. rewrite join_cons, IH. done.
  - destruct ws; [simpl in *; by rewrite IH|]. rewrite join_cons in *. rewrite <- IH. done.
Qed.

Lemma split_on_none c s : has_char c s = false → split_on c s = [s].
Proof.
  induction s as [|d s IH]; simpl; [done|].
  rewrite has_char_cons, orb_false_iff, bool_decide_eq_false. intros [Hcd Hs].
  rewrite bool_decide_false by done. by rewrite IH.
Qed.

Lemma split_on_app c a s :
  has_char c a = false → split_on c (a +:+ String c s) = a :: split_on c s.
Proof.
  induction a as [|d a IH]; simpl.
  - intros _. by rewrite bool_decide_true.
  - rewrite has_char_cons, orb_false_iff, bool_decide_eq_false. intros [Hcd Ha].
    rewrite bool_decide_false by done. by rewrite IH.
Qed.

Lemma split_on_join c ws :
  ws ≠ [] → Forall (λ w, has_char c w = false) ws → split_on c (join (String c "") ws) = ws.
Proof.
  intros Hne Hws. induction Hws as [|w ws Hw Hws IH]; [done|].
  destruct ws as [|w' ws]; [by apply split_on_none|].
  rewrite join_cons. change (String c "" +:+ join (String c "") (w' :: ws))
    with (String c (join (String c "") (w' :: ws))).
  rewrite split_on_app by done. by rewrite IH.
Qed.

Lemma split_on_pieces c s : Forall (λ w, has_char c w = false) (split_on c s).
Proof.
  induction s as [|d s IH]; simpl; [by repeat constructor|].
  case_bool_decide as Hcd; [by constructor|].
  destruct (split_on c s) as [|w ws]; inversion IH as [|?? Hw Hws]; subst; constructor; try done;
    by rewrite has_char_cons, bool_decide_false.
Qed.

Lemma split_once_app c a s :
  has_char c a = false → split_once c (a +:+ String c s) = Some (a, s).
Proof.
  induction a as [|d a IH]; simpl.
  - intros _. by rewrite bool_decide_true.
  - rewrite has_char_cons, orb_false_iff, bool_decide_eq_false. intros [Hcd Ha].
    rewrite bool_decide_false by done. by rewrite IH.
Qed.

Lemma split_once_None c s : split_once c s = None ↔ has_char c s = false.
Proof.
  induction s as [|d s IH]; simpl; [done|].
  rewrite has_char_cons. case_bool_decide; simpl; [done|].
  destruct (split_once c s) as [[a b]|]; naive_solver.
Qed.

Lemma split_once_Some c s a b :
  split_once c s = Some (a, b) ↔ s = a +:+ String c b ∧ has_char c a = false.
Proof.
  split; [|intros [-> ?]; by apply split_once_app].
  revert a. induction s as [|d s IH]; simpl; intros a; [done|].
  case_bool_decide; [naive_solver|].
  destruct (split_once c s) as [[a' b']|]; [|done]. intros; simplify_eq/=.
  destruct (IH a') as [-> Ha]; [done|]. split; [done|].
  by rewrite has_char_cons, Ha, bool_decide_false.
Qed.

(** *** Ends of stripped text *)

Lemma strip_chars_line l chars :
  str_all (λ c, negb (has_char c chars)) l = true → strip_chars chars l = l.
Proof. apply strip_if_id. Qed.

Lemma no_char_all c l : has_char c l = false → str_all (λ d, negb (bool_decide (c = d))) l = true.
Proof. unfold has_char. rewrite str_any_all. by intros ->%negb_false_iff. Qed.

Lemma no_chars_all c d l :
  has_char c l = false → has_char d l = false →
  str_all (λ e, negb (has_char e (String c (String d "")))) l = true.
Proof.
  induction l as [|e l IH]; [done|]. rewrite !has_char_cons, !orb_false_iff, !bool_decide_eq_false.
  intros [Hc Hl] [Hd Hl']. simpl. rewrite IH by done. rewrite !has_char_cons.
  by rewrite !bool_decide_false by congruence.
Qed.

Lemma join_app sep l ls l' ls' :
  join sep ((l :: ls) ++ (l' :: ls')) = join sep (l :: ls) +:+ sep +:+ join sep (l' :: ls').
Proof.
  revert l. induction ls as [|l1 ls IH]; intros l; [done|].
  change ((l :: l1 :: ls) ++ l' :: ls') with (l :: ((l1 :: ls) ++ l' :: ls')).
  change (join sep (l :: ((l1 :: ls) ++ l' :: ls')))
    with (l +:+ sep +:+ join sep ((l1 :: ls) ++ l' :: ls')).
  rewrite IH, join_cons, !str_app_assoc. done.
Qed.

Lemma has_char_one d c : d ≠ c → has_char d (String c "") = false.
Proof. intros H. unfold has_char. simpl. by rewrite bool_decide_false. Qed.

Lemma lstrip_if_app p a b : str_all p a = true → lstrip_if p (a +:+ b) = lstrip_if p b.
Proof.
  induction a as [|c a IH]; [done|]. simpl. intros [Hc Ha]%andb_true_iff. rewrite Hc. by apply IH.
Qed.

Lemma rstrip_if_app p a b : str_all p b = true → rstrip_if p (a +:+ b) = rstrip_if p a.
Proof.
  intros Hb. assert (rstrip_if p b = "") as Hr.
  { induction b as [|c b IH]; [done|]. simpl in *. apply andb_true_iff in Hb as [Hc Hb].
    by rewrite IH, Hc. }
  induction a as [|c a IH]; [done|]. simpl. by rewrite IH.
Qed.

Lemma lstrip_if_length p s : String.length (lstrip_if p s) ≤ String.length s.
Proof. induction s as [|c s IH]; simpl; [lia|]. destruct (p c); simpl; lia. Qed.

Lemma rstrip_if_length p s : String.length (rstrip_if p s) ≤ String.length s.
Proof.
  induction s as [|c s IH]; simpl; [lia|].
  destruct (rstrip_if p s) as [|d r]; [destruct (p c)|]; simpl in *; lia.
Qed.

(** A text that stripping leaves alone starts and ends with a kept character. *)
Lemma strip_if_fix_ends p s :
  strip_if p s = s → s ≠ "" →
  (∃ c s', s = String c s' ∧ p c = false) ∧ (∃ s' c, s = s' +:+ String c "" ∧ p c = false).
Proof.
  intros Hs Hne.
  assert (∃ c s', s = String c s' ∧ p c = false) as (c & s' & -> & Hc).
  { destruct s as [|c s']; [done|]. exists c, s'. split; [done|].
    destruct (p c) eqn:E; [|done]. exfalso. unfold strip_if in Hs. simpl in Hs. rewrite E in Hs.
    apply (f_equal String.length) in Hs. simpl in Hs.
    pose proof (rstrip_if_length p (lstrip_if p s')). pose proof (lstrip_if_length p s'). lia. }
  split; [eauto|]. destruct (str_snoc (String c s')) as (r & d & E); [done|].
  exists r, d. split; [done|]. destruct (p d) eqn:Ed; [|done]. exfalso.
  unfold strip_if in Hs. simpl lstrip_if in Hs. rewrite Hc, E in Hs.
  rewrite rstrip_if_app in Hs by (simpl; by rewrite Ed).
  apply (f_equal String.length) in Hs. rewrite str_length_app in Hs. simpl in Hs.
  pose proof (rstrip_if_length p r). lia.
Qed.

Lemma rstrip_if_twice p s : rstrip_if p (rstrip_if p s) = rstrip_if p s.
Proof.
  induction s as [|c s IH]; [done|]. simpl. destruct (rstrip_if p s) as [|d r] eqn:E.
  - destruct (p c) eqn:Hc; [done|]. simpl. by rewrite Hc.
  - change (match rstrip_if p (String d r) with
            | "" => if p c then "" else String c "" | x => String c x end = String c (String d r)).
    by rewrite IH.
Qed.
Lemma strip_if_twice p s : strip_if p (strip_if p s) = strip_if p s.
Proof.
  unfold strip_if. assert (lstrip_if p (rstrip_if p (lstrip_if p s)) = rstrip_if p (lstrip_if p s)) as ->;
    [|apply rstrip_if_twice].
  induction s as [|c s IH]; [done|]. simpl. destruct (p c) eqn:Hc; [exact IH|]. simpl.
  destruct (rstrip_if p s); simpl; rewrite Hc; [simpl; by rewrite Hc|done].
Qed.

Lemma strip_if_both p s c s' r d :
  s = String c s' → s = r +:+ String d "" → p c = false → p d = false → strip_if p s = s.
Proof.
  intros E1 E2 Hc Hd. unfold strip_if. rewrite E1 at 1. simpl. rewrite Hc, <- E1, E2.
  by apply rstrip_last.
Qed.

Lemma str_all_repeat p n c : p c = true → str_all p (repeat_char n c) = true.
Proof. intros Hc. induction n as [|n IH]; [done|]. simpl. by rewrite Hc. Qed.

Lemma strip_spaces n s : strip (repeat_char n ch_space +:+ s) = strip s.
Proof. unfold strip, strip_if. by rewrite lstrip_if_app by by apply str_all_repeat. Qed.

(** *** Integers *)

Lemma digit_cases d (P : Z → Prop) :
  (0 ≤ d < 10)%Z →
  P 0%Z → P 1%Z → P 2%Z → P 3%Z → P 4%Z → P 5%Z → P 6%Z → P 7%Z → P 8%Z → P 9%Z → P d.
Proof.
  intros Hd; intros. assert (d = 0 ∨ d = 1 ∨ d = 2 ∨ d = 3 ∨ d = 4 ∨ d = 5 ∨ d = 6 ∨ d = 7 ∨ d = 8
    ∨ d = 9)%Z as H' by lia. naive_solver.
Qed.

Lemma is_digit_char d : (0 ≤ d < 10)%Z → is_digit (digit_char d) = true.
Proof. intros Hd. apply (digit_cases d); done. Qed.

Lemma digit_val_char d : (0 ≤ d < 10)%Z → digit_val (digit_char d) = d.
Proof. intros Hd. apply (digit_cases d); done. Qed.

Lemma dec_fuel_digits fuel n acc :
  (0 ≤ n)%Z → str_all is_digit acc = true → str_all is_digit (dec_fuel fuel n acc) = true.
Proof.
  revert n acc. induction fuel as [|fuel IH]; intros n acc Hn Hacc; simpl; [done|].
  assert (str_all is_digit (String (digit_char (n mod 10)) acc) = true) as Hacc'.
  { simpl. rewrite is_digit_char, Hacc; [done|]. apply Z.mod_pos_bound. lia. }
  destruct (n <? 10)%Z; [done|]. apply IH; [|done]. apply Z.div_pos; lia.
Qed.

Lemma dec_fuel_parse fuel n tail a b :
  (0 ≤ n < 10 ^ Z.of_nat fuel)%Z → (0 < fuel)%nat →
  ∃ k : nat, parse_digits a b (dec_fuel fuel n tail)
             = parse_digits (a * 10 ^ Z.of_nat k + n) true tail.
Proof.
  revert n tail a b. induction fuel as [|fuel IH]; intros n tail a b Hn Hf; [lia|].
  simpl dec_fuel.
  assert (0 ≤ n mod 10 < 10)%Z as Hm by (apply Z.mod_pos_bound; lia).
  pose proof (Z.div_mod n 10 ltac:(lia)) as Hdm.
  destruct (n <? 10)%Z eqn:E.
  - apply Z.ltb_lt in E. exists 1%nat. simpl.
    rewrite is_digit_char, digit_val_char by done.
    rewrite Z.mod_small by lia. done.
  - apply Z.ltb_ge in E.
    assert (0 < fuel)%nat as Hf'.
    { destruct fuel; [|lia]. simpl in Hn. lia. }
    assert (0 ≤ n / 10 < 10 ^ Z.of_nat fuel)%Z as Hn'.
    { split; [apply Z.div_pos; lia|]. apply Z.div_lt_upper_bound; [lia|].
      replace (10 * 10 ^ Z.of_nat fuel)%Z with (10 ^ Z.of_nat (S fuel))%Z; [lia|].
      rewrite Nat2Z.inj_succ, Z.pow_succ_r by lia. done. }
    destruct (IH _ (String (digit_char (n mod 10)) tail) a b Hn' Hf') as [k Hk].
    exists (S k). rewrite Hk. simpl.
    rewrite is_digit_char, digit_val_char by done. f_equal.
    rewrite Nat2Z.inj_succ, Z.pow_succ_r by lia. lia.
Qed.

Lemma dec_fuel_enough n : (0 ≤ n)%Z → (0 ≤ n < 10 ^ Z.of_nat (S (Z.to_nat (Z.log2 n))))%Z.
Proof.
  intros Hn. split; [done|].
  rewrite Nat2Z.inj_succ, Z2Nat.id by apply Z.log2_nonneg.
  destruct (Z.eq_dec n 0) as [->|]; [done|].
  pose proof (Z.log2_spec n ltac:(lia)) as [_ H].
  eapply Z.lt_le_trans; [done|]. apply Z.pow_le_mono_l. pose proof (Z.log2_nonneg n). lia.
Qed.

Lemma str_of_Z_digits n : (0 ≤ n)%Z → str_all is_digit (str_of_Z n) = true.
Proof.
  intros Hn. unfold str_of_Z. rewrite (proj2 (Z.ltb_ge n 0)) by done. by apply dec_fuel_digits.
Qed.

Lemma parse_digits_str_of_Z n : (0 ≤ n)%Z → parse_digits 0 false (str_of_Z n) = Some n.
Proof.
  intros Hn. unfold str_of_Z. rewrite (proj2 (Z.ltb_ge n 0)) by done.
  destruct (dec_fuel_parse (S (Z.to_nat (Z.log2 n))) n "" 0 false) as [k Hk];
    [by apply dec_fuel_enough|lia|].
  rewrite Hk. simpl. f_equal; lia.
Qed.

Lemma is_digit_not_space c : is_digit c = true → negb (is_space c) = true.
Proof.
  unfold is_digit, is_space. rewrite andb_true_iff, !N.leb_le. intros ?.
  apply negb_true_iff. apply orb_false_iff; split; apply andb_false_iff;
    rewrite !N.leb_gt; lia.
Qed.

Lemma is_digit_ne c d : is_digit c = true → is_digit d = false → c ≠ d.
Proof. intros Hc Hd ->. congruence. Qed.

Lemma py_int_digits s n :
  str_all is_digit s = true → parse_digits 0 false s = Some n → py_int s = Some n.
Proof.
  intros Hd Hp. unfold py_int, strip. rewrite strip_if_id.
  2: { eapply str_all_mono; [|done]. apply is_digit_not_space. }
  destruct s as [|c s]; [done|]. simpl in Hd. apply andb_true_iff in Hd as [Hc _].
  rewrite !bool_decide_false by (by apply is_digit_ne). done.
Qed.

(** [int(str(n)) == n] for the naturals. *)
Lemma py_int_str_of_Z n : (0 ≤ n)%Z → py_int (str_of_Z n) = Some n.
Proof.
  intros Hn. apply py_int_digits; [by apply str_of_Z_digits|by apply parse_digits_str_of_Z].
Qed.

Lemma str_of_Z_inj m n : (0 ≤ m)%Z → (0 ≤ n)%Z → str_of_Z m = str_of_Z n → m = n.
Proof.
  intros Hm Hn H. pose proof (py_int_str_of_Z m Hm) as E.
  rewrite H, py_int_str_of_Z in E by done. congruence.
Qed.

Lemma str_of_Z_no_char c n :
  (0 ≤ n)%Z → is_digit c = false → has_char c (str_of_Z n) = false.
Proof.
  intros Hn Hc. unfold has_char. rewrite str_any_all. apply negb_false_iff.
  eapply str_all_mono; [|by apply str_of_Z_digits].
  intros d Hd. apply negb_true_iff, bool_decide_false. intros ->. congruence.
Qed.

(** *** Case *)

Lemma upper_ascii_idem c : upper_ascii (upper_ascii c) = upper_ascii c.
Proof. destruct c as [[] [] [] [] [] [] [] []]; reflexivity. Qed.
Lemma lower_ascii_idem c : lower_ascii (lower_ascii c) = lower_ascii c.
Proof. destruct c as [[] [] [] [] [] [] [] []]; reflexivity. Qed.
Lemma str_upper_idem s : str_upper (str_upper s) = str_upper s.
Proof. unfold str_upper. induction s as [|c s IH]; simpl; [done|]. by rewrite IH, upper_ascii_idem. Qed.
Lemma str_lower_idem s : str_lower (str_lower s) = str_lower s.
Proof. unfold str_lower. induction s as [|c s IH]; simpl; [done|]. by rewrite IH, lower_ascii_idem. Qed.
Lemma str_map_app f a b : str_map f (a +:+ b) = str_map f a +:+ str_map f b.
Proof. induction a as [|c a IH]; simpl; [done|]. by rewrite IH. Qed.
Lemma str_upper_app a b : str_upper (a +:+ b) = str_upper a +:+ str_upper b.
Proof. apply str_map_app. Qed.
Lemma str_map_id f s : str_all (λ c, bool_decide (f c = c)) s = true → str_map f s = s.
Proof.
  induction s as [|c s IH]; simpl; [done|]. intros [->%bool_decide_eq_true ?]%andb_true_iff.
  by rewrite IH.
Qed.
Lemma str_map_all (f : ascii → ascii) (p : ascii → bool) s :
  (∀ c, p c = true → f c = c) → str_all p s = true → str_map f s = s.
Proof.
  intros Hf Hs. apply str_map_id. eapply str_all_mono; [|done].
  intros c Hc. by apply bool_decide_eq_true, Hf.
Qed.

Lemma upper_digit c : is_digit c = true → upper_ascii c = c.
Proof. destruct c as [[] [] [] [] [] [] [] []]; done. Qed.
Lemma str_upper_digits s : str_all is_digit s = true → str_upper s = s.
Proof.
  intros H. apply str_map_id. eapply str_all_mono; [|done].
  intros c Hc. apply bool_decide_eq_true. by apply upper_digit.
Qed.
Lemma str_map_length f s : String.length (str_map f s) = String.length s.
Proof. induction s as [|c s IH]; simpl; [done|]. by rewrite IH. Qed.

#[export] Hint Resolve str_of_Z_digits split_on_nonempty split_on_pieces : irrd.

(** ** [str.format] *)

(** With keyword arguments, for fields that are plain names; [field] is the name
    read so far, within braces. *)
Fixpoint format_from (args : list (string * string)) (field : option string) (s : string) : res string :=
  match field, s with
  | None, "" => Ok ""
  | None, String "{"%char (String "{"%char s') => rest ← format_from args None s'; Ok (String "{"%char rest)
  | None, String "{"%char s' => format_from args (Some "") s'
  | None, String "}"%char (String "}"%char s') => rest ← format_from args None s'; Ok (String "}"%char rest)
  | None, String "}"%char _ => Raise (ValueError "Single '}' encountered in format string")
  | None, String c s' => rest ← format_from args None s'; Ok (String c rest)
  | Some _, "" => Raise (ValueError "expected '}' before end of string")
  | Some _, String "{"%char _ => Raise (ValueError "unexpected '{' in field name")
  | Some name, String "}"%char s' =>
      if str_all is_digit name then Raise IndexError
      else match List.find (λ x : string * string, String.eqb x.1 name) args with
           | Some (_, v) => rest ← format_from args None s'; Ok (v +:+ rest)
           | None => Raise (KeyError name)
           end
  | Some name, String c s' => format_from args (Some (name +:+ String c "")) s'
  end.
Definition py_format (args : list (string * string)) (s : string) : res string := format_from args None s.

(** ** UTF-8 *)
Definition is_ascii_char (c : ascii) : bool := (N_of_ascii c <? 128)%N.
Lemma utf8_encode_app a b : utf8_encode (a +:+ b) = utf8_encode a +:+ utf8_encode b.
Proof. induction a as [|c a IH]; [done|]. simpl. rewrite IH. by destruct (_ <? _)%N. Qed.
Lemma utf8_encode_ascii a : str_all is_ascii_char a = true → utf8_encode a = a.
Proof.
  induction a as [|c a IH]; [done|]. simpl. unfold is_ascii_char at 1. intros [Hc Ha]%andb_true_iff. by rewrite Hc, IH.
Qed.
Lemma utf8_decode_ascii a b : str_all is_ascii_char a = true → utf8_decode (a +:+ b) = a +:+ utf8_decode b.
Proof.
  induction a as [|c a IH]; [done|]. simpl. unfold is_ascii_char at 1. intros [Hc Ha]%andb_true_iff. by rewrite Hc, IH.
Qed.
Lemma utf8_decode_encode s : utf8_decode (utf8_encode s) = s.
Proof.
  induction s as [|c s IH]; [done|]. transitivity (String c (utf8_decode (utf8_encode s))); [|by rewrite IH].
  cbn [utf8_encode]. generalize (utf8_encode s). intros t. destruct c as [[] [] [] [] [] [] [] []]; reflexivity.
Qed.
Lemma high_bytes c : is_ascii_char c = false →
  is_ascii_char (ascii_of_N (192 + N_of_ascii c / 64)) = false ∧ is_ascii_char (ascii_of_N (128 + N_of_ascii c mod 64)) = false.
Proof. destruct c as [[] [] [] [] [] [] [] []]; intros; try discriminate; by split. Qed.
Lemma utf8_encode_char c s : is_ascii_char c = true → has_char c (utf8_encode s) = has_char c s.
Proof.
  intros Hc. assert (∀ d, is_ascii_char d = false → bool_decide (c = d) = false) as Hne.
  { intros d Hd. apply bool_decide_eq_false. congruence. }
  induction s as [|d s IH]; [done|]. cbn [utf8_encode]. change (N_of_ascii d <? 128)%N with (is_ascii_char d).
  destruct (is_ascii_char d) eqn:Hd; rewrite !has_char_cons, IH; [done|].
  destruct (high_bytes d Hd) as [H1 H2]. by rewrite !Hne.
Qed.
