(* ===== verification/Conf.v ===== *)
(** * Configuration lookups ([irrd/conf/__init__.py])

    The configuration is a tree of Python values read from YAML; a setting is
    found by walking its dotted name ([irrd/vendor/dotted/collection.py]). *)
From S2P Require Import Prelude PyStr.

(** Python values as they occur in settings. *)
Inductive pyval : Type :=
| VNone
| VBool (b : bool)
| VInt (z : Z)
| VStr (s : string)
| VList (l : list pyval)
| VDict (d : list (string * pyval)).

(** [bool(value)]. *)
Definition truthy (v : pyval) : bool :=
  match v with
  | VNone => false
  | VBool b => b
  | VInt z => negb (z =? 0)%Z
  | VStr s => negb (String.eqb s "")
  | VList l => match l with [] => false | _ => true end
  | VDict d => match d with [] => false | _ => true end
  end.

Definition is_none (v : pyval) : bool := match v with VNone => true | _ => false end.

(** [str(value)] for the scalar values settings hold. *)
Definition pyval_str (v : pyval) : string :=
  match v with
  | VNone => "None"
  | VBool true => "True"
  | VBool false => "False"
  | VInt z => str_of_Z z
  | VStr s => s
  | VList _ | VDict _ => ""
  end.
(** [int(value)]; [None] stands for the exception. *)
Definition pyval_int (v : pyval) : option Z :=
  match v with
  | VInt z => Some z
  | VBool b => Some (if b then 1 else 0)%Z
  | VStr s => py_int s
  | VNone | VList _ | VDict _ => None
  end.
Definition pyval_items (v : pyval) : list (string * pyval) :=
  match v with VDict d => d | _ => [] end.
(** Iterating a list of strings. *)
Definition pyval_strs (v : pyval) : list string :=
  match v with
  | VList l => omap (λ x, match x with VStr s => Some s | _ => None end) l
  | _ => []
  end.

Fixpoint assoc {A} (k : string) (l : list (string * A)) : option A :=
  match l with
  | [] => None
  | (k', v) :: l' => if decide (k = k') then Some v else assoc k l'
  end.

(** [DottedDict.__getitem__] along the components of the key. *)
Fixpoint dotted_walk (path : list string) (v : pyval) : option pyval :=
  match path with
  | [] => Some v
  | k :: path' =>
      match v with
      | VDict d => match assoc k d with Some v' => dotted_walk path' v' | None => None end
      | _ => None
      end
  end.
Definition dotted_get (key : string) (v : pyval) : option pyval :=
  dotted_walk (split_on "."%char key) v.

Record configuration := {
  environ : list (string * string);
  testing_overrides : pyval;
  user_config_live : pyval;
  default_config : pyval;
  known_config_keys : pyval;
  known_sources_keys : list string;
  known_flexible_keys : list string;
}.

(** The check of the name, first half of [get_setting_live]. *)
Definition setting_known (cfg : configuration) (setting_name : string) : bool :=
  if startswith "sources" setting_name then
    match split_on "."%char setting_name with
    | [_; _; c] => bool_decide (c ∈ known_sources_keys cfg)
    | _ => true
    end
  else
    existsb (λ k, startswith k setting_name) (known_flexible_keys cfg)
    || match dotted_get setting_name (known_config_keys cfg) with
       | Some VNone | None => false
       | Some _ => true
       end.

(** The value: environment, testing overrides, user configuration, defaults. *)
Definition setting_value (cfg : configuration) (setting_name : string) (default : pyval) : pyval :=
  let env_key := "IRRD_" +:+ replace_char "."%char "_" (str_upper setting_name) in
  match assoc env_key (environ cfg) with
  | Some v => VStr v
  | None =>
      match (if truthy (testing_overrides cfg)
             then dotted_get setting_name (testing_overrides cfg) else None) with
      | Some v => v
      | None =>
          match dotted_get setting_name (user_config_live cfg) with
          | Some v => v
          | None =>
              match dotted_get setting_name (default_config cfg) with
              | Some v => v
              | None => default
              end
          end
      end
  end.

Definition get_setting_live (cfg : configuration) (setting_name : string) (default : pyval)
  : res pyval :=
  if setting_known cfg setting_name then Ok (setting_value cfg setting_name default)
  else Raise (ValueError ("Unknown setting " +:+ setting_name)).

(** [get_setting] as the components use it: every key they ask for is a known
    one, so the lookup is the value ([get_setting_known]). *)
Definition get_setting (cfg : configuration) (setting_name : string) : pyval :=
  setting_value cfg setting_name VNone.
Definition get_setting_default (cfg : configuration) (setting_name : string) (default : pyval)
  : pyval := setting_value cfg setting_name default.

Lemma get_setting_known cfg name :
  setting_known cfg name = true → get_setting_live cfg name VNone = Ok (get_setting cfg name).
Proof. unfold get_setting_live. by intros ->. Qed.

(** [for x in v]. *)
Definition config_type_error : exn := GenericException "TypeError".
Definition iter_of (v : pyval) : res (list pyval) :=
  match v with
  | VList l => Ok l
  | VDict d => Ok (VStr <$> d.*1)
  | VStr s => Ok ((λ c, VStr (String c "")) <$> String.list_ascii_of_string s)
  | _ => Raise config_type_error
  end.

(** [get_setting(f"sources.{source}.{key}")]. *)
Definition source_setting (cfg : configuration) (source key : string) : pyval :=
  get_setting cfg ("sources." +:+ source +:+ "." +:+ key).

(** [get_setting("sources", {}).items()]. *)
Definition sources_items (cfg : configuration) : list (string * pyval) :=
  pyval_items (get_setting_default cfg "sources" (VDict [])).
Definition sources_keys (cfg : configuration) : list string := (sources_items cfg).*1.

(** [settings.get(key)] on the settings of one source. *)
Definition settings_get (settings : pyval) (key : string) : pyval :=
  match settings with
  | VDict d => match assoc key d with Some v => v | None => VNone end
  | _ => VNone
  end.

Definition get_object_class_filter_for_source (cfg : configuration) (source : string)
  : option (list string) :=
  let object_class_filter := source_setting cfg source "object_class_filter" in
  if truthy object_class_filter then
    let l := match object_class_filter with
             | VStr s => [s]
             | v => pyval_strs v
             end in
    Some ((λ c, str_lower (strip c)) <$> l)
  else None.

Definition RPKI_IRR_PSEUDO_SOURCE : string := "RPKI".
Definition RPSL_MNTNER_AUTH_INTERNAL : string := "IRRD-INTERNAL-AUTH".
Definition PASSWORD_HASH_DUMMY_VALUE : string := "DummyValue".
Definition AUTH_SET_CREATION_COMMON_KEY : string := "COMMON".
Definition SOCKET_DEFAULT_TIMEOUT : Z := 30.

(** A configuration given by its user part alone. *)
Definition conf_of (user : pyval) : configuration := {|
  environ := []; testing_overrides := VNone; user_config_live := user;
  default_config := VDict []; known_config_keys := VDict []; known_sources_keys := [];
  known_flexible_keys := [] |}.

(** ** Lemmas *)

(** Nothing but the user configuration sets sources. *)
Record conf_plain (cfg : configuration) : Prop := {
  plain_env : environ cfg = [];
  plain_overrides : truthy (testing_overrides cfg) = false;
  plain_default : dotted_walk ["sources"] (default_config cfg) = None;
  plain_keys : NoDup (sources_keys cfg);
}.

Lemma dotted_walk_app p q v :
  dotted_walk (p ++ q) v = dotted_walk p v ≫= dotted_walk q.
Proof.
  revert v. induction p as [|k p IH]; intros v; simpl; [done|].
  destruct v; try done. destruct (assoc k d); [apply IH|done].
Qed.

(** The dotted lookup of one source's setting is the lookup in the settings the
    iteration over [sources] yields. *)
Lemma source_setting_plain cfg source key :
  conf_plain cfg → has_char "."%char source = false → has_char "."%char key = false →
  source_setting cfg source key
  = match assoc source (sources_items cfg) with
    | Some settings => settings_get settings key
    | None => VNone
    end.
Proof.
  intros [He Ho Hd Hk] Hs Hkey.
  unfold source_setting, get_setting, sources_items, get_setting_default, setting_value.
  rewrite He, Ho. simpl assoc. cbv beta iota.
  assert (split_on "."%char ("sources." +:+ source +:+ "." +:+ key) = ["sources"; source; key])
    as Hsplit.
  { change ("sources." +:+ source +:+ "." +:+ key)
      with ("sources" +:+ String "." (source +:+ String "." key)).
    rewrite split_on_app by done. rewrite split_on_app by done. by rewrite (split_on_none _ key). }
  unfold dotted_get. rewrite Hsplit.
  change (split_on "."%char "sources") with ["sources"].
  rewrite Hd.
  change ["sources"; source; key] with (["sources"] ++ [source; key]).
  rewrite (dotted_walk_app _ _ (user_config_live cfg)), (dotted_walk_app _ _ (default_config cfg)), Hd.
  destruct (dotted_walk ["sources"] (user_config_live cfg)) as [v|]; [|done].
  destruct v; try done. simpl. destruct (assoc source d) as [w|]; [|done].
  destruct w; try done. simpl. by destruct (assoc key d0).
Qed.

Lemma assoc_elem {A} k (l : list (string * A)) v : assoc k l = Some v → (k, v) ∈ l.
Proof.
  induction l as [|[k' v'] l IH]; simpl; [done|]. case_decide; [|set_solver].
  intros; simplify_eq. set_solver.
Qed.

Lemma assoc_NoDup {A} k v (l : list (string * A)) :
  NoDup l.*1 → (k, v) ∈ l → assoc k l = Some v.
Proof.
  induction l as [|[k' v'] l IH]; simpl; [set_solver|].
  intros [Hn Hnd]%NoDup_cons Hin. apply elem_of_cons in Hin as [Heq|Hin].
  - simplify_eq. by rewrite decide_True.
  - rewrite decide_False; [by apply IH|]. intros ->. apply Hn. by apply (list_elem_of_fmap_2 fst) in Hin.
Qed.

(** The sources whose settings have a truthy [key], as loops over the source
    settings collect them. *)
Definition sources_with (cfg : configuration) (key : string) : list string :=
  omap (λ '(source, settings), if truthy (settings_get settings key) then Some source else None)
    (sources_items cfg).

Lemma sources_with_spec cfg source key :
  conf_plain cfg → has_char "."%char source = false → has_char "."%char key = false →
  source ∈ sources_with cfg key ↔ truthy (source_setting cfg source key) = true.
Proof.
  intros Hc Hs Hk. rewrite source_setting_plain by done. unfold sources_with.
  rewrite list_elem_of_omap. split.
  - intros ([s settings] & Hin & Hsome). destruct (truthy _) eqn:E; [|done]. simplify_eq.
    rewrite (assoc_NoDup _ settings); [done|apply (plain_keys _ Hc)|done].
  - destruct (assoc source (sources_items cfg)) as [settings|] eqn:E; [|done].
    intros Ht. exists (source, settings). rewrite Ht. split; [|done]. by apply assoc_elem.
Qed.
