(* ===== verification/Net.v ===== *)
(** * IP addresses and prefixes

    [IPy] is a third-party package: its [IP] objects are a parameter, with the
    operations the code calls and the documented facts it relies on
    ([IPyLaws]).  [socket.inet_pton] is Python's standard library and modelled
    here.  [ConcreteIP] is one instance, used by the witnesses. *)
From S2P Require Import Prelude PyStr.

(** Width of an address. *)
Definition ip_width (version : Z) : Z := if (version =? 6)%Z then 128 else 32.

Class IPyLib := {
  IP : Type;
  IP_eq_dec :: EqDecision IP;
  (** [IP(s, ipversion=v)]; [v = 0] leaves the version open.  The message of
      its [ValueError] otherwise. *)
  ip_of : Z → string → string + IP;
  (** [IP(n)] of an integer. *)
  ip_of_int : Z → string + IP;
  ip_version : IP → Z;
  ip_prefixlen : IP → Z;
  ip_int : IP → Z;
  ip_net : IP → IP;
  ip_broadcast : IP → IP;
  ip_str : IP → string;
  ip_strBin : IP → string;
  (** [a.overlaps(b)], as a truth value. *)
  ip_overlaps : IP → IP → bool;
  (** [a in b]. *)
  ip_contains : IP → IP → bool;
  (** [ip.v46map()]; [None] for its [ValueError]. *)
  ip_v46map : IP → option IP;
}.

(** First and last address of a prefix. *)
Definition ip_first `{IPyLib} (p : IP) : Z := ip_int p.
Definition ip_last `{IPyLib} (p : IP) : Z :=
  (ip_int p + 2 ^ (ip_width (ip_version p) - ip_prefixlen p) - 1)%Z.

(** Binary digits of [n], most significant first, on [w] places. *)
Fixpoint bits (w : nat) (n : Z) : string :=
  match w with
  | 0%nat => ""
  | S w' => String (if Z.testbit n (Z.of_nat w') then "1" else "0")%char (bits w' n)
  end.

Class IPyLaws `{IPyLib} : Prop := {
  ip_version_ok : ∀ p, ip_version p = 4%Z ∨ ip_version p = 6%Z;
  ip_prefixlen_ok : ∀ p, (0 ≤ ip_prefixlen p ≤ ip_width (ip_version p))%Z;
  ip_int_ok : ∀ p, (0 ≤ ip_int p < 2 ^ ip_width (ip_version p))%Z;
  (** IPy refuses a prefix with host bits set. *)
  ip_aligned : ∀ p, (ip_int p mod 2 ^ (ip_width (ip_version p) - ip_prefixlen p) = 0)%Z;
  ip_strBin_ok : ∀ p, ip_strBin p = bits (Z.to_nat (ip_width (ip_version p))) (ip_int p);
  ip_overlaps_ok : ∀ a b, ip_version a = ip_version b →
    ip_overlaps a b = true ↔ (ip_first a ≤ ip_last b)%Z ∧ (ip_first b ≤ ip_last a)%Z;
  ip_contains_ok : ∀ a b, ip_version a = ip_version b →
    ip_contains a b = true ↔ (ip_first b ≤ ip_first a)%Z ∧ (ip_last a ≤ ip_last b)%Z;
  ip_contains_version : ∀ a b, ip_version a ≠ ip_version b → ip_contains a b = false;
}.

(** ** [socket.inet_pton] *)

Definition octet (s : string) : option Z :=
  if (str_all is_digit s && (Nat.leb 1 (String.length s)) && (Nat.leb (String.length s) 3)
      && ((Nat.eqb (String.length s) 1) || negb (startswith "0" s)))%bool
  then match parse_digits 0 false s with
       | Some n => if (n <=? 255)%Z then Some n else None
       | None => None
       end
  else None.

Definition inet_pton4 (s : string) : option (list Z) :=
  match split_on "."%char s with
  | [a; b; c; d] =>
      a ← octet a; b ← octet b; c ← octet c; d ← octet d; Some [a; b; c; d]
  | _ => None
  end.

Definition hex_val (c : ascii) : option Z :=
  let n := Z.of_N (N_of_ascii c) in
  if (48 <=? n)%Z && (n <=? 57)%Z then Some (n - 48)%Z
  else if (97 <=? n)%Z && (n <=? 102)%Z then Some (n - 87)%Z
  else if (65 <=? n)%Z && (n <=? 70)%Z then Some (n - 55)%Z
  else None.
Fixpoint hex_fold (acc : Z) (s : string) : option Z :=
  match s with
  | "" => Some acc
  | String c s' => v ← hex_val c; hex_fold (acc * 16 + v)%Z s'
  end.
(** A 16-bit group: one to four hexadecimal digits. *)
Definition hex_group (s : string) : option Z :=
  if (Nat.leb 1 (String.length s) && Nat.leb (String.length s) 4)%bool then hex_fold 0 s else None.

(** The groups between colons; the last may be a dotted IPv4 address. *)
Fixpoint hex_groups (ws : list string) : option (list Z) :=
  match ws with
  | [] => Some []
  | [w] =>
      match inet_pton4 w with
      | Some [a; b; c; d] => Some [a * 256 + b; c * 256 + d]%Z
      | _ => g ← hex_group w; Some [g]
      end
  | w :: ws' => g ← hex_group w; gs ← hex_groups ws'; Some (g :: gs)
  end.
Definition groups_of (s : string) : option (list Z) :=
  if String.eqb s "" then Some [] else hex_groups (split_on ":"%char s).
(** Split at the first ["::"]. *)
Fixpoint split_gap (s : string) : option (string * string) :=
  match s with
  | "" => None
  | String c s' =>
      if startswith "::" s then Some ("", str_drop 2 s)
      else match split_gap s' with
           | Some (a, b) => Some (String c a, b)
           | None => None
           end
  end.
Definition group_bytes (g : Z) : list Z := [g / 256; g mod 256]%Z.
Definition inet_pton6 (s : string) : option (list Z) :=
  match split_gap s with
  | None =>
      gs ← groups_of s;
      if Nat.eqb (length gs) 8 then Some (concat (group_bytes <$> gs)) else None
  | Some (a, b) =>
      ga ← groups_of a; gb ← groups_of b;
      if Nat.leb (length ga + length gb) 7
      then Some (concat (group_bytes <$> (ga ++ repeat 0%Z (8 - length ga - length gb) ++ gb)))
      else None
  end.

(** ** Bits of an address *)

Lemma bits_length w n : String.length (bits w n) = w.
Proof. induction w as [|w IH]; simpl; [done|]. by rewrite IH. Qed.

Lemma bits_ext w m n :
  (∀ i, (0 ≤ i < Z.of_nat w)%Z → Z.testbit m i = Z.testbit n i) → bits w m = bits w n.
Proof.
  induction w as [|w IH]; intros H; simpl; [done|].
  rewrite H by lia. f_equal. apply IH. intros i Hi. apply H. lia.
Qed.

Lemma bits_inj w m n :
  bits w m = bits w n → ∀ i, (0 ≤ i < Z.of_nat w)%Z → Z.testbit m i = Z.testbit n i.
Proof.
  induction w as [|w IH]; simpl; intros H i Hi; [lia|].
  injection H as Hb Hr.
  destruct (Z.eq_dec i (Z.of_nat w)) as [->|Hne].
  - by destruct (Z.testbit m _), (Z.testbit n _).
  - apply IH; [done|lia].
Qed.

(** The first [k] of [k + r] digits are the digits of [n / 2^r]. *)
Lemma bits_take k r n : str_take k (bits (k + r) n) = bits k (Z.shiftr n (Z.of_nat r)).
Proof.
  unfold str_take. induction k as [|k IH]; simpl; [by destruct r|].
  rewrite IH. f_equal. rewrite Z.shiftr_spec, Nat2Z.inj_add by lia. done.
Qed.

Lemma bits_app k r n : bits (k + r) n = bits k (Z.shiftr n (Z.of_nat r)) +:+ bits r n.
Proof.
  induction k as [|k IH]; simpl; [done|]. rewrite IH. f_equal.
  rewrite Z.shiftr_spec, Nat2Z.inj_add by lia. done.
Qed.

#[global] Arguments bits : simpl never.

(** Bytes, most significant first. *)
Definition bytes_val (l : list Z) : Z := foldl (λ acc b, acc * 256 + b)%Z 0%Z l.

Lemma bytes_bits_acc l acc n :
  Forall (λ b, (0 ≤ b < 256)%Z) l → (0 ≤ acc)%Z →
  bits (n + 8 * length l) (foldl (λ acc b, acc * 256 + b)%Z acc l)
  = bits n acc +:+ concat_str (bits 8 <$> l).
Proof.
  revert acc n. induction l as [|b l IH]; intros acc n Hl Hacc; simpl.
  - rewrite Nat.add_0_r. by rewrite str_app_nil_r.
  - apply Forall_cons in Hl as [Hb Hl].
    replace (n + _) with ((n + 8) + 8 * length l) by lia.
    rewrite IH by (done || lia).
    rewrite bits_app, str_app_assoc.
    assert (bits n (Z.shiftr (acc * 256 + b) (Z.of_nat 8)) = bits n acc) as ->.
    { apply bits_ext. intros i Hi. f_equal. rewrite Z.shiftr_div_pow2 by lia.
      rewrite Z.add_comm. change (2 ^ Z.of_nat 8)%Z with 256%Z. rewrite Z.div_add by lia.
      rewrite Z.div_small by lia. done. }
    assert (bits 8 (acc * 256 + b) = bits 8 b) as ->; [|done].
    apply bits_ext. intros i Hi.
    replace (acc * 256 + b)%Z with (b + acc * 2 ^ 8)%Z by lia.
    rewrite <- (Z.mod_pow2_bits_low (b + acc * 2 ^ 8) 8 i) by lia.
    rewrite Z.mod_add by lia. rewrite Z.mod_pow2_bits_low by lia. done.
Qed.

Lemma bytes_bits l :
  Forall (λ b, (0 ≤ b < 256)%Z) l → concat_str (bits 8 <$> l) = bits (8 * length l) (bytes_val l).
Proof.
  intros Hl. pose proof (bytes_bits_acc l 0 0 Hl ltac:(lia)) as H. symmetry. apply H.
Qed.

(** ** A concrete instance of the interface *)

Module ConcreteIP.
(** Version, network address and prefix length, with no host bits set. *)
Definition ip_check (x : Z * Z * Z) : bool :=
  let '(v, a, l) := x in
  ((v =? 4) || (v =? 6))%Z && ((0 <=? l) && (l <=? ip_width v))%Z
  && ((0 <=? a) && (a <? 2 ^ ip_width v))%Z && (a mod 2 ^ (ip_width v - l) =? 0)%Z.
Definition cip : Type := { x : Z * Z * Z | ip_check x = true }.
#[export] Instance cip_eq : EqDecision cip.
Proof.
  intros [x Hx] [y Hy]. destruct (decide (x = y)) as [E|N].
  - left. subst. f_equal. apply proof_irrel.
  - right. intros [= E]. done.
Defined.
Definition mk (v a l : Z) : option cip :=
  match bool_dec (ip_check (v, a, l)) true with
  | left E => Some (exist _ (v, a, l) E)
  | right _ => None
  end.
Definition version (p : cip) : Z := (`p).1.1.
Definition addr (p : cip) : Z := (`p).1.2.
Definition plen (p : cip) : Z := (`p).2.
Definition default_ip : cip := exist _ (4, 0, 0)%Z eq_refl.
Definition mk_d (v a l : Z) : cip := default default_ip (mk v a l).

Definition of_string (v : Z) (s : string) : string + cip :=
  let '(a, l) := match split_once "/"%char s with
                 | Some (a, l) => (a, Some l)
                 | None => (s, None)
                 end in
  let v' := if has_char ":"%char a then 6%Z else 4%Z in
  if negb (v =? 0)%Z && negb (v =? v')%Z then inl "invalid version"
  else
    match (if (v' =? 6)%Z then inet_pton6 a else inet_pton4 a),
          match l with None => Some (ip_width v') | Some l => py_int l end with
    | Some bytes, Some l =>
        match mk v' (bytes_val bytes) l with
        | Some p => inr p
        | None => inl "invalid prefix"
        end
    | _, _ => inl "not an IP address"
    end.

Definition byte (a i : Z) : Z := (Z.shiftr a (8 * i) mod 256)%Z.
Definition hex_digit (n : Z) : ascii :=
  ascii_of_N (Z.to_N (if (n <? 10)%Z then 48 + n else 87 + n)).
Definition hex4 (n : Z) : string :=
  String (hex_digit (n / 4096)) (String (hex_digit (n / 256 mod 16))
    (String (hex_digit (n / 16 mod 16)) (String (hex_digit (n mod 16)) ""))).
Definition addr_str (v a : Z) : string :=
  if (v =? 4)%Z then join "." ((λ i, str_of_Z (byte a i)) <$> [3; 2; 1; 0]%Z)
  else join ":" ((λ i, hex4 (Z.shiftr a (16 * i) mod 65536)) <$> [7; 6; 5; 4; 3; 2; 1; 0]%Z).
Definition to_string (p : cip) : string :=
  addr_str (version p) (addr p)
  +:+ (if (plen p =? ip_width (version p))%Z then "" else "/" +:+ str_of_Z (plen p)).

Definition first (p : cip) : Z := addr p.
Definition last (p : cip) : Z := (addr p + 2 ^ (ip_width (version p) - plen p) - 1)%Z.

#[export] Instance concrete_ip : IPyLib := {|
  IP := cip;
  ip_of := of_string;
  ip_of_int n :=
    let v := if (n <? 2 ^ 32)%Z then 4%Z else 6%Z in
    match mk v n (ip_width v) with Some p => inr p | None => inl "invalid address" end;
  ip_version := version;
  ip_prefixlen := plen;
  ip_int := addr;
  ip_net p := mk_d (version p) (addr p) (ip_width (version p));
  ip_broadcast p := mk_d (version p) (last p) (ip_width (version p));
  ip_str := to_string;
  ip_strBin p := bits (Z.to_nat (ip_width (version p))) (addr p);
  ip_overlaps a b := ((version a =? version b) && (first a <=? last b) && (first b <=? last a))%Z;
  ip_contains a b := ((version a =? version b) && (first b <=? first a) && (last a <=? last b))%Z;
  ip_v46map p :=
    if (version p =? 4)%Z then mk 6 (Z.lor (Z.shiftl 65535 32) (addr p)) (plen p + 96)
    else if (Z.shiftr (addr p) 32 =? 65535)%Z then mk 4 (addr p mod 2 ^ 32) (plen p - 96)
    else None;
|}.

Lemma check_ok (p : cip) :
  (version p = 4 ∨ version p = 6)%Z ∧ (0 ≤ plen p ≤ ip_width (version p))%Z
  ∧ (0 ≤ addr p < 2 ^ ip_width (version p))%Z
  ∧ (addr p mod 2 ^ (ip_width (version p) - plen p) = 0)%Z.
Proof.
  destruct p as [[[v a] l] Hp]. unfold version, addr, plen. simpl in *.
  rewrite !andb_true_iff, orb_true_iff, !Z.eqb_eq, !Z.leb_le, Z.ltb_lt in Hp. tauto.
Qed.

#[export] Instance concrete_ip_laws : IPyLaws.
Proof.
  split; intros; try apply (check_ok p); try done; simpl in *.
  - unfold ip_first, ip_last; simpl.
    rewrite !andb_true_iff, Z.eqb_eq, !Z.leb_le. unfold first, last. tauto.
  - unfold ip_first, ip_last; simpl.
    rewrite !andb_true_iff, Z.eqb_eq, !Z.leb_le. unfold first, last. tauto.
  - by rewrite (proj2 (Z.eqb_neq _ _)).
Qed.

(** The prefix a literal denotes; used on literals that parse. *)
Definition lit (s : string) : cip := match of_string 0 s with inr p => p | inl _ => default_ip end.
End ConcreteIP.
