(* ===== verification/Models.v ===== *)
(** * Data model: statuses, database rows, journal vocabulary

    [irrd/rpki/status.py], [irrd/scopefilter/status.py],
    [irrd/routepref/status.py], [irrd/storage/models.py]. *)
From S2P Require Import Prelude PyStr Conf.

Inductive RPKIStatus := rpki_valid | rpki_invalid | rpki_not_found.
Inductive ScopeFilterStatus := in_scope | out_scope_as | out_scope_prefix.
Inductive RoutePreferenceStatus := rp_visible | rp_suppressed.
#[export] Instance RPKIStatus_eq : EqDecision RPKIStatus.
Proof. solve_decision. Defined.
#[export] Instance ScopeFilterStatus_eq : EqDecision ScopeFilterStatus.
Proof. solve_decision. Defined.
#[export] Instance RoutePreferenceStatus_eq : EqDecision RoutePreferenceStatus.
Proof. solve_decision. Defined.

Definition rpki_is_visible (s : RPKIStatus) : bool :=
  match s with rpki_valid | rpki_not_found => true | rpki_invalid => false end.
Definition scope_is_visible (s : ScopeFilterStatus) : bool :=
  match s with in_scope => true | _ => false end.
Definition routepref_is_visible (s : RoutePreferenceStatus) : bool :=
  match s with rp_visible => true | rp_suppressed => false end.

(** [object_is_visible], with its keyword defaults given by the caller. *)
Definition object_is_visible (rpki : RPKIStatus) (scope : ScopeFilterStatus)
    (pref : RoutePreferenceStatus) : bool :=
  rpki_is_visible rpki && scope_is_visible scope && routepref_is_visible pref.

Inductive DatabaseOperation := add_or_update | delete_op.
#[export] Instance DatabaseOperation_eq : EqDecision DatabaseOperation.
Proof. solve_decision. Defined.
(** The enumeration's values, as written in NRTM. *)
Definition operation_value (o : DatabaseOperation) : string :=
  match o with add_or_update => "ADD" | delete_op => "DEL" end.
Definition operation_of (s : string) : res DatabaseOperation :=
  if String.eqb s "ADD" then Ok add_or_update
  else if String.eqb s "DEL" then Ok delete_op
  else Raise (ValueError (s +:+ " is not a valid DatabaseOperation")).

Inductive JournalEntryOrigin :=
| jo_unknown | jo_mirror | jo_synthetic_nrtm | jo_pseudo_irr | jo_auth_change
| jo_rpki_status | jo_scope_filter | jo_suspension | jo_route_preference.
#[export] Instance JournalEntryOrigin_eq : EqDecision JournalEntryOrigin.
Proof. solve_decision. Defined.

Inductive AuthoritativeChangeOrigin := origin_webui | origin_webapi | origin_email | origin_other.

(** Values of [parsed_data]. *)
Inductive pdata :=
| PStr (s : string)
| PList (l : list string)
| PInt (z : Z).
#[export] Instance pdata_eq : EqDecision pdata.
Proof. solve_decision. Defined.

(** [parsed_data.get(attr, [])] where a list is expected. *)
Definition pdata_list (o : option pdata) : list string :=
  match o with Some (PList l) => l | _ => [] end.
Definition pdata_str (o : option pdata) : string :=
  match o with Some (PStr s) => s | _ => "" end.

(** A row of [rpsl_objects]. *)
Record rpsl_row := {
  r_pk : string;
  r_rpsl_pk : string;
  r_source : string;
  r_object_class : string;
  r_parsed_data : gmap string pdata;
  r_object_text : string;
  r_ip_version : option Z;
  r_ip_first : option string;
  r_ip_last : option string;
  r_ip_size : option Z;
  r_prefix : option string;
  r_prefix_length : option Z;
  r_asn_first : option Z;
  r_asn_last : option Z;
  r_rpki_status : RPKIStatus;
  r_scopefilter_status : ScopeFilterStatus;
  r_route_preference_status : RoutePreferenceStatus;
  r_created : Z;
  r_updated : Z;
}.

Definition row_visible (r : rpsl_row) : bool :=
  object_is_visible (r_rpki_status r) (r_scopefilter_status r) (r_route_preference_status r).

Definition set_rpki_status (s : RPKIStatus) (r : rpsl_row) : rpsl_row := {|
  r_pk := r_pk r; r_rpsl_pk := r_rpsl_pk r; r_source := r_source r;
  r_object_class := r_object_class r; r_parsed_data := r_parsed_data r;
  r_object_text := r_object_text r; r_ip_version := r_ip_version r; r_ip_first := r_ip_first r;
  r_ip_last := r_ip_last r; r_ip_size := r_ip_size r; r_prefix := r_prefix r;
  r_prefix_length := r_prefix_length r; r_asn_first := r_asn_first r; r_asn_last := r_asn_last r;
  r_rpki_status := s; r_scopefilter_status := r_scopefilter_status r;
  r_route_preference_status := r_route_preference_status r;
  r_created := r_created r; r_updated := r_updated r |}.
Definition set_scopefilter_status (s : ScopeFilterStatus) (r : rpsl_row) : rpsl_row := {|
  r_pk := r_pk r; r_rpsl_pk := r_rpsl_pk r; r_source := r_source r;
  r_object_class := r_object_class r; r_parsed_data := r_parsed_data r;
  r_object_text := r_object_text r; r_ip_version := r_ip_version r; r_ip_first := r_ip_first r;
  r_ip_last := r_ip_last r; r_ip_size := r_ip_size r; r_prefix := r_prefix r;
  r_prefix_length := r_prefix_length r; r_asn_first := r_asn_first r; r_asn_last := r_asn_last r;
  r_rpki_status := r_rpki_status r; r_scopefilter_status := s;
  r_route_preference_status := r_route_preference_status r;
  r_created := r_created r; r_updated := r_updated r |}.
Definition set_route_preference_status (s : RoutePreferenceStatus) (r : rpsl_row) : rpsl_row := {|
  r_pk := r_pk r; r_rpsl_pk := r_rpsl_pk r; r_source := r_source r;
  r_object_class := r_object_class r; r_parsed_data := r_parsed_data r;
  r_object_text := r_object_text r; r_ip_version := r_ip_version r; r_ip_first := r_ip_first r;
  r_ip_last := r_ip_last r; r_ip_size := r_ip_size r; r_prefix := r_prefix r;
  r_prefix_length := r_prefix_length r; r_asn_first := r_asn_first r; r_asn_last := r_asn_last r;
  r_rpki_status := r_rpki_status r; r_scopefilter_status := r_scopefilter_status r;
  r_route_preference_status := s;
  r_created := r_created r; r_updated := r_updated r |}.

(** The value of PostgreSQL type [CIDR]: family, network address, length. *)
Record cidr := { c_version : Z; c_addr : Z; c_len : Z }.
#[export] Instance cidr_eq : EqDecision cidr.
Proof. solve_decision. Defined.

(** A row of [roa_object]. *)
Record roa_row := {
  roa_ip_version : Z;
  roa_prefix : cidr;
  roa_asn : Z;
  roa_max_length : Z;
  roa_trust_anchor : string;
}.

(** ** Rows by primary key *)

(** [rows_per_pk[pk]], from a query for these primary keys. *)
Definition row_by_pk (table : list rpsl_row) (pk : string) : option rpsl_row :=
  List.find (λ r, String.eqb (r_pk r) pk) table.

Lemma row_by_pk_elem table r :
  NoDup (r_pk <$> table) → r ∈ table → row_by_pk table (r_pk r) = Some r.
Proof.
  unfold row_by_pk. induction table as [|r' table IH]; [set_solver|].
  rewrite fmap_cons. intros [Hni Hnd]%NoDup_cons Hin. simpl.
  destruct (String.eqb_spec (r_pk r') (r_pk r)) as [Heq|Hne]; apply elem_of_cons in Hin as [->|Hin];
    try done.
  - exfalso. apply Hni. rewrite Heq. by apply (list_elem_of_fmap_2 r_pk).
  - by apply IH.
Qed.

Lemma row_by_pk_Some table pk r : row_by_pk table pk = Some r → r ∈ table ∧ r_pk r = pk.
Proof.
  intros [Hin Heq]%find_some. split; [by apply list_elem_of_In|by apply String.eqb_eq].
Qed.
