(* ===== verification/Text.v ===== *)
(** * Text utilities, AS numbers, password schemes

    [irrd/utils/validators.py] ([parse_as_number]), [irrd/utils/text.py],
    [irrd/rpsl/auth.py].  [passlib]'s hashers are a parameter. *)
From S2P Require Import Prelude PyStr Conf.

(** ** AS numbers *)

Definition as_max : Z := 4294967295.
Definition as_error (value why : string) : exn :=
  ValidationError ("Invalid AS number " +:+ value +:+ ": " +:+ why).

Definition check_as_range (text : string) (n : Z) : res (string * Z) :=
  if (0 <=? n)%Z && (n <=? as_max)%Z then Ok ("AS" +:+ str_of_Z n, n)
  else Raise (as_error text "valid range is 0-4294967295").

(** The number after the optional prefix, in asdot or plain notation. *)
Definition as_number_part (value number : string) (asdot : bool) : res Z :=
  if asdot && has_char "."%char number then
    match split_on "."%char number with
    | [high_str; low_str] =>
        match py_int high_str with
        | None => Raise (as_error value "high order value missing or invalid")
        | Some high =>
            match py_int low_str with
            | None => Raise (as_error value "low order value missing or invalid")
            | Some low =>
                if (65535 <? high)%Z then Raise (as_error value "high order value out of range")
                else if (65535 <? low)%Z then Raise (as_error value "low order value out of range")
                else Ok (high * 65536 + low)%Z
            end
        end
    | _ => Raise (as_error value "number is not valid asdot format")
    end
  else
    match py_int number with
    | Some n => Ok n
    | None => Raise (as_error value "number part is not numeric")
    end.

Definition parse_as_number (cfg : configuration) (value : string + Z)
    (permit_plain asdot_permitted : bool) : res (string * Z) :=
  match value with
  | inl value =>
      let value := str_upper value in
      if negb permit_plain && negb (startswith "AS" value)
      then Raise (as_error value ("must start with " +:+ String "034" ("AS" +:+ String "034" "")))
      else
        let start_index := if startswith "AS" value then 2 else 0 in
        value_int ← as_number_part value (str_drop start_index value)
                      (asdot_permitted && truthy (get_setting cfg "compatibility.asdot_queries"));
        check_as_range value value_int
  | inr value_int => check_as_range (str_of_Z value_int) value_int
  end.

(** ** Password schemes *)

Definition PASSWORD_HASHERS_ALL : list string := ["CRYPT-PW"; "MD5-PW"; "BCRYPT-PW"].

Inductive PasswordHasherAvailability := hasher_enabled | hasher_legacy | hasher_disabled.
Definition availability_of (s : string) : res PasswordHasherAvailability :=
  if String.eqb s "ENABLED" then Ok hasher_enabled
  else if String.eqb s "LEGACY" then Ok hasher_legacy
  else if String.eqb s "DISABLED" then Ok hasher_disabled
  else Raise AttributeError.

Definition hasher_availability (cfg : configuration) (hasher_name : string)
  : res PasswordHasherAvailability :=
  match get_setting cfg ("auth.password_hashers." +:+ str_lower hasher_name) with
  | VStr setting => availability_of (str_upper setting)
  | _ => Raise AttributeError
  end.
Definition availability_included (permit_legacy : bool) (a : PasswordHasherAvailability) : bool :=
  match a with hasher_enabled => true | hasher_legacy => permit_legacy | hasher_disabled => false end.
Fixpoint select_hashers (cfg : configuration) (permit_legacy : bool) (names : list string)
  : res (list string) :=
  match names with
  | [] => Ok []
  | n :: names' =>
      a ← hasher_availability cfg n;
      rest ← select_hashers cfg permit_legacy names';
      Ok (if availability_included permit_legacy a then n :: rest else rest)
  end.
Definition get_password_hashers (cfg : configuration) (permit_legacy : bool) : res (list string) :=
  select_hashers cfg permit_legacy PASSWORD_HASHERS_ALL.

Section Verify.
(** [hasher.verify(password, hash)] of the scheme; [None] for its [ValueError]. *)
Context (hasher_verify : string → string → string → option bool).

Definition password_ok (scheme hash password : string) : bool :=
  match hasher_verify scheme password hash with Some b => b | None => false end.

(** One line of the loop: what it returns, if it returns. *)
Definition verify_auth_line (hashers : list string) (passwords : list string)
    (keycert_obj_pk : option string) (auth : string) : option string :=
  match keycert_obj_pk with
  | Some pk =>
      if negb (String.eqb pk "") && String.eqb (str_upper auth) (str_upper pk)
      then Some (str_upper pk) else
        match split_once " "%char auth with
        | None => None
        | Some (scheme, hash) =>
            let scheme := str_upper scheme in
            if bool_decide (scheme ∈ hashers) && existsb (password_ok scheme hash) passwords
            then Some scheme else None
        end
  | None =>
      match split_once " "%char auth with
      | None => None
      | Some (scheme, hash) =>
          let scheme := str_upper scheme in
          if bool_decide (scheme ∈ hashers) && existsb (password_ok scheme hash) passwords
          then Some scheme else None
      end
  end.

Definition verify_auth_lines (cfg : configuration) (auth_lines passwords : list string)
    (keycert_obj_pk : option string) : res (option string) :=
  hashers ← get_password_hashers cfg true;
  Ok (list_find_map (verify_auth_line hashers passwords keycert_obj_pk) auth_lines).
End Verify.

(** ** Removing password hashes *)

Definition RPSL_ATTRIBUTE_TEXT_WIDTH : nat := 16.
Definition password_filler : string :=
  " " +:+ PASSWORD_HASH_DUMMY_VALUE +:+ "  # Filtered for security".

(** A match of the expression at the head of [s]: a scheme name in any case,
    followed on the same line by at least one character.  The length of the name. *)
Definition scheme_matches (s name : string) : bool :=
  startswith name (str_upper s)
  && match str_drop (String.length name) s with
     | "" => false
     | String c _ => negb (bool_decide (c = ch_nl))
     end.
Definition scheme_at (s : string) : option nat :=
  String.length <$> List.find (scheme_matches s) PASSWORD_HASHERS_ALL.

(** [re_remove_passwords.sub]: scanning, copying the rest of a matched name, or
    skipping what the match covers after it. *)
Inductive sub_mode := Scanning | Copying (k : nat) | Skipping.
Fixpoint sub_passwords (m : sub_mode) (s : string) : string :=
  match s with
  | "" => ""
  | String c s' =>
      match m with
      | Skipping =>
          if bool_decide (c = ch_nl) then String c (sub_passwords Scanning s')
          else sub_passwords Skipping s'
      | Copying (S k) => String c (sub_passwords (Copying k) s')
      | Copying 0 => password_filler +:+ sub_passwords Skipping s'
      | Scanning =>
          match scheme_at s with
          | Some n => String c (sub_passwords (Copying (n - 1)) s')
          | None => String c (sub_passwords Scanning s')
          end
      end
  end.

Definition remove_auth_hashes (input : string) : string :=
  if String.eqb input "" then input
  else if negb (existsb (λ pw_hash, contains (str_lower pw_hash) (str_lower input)) PASSWORD_HASHERS_ALL)
  then input
  else sub_passwords Scanning input.

(** ** Removing [last-modified] *)

(** [^last-modified: [^\n]+\n] matches a terminated line. *)
Definition is_last_modified_line (l : string) : bool :=
  startswith "last-modified: " l && negb (String.eqb l "last-modified: ").
Fixpoint drop_last_modified (lines : list string) : list string :=
  match lines with
  | [] => []
  | [l] => [l]
  | l :: lines' =>
      if is_last_modified_line l then drop_last_modified lines' else l :: drop_last_modified lines'
  end.
Definition remove_last_modified (rpsl_text : string) : string :=
  join NL (drop_last_modified (split_on ch_nl rpsl_text)).

(** ** Lines and paragraphs *)

Definition splitline_unicodesafe (input : string) : list string :=
  if String.eqb input "" then []
  else (λ line, strip_chars CR line) <$> split_on ch_nl (strip_chars NL input).

(** The loop over the lines. *)
Fixpoint paragraphs_loop (strip_comments : bool) (current_paragraph : string) (lines : list string)
  : list string :=
  match lines with
  | [] => if String.eqb (strip current_paragraph) "" then [] else [current_paragraph]
  | line :: lines' =>
      let line := strip_chars (CR +:+ NL) line in
      if (strip_comments && startswith "%" line) || startswith "#" line
      then paragraphs_loop strip_comments current_paragraph lines'
      else if String.eqb line ""
      then (if String.eqb current_paragraph "" then [] else [current_paragraph])
           ++ paragraphs_loop strip_comments "" lines'
      else paragraphs_loop strip_comments (current_paragraph +:+ line +:+ NL) lines'
  end.
(** The input is a text ([inl]) or the lines an open file yields ([inr]). *)
Definition split_paragraphs_rpsl (input : string + list string) (strip_comments : bool) : list string :=
  paragraphs_loop strip_comments ""
    (match input with inl s => splitline_unicodesafe s | inr lines => lines end).

(** ** Case of names *)

Definition is_letter (c : ascii) : bool :=
  let n := N_of_ascii c in (((65 <=? n) && (n <=? 90)) || ((97 <=? n) && (n <=? 122)))%N.
Fixpoint str_title_from (prev : bool) (s : string) : string :=
  match s with
  | "" => ""
  | String c s' =>
      String (if prev then lower_ascii c else upper_ascii c) (str_title_from (is_letter c) s')
  end.
Definition str_title : string → string := str_title_from false.
Definition _str_to_camel_case (snake_str : string) : string :=
  match split_on "-"%char (replace_char "_"%char "-" snake_str) with
  | [] => ""
  | c :: cs => c +:+ concat_str (str_title <$> cs)
  end.
Definition snake_to_camel_case (snake : list string) : list string := _str_to_camel_case <$> snake.

(** ** Dummified NRTM objects *)

(** [str.splitlines]: lines with the separator that ended them. *)
Definition is_linebreak (c : ascii) : bool :=
  let n := N_of_ascii c in
  (((10 <=? n) && (n <=? 13)) || ((28 <=? n) && (n <=? 30)) || (n =? 133))%N.
Fixpoint splitlines_ends (s : string) : list (string * string) :=
  match s with
  | "" => []
  | String c s' =>
      if is_linebreak c then
        match s' with
        | String d s'' =>
            if bool_decide (c = ch_cr ∧ d = ch_nl) then ("", CR +:+ NL) :: splitlines_ends s''
            else ("", String c "") :: splitlines_ends s'
        | "" => [("", String c "")]
        end
      else
        match splitlines_ends s' with
        | [] => [(String c "", "")]
        | (b, e) :: rest => (String c b, e) :: rest
        end
  end.
Definition splitlines (s : string) : list string := (splitlines_ends s).*1.

(** [textwrap.indent]. *)
Definition text_indent (text prefix : string) : string :=
  concat_str ((λ '(b, e), (if String.eqb (strip b) "" then "" else prefix) +:+ b +:+ e)
                <$> splitlines_ends text).

Definition get_nrtm_dummified_object_classes_for_source (cfg : configuration) (source : string)
  : list string :=
  let dummy_object_class := source_setting cfg source "nrtm_dummified_object_classes" in
  if truthy dummy_object_class then
    (λ c, str_lower (strip c)) <$>
      match dummy_object_class with VStr s => [s] | v => pyval_strs v end
  else [].

Definition dummy_value (pk : string) (value : pyval) : string :=
  if contains "%s" (pyval_str value) then replace_all "%s" pk (pyval_str value) else pyval_str value.
(** The inner loop: every key the original line starts with replaces the line. *)
Definition dummify_line (attributes : list (string * pyval)) (pk line : string) : string :=
  foldl (λ cur '(key, value),
           if startswith (key +:+ ":") line
           then ljust RPSL_ATTRIBUTE_TEXT_WIDTH (key +:+ ":") +:+ dummy_value pk value
           else cur) line attributes.

Definition dummy_remarks (cfg : configuration) (source : string) : option string :=
  match source_setting cfg source "nrtm_dummified_remarks" with
  | VStr s =>
      if String.eqb s "" then None
      else Some (strip (text_indent s (ljust RPSL_ATTRIBUTE_TEXT_WIDTH "remarks:")) +:+ NL)
  | _ => None
  end.

Definition dummify_object_text (cfg : configuration) (rpsl_text object_class source pk : string)
  : string :=
  if String.eqb rpsl_text "" then rpsl_text
  else if negb (bool_decide (object_class ∈ get_nrtm_dummified_object_classes_for_source cfg source))
  then rpsl_text
  else
    let dummified_attributes := source_setting cfg source "nrtm_dummified_attributes" in
    if negb (truthy dummified_attributes) then rpsl_text
    else
      let dummified :=
        join NL (dummify_line (pyval_items dummified_attributes) pk <$> splitlines rpsl_text) +:+ NL in
      match dummy_remarks cfg source with
      | Some remarks => if String.eqb rpsl_text dummified then dummified else dummified +:+ remarks
      | None => dummified
      end.
