(* ===== verification/TextTheory.v ===== *)
(** * Correctness of the text utilities and of AS number parsing *)
From S2P Require Import Prelude PyStr Conf Text.

(** ** AS numbers *)

Lemma check_as_range_ok text n s m :
  check_as_range text n = Ok (s, m) → m = n ∧ (0 ≤ n ≤ as_max)%Z ∧ s = "AS" +:+ str_of_Z n.
Proof.
  unfold check_as_range. case_eqn E; [|done]. intros; simplify_eq. bool_solve. split_and!; done || lia.
Qed.

Lemma as_range_ok text n :
  (0 ≤ n ≤ as_max)%Z → check_as_range text n = Ok ("AS" +:+ str_of_Z n, n).
Proof.
  intros Hn. unfold check_as_range.
  by rewrite (proj2 (Z.leb_le _ _)), (proj2 (Z.leb_le _ _)) by lia.
Qed.

(** A normalised AS number is read back as itself. *)
Lemma parse_as_number_text cfg n plain asdot :
  (0 ≤ n ≤ as_max)%Z →
  parse_as_number cfg (inl ("AS" +:+ str_of_Z n)) plain asdot = Ok ("AS" +:+ str_of_Z n, n).
Proof.
  intros Hn. pose proof (str_of_Z_digits n ltac:(lia)) as Hd.
  assert (str_upper ("AS" +:+ str_of_Z n) = "AS" +:+ str_of_Z n) as Hup.
  { rewrite str_upper_app, (str_upper_digits (str_of_Z n)) by done. done. }
  unfold parse_as_number. rewrite Hup.
  assert (startswith "AS" ("AS" +:+ str_of_Z n) = true) as -> by apply prefix_app.
  change (str_drop 2 ("AS" +:+ str_of_Z n))
    with (str_drop (String.length "AS") ("AS" +:+ str_of_Z n)).
  rewrite str_drop_app. unfold as_number_part.
  rewrite (str_of_Z_no_char "."%char n) by (done || lia).
  rewrite !andb_false_r, py_int_str_of_Z by lia. unfold mbind, res_bind. by apply as_range_ok.
Qed.

Lemma parse_as_number_range cfg value plain asdot s n :
  parse_as_number cfg value plain asdot = Ok (s, n) → (0 ≤ n ≤ as_max)%Z ∧ s = "AS" +:+ str_of_Z n.
Proof.
  intros Hp.
  assert (∃ text m, check_as_range text m = Ok (s, n)) as (text & m & Hr).
  { destruct value as [value|value]; simpl in Hp; [|eauto].
    destruct (negb plain && _); [done|]. apply res_bind_Ok in Hp as (m & _ & Hm). eauto. }
  apply check_as_range_ok in Hr as (-> & ? & ->). done.
Qed.

(** C36. Whatever notation is accepted, the AS number is a 32-bit value, its text
    is the plain notation of that value, and that text is accepted in every
    mode and read back as the same number. *)
Theorem parse_as_number_normalises cfg value plain asdot s n :
  parse_as_number cfg value plain asdot = Ok (s, n) →
  (0 ≤ n ≤ 4294967295)%Z ∧ s = "AS" +:+ str_of_Z n ∧
  ∀ plain' asdot', parse_as_number cfg (inl s) plain' asdot' = Ok (s, n).
Proof.
  intros Hp. apply parse_as_number_range in Hp as [Hn ->].
  split; [done|]. split; [done|]. intros. by apply parse_as_number_text.
Qed.

Lemma parse_as_number_normalises_witness :
  parse_as_number (conf_of VNone) (inl "AS64496") true true = Ok ("AS64496", 64496%Z).
Proof.
  refine (proj2 (proj2 (parse_as_number_normalises (conf_of VNone) (inl "as064496") false false
    "AS64496" 64496 _)) true true). reflexivity.
Defined.

(** The low half of an asdot number is not checked to be positive. *)
Example parse_asdot_negative :
  parse_as_number (conf_of (VDict [("compatibility", VDict [("asdot_queries", VBool true)])]))
    (inl "AS1.-1") false true = Ok ("AS65535", 65535%Z).
Proof. reflexivity. Qed.

(** ** Paragraphs *)

(** A line of a paragraph that is neither empty nor a comment, where lines
    starting with [%] are comments if [sc]. *)
Definition para_line (sc : bool) (l : string) : Prop :=
  l ≠ "" ∧ has_char ch_nl l = false ∧ has_char ch_cr l = false
  ∧ sc && startswith "%" l = false ∧ startswith "#" l = false.
Definition para_text (ls : list string) : string := concat_str ((λ l, l +:+ NL) <$> ls).
Definition para_ok (sc : bool) (ls : list string) : Prop :=
  Forall (para_line sc) ls ∧ strip (para_text ls) ≠ "".
(** The lines of a document of paragraphs separated by empty lines. *)
Fixpoint document_lines (paras : list (list string)) : list string :=
  match paras with
  | [] => []
  | [ls] => ls
  | ls :: paras' => ls ++ [""] ++ document_lines paras'
  end.
Definition document (paras : list (list string)) : string := join NL (para_text <$> paras).

Lemma loop_para sc cur ls rest :
  Forall (para_line sc) ls →
  paragraphs_loop sc cur (ls ++ rest) = paragraphs_loop sc (cur +:+ para_text ls) rest.
Proof.
  intros Hls. revert cur. induction Hls as [|l ls (Hne & Hn & Hc & Hp & Hh) Hls IH]; intros cur.
  - simpl. unfold para_text. simpl. by rewrite str_app_nil_r.
  - simpl. rewrite (strip_chars_line l) by (by apply no_chars_all).
    rewrite Hp, Hh. simpl. rewrite (proj2 (String.eqb_neq l "")) by done.
    rewrite IH. f_equal. unfold para_text. csimpl. by rewrite !str_app_assoc.
Qed.

Lemma para_text_nonempty ls : strip (para_text ls) ≠ "" → para_text ls ≠ "".
Proof. intros H E. by rewrite E in H. Qed.

Lemma loop_document sc paras :
  Forall (para_ok sc) paras → paragraphs_loop sc "" (document_lines paras) = para_text <$> paras.
Proof.
  induction 1 as [|ls paras [Hls Hs] Hparas IH]; [done|].
  destruct paras as [|ls' paras].
  - simpl document_lines. rewrite <- (app_nil_r ls), loop_para by done.
    rewrite app_nil_r. simpl. by rewrite (proj2 (String.eqb_neq _ "") Hs).
  - simpl document_lines. rewrite loop_para by done.
    change (strip_chars (CR +:+ NL) "") with "".
    assert (∀ cur rest, paragraphs_loop sc cur ("" :: rest)
      = (if String.eqb cur "" then [] else [cur]) ++ paragraphs_loop sc "" rest) as ->
      by (intros; simpl; by rewrite andb_false_r).
    simpl String.append. rewrite (proj2 (String.eqb_neq _ "")) by (by apply para_text_nonempty).
    csimpl in IH. simpl document_lines in IH. rewrite IH. done.
Qed.

Lemma para_text_cons l ls : para_text (l :: ls) = l +:+ NL +:+ para_text ls.
Proof. unfold para_text. csimpl. by rewrite str_app_assoc. Qed.

Lemma para_text_join l ls : para_text (l :: ls) = join NL (l :: ls) +:+ NL.
Proof.
  revert l. induction ls as [|l' ls IH]; intros l; rewrite para_text_cons; [done|].
  by rewrite IH, join_cons, !str_app_assoc.
Qed.

Lemma para_ok_cons sc ls : para_ok sc ls → ∃ l ls', ls = l :: ls'.
Proof. intros [_ Hs]. destruct ls; [done|]. eauto. Qed.

Lemma document_join sc paras :
  paras ≠ [] → Forall (para_ok sc) paras → document paras = join NL (document_lines paras) +:+ NL.
Proof.
  intros Hne Hp. induction Hp as [|ls paras Hls Hp IH]; [done|].
  destruct (para_ok_cons sc ls Hls) as (l & ls' & ->).
  destruct paras as [|ls2 paras].
  - unfold document. csimpl. apply para_text_join.
  - assert (document_lines ((l :: ls') :: ls2 :: paras)
      = (l :: ls') ++ "" :: document_lines (ls2 :: paras)) as -> by done.
    rewrite join_app. unfold document in *. rewrite !fmap_cons.
    rewrite join_cons. rewrite <- fmap_cons. rewrite IH by done. rewrite para_text_join.
    destruct (para_ok_cons sc ls2) as (l2 & ls2' & ->); [by inversion Hp|].
    assert (∃ x xs, document_lines ((l2 :: ls2') :: paras) = x :: xs) as (x & xs & ->)
      by (destruct paras; simpl; eauto).
    rewrite (join_cons NL ""). simpl String.append. rewrite !str_app_assoc. done.
Qed.

Lemma join_ends l ls :
  Forall (λ w, has_char ch_nl w = false) (l :: ls) → l ≠ "" → List.last (l :: ls) "" ≠ "" →
  strip_chars NL (join NL (l :: ls) +:+ NL) = join NL (l :: ls).
Proof.
  intros Hnl Hl Hlast.
  assert (∃ s c, join NL (l :: ls) = s +:+ String c "" ∧ c ≠ ch_nl) as (s & c & Hs & Hc).
  { clear Hl. revert l Hnl Hlast. induction ls as [|l' ls IH]; intros l Hnl Hlast.
    - simpl in *. destruct (str_snoc l Hlast) as (s & c & ->). exists s, c. split; [done|].
      apply Forall_cons in Hnl as [Hn _]. rewrite has_char_app, orb_false_iff, has_char_cons in Hn.
      destruct Hn as [_ Hn]. apply orb_false_iff in Hn as [Hn _]. apply bool_decide_eq_false in Hn. done.
    - apply Forall_cons in Hnl as [_ Hnl]. destruct (IH l' Hnl Hlast) as (s & c & Hs & Hc).
      rewrite join_cons, Hs. exists (l +:+ NL +:+ s), c. by rewrite !str_app_assoc. }
  destruct l as [|d l]; [done|].
  assert (d ≠ ch_nl) as Hd.
  { apply Forall_cons in Hnl as [Hn _]. rewrite has_char_cons, orb_false_iff in Hn.
    destruct Hn as [Hn _]. apply bool_decide_eq_false in Hn. congruence. }
  assert (∀ e, e ≠ ch_nl → has_char e NL = false) as Hnlc by (intros; by apply has_char_one).
  unfold strip_chars, strip_if.
  assert (∀ t, lstrip_if (λ c, has_char c NL) (join NL (String d l :: ls) +:+ t)
    = join NL (String d l :: ls) +:+ t) as Hlstrip.
  { intros t. destruct ls; simpl; by rewrite Hnlc. }
  rewrite Hlstrip, Hs.
  assert (∀ t, rstrip_if (λ c, has_char c NL) (t +:+ NL) = rstrip_if (λ c, has_char c NL) t) as ->.
  { intros t. induction t as [|e t IH]; [done|]. simpl. by rewrite IH. }
  apply rstrip_last. by apply Hnlc.
Qed.

Lemma document_lines_ok sc paras :
  paras ≠ [] → Forall (para_ok sc) paras →
  ∃ l ls, document_lines paras = l :: ls ∧ l ≠ "" ∧ List.last (l :: ls) "" ≠ ""
    ∧ Forall (λ w, has_char ch_nl w = false ∧ has_char ch_cr w = false) (l :: ls).
Proof.
  intros Hne Hp. induction Hp as [|ls paras Hls Hp IH]; [done|].
  destruct (para_ok_cons sc ls Hls) as (l & ls' & ->). destruct Hls as [Hls _].
  assert (Forall (λ w, has_char ch_nl w = false ∧ has_char ch_cr w = false) (l :: ls')) as Hw.
  { eapply Forall_impl; [exact Hls|]. intros w (?&?&?&_). done. }
  assert (l ≠ "") as Hl by (by apply Forall_cons in Hls as [[? _] _]).
  destruct paras as [|ls2 paras].
  - exists l, ls'. split_and!; try done. simpl document_lines.
    clear -Hls. revert l Hls. induction ls' as [|l' ls' IH]; intros l Hls.
    + by apply Forall_cons in Hls as [[? _] _].
    + apply Forall_cons in Hls as [_ Hls]. by apply IH.
  - destruct IH as (x & xs & Hd & Hx & Hlast & Hall); [done|].
    exists l, (ls' ++ "" :: x :: xs). split_and!.
    + simpl document_lines in *. by rewrite Hd.
    + done.
    + change (l :: ls' ++ "" :: x :: xs) with ((l :: ls') ++ [""] ++ x :: xs).
      rewrite app_assoc. clear -Hlast. induction ((l :: ls') ++ [""]) as [|y ys IH]; [done|].
      simpl. destruct (ys ++ x :: xs) eqn:E; [by destruct ys|]. exact IH.
    + change (l :: ls' ++ "" :: x :: xs) with ((l :: ls') ++ "" :: x :: xs).
      apply Forall_app. split; [done|]. by constructor.
Qed.

(** [end_] is the last line break, or empty: the input need not be terminated. *)
Lemma split_document sc paras end_ :
  Forall (para_ok sc) paras → paras ≠ [] → end_ = NL ∨ end_ = "" →
  split_paragraphs_rpsl (inl (join NL (document_lines paras) +:+ end_)) sc = para_text <$> paras.
Proof.
  intros Hp Hne Hend. unfold split_paragraphs_rpsl, splitline_unicodesafe.
  destruct (document_lines_ok sc paras Hne Hp) as (l & ls & Hd & Hl & Hlast & Hall).
  assert (Forall (λ w, has_char ch_nl w = false) (l :: ls)) as Hnl
    by (eapply Forall_impl; [exact Hall|]; by intros ? []).
  assert (strip_chars NL (join NL (l :: ls) +:+ end_) = join NL (l :: ls)) as Hstrip.
  { destruct Hend as [->| ->]; [by apply join_ends|].
    rewrite str_app_nil_r, <- (join_ends l ls) by done. apply strip_if_twice. }
  rewrite (proj2 (String.eqb_neq _ "")).
  2: { rewrite Hd. destruct l; [done|]. by destruct ls. }
  rewrite Hd, Hstrip, split_on_join; try done.
  rewrite <- (loop_document sc) by done. f_equal. rewrite Hd.
  clear -Hall. induction Hall as [|w ws [_ Hw] Hws IH]; [done|]. csimpl. rewrite IH. f_equal.
  apply strip_chars_line. clear -Hw. induction w as [|c w IH]; [done|].
  rewrite has_char_cons, orb_false_iff, bool_decide_eq_false in Hw. destruct Hw as [Hc Hw].
  simpl. rewrite IH by done. change CR with (String ch_cr ""). rewrite (has_char_one c ch_cr); [done|congruence].
Qed.

(** A document of paragraphs separated by empty lines, as the exports are
    written, is split back into exactly its paragraphs; a line starting with [%] may be part
    of one when comments are not stripped. *)
Theorem split_paragraphs_roundtrip paras strip_comments :
  Forall (para_ok strip_comments) paras →
  split_paragraphs_rpsl (inl (document paras)) strip_comments = para_text <$> paras.
Proof.
  intros Hp. destruct (decide (paras = [])) as [->|Hne]; [by destruct strip_comments|].
  rewrite (document_join strip_comments) by done. apply split_document; auto.
Qed.
Lemma split_paragraphs_roundtrip_witness :
  split_paragraphs_rpsl
    (inl ("route: 192.0.2.0/24" +:+ NL +:+ "origin: AS1" +:+ NL +:+ NL +:+ "as-set: AS-X" +:+ NL)) true
  = ["route: 192.0.2.0/24" +:+ NL +:+ "origin: AS1" +:+ NL; "as-set: AS-X" +:+ NL].
Proof.
  apply (split_paragraphs_roundtrip [["route: 192.0.2.0/24"; "origin: AS1"]; ["as-set: AS-X"]] true).
  repeat constructor; done.
Defined.

(** Without [strip_comments], lines starting with [#] are dropped all the same. *)
Example split_paragraphs_hash_kept :
  split_paragraphs_rpsl (inl ("# note" +:+ NL +:+ "% note" +:+ NL)) false = ["% note" +:+ NL].
Proof. reflexivity. Qed.

(** ** Password hashes *)

(** No scheme name occurs in another except at its end. *)
Definition butlast (s : string) : string := str_take (String.length s - 1) s.
Lemma butlast_snoc s c : butlast (s +:+ String c "") = s.
Proof.
  unfold butlast. rewrite str_length_app. simpl.
  replace (String.length s + 1 - 1) with (String.length s) by lia.
  unfold str_take. induction s as [|d s IH]; [done|]. simpl. by rewrite IH.
Qed.

Lemma scheme_inner n name p r :
  n ∈ PASSWORD_HASHERS_ALL → name ∈ PASSWORD_HASHERS_ALL → n = p +:+ name +:+ r → r = "".
Proof.
  intros Hn Hname Heq. destruct (decide (r = "")) as [|Hr]; [done|exfalso].
  destruct (str_snoc r Hr) as (r' & c & ->).
  assert (butlast n = p +:+ name +:+ r') as Hb.
  { rewrite Heq, <- !str_app_assoc. rewrite butlast_snoc. by rewrite str_app_assoc. }
  assert (forallb (λ n, forallb (λ name, negb (contains name (butlast n))) PASSWORD_HASHERS_ALL)
            PASSWORD_HASHERS_ALL = true) as Hall by (vm_compute; reflexivity).
  rewrite forallb_spec in Hall. specialize (Hall n Hn). rewrite forallb_spec in Hall.
  specialize (Hall name Hname). apply negb_true_iff in Hall.
  rewrite (proj2 (contains_spec name (butlast n))) in Hall; [done|eauto].
Qed.

(** A secret that follows a scheme name: not empty, on one line. *)
Definition secret_ok (s : string) : Prop := s ≠ "" ∧ has_char ch_nl s = false.

Section Secret.
Context (nm : string) (Hnm : str_upper nm ∈ PASSWORD_HASHERS_ALL).

Lemma scheme_upper_length : String.length (str_upper nm) = String.length nm.
Proof using Type. apply str_map_length. Qed.

Lemma scheme_no_nl : has_char ch_nl nm = false.
Proof using Hnm.
  assert (has_char ch_nl (str_upper nm) = false) as H.
  { assert (forallb (λ n, negb (has_char ch_nl n)) PASSWORD_HASHERS_ALL = true) as Hall by done.
    rewrite forallb_spec in Hall. specialize (Hall _ Hnm). by apply negb_true_iff in Hall. }
  clear -H. unfold str_upper in H. induction nm as [|c s IH]; [done|]. simpl in H.
  rewrite has_char_cons, orb_false_iff in *. destruct H as [Hc Hs]. split; [|by apply IH].
  apply bool_decide_eq_false in Hc. apply bool_decide_eq_false. intros <-. done.
Qed.

(** A name that reaches into the secret would contain [nm] strictly. *)
Lemma scheme_reach a s n :
  n ∈ PASSWORD_HASHERS_ALL → startswith n (str_upper ((a +:+ nm) +:+ s)) = true →
  String.length n ≤ String.length (a +:+ nm).
Proof using Hnm.
  intros Hn Hp. destruct (Nat.le_gt_cases (String.length n) (String.length (a +:+ nm))); [done|].
  rewrite str_upper_app in Hp. apply prefix_longer in Hp as [r Hr].
  2: { unfold str_upper. rewrite str_map_length. lia. }
  assert (r = "") as ->.
  { apply (scheme_inner n (str_upper nm) (str_upper a) r); [done..|].
    rewrite Hr, str_upper_app, str_app_assoc. done. }
  rewrite Hr, str_app_nil_r. unfold str_upper. rewrite str_map_length. done.
Qed.

Lemma scheme_matches_secret a s1 s2 t n :
  n ∈ PASSWORD_HASHERS_ALL → secret_ok s1 → secret_ok s2 →
  scheme_matches ((a +:+ nm) +:+ s1 +:+ t) n = scheme_matches ((a +:+ nm) +:+ s2 +:+ t) n.
Proof using Hnm.
  intros Hn [Hs1 Hn1] [Hs2 Hn2]. unfold scheme_matches.
  destruct (Nat.le_gt_cases (String.length n) (String.length (a +:+ nm))) as [Hle|Hgt].
  - rewrite !(str_upper_app (a +:+ nm)). unfold startswith.
    rewrite !(prefix_app_l n (str_upper (a +:+ nm))) by (unfold str_upper; by rewrite str_map_length).
    rewrite !(str_drop_app_l _ (a +:+ nm)) by done. f_equal.
    destruct (str_drop _ (a +:+ nm)); [|reflexivity].
    destruct s1 as [|c1 s1], s2 as [|c2 s2]; try done. simpl.
    rewrite has_char_cons, orb_false_iff, bool_decide_eq_false in Hn1, Hn2.
    rewrite !bool_decide_false; naive_solver.
  - destruct (startswith n (str_upper ((a +:+ nm) +:+ s1 +:+ t))) eqn:E1;
      [apply scheme_reach in E1; [lia|done]|].
    destruct (startswith n (str_upper ((a +:+ nm) +:+ s2 +:+ t))) eqn:E2;
      [apply scheme_reach in E2; [lia|done]|done].
Qed.

Lemma scheme_at_secret a s1 s2 t :
  secret_ok s1 → secret_ok s2 →
  scheme_at ((a +:+ nm) +:+ s1 +:+ t) = scheme_at ((a +:+ nm) +:+ s2 +:+ t).
Proof using Hnm.
  intros H1 H2. unfold scheme_at. f_equal.
  assert (∀ l, (∀ n, n ∈ l → n ∈ PASSWORD_HASHERS_ALL) →
    List.find (scheme_matches ((a +:+ nm) +:+ s1 +:+ t)) l
    = List.find (scheme_matches ((a +:+ nm) +:+ s2 +:+ t)) l) as Hl; [|by apply Hl].
  induction l as [|n l IH]; intros Hin; [done|]. simpl.
  rewrite (scheme_matches_secret a s1 s2) by (done || set_solver).
  destruct (scheme_matches _ n); [done|]. apply IH. set_solver.
Qed.

Lemma scheme_at_length a s n :
  scheme_at ((a +:+ nm) +:+ s) = Some n → 0 < n ≤ String.length (a +:+ nm).
Proof using Hnm.
  unfold scheme_at. destruct (List.find _ _) as [name|] eqn:E; [|done]. simpl.
  apply find_some in E as [Hin Hm]. apply list_elem_of_In in Hin.
  unfold scheme_matches in Hm. apply andb_true_iff in Hm as [Hp _]. intros; simplify_eq.
  split; [|by apply scheme_reach in Hp].
  assert (forallb (λ n, Nat.ltb 0 (String.length n)) PASSWORD_HASHERS_ALL = true) as Hall by done.
  rewrite forallb_spec in Hall. specialize (Hall _ Hin). by apply Nat.ltb_lt in Hall.
Qed.

Lemma scheme_at_some s t : secret_ok s → is_Some (scheme_at (nm +:+ s +:+ t)).
Proof using Hnm.
  intros [Hs Hn]. unfold scheme_at. destruct (List.find _ _) eqn:E; [simpl; eauto|exfalso].
  assert (scheme_matches (nm +:+ s +:+ t) (str_upper nm) = false) as Hf.
  { apply (find_none _ _ E). by apply list_elem_of_In. }
  unfold scheme_matches in Hf. rewrite str_upper_app in Hf. unfold startswith in Hf.
  rewrite prefix_app, scheme_upper_length, str_drop_app in Hf.
  destruct s as [|c s]; [done|]. rewrite has_char_cons, orb_false_iff, bool_decide_eq_false in Hn.
  simpl in Hf. rewrite bool_decide_false in Hf by naive_solver. done.
Qed.

Lemma sub_skipping w t :
  has_char ch_nl w = false → sub_passwords Skipping (w +:+ NL +:+ t) = sub_passwords Skipping (NL +:+ t).
Proof using Type.
  induction w as [|c w IH]; [done|]. rewrite has_char_cons, orb_false_iff, bool_decide_eq_false.
  intros [Hc Hw]. simpl. rewrite bool_decide_false by congruence. by apply IH.
Qed.

Lemma sub_copying x s t k :
  secret_ok s → has_char ch_nl x = false → k ≤ String.length x →
  sub_passwords (Copying k) (x +:+ s +:+ NL +:+ t)
  = str_take k x +:+ password_filler +:+ sub_passwords Skipping (NL +:+ t).
Proof using Type.
  intros [Hs Hn]. revert x. induction k as [|k IH]; intros x Hx Hl.
  - assert (has_char ch_nl (x +:+ s) = false) as Hxs by (by rewrite has_char_app, Hx, Hn).
    rewrite <- str_app_assoc. assert (x +:+ s ≠ "") as Hne by (by destruct x).
    assert (str_take 0 x = "") as -> by (by destruct x).
    destruct (x +:+ s) as [|c w]; [done|].
    rewrite has_char_cons, orb_false_iff in Hxs. destruct Hxs as [_ Hw].
    change (password_filler +:+ sub_passwords Skipping (w +:+ NL +:+ t)
      = password_filler +:+ sub_passwords Skipping (NL +:+ t)).
    by rewrite sub_skipping.
  - destruct x as [|c x]; simpl in Hl; [lia|].
    rewrite has_char_cons, orb_false_iff in Hx. destruct Hx as [_ Hx].
    simpl. f_equal. apply IH; [done|lia].
Qed.

Lemma sub_scanning c w n :
  scheme_at (String c w) = Some n →
  sub_passwords Scanning (String c w) = String c (sub_passwords (Copying (n - 1)) w).
Proof using Type. intros H. change (sub_passwords Scanning (String c w)) with
  (match scheme_at (String c w) with
   | Some n => String c (sub_passwords (Copying (n - 1)) w)
   | None => String c (sub_passwords Scanning w)
   end). by rewrite H.
Qed.

Lemma sub_same m a s1 s2 t :
  secret_ok s1 → secret_ok s2 →
  match m with Copying k => k ≤ String.length (a +:+ nm) | _ => True end →
  sub_passwords m ((a +:+ nm) +:+ s1 +:+ NL +:+ t) = sub_passwords m ((a +:+ nm) +:+ s2 +:+ NL +:+ t).
Proof using Hnm.
  intros H1 H2. revert m. induction a as [|c a IH]; intros m Hm.
  - change ("" +:+ nm) with nm in *. destruct m as [|k|].
    + destruct (scheme_at_some s1 (NL +:+ t) H1) as [n Hat].
      pose proof (scheme_at_secret "" s1 s2 (NL +:+ t) H1 H2 : scheme_at (nm +:+ _) = _) as Hsame.
      pose proof (scheme_at_length "" _ n Hat : 0 < n ≤ String.length nm) as Hlen.
      pose proof scheme_no_nl as Hno. clear Hnm. rewrite Hat in Hsame.
      destruct nm as [|c x]; [simpl in Hlen; lia|].
      rewrite has_char_cons, orb_false_iff in Hno. destruct Hno as [_ Hno].
      change (sub_passwords Scanning (String c (x +:+ s1 +:+ NL +:+ t))
        = sub_passwords Scanning (String c (x +:+ s2 +:+ NL +:+ t))).
      rewrite (sub_scanning c (x +:+ s1 +:+ NL +:+ t) n) by done.
      rewrite (sub_scanning c (x +:+ s2 +:+ NL +:+ t) n) by done.
      simpl in Hlen. by rewrite !sub_copying by (done || lia).
    + by rewrite !sub_copying by (done || apply scheme_no_nl).
    + rewrite <- !(str_app_assoc nm). rewrite !sub_skipping; [done|..];
        rewrite has_char_app, scheme_no_nl; [apply H2|apply H1].
  - destruct m as [|k|]; simpl.
    + pose proof (scheme_at_secret (String c a) s1 s2 (NL +:+ t) H1 H2) as Hsame.
      simpl in Hsame. rewrite <- Hsame.
      destruct (scheme_at _) as [n|] eqn:E; [|f_equal; by apply IH].
      pose proof (scheme_at_length (String c a) _ n E) as Hlen. simpl in Hlen.
      f_equal. apply IH. lia.
    + simpl in Hm. destruct k as [|k].
      * change (password_filler +:+ sub_passwords Skipping ((a +:+ nm) +:+ s1 +:+ NL +:+ t)
          = password_filler +:+ sub_passwords Skipping ((a +:+ nm) +:+ s2 +:+ NL +:+ t)).
        by rewrite (IH Skipping).
      * f_equal. apply (IH (Copying k)). lia.
    + case_bool_decide; [f_equal; by apply (IH Scanning)|by apply (IH Skipping)].
Qed.

Lemma remove_checks a s t :
  existsb (λ n, contains (str_lower n) (str_lower ((a +:+ nm) +:+ s +:+ t))) PASSWORD_HASHERS_ALL = true.
Proof using Hnm.
  apply existsb_spec. exists (str_upper nm). split; [done|]. apply contains_spec.
  exists (str_lower a), (str_lower (s +:+ t)).
  assert (∀ x y, str_lower (x +:+ y) = str_lower x +:+ str_lower y) as Happ
    by (intros; apply str_map_app).
  rewrite !Happ, str_app_assoc. do 2 f_equal.
  unfold str_lower, str_upper. clear. induction nm as [|c s IH]; [done|]. simpl. rewrite IH. f_equal.
  destruct c as [[] [] [] [] [] [] [] []]; reflexivity.
Qed.

(** C33. The text returned to clients does not depend on the secret that
    follows a password scheme name in any case, anywhere in the text: whatever
    hash is stored on that line, the output is the same. *)
Theorem remove_auth_hashes_secret a s1 s2 t :
  secret_ok s1 → secret_ok s2 →
  remove_auth_hashes (a +:+ nm +:+ s1 +:+ NL +:+ t) = remove_auth_hashes (a +:+ nm +:+ s2 +:+ NL +:+ t).
Proof using Hnm.
  intros H1 H2. rewrite <- !(str_app_assoc a). unfold remove_auth_hashes.
  assert (∀ s, secret_ok s → String.eqb ((a +:+ nm) +:+ s +:+ NL +:+ t) "" = false) as Hne.
  { intros s [Hs _]. apply String.eqb_neq. destruct (a +:+ nm); [|done]. by destruct s. }
  rewrite !Hne, !remove_checks by done. simpl negb. cbv iota. by apply (sub_same Scanning).
Qed.
End Secret.

Lemma remove_auth_hashes_secret_witness :
  remove_auth_hashes ("auth: md5-pw $1$a$b" +:+ NL +:+ "source: TEST" +:+ NL)
  = remove_auth_hashes ("auth: md5-pw secret" +:+ NL +:+ "source: TEST" +:+ NL).
Proof.
  apply (remove_auth_hashes_secret "md5-pw" ltac:(apply (bool_decide_unpack _); vm_compute; exact I)
    "auth: " " $1$a$b" " secret" ("source: TEST" +:+ NL)); split; done.
Defined.
