(* ===== verification/Rpki.v ===== *)
(** * RPKI route origin validation ([irrd/rpki/validators.py])

    [Bulk]: [BulkRouteROAValidator], which builds one trie per address family;
    [Single]: [SingleRouteROAValidator], which asks the database for the
    covering ROAs.  [datrie] is a third-party package: an interface with its
    documented laws. *)
From S2P Require Import Prelude PyStr Conf Net Models.

(** The part of [datrie.Trie] the code uses. *)
Class Datrie (V : Type) := {
  trie : Type;
  trie_empty : trie;
  trie_get : trie → string → option V;
  trie_set : trie → string → V → trie;
  trie_prefix_items : trie → string → list (string * V);
}.
Arguments trie V {_}.

Class DatrieLaws (V : Type) `{Datrie V} : Prop := {
  trie_get_empty : ∀ k, trie_get trie_empty k = None;
  trie_get_set : ∀ t k v, trie_get (trie_set t k v) k = Some v;
  trie_get_set_ne : ∀ t k k' v, k ≠ k' → trie_get (trie_set t k v) k' = trie_get t k';
  (** [prefix_items(key)]: the items whose key is a prefix of [key], inclusive. *)
  trie_prefix_items_ok : ∀ t s k v,
    (k, v) ∈ trie_prefix_items t s ↔ trie_get t k = Some v ∧ startswith k s = true;
}.

(** A ROA as the trie holds it: prefix text, AS number, maximum length. *)
Definition roa_tuple : Type := string * Z * Z.

(** PostgreSQL's [>>=] on [CIDR] values: contains or equals. *)
Definition cidr_contains_eq (a b : cidr) : bool :=
  (c_version a =? c_version b)%Z && (c_len a <=? c_len b)%Z
  && (Z.shiftr (c_addr a) (ip_width (c_version a) - c_len a)
      =? Z.shiftr (c_addr b) (ip_width (c_version b) - c_len a))%Z.

(** The [CIDR] value of [str(ip)]. *)
Definition cidr_of_ip `{IPyLib} (ip : IP) : cidr :=
  {| c_version := ip_version ip; c_addr := ip_int ip; c_len := ip_prefixlen ip |}.

Section Rpki.
Context `{IPyLib} `{Datrie (list roa_tuple)}.
(** The text in which the database returns a [CIDR] value. *)
Context (cidr_text : cidr → string).
Context (cfg : configuration).

(** ** ROA objects as imported ([irrd/rpki/importer.py], class [ROA]) *)
Record ROA := {
  ROA_prefix : IP;
  ROA_prefix_str : string;
  ROA_asn : Z;
  ROA_max_length : Z;
  ROA_trust_anchor : string;
}.

(** ** BulkRouteROAValidator *)

Record BulkRouteROAValidator := {
  excluded_sources : list string;
  roa_tree4 : trie (list roa_tuple);
  roa_tree6 : trie (list roa_tuple);
}.

Definition _ip_to_binary_str (ip : string) : res (Z * string) :=
  let is6 := has_char ":"%char ip in
  match (if is6 then inet_pton6 ip else inet_pton4 ip) with
  | Some ip_bin =>
      Ok ((if is6 then 6 else 4)%Z, concat_str ((λ b, bits 8 b) <$> ip_bin) +:+ "0")
  | None => Raise (GenericException "illegal IP address string passed to inet_pton")
  end.

(** Adding one tuple under a key of the tree for its family. *)
Definition tree_append (t : trie (list roa_tuple)) (key : string) (v : roa_tuple) :=
  match trie_get t key with
  | Some l => trie_set t key (l ++ [v])
  | None => trie_set t key [v]
  end.
Definition bulk_append (b : BulkRouteROAValidator) (version : Z) (key : string) (v : roa_tuple)
  : BulkRouteROAValidator :=
  if (version =? 6)%Z
  then {| excluded_sources := excluded_sources b; roa_tree4 := roa_tree4 b;
          roa_tree6 := tree_append (roa_tree6 b) key v |}
  else {| excluded_sources := excluded_sources b;
          roa_tree4 := tree_append (roa_tree4 b) key v; roa_tree6 := roa_tree6 b |}.

Fixpoint _build_roa_tree_from_roa_objs (b : BulkRouteROAValidator) (roas : list ROA)
  : BulkRouteROAValidator :=
  match roas with
  | [] => b
  | roa :: roas' =>
      let key := str_take (Z.to_nat (ip_prefixlen (ROA_prefix roa))) (ip_strBin (ROA_prefix roa)) in
      _build_roa_tree_from_roa_objs
        (bulk_append b (ip_version (ROA_prefix roa)) key
           (ROA_prefix_str roa, ROA_asn roa, ROA_max_length roa)) roas'
  end.

(** One database row: family, key and tuple. *)
Definition roa_row_entry (roa : roa_row) : res (Z * string * roa_tuple) :=
  let text := cidr_text (roa_prefix roa) in
  match split_on "/"%char text with
  | [first_ip; length] =>
      '(ip_version, ip_bin_str) ← _ip_to_binary_str first_ip;
      match py_int length with
      | Some n => Ok (ip_version, str_take (Z.to_nat n) ip_bin_str,
                      (text, roa_asn roa, roa_max_length roa))
      | None => Raise (ValueError "invalid literal for int()")
      end
  | _ => Raise (ValueError "not enough or too many values to unpack")
  end.
Fixpoint _build_roa_tree_from_db (b : BulkRouteROAValidator) (roas : list roa_row)
  : res BulkRouteROAValidator :=
  match roas with
  | [] => Ok b
  | roa :: roas' =>
      '(version, key, v) ← roa_row_entry roa;
      _build_roa_tree_from_db (bulk_append b version key v) roas'
  end.

(** [__init__]: [roas] given, or read from the [roa_object] table. *)
Definition BulkRouteROAValidator_init (roa_table : list roa_row) (roas : option (list ROA))
  : res BulkRouteROAValidator :=
  let b := {| excluded_sources := sources_with cfg "rpki_excluded";
              roa_tree4 := trie_empty; roa_tree6 := trie_empty |} in
  match roas with
  | None => _build_roa_tree_from_db b roa_table
  | Some roas => Ok (_build_roa_tree_from_roa_objs b roas)
  end.

Definition roa_tuple_matches (prefix_asn prefix_length : Z) (t : roa_tuple) : bool :=
  let '(_, roa_asn, roa_max_length) := t in
  negb (roa_asn =? 0)%Z && (roa_asn =? prefix_asn)%Z && (prefix_length <=? roa_max_length)%Z.

Definition bulk_validate_route (b : BulkRouteROAValidator) (prefix_ip : string)
    (prefix_length prefix_asn : Z) (source : string) : res RPKIStatus :=
  if bool_decide (source ∈ excluded_sources b) then Ok rpki_not_found
  else
    '(ip_version, ip_bin_str) ← _ip_to_binary_str prefix_ip;
    let roa_tree := if (ip_version =? 6)%Z then roa_tree6 b else roa_tree4 b in
    let roas_covering :=
      trie_prefix_items roa_tree (str_take (Z.to_nat prefix_length) ip_bin_str) in
    match roas_covering with
    | [] => Ok rpki_not_found
    | _ =>
        if existsb (λ '(_, value), existsb (roa_tuple_matches prefix_asn prefix_length) value)
             roas_covering
        then Ok rpki_valid else Ok rpki_invalid
    end.

(** ** SingleRouteROAValidator *)

(** [ROADatabaseObjectQuery().ip_less_specific_or_exact(route)]. *)
Definition roas_less_specific_or_exact (roa_table : list roa_row) (route : IP) : list roa_row :=
  List.filter (λ r, cidr_contains_eq (roa_prefix r) (cidr_of_ip route)) roa_table.

Definition single_validate_route (roa_table : list roa_row) (route : IP) (asn : Z)
    (source : string) : RPKIStatus :=
  if truthy (source_setting cfg source "rpki_excluded") then rpki_not_found
  else
    match roas_less_specific_or_exact roa_table route with
    | [] => rpki_not_found
    | roas_covering =>
        if existsb (λ roa, negb (roa_asn roa =? 0)%Z && (roa_asn roa =? asn)%Z
                           && (ip_prefixlen route <=? roa_max_length roa)%Z) roas_covering
        then rpki_valid else rpki_invalid
    end.

(** ** validate_all_routes *)

(** A changed object: the status found in the database ([old_status]) and
    the row with its new status. *)
Definition changed_obj : Type := RPKIStatus * rpsl_row.

Definition is_route_row (sources : option (list string)) (r : rpsl_row) : bool :=
  bool_decide (r_object_class r ∈ ["route"; "route6"])
  && match sources with
     | Some ((_ :: _) as l) => bool_decide (r_source r ∈ (λ s, strip (str_upper s)) <$> l)
     | _ => true
     end.

(** The loop over the routes: [objs_changed] per new status, in order. *)
Fixpoint collect_changed (b : BulkRouteROAValidator) (routes : list rpsl_row)
  : res (list changed_obj) :=
  match routes with
  | [] => Ok []
  | r :: routes' =>
      if String.eqb (r_source r) RPKI_IRR_PSEUDO_SOURCE then collect_changed b routes'
      else
        match r_ip_first r, r_prefix_length r, r_asn_first r with
        | Some ip_first, Some prefix_length, Some asn =>
            new_status ← bulk_validate_route b ip_first prefix_length asn (r_source r);
            rest ← collect_changed b routes';
            if decide (new_status = r_rpki_status r) then Ok rest
            else Ok ((r_rpki_status r, set_rpki_status new_status r) :: rest)
        | _, _, _ => Raise (GenericException "TypeError")
        end
  end.
Definition with_status (s : RPKIStatus) (l : list changed_obj) : list changed_obj :=
  List.filter (λ o, bool_decide (r_rpki_status (o.2) = s)) l.

(** The text and the other statuses are read again from the rows with the
    primary keys found. *)
Definition enrich (table : list rpsl_row) (o : changed_obj) : res changed_obj :=
  match row_by_pk table (r_pk o.2) with
  | Some row => Ok (o.1, set_rpki_status (r_rpki_status o.2) row)
  | None => Raise (KeyError (r_pk o.2))
  end.

Definition validate_all_routes (b : BulkRouteROAValidator) (table : list rpsl_row)
    (sources : option (list string)) : res (list changed_obj * list changed_obj * list changed_obj) :=
  objs_changed ← collect_changed b (List.filter (is_route_row sources) table);
  objs_changed ← res_map (enrich table) objs_changed;
  Ok (with_status rpki_valid objs_changed, with_status rpki_invalid objs_changed,
      with_status rpki_not_found objs_changed).
End Rpki.
Arguments ROA {_}.
Arguments BulkRouteROAValidator {_}.
