(* ===== verification/RpkiTheory.v ===== *)
(** * Correctness of route origin validation

    The bulk validator's tries answer exactly like the single validator's
    database query, and both decide the validation states of RFC 6811. *)
From S2P Require Import Prelude PyStr Conf Net Models Rpki.

(** ** Strings of bits *)

Lemma str_app_inj_length a b c d :
  String.length a = String.length c → a +:+ b = c +:+ d → a = c ∧ b = d.
Proof.
  revert c. induction a as [|x a IH]; intros [|y c] Hl Heq; simplify_eq/=; [done|].
  destruct (IH c) as [-> ->]; done.
Qed.

Lemma bits_inj_range w m n :
  (0 ≤ m < 2 ^ Z.of_nat w)%Z → (0 ≤ n < 2 ^ Z.of_nat w)%Z → bits w m = bits w n → m = n.
Proof.
  intros Hm Hn Heq. apply Z.bits_inj'. intros i Hi.
  destruct (Z.lt_ge_cases i (Z.of_nat w)) as [Hlt|Hge].
  - by apply (bits_inj w).
  - assert (∀ k, (0 ≤ k < 2 ^ Z.of_nat w)%Z → Z.testbit k i = false) as Hz; [|by rewrite !Hz].
    intros k Hk. destruct (Z.eq_dec k 0) as [->|]; [apply Z.testbit_0_l|].
    apply Z.bits_above_log2; [lia|]. apply Z.log2_lt_pow2; [lia|].
    eapply Z.lt_le_trans; [apply Hk|]. apply Z.pow_le_mono_r; lia.
Qed.

Lemma shiftr_range w l a :
  (0 ≤ l ≤ w)%Z → (0 ≤ a < 2 ^ w)%Z → (0 ≤ Z.shiftr a (w - l) < 2 ^ l)%Z.
Proof.
  intros Hl Ha. rewrite Z.shiftr_div_pow2 by lia. split; [apply Z.div_pos; lia|].
  apply Z.div_lt_upper_bound; [lia|]. rewrite <- Z.pow_add_r by lia.
  replace (w - l + l)%Z with w by lia. lia.
Qed.

(** The key of a prefix: its network bits. *)
Definition net_bits (w l a : Z) : string := bits (Z.to_nat l) (Z.shiftr a (w - l)).

Lemma str_take_app n a b : n ≤ String.length a → str_take n (a +:+ b) = str_take n a.
Proof.
  unfold str_take. revert a. induction n as [|n IH]; intros a Hn.
  - by destruct a, b.
  - destruct a as [|c a]; simpl in *; [lia|]. rewrite IH by lia. done.
Qed.

Lemma take_net_bits w l a tail :
  (0 ≤ l ≤ w)%Z → str_take (Z.to_nat l) (bits (Z.to_nat w) a +:+ tail) = net_bits w l a.
Proof.
  intros Hl. rewrite str_take_app by (rewrite bits_length; lia).
  replace (Z.to_nat w) with (Z.to_nat l + Z.to_nat (w - l)) by lia.
  rewrite bits_take. unfold net_bits. do 2 f_equal. lia.
Qed.

Lemma net_bits_prefix w l1 a1 l2 a2 :
  (0 ≤ l1 ≤ w)%Z → (0 ≤ l2 ≤ w)%Z → (0 ≤ a1 < 2 ^ w)%Z → (0 ≤ a2 < 2 ^ w)%Z →
  startswith (net_bits w l1 a1) (net_bits w l2 a2) = true ↔
  (l1 ≤ l2)%Z ∧ Z.shiftr a1 (w - l1) = Z.shiftr a2 (w - l1).
Proof.
  intros H1 H2 Ha1 Ha2. unfold startswith, net_bits. rewrite prefix_spec. split.
  - intros [b Hb].
    assert (l1 ≤ l2)%Z as Hle.
    { apply (f_equal String.length) in Hb. rewrite str_length_app, !bits_length in Hb. lia. }
    split; [done|].
    replace (Z.to_nat l2) with (Z.to_nat l1 + Z.to_nat (l2 - l1)) in Hb by lia.
    rewrite bits_app in Hb. apply str_app_inj_length in Hb as [Hb _]; [|by rewrite !bits_length].
    rewrite Z.shiftr_shiftr in Hb by lia.
    replace (w - l2 + Z.of_nat (Z.to_nat (l2 - l1)))%Z with (w - l1)%Z in Hb by lia.
    symmetry. apply (bits_inj_range (Z.to_nat l1)); [| |done];
      rewrite Z2Nat.id by lia; by apply shiftr_range.
  - intros [Hle Heq]. exists (bits (Z.to_nat (l2 - l1)) (Z.shiftr a2 (w - l2))).
    rewrite Heq. replace (Z.to_nat l2) with (Z.to_nat l1 + Z.to_nat (l2 - l1)) by lia.
    rewrite bits_app. f_equal. f_equal. rewrite Z.shiftr_shiftr by lia. f_equal. lia.
Qed.

Lemma cidr_contains_eq_spec a b :
  cidr_contains_eq a b = true ↔
  c_version a = c_version b ∧ (c_len a ≤ c_len b)%Z
  ∧ Z.shiftr (c_addr a) (ip_width (c_version a) - c_len a)
    = Z.shiftr (c_addr b) (ip_width (c_version b) - c_len a).
Proof.
  unfold cidr_contains_eq. rewrite !andb_true_iff, !Z.eqb_eq, Z.leb_le. tauto.
Qed.

Record cidr_ok (c : cidr) : Prop := {
  cidr_version_ok : c_version c = 4%Z ∨ c_version c = 6%Z;
  cidr_len_ok : (0 ≤ c_len c ≤ ip_width (c_version c))%Z;
  cidr_addr_ok : (0 ≤ c_addr c < 2 ^ ip_width (c_version c))%Z;
}.

Lemma cidr_contains_net_bits a b :
  cidr_ok a → cidr_ok b → c_version a = c_version b →
  startswith (net_bits (ip_width (c_version a)) (c_len a) (c_addr a))
             (net_bits (ip_width (c_version b)) (c_len b) (c_addr b))
  = cidr_contains_eq a b.
Proof.
  intros [_ Hla Haa] [_ Hlb Hab] Hv. apply eq_true_iff_eq. rewrite cidr_contains_eq_spec.
  rewrite Hv in *. rewrite net_bits_prefix by done. tauto.
Qed.

(** ** The tries *)

Section Tree.
Context {V : Type} `{Datrie (list V)} `{!DatrieLaws (list V)}.

Definition append_key (t : trie (list V)) (kv : string * V) : trie (list V) :=
  match trie_get t kv.1 with
  | Some l => trie_set t kv.1 (l ++ [kv.2])
  | None => trie_set t kv.1 [kv.2]
  end.

Definition under (k : string) (kvs : list (string * V)) : list V :=
  omap (λ kv, if decide (kv.1 = k) then Some kv.2 else None) kvs.

Definition nonempty {A} (l : list A) : option (list A) :=
  match l with [] => None | _ => Some l end.

Lemma append_key_get t kv k :
  trie_get (append_key t kv) k
  = if decide (kv.1 = k) then Some (default [] (trie_get t k) ++ [kv.2]) else trie_get t k.
Proof.
  destruct kv as [k' v]. unfold append_key; simpl. case_decide as Hk; [subst|].
  - destruct (trie_get t k); by rewrite trie_get_set.
  - destruct (trie_get t k'); by rewrite trie_get_set_ne.
Qed.

Lemma foldl_append_get kvs t k :
  trie_get (foldl append_key t kvs) k
  = match under k kvs with
    | [] => trie_get t k
    | l => Some (default [] (trie_get t k) ++ l)
    end.
Proof.
  revert t. induction kvs as [|kv kvs IH]; intros t; simpl; [done|].
  rewrite IH, append_key_get. case_decide as Hk; [|done].
  simpl. destruct (under k kvs); [done|]. simpl. by rewrite <- app_assoc.
Qed.

Lemma built_get kvs k : trie_get (foldl append_key trie_empty kvs) k = nonempty (under k kvs).
Proof. rewrite foldl_append_get, trie_get_empty. by destruct (under k kvs). Qed.

Lemma under_elem k kvs v : v ∈ under k kvs ↔ (k, v) ∈ kvs.
Proof.
  unfold under. rewrite list_elem_of_omap. split.
  - intros ([k' v'] & Hin & Hs). simpl in Hs. case_decide; naive_solver.
  - intros Hin. exists (k, v). split; [done|]. simpl. by rewrite decide_True.
Qed.

(** What [prefix_items] finds in a built trie. *)
Lemma built_items kvs s k l :
  (k, l) ∈ trie_prefix_items (foldl append_key trie_empty kvs) s
  → startswith k s = true ∧ l = under k kvs ∧ l ≠ [].
Proof.
  rewrite trie_prefix_items_ok, built_get. destruct (under k kvs); naive_solver.
Qed.

Definition covering (s : string) (kvs : list (string * V)) : list (string * V) :=
  List.filter (λ kv, startswith kv.1 s) kvs.

Lemma covering_elem s kvs kv : kv ∈ covering s kvs ↔ kv ∈ kvs ∧ startswith kv.1 s = true.
Proof. unfold covering. by rewrite filter_elem. Qed.

Lemma built_items_nil kvs s :
  trie_prefix_items (foldl append_key trie_empty kvs) s = [] ↔ covering s kvs = [].
Proof.
  split; intros Hnil.
  - destruct (covering s kvs) as [|[k v] l] eqn:E; [done|exfalso].
    assert ((k, v) ∈ covering s kvs) as Hin by (rewrite E; set_solver).
    apply covering_elem in Hin as [Hin Hp].
    assert ((k, under k kvs) ∈ trie_prefix_items (foldl append_key trie_empty kvs) s) as Hi.
    { rewrite trie_prefix_items_ok, built_get. apply under_elem in Hin.
      destruct (under k kvs); [set_solver|done]. }
    rewrite Hnil in Hi. set_solver.
  - destruct (trie_prefix_items _ s) as [|[k l] items] eqn:E; [done|exfalso].
    destruct (built_items kvs s k l) as (Hp & -> & Hne); [rewrite E; set_solver|].
    destruct (under k kvs) as [|v l] eqn:Eu; [done|].
    assert ((k, v) ∈ covering s kvs) as Hin; [|rewrite Hnil in Hin; set_solver].
    apply covering_elem. split; [|done]. apply under_elem. rewrite Eu. set_solver.
Qed.

Lemma built_items_exists kvs s (f : V → bool) :
  existsb (λ '(_, l), existsb f l) (trie_prefix_items (foldl append_key trie_empty kvs) s)
  = existsb (λ kv, f kv.2) (covering s kvs).
Proof.
  apply eq_true_iff_eq. rewrite !existsb_spec. split.
  - intros ([k l] & Hin & Hex). apply existsb_spec in Hex as (v & Hv & Hf).
    apply built_items in Hin as (Hp & -> & _). exists (k, v). split; [|done].
    apply covering_elem. split; [by apply under_elem|done].
  - intros ([k v] & Hin & Hf). apply covering_elem in Hin as [Hin Hp].
    exists (k, under k kvs). split.
    + rewrite trie_prefix_items_ok, built_get. apply under_elem in Hin.
      destruct (under k kvs); [set_solver|done].
    + apply existsb_spec. exists v. by rewrite under_elem.
Qed.
End Tree.

(** ** Both validators *)

Section Agree.
Context `{IPyLib} `{!IPyLaws} `{Datrie (list roa_tuple)} `{!DatrieLaws (list roa_tuple)}.
Context (cidr_text : cidr → string) (cfg : configuration).

(** The state decided by a list of covering ROAs. *)
Definition rov (asn plen : Z) (covering : list (Z * Z)) : RPKIStatus :=
  match covering with
  | [] => rpki_not_found
  | _ => if existsb (λ '(a, m), negb (a =? 0)%Z && (a =? asn)%Z && (plen <=? m)%Z) covering
         then rpki_valid else rpki_invalid
  end.

Lemma rov_cons asn plen l :
  l ≠ [] →
  rov asn plen l
  = if existsb (λ '(a, m), negb (a =? 0)%Z && (a =? asn)%Z && (plen <=? m)%Z) l
    then rpki_valid else rpki_invalid.
Proof. by destruct l. Qed.

(** The text the database returns for a ROA prefix is read back by
    [inet_pton] and [int] as that prefix. *)
Record roa_text_ok (c : cidr) : Prop := {
  text_cidr : cidr_ok c;
  text_parts : ∃ t, cidr_text c = t +:+ "/" +:+ str_of_Z (c_len c) ∧ has_char "/"%char t = false
    ∧ _ip_to_binary_str t
      = Ok (c_version c, bits (Z.to_nat (ip_width (c_version c))) (c_addr c) +:+ "0");
}.

(** The address text a route is validated with denotes the route's network. *)
Definition route_text_ok (prefix_ip : string) (route : IP) : Prop :=
  _ip_to_binary_str prefix_ip
  = Ok (ip_version route, bits (Z.to_nat (ip_width (ip_version route))) (ip_int route) +:+ "0").

Lemma cidr_of_ip_ok route : cidr_ok (cidr_of_ip route).
Proof.
  split; simpl; [apply ip_version_ok|apply ip_prefixlen_ok|apply ip_int_ok].
Qed.

(** A ROA by its prefix, AS number and maximum length, and how the tries hold it. *)
Definition roa3 : Type := cidr * Z * Z.
Definition key3 (r : roa3) : string :=
  net_bits (ip_width (c_version r.1.1)) (c_len r.1.1) (c_addr r.1.1).
Definition entry3 (text : string) (r : roa3) : Z * string * roa_tuple :=
  (c_version r.1.1, key3 r, (text, r.1.2, r.2)).
Definition row3 (r : roa_row) : roa3 := (roa_prefix r, roa_asn r, roa_max_length r).

Lemma roa_row_entry_ok r :
  roa_text_ok (roa_prefix r) →
  roa_row_entry cidr_text r = Ok (entry3 (cidr_text (roa_prefix r)) (row3 r)).
Proof.
  intros [[Hv Hl Ha] (t & Ht & Hc & Hb)]. unfold roa_row_entry. rewrite Ht.
  change (t +:+ "/" +:+ str_of_Z (c_len (roa_prefix r)))
    with (t +:+ String "/" (str_of_Z (c_len (roa_prefix r)))).
  rewrite split_on_app by done. rewrite split_on_none by (apply str_of_Z_no_char; [lia|done]).
  rewrite Hb. simpl. rewrite py_int_str_of_Z by lia. rewrite take_net_bits by done. done.
Qed.

Definition family (v : Z) (es : list (Z * string * roa_tuple)) : list (string * roa_tuple) :=
  omap (λ e, if decide ((e.1.1 =? 6)%Z = (v =? 6)%Z) then Some (e.1.2, e.2) else None) es.

Definition bulk_entries (b : BulkRouteROAValidator) (es : list (Z * string * roa_tuple)) :=
  foldl (λ b e, bulk_append b e.1.1 e.1.2 e.2) b es.

Lemma bulk_entries_tree b es v :
  (if (v =? 6)%Z then roa_tree6 (bulk_entries b es) else roa_tree4 (bulk_entries b es))
  = foldl append_key (if (v =? 6)%Z then roa_tree6 b else roa_tree4 b) (family v es).
Proof.
  revert b. induction es as [|[[v' k] t] es IH]; intros b; simpl; [done|].
  rewrite IH. unfold bulk_append; simpl.
  destruct (v' =? 6)%Z, (v =? 6)%Z; simpl; done.
Qed.

Lemma bulk_entries_excluded b es :
  excluded_sources (bulk_entries b es) = excluded_sources b.
Proof.
  revert b. induction es as [|[[v k] t] es IH]; intros b; simpl; [done|].
  rewrite IH. unfold bulk_append; simpl. by destruct (v =? 6)%Z.
Qed.

Lemma build_from_db_entries b rows :
  Forall (λ r, roa_text_ok (roa_prefix r)) rows →
  _build_roa_tree_from_db cidr_text b rows
  = Ok (bulk_entries b ((λ r, entry3 (cidr_text (roa_prefix r)) (row3 r)) <$> rows)).
Proof.
  revert b. induction rows as [|r rows IH]; intros b Hok; simpl; [done|].
  apply Forall_cons in Hok as [Hr Hok]. rewrite roa_row_entry_ok by done. simpl.
  rewrite IH by done. done.
Qed.

(** A ROA object as the same triple. *)
Definition obj3 (r : ROA) : roa3 :=
  (cidr_of_ip (ROA_prefix r), ROA_asn r, ROA_max_length r).

Lemma build_from_objs_entries b roas :
  _build_roa_tree_from_roa_objs b roas
  = bulk_entries b ((λ r, entry3 (ROA_prefix_str r) (obj3 r)) <$> roas).
Proof.
  revert b. induction roas as [|r roas IH]; intros b; simpl; [done|].
  rewrite IH. f_equal. unfold entry3, key3, obj3; simpl. f_equal.
  rewrite ip_strBin_ok. rewrite <- (str_app_nil_r (bits _ _)).
  apply take_net_bits. apply ip_prefixlen_ok.
Qed.

(** Validation against tries filled with any list of ROAs. *)
Lemma bulk_validate_entries {A} (text : A → string) (tri : A → roa3) (l : list A)
    prefix_ip route asn source :
  Forall (λ a, cidr_ok (tri a).1.1) l → route_text_ok prefix_ip route →
  let b := bulk_entries {| excluded_sources := sources_with cfg "rpki_excluded";
                           roa_tree4 := trie_empty; roa_tree6 := trie_empty |}
             ((λ a, entry3 (text a) (tri a)) <$> l) in
  bulk_validate_route b prefix_ip (ip_prefixlen route) asn source
  = Ok (if bool_decide (source ∈ sources_with cfg "rpki_excluded") then rpki_not_found
        else rov asn (ip_prefixlen route)
               ((λ a, ((tri a).1.2, (tri a).2)) <$>
                 List.filter (λ a, cidr_contains_eq (tri a).1.1 (cidr_of_ip route)) l)).
Proof.
  intros Hl Hroute b. unfold bulk_validate_route.
  assert (excluded_sources b = sources_with cfg "rpki_excluded") as ->
    by (unfold b; by rewrite bulk_entries_excluded).
  case_bool_decide as Hex; [done|].
  rewrite Hroute. simpl mbind. unfold b. rewrite bulk_entries_tree. simpl.
  replace (if (ip_version route =? 6)%Z then trie_empty else trie_empty)
    with (trie_empty : trie (list roa_tuple)) by (by destruct (ip_version route =? 6)%Z).
  rewrite take_net_bits by apply ip_prefixlen_ok.
  set (s := net_bits _ _ _). set (kvs := family _ _).
  set (cov := List.filter _ l).
  assert (covering s kvs = (λ a, (key3 (tri a), (text a, (tri a).1.2, (tri a).2))) <$> cov) as Hcov.
  { unfold kvs, cov, family. clear b Hroute. induction Hl as [|a l Ha Hl IH]; csimpl; [done|].
    pose proof (cidr_of_ip_ok route) as Hr.
    case_decide as Hv; csimpl; simpl in Hv.
    - assert (c_version (tri a).1.1 = c_version (cidr_of_ip route)) as Hv'.
      { destruct (cidr_version_ok _ Ha) as [E|E], (cidr_version_ok _ Hr) as [E'|E'];
          simpl in *; rewrite E, E' in *; done. }
      unfold covering in *; csimpl.
      assert (startswith (key3 (tri a)) s = cidr_contains_eq (tri a).1.1 (cidr_of_ip route)) as ->
        by exact (cidr_contains_net_bits _ (cidr_of_ip route) Ha Hr Hv').
      destruct (cidr_contains_eq _ _); csimpl; by rewrite IH.
    - rewrite IH.
      assert (cidr_contains_eq (tri a).1.1 (cidr_of_ip route) = false) as ->; [|done].
      unfold cidr_contains_eq. destruct (Z.eqb_spec (c_version (tri a).1.1)
        (c_version (cidr_of_ip route))) as [E|]; [|done].
      simpl in E. rewrite E in Hv. done. }
  destruct (trie_prefix_items _ s) as [|i items] eqn:Ei.
  - apply built_items_nil in Ei. rewrite Hcov in Ei. by destruct cov.
  - rewrite <- Ei, built_items_exists, Hcov.
    assert (cov ≠ []) as Hne.
    { intros Hc. rewrite Hc in Hcov. apply built_items_nil in Hcov. by rewrite Ei in Hcov. }
    rewrite existsb_fmap.
    rewrite rov_cons by (by destruct cov). rewrite existsb_fmap. by destruct (existsb _ _).
Qed.

Lemma single_rov rows route asn source :
  single_validate_route cfg rows route asn source
  = if truthy (source_setting cfg source "rpki_excluded") then rpki_not_found
    else rov asn (ip_prefixlen route)
           ((λ r, (roa_asn r, roa_max_length r)) <$> roas_less_specific_or_exact rows route).
Proof.
  unfold single_validate_route. destruct (truthy _); [done|].
  destruct (roas_less_specific_or_exact rows route) as [|r l]; [done|].
  rewrite rov_cons by done. by rewrite existsb_fmap.
Qed.

(** The exclusion tests of the two validators agree. *)
Lemma excluded_agree source :
  conf_plain cfg → has_char "."%char source = false →
  bool_decide (source ∈ sources_with cfg "rpki_excluded")
  = truthy (source_setting cfg source "rpki_excluded").
Proof.
  intros Hc Hs. apply eq_true_iff_eq. rewrite bool_decide_eq_true. by apply sources_with_spec.
Qed.

(** [roa] is what the database row [r] was saved from ([ROA.save]). *)
Definition saved_as (roa : ROA) (r : roa_row) : Prop :=
  roa_prefix r = cidr_of_ip (ROA_prefix roa) ∧ roa_asn r = ROA_asn roa
  ∧ roa_max_length r = ROA_max_length roa.

Lemma saved_as_filter (roas : list ROA) rows route :
  Forall2 saved_as roas rows →
  (λ a, ((obj3 a).1.2, (obj3 a).2)) <$>
    List.filter (λ a, cidr_contains_eq (obj3 a).1.1 (cidr_of_ip route)) roas
  = (λ r, (roa_asn r, roa_max_length r)) <$> roas_less_specific_or_exact rows route.
Proof.
  induction 1 as [|roa r roas rows (Hp & Ha & Hm) Hall IH]; [done|].
  unfold roas_less_specific_or_exact in *. simpl List.filter. rewrite Hp.
  destruct (cidr_contains_eq _ _); [|done].
  rewrite !fmap_cons. f_equal; [|exact IH]. simpl. by rewrite Ha, Hm.
Qed.

(** C26. Built from the [roa_object] table, or from the ROA objects of the
    import that filled that table, the bulk validator is defined and gives
    every route the status the single validator gives it: the search in the
    trie of network bits is the database's containment query. *)
Theorem bulk_single_agree rows roas :
  conf_plain cfg → Forall (λ r, roa_text_ok (roa_prefix r)) rows →
  Forall2 saved_as roas rows →
  ∃ b1 b2,
    BulkRouteROAValidator_init cidr_text cfg rows None = Ok b1 ∧
    BulkRouteROAValidator_init cidr_text cfg rows (Some roas) = Ok b2 ∧
    ∀ prefix_ip route asn source,
      route_text_ok prefix_ip route → has_char "."%char source = false →
      let status := single_validate_route cfg rows route asn source in
      bulk_validate_route b1 prefix_ip (ip_prefixlen route) asn source = Ok status ∧
      bulk_validate_route b2 prefix_ip (ip_prefixlen route) asn source = Ok status.
Proof.
  intros Hc Hrows Hsaved. unfold BulkRouteROAValidator_init.
  rewrite build_from_db_entries, build_from_objs_entries by done.
  eexists _, _. split; [done|]. split; [done|].
  intros prefix_ip route asn source Ht Hs.
  assert (Forall (λ r, cidr_ok (row3 r).1.1) rows) as Hok1
    by (eapply Forall_impl; [exact Hrows|]; intros r [? _]; done).
  assert (Forall (λ a, cidr_ok (obj3 a).1.1) roas) as Hok2
    by (apply Forall_forall; intros; apply cidr_of_ip_ok).
  rewrite single_rov.
  rewrite (bulk_validate_entries (λ r, cidr_text (roa_prefix r)) row3) by done.
  rewrite (bulk_validate_entries ROA_prefix_str obj3) by done.
  rewrite excluded_agree by done. by rewrite (saved_as_filter _ rows).
Qed.

End Agree.

(** ** RFC 6811 in terms of addresses *)

Section States.
Context `{IPyLib} `{!IPyLaws} (cfg : configuration).


(** A ROA covers a route when its range of addresses contains the route's. *)
Definition covers (c : cidr) (route : IP) : Prop :=
  c_version c = ip_version route ∧ (c_addr c ≤ ip_first route)%Z
  ∧ (ip_last route ≤ c_addr c + 2 ^ (ip_width (c_version c) - c_len c) - 1)%Z.

(** PostgreSQL refuses a [CIDR] value with bits to the right of its mask. *)
Definition cidr_network (c : cidr) : Prop :=
  cidr_ok c ∧ (c_addr c mod 2 ^ (ip_width (c_version c) - c_len c) = 0)%Z.

(** A multiple of [u] below a multiple of [u] leaves room for [u]. *)
Lemma multiple_room u v q m k a :
  (0 < u)%Z → (0 < v)%Z → (a = u * v * q + m)%Z → (0 ≤ m < u * v)%Z → (a = k * u)%Z →
  (m + u ≤ u * v)%Z.
Proof.
  intros Hu Hv Ha Hm Hk.
  assert (m = u * (k - v * q))%Z as Hr by nia.
  rewrite Hr in *. assert (k - v * q < v)%Z by nia. nia.
Qed.

Lemma aligned_contains w l1 a1 l2 a2 :
  (0 ≤ l1 ≤ w)%Z → (0 ≤ l2 ≤ w)%Z →
  (a1 mod 2 ^ (w - l1) = 0)%Z → (a2 mod 2 ^ (w - l2) = 0)%Z →
  (l1 ≤ l2)%Z ∧ Z.shiftr a1 (w - l1) = Z.shiftr a2 (w - l1) ↔
  (a1 ≤ a2)%Z ∧ (a2 + 2 ^ (w - l2) - 1 ≤ a1 + 2 ^ (w - l1) - 1)%Z.
Proof.
  intros Hl1 Hl2 Hm1 Hm2. rewrite !Z.shiftr_div_pow2 by lia.
  assert (0 < 2 ^ (w - l1))%Z as Hp1 by (apply Z.pow_pos_nonneg; lia).
  assert (0 < 2 ^ (w - l2))%Z as Hp2 by (apply Z.pow_pos_nonneg; lia).
  pose proof (Z.div_mod a1 (2 ^ (w - l1)) ltac:(lia)) as D1.
  pose proof (Z.div_mod a2 (2 ^ (w - l1)) ltac:(lia)) as D2.
  pose proof (Z.mod_pos_bound a2 (2 ^ (w - l1)) Hp1) as B2.
  split.
  - intros [Hl He]. split; [rewrite D1, D2, He; lia|].
    assert (2 ^ (w - l1) = 2 ^ (w - l2) * 2 ^ (l2 - l1))%Z as Hpow.
    { rewrite <- Z.pow_add_r by lia. f_equal. lia. }
    assert (0 < 2 ^ (l2 - l1))%Z as Hp3 by (apply Z.pow_pos_nonneg; lia).
    apply Z.mod_divide in Hm2 as [k2 Hk2]; [|lia].
    (* the remainder of [a2] is a multiple of the smaller size below the larger *)
    assert (a2 mod 2 ^ (w - l1) + 2 ^ (w - l2) ≤ 2 ^ (w - l1))%Z; [|lia].
    rewrite Hpow at 2. eapply multiple_room; [exact Hp2|exact Hp3| |rewrite <- Hpow; exact B2|exact Hk2].
    rewrite <- Hpow. exact D2.
  - intros [Ha Hb].
    assert (2 ^ (w - l2) ≤ 2 ^ (w - l1))%Z as Hpow by lia.
    apply Z.pow_le_mono_r_iff in Hpow; [|lia|lia].
    split; [lia|]. apply (Z.div_unique _ _ _ (a2 - a1)); lia.
Qed.

Lemma cidr_contains_covers c route :
  cidr_network c → cidr_contains_eq c (cidr_of_ip route) = true ↔ covers c route.
Proof.
  intros [[Hv Hl Ha] Hal]. rewrite cidr_contains_eq_spec. simpl. unfold covers, ip_first, ip_last.
  destruct (Z.eq_dec (c_version c) (ip_version route)) as [E|E]; [|tauto].
  rewrite E in *. rewrite aligned_contains; [tauto|done|..|done|apply ip_aligned].
  apply ip_prefixlen_ok.
Qed.

(** [r] authorises the origin [asn] for [route]. *)
Definition authorises (r : roa_row) (route : IP) (asn : Z) : Prop :=
  covers (roa_prefix r) route ∧ roa_asn r ≠ 0%Z ∧ roa_asn r = asn
  ∧ (ip_prefixlen route ≤ roa_max_length r)%Z.

Lemma roas_covering_elem rows route r :
  Forall (λ r, cidr_network (roa_prefix r)) rows →
  r ∈ roas_less_specific_or_exact rows route ↔ r ∈ rows ∧ covers (roa_prefix r) route.
Proof.
  intros Hn. unfold roas_less_specific_or_exact. rewrite filter_elem.
  split; intros [Hin Hx]; (split; [done|]); eapply Forall_forall in Hn; try done;
    by apply cidr_contains_covers.
Qed.

(** The single validator decides the route origin validation states: a
    source that is not excluded gets [valid] exactly when some covering ROA
    authorises the origin (never one for AS0), [invalid] exactly when there
    are covering ROAs and none authorises it, [not_found] when no ROA covers
    the route. *)
Theorem single_validate_states rows route asn source :
  Forall (λ r, cidr_network (roa_prefix r)) rows →
  truthy (source_setting cfg source "rpki_excluded") = false →
  let status := single_validate_route cfg rows route asn source in
  (status = rpki_valid ↔ ∃ r, r ∈ rows ∧ authorises r route asn) ∧
  (status = rpki_invalid ↔ (∃ r, r ∈ rows ∧ covers (roa_prefix r) route)
                           ∧ ¬ ∃ r, r ∈ rows ∧ authorises r route asn) ∧
  (status = rpki_not_found ↔ ¬ ∃ r, r ∈ rows ∧ covers (roa_prefix r) route).
Proof.
  intros Hn Hex status. unfold status, single_validate_route. rewrite Hex.
  pose proof (λ r, roas_covering_elem rows route r Hn) as Hcov.
  destruct (roas_less_specific_or_exact rows route) as [|r0 l0] eqn:E.
  { assert (∀ r, ¬ (r ∈ rows ∧ covers (roa_prefix r) route)) as Hno.
    { intros r Hr. apply Hcov in Hr. set_solver. }
    unfold authorises. naive_solver. }
  assert (∃ r, r ∈ rows ∧ covers (roa_prefix r) route) as Hsome.
  { exists r0. apply Hcov. set_solver. }
  set (cond := λ roa : roa_row, _). destruct (existsb cond (r0 :: l0)) eqn:Ex.
  - apply existsb_spec in Ex as (r & Hin & Hr). apply Hcov in Hin as [Hin Hc].
    unfold cond in Hr. bool_solve.
    assert (∃ r, r ∈ rows ∧ authorises r route asn) as Hauth
      by (exists r; unfold authorises; tauto).
    naive_solver.
  - pose proof (proj1 (existsb_false _ _) Ex) as Hnone.
    assert (¬ ∃ r, r ∈ rows ∧ authorises r route asn) as Hauth.
    { intros (r & Hin & Hc & H0' & Ha & Hm).
      assert (cond r = false) as Hf by (apply Hnone, Hcov; done).
      unfold cond in Hf. apply not_true_iff_false in Hf. apply Hf.
      rewrite !andb_true_iff, negb_true_iff, Z.eqb_neq, Z.eqb_eq, Z.leb_le. tauto. }
    naive_solver.
Qed.

End States.

(** ** validate_all_routes *)

Section AllRoutes.
Context `{Datrie (list roa_tuple)}.

(** The new status of a route row, as the loop computes it. *)
Definition row_status (b : BulkRouteROAValidator) (r : rpsl_row) : option RPKIStatus :=
  match r_ip_first r, r_prefix_length r, r_asn_first r with
  | Some ip, Some len, Some asn => res_option (bulk_validate_route b ip len asn (r_source r))
  | _, _, _ => None
  end.

Definition change_of (b : BulkRouteROAValidator) (r : rpsl_row) : option changed_obj :=
  if String.eqb (r_source r) RPKI_IRR_PSEUDO_SOURCE then None
  else s ← row_status b r;
       if decide (s = r_rpki_status r) then None else Some (r_rpki_status r, set_rpki_status s r).

Lemma collect_changed_omap b rows l :
  collect_changed b rows = Ok l →
  l = omap (change_of b) rows ∧
  Forall (λ r, r_source r = RPKI_IRR_PSEUDO_SOURCE ∨ is_Some (row_status b r)) rows.
Proof.
  revert l. induction rows as [|r rows IH]; intros l; simpl.
  { intros; simplify_eq. by split. }
  unfold change_of, row_status. destruct (String.eqb _ _) eqn:Es.
  { intros Hl. apply IH in Hl as [-> Hall]. split; [done|].
    constructor; [left; by apply String.eqb_eq|done]. }
  destruct (r_ip_first r) as [ip|] eqn:E1, (r_prefix_length r) as [len|] eqn:E2,
    (r_asn_first r) as [asn|] eqn:E3; try done.
  destruct (bulk_validate_route b ip len asn (r_source r)) as [s|] eqn:Eb; simpl; [|done].
  destruct (collect_changed b rows) as [rest|] eqn:Ec; simpl; [|done].
  destruct (IH rest eq_refl) as [-> Hall]. intros Hl. split.
  - case_decide; by simplify_eq/=.
  - constructor; [|done]. right. rewrite E1, E2, E3, Eb. simpl. eauto.
Qed.

Lemma enrich_row table (o : changed_obj) r :
  NoDup (r_pk <$> table) → r ∈ table → r_pk o.2 = r_pk r → o.2 = set_rpki_status (r_rpki_status o.2) r →
  enrich table o = Ok o.
Proof.
  intros Hnd Hin Hpk Ho. unfold enrich. rewrite Hpk, row_by_pk_elem by done.
  rewrite <- Ho. by destruct o.
Qed.

Lemma change_of_spec b r o :
  change_of b r = Some o ↔
  r_source r ≠ RPKI_IRR_PSEUDO_SOURCE ∧
  ∃ s, row_status b r = Some s ∧ s ≠ r_rpki_status r ∧ o = (r_rpki_status r, set_rpki_status s r).
Proof.
  unfold change_of. destruct (String.eqb_spec (r_source r) RPKI_IRR_PSEUDO_SOURCE); [naive_solver|].
  destruct (row_status b r) as [s|]; simpl; [|naive_solver]. case_decide; naive_solver.
Qed.

Lemma validate_all_routes_elem b table sources lv li ln :
  NoDup (r_pk <$> table) →
  validate_all_routes b table sources = Ok (lv, li, ln) →
  ∀ s o,
    o ∈ (match s with rpki_valid => lv | rpki_invalid => li | rpki_not_found => ln end) ↔
    ∃ r, r ∈ table ∧ is_route_row sources r = true ∧ r_source r ≠ RPKI_IRR_PSEUDO_SOURCE ∧
         row_status b r = Some s ∧ s ≠ r_rpki_status r ∧
         o = (r_rpki_status r, set_rpki_status s r).
Proof.
  intros Hnd Hv. unfold validate_all_routes in Hv.
  destruct (collect_changed b _) as [l|] eqn:Ec; [|done]. simpl in Hv.
  apply collect_changed_omap in Ec as [-> _].
  rewrite res_map_id in Hv.
  2: { intros o (r & Hr & Ho)%list_elem_of_omap. apply filter_elem in Hr as [Hr _].
       apply change_of_spec in Ho as (_ & s & _ & _ & ->).
       by apply (enrich_row table _ r). }
  simpl in Hv. simplify_eq. intros s o.
  assert (o ∈ with_status s (omap (change_of b) (List.filter (is_route_row sources) table)) ↔
    ∃ r, r ∈ table ∧ is_route_row sources r = true ∧ r_source r ≠ RPKI_IRR_PSEUDO_SOURCE ∧
         row_status b r = Some s ∧ s ≠ r_rpki_status r ∧
         o = (r_rpki_status r, set_rpki_status s r)) as Hmem; [|by destruct s].
  unfold with_status. rewrite filter_elem, list_elem_of_omap, bool_decide_eq_true.
  setoid_rewrite filter_elem. setoid_rewrite change_of_spec.
  split; [|naive_solver].
  intros [(r & [Hin Hr] & Hs & s' & Hst & Hne & ->) Heq]. simpl in Heq. naive_solver.
Qed.
(** [validate_all_routes] reports exactly the routes whose status
    changes: an object is in the list of status [s] if and only if it is a
    selected route that is not pseudo-IRR, whose validation gives [s] and
    whose row holds another status; it carries that old status.  The three
    lists are therefore disjoint, and a row whose status is unchanged is in
    none of them. *)
Theorem validate_all_routes_exact b table sources lv li ln :
  NoDup (r_pk <$> table) →
  validate_all_routes b table sources = Ok (lv, li, ln) →
  ∀ s o,
    o ∈ (match s with rpki_valid => lv | rpki_invalid => li | rpki_not_found => ln end) ↔
    ∃ r, r ∈ table ∧ is_route_row sources r = true ∧ r_source r ≠ RPKI_IRR_PSEUDO_SOURCE ∧
         row_status b r = Some s ∧ s ≠ r_rpki_status r ∧
         o = (r_rpki_status r, set_rpki_status s r).
Proof. apply validate_all_routes_elem. Qed.
End AllRoutes.

(** ** A concrete trie, and the theorems at concrete inputs *)

Module ConcreteTrie.
Section Trie.
Context {V : Type}.
#[export] Instance gmap_trie : Datrie V := {|
  trie := gmap string V;
  trie_empty := ∅;
  trie_get t k := t !! k;
  trie_set t k v := <[k := v]> t;
  trie_prefix_items t s := List.filter (λ kv, startswith kv.1 s) (map_to_list t);
|}.
#[export] Instance gmap_trie_laws : DatrieLaws V.
Proof.
  split; intros; simpl.
  - apply lookup_empty.
  - apply lookup_insert_eq.
  - by apply lookup_insert_ne.
  - by rewrite filter_elem, elem_of_map_to_list.
Qed.
End Trie.
End ConcreteTrie.

Module RpkiExamples.
Import ConcreteIP ConcreteTrie.

Definition ex_cfg : configuration :=
  conf_of (VDict [("sources", VDict [("TEST", VDict []);
                                     ("EXCL", VDict [("rpki_excluded", VBool true)])])]).
Definition ex_text (c : cidr) : string :=
  addr_str (c_version c) (c_addr c) +:+ "/" +:+ str_of_Z (c_len c).
Definition ex_roa (p : string) (asn ml : Z) : ROA := {|
  ROA_prefix := lit p; ROA_prefix_str := p; ROA_asn := asn; ROA_max_length := ml;
  ROA_trust_anchor := "TA" |}.
Definition ex_row (r : ROA) : roa_row := {|
  roa_ip_version := ip_version (ROA_prefix r); roa_prefix := cidr_of_ip (ROA_prefix r);
  roa_asn := ROA_asn r; roa_max_length := ROA_max_length r;
  roa_trust_anchor := ROA_trust_anchor r |}.
Definition ex_roas : list ROA :=
  [ex_roa "192.0.2.0/24" 64496 26; ex_roa "192.0.2.0/24" 0 32; ex_roa "2001:db8::/32" 64496 48].
Definition ex_rows : list roa_row := ex_row <$> ex_roas.

Lemma ex_cfg_plain : conf_plain ex_cfg.
Proof. split; try done. vm_compute sources_keys. apply (bool_decide_unpack _). by vm_compute. Qed.

(** [cidr_network], decided. *)
Definition network_b (c : cidr) : bool := ip_check (c_version c, c_addr c, c_len c).
Lemma network_b_ok c : network_b c = true → cidr_network c.
Proof.
  unfold network_b, ip_check.
  rewrite !andb_true_iff, orb_true_iff, !Z.eqb_eq, !Z.leb_le, Z.ltb_lt. intros ?.
  split; [split|]; tauto.
Qed.
Lemma ex_text_ok c :
  network_b c = true → has_char "/"%char (addr_str (c_version c) (c_addr c)) = false →
  _ip_to_binary_str (addr_str (c_version c) (c_addr c))
  = Ok (c_version c, bits (Z.to_nat (ip_width (c_version c))) (c_addr c) +:+ "0") →
  roa_text_ok ex_text c.
Proof.
  intros Hn Hs Hb. apply network_b_ok in Hn as [Hn _]. split; [done|].
  exists (addr_str (c_version c) (c_addr c)). done.
Qed.

Lemma ex_rows_text : Forall (λ r, roa_text_ok ex_text (roa_prefix r)) ex_rows.
Proof.
  apply Forall_fmap. repeat (apply Forall_cons; split; [apply ex_text_ok; vm_compute; reflexivity|]).
  apply Forall_nil_2.
Qed.

Lemma ex_rows_network : Forall (λ r, cidr_network (roa_prefix r)) ex_rows.
Proof.
  apply Forall_fmap. repeat (apply Forall_cons; split; [apply network_b_ok; vm_compute; reflexivity|]).
  apply Forall_nil_2.
Qed.

Lemma bulk_single_agree_witness :
  ∃ b, BulkRouteROAValidator_init ex_text ex_cfg ex_rows None = Ok b ∧
       bulk_validate_route b "192.0.2.64" 26 64496 "TEST" = Ok rpki_valid ∧
       bulk_validate_route b "192.0.2.64" 27 64496 "TEST" = Ok rpki_invalid ∧
       bulk_validate_route b "192.0.2.64" 27 64496 "EXCL" = Ok rpki_not_found.
Proof.
  destruct (bulk_single_agree ex_text ex_cfg ex_rows ex_roas ex_cfg_plain ex_rows_text)
    as (b1 & b2 & H1 & H2 & Hval).
  { repeat constructor. }
  exists b1. split; [exact H1|].
  destruct (Hval "192.0.2.64" (lit "192.0.2.64/26") 64496%Z "TEST" eq_refl eq_refl) as [E1 _].
  destruct (Hval "192.0.2.64" (lit "192.0.2.64/27") 64496%Z "TEST" eq_refl eq_refl) as [E2 _].
  destruct (Hval "192.0.2.64" (lit "192.0.2.64/27") 64496%Z "EXCL" eq_refl eq_refl) as [E3 _].
  split; [exact E1|]. split; [exact E2|exact E3].
Defined.

Lemma single_validate_states_witness :
  single_validate_route ex_cfg ex_rows (lit "2001:db8::/33") 64496 "TEST" = rpki_valid
  ↔ ∃ r, r ∈ ex_rows ∧ authorises r (lit "2001:db8::/33") 64496.
Proof. apply (single_validate_states ex_cfg ex_rows _ _ "TEST" ex_rows_network eq_refl). Defined.

Definition ex_route (pk ip : string) (len asn : Z) (status : RPKIStatus) : rpsl_row := {|
  r_pk := pk; r_rpsl_pk := pk; r_source := "TEST"; r_object_class := "route";
  r_parsed_data := ∅; r_object_text := ""; r_ip_version := Some 4%Z; r_ip_first := Some ip;
  r_ip_last := None; r_ip_size := None; r_prefix := None; r_prefix_length := Some len;
  r_asn_first := Some asn; r_asn_last := Some asn; r_rpki_status := status;
  r_scopefilter_status := in_scope; r_route_preference_status := rp_visible;
  r_created := 0; r_updated := 0 |}.
Definition ex_table : list rpsl_row :=
  [ex_route "1" "192.0.2.0" 24 64496 rpki_not_found; ex_route "2" "192.0.2.0" 24 64497 rpki_invalid].
Definition ex_bulk : BulkRouteROAValidator :=
  match BulkRouteROAValidator_init ex_text ex_cfg ex_rows None with
  | Ok b => b
  | Raise _ => {| excluded_sources := []; roa_tree4 := trie_empty; roa_tree6 := trie_empty |}
  end.

Lemma validate_all_routes_exact_witness :
  ∃ r, r ∈ ex_table ∧ is_route_row None r = true ∧ r_source r ≠ RPKI_IRR_PSEUDO_SOURCE ∧
       row_status ex_bulk r = Some rpki_valid ∧ rpki_valid ≠ r_rpki_status r ∧
       (rpki_not_found, set_rpki_status rpki_valid (ex_route "1" "192.0.2.0" 24 64496 rpki_not_found))
       = (r_rpki_status r, set_rpki_status rpki_valid r).
Proof.
  refine (proj1 (validate_all_routes_exact ex_bulk ex_table None
    [(rpki_not_found, set_rpki_status rpki_valid (ex_route "1" "192.0.2.0" 24 64496 rpki_not_found))]
    [] [] _ _ rpki_valid _) _).
  - apply (bool_decide_unpack _). by vm_compute.
  - by vm_compute.
  - apply elem_of_cons. by left.
Defined.
End RpkiExamples.
