(* ===== verification/ScopeFilter.v ===== *)
(** * Scope filter ([irrd/scopefilter/validators.py])

    The filter loaded from the settings, its verdict on a prefix, an AS number
    or an object, and the objects whose stored status must change. *)
From S2P Require Import Prelude PyStr Conf Net Models.

Section ScopeFilter.
Context `{IPyLib} (cfg : configuration).

Record ScopeFilterValidator := {
  filtered_prefixes : list IP;
  filtered_asns : list Z;
  filtered_asn_ranges : list (Z * Z);
}.

Definition IP_py (s : pyval) : res IP :=
  match s with
  | VStr s => match ip_of 0 s with inr p => Ok p | inl e => Raise (ValueError e) end
  | VInt n => match ip_of_int n with inr p => Ok p | inl e => Raise (ValueError e) end
  | VBool b => match ip_of_int (if b then 1 else 0) with inr p => Ok p | inl e => Raise (ValueError e) end
  | _ => Raise (GenericException "TypeError")
  end.
Definition int_py (v : pyval) : res Z :=
  match pyval_int v with
  | Some z => Ok z
  | None => Raise (ValueError "invalid literal for int()")
  end.

(** One entry of [scopefilter.asns]: a number, or a range. *)
Definition load_asn_filter (asn_filter : pyval) : res (Z + Z * Z) :=
  if has_char "-"%char (pyval_str asn_filter) then
    match asn_filter with
    | VStr s =>
        match split_on "-"%char s with
        | [start; end_] =>
            start ← int_py (VStr start); end_ ← int_py (VStr end_); Ok (inr (start, end_))
        | _ => Raise (ValueError "too many values to unpack (expected 2)")
        end
    | _ => Raise AttributeError
    end
  else n ← int_py asn_filter; Ok (inl n).

Definition load_filters : res ScopeFilterValidator :=
  prefixes ← iter_of (get_setting_default cfg "scopefilter.prefixes" (VList []));
  filtered_prefixes ← res_map IP_py prefixes;
  asn_filters ← iter_of (get_setting_default cfg "scopefilter.asns" (VList []));
  asn_filters ← res_map load_asn_filter asn_filters;
  Ok {| filtered_prefixes := filtered_prefixes;
        filtered_asns := omap (λ f, match f with inl n => Some n | inr _ => None end) asn_filters;
        filtered_asn_ranges := omap (λ f, match f with inr r => Some r | inl _ => None end) asn_filters |}.

Definition prefix_filtered (v : ScopeFilterValidator) (prefix : IP) : bool :=
  existsb (λ f, (ip_version prefix =? ip_version f)%Z && ip_overlaps f prefix) (filtered_prefixes v).
Definition asn_filtered (v : ScopeFilterValidator) (asn : Z) : bool :=
  bool_decide (asn ∈ filtered_asns v)
  || existsb (λ '(range_start, range_end), (range_start <=? asn)%Z && (asn <=? range_end)%Z)
       (filtered_asn_ranges v).

Definition validate (v : ScopeFilterValidator) (source : string) (prefix : option IP)
    (asn : option Z) : res ScopeFilterStatus :=
  match prefix, asn with
  | None, None => Raise (ValueError "Scope Filter validator must be provided asn or prefix")
  | _, _ =>
      if truthy (source_setting cfg source "scopefilter_excluded") then Ok in_scope
      else if match prefix with Some p => prefix_filtered v p | None => false end
      then Ok out_scope_prefix
      else if match asn with Some n => asn_filtered v n | None => false end
      then Ok out_scope_as
      else Ok in_scope
  end.

Definition _validate_rpsl_data (v : ScopeFilterValidator) (source object_class : string)
    (prefix : option IP) (asn_first : option Z) : res (ScopeFilterStatus * string) :=
  if negb (bool_decide (object_class ∈ ["route"; "route6"; "aut-num"])) then Ok (in_scope, "")
  else
    prefix_state ← match prefix with
                   | Some p => validate v source (Some p) None
                   | None => Ok in_scope
                   end;
    match prefix, decide (prefix_state = in_scope) with
    | Some p, right _ => Ok (prefix_state, "prefix " +:+ ip_str p +:+ " is out of scope")
    | _, _ =>
        asn_state ← match asn_first with
                    | Some n => validate v source None (Some n)
                    | None => Ok in_scope
                    end;
        match asn_first, decide (asn_state = in_scope) with
        | Some n, right _ => Ok (asn_state, "ASN " +:+ str_of_Z n +:+ " is out of scope")
        | _, _ => Ok (in_scope, "")
        end
    end.

(** The parts of an [RPSLObject] the filter reads. *)
Definition validate_rpsl_object (v : ScopeFilterValidator) (source rpsl_object_class : string)
    (prefix : option IP) (asn_first : option Z) : res (ScopeFilterStatus * string) :=
  _validate_rpsl_data v source rpsl_object_class prefix asn_first.

(** ** validate_all_rpsl_objects *)

Definition scope_relevant (r : rpsl_row) : bool :=
  bool_decide (r_object_class r ∈ ["route"; "route6"; "aut-num"]).

(** [IP(result["prefix"])] when the column holds one. *)
Definition row_prefix (r : rpsl_row) : res (option IP) :=
  match r_prefix r with
  | Some s => if String.eqb s "" then Ok None else p ← IP_py (VStr s); Ok (Some p)
  | None => Ok None
  end.
Definition row_scope_status (v : ScopeFilterValidator) (r : rpsl_row) : res ScopeFilterStatus :=
  prefix ← row_prefix r;
  '(new_status, _) ← _validate_rpsl_data v (r_source r) (r_object_class r) prefix (r_asn_first r);
  Ok new_status.

Fixpoint collect_scope_changed (v : ScopeFilterValidator) (results : list rpsl_row)
  : res (list (ScopeFilterStatus * rpsl_row)) :=
  match results with
  | [] => Ok []
  | r :: results' =>
      new_status ← row_scope_status v r;
      rest ← collect_scope_changed v results';
      if decide (new_status = r_scopefilter_status r) then Ok rest
      else Ok ((r_scopefilter_status r, set_scopefilter_status new_status r) :: rest)
  end.

Definition enrich_scope (table : list rpsl_row) (o : ScopeFilterStatus * rpsl_row)
  : res (ScopeFilterStatus * rpsl_row) :=
  match row_by_pk table (r_pk o.2) with
  | Some row => Ok (o.1, set_scopefilter_status (r_scopefilter_status o.2) row)
  | None => Raise (KeyError (r_pk o.2))
  end.
Definition with_scope (s : ScopeFilterStatus) (l : list (ScopeFilterStatus * rpsl_row)) :=
  List.filter (λ o, bool_decide (r_scopefilter_status o.2 = s)) l.

Definition validate_all_rpsl_objects (v : ScopeFilterValidator) (table : list rpsl_row)
  : res (list (ScopeFilterStatus * rpsl_row) * list (ScopeFilterStatus * rpsl_row)
         * list (ScopeFilterStatus * rpsl_row)) :=
  objs_changed ← collect_scope_changed v (List.filter scope_relevant table);
  objs_changed ← res_map (enrich_scope table) objs_changed;
  Ok (with_scope in_scope objs_changed, with_scope out_scope_as objs_changed,
      with_scope out_scope_prefix objs_changed).

(** ** Correctness *)

(** What the settings say. *)
Definition excluded (source : string) : bool :=
  truthy (source_setting cfg source "scopefilter_excluded").
Definition items_in (v : pyval) : list pyval := match iter_of v with Ok l => l | Raise _ => [] end.
Lemma iter_of_items v l : iter_of v = Ok l → l = items_in v.
Proof using Type. unfold items_in. by intros ->. Qed.
Definition conf_asns : list pyval :=
  items_in (get_setting_default cfg "scopefilter.asns" (VList [])).
Definition conf_prefixes : list pyval :=
  items_in (get_setting_default cfg "scopefilter.prefixes" (VList [])).

(** A setting denotes [asn]: as a number, or as a range around it. *)
Definition denotes_asn (f : pyval) (asn : Z) : Prop :=
  load_asn_filter f = Ok (inl asn) ∨
  ∃ a b, load_asn_filter f = Ok (inr (a, b)) ∧ (a ≤ asn ≤ b)%Z.

Lemma asn_filtered_conf v asn :
  load_filters = Ok v →
  asn_filtered v asn = true ↔ ∃ f, f ∈ conf_asns ∧ denotes_asn f asn.
Proof using Type.
  unfold load_filters. intros (l1 & _ & (ps & _ & (l2 & ->%iter_of_items & Hl)%res_bind_Ok)%res_bind_Ok)%res_bind_Ok.
  fold conf_asns in Hl. revert Hl.
  destruct (res_map load_asn_filter conf_asns) as [fs|] eqn:E; simpl; [|done].
  intros; simplify_eq. apply res_map_Forall2 in E.
  unfold asn_filtered; simpl. rewrite orb_true_iff, bool_decide_eq_true, list_elem_of_omap, existsb_spec.
  unfold denotes_asn. split.
  - intros [([n|r] & Hin & Hs)|([lo hi] & Hin & Hr)]; simplify_eq.
    + destruct (Forall2_elem_r _ _ _ _ E Hin) as (f & Hf & Hx). eauto.
    + bool_solve. apply list_elem_of_omap in Hin as ([n|[lo' hi']] & Hin & Hs); simplify_eq.
      destruct (Forall2_elem_r _ _ _ _ E Hin) as (f & Hf & Hx). naive_solver.
  - intros (f & Hf & [Hx|(lo & hi & Hx & Hr)]);
      destruct (Forall2_elem_l _ _ _ _ E Hf) as (y & Hy & Hy'); simpl in Hy'; rewrite Hx in Hy'; simplify_eq.
    + left. by exists (inl asn).
    + right. exists (lo, hi). split; [|by rewrite andb_true_iff, !Z.leb_le].
      apply list_elem_of_omap. by exists (inr (lo, hi)).
Qed.

Lemma prefix_filtered_conf `{!IPyLaws} v prefix :
  load_filters = Ok v →
  prefix_filtered v prefix = true ↔
  ∃ s f, s ∈ conf_prefixes ∧ IP_py s = Ok f ∧ ip_version f = ip_version prefix ∧
         (ip_first f ≤ ip_last prefix)%Z ∧ (ip_first prefix ≤ ip_last f)%Z.
Proof using Type.
  unfold load_filters. intros (l1 & ->%iter_of_items & Hl)%res_bind_Ok. fold conf_prefixes in Hl. revert Hl.
  destruct (res_map IP_py conf_prefixes) as [ps|] eqn:E; simpl; [|done].
  destruct (iter_of _); simpl; [|done]. destruct (res_map load_asn_filter _); simpl; [|done].
  intros; simplify_eq. apply res_map_Forall2 in E.
  unfold prefix_filtered; simpl. rewrite existsb_spec. split.
  - intros (f & Hin & Hf). bool_solve. destruct (Forall2_elem_r _ _ _ _ E Hin) as (s & Hs & Hx).
    exists s, f. rewrite ip_overlaps_ok in * by done. naive_solver.
  - intros (s & f & Hs & Hf & Hv & Ho). destruct (Forall2_elem_l _ _ _ _ E Hs) as (y & Hy & Hy').
    simpl in Hy'; rewrite Hf in Hy'; simplify_eq. exists y. split; [done|]. rewrite andb_true_iff, Z.eqb_eq, ip_overlaps_ok; done.
Qed.

(** C34. The verdict on a prefix or AS number, in terms of the settings: a
    source that is not excluded is out of scope by prefix exactly when a
    configured prefix of the same family shares an address with it, out of
    scope by AS exactly when that is not the case and a configured number or
    range denotes the AS; an excluded source is always in scope. *)
Theorem scopefilter_validate_spec `{!IPyLaws} v source prefix asn status :
  load_filters = Ok v → validate v source prefix asn = Ok status →
  let hit_prefix := ∃ p s f, prefix = Some p ∧ s ∈ conf_prefixes ∧ IP_py s = Ok f ∧
    ip_version f = ip_version p ∧ (ip_first f ≤ ip_last p)%Z ∧ (ip_first p ≤ ip_last f)%Z in
  let hit_asn := ∃ n f, asn = Some n ∧ f ∈ conf_asns ∧ denotes_asn f n in
  (status = out_scope_prefix ↔ excluded source = false ∧ hit_prefix) ∧
  (status = out_scope_as ↔ excluded source = false ∧ ¬ hit_prefix ∧ hit_asn) ∧
  (status = in_scope ↔ excluded source = true ∨ ¬ hit_prefix ∧ ¬ hit_asn).
Proof using Type.
  intros Hload Hv hp ha.
  assert ((match prefix with Some p => prefix_filtered v p | None => false end) = true ↔ hp) as Hp.
  { unfold hp. destruct prefix as [p|]; [|naive_solver].
    rewrite (prefix_filtered_conf v p Hload). naive_solver. }
  assert ((match asn with Some n => asn_filtered v n | None => false end) = true ↔ ha) as Ha.
  { unfold ha. destruct asn as [n|]; [|naive_solver].
    rewrite (asn_filtered_conf v n Hload). naive_solver. }
  assert ((if excluded source then Ok in_scope
           else if match prefix with Some p => prefix_filtered v p | None => false end
           then Ok out_scope_prefix
           else if match asn with Some n => asn_filtered v n | None => false end
           then Ok out_scope_as else Ok in_scope) = Ok status) as Hval.
  { unfold validate in Hv. by destruct prefix, asn. }
  clearbody hp ha. clear Hv.
  destruct (excluded source); [naive_solver|].
  destruct (match prefix with Some p => _ | None => _ end); [naive_solver|].
  destruct (match asn with Some n => _ | None => _ end); naive_solver.
Qed.

Definition scope_change (v : ScopeFilterValidator) (r : rpsl_row)
  : option (ScopeFilterStatus * rpsl_row) :=
  s ← res_option (row_scope_status v r);
  if decide (s = r_scopefilter_status r) then None
  else Some (r_scopefilter_status r, set_scopefilter_status s r).

Lemma collect_scope_omap v rows l :
  collect_scope_changed v rows = Ok l → l = omap (scope_change v) rows.
Proof using Type.
  revert l. induction rows as [|r rows IH]; intros l; simpl; [by intros; simplify_eq|].
  unfold scope_change. destruct (row_scope_status v r) as [s|]; simpl; [|done].
  destruct (collect_scope_changed v rows) as [rest|]; simpl; [|done].
  rewrite (IH rest) by done. case_decide; intros; by simplify_eq.
Qed.

(** [validate_all_rpsl_objects] reports exactly the objects whose status
    changes: an object is in the list of status [s] if and only if it is a
    stored route or aut-num whose verdict is [s] while its row holds another
    status; it carries the old status and is otherwise its row. *)
Theorem validate_all_rpsl_objects_exact v table li la lp :
  NoDup (r_pk <$> table) → validate_all_rpsl_objects v table = Ok (li, la, lp) →
  ∀ s o,
    o ∈ (match s with in_scope => li | out_scope_as => la | out_scope_prefix => lp end) ↔
    ∃ r, r ∈ table ∧ scope_relevant r = true ∧ row_scope_status v r = Ok s ∧
         s ≠ r_scopefilter_status r ∧ o = (r_scopefilter_status r, set_scopefilter_status s r).
Proof using Type.
  intros Hnd Hv. unfold validate_all_rpsl_objects in Hv.
  destruct (collect_scope_changed v _) as [l|] eqn:Ec; [|done]. simpl in Hv.
  apply collect_scope_omap in Ec as ->.
  assert (∀ r o, scope_change v r = Some o ↔ ∃ s, row_scope_status v r = Ok s ∧
    s ≠ r_scopefilter_status r ∧ o = (r_scopefilter_status r, set_scopefilter_status s r)) as Hch.
  { intros r o. unfold scope_change. destruct (row_scope_status v r); simpl; [|naive_solver].
    case_decide; naive_solver. }
  rewrite res_map_id in Hv.
  2: { intros o (r & Hr & Ho)%list_elem_of_omap. apply filter_elem in Hr as [Hr _].
       apply Hch in Ho as (s & _ & _ & ->). unfold enrich_scope; simpl.
       by rewrite (row_by_pk_elem _ r). }
  simpl in Hv. simplify_eq. intros s o.
  assert (o ∈ with_scope s (omap (scope_change v) (List.filter scope_relevant table)) ↔
    ∃ r, r ∈ table ∧ scope_relevant r = true ∧ row_scope_status v r = Ok s ∧
         s ≠ r_scopefilter_status r ∧ o = (r_scopefilter_status r, set_scopefilter_status s r))
    as Hmem; [|by destruct s].
  unfold with_scope. rewrite filter_elem, list_elem_of_omap, bool_decide_eq_true.
  setoid_rewrite filter_elem. setoid_rewrite Hch.
  split; [|naive_solver].
  intros [(r & [Hin Hr] & s' & Hst & Hne & ->) Heq]. simpl in Heq. naive_solver.
Qed.
End ScopeFilter.

Module ScopeExamples.
Import ConcreteIP.

Definition ex_cfg : configuration :=
  conf_of (VDict [("scopefilter", VDict [("prefixes", VList [VStr "10.0.0.0/8"]);
                                         ("asns", VList [VInt 23456; VStr "64496-64511"])]);
                  ("sources", VDict [("EXCL", VDict [("scopefilter_excluded", VBool true)])])]).
Definition ex_filter : ScopeFilterValidator :=
  match load_filters ex_cfg with
  | Ok v => v
  | Raise _ => {| filtered_prefixes := []; filtered_asns := []; filtered_asn_ranges := [] |}
  end.
Lemma ex_filter_ok : load_filters ex_cfg = Ok ex_filter.
Proof.
  assert (is_Ok (load_filters ex_cfg) = true) as Hok by (vm_compute; reflexivity).
  unfold ex_filter. destruct (load_filters ex_cfg); done.
Qed.

Lemma scopefilter_validate_spec_witness :
  excluded ex_cfg "TEST" = false ∧
  (¬ ∃ p s f, None = Some p ∧ s ∈ conf_prefixes ex_cfg ∧ IP_py s = Ok f ∧
    ip_version f = ip_version p ∧ (ip_first f ≤ ip_last p)%Z ∧ (ip_first p ≤ ip_last f)%Z) ∧
  ∃ n f, Some 64500%Z = Some n ∧ f ∈ conf_asns ex_cfg ∧ denotes_asn f n.
Proof.
  refine (proj1 (proj1 (proj2 (scopefilter_validate_spec ex_cfg ex_filter "TEST" None (Some 64500%Z)
    out_scope_as ex_filter_ok _))) eq_refl).
  vm_compute. reflexivity.
Defined.

Definition ex_row (pk class : string) (asn : Z) (status : ScopeFilterStatus) : rpsl_row := {|
  r_pk := pk; r_rpsl_pk := pk; r_source := "TEST"; r_object_class := class;
  r_parsed_data := ∅; r_object_text := ""; r_ip_version := None; r_ip_first := None;
  r_ip_last := None; r_ip_size := None; r_prefix := None; r_prefix_length := None;
  r_asn_first := Some asn; r_asn_last := Some asn; r_rpki_status := rpki_not_found;
  r_scopefilter_status := status; r_route_preference_status := rp_visible;
  r_created := 0; r_updated := 0 |}.
Definition ex_table : list rpsl_row :=
  [ex_row "1" "aut-num" 23456 in_scope; ex_row "2" "aut-num" 1 out_scope_as;
   ex_row "3" "as-set" 23456 in_scope].

Lemma validate_all_rpsl_objects_exact_witness :
  ∃ r, r ∈ ex_table ∧ scope_relevant r = true ∧ row_scope_status ex_cfg ex_filter r = Ok out_scope_as ∧
    out_scope_as ≠ r_scopefilter_status r ∧
    (in_scope, set_scopefilter_status out_scope_as (ex_row "1" "aut-num" 23456 in_scope))
    = (r_scopefilter_status r, set_scopefilter_status out_scope_as r).
Proof.
  refine (proj1 (validate_all_rpsl_objects_exact ex_cfg ex_filter ex_table
    [(out_scope_as, set_scopefilter_status in_scope (ex_row "2" "aut-num" 1 out_scope_as))]
    [(in_scope, set_scopefilter_status out_scope_as (ex_row "1" "aut-num" 23456 in_scope))]
    [] _ _ out_scope_as _) _).
  - apply (bool_decide_unpack _). by vm_compute.
  - vm_compute. reflexivity.
  - apply elem_of_cons. by left.
Defined.
End ScopeExamples.
