(* ===== verification/Fields.v ===== *)
(** * RPSL attribute fields ([irrd/rpsl/fields.py], [irrd/rpsl/parser_state.py])

    A field class is a constructor of [field_kind]; [parse_field] is its
    [parse] method: the messages it appends and the result it returns.  The
    regular expressions are boolean functions on strings. *)
From S2P Require Import Prelude PyStr Conf Net Text.

(** ** Parser state *)

Inductive level := INFO | ERROR.
#[export] Instance level_eq : EqDecision level.
Proof. solve_decision. Defined.
(** [RPSLParserMessages]: the list [_messages]. *)
Definition messages_ : Type := list (level * string).
Definition msg_info (m : string) : messages_ := [(INFO, m)].
Definition msg_error (m : string) : messages_ := [(ERROR, m)].
Definition with_level (l : level) (ms : messages_) : list string :=
  omap (λ m : level * string, if decide (m.1 = l) then Some m.2 else None) ms.
Definition infos (ms : messages_) : list string := with_level INFO ms.
Definition errors (ms : messages_) : list string := with_level ERROR ms.
Definition has_errors (ms : messages_) : bool := match errors ms with [] => false | _ => true end.

Record RPSLFieldParseResult `{IPyLib} := {
  fr_value : string;
  fr_values_list : list string;
  fr_ip_first : option IP;
  fr_ip_last : option IP;
  fr_prefix : option IP;
  fr_prefix_length : option Z;
  fr_asn_first : option Z;
  fr_asn_last : option Z;
}.
Definition fr_plain `{IPyLib} (v : string) : RPSLFieldParseResult := {|
  fr_value := v; fr_values_list := []; fr_ip_first := None; fr_ip_last := None;
  fr_prefix := None; fr_prefix_length := None; fr_asn_first := None; fr_asn_last := None |}.

(** ** Regular expressions *)

Definition is_upper (c : ascii) : bool := let n := N_of_ascii c in ((65 <=? n) && (n <=? 90))%N.
Definition is_alnum (c : ascii) : bool := is_letter c || is_digit c.
Definition all1 (p : ascii → bool) (s : string) : bool := negb (String.eqb s "") && str_all p s.
(** [$] also matches before a final newline. *)
Fixpoint chomp_nl (s : string) : string :=
  match s with
  | "" => ""
  | String c s' => if String.eqb s NL then "" else String c (chomp_nl s')
  end.
Definition last_char (s : string) : option ascii := String.get (String.length s - 1) s.
Definition opt_is (p : ascii → bool) (c : option ascii) : bool :=
  match c with Some c => p c | None => false end.

Definition dotted_quad (s : string) : bool :=
  match split_on "."%char s with
  | [a; b; c; d] => all1 is_digit a && all1 is_digit b && all1 is_digit c && all1 is_digit d
  | _ => false
  end.
Definition re_ipv4_prefix (s : string) : bool :=
  match split_on "/"%char (chomp_nl s) with
  | [a; l] => dotted_quad a && all1 is_digit l
  | _ => false
  end.
Definition is_hex (c : ascii) : bool :=
  is_digit c || has_char (upper_ascii c) "ABCDEF".
Definition re_ipv6_prefix (s : string) : bool :=
  match split_on "/"%char (chomp_nl s) with
  | [a; l] => all1 (λ c, is_hex c || bool_decide (c = ":"%char)) a && all1 is_digit l
  | _ => false
  end.

Definition email_local_char (c : ascii) : bool :=
  is_alnum c || has_char c ("$!#%&*+/=?^_`{|}~\.-" +:+ String "034" "").
Definition email_domain_char (c : ascii) : bool := is_alnum c || has_char c "\.-".
(** [[A-f\d:]] under IGNORECASE. *)
Definition email_v6_char (c : ascii) : bool := is_alnum c || has_char c "[\]^_`:".
Definition bracketed (s : string) : option string :=
  match s with
  | String c s' =>
      if bool_decide (c = "["%char) && opt_is (λ d, bool_decide (d = "]"%char)) (last_char s')
      then Some (str_take (String.length s' - 1) s') else None
  | "" => None
  end.
Definition re_email (s : string) : bool :=
  match split_once "@"%char (chomp_nl s) with
  | Some (loc, dom) =>
      all1 email_local_char loc
      && (all1 email_domain_char dom
          || match bracketed dom with
             | Some b => dotted_quad b || all1 email_v6_char b
             | None => false
             end)
  | None => false
  end.

(** The named groups of [re_range_operator]. *)
Inductive range_op := RangeBetween (start end_ : string) | RangeMinus | RangePlus | RangeSingle (n : string).
Definition digits13 (s : string) : bool := all1 is_digit s && Nat.leb (String.length s) 3.
Definition re_range_operator (s : string) : option range_op :=
  let s := chomp_nl s in
  if String.eqb s "-" then Some RangeMinus
  else if String.eqb s "+" then Some RangePlus
  else if digits13 s then Some (RangeSingle s)
  else match split_once "-"%char s with
       | Some (a, b) => if digits13 a && digits13 b then Some (RangeBetween a b) else None
       | None => None
       end.

Definition re_pgpkey (s : string) : bool :=
  let s := chomp_nl s in
  startswith "PGPKEY-" s && Nat.eqb (String.length s) 15
  && str_all (λ c, is_digit c || has_char c "ABCDEF") (str_drop 7 s).
Definition dns_label (s : string) : bool :=
  opt_is is_alnum (String.get 0 s) && opt_is is_alnum (last_char s)
  && str_all (λ c, is_alnum c || bool_decide (c = "-"%char)) s.
Definition re_dnsname (s : string) : bool := forallb dns_label (split_on "."%char (chomp_nl s)).
Definition re_generic_name (s : string) : bool :=
  let s := chomp_nl s in
  Nat.leb 2 (String.length s) && opt_is is_letter (String.get 0 s) && opt_is is_alnum (last_char s)
  && str_all (λ c, is_alnum c || has_char c "_-") s.

Definition reserved_words : list string :=
  ["ANY"; "AS-ANY"; "RS_ANY"; "PEERAS"; "AND"; "OR"; "NOT"; "ATOMIC"; "FROM"; "TO"; "AT"; "ACTION";
   "ACCEPT"; "ANNOUNCE"; "EXCEPT"; "REFINE"; "NETWORKS"; "INTO"; "INBOUND"; "OUTBOUND"].
Definition reserved_prefixes : list string := ["AS-"; "RS-"; "RTRS-"; "FLTR-"; "PRNG-"].

(** [NOPRINT_TRANS_TABLE] on the characters modelled. *)
Definition is_noprint (c : ascii) : bool :=
  let n := N_of_ascii c in
  ((n <? 32) || ((127 <=? n) && (n <=? 160)) || (n =? 173))%N
  && negb (bool_decide (c ∈ [ch_nl; ch_cr; ch_tab])).
Fixpoint str_filter (p : ascii → bool) (s : string) : string :=
  match s with "" => "" | String c s' => if p c then String c (str_filter p s') else str_filter p s' end.

(** [clean_ip_value_error]: remove every [IP('...') has ] from the message. *)
Definition ip_error_char (c : ascii) : bool := is_hex c || has_char c ":./".
Fixpoint span_if (p : ascii → bool) (s : string) : string * string :=
  match s with
  | "" => ("", "")
  | String c s' => if p c then let '(a, b) := span_if p s' in (String c a, b) else ("", s)
  end.
Definition ip_error_at (s : string) : option string :=
  if startswith "IP('" (str_upper s) then
    let '(a, b) := span_if ip_error_char (str_drop 4 s) in
    if negb (String.eqb a "") && startswith "') HAS " (str_upper b) then Some (str_drop 7 b) else None
  else None.
Fixpoint clean_ip_fuel (fuel : nat) (s : string) : string :=
  match fuel, s with
  | S fuel', String c s' =>
      match ip_error_at s with
      | Some rest => clean_ip_fuel fuel' rest
      | None => String c (clean_ip_fuel fuel' s')
      end
  | _, _ => s
  end.
Definition clean_ip_value_error (msg : string) : string := clean_ip_fuel (String.length msg) msg.

(** [datetime.strptime(date, "%Y%m%d")]: the error, if any. *)
Definition days_in_month (y m : Z) : Z :=
  if bool_decide (m ∈ [4; 6; 9; 11]%Z) then 30
  else if (m =? 2)%Z then
    (if (y mod 4 =? 0)%Z && (negb (y mod 100 =? 0)%Z || (y mod 400 =? 0)%Z) then 29 else 28)
  else 31.
Definition lead (n : nat) (ok : string → bool) (s : string) : list (string * string) :=
  let a := str_take n s in
  if Nat.eqb (String.length a) n && ok a then [(a, str_drop n s)] else [].
Definition one_of (lo hi : string) (s : string) : bool :=
  match s with
  | String a (String b "") => has_char a lo && has_char b hi
  | String a "" => has_char a lo && String.eqb hi ""
  | _ => false
  end.
Definition month_options (s : string) : list (string * string) :=
  lead 2 (one_of "1" "012") s ++ lead 2 (one_of "0" "123456789") s ++ lead 1 (one_of "123456789" "") s.
Definition day_options (s : string) : list (string * string) :=
  lead 2 (one_of "3" "01") s ++ lead 2 (one_of "12" "0123456789") s
  ++ lead 2 (one_of "0" "123456789") s ++ lead 1 (one_of "123456789" "") s
  ++ lead 2 (one_of " " "123456789") s.
Definition date_match (s : string) : option (string * string * string * string) :=
  '(y, r) ← head (lead 4 (str_all is_digit) s);
  list_find_map (λ m, match head (day_options m.2) with
                      | Some d => Some (y, m.1, d.1, d.2)
                      | None => None
                      end) (month_options r).
Definition str_Z (s : string) : Z := default 0%Z (py_int s).
Definition strptime_error (date : string) : option string :=
  match date_match date with
  | None => Some ("time data '" +:+ date +:+ "' does not match format '%Y%m%d'")
  | Some (y, m, d, rest) =>
      if negb (String.eqb rest "") then Some ("unconverted data remains: " +:+ rest)
      else if (str_Z y =? 0)%Z then Some "year 0 is out of range"
      else if (days_in_month (str_Z y) (str_Z m) <? str_Z d)%Z then Some "day is out of range for month"
      else None
  end.

(** [urllib.parse.urlparse]: scheme and network location; [None] for its
    [ValueError]. *)
Definition is_scheme_char (c : ascii) : bool := is_alnum c || has_char c "+-.".
Definition url_clean (s : string) : string :=
  str_filter (λ c, negb (has_char c (NL +:+ CR +:+ String ch_tab "")))
    (lstrip_if (λ c, (N_of_ascii c <=? 32)%N) s).
Definition url_scheme (s : string) : string * string :=
  match split_once ":"%char s with
  | Some (a, b) =>
      if opt_is is_letter (String.get 0 a) && str_all is_scheme_char a then (str_lower a, b) else ("", s)
  | None => ("", s)
  end.
Definition bracketed_host (netloc : string) : string :=
  match split_once "["%char netloc with
  | Some (_, r) => match split_once "]"%char r with Some (h, _) => h | None => r end
  | None => ""
  end.
Definition bracketed_host_ok (h : string) : bool :=
  if startswith "v" h then
    match split_once "."%char (str_drop 1 h) with
    | Some (a, b) => all1 is_hex a && negb (String.eqb b "")
    | None => false
    end
  else match inet_pton6 h with Some _ => true | None => false end.
Definition urlparse (value : string) : option (string * string) :=
  let '(scheme, rest) := url_scheme (url_clean value) in
  if startswith "//" rest then
    let '(netloc, _) := span_if (λ c, negb (has_char c "/?#")) (str_drop 2 rest) in
    let lb := has_char "["%char netloc in let rb := has_char "]"%char netloc in
    if xorb lb rb then None
    else if lb && rb && negb (bracketed_host_ok (bracketed_host netloc)) then None
    else Some (scheme, netloc)
  else Some (scheme, "").

(** ** Field classes *)

Inductive field_kind :=
| RPSLTextField
| RPSLIPv4PrefixField
| RPSLIPv4PrefixesField
| RPSLIPv6PrefixField
| RPSLIPv6PrefixesField
| RPSLIPv4AddressRangeField
| RPSLRouteSetMembersField (ip_version : option Z)
| RPSLASNumberField
| RPSLASBlockField
| RPSLSetNameField (prefix : string)
| RPSLEmailField
| RPSLChangedField
| RPSLDNSNameField
| RPSLURLField
| RPSLGenericNameField (allowed_prefixes : list string) (non_strict_allow_any : bool)
| RPSLReferenceField (referring : list string) (strong : bool)
| RPSLReferenceListField (referring : list string) (strong : bool) (allow_kw_any : bool)
| RPSLAuthField.

Record field := mk_field {
  f_optional : bool;
  f_multiple : bool;
  f_primary_key : bool;
  f_lookup_key : bool;
  f_kind : field_kind;
}.

(** The class attribute [keep_case]. *)
Definition keep_case (k : field_kind) : bool :=
  match k with
  | RPSLSetNameField _ | RPSLDNSNameField | RPSLURLField | RPSLGenericNameField _ _
  | RPSLReferenceField _ _ | RPSLReferenceListField _ _ _ => false
  | _ => true
  end.
(** [getattr(field, "referring", [])] and [strong]. *)
Definition referring_of (k : field_kind) : list string :=
  match k with RPSLReferenceField r _ | RPSLReferenceListField r _ _ => r | _ => [] end.
Definition strong_of (k : field_kind) : bool :=
  match k with RPSLReferenceField _ s | RPSLReferenceListField _ s _ => s | _ => false end.

Section Fields.
Context `{IPyLib} (cfg : configuration).

Definition parsed : Type := messages_ * option RPSLFieldParseResult.
Definition fail (msg : string) : parsed := (msg_error msg, None).
(** The value, and an info message when it was reformatted. *)
Definition reformatted (what value : string) (r : RPSLFieldParseResult) : parsed :=
  ((if String.eqb (fr_value r) value then []
    else msg_info (what +:+ " " +:+ value +:+ " was reformatted as " +:+ fr_value r)), Some r).

Definition parse_text (value : string) : parsed :=
  ([], Some (fr_plain (str_filter (λ c, negb (is_noprint c)) value))).

Definition prefix_result (text : string) (ip : IP) : RPSLFieldParseResult := {|
  fr_value := text; fr_values_list := []; fr_ip_first := Some (ip_net ip);
  fr_ip_last := Some (ip_broadcast ip); fr_prefix := Some ip;
  fr_prefix_length := Some (ip_prefixlen ip); fr_asn_first := None; fr_asn_last := None |}.
Definition full_length_suffix (width : Z) (ip : IP) : string :=
  if (ip_prefixlen ip =? width)%Z then "/" +:+ str_of_Z width else "".

Definition parse_ipv4_prefix (value : string) : parsed :=
  if negb (re_ipv4_prefix value) then fail ("Invalid address prefix: " +:+ value)
  else match ip_of 4 value with
       | inl ve => fail ("Invalid address prefix: " +:+ value +:+ ": " +:+ clean_ip_value_error ve)
       | inr ip =>
           let parsed_ip_str := ip_str ip +:+ full_length_suffix 32 ip in
           reformatted "Address prefix" value (prefix_result parsed_ip_str ip)
       end.
Definition parse_ipv6_prefix (value : string) : parsed :=
  if negb (re_ipv6_prefix value) then fail ("Invalid address prefix: " +:+ value)
  else match ip_of 6 value with
       | inl ve => fail ("Invalid address prefix: " +:+ value +:+ ": " +:+ clean_ip_value_error ve)
       | inr ip =>
           let parsed_ip_str := ip_str ip +:+ full_length_suffix 128 ip in
           reformatted "Address prefix" value (prefix_result parsed_ip_str ip)
       end.

Definition parse_ipv4_range (value : string) : parsed :=
  let value := replace_char ","%char "" value in
  let '(ip1_input, ip2_input) :=
    match split_once "-"%char value with Some (a, b) => (a, b) | None => (value, value) end in
  match ip_of 0 ip1_input, ip_of 0 ip2_input with
  | inr ip1, inr ip2 =>
      if negb ((ip_version ip1 =? ip_version ip2)%Z && (ip_version ip2 =? 4)%Z)
      then fail ("Invalid address range: " +:+ value +:+ ": IP version mismatch")
      else if (ip_int ip2 <? ip_int ip1)%Z
      then fail ("Invalid address range: " +:+ value +:+ ": first IP is higher than second IP")
      else
        let parsed_value := if has_char "-"%char value then ip_str ip1 +:+ " - " +:+ ip_str ip2
                            else ip_str ip1 in
        reformatted "Address range" value
          {| fr_value := parsed_value; fr_values_list := []; fr_ip_first := Some ip1;
             fr_ip_last := Some ip2; fr_prefix := None; fr_prefix_length := None;
             fr_asn_first := None; fr_asn_last := None |}
  | inl ve, _ | inr _, inl ve =>
      fail ("Invalid address range: " +:+ value +:+ ": " +:+ clean_ip_value_error ve)
  end.

(** *** Set names *)

Definition starts_with_any (prefixes : list string) (c : string) : bool :=
  existsb (λ p, startswith p (str_upper c)) prefixes.
(** The body of the loop over the components. *)
Definition parse_set_component (prefixes : list string) (value component : string) (strict : bool)
  : string + string :=
  if strict && bool_decide (str_upper component ∈ reserved_words)
  then inl ("Invalid set name " +:+ value +:+ ": component " +:+ component +:+ " is a reserved word")
  else
    let parsed_as_number := res_option (parse_as_number cfg (inl component) false false) in
    match parsed_as_number with
    | Some (s, _) => inr s
    | None =>
        if negb (re_generic_name (str_upper component))
        then inl ("Invalid set " +:+ value +:+ ": component " +:+ component
                  +:+ " is not a valid AS number nor a valid set name")
        else if strict && negb (starts_with_any prefixes component)
        then inl ("Invalid set " +:+ value +:+ ": component " +:+ component
                  +:+ " is not a valid AS number, nor does it start with " +:+ join "/" prefixes)
        else inr component
    end.
Fixpoint parse_set_components (prefixes : list string) (value : string) (strict : bool)
    (components : list string) : string + list string :=
  match components with
  | [] => inr []
  | c :: cs =>
      match parse_set_component prefixes value c strict with
      | inl e => inl e
      | inr o => match parse_set_components prefixes value strict cs with
                 | inl e => inl e
                 | inr os => inr (o :: os)
                 end
      end
  end.
Definition parse_set_name (prefixes : list string) (value : string) (strict : bool) : parsed :=
  let input_components := split_on ":"%char value in
  if strict && Nat.ltb 5 (length input_components)
  then fail "Set names can have a maximum of five components."
  else if strict && negb (existsb (starts_with_any prefixes) input_components)
  then fail ("Invalid set name " +:+ value +:+ ": at least one component must be an actual set name"
             +:+ " (i.e. start with " +:+ join "/" prefixes +:+ ")")
  else match parse_set_components prefixes value strict input_components with
       | inl e => fail e
       | inr output_components =>
           reformatted "Set name" value (fr_plain (join ":" output_components))
       end.

(** *** Route set members *)

Definition range_operator_error (op : range_op) (plen : Z) (value : string) : option string :=
  match op with
  | RangeSingle n =>
      if (str_Z n <? plen)%Z
      then Some ("Invalid range operator: operator length (" +:+ n +:+ ") must be equal to or longer"
                 +:+ " than prefix length (" +:+ str_of_Z plen +:+ ") " +:+ value)
      else None
  | RangeBetween a b =>
      if (str_Z a <? plen)%Z
      then Some ("Invalid range operator: operator start (" +:+ a +:+ ") must be equal to or longer"
                 +:+ " than prefix length (" +:+ str_of_Z plen +:+ ") " +:+ value)
      else if (str_Z b <? str_Z a)%Z
      then Some ("Invalid range operator: operator end (" +:+ b +:+ ") must be equal to or longer"
                 +:+ " than operator start (" +:+ a +:+ ") " +:+ value)
      else None
  | RangeMinus | RangePlus => None
  end.
Definition with_operator (text op : string) : string :=
  if String.eqb op "" then text else text +:+ "^" +:+ op.
Definition parse_route_set_prefix (version : option Z) (value address range_operator : string) : parsed :=
  match ip_of (default 0%Z version) address with
  | inl ve => fail ("Value is neither a valid set name nor a valid prefix: " +:+ address +:+ ": "
                    +:+ clean_ip_value_error ve)
  | inr ip =>
      let result :=
        reformatted "Route set member" value
          (fr_plain (with_operator
             (ip_str ip +:+ (if (ip_version ip =? 4)%Z then full_length_suffix 32 ip else "")
              +:+ (if (ip_version ip =? 6)%Z then full_length_suffix 128 ip else ""))
             range_operator)) in
      if String.eqb range_operator "" then result
      else match re_range_operator range_operator with
           | None => fail ("Invalid range operator " +:+ range_operator +:+ " in value: " +:+ value)
           | Some op => match range_operator_error op (ip_prefixlen ip) value with
                        | Some e => fail e
                        | None => result
                        end
           end
  end.
Definition parse_route_set_member (version : option Z) (value : string) (strict : bool) : parsed :=
  match split_once "^"%char value with
  | Some (_, "") => fail ("Missing range operator in value: " +:+ value)
  | split =>
      let '(address, range_operator) := default (value, "") split in
      let '(set_messages, set_result) := parse_set_name ["RS-"; "AS-"] address strict in
      match set_result, errors set_messages with
      | Some r, [] => reformatted "Route set member" value (fr_plain (with_operator (fr_value r) range_operator))
      | _, _ =>
          match parse_as_number cfg (inl address) false false with
          | Ok (parsed_str, _) =>
              reformatted "Route set member" value (fr_plain (with_operator parsed_str range_operator))
          | Raise _ => parse_route_set_prefix version value address range_operator
          end
      end
  end.

(** *** AS numbers and blocks *)

Definition asn_result (text : string) (first last : Z) : RPSLFieldParseResult := {|
  fr_value := text; fr_values_list := []; fr_ip_first := None; fr_ip_last := None;
  fr_prefix := None; fr_prefix_length := None; fr_asn_first := Some first; fr_asn_last := Some last |}.
Definition parse_as_number_field (value : string) : parsed :=
  match parse_as_number cfg (inl value) false false with
  | Raise ve => fail (exn_str ve)
  | Ok (parsed_str, parsed_int) =>
      ((if String.eqb (str_upper parsed_str) (str_upper value) then []
        else msg_info ("AS number " +:+ value +:+ " was reformatted as " +:+ parsed_str)),
       Some (asn_result parsed_str parsed_int parsed_int))
  end.
Definition parse_as_block (value : string) : parsed :=
  match split_once "-"%char value with
  | None => fail ("Invalid AS range: " +:+ value +:+ ": does not contain a hyphen")
  | Some (as1_raw, as2_raw) =>
      match parse_as_number cfg (inl (strip as1_raw)) false false with
      | Raise ve => fail (exn_str ve)
      | Ok (as1_str, as1_int) =>
          match parse_as_number cfg (inl (strip as2_raw)) false false with
          | Raise ve => fail (exn_str ve)
          | Ok (as2_str, as2_int) =>
              if (as2_int <? as1_int)%Z
              then fail ("Invalid AS range: " +:+ value +:+ ": first AS is higher then second AS")
              else reformatted "AS range" value
                     (asn_result (as1_str +:+ " - " +:+ as2_str) as1_int as2_int)
          end
      end
  end.

(** *** Text-like fields *)

Definition parse_email (value : string) : parsed :=
  if re_email value then ([], Some (fr_plain value)) else fail ("Invalid e-mail address: " +:+ value).
Definition parse_changed (value : string) : parsed :=
  let '(email, date) := match split_on " "%char value with
                        | [email; date] => (email, date)
                        | _ => (value, "")
                        end in
  if negb (re_email email) then fail ("Invalid e-mail address: " +:+ email)
  else match (if String.eqb date "" then None else strptime_error date) with
       | Some ve => fail ("Invalid changed date: " +:+ date +:+ ": " +:+ ve)
       | None => ([], Some (fr_plain value))
       end.
Definition parse_dns_name (value : string) : parsed :=
  if re_dnsname value then ([], Some (fr_plain value)) else fail ("Invalid DNS name: " +:+ value).
(** A [ValueError] of [urlparse] is not caught. *)
Definition parse_url (value : string) : res parsed :=
  match urlparse value with
  | None => Raise (ValueError "Invalid IPv6 URL")
  | Some (scheme, netloc) =>
      if bool_decide (scheme ∈ ["http"; "https"]) && negb (String.eqb netloc "")
      then Ok ([], Some (fr_plain value))
      else Ok (fail ("Invalid http/https URL: " +:+ value))
  end.

Definition parse_generic_name (allowed_prefixes : list string) (non_strict_allow_any : bool)
    (value : string) (strict : bool) : parsed :=
  let allowed_prefixes := (λ p, str_upper p +:+ "-") <$> allowed_prefixes in
  if negb strict && non_strict_allow_any then ([], Some (fr_plain value))
  else
    let upper_value := str_upper value in
    if strict && bool_decide (upper_value ∈ reserved_words)
    then fail ("Invalid name: " +:+ value +:+ ": this is a reserved word")
    else
      match (if strict
             then List.find (λ p, startswith p upper_value && negb (bool_decide (p ∈ allowed_prefixes)))
                    reserved_prefixes
             else None) with
      | Some prefix => fail ("Invalid name: " +:+ value +:+ ": " +:+ prefix +:+ " is a reserved prefix")
      | None =>
          if re_generic_name value then ([], Some (fr_plain value))
          else fail ("Invalid name: " +:+ value +:+ ": contains invalid characters, does not start with"
                     +:+ " a letter, or does not end in a letter/digit")
      end.

Definition count_char (c : ascii) (s : string) : nat := length (split_on c s) - 1.
Definition parse_auth (value : string) (strict : bool) : res parsed :=
  hashers ← get_password_hashers cfg (negb strict);
  let has_valid_beginning := existsb (λ h, startswith (h +:+ " ") (str_upper value)) hashers in
  let is_valid_hash := has_valid_beginning && Nat.eqb (count_char " "%char value) 1
                       && negb (has_char ","%char value) in
  if is_valid_hash || re_pgpkey (str_upper value) || String.eqb value RPSL_MNTNER_AUTH_INTERNAL
  then Ok ([], Some (fr_plain value))
  else Ok (fail ("Invalid auth attribute: " +:+ value +:+ ": supported options are "
                 +:+ join ", " hashers +:+ ", PGPKEY-xxxxxxxx and " +:+ RPSL_MNTNER_AUTH_INTERNAL
                 +:+ " for migrated objects")).

(** *** Lists ([RPSLFieldListMixin]) *)

Fixpoint parse_items (parse_one : string → res parsed) (items : list string)
  : res (messages_ * list (option RPSLFieldParseResult)) :=
  match items with
  | [] => Ok ([], [])
  | v :: items' =>
      let single_value := strip v in
      if String.eqb single_value "" then parse_items parse_one items'
      else
        '(ms, r) ← parse_one single_value;
        '(ms', rs) ← parse_items parse_one items';
        Ok (ms ++ ms', r :: rs)
  end.
Definition all_results (rs : list (option RPSLFieldParseResult)) : option (list string) :=
  if forallb (λ r, match r with Some _ => true | None => false end) rs
  then Some (omap (λ r, fr_value <$> r) rs) else None.
Definition list_result (values : list string) : RPSLFieldParseResult := {|
  fr_value := join "," values; fr_values_list := values; fr_ip_first := None; fr_ip_last := None;
  fr_prefix := None; fr_prefix_length := None; fr_asn_first := None; fr_asn_last := None |}.
Definition parse_list (parse_one : string → res parsed) (value : string) : res parsed :=
  '(ms, rs) ← parse_items parse_one (split_on ","%char value);
  Ok (ms, list_result <$> all_results rs).

(** ** The [parse] method of every class *)

(** The classes that do not refer to another class. *)
Definition parse_basic (k : field_kind) (value : string) (strict : bool) : res parsed :=
  match k with
  | RPSLTextField => Ok (parse_text value)
  | RPSLIPv4PrefixField => Ok (parse_ipv4_prefix value)
  | RPSLIPv4PrefixesField => parse_list (λ v, Ok (parse_ipv4_prefix v)) value
  | RPSLIPv6PrefixField => Ok (parse_ipv6_prefix value)
  | RPSLIPv6PrefixesField => parse_list (λ v, Ok (parse_ipv6_prefix v)) value
  | RPSLIPv4AddressRangeField => Ok (parse_ipv4_range value)
  | RPSLRouteSetMembersField version => parse_list (λ v, Ok (parse_route_set_member version v strict)) value
  | RPSLASNumberField => Ok (parse_as_number_field value)
  | RPSLASBlockField => Ok (parse_as_block value)
  | RPSLSetNameField prefix => Ok (parse_set_name [prefix +:+ "-"] value strict)
  | RPSLEmailField => Ok (parse_email value)
  | RPSLChangedField => Ok (parse_changed value)
  | RPSLDNSNameField => Ok (parse_dns_name value)
  | RPSLURLField => parse_url value
  | RPSLGenericNameField allowed any => Ok (parse_generic_name allowed any value strict)
  | RPSLAuthField => parse_auth value strict
  | RPSLReferenceField _ _ | RPSLReferenceListField _ _ _ => Raise (RuntimeError "no reference to a reference")
  end.

(** The field that identifies objects of the class referred to
    ([resolve_references]). *)
Context (pk_field : string → option field).

Fixpoint parse_reference (referring : list string) (value : string) (strict : bool) (ms : messages_)
  : res parsed :=
  match referring with
  | [] => Ok (ms, None)
  | ref :: referring' =>
      match pk_field ref with
      | None => Raise (KeyError ref)
      | Some f =>
          '(ms', r) ← parse_basic (f_kind f) value strict;
          match r with
          | Some r => Ok ([], Some r)
          | None => parse_reference referring' value strict (ms ++ ms')
          end
      end
  end.

Definition parse_field (k : field_kind) (value : string) (strict : bool) : res parsed :=
  match k with
  | RPSLReferenceField referring _ => parse_reference referring value strict []
  | RPSLReferenceListField referring _ allow_kw_any =>
      if allow_kw_any && String.eqb (str_upper value) "ANY"
      then Ok ([], Some (list_result ["ANY"]))
      else parse_list (λ v, parse_reference referring v strict []) value
  | k => parse_basic k value strict
  end.
End Fields.
