(* ===== verification/RpslObjects.v ===== *)
(** * The RPSL object classes ([irrd/rpsl/rpsl_objects.py])

    The [fields] table of every class, as data, with what the metaclass
    [RPSLObjectMeta] derives from it ([irrd/rpsl/parser.py]). *)
From S2P Require Import Prelude PyStr Conf Net Text Fields.

Record rpsl_class := {
  c_fields : list (string * field);
  c_discarded_fields : list string;
  c_is_route : bool;
  c_is_set : bool;
}.

(** [RPSLObjectMeta.__init__]. *)
Definition fields_where (p : field → bool) (c : rpsl_class) : list string :=
  omap (λ nf : string * field, if p nf.2 then Some nf.1 else None) (c_fields c).
Definition rpsl_object_class (c : rpsl_class) : string := default "" (head (c_fields c).*1).
Definition pk_fields : rpsl_class → list string := fields_where f_primary_key.
Definition lookup_fields : rpsl_class → list string := fields_where f_lookup_key.
Definition attrs_allowed (c : rpsl_class) : list string := (c_fields c).*1.
Definition attrs_required : rpsl_class → list string := fields_where (λ f, negb (f_optional f)).
Definition attrs_multiple : rpsl_class → list string := fields_where f_multiple.
Definition referring_strong_fields (c : rpsl_class) : list (string * list string) :=
  omap (λ nf : string * field,
          if strong_of (f_kind nf.2) then Some (nf.1, referring_of (f_kind nf.2)) else None) (c_fields c).

(** [self.ignored_validation_fields]. *)
Definition ignored_validation_fields : list string := ["last-modified"].

(** [field(primary_key=.., lookup_key=..)]: optional, multiple, primary key, lookup key. *)

Definition RPSLAsBlock : rpsl_class := {|
  c_fields := [
    ("as-block", mk_field false false true true RPSLASBlockField);
    ("descr", mk_field true true false false RPSLTextField);
    ("admin-c", mk_field false true false true (RPSLReferenceField ["role"; "person"] true));
    ("tech-c", mk_field false true false true (RPSLReferenceField ["role"; "person"] true));
    ("remarks", mk_field true true false false RPSLTextField);
    ("notify", mk_field true true false false RPSLEmailField);
    ("mnt-by", mk_field false true false true (RPSLReferenceListField ["mntner"] true false));
    ("changed", mk_field true true false false RPSLChangedField);
    ("source", mk_field false false false false (RPSLGenericNameField [] false))];
  c_discarded_fields := []; c_is_route := false; c_is_set := false |}.

Definition RPSLAsSet : rpsl_class := {|
  c_fields := [
    ("as-set", mk_field false false true true (RPSLSetNameField "AS"));
    ("descr", mk_field true true false false RPSLTextField);
    ("members", mk_field true true false true (RPSLReferenceListField ["aut-num"; "as-set"] false false));
    ("mbrs-by-ref", mk_field true true false true (RPSLReferenceListField ["mntner"] false true));
    ("admin-c", mk_field true true false true (RPSLReferenceField ["role"; "person"] true));
    ("tech-c", mk_field true true false true (RPSLReferenceField ["role"; "person"] true));
    ("remarks", mk_field true true false false RPSLTextField);
    ("notify", mk_field true true false false RPSLEmailField);
    ("mnt-by", mk_field false true false true (RPSLReferenceListField ["mntner"] true false));
    ("changed", mk_field true true false false RPSLChangedField);
    ("source", mk_field false false false false (RPSLGenericNameField [] false))];
  c_discarded_fields := []; c_is_route := false; c_is_set := true |}.

Definition RPSLAutNum : rpsl_class := {|
  c_fields := [
    ("aut-num", mk_field false false true true RPSLASNumberField);
    ("as-name", mk_field false false false false (RPSLGenericNameField ["AS"] false));
    ("descr", mk_field true true false false RPSLTextField);
    ("member-of", mk_field true true false true (RPSLReferenceListField ["as-set"] false false));
    ("import", mk_field true true false false RPSLTextField);
    ("mp-import", mk_field true true false false RPSLTextField);
    ("import-via", mk_field true true false false RPSLTextField);
    ("export", mk_field true true false false RPSLTextField);
    ("mp-export", mk_field true true false false RPSLTextField);
    ("export-via", mk_field true true false false RPSLTextField);
    ("default", mk_field true true false false RPSLTextField);
    ("mp-default", mk_field true true false false RPSLTextField);
    ("admin-c", mk_field false true false true (RPSLReferenceField ["role"; "person"] true));
    ("tech-c", mk_field false true false true (RPSLReferenceField ["role"; "person"] true));
    ("remarks", mk_field true true false false RPSLTextField);
    ("notify", mk_field true true false false RPSLEmailField);
    ("mnt-by", mk_field true true false true (RPSLReferenceListField ["mntner"] true false));
    ("changed", mk_field true true false false RPSLChangedField);
    ("source", mk_field false false false false (RPSLGenericNameField [] false))];
  c_discarded_fields := []; c_is_route := false; c_is_set := false |}.

Definition RPSLDomain : rpsl_class := {|
  c_fields := [
    ("domain", mk_field false false true true RPSLTextField);
    ("descr", mk_field true true false false RPSLTextField);
    ("admin-c", mk_field false true false true (RPSLReferenceField ["role"; "person"] true));
    ("tech-c", mk_field false true false true (RPSLReferenceField ["role"; "person"] true));
    ("zone-c", mk_field false true false true (RPSLReferenceField ["role"; "person"] true));
    ("nserver", mk_field true true false false RPSLTextField);
    ("sub-dom", mk_field true true false false RPSLTextField);
    ("dom-net", mk_field true true false false RPSLTextField);
    ("refer", mk_field true false false false RPSLTextField);
    ("remarks", mk_field true true false false RPSLTextField);
    ("notify", mk_field true true false false RPSLEmailField);
    ("mnt-by", mk_field true true false true (RPSLReferenceListField ["mntner"] true false));
    ("changed", mk_field true true false false RPSLChangedField);
    ("source", mk_field false false false false (RPSLGenericNameField [] false))];
  c_discarded_fields := []; c_is_route := false; c_is_set := false |}.

Definition RPSLFilterSet : rpsl_class := {|
  c_fields := [
    ("filter-set", mk_field false false true true (RPSLSetNameField "FLTR"));
    ("descr", mk_field true true false false RPSLTextField);
    ("filter", mk_field false false false false RPSLTextField);
    ("mp-filter", mk_field true false false false RPSLTextField);
    ("admin-c", mk_field true true false true (RPSLReferenceField ["role"; "person"] true));
    ("tech-c", mk_field true true false true (RPSLReferenceField ["role"; "person"] true));
    ("remarks", mk_field true true false false RPSLTextField);
    ("notify", mk_field true true false false RPSLEmailField);
    ("mnt-by", mk_field false true false true (RPSLReferenceListField ["mntner"] true false));
    ("changed", mk_field true true false false RPSLChangedField);
    ("source", mk_field false false false false (RPSLGenericNameField [] false))];
  c_discarded_fields := []; c_is_route := false; c_is_set := true |}.

Definition RPSLInetRtr : rpsl_class := {|
  c_fields := [
    ("inet-rtr", mk_field false false true true RPSLDNSNameField);
    ("descr", mk_field true true false false RPSLTextField);
    ("alias", mk_field true true false false RPSLDNSNameField);
    ("local-as", mk_field false false false false RPSLASNumberField);
    ("ifaddr", mk_field true true false false RPSLTextField);
    ("interface", mk_field true true false false RPSLTextField);
    ("peer", mk_field true true false false RPSLTextField);
    ("mp-peer", mk_field true true false false RPSLTextField);
    ("member-of", mk_field true true false true (RPSLReferenceListField ["rtr-set"] false false));
    ("rs-in", mk_field true false false false RPSLTextField);
    ("rs-out", mk_field true false false false RPSLTextField);
    ("admin-c", mk_field true true false true (RPSLReferenceField ["role"; "person"] true));
    ("tech-c", mk_field true true false true (RPSLReferenceField ["role"; "person"] true));
    ("remarks", mk_field true true false false RPSLTextField);
    ("notify", mk_field true true false false RPSLEmailField);
    ("mnt-by", mk_field false true false true (RPSLReferenceListField ["mntner"] true false));
    ("changed", mk_field true true false false RPSLChangedField);
    ("source", mk_field false false false false (RPSLGenericNameField [] false))];
  c_discarded_fields := []; c_is_route := false; c_is_set := false |}.

Definition RPSLInet6Num : rpsl_class := {|
  c_fields := [
    ("inet6num", mk_field false false true true RPSLIPv6PrefixField);
    ("netname", mk_field false false false false RPSLTextField);
    ("descr", mk_field true true false false RPSLTextField);
    ("country", mk_field false true false false RPSLTextField);
    ("admin-c", mk_field false true false true (RPSLReferenceField ["role"; "person"] true));
    ("tech-c", mk_field false true false true (RPSLReferenceField ["role"; "person"] true));
    ("rev-srv", mk_field true true false false RPSLTextField);
    ("status", mk_field false false false false RPSLTextField);
    ("geofeed", mk_field true false false false RPSLURLField);
    ("remarks", mk_field true true false false RPSLTextField);
    ("notify", mk_field true true false false RPSLEmailField);
    ("mnt-by", mk_field false true false true (RPSLReferenceListField ["mntner"] true false));
    ("changed", mk_field true true false false RPSLChangedField);
    ("source", mk_field false false false false (RPSLGenericNameField [] false))];
  c_discarded_fields := []; c_is_route := false; c_is_set := false |}.

Definition RPSLInetnum : rpsl_class := {|
  c_fields := [
    ("inetnum", mk_field false false true true RPSLIPv4AddressRangeField);
    ("netname", mk_field false false false false RPSLTextField);
    ("descr", mk_field true true false false RPSLTextField);
    ("country", mk_field false true false false RPSLTextField);
    ("admin-c", mk_field false true false true (RPSLReferenceField ["role"; "person"] true));
    ("tech-c", mk_field false true false true (RPSLReferenceField ["role"; "person"] true));
    ("rev-srv", mk_field true true false false RPSLTextField);
    ("status", mk_field false false false false RPSLTextField);
    ("geofeed", mk_field true false false false RPSLURLField);
    ("remarks", mk_field true true false false RPSLTextField);
    ("notify", mk_field true true false false RPSLEmailField);
    ("mnt-by", mk_field false true false true (RPSLReferenceListField ["mntner"] true false));
    ("changed", mk_field true true false false RPSLChangedField);
    ("source", mk_field false false false false (RPSLGenericNameField [] false))];
  c_discarded_fields := []; c_is_route := false; c_is_set := false |}.

Definition RPSLIrt : rpsl_class := {|
  c_fields := [
    ("irt", mk_field false false true true (RPSLGenericNameField [] false));
    ("address", mk_field false true false false RPSLTextField);
    ("phone", mk_field true true false false RPSLTextField);
    ("fax-no", mk_field true true false false RPSLTextField);
    ("e-mail", mk_field false true false false RPSLEmailField);
    ("abuse-mailbox", mk_field false true false false RPSLEmailField);
    ("admin-c", mk_field true true false true (RPSLReferenceField ["role"; "person"] true));
    ("tech-c", mk_field true true false true (RPSLReferenceField ["role"; "person"] true));
    ("remarks", mk_field true true false false RPSLTextField);
    ("notify", mk_field true true false false RPSLEmailField);
    ("mnt-by", mk_field false true false true (RPSLReferenceListField ["mntner"] true false));
    ("changed", mk_field true true false false RPSLChangedField);
    ("source", mk_field false false false false (RPSLGenericNameField [] false))];
  c_discarded_fields := []; c_is_route := false; c_is_set := false |}.

Definition RPSLKeyCert : rpsl_class := {|
  c_fields := [
    ("key-cert", mk_field false false true true (RPSLGenericNameField [] false));
    ("method", mk_field true false false false RPSLTextField);
    ("owner", mk_field true true false false RPSLTextField);
    ("fingerpr", mk_field true false false false RPSLTextField);
    ("certif", mk_field false true false false RPSLTextField);
    ("remarks", mk_field true true false false RPSLTextField);
    ("admin-c", mk_field true true false true (RPSLReferenceField ["role"; "person"] true));
    ("tech-c", mk_field true true false true (RPSLReferenceField ["role"; "person"] true));
    ("notify", mk_field true true false false RPSLEmailField);
    ("mnt-by", mk_field false true false true (RPSLReferenceListField ["mntner"] true false));
    ("changed", mk_field true true false false RPSLChangedField);
    ("source", mk_field false false false false (RPSLGenericNameField [] false))];
  c_discarded_fields := []; c_is_route := false; c_is_set := false |}.

Definition RPSLMntner : rpsl_class := {|
  c_fields := [
    ("mntner", mk_field false false true true (RPSLGenericNameField [] false));
    ("descr", mk_field true true false false RPSLTextField);
    ("admin-c", mk_field false true false true (RPSLReferenceField ["role"; "person"] true));
    ("tech-c", mk_field true true false true (RPSLReferenceField ["role"; "person"] true));
    ("upd-to", mk_field false true false false RPSLEmailField);
    ("mnt-nfy", mk_field true true false false RPSLEmailField);
    ("auth", mk_field false true false false RPSLAuthField);
    ("remarks", mk_field true true false false RPSLTextField);
    ("notify", mk_field true true false false RPSLEmailField);
    ("mnt-by", mk_field false true false true (RPSLReferenceListField ["mntner"] true false));
    ("changed", mk_field true true false false RPSLChangedField);
    ("source", mk_field false false false false (RPSLGenericNameField [] false))];
  c_discarded_fields := []; c_is_route := false; c_is_set := false |}.

Definition RPSLOrganisation : rpsl_class := {|
  c_fields := [
    ("organisation", mk_field false false true true (RPSLGenericNameField [] false));
    ("org-name", mk_field false false false false RPSLTextField);
    ("country", mk_field false true false false RPSLTextField);
    ("address", mk_field false true false false RPSLTextField);
    ("phone", mk_field true true false false RPSLTextField);
    ("fax-no", mk_field true true false false RPSLTextField);
    ("e-mail", mk_field false true false false RPSLEmailField);
    ("admin-c", mk_field true true false true (RPSLReferenceField ["role"; "person"] true));
    ("tech-c", mk_field true true false true (RPSLReferenceField ["role"; "person"] true));
    ("remarks", mk_field true true false false RPSLTextField);
    ("notify", mk_field true true false false RPSLEmailField);
    ("mnt-by", mk_field false true false true (RPSLReferenceListField ["mntner"] true false));
    ("changed", mk_field true true false false RPSLChangedField);
    ("source", mk_field false false false false (RPSLGenericNameField [] false))];
  c_discarded_fields := []; c_is_route := false; c_is_set := false |}.

Definition RPSLPeeringSet : rpsl_class := {|
  c_fields := [
    ("peering-set", mk_field false false true true (RPSLSetNameField "PRNG"));
    ("descr", mk_field true true false false RPSLTextField);
    ("peering", mk_field true true false false RPSLTextField);
    ("mp-peering", mk_field true true false false RPSLTextField);
    ("admin-c", mk_field true true false true (RPSLReferenceField ["role"; "person"] true));
    ("tech-c", mk_field true true false true (RPSLReferenceField ["role"; "person"] true));
    ("remarks", mk_field true true false false RPSLTextField);
    ("notify", mk_field true true false false RPSLEmailField);
    ("mnt-by", mk_field false true false true (RPSLReferenceListField ["mntner"] true false));
    ("changed", mk_field true true false false RPSLChangedField);
    ("source", mk_field false false false false (RPSLGenericNameField [] false))];
  c_discarded_fields := []; c_is_route := false; c_is_set := true |}.

Definition RPSLPerson : rpsl_class := {|
  c_fields := [
    ("person", mk_field false false false true RPSLTextField);
    ("address", mk_field false true false false RPSLTextField);
    ("phone", mk_field false true false false RPSLTextField);
    ("fax-no", mk_field true true false false RPSLTextField);
    ("e-mail", mk_field false true false false RPSLEmailField);
    ("nic-hdl", mk_field false false true true (RPSLGenericNameField [] true));
    ("remarks", mk_field true true false false RPSLTextField);
    ("notify", mk_field true true false false RPSLEmailField);
    ("mnt-by", mk_field false true false true (RPSLReferenceListField ["mntner"] true false));
    ("changed", mk_field true true false false RPSLChangedField);
    ("source", mk_field false false false false (RPSLGenericNameField [] false))];
  c_discarded_fields := []; c_is_route := false; c_is_set := false |}.

Definition RPSLRole : rpsl_class := {|
  c_fields := [
    ("role", mk_field false false false true RPSLTextField);
    ("trouble", mk_field true true false false RPSLTextField);
    ("address", mk_field false true false false RPSLTextField);
    ("phone", mk_field false true false false RPSLTextField);
    ("fax-no", mk_field true true false false RPSLTextField);
    ("e-mail", mk_field false true false false RPSLEmailField);
    ("admin-c", mk_field true true false true (RPSLReferenceField ["role"; "person"] true));
    ("tech-c", mk_field true true false true (RPSLReferenceField ["role"; "person"] true));
    ("nic-hdl", mk_field false false true true (RPSLGenericNameField [] true));
    ("remarks", mk_field true true false false RPSLTextField);
    ("notify", mk_field true true false false RPSLEmailField);
    ("mnt-by", mk_field false true false true (RPSLReferenceListField ["mntner"] true false));
    ("changed", mk_field true true false false RPSLChangedField);
    ("source", mk_field false false false false (RPSLGenericNameField [] false))];
  c_discarded_fields := []; c_is_route := false; c_is_set := false |}.

Definition RPSLRoute : rpsl_class := {|
  c_fields := [
    ("route", mk_field false false true true RPSLIPv4PrefixField);
    ("descr", mk_field true true false false RPSLTextField);
    ("origin", mk_field false false true false RPSLASNumberField);
    ("holes", mk_field true true false false RPSLIPv4PrefixesField);
    ("member-of", mk_field true true false true (RPSLReferenceListField ["route-set"] false false));
    ("inject", mk_field true true false false RPSLTextField);
    ("aggr-bndry", mk_field true false false false RPSLTextField);
    ("aggr-mtd", mk_field true false false false RPSLTextField);
    ("export-comps", mk_field true false false false RPSLTextField);
    ("components", mk_field true false false false RPSLTextField);
    ("admin-c", mk_field true true false true (RPSLReferenceField ["role"; "person"] true));
    ("tech-c", mk_field true true false true (RPSLReferenceField ["role"; "person"] true));
    ("geoidx", mk_field true true false false RPSLTextField);
    ("roa-uri", mk_field true false false false RPSLTextField);
    ("remarks", mk_field true true false false RPSLTextField);
    ("notify", mk_field true true false false RPSLEmailField);
    ("mnt-by", mk_field false true false true (RPSLReferenceListField ["mntner"] true false));
    ("changed", mk_field true true false false RPSLChangedField);
    ("source", mk_field false false false false (RPSLGenericNameField [] false))];
  c_discarded_fields := ["rpki-ov-state"]; c_is_route := true; c_is_set := false |}.

Definition RPSLRouteSet : rpsl_class := {|
  c_fields := [
    ("route-set", mk_field false false true true (RPSLSetNameField "RS"));
    ("members", mk_field true true false true (RPSLRouteSetMembersField (Some 4%Z)));
    ("mp-members", mk_field true true false true (RPSLRouteSetMembersField None));
    ("mbrs-by-ref", mk_field true true false true (RPSLReferenceListField ["mntner"] false true));
    ("descr", mk_field true true false false RPSLTextField);
    ("admin-c", mk_field true true false true (RPSLReferenceField ["role"; "person"] true));
    ("tech-c", mk_field true true false true (RPSLReferenceField ["role"; "person"] true));
    ("remarks", mk_field true true false false RPSLTextField);
    ("notify", mk_field true true false false RPSLEmailField);
    ("mnt-by", mk_field false true false true (RPSLReferenceListField ["mntner"] true false));
    ("changed", mk_field true true false false RPSLChangedField);
    ("source", mk_field false false false false (RPSLGenericNameField [] false))];
  c_discarded_fields := []; c_is_route := false; c_is_set := true |}.

Definition RPSLRoute6 : rpsl_class := {|
  c_fields := [
    ("route6", mk_field false false true true RPSLIPv6PrefixField);
    ("descr", mk_field true true false false RPSLTextField);
    ("origin", mk_field false false true false RPSLASNumberField);
    ("holes", mk_field true true false false RPSLIPv6PrefixesField);
    ("member-of", mk_field true true false true (RPSLReferenceListField ["route-set"] false false));
    ("inject", mk_field true true false false RPSLTextField);
    ("aggr-bndry", mk_field true false false false RPSLTextField);
    ("aggr-mtd", mk_field true false false false RPSLTextField);
    ("export-comps", mk_field true false false false RPSLTextField);
    ("components", mk_field true false false false RPSLTextField);
    ("admin-c", mk_field true true false true (RPSLReferenceField ["role"; "person"] true));
    ("tech-c", mk_field true true false true (RPSLReferenceField ["role"; "person"] true));
    ("geoidx", mk_field true true false false RPSLTextField);
    ("roa-uri", mk_field true false false false RPSLTextField);
    ("remarks", mk_field true true false false RPSLTextField);
    ("notify", mk_field true true false false RPSLEmailField);
    ("mnt-by", mk_field false true false true (RPSLReferenceListField ["mntner"] true false));
    ("changed", mk_field true true false false RPSLChangedField);
    ("source", mk_field false false false false (RPSLGenericNameField [] false))];
  c_discarded_fields := ["rpki-ov-state"]; c_is_route := true; c_is_set := false |}.

Definition RPSLRtrSet : rpsl_class := {|
  c_fields := [
    ("rtr-set", mk_field false false true true (RPSLSetNameField "RTRS"));
    ("descr", mk_field true true false false RPSLTextField);
    ("members", mk_field true true false true (RPSLReferenceListField ["inet-rtr"; "rtr-set"] false false));
    ("mp-members", mk_field true true false true (RPSLReferenceListField ["inet-rtr"; "rtr-set"] false false));
    ("mbrs-by-ref", mk_field true true false true (RPSLReferenceListField ["mntner"] false true));
    ("admin-c", mk_field true true false true (RPSLReferenceField ["role"; "person"] true));
    ("tech-c", mk_field true true false true (RPSLReferenceField ["role"; "person"] true));
    ("remarks", mk_field true true false false RPSLTextField);
    ("notify", mk_field true true false false RPSLEmailField);
    ("mnt-by", mk_field false true false true (RPSLReferenceListField ["mntner"] true false));
    ("changed", mk_field true true false false RPSLChangedField);
    ("source", mk_field false false false false (RPSLGenericNameField [] false))];
  c_discarded_fields := []; c_is_route := false; c_is_set := true |}.

Definition OBJECT_CLASS_MAPPING : list (string * rpsl_class) := [
  ("as-block", RPSLAsBlock);
  ("as-set", RPSLAsSet);
  ("aut-num", RPSLAutNum);
  ("domain", RPSLDomain);
  ("filter-set", RPSLFilterSet);
  ("inet-rtr", RPSLInetRtr);
  ("inet6num", RPSLInet6Num);
  ("inetnum", RPSLInetnum);
  ("irt", RPSLIrt);
  ("key-cert", RPSLKeyCert);
  ("mntner", RPSLMntner);
  ("organisation", RPSLOrganisation);
  ("peering-set", RPSLPeeringSet);
  ("person", RPSLPerson);
  ("role", RPSLRole);
  ("route", RPSLRoute);
  ("route-set", RPSLRouteSet);
  ("route6", RPSLRoute6);
  ("rtr-set", RPSLRtrSet)].

Definition RPSL_ROUTE_OBJECT_CLASS_FOR_IP_VERSION (version : Z) : option string :=
  if (version =? 4)%Z then Some "route" else if (version =? 6)%Z then Some "route6" else None.
Definition PROTECTED_NAME_OBJECT_CLASSES : list string := ["person"; "role"; "mntner"].

Definition class_of (name : string) : option rpsl_class := assoc name OBJECT_CLASS_MAPPING.

Definition RPKI_RELEVANT_OBJECT_CLASSES : list string :=
  omap (λ nc : string * rpsl_class, if c_is_route nc.2 then Some (rpsl_object_class nc.2) else None)
    OBJECT_CLASS_MAPPING.

Definition lookup_field_names : list string :=
  oset_update ["origin"]
    (concat ((λ nc : string * rpsl_class,
        List.filter (λ f, negb (bool_decide (f ∈ pk_fields nc.2))) (lookup_fields nc.2))
      <$> OBJECT_CLASS_MAPPING)).

(** The first field that is both primary and lookup key
    ([RPSLReferenceField.resolve_references]). *)
Definition class_pk_field (name : string) : option field :=
  c ← class_of name;
  snd <$> List.find (λ nf : string * field, f_primary_key nf.2 && f_lookup_key nf.2) (c_fields c).

(** [RPSLObject.references_strong_inbound]. *)
Definition references_strong_inbound (object_class : string) : list string :=
  oset_update []
    (concat ((λ nc : string * rpsl_class,
        omap (λ nf : string * field,
                if bool_decide (object_class ∈ referring_of (f_kind nf.2)) && strong_of (f_kind nf.2)
                then Some nf.1 else None) (c_fields nc.2))
      <$> OBJECT_CLASS_MAPPING)).
