(* ===== verification/FieldsTheory.v ===== *)
(** * Correctness of RPSL field parsing *)
From S2P Require Import Prelude PyStr Conf Net Text TextTheory Fields RpslObjects.

Lemma with_level_app l a b : with_level l (a ++ b) = with_level l a ++ with_level l b.
Proof. apply omap_app. Qed.
Lemma errors_app a b : errors (a ++ b) = errors a ++ errors b.
Proof. apply with_level_app. Qed.
Lemma errors_app_nil a b : errors (a ++ b) = [] ↔ errors a = [] ∧ errors b = [].
Proof. rewrite errors_app. apply app_nil. Qed.

(** ** A field that yields no value reports an error *)

Section NoneError.
Context `{IPyLib} (cfg : configuration).

Definition reports (p : parsed) : Prop := p.2 = None → errors p.1 ≠ [].

Lemma reports_fail m : reports (fail m).
Proof. done. Qed.
Lemma reports_some ms r : reports (ms, Some r).
Proof. done. Qed.
Lemma reports_reformatted w v r : reports (reformatted w v r).
Proof. done. Qed.
Hint Resolve reports_fail reports_some reports_reformatted : irrd.

(** Branch on every test until a [fail] or a result is reached. *)
Ltac report :=
  repeat first
    [ by eauto with irrd
    | match goal with |- reports (match ?x with _ => _ end) => destruct x end
    | match goal with |- reports (let '(_, _) := ?x in _) => destruct x end ].

Lemma ipv4_prefix_reports v : reports (parse_ipv4_prefix v).
Proof. unfold parse_ipv4_prefix. report. Qed.
Lemma ipv6_prefix_reports v : reports (parse_ipv6_prefix v).
Proof. unfold parse_ipv6_prefix. report. Qed.
Lemma ipv4_range_reports v : reports (parse_ipv4_range v).
Proof. unfold parse_ipv4_range. report. Qed.
Lemma set_name_reports ps v s : reports (parse_set_name cfg ps v s).
Proof. unfold parse_set_name. report. Qed.
Lemma route_set_prefix_reports ver v a op : reports (parse_route_set_prefix ver v a op).
Proof. unfold parse_route_set_prefix. report. Qed.
Lemma route_set_member_reports ver v s : reports (parse_route_set_member cfg ver v s).
Proof.
  unfold parse_route_set_member.
  pose proof route_set_prefix_reports. report.
Qed.
Lemma as_number_reports v : reports (parse_as_number_field cfg v).
Proof. unfold parse_as_number_field. report. Qed.
Lemma as_block_reports v : reports (parse_as_block cfg v).
Proof. unfold parse_as_block. report. Qed.
Lemma generic_name_reports ps any v s : reports (parse_generic_name ps any v s).
Proof. unfold parse_generic_name. report. Qed.
Lemma changed_reports v : reports (parse_changed v).
Proof. unfold parse_changed. report. Qed.
Lemma email_reports v : reports (parse_email v).
Proof. unfold parse_email. report. Qed.
Lemma dns_name_reports v : reports (parse_dns_name v).
Proof. unfold parse_dns_name. report. Qed.

Lemma items_report parse_one items ms rs :
  (∀ v p, parse_one v = Ok p → reports p) →
  parse_items parse_one items = Ok (ms, rs) → all_results rs = None → errors ms ≠ [].
Proof.
  intros Hone. revert ms rs. induction items as [|v items IH]; intros ms rs; simpl.
  { by intros; simplify_eq/=. }
  destruct (String.eqb (strip v) ""); [apply IH|].
  destruct (parse_one (strip v)) as [[m r]|] eqn:E; simpl; [|done].
  destruct (parse_items parse_one items) as [[ms' rs']|] eqn:E'; simpl; [|done].
  intros; simplify_eq. rewrite errors_app_nil. intros [Hm Hms'].
  destruct r as [r|]; [|by apply (Hone _ _ E)].
  eapply IH; [done| |done]. unfold all_results in *. simpl in *. by destruct (forallb _ rs').
Qed.

Lemma list_reports parse_one v p :
  (∀ v p, parse_one v = Ok p → reports p) → parse_list parse_one v = Ok p → reports p.
Proof.
  intros Hone. unfold parse_list.
  destruct (parse_items _ _) as [[ms rs]|] eqn:E; simpl; [|done]. intros; simplify_eq.
  unfold reports. simpl. intros Hn. eapply items_report; [exact Hone|exact E|].
  by destruct (all_results rs).
Qed.

Lemma url_reports v p : parse_url v = Ok p → reports p.
Proof.
  unfold parse_url. destruct (urlparse v) as [[sch net]|]; [|done].
  destruct (_ && _); by intros; simplify_eq.
Qed.
Lemma auth_reports v s p : parse_auth cfg v s = Ok p → reports p.
Proof.
  unfold parse_auth. destruct (get_password_hashers _ _); simpl; [|done].
  destruct (_ || _); by intros; simplify_eq.
Qed.

Lemma basic_reports k v s p : parse_basic cfg k v s = Ok p → reports p.
Proof.
  destruct k; simpl;
    try (intros Hl; eapply list_reports; [|exact Hl]; simpl; intros);
    try (intros; simplify_eq);
    try (by eauto using ipv4_prefix_reports, ipv6_prefix_reports, ipv4_range_reports, set_name_reports,
           route_set_member_reports, as_number_reports, as_block_reports, generic_name_reports,
           changed_reports, email_reports, dns_name_reports, url_reports, auth_reports with irrd).
Qed.

Lemma reference_reports refs v s ms p :
  (refs ≠ [] ∨ errors ms ≠ []) →
  parse_reference cfg class_pk_field refs v s ms = Ok p → reports p.
Proof.
  revert ms. induction refs as [|r refs IH]; intros ms Hne; simpl.
  { intros; simplify_eq. unfold reports. naive_solver. }
  destruct (class_pk_field r) as [f|]; [|done].
  destruct (parse_basic cfg (f_kind f) v s) as [[ms' [r'|]]|] eqn:E; simpl; [| |done].
  - intros; simplify_eq. done.
  - apply IH. right. rewrite errors_app_nil. intros [_ He]. by apply basic_reports in E as Hr; apply Hr.
Qed.

(** Reference fields name at least one class. *)
Definition kind_ok (k : field_kind) : Prop :=
  match k with RPSLReferenceField r _ | RPSLReferenceListField r _ _ => r ≠ [] | _ => True end.

Lemma field_reports k v s p :
  kind_ok k → parse_field cfg class_pk_field k v s = Ok p → reports p.
Proof.
  intros Hk. destruct k; cbn [parse_field kind_ok] in *;
    try exact (basic_reports _ v s p).
  - apply reference_reports. by left.
  - destruct (_ && _); [by intros; simplify_eq|]. apply list_reports. intros v' p'.
    apply reference_reports. by left.
Qed.
End NoneError.

(** ** Normalised values are fixed points *)

Section Idempotent.
Context `{IPyLib} (cfg : configuration).

(** Parsing again gives the same value and no message. *)
Definition canonical (parse : string → parsed) (v : string) : Prop :=
  ∃ r, parse v = ([], Some r) ∧ fr_value r = v.

Lemma reformatted_same w v r : fr_value r = v → reformatted w v r = ([], Some r).
Proof. intros <-. unfold reformatted. by rewrite String.eqb_refl. Qed.

Lemma as_number_ok v plain asdot s n :
  parse_as_number cfg v plain asdot = Ok (s, n) → (0 ≤ n ≤ as_max)%Z ∧ s = "AS" +:+ str_of_Z n.
Proof. apply parse_as_number_range. Qed.

Lemma as_text_component n : (0 ≤ n ≤ as_max)%Z → has_char ":"%char ("AS" +:+ str_of_Z n) = false.
Proof. intros Hn. rewrite has_char_app, str_of_Z_no_char by (done || lia). done. Qed.

Lemma as_text_not_reserved n :
  (0 ≤ n ≤ as_max)%Z → str_upper ("AS" +:+ str_of_Z n) ∉ reserved_words.
Proof.
  intros Hn Hin. rewrite str_upper_app, (str_upper_digits (str_of_Z n)) in Hin
    by (apply str_of_Z_digits; lia).
  assert (forallb (λ w, negb (startswith "AS" w && str_all is_digit (str_drop 2 w))) reserved_words
          = true) as Hw by (vm_compute; reflexivity).
  rewrite forallb_spec in Hw. specialize (Hw _ Hin). change (str_upper "AS") with "AS" in Hw.
  change ("AS" +:+ str_of_Z n) with (String "A" (String "S" (str_of_Z n))) in Hw.
  rewrite !str_drop_S, str_drop_0, str_of_Z_digits in Hw by lia.
  unfold startswith in Hw. change (String "A" (String "S" (str_of_Z n))) with ("AS" +:+ str_of_Z n) in Hw.
  by rewrite prefix_app in Hw.
Qed.

Lemma as_number_field_fixed v ms r :
  parse_as_number_field cfg v = (ms, Some r) → parse_as_number_field cfg (fr_value r) = ([], Some r).
Proof.
  unfold parse_as_number_field.
  destruct (parse_as_number cfg (inl v) false false) as [[t n]|] eqn:E; [|done].
  intros; simplify_eq. cbn [fr_value asn_result]. apply as_number_ok in E as [Hn ->].
  by rewrite parse_as_number_text, String.eqb_refl.
Qed.

Lemma as_number_facts v t n :
  parse_as_number cfg v false false = Ok (t, n) →
  has_char "-"%char t = false ∧ has_char " "%char t = false ∧ strip t = t
  ∧ parse_as_number cfg (inl t) false false = Ok (t, n).
Proof.
  intros [Hn ->]%as_number_ok. split_and!.
  - rewrite has_char_app, str_of_Z_no_char by (done || lia). done.
  - rewrite has_char_app, str_of_Z_no_char by (done || lia). done.
  - apply strip_if_id. rewrite str_all_app. apply andb_true_iff. split; [done|].
    eapply str_all_mono; [|apply str_of_Z_digits; lia]. apply is_digit_not_space.
  - by apply parse_as_number_text.
Qed.

Lemma as_block_fixed v ms r :
  parse_as_block cfg v = (ms, Some r) → parse_as_block cfg (fr_value r) = ([], Some r).
Proof.
  unfold parse_as_block. destruct (split_once "-"%char v) as [[a b]|]; [|done].
  destruct (parse_as_number cfg (inl (strip a)) false false) as [[t n]|] eqn:E1; [|done].
  destruct (parse_as_number cfg (inl (strip b)) false false) as [[t' n']|] eqn:E2; [|done].
  destruct (n' <? n)%Z eqn:Hle; [done|]. intros [= _ <-]. cbn [fr_value asn_result].
  apply as_number_facts in E1 as (Ht & _ & Hs & Hp), E2 as (Ht' & Hsp & Hs' & Hp').
  assert (t +:+ String " " (String "-" (String " " t')) = (t +:+ " ") +:+ String "-" (" " +:+ t')) as Hv
    by (by rewrite str_app_assoc).
  rewrite Hv. rewrite split_once_app by (by rewrite has_char_app, Ht).
  assert (strip (t +:+ " ") = t) as ->.
  { unfold strip, strip_if in *. destruct t as [|c t]; [done|].
    destruct (is_space c) eqn:Hc.
    - exfalso. apply (f_equal String.length) in Hs. simpl in Hs. rewrite Hc in Hs.
      pose proof (rstrip_if_length is_space (lstrip_if is_space t)).
      pose proof (lstrip_if_length is_space t). simpl in Hs. lia.
    - assert (∀ u, lstrip_if is_space (String c t +:+ u) = String c t +:+ u) as Hl
        by (intros; simpl; by rewrite Hc).
      rewrite Hl, rstrip_if_app by done. rewrite <- Hs at 2. rewrite <- (str_app_nil_r (String c t)) at 2.
      by rewrite Hl, str_app_nil_r. }
  assert (strip (" " +:+ t') = t') as -> by (rewrite <- Hs' at 2; done).
  rewrite Hp, Hp', Hle, <- Hv. by apply reformatted_same.
Qed.

Lemma set_component_fixed ps v v' c o strict :
  parse_set_component cfg ps v c strict = inr o → has_char ":"%char c = false →
  parse_set_component cfg ps v' o strict = inr o ∧ has_char ":"%char o = false.
Proof.
  unfold parse_set_component. intros Hp Hc.
  destruct (strict && _) eqn:Hres in Hp; [done|].
  destruct (parse_as_number cfg (inl c) false false) as [[t n]|] eqn:E; simpl in Hp.
  - simplify_eq. apply as_number_ok in E as [Hn ->].
    rewrite (bool_decide_false (_ ∈ reserved_words)) by by apply as_text_not_reserved.
    rewrite andb_false_r, parse_as_number_text by done. split; [done|]. by apply as_text_component.
  - destruct (re_generic_name (str_upper c)) eqn:Hg; [|done].
    destruct (strict && negb (starts_with_any ps c)) eqn:Hst; [done|]. simpl in Hp. simplify_eq.
    by rewrite Hres, E, Hg, Hst.
Qed.

Lemma set_components_fixed ps v v' strict cs os :
  parse_set_components cfg ps v strict cs = inr os → Forall (λ c, has_char ":"%char c = false) cs →
  parse_set_components cfg ps v' strict os = inr os ∧ length os = length cs
  ∧ Forall (λ c, has_char ":"%char c = false) os.
Proof.
  revert os. induction cs as [|c cs IH]; intros os Hp Hcs; simpl in Hp; simplify_eq; [done|].
  apply Forall_cons in Hcs as [Hc Hcs].
  destruct (parse_set_component cfg ps v c strict) as [|o] eqn:Ec; [done|].
  destruct (parse_set_components cfg ps v strict cs) as [|os'] eqn:Es; [done|]. simplify_eq.
  destruct (IH os') as (H1 & H2 & H3); [done|done|].
  destruct (set_component_fixed ps v v' c o strict Ec Hc) as [Ho Ho'].
  simpl. rewrite Ho, H1. split; [done|]. split; [by rewrite H2|by constructor].
Qed.

(** A set name keeps a component that starts with the prefix of the set. *)
Definition still_a_set (ps : list string) (v : string) : bool :=
  existsb (starts_with_any ps) (split_on ":"%char v).

Lemma set_name_fixed ps v strict ms r :
  parse_set_name cfg ps v strict = (ms, Some r) →
  (strict = true → still_a_set ps (fr_value r) = true) →
  parse_set_name cfg ps (fr_value r) strict = ([], Some r).
Proof.
  unfold parse_set_name, still_a_set. intros Hp Hst.
  destruct (strict && Nat.ltb 5 _) eqn:H5; [done|].
  destruct (strict && negb _) eqn:Hs in Hp; [done|].
  destruct (parse_set_components cfg ps v strict (split_on ":"%char v)) as [|os] eqn:E; [done|].
  unfold reformatted in Hp. simplify_eq. simpl fr_value in *.
  destruct (set_components_fixed ps v (join ":" os) strict _ os E) as (Hos & Hlen & Hno);
    [apply split_on_pieces|].
  assert (split_on ":"%char (join ":" os) = os) as Hsplit.
  { apply split_on_join; [|done]. intros ->. simpl in Hlen.
    pose proof (split_on_nonempty ":"%char v). by destruct (split_on ":"%char v). }
  rewrite Hsplit in *. rewrite Hlen, H5, Hos.
  assert (strict && negb (existsb (starts_with_any ps) os) = false) as ->.
  { destruct strict; [by rewrite Hst|done]. }
  by apply reformatted_same.
Qed.

Lemma str_filter_fixed p s : str_filter p (str_filter p s) = str_filter p s.
Proof.
  induction s as [|c s IH]; [done|]. simpl. destruct (p c) eqn:E; [|done]. simpl. by rewrite E, IH.
Qed.

(** The single-valued classes that do not denote addresses. *)
Definition single_kind (k : field_kind) : bool :=
  match k with
  | RPSLTextField | RPSLASNumberField | RPSLASBlockField | RPSLSetNameField _ | RPSLEmailField
  | RPSLChangedField | RPSLDNSNameField | RPSLGenericNameField _ _ => true
  | _ => false
  end.

(** Normalisation is idempotent: parsing the value a field was normalised
    to yields that value again, the same AS numbers, and no message - for set
    names, as long as the value still has a set component. *)
Theorem parse_field_idempotent k v strict ms r :
  single_kind k = true → parse_basic cfg k v strict = Ok (ms, Some r) →
  (∀ prefix, k = RPSLSetNameField prefix → strict = true →
             still_a_set [prefix +:+ "-"] (fr_value r) = true) →
  parse_basic cfg k (fr_value r) strict = Ok ([], Some r).
Proof.
  intros Hk Hp Hset. destruct k; try done; cbn [parse_basic] in *; f_equal; injection Hp as Hp.
  - unfold parse_text in *. simplify_eq. simpl. by rewrite str_filter_fixed.
  - by apply (as_number_field_fixed v ms).
  - by apply (as_block_fixed v ms).
  - apply (set_name_fixed _ v strict ms); [done|]. by apply Hset.
  - unfold parse_email in *. destruct (re_email v) eqn:E; simplify_eq. simpl. by rewrite E.
  - assert (fr_value r = v ∧ ms = []) as [Hv ->]; [|by rewrite Hv].
    unfold parse_changed, fail in Hp. repeat case_match; by simplify_eq.
  - unfold parse_dns_name in *. destruct (re_dnsname v) eqn:E; simplify_eq. simpl. by rewrite E.
  - assert (fr_value r = v ∧ ms = []) as [Hv ->]; [|by rewrite Hv].
    unfold parse_generic_name, fail in Hp. repeat case_match; by simplify_eq.
Qed.
End Idempotent.

Module FieldExamples.
Import ConcreteIP.
Lemma parse_field_idempotent_witness :
  parse_basic (conf_of VNone) (RPSLSetNameField "AS") "AS65537:AS-x" true
  = Ok ([], Some (fr_plain "AS65537:AS-x")).
Proof.
  refine (parse_field_idempotent (conf_of VNone) (RPSLSetNameField "AS") "as065537:AS-x" true
    (msg_info "Set name as065537:AS-x was reformatted as AS65537:AS-x") (fr_plain "AS65537:AS-x")
    eq_refl _ _).
  - reflexivity.
  - intros prefix [= <-] _. vm_compute. reflexivity.
Defined.

(** [AS-0] reads as the AS number 0, so the name of a set becomes one that is
    not the name of a set. *)
Example set_name_minus_zero :
  parse_basic (conf_of VNone) (RPSLSetNameField "AS") "AS-0" true
  = Ok (msg_info "Set name AS-0 was reformatted as AS0", Some (fr_plain "AS0")).
Proof. reflexivity. Qed.
End FieldExamples.
