(* ===== verification/RpslParser.v ===== *)
(** * RPSL objects ([irrd/rpsl/parser.py], methods of [irrd/rpsl/rpsl_objects.py])

    Parsing a text into attributes, validating and indexing them, rendering the
    object again, and the class-specific steps of mntner, key-cert and sets.
    GnuPG is a parameter. *)
From S2P Require Import Prelude PyStr Conf Net Models Text Fields RpslObjects.

Section RpslObject.
Context `{IPyLib} (cfg : configuration).
(** [gpg.import_keys]: the fingerprints, and the text of the first result. *)
Context (gpg_import_keys : string → list string * option string).
(** [gpg.list_keys(keys=fingerprint)[0]["uids"]]. *)
Context (gpg_uids : string → list string).

(** The metadata attributes set while parsing keys. *)
Record metadata := {
  md_ip_first : option IP;
  md_ip_last : option IP;
  md_asn_first : option Z;
  md_asn_last : option Z;
  md_prefix : option IP;
  md_prefix_length : option Z;
}.
Definition metadata_none : metadata := {|
  md_ip_first := None; md_ip_last := None; md_asn_first := None; md_asn_last := None;
  md_prefix := None; md_prefix_length := None |}.

(** One element of [_object_data]: attribute, value, continuation characters. *)
Definition attribute : Type := string * string * string.

Record RPSLObject := {
  o_class : rpsl_class;
  o_messages : messages_;
  o_object_data : list attribute;
  o_strict_validation : bool;
  o_default_source : option string;
  o_parsed_data : gmap string pdata;
  o_metadata : metadata;
  o_pk_asn_segment : option string;
}.
Definition o_class_name (o : RPSLObject) : string := rpsl_object_class (o_class o).

Definition set_state (o : RPSLObject) (ms : messages_) (data : list attribute)
    (pd : gmap string pdata) (md : metadata) : RPSLObject := {|
  o_class := o_class o; o_messages := ms; o_object_data := data;
  o_strict_validation := o_strict_validation o; o_default_source := o_default_source o;
  o_parsed_data := pd; o_metadata := md; o_pk_asn_segment := o_pk_asn_segment o |}.
Definition add_messages (ms : messages_) (o : RPSLObject) : RPSLObject :=
  set_state o (o_messages o ++ ms) (o_object_data o) (o_parsed_data o) (o_metadata o).

(** ** Identity *)

Definition pk (o : RPSLObject) : string :=
  str_upper (concat_str ((λ f, pdata_str (o_parsed_data o !! f)) <$> pk_fields (o_class o))).

Definition source (o : RPSLObject) : res string :=
  match o_parsed_data o !! "source" with
  | Some (PStr s) => Ok s
  | _ => Raise (ValueError "RPSL object has no known source")
  end.

Definition o_ip_version (o : RPSLObject) : option Z := ip_version <$> md_ip_first (o_metadata o).

(** Strong references: field, classes referred to, values. *)
Definition referred_strong_objects (o : RPSLObject) : list (string * list string * pdata) :=
  omap (λ fr : string * list string,
          match o_parsed_data o !! fr.1 with
          | Some (PStr "") | Some (PList []) | None => None
          | Some data => Some (fr.1, fr.2, data)
          end) (referring_strong_fields (o_class o)).

(** ** Extracting attributes *)

Definition is_continuation (c : ascii) : bool := bool_decide (c ∈ [ch_space; "+"%char; ch_tab]).
Definition re_attr_name (s : string) : bool :=
  all1 (λ c, has_char c "abcdefghijklmnopqrstuvwxyz0123456789_-") (chomp_nl s).

Definition save_attr (discarded : list string) (cur : option attribute) : list attribute :=
  match cur with
  | Some (a, v, cs) =>
      if String.eqb a "" || bool_decide (a ∈ discarded) then [] else [(a, v, cs)]
  | None => []
  end.

Definition line_error (line_no : nat) (what text : string) : messages_ :=
  msg_error ("Line " +:+ str_of_Z (Z.of_nat (S line_no)) +:+ ": " +:+ what +:+ ": [" +:+ text +:+ "]").

Fixpoint extract_loop (c : rpsl_class) (line_no : nat) (cur : option attribute)
    (lines : list string) : messages_ * list attribute :=
  match lines with
  | [] => ([], save_attr (c_discarded_fields c) cur)
  | "" :: _ => (line_error line_no "encountered empty line in the middle of object" "", [])
  | (String ch rest as line) :: lines' =>
      if is_continuation ch then
        extract_loop c (S line_no)
          ((λ '(a, v, cs), (a, v +:+ NL +:+ strip rest, cs +:+ String ch "")) <$> cur) lines'
      else
        let saved := save_attr (c_discarded_fields c) cur in
        match split_once ":"%char line with
        | None => (msg_error ("Line " +:+ str_of_Z (Z.of_nat (S line_no))
                     +:+ ": line is neither continuation nor valid attribute [" +:+ line +:+ "]"), saved)
        | Some (a, v) =>
            let current_attr := str_lower a in
            if negb (bool_decide (current_attr ∈ attrs_allowed c)) && negb (re_attr_name current_attr)
            then (line_error line_no "encountered malformed attribute name" current_attr, saved)
            else
              let '(ms, data) := extract_loop c (S line_no) (Some (current_attr, strip v, "")) lines' in
              (ms, saved ++ data)
        end
  end.
Definition _extract_attributes_values (c : rpsl_class) (text : string) : messages_ * list attribute :=
  extract_loop c 0 None (splitline_unicodesafe (strip text)).

(** ** Validation *)

Definition attr_count (data : list attribute) (name : string) : nat :=
  length (List.filter (λ a : attribute, String.eqb a.1.1 name) data).
Definition attrs_present (data : list attribute) : list string :=
  oset_update [] ((λ a : attribute, a.1.1) <$> data).
Definition quoted (s : string) : string := String "034" (s +:+ String "034" "").

Definition count_messages (c : rpsl_class) (data : list attribute) (attr_name : string) : messages_ :=
  if bool_decide (attr_name ∈ ignored_validation_fields) then []
  else
    (if bool_decide (attr_name ∈ attrs_allowed c) then []
     else msg_error ("Unrecognised attribute " +:+ attr_name +:+ " on object " +:+ rpsl_object_class c))
    ++ (if Nat.ltb 1 (attr_count data attr_name) && negb (bool_decide (attr_name ∈ attrs_multiple c))
        then msg_error ("Attribute " +:+ quoted attr_name +:+ " on object " +:+ rpsl_object_class c
                        +:+ " occurs multiple times, but is only allowed once")
        else []).
Definition _validate_attribute_counts (c : rpsl_class) (strict : bool) (default_source : option string)
    (data : list attribute) : messages_ :=
  if strict then
    concat (count_messages c data <$> attrs_present data)
    ++ concat ((λ r, if bool_decide (r ∈ attrs_present data) then []
                     else msg_error ("Mandatory attribute " +:+ quoted r +:+ " on object "
                                     +:+ rpsl_object_class c +:+ " is missing"))
                 <$> attrs_required c)
  else
    concat ((λ r, if bool_decide (r ∈ attrs_present data) then []
                  else msg_error ("Primary key attribute " +:+ quoted r +:+ " on object "
                                  +:+ rpsl_object_class c +:+ " is missing"))
              <$> (pk_fields c ++ match default_source with
                                  | Some s => if String.eqb s "" then ["source"] else []
                                  | None => ["source"]
                                  end)).

Definition _normalise_rpsl_value (value : string) : string :=
  let before_hash s := match split_once "#"%char s with Some (a, _) => a | None => s end in
  if has_char ch_nl value then
    join "," (List.filter (λ l, negb (String.eqb l ""))
      ((λ line, strip_chars (NL +:+ String ch_tab ", ") (before_hash line))
         <$> splitline_unicodesafe value))
  else strip (before_hash value).

(** Storing the value of one attribute in [parsed_data]. *)
Definition store_value (f : field) (attr_name : string) (r : RPSLFieldParseResult)
    (pd : gmap string pdata) : gmap string pdata :=
  let up s := if keep_case (f_kind f) then s else str_upper s in
  match fr_values_list r with
  | (_ :: _) as values_list =>
      <[attr_name := PList (pdata_list (pd !! attr_name) ++ (up <$> values_list))]> pd
  | [] =>
      let parsed_value_str := up (fr_value r) in
      if f_multiple f
      then <[attr_name := PList (pdata_list (pd !! attr_name) ++ [parsed_value_str])]> pd
      else match pd !! attr_name with
           | Some _ => <[attr_name := PStr (NL +:+ parsed_value_str)]> pd
           | None => <[attr_name := PStr parsed_value_str]> pd
           end
  end.

(** One of the metadata attributes: what it becomes, or the [ValueError]. *)
Definition set_metadata {A} (truthy_ : A → bool) (show : A → string) (allow_invalid : bool)
    (name value : string) (existing new : option A) : res (option A) :=
  match new with
  | None => Ok existing
  | Some n =>
      match existing with
      | Some e =>
          if truthy_ e && negb allow_invalid
          then Raise (ValueError ("Parsing of " +:+ value +:+ " reads " +:+ show n +:+ " for " +:+ name
                                  +:+ ",but value " +:+ show e +:+ " is already set."))
          else Ok (Some n)
      | None => Ok (Some n)
      end
  end.
Definition nonzero (z : Z) : bool := negb (z =? 0)%Z.
Definition always {A} (_ : A) : bool := true.
Definition store_metadata (f : field) (r : RPSLFieldParseResult) (allow_invalid : bool) (md : metadata)
  : res metadata :=
  if f_primary_key f || f_lookup_key f then
    let v := fr_value r in
    ip_first ← set_metadata always ip_str allow_invalid "ip_first" v (md_ip_first md) (fr_ip_first r);
    ip_last ← set_metadata always ip_str allow_invalid "ip_last" v (md_ip_last md) (fr_ip_last r);
    asn_first ← set_metadata nonzero str_of_Z allow_invalid "asn_first" v (md_asn_first md) (fr_asn_first r);
    asn_last ← set_metadata nonzero str_of_Z allow_invalid "asn_last" v (md_asn_last md) (fr_asn_last r);
    prefix ← set_metadata always ip_str allow_invalid "prefix" v (md_prefix md) (fr_prefix r);
    prefix_length ← set_metadata nonzero str_of_Z allow_invalid "prefix_length" v
                      (md_prefix_length md) (fr_prefix_length r);
    Ok {| md_ip_first := ip_first; md_ip_last := ip_last; md_asn_first := asn_first;
          md_asn_last := asn_last; md_prefix := prefix; md_prefix_length := prefix_length |}
  else Ok md.

Definition parse_state : Type := messages_ * gmap string pdata * metadata.

(** One step of the loop: the state and the attribute, rewritten when the
    parsed value differs from the normalised one. *)
Definition parse_attribute (c : rpsl_class) (strict allow_invalid : bool) (st : parse_state)
    (a : attribute) : res (parse_state * attribute) :=
  let '(ms, pd, md) := st in
  let '(attr_name, value, cs) := a in
  match assoc attr_name (c_fields c) with
  | None => Ok (st, a)
  | Some f =>
      let normalised_value := _normalise_rpsl_value value in
      let raise_errors := strict || f_primary_key f || f_lookup_key f || String.eqb attr_name "source" in
      '(field_messages, parsed_value) ← parse_field cfg class_pk_field (f_kind f) normalised_value strict;
      let ms := if raise_errors then ms ++ field_messages else ms in
      match parsed_value with
      | None => Ok ((ms, pd, md), a)
      | Some r =>
          let a := if String.eqb (fr_value r) normalised_value then a
                   else (attr_name, replace_all normalised_value (fr_value r) value, cs) in
          md ← store_metadata f r allow_invalid md;
          Ok ((ms, store_value f attr_name r pd, md), a)
      end
  end.
Fixpoint parse_attributes (c : rpsl_class) (strict allow_invalid : bool) (st : parse_state)
    (data : list attribute) : res (parse_state * list attribute) :=
  match data with
  | [] => Ok (st, [])
  | a :: data' =>
      '(st, a') ← parse_attribute c strict allow_invalid st a;
      '(st, rest) ← parse_attributes c strict allow_invalid st data';
      Ok (st, a' :: rest)
  end.
Definition _parse_attribute_data (o : RPSLObject) (allow_invalid_metadata : bool) : res RPSLObject :=
  '((ms, pd, md), data) ←
    parse_attributes (o_class o) (o_strict_validation o) allow_invalid_metadata
      (o_messages o, o_parsed_data o, o_metadata o) (o_object_data o);
  let pd := match pd !! "source", o_default_source o with
            | None, Some s => if String.eqb s "" then pd else <["source" := PStr s]> pd
            | _, _ => pd
            end in
  Ok (set_state o ms data pd md).

(** ** Updating an attribute *)

Definition _update_attribute_value (o : RPSLObject) (attribute : string) (new_values : list string)
    (flatten : bool) : RPSLObject :=
  let pd := <[attribute := if flatten then PStr (join NL new_values) else PList new_values]>
              (o_parsed_data o) in
  let kept := List.filter (λ a : string * string * string, negb (String.eqb a.1.1 attribute))
                (o_object_data o) in
  let inserted := (λ v, (attribute, v, "")) <$> new_values in
  set_state o (o_messages o) (take 1 kept ++ inserted ++ drop 1 kept) pd (o_metadata o).

(** ** mntner *)

Definition auth_values (o : RPSLObject) : list string := pdata_list (o_parsed_data o !! "auth").
(** [_auth_lines(password_hashes=True)]: scheme and hash. *)
Definition auth_hash_lines (o : RPSLObject) : list (string * string) :=
  omap (split_once " "%char) (auth_values o).
(** [_auth_lines(password_hashes=False)]. *)
Definition auth_other_lines (o : RPSLObject) : list string :=
  List.filter (λ a, negb (has_char " "%char a)) (auth_values o).
Definition is_dummy (h : string * string) : bool := String.eqb h.2 PASSWORD_HASH_DUMMY_VALUE.

Definition mntner_clean (o : RPSLObject) : RPSLObject :=
  let hashes := auth_hash_lines o in
  if existsb is_dummy hashes && negb (forallb is_dummy hashes)
  then add_messages (msg_error
         "Either all password auth hashes in a submitted mntner must be dummy objects, or none.") o
  else o.
Definition has_dummy_auth_value (o : RPSLObject) : bool :=
  match auth_hash_lines o with [] => false | hashes => forallb is_dummy hashes end.
Definition verify_auth (hasher_verify : string → string → string → option bool) (o : RPSLObject)
    (passwords : list string) (keycert_obj_pk : option string) : res (option string) :=
  verify_auth_lines hasher_verify cfg (auth_values o) passwords keycert_obj_pk.
(** [bcrypt.hash] is a parameter. *)
Definition force_single_new_password (bcrypt_hash : string → string) (o : RPSLObject) (password : string)
  : RPSLObject :=
  _update_attribute_value o "auth" (auth_other_lines o ++ ["BCRYPT-PW " +:+ bcrypt_hash password]) false.
Definition add_irrd_internal_auth (o : RPSLObject) : RPSLObject :=
  _update_attribute_value o "auth" (RPSL_MNTNER_AUTH_INTERNAL :: auth_values o) false.
Definition has_internal_auth (o : RPSLObject) : bool :=
  bool_decide (RPSL_MNTNER_AUTH_INTERNAL ∈ auth_values o).

(** ** key-cert *)

Definition format_fingerprint (fingerprint : string) : string :=
  join " " (concat ((λ i, let part := String.substring (4 * i) 4 fingerprint in
                          if Nat.eqb i 4 then [part; ""] else [part]) <$> seq 0 10)).

Definition keycert_clean (o : RPSLObject) : RPSLObject :=
  let certif_data := replace_char ","%char NL (join NL (pdata_list (o_parsed_data o !! "certif"))) in
  let '(fingerprints, result_text) := gpg_import_keys certif_data in
  match fingerprints with
  | [fingerprint] =>
      let expected := "PGPKEY-" +:+ str_drop (String.length fingerprint - 8) fingerprint in
      let actual := str_upper (pdata_str (o_parsed_data o !! "key-cert")) in
      let formatted := format_fingerprint fingerprint in
      if String.eqb expected actual then
        let o := _update_attribute_value o "fingerpr" [formatted] true in
        let o := _update_attribute_value o "owner" (gpg_uids fingerprint) true in
        _update_attribute_value o "method" ["PGP"] true
      else add_messages (msg_error ("Invalid object name " +:+ actual
             +:+ ": does not match key fingerprint " +:+ formatted +:+ ", expected object name " +:+ expected)) o
  | _ =>
      let msg := "Unable to read public PGP key: key corrupt or multiple keys provided" in
      add_messages (msg_error (match result_text with Some t => msg +:+ ": " +:+ t | None => msg end)) o
  end.

Definition clean (o : RPSLObject) : RPSLObject :=
  if String.eqb (o_class_name o) "mntner" then mntner_clean o
  else if String.eqb (o_class_name o) "key-cert" then keycert_clean o
  else o.

(** ** Sets *)

Definition setting_is_false (v : pyval) : bool := match v with VBool false => true | _ => false end.
Definition clean_for_create (o : RPSLObject) : RPSLObject * bool :=
  if negb (c_is_set (o_class o)) then (o, true)
  else
    let segment := hd "" (split_on ":"%char (pk o)) in
    let with_segment s := {|
      o_class := o_class o; o_messages := o_messages o; o_object_data := o_object_data o;
      o_strict_validation := o_strict_validation o; o_default_source := o_default_source o;
      o_parsed_data := o_parsed_data o; o_metadata := o_metadata o; o_pk_asn_segment := s |} in
    match parse_as_number cfg (inl segment) false false with
    | Ok _ => (with_segment (Some segment), true)
    | Raise ve =>
        let o' := with_segment None in
        let required key := get_setting cfg ("auth.set_creation." +:+ key +:+ ".prefix_required") in
        if setting_is_false (required (o_class_name o))
           || setting_is_false (required AUTH_SET_CREATION_COMMON_KEY)
        then (o', true)
        else (add_messages (msg_error (o_class_name o +:+ " names must be hierarchical and the first "
                +:+ "component must be an AS number, e.g. " +:+ String "034" ("AS65537:None" +:+ String "034" "")
                +:+ ": " +:+ exn_str ve)) o', false)
    end.

(** ** Construction *)

Definition _validate_object (o : RPSLObject) : res RPSLObject :=
  let o := set_state o (o_messages o) (o_object_data o) ∅ (o_metadata o) in
  let o := if has_errors (o_messages o) then o
           else add_messages (_validate_attribute_counts (o_class o) (o_strict_validation o)
                                (o_default_source o) (o_object_data o)) o in
  o ← _parse_attribute_data o (has_errors (o_messages o));
  Ok (if o_strict_validation o && negb (has_errors (o_messages o)) then clean o else o).

Definition RPSLObject_init (c : rpsl_class) (text : string) (strict : bool) (default_source : option string)
  : res RPSLObject :=
  let '(ms, data) := _extract_attributes_values c text in
  _validate_object {|
    o_class := c; o_messages := ms; o_object_data := data; o_strict_validation := strict;
    o_default_source := match default_source with
                        | Some s => if String.eqb s "" then None else Some (str_upper (strip s))
                        | None => None
                        end;
    o_parsed_data := ∅; o_metadata := metadata_none; o_pk_asn_segment := None |}.

Definition rpsl_object_from_text (text : string) (strict : bool) (default_source : option string)
  : res RPSLObject :=
  let rpsl_object_class := strip (hd "" (split_on ":"%char text)) in
  match class_of rpsl_object_class with
  | None => Raise (UnknownRPSLObjectClassException
                     ("unknown object class: " +:+ rpsl_object_class) rpsl_object_class)
  | Some c => RPSLObject_init c text strict default_source
  end.

(** ** Rendering *)

Fixpoint render_lines (attr_display : string) (idx : nat) (cs : string) (lines : list string) : res string :=
  match lines with
  | [] => Ok ""
  | line :: lines' =>
      head ← (if Nat.eqb idx 0 then Ok (attr_display +:+ line)
              else match String.get (idx - 1) cs with
                   | None => Raise IndexError
                   | Some c =>
                       let continuation := if String.eqb line "" then "+"%char else c in
                       Ok (String continuation (repeat_char (RPSL_ATTRIBUTE_TEXT_WIDTH - 1) ch_space +:+ line))
                   end);
      rest ← render_lines attr_display (S idx) cs lines';
      Ok (head +:+ NL +:+ rest)
  end.
Definition render_attribute (a : attribute) : res string :=
  let '(attr, value, cs) := a in
  match splitline_unicodesafe value with
  | [] => Ok (attr +:+ ":" +:+ NL)
  | value_lines => render_lines (ljust RPSL_ATTRIBUTE_TEXT_WIDTH (attr +:+ ":")) 0 cs value_lines
  end.
Fixpoint render_data (data : list attribute) : res string :=
  match data with
  | [] => Ok ""
  | a :: data' => s ← render_attribute a; rest ← render_data data'; Ok (s +:+ rest)
  end.
(** [last_modified] is given as the text of the timestamp. *)
Definition render_rpsl_text (o : RPSLObject) (last_modified : option string) : res string :=
  src ← source o;
  let authoritative := truthy (source_setting cfg src "authoritative") in
  let retain := truthy (source_setting cfg src "authoritative_retain_last_modified") in
  match (if authoritative && negb retain then last_modified else None) with
  | Some timestamp =>
      output ← render_data (List.filter (λ a : attribute, negb (String.eqb a.1.1 "last-modified"))
                              (o_object_data o));
      Ok (output +:+ ljust RPSL_ATTRIBUTE_TEXT_WIDTH "last-modified:" +:+ timestamp +:+ NL)
  | None => render_data (o_object_data o)
  end.

(** ** Template *)

Definition template_line (max_name_width : nat) (nf : string * field) : string :=
  let '(name, f) := nf in
  let mandatory := if f_optional f then "[optional] " else "[mandatory]" in
  let single := if f_multiple f then "[multiple]" else "[single]  " in
  let metadata :=
    (if f_primary_key f && f_lookup_key f then ["primary/look-up key"]
     else if f_primary_key f then ["primary key"]
     else if f_lookup_key f then ["look-up key"] else [])
    ++ match referring_of (f_kind f) with
       | [] => []
       | r => [(if strong_of (f_kind f) then "strong" else "weak") +:+ " references " +:+ join "/" r]
       end in
  name +:+ ": " +:+ repeat_char (max_name_width - String.length name) ch_space +:+ "  " +:+ mandatory
  +:+ "  " +:+ single +:+ "  [" +:+ join ", " metadata +:+ "]" +:+ NL.
Definition generate_template (c : rpsl_class) : string :=
  concat_str (template_line (foldr Nat.max 0 (String.length <$> (c_fields c).*1)) <$> c_fields c).
End RpslObject.
Arguments RPSLObject {_}.
Arguments metadata {_}.
