(* ===== verification/RpslTheory.v ===== *)
(** * Correctness of RPSL parsing and rendering *)
From S2P Require Import Prelude PyStr Conf Net Models Text TextTheory Fields FieldsTheory RpslObjects RpslParser.

(** ** Rendering and extracting are inverse *)

(** A line of a value: without surrounding white space, possibly empty. *)
Record line_ok (l : string) : Prop := {
  line_stripped : strip l = l;
  line_nl : has_char ch_nl l = false;
}.
Definition attr_char (c : ascii) : bool := has_char c "abcdefghijklmnopqrstuvwxyz0123456789_-".
(** A value as extraction leaves it: a continuation character for each line but the first. *)
Definition value_ok (v cs : string) : Prop :=
  Forall line_ok (split_on ch_nl v) ∧ length (split_on ch_nl v) = S (String.length cs)
  ∧ str_all is_continuation cs = true.
(** An attribute as the parser leaves it in [_object_data]. *)
Definition attribute_ok (c : rpsl_class) (a : attribute) : Prop :=
  all1 attr_char a.1.1 = true ∧ a.1.1 ∉ c_discarded_fields c ∧ value_ok a.1.2 a.2.

(** The continuation characters that rendering writes: the stored ones by position,
    and a plus sign before an empty line. *)
Fixpoint marks (cs : string) (ls : list string) : string :=
  match cs, ls with
  | String k cs', l :: ls' => String (if String.eqb l "" then "+"%char else k) (marks cs' ls')
  | _, _ => ""
  end.
(** What rendering and extracting make of an attribute: the empty lines at the ends of the
    value are gone. *)
Definition canonical (a : attribute) : attribute :=
  match splitline_unicodesafe a.1.2 with
  | [] => (a.1.1, "", "")
  | l :: ls => (a.1.1, join NL (l :: ls), marks a.2 ls)
  end.
(** Attributes that are left as they are. *)
Definition stable (a : attribute) : Prop :=
  (a.1.2 = "" ∧ a.2 = "") ∨
  ∃ l ls, a.1.2 = join NL (l :: ls) ∧ l ≠ "" ∧ List.last (l :: ls) "" ≠ ""
          ∧ Forall (λ x, has_char ch_nl x = false) (l :: ls)
          ∧ String.length a.2 = length ls ∧ marks a.2 ls = a.2.

Fixpoint continuation_lines (cs : string) (ls : list string) : list string :=
  match cs, ls with
  | String c cs', l :: ls' =>
      String c (repeat_char (RPSL_ATTRIBUTE_TEXT_WIDTH - 1) ch_space +:+ l) :: continuation_lines cs' ls'
  | _, _ => []
  end.
Definition attr_lines (a : attribute) : list string :=
  match splitline_unicodesafe a.1.2 with
  | [] => [a.1.1 +:+ ":"]
  | l :: ls => (ljust RPSL_ATTRIBUTE_TEXT_WIDTH (a.1.1 +:+ ":") +:+ l) :: continuation_lines (marks a.2 ls) ls
  end.

(** *** Lines *)

Definition clean_line (l : string) : Prop := has_char ch_nl l = false ∧ strip_chars CR l = l.

Lemma has_char_all c s p :
  (∀ d, p d = true → d ≠ c) → str_all p s = true → has_char c s = false.
Proof.
  intros Hp. induction s as [|d s IH]; [done|]. simpl. intros [Hd Hs]%andb_true_iff.
  rewrite has_char_cons, IH by done. rewrite bool_decide_false; [done|]. intros ->. by apply (Hp d).
Qed.

Lemma has_char_repeat c n d : c ≠ d → has_char c (repeat_char n d) = false.
Proof. intros Hn. induction n as [|n IH]; [done|]. simpl. by rewrite has_char_cons, IH, bool_decide_false. Qed.

Lemma line_ends l :
  line_ok l → l ≠ "" →
  (∃ k s, l = String k s ∧ is_space k = false) ∧ (∃ s d, l = s +:+ String d "" ∧ is_space d = false).
Proof. intros [Hs _] Hne. by apply strip_if_fix_ends. Qed.

Lemma space_not_cr d : is_space d = false → has_char d CR = false.
Proof. intros Hd. apply has_char_one. intros ->. by vm_compute in Hd. Qed.

Lemma no_cr_clean l : has_char ch_nl l = false → has_char ch_cr l = false → clean_line l.
Proof.
  intros Hn Hr. split; [done|]. apply strip_if_id. change CR with (String ch_cr "").
  eapply str_all_mono; [|by apply no_char_all]. intros e He.
  apply negb_true_iff, bool_decide_eq_false in He. by rewrite has_char_one by congruence.
Qed.

Lemma clean_app k pre l :
  has_char ch_nl (String k pre) = false → has_char ch_cr (String k pre) = false → line_ok l →
  clean_line (String k pre +:+ l).
Proof.
  intros Hn Hr Hl. destruct (decide (l = "")) as [->|Hne].
  { rewrite str_app_nil_r. by apply no_cr_clean. }
  destruct (line_ends l Hl Hne) as (_ & s & d & -> & Hd). destruct Hl as [_ Hln].
  split; [by rewrite has_char_app, Hn, Hln|].
  eapply (strip_if_both _ _ k (pre +:+ s +:+ String d "") (String k pre +:+ s) d); [done|by rewrite str_app_assoc| |].
  - rewrite has_char_cons, orb_false_iff, bool_decide_eq_false in Hr. apply has_char_one. naive_solver.
  - by apply space_not_cr.
Qed.

Lemma join_last_char sep l ls (P : ascii → Prop) :
  (∃ s c, List.last (l :: ls) "" = s +:+ String c "" ∧ P c) →
  ∃ s c, join sep (l :: ls) = s +:+ String c "" ∧ P c.
Proof.
  revert l. induction ls as [|l' ls IH]; intros l Hl; [exact Hl|].
  destruct (IH l' Hl) as (s & c & E & Hc). exists (l +:+ sep +:+ s), c.
  by rewrite join_cons, E, !str_app_assoc.
Qed.

Lemma last_nonempty_char s : s ≠ "" → has_char ch_nl s = false → ∃ r c, s = r +:+ String c "" ∧ c ≠ ch_nl.
Proof.
  intros Hs Hn. destruct (str_snoc s Hs) as (r & c & ->). exists r, c. split; [done|].
  rewrite has_char_app, orb_false_iff, has_char_cons, orb_false_iff, bool_decide_eq_false in Hn. naive_solver.
Qed.

Lemma strip_nl_join l ls :
  Forall (λ x, has_char ch_nl x = false) (l :: ls) → l ≠ "" → List.last (l :: ls) "" ≠ "" →
  strip_chars NL (join NL (l :: ls)) = join NL (l :: ls).
Proof.
  intros Hall Hl Hlast. destruct l as [|c l]; [done|]. pose proof Hall as [Hn _]%Forall_cons.
  rewrite has_char_cons, orb_false_iff, bool_decide_eq_false in Hn.
  assert (∃ s d, List.last (String c l :: ls) "" = s +:+ String d "" ∧ d ≠ ch_nl) as Hd.
  { apply last_nonempty_char; [done|].
    clear -Hall. revert Hall. generalize (String c l). induction ls as [|x ls IH]; intros y Hall.
    - by apply Forall_cons in Hall as [? _].
    - apply Forall_cons in Hall as [_ Hall]. by apply IH. }
  apply (join_last_char NL) in Hd as (s & d & E & Hd).
  assert (∃ t, join NL (String c l :: ls) = String c t) as [t Ht] by (destruct ls; simpl; eauto).
  apply (strip_if_both _ _ c t s d); try done; apply has_char_one; naive_solver.
Qed.

Lemma splitline_clean ls :
  ls ≠ [] → Forall clean_line ls → strip_chars NL (join NL ls) = join NL ls → join NL ls ≠ "" →
  splitline_unicodesafe (join NL ls) = ls.
Proof.
  intros Hls Hall Hs Hne. unfold splitline_unicodesafe. rewrite (proj2 (String.eqb_neq _ "")) by done.
  rewrite Hs, split_on_join; [|done|eapply Forall_impl; [exact Hall|by intros ? []]].
  clear -Hall. induction Hall as [|w ws [_ Hw] Hws IH]; [done|]. csimpl. by rewrite IH, Hw.
Qed.

Lemma splitline_join l ls :
  Forall clean_line (l :: ls) → l ≠ "" → List.last (l :: ls) "" ≠ "" →
  splitline_unicodesafe (join NL (l :: ls)) = l :: ls.
Proof.
  intros Hall Hl Hlast. apply splitline_clean; [done|done| |by destruct l, ls].
  apply strip_nl_join; [|done|done]. eapply Forall_impl; [exact Hall|by intros ? []].
Qed.

(** *** The lines of a value *)

Lemma split_lstrip p v :
  (∀ d, p d = true → d = ch_nl) → ∃ pre, split_on ch_nl v = pre ++ split_on ch_nl (lstrip_if p v).
Proof.
  intros Hp. induction v as [|d v [pre IH]]; [by exists []|]. cbn [lstrip_if].
  destruct (p d) eqn:Hd; [|by exists []]. apply Hp in Hd as ->.
  exists ("" :: pre). simpl. by rewrite IH.
Qed.

Lemma split_rstrip p v :
  (∀ d, p d = true → d = ch_nl) → ∃ post, split_on ch_nl v = split_on ch_nl (rstrip_if p v) ++ post.
Proof.
  intros Hp. induction v as [|d v [post IH]]; [by exists []|]. cbn [rstrip_if split_on].
  destruct (rstrip_if p v) as [|e r] eqn:E.
  - rewrite IH. destruct (p d) eqn:Hd.
    + apply Hp in Hd as ->. by eexists.
    + cbn [split_on]. case_bool_decide; by eexists.
  - rewrite IH. remember (String e r) as w eqn:Hw. cbn [split_on].
    pose proof (split_on_nonempty ch_nl w). case_bool_decide; [by eexists|].
    destruct (split_on ch_nl w) as [|x xs]; [done|]. by eexists.
Qed.

Lemma last_split r d : d ≠ ch_nl → List.last (split_on ch_nl (r +:+ String d "")) "" ≠ "".
Proof.
  intros Hd. induction r as [|e r IH]; [simpl; by rewrite bool_decide_false|].
  cbn [String.append split_on]. pose proof (split_on_nonempty ch_nl (r +:+ String d "")) as Hne.
  destruct (split_on ch_nl (r +:+ String d "")) as [|w ws]; [done|].
  case_bool_decide; [exact IH|]. by destruct ws.
Qed.

Lemma nl_only d : has_char d NL = true → d = ch_nl.
Proof. intros H. destruct (decide (d = ch_nl)) as [|Hne]; [done|]. change NL with (String ch_nl "") in H. by rewrite has_char_one in H. Qed.

(** Without the line breaks at its ends, a value is empty, or its first and last lines are not. *)
Lemma strip_nl_split v :
  strip_chars NL v = "" ∨
  ∃ l ls, split_on ch_nl (strip_chars NL v) = l :: ls ∧ l ≠ "" ∧ List.last (l :: ls) "" ≠ "".
Proof.
  destruct (decide (strip_chars NL v = "")) as [|Hne]; [by left|right].
  destruct (strip_if_fix_ends (λ c, has_char c NL) (strip_chars NL v)) as [(c & s & E & Hc) (r & d & E' & Hd)];
    [apply strip_if_twice|done|].
  assert (∀ x, has_char x NL = false → x ≠ ch_nl) as Hx by (intros x Hx ->; by vm_compute in Hx).
  pose proof (last_split r d (Hx _ Hd)) as Hlast. rewrite <- E', E in Hlast. rewrite E.
  cbn [split_on] in *. rewrite bool_decide_false in * by (intros <-; by apply (Hx _ Hc)).
  destruct (split_on ch_nl s) as [|w ws]; eauto 10.
Qed.

Lemma strip_nl_sub v : ∃ pre post, split_on ch_nl v = pre ++ split_on ch_nl (strip_chars NL v) ++ post.
Proof.
  destruct (split_lstrip (λ c, has_char c NL) v nl_only) as [pre ->].
  destruct (split_rstrip (λ c, has_char c NL) (lstrip_if (λ c, has_char c NL) v) nl_only) as [post ->].
  by exists pre, post.
Qed.

Lemma value_lines v cs :
  value_ok v cs →
  (splitline_unicodesafe v = [] ∧ v = "" ∧ cs = "") ∨
  ∃ l ls, splitline_unicodesafe v = l :: ls ∧ Forall line_ok (l :: ls) ∧ length ls ≤ String.length cs
          ∧ ((l = "" ∧ ls = []) ∨ (l ≠ "" ∧ List.last (l :: ls) "" ≠ "")).
Proof.
  intros (Hall & Hlen & _). destruct (decide (v = "")) as [->|Hv].
  { left. split_and!; [done|done|]. by destruct cs. }
  right. unfold splitline_unicodesafe. rewrite (proj2 (String.eqb_neq _ "")) by done.
  destruct (strip_nl_sub v) as (pre & post & E). rewrite E in Hall, Hlen.
  rewrite !Forall_app in Hall. destruct Hall as (_ & Hall & _). rewrite !length_app in Hlen.
  assert ((λ l, strip_chars CR l) <$> split_on ch_nl (strip_chars NL v) = split_on ch_nl (strip_chars NL v)) as ->.
  { clear -Hall. induction Hall as [|w ws Hw Hws IH]; [done|]. csimpl. rewrite IH. f_equal.
    destruct w as [|k w]; [done|]. destruct (line_ends _ Hw) as ((? & ? & E & Hk) & ? & ? & E' & Hd); [done|].
    eapply strip_if_both; [exact E|exact E'| |]; by apply space_not_cr. }
  destruct (strip_nl_split v) as [E0|(l & ls & E0 & Hends)]; rewrite E0 in *.
  - exists "", []. split_and!; [done|exact Hall|simpl; lia|by left].
  - exists l, ls. split_and!; [done|done|simpl in Hlen; lia|by right].
Qed.

Lemma marks_length cs ls : length ls ≤ String.length cs → String.length (marks cs ls) = length ls.
Proof.
  revert cs. induction ls as [|l ls IH]; intros [|k cs] H; simpl in *; try done; [lia|].
  rewrite IH by lia. done.
Qed.
Lemma marks_continuation cs ls : str_all is_continuation cs = true → str_all is_continuation (marks cs ls) = true.
Proof.
  revert cs. induction ls as [|l ls IH]; intros [|k cs] H; simpl in *; try done.
  apply andb_true_iff in H as [Hk H]. rewrite IH by done. destruct (String.eqb l ""); [done|by rewrite Hk].
Qed.
Lemma marks_twice cs ls : marks (marks cs ls) ls = marks cs ls.
Proof.
  revert cs. induction ls as [|l ls IH]; intros [|k cs]; simpl; try done. rewrite IH. by destruct (String.eqb l "").
Qed.

Lemma canonical_stable a : value_ok a.1.2 a.2 → stable (canonical a).
Proof.
  destruct a as [[a v] cs]. intros Hv. unfold canonical. simpl in *. destruct (value_lines _ _ Hv) as [(-> & _)|(l & ls & -> & Hls & Hlen & Hends)]; [by left|].
  destruct Hends as [[-> ->]|[Hl Hlast]]; [left; split; [done|]; by destruct cs|right].
  exists l, ls. split_and!; try done; [|by apply marks_length|apply marks_twice].
  eapply Forall_impl; [exact Hls|by intros ? []].
Qed.

Lemma stable_canonical a : value_ok a.1.2 a.2 → stable a → canonical a = a.
Proof.
  destruct a as [[a v] cs]. unfold stable. cbn [fst snd]. intros (Hv & _) [[-> ->]|(l & ls & -> & Hl & Hlast & Hnl & Hlen & Hm)]; [done|].
  unfold canonical. cbn [fst snd]. assert (splitline_unicodesafe (join NL (l :: ls)) = l :: ls) as ->; [|by rewrite Hm].
  apply splitline_join; [|done|done]. change NL with (String ch_nl "") in Hv. rewrite split_on_join in Hv by done.
  eapply Forall_impl; [exact Hv|]. intros x Hx. destruct x as [|k x]; [by apply no_cr_clean|].
  destruct (line_ends _ Hx) as ((? & ? & E & Hk) & ? & ? & E' & Hd); [done|]. split; [apply Hx|].
  eapply strip_if_both; [exact E|exact E'| |]; by apply space_not_cr.
Qed.

(** *** Attribute names *)

Lemma attr_char_facts c :
  attr_char c = true →
  is_space c = false ∧ is_continuation c = false ∧ lower_ascii c = c ∧ c ≠ ":"%char
  ∧ c ≠ ch_nl ∧ c ≠ ch_cr.
Proof. destruct c as [[] [] [] [] [] [] [] []]; vm_compute; intros H; try discriminate H; repeat split; done. Qed.

Lemma attr_name_cons a : all1 attr_char a = true → ∃ c s, a = String c s ∧ attr_char c = true.
Proof.
  unfold all1. destruct a as [|c s]; [done|]. simpl. intros [Hc _]%andb_true_iff. eauto.
Qed.

Lemma attr_name_no a c : all1 attr_char a = true → attr_char c = false → has_char c a = false.
Proof.
  unfold all1. intros [_ Ha]%andb_true_iff Hc. eapply has_char_all; [|exact Ha].
  intros d Hd ->. congruence.
Qed.

Lemma chomp_nl_none a : has_char ch_nl a = false → chomp_nl a = a.
Proof.
  induction a as [|d a IH]; [done|]. rewrite has_char_cons, orb_false_iff, bool_decide_eq_false. intros [Hd Ha].
  cbn [chomp_nl]. destruct (String.eqb_spec (String d a) NL) as [En|]; [|by rewrite IH].
  injection En as -> _. done.
Qed.

Section Roundtrip.
Context (c : rpsl_class).

(** *** The lines that rendering writes *)

Lemma render_continuations d i cs ls :
  i + length ls ≤ String.length cs →
  render_lines d (S i) cs ls = Ok (para_text (continuation_lines (marks (str_drop i cs) ls) ls)).
Proof using Type.
  revert i. induction ls as [|l ls IH]; intros i Hlen.
  { simpl. by destruct (str_drop i cs). }
  simpl length in Hlen.
  assert (∃ k rest, String.get i cs = Some k ∧ str_drop i cs = String k rest ∧ str_drop (S i) cs = rest)
    as (k & rest & Hk & Hd & Hd').
  { clear -Hlen. revert i Hlen. induction cs as [|x cs IHc]; intros i Hlen; simpl in Hlen; [lia|].
    destruct i as [|i].
    - exists x, cs. split_and!; [done|by rewrite str_drop_0|by rewrite str_drop_S, str_drop_0].
    - destruct (IHc i) as (k & rest & ? & ? & ?); [lia|]. exists k, rest.
      by rewrite !str_drop_S. }
  rewrite Hd. cbn [marks]. set (m := if String.eqb l "" then "+"%char else k).
  change (continuation_lines (String m (marks rest ls)) (l :: ls))
    with (String m (repeat_char 15 ch_space +:+ l) :: continuation_lines (marks rest ls) ls).
  rewrite para_text_cons.
  change (render_lines d (S i) cs (l :: ls)) with
    (head ← match String.get (S i - 1) cs with
            | None => Raise IndexError
            | Some c =>
                Ok (String (if String.eqb l "" then "+"%char else c) (repeat_char 15 ch_space +:+ l))
            end;
     rest ← render_lines d (S (S i)) cs ls; Ok (head +:+ NL +:+ rest)).
  replace (S i - 1) with i by lia. rewrite Hk. rewrite IH by lia. rewrite Hd'. done.
Qed.

Lemma render_attribute_lines a :
  attribute_ok c a → render_attribute a = Ok (para_text (attr_lines a)).
Proof using Type.
  destruct a as [[a v] cs]. intros (_ & _ & Hv). unfold render_attribute, attr_lines; cbn [fst snd] in *.
  destruct (value_lines v cs Hv) as [(-> & _)|(l & ls & -> & _ & Hlen & _)].
  { unfold para_text. simpl. by rewrite str_app_nil_r, str_app_assoc. }
  rewrite para_text_cons.
  change (render_lines ?d 0 cs (l :: ls)) with
    (rest ← render_lines d 1 cs ls; Ok ((d +:+ l) +:+ NL +:+ rest)).
  rewrite (render_continuations _ 0) by done. by rewrite str_drop_0.
Qed.

Lemma para_text_app ls ls' : para_text (ls ++ ls') = para_text ls +:+ para_text ls'.
Proof using Type.
  induction ls as [|l ls IH]; [done|]. simpl app. by rewrite !para_text_cons, IH, !str_app_assoc.
Qed.

Lemma render_data_lines data :
  Forall (attribute_ok c) data → render_data data = Ok (para_text (concat (attr_lines <$> data))).
Proof using Type.
  induction 1 as [|a data Ha Hdata IH]; [done|]. csimpl.
  rewrite render_attribute_lines by done. rewrite IH. by rewrite para_text_app.
Qed.

(** *** Reading the lines back *)

Definition append_line (l : string) (v : string) : string := v +:+ NL +:+ l.

Lemma extract_continuations n a v cs ks ls rest :
  str_all is_continuation ks = true → String.length ks = length ls → Forall line_ok ls →
  extract_loop c n (Some (a, v, cs)) (continuation_lines ks ls ++ rest)
  = extract_loop c (n + length ls) (Some (a, foldl (λ v l, append_line l v) v ls, cs +:+ ks)) rest.
Proof using Type.
  intros Hks Hlen Hls. revert n v cs ks Hks Hlen.
  induction Hls as [|l ls Hl Hls IH]; intros n v cs ks Hks Hlen; simpl in Hlen.
  { destruct ks; [|done]. simpl. by rewrite Nat.add_0_r, str_app_nil_r. }
  destruct ks as [|k ks]; [done|]. simpl in Hlen, Hks. apply andb_true_iff in Hks as [Hk Hks].
  change (continuation_lines (String k ks) (l :: ls) ++ rest)
    with (String k (repeat_char 15 ch_space +:+ l) :: (continuation_lines ks ls ++ rest)).
  assert (extract_loop c n (Some (a, v, cs)) (String k (repeat_char 15 ch_space +:+ l)
            :: (continuation_lines ks ls ++ rest))
    = extract_loop c (S n)
        (Some (a, v +:+ NL +:+ strip (repeat_char 15 ch_space +:+ l), cs +:+ String k ""))
        (continuation_lines ks ls ++ rest)) as -> by (cbn [extract_loop]; by rewrite Hk).
  rewrite strip_spaces, (line_stripped l) by done.
  rewrite IH by (done || lia). simpl length. f_equal; [lia|]. rewrite str_app_assoc. done.
Qed.

Lemma foldl_append_join l ls :
  foldl (λ v l, append_line l v) l ls = join NL (l :: ls).
Proof using Type.
  revert l. induction ls as [|x ls IH]; intros l; [done|]. simpl foldl. rewrite IH.
  unfold append_line. rewrite join_cons. destruct ls as [|y ls]; [done|].
  by rewrite !join_cons, !str_app_assoc.
Qed.

(** The first line of an attribute. *)
Lemma extract_first n cur a pad rest :
  all1 attr_char a = true →
  extract_loop c n cur ((a +:+ String ":" pad) :: rest)
  = let '(ms, data) := extract_loop c (S n) (Some (a, strip pad, "")) rest in
    (ms, save_attr (c_discarded_fields c) cur ++ data).
Proof using Type.
  intros Ha. destruct (attr_name_cons a Ha) as (k & s & E & Hk).
  destruct (attr_char_facts k Hk) as (_ & Hcont & _).
  assert (split_once ":"%char (a +:+ String ":" pad) = Some (a, pad)) as Hsplit
    by (apply split_once_app, attr_name_no; done).
  assert (str_lower a = a) as Hlow.
  { apply (str_map_all _ attr_char); [intros d Hd; by destruct (attr_char_facts d Hd) as (_ & _ & ? & _)|].
    unfold all1 in Ha. by apply andb_true_iff in Ha as [_ ?]. }
  assert (re_attr_name a = true) as Hre.
  { unfold re_attr_name. by rewrite chomp_nl_none by (by apply attr_name_no). }
  rewrite E in *. cbn [extract_loop String.append]. rewrite Hcont.
  cbn [String.append] in Hsplit. rewrite Hsplit, Hlow, Hre, andb_false_r. done.
Qed.

Lemma ljust_colon a : ∃ n, ljust RPSL_ATTRIBUTE_TEXT_WIDTH (a +:+ ":") = a +:+ String ":" (repeat_char n ch_space).
Proof using Type. eexists. unfold ljust. by rewrite str_app_assoc. Qed.

Lemma extract_attribute n cur a rest :
  attribute_ok c a →
  ∃ n', extract_loop c n cur (attr_lines a ++ rest)
    = let '(ms, data) := extract_loop c n' (Some (canonical a)) rest in
      (ms, save_attr (c_discarded_fields c) cur ++ data).
Proof using Type.
  destruct a as [[a v] cs]. intros (Ha & _ & Hv). unfold attr_lines, canonical; cbn [fst snd] in *.
  destruct (value_lines v cs Hv) as [(-> & _ & _)|(l & ls & -> & Hls & Hlen & _)].
  - exists (S n). simpl app. rewrite (extract_first n cur a "") by done. done.
  - destruct (ljust_colon a) as [k ->]. apply Forall_cons in Hls as [Hl Hls].
    exists (S n + length ls). rewrite str_app_assoc.
    change (String ":" (repeat_char k ch_space) +:+ l) with (String ":" (repeat_char k ch_space +:+ l)).
    simpl app. rewrite extract_first by done. rewrite strip_spaces, (line_stripped l) by done.
    destruct Hv as (_ & _ & Hk).
    rewrite extract_continuations by (by auto using marks_length, marks_continuation). by rewrite foldl_append_join.
Qed.

Lemma save_attr_ok a : attribute_ok c a → save_attr (c_discarded_fields c) (Some (canonical a)) = [canonical a].
Proof using Type.
  destruct a as [[a v] cs]. intros (Ha & Hd & _). unfold canonical. cbn [fst snd] in *.
  destruct (attr_name_cons a Ha) as (k & s & -> & _).
  destruct (splitline_unicodesafe v); cbn [save_attr]; by rewrite bool_decide_false.
Qed.

Lemma extract_data n cur data rest D :
  Forall (attribute_ok c) data →
  (∀ n cur, extract_loop c n cur rest = ([], save_attr (c_discarded_fields c) cur ++ D)) →
  extract_loop c n cur (concat (attr_lines <$> data) ++ rest)
  = ([], save_attr (c_discarded_fields c) cur ++ (canonical <$> data) ++ D).
Proof using Type.
  intros Hd Hrest. revert n cur. induction Hd as [|a data Ha Hd IH]; intros n cur; [apply Hrest|].
  csimpl. rewrite <- app_assoc.
  destruct (extract_attribute n cur a (concat (attr_lines <$> data) ++ rest) Ha) as [n' ->].
  rewrite IH, save_attr_ok by done. done.
Qed.

(** *** The text as a whole *)

Lemma name_clean a pad l :
  all1 attr_char a = true → line_ok l → clean_line ((a +:+ String ":" (repeat_char pad ch_space)) +:+ l).
Proof using Type.
  intros Ha Hl. destruct (attr_name_cons a Ha) as (k & s & E & _).
  assert (has_char ch_nl a = false ∧ has_char ch_cr a = false) as [Hn Hr] by (split; by apply attr_name_no).
  rewrite E in *. cbn [String.append]. apply (clean_app k); [| |done];
    (change (String k (s +:+ ?t)) with (String k s +:+ t);
     rewrite has_char_app, ?Hn, ?Hr, has_char_cons, has_char_repeat by done; done).
Qed.

Lemma continuation_clean ks ls :
  str_all is_continuation ks = true → Forall line_ok ls → Forall clean_line (continuation_lines ks ls).
Proof using Type.
  intros Hk Hls. revert ks Hk. induction Hls as [|l ls Hl Hls IH]; intros [|k ks] Hk; try apply Forall_nil_2.
  simpl in Hk. apply andb_true_iff in Hk as [Hk Hks]. apply Forall_cons. split; [|by apply IH].
  assert (k ≠ ch_nl ∧ k ≠ ch_cr) as [Hk1 Hk2] by (split; intros ->; by vm_compute in Hk).
  apply (clean_app k); [| |done]; by rewrite has_char_cons, has_char_repeat, bool_decide_false by done.
Qed.

Lemma attr_lines_clean a : attribute_ok c a → Forall clean_line (attr_lines a).
Proof using Type.
  destruct a as [[a v] cs]. intros (Ha & _ & Hv). unfold attr_lines; cbn [fst snd] in *.
  destruct (value_lines v cs Hv) as [(-> & _)|(l & ls & -> & Hls & _)]; [|apply Forall_cons in Hls as [Hl Hls]].
  - apply Forall_singleton. rewrite <- (str_app_nil_r (a +:+ ":")). by apply (name_clean a 0).
  - destruct (ljust_colon a) as [k ->]. apply Forall_cons. split; [by apply name_clean|].
    destruct Hv as (_ & _ & Hk). apply continuation_clean; [by apply marks_continuation|done].
Qed.

Lemma attr_lines_head a : attribute_ok c a → ∃ k s ls, attr_lines a = String k s :: ls ∧ is_space k = false.
Proof using Type.
  destruct a as [[a v] cs]. intros (Ha & _). unfold attr_lines; cbn [fst snd] in *.
  destruct (attr_name_cons a Ha) as (k & s & -> & Hk). destruct (attr_char_facts k Hk) as (Hsp & _).
  destruct (splitline_unicodesafe v); [|destruct (ljust_colon (String k s)) as [m ->]]; cbn [String.append]; eauto.
Qed.

Lemma last_continuation pre l cs ls :
  length ls ≤ String.length cs → List.last (l :: ls) "" ≠ "" → Forall line_ok (l :: ls) →
  ∃ s d, List.last ((pre +:+ l) :: continuation_lines cs ls) "" = s +:+ String d "" ∧ is_space d = false.
Proof using Type.
  revert pre l cs. induction ls as [|x ls IH]; intros pre l cs Hlen Hne Hls; apply Forall_cons in Hls as [Hl Hls].
  - destruct (line_ends l Hl Hne) as (_ & s & d & -> & Hd). exists (pre +:+ s), d.
    assert (continuation_lines cs [] = []) as -> by (by destruct cs). by rewrite str_app_assoc.
  - destruct cs as [|k cs]; simpl in Hlen; [lia|].
    destruct (IH (String k (repeat_char 15 ch_space)) x cs) as (s & d & E & Hd); [lia|exact Hne|done|].
    exists s, d. split; [exact E|done].
Qed.

(** The last attribute: without the spaces at the end of the text it reads back the same. *)
Lemma attr_tail a :
  attribute_ok c a →
  ∃ ls l pad, attr_lines a = ls ++ [l +:+ repeat_char pad ch_space]
    ∧ (∃ k s rest, ls ++ [l] = String k s :: rest ∧ is_space k = false)
    ∧ Forall clean_line (ls ++ [l])
    ∧ (∃ s d, l = s +:+ String d "" ∧ is_space d = false)
    ∧ ∀ n cur, extract_loop c n cur (ls ++ [l]) = ([], save_attr (c_discarded_fields c) cur ++ [canonical a]).
Proof using Type.
  intros Ha. pose proof Ha as (Hname & _ & Hv).
  assert ((∃ pad, attr_lines a = [(a.1.1 +:+ ":") +:+ repeat_char pad ch_space] ∧ canonical a = (a.1.1, "", ""))
          ∨ ∃ s d, List.last (attr_lines a) "" = s +:+ String d "" ∧ is_space d = false) as [(pad & E & Ec)|Hlast].
  { unfold attr_lines, canonical. destruct (value_lines _ _ Hv) as [(-> & _)|(l & ls & -> & Hls & Hlen & Hends)].
    - left. exists 0. by rewrite str_app_nil_r.
    - destruct Hends as [[-> ->]|[Hl Hlast]]; [left|right].
      + exists (16 - String.length (a.1.1 +:+ ":")). split; [|by destruct a.2].
        assert (continuation_lines (marks a.2 []) [] = []) as -> by (by destruct (marks a.2 [])). by rewrite str_app_nil_r.
      + apply last_continuation; [by rewrite marks_length|done|done]. }
  - destruct (attr_name_cons _ Hname) as (k & s & En & Hk). destruct (attr_char_facts k Hk) as (Hsp & _).
    exists [], (a.1.1 +:+ ":"), pad. split_and!.
    + done.
    + exists k, (s +:+ ":"), []. by rewrite En.
    + apply Forall_singleton. rewrite <- (str_app_nil_r (a.1.1 +:+ ":")). by apply (name_clean a.1.1 0).
    + by exists a.1.1, ":"%char.
    + intros n cur. simpl app. rewrite (extract_first n cur a.1.1 "") by done.
      rewrite <- (save_attr_ok a Ha), Ec. done.
  - assert (attr_lines a ≠ []) as Hne by (destruct (attr_lines_head a Ha) as (? & ? & ? & -> & _); done).
    exists (removelast (attr_lines a)), (List.last (attr_lines a) ""), 0. simpl repeat_char. rewrite str_app_nil_r.
    rewrite <- app_removelast_last by done. split_and!.
    + done.
    + destruct (attr_lines_head a Ha) as (k & s & rest & -> & ?). eauto.
    + by apply attr_lines_clean.
    + done.
    + intros n cur. destruct (extract_attribute n cur a [] Ha) as [n' E]. rewrite app_nil_r in E.
      rewrite E. cbn [extract_loop]. by rewrite save_attr_ok.
Qed.

(** White space at the end of the last line does not reach the lines. *)
Lemma strip_text k s rest ls l pad :
  ls ++ [l] = String k s :: rest → is_space k = false →
  (∃ s d, l = s +:+ String d "" ∧ is_space d = false) → Forall clean_line (ls ++ [l]) →
  splitline_unicodesafe (strip (para_text (ls ++ [l +:+ repeat_char pad ch_space]))) = ls ++ [l].
Proof using Type.
  intros E Hk (r & d & Hl & Hd) Hclean.
  assert (para_text (ls ++ [l +:+ repeat_char pad ch_space]) = join NL (ls ++ [l]) +:+ repeat_char pad ch_space +:+ NL) as ->.
  { assert (∀ x, para_text (ls ++ [x]) = join NL (ls ++ [x]) +:+ NL) as Hj by (intros x; destruct ls; apply para_text_join).
    rewrite Hj. clear. destruct ls as [|y ls]; [by rewrite <- str_app_assoc|].
    rewrite !join_app. change (join NL [?x]) with x. by rewrite !str_app_assoc. }
  assert (∃ t, join NL (ls ++ [l]) = String k t) as [t Ht] by (rewrite E; destruct rest; simpl; eauto).
  destruct (join_last_char NL (String k s) rest (λ c, is_space c = false)) as (t' & e & Et & He).
  { rewrite <- E, List.last_last. eauto. }
  rewrite <- E in Et.
  assert (strip (join NL (ls ++ [l]) +:+ repeat_char pad ch_space +:+ NL) = join NL (ls ++ [l])) as ->.
  { unfold strip, strip_if. rewrite Ht. cbn [String.append lstrip_if]. rewrite Hk.
    change (String k (t +:+ repeat_char pad ch_space +:+ NL)) with (String k t +:+ repeat_char pad ch_space +:+ NL). rewrite <- Ht.
    rewrite rstrip_if_app by (rewrite str_all_app, str_all_repeat; done). rewrite Et. by apply rstrip_last. }
  rewrite E in *. apply splitline_join; [done|done|]. rewrite <- E, List.last_last, Hl. by destruct r.
Qed.

(** *** What extraction leaves *)

Lemma has_char_strip d p s : has_char d s = false → has_char d (strip_if p s) = false.
Proof using Type.
  intros H. unfold strip_if. assert (has_char d (lstrip_if p s) = false) as Hl.
  { induction s as [|e s IH]; [done|]. cbn [lstrip_if]. destruct (p e); [|done].
    rewrite has_char_cons, orb_false_iff in H. apply IH, H. }
  revert Hl. generalize (lstrip_if p s) as t. clear. intros t. induction t as [|e t IH]; [done|]. cbn [rstrip_if].
  rewrite has_char_cons, orb_false_iff. intros [He Ht]. specialize (IH Ht).
  destruct (rstrip_if p t) as [|x r]; [destruct (p e); [done|]|]; by rewrite has_char_cons, He, ?IH.
Qed.

Lemma split_append v x : has_char ch_nl x = false → split_on ch_nl (v +:+ NL +:+ x) = split_on ch_nl v ++ [x].
Proof using Type.
  intros Hx. induction v as [|d v IH].
  { change (split_on ch_nl (String ch_nl x) = "" :: [x]). cbn [split_on]. by rewrite bool_decide_true, split_on_none. }
  cbn [String.append split_on]. rewrite IH. case_bool_decide; [done|].
  pose proof (split_on_nonempty ch_nl v). by destruct (split_on ch_nl v).
Qed.

Lemma strip_line_ok s : has_char ch_nl s = false → line_ok (strip s).
Proof using Type. intros Hs. split; [apply strip_if_twice|by apply has_char_strip]. Qed.

Lemma value_first s : has_char ch_nl s = false → value_ok (strip s) "".
Proof using Type.
  intros Hs. pose proof (strip_line_ok s Hs) as Hl. unfold value_ok.
  rewrite split_on_none by apply Hl. split_and!; [by apply Forall_singleton|done|done].
Qed.

Lemma value_continued v cs k s :
  value_ok v cs → is_continuation k = true → has_char ch_nl s = false →
  value_ok (v +:+ NL +:+ strip s) (cs +:+ String k "").
Proof using Type.
  intros (Hls & Hlen & Hcs) Hk Hs. pose proof (strip_line_ok s Hs) as Hl. unfold value_ok.
  rewrite split_append by apply Hl. split_and!.
  - apply Forall_app. split; [done|by apply Forall_singleton].
  - rewrite length_app, str_length_app, Hlen. simpl. lia.
  - rewrite str_all_app, Hcs. simpl. by rewrite Hk.
Qed.

Lemma splitline_no_nl s : Forall (λ l, has_char ch_nl l = false) (splitline_unicodesafe s).
Proof using Type.
  unfold splitline_unicodesafe. destruct (String.eqb s ""); [done|].
  apply Forall_fmap. eapply Forall_impl; [apply split_on_pieces|]. intros x. apply has_char_strip.
Qed.

Lemma lower_no_nl s : has_char ch_nl s = false → has_char ch_nl (str_lower s) = false.
Proof using Type.
  induction s as [|d s IH]; [done|]. rewrite has_char_cons, orb_false_iff. intros [Hd Hs].
  change (str_lower (String d s)) with (String (lower_ascii d) (str_lower s)). rewrite has_char_cons, IH by done.
  rewrite orb_false_r. clear -Hd. by destruct d as [[] [] [] [] [] [] [] []].
Qed.

(** The attribute being read. *)
Definition current_ok (cur : option attribute) : Prop :=
  ∀ a, cur = Some a → all1 attr_char a.1.1 = true ∧ value_ok a.1.2 a.2.

Lemma saved_ok cur : current_ok cur → Forall (attribute_ok c) (save_attr (c_discarded_fields c) cur).
Proof using Type.
  intros Hcur. destruct cur as [[[a v] cs]|]; [|done]. simpl.
  destruct (String.eqb a "") eqn:Ha; [done|]. case_bool_decide; [done|]. simpl.
  destruct (Hcur _ eq_refl). by apply Forall_singleton.
Qed.

Lemma extract_loop_ok n cur lines :
  (∀ a, a ∈ attrs_allowed c → all1 attr_char a = true) →
  current_ok cur → Forall (λ l, has_char ch_nl l = false) lines →
  Forall (attribute_ok c) (extract_loop c n cur lines).2.
Proof using Type.
  intros Hnames Hcur Hls. revert n cur Hcur. induction Hls as [|l ls Hl Hls IH]; intros n cur Hcur; [by apply saved_ok|].
  destruct l as [|k s]; [done|]. cbn [extract_loop]. rewrite has_char_cons, orb_false_iff, bool_decide_eq_false in Hl.
  destruct Hl as [Hk Hs]. destruct (is_continuation k) eqn:Ek.
  { apply IH. intros a. destruct cur as [[[a' v] cs]|]; [|done]. simpl. intros [= <-]. simpl.
    destruct (Hcur _ eq_refl). split; [done|]. by apply value_continued. }
  destruct (split_once ":"%char (String k s)) as [[a v]|] eqn:E; [|by apply saved_ok].
  apply split_once_Some in E as [E _].
  assert (has_char ch_nl (a +:+ String ":" v) = false) as Hnl by (rewrite <- E, has_char_cons, Hs, bool_decide_false; done).
  rewrite has_char_app, has_char_cons, !orb_false_iff in Hnl. destruct Hnl as (Ha & _ & Hv).
  destruct (negb _ && negb _) eqn:En; [by apply saved_ok|].
  assert (current_ok (Some (str_lower a, strip v, ""))) as Hnew.
  { intros ? [= <-]. simpl. split; [|by apply value_first].
    apply andb_false_iff in En as [En|En]; apply negb_false_iff in En.
    - apply bool_decide_eq_true in En. by apply Hnames.
    - unfold re_attr_name in En. by rewrite chomp_nl_none in En by by apply lower_no_nl. }
  specialize (IH (S n) _ Hnew). destruct (extract_loop c (S n) _ ls) as [ms data]. simpl in *.
  apply Forall_app. split; [by apply saved_ok|done].
Qed.

Lemma extracted_ok text :
  (∀ a, a ∈ attrs_allowed c → all1 attr_char a = true) →
  Forall (attribute_ok c) (_extract_attributes_values c text).2.
Proof using Type. intros Hnames. apply extract_loop_ok; [done|done|apply splitline_no_nl]. Qed.

Lemma extract_rendered data text :
  Forall (attribute_ok c) data → render_data data = Ok text →
  _extract_attributes_values c text = ([], canonical <$> data).
Proof using Type.
  intros Hd. rewrite render_data_lines by done. intros [= <-]. unfold _extract_attributes_values.
  destruct (decide (data = [])) as [->|Hne]; [done|]. destruct (exists_last Hne) as (data' & a & ->).
  apply Forall_app in Hd as [Hd' Ha]. apply Forall_cons in Ha as [Ha _].
  rewrite fmap_app, concat_app. csimpl. rewrite app_nil_r.
  destruct (attr_tail a Ha) as (ls & l & pad & -> & (k & s & rest & E & Hk) & Hclean & Hl & Hread).
  assert (∃ k s rest, (concat (attr_lines <$> data') ++ ls) ++ [l] = String k s :: rest ∧ is_space k = false)
    as (k' & s' & rest' & E' & Hk').
  { destruct Hd' as [|b data'' Hb Hd']; [simpl; rewrite E; eauto|]. csimpl.
    destruct (attr_lines_head b Hb) as (k' & s' & ls' & -> & ?). simpl. eauto. }
  rewrite app_assoc. rewrite (strip_text k' s' rest'); [|done|done|done|].
  - rewrite <- app_assoc. rewrite (extract_data 0 None data' (ls ++ [l]) [canonical a]); [|done|exact Hread].
    by rewrite fmap_app.
  - rewrite <- app_assoc. apply Forall_app. split; [|done].
    clear -Hd'. induction Hd' as [|b data' Hb Hd' IH]; [done|]. csimpl. apply Forall_app. split; [by apply attr_lines_clean|done].
Qed.
End Roundtrip.

Definition known_class (c : rpsl_class) : Prop := ∃ name, class_of name = Some c.

Lemma known_class_names c a : known_class c → a ∈ attrs_allowed c → all1 attr_char a = true.
Proof.
  intros [name Hc] Ha. apply assoc_elem in Hc.
  assert (forallb (λ nc : string * rpsl_class, forallb (all1 attr_char) (attrs_allowed nc.2)) OBJECT_CLASS_MAPPING = true)
    as Hall by (vm_compute; reflexivity).
  rewrite forallb_spec in Hall. specialize (Hall _ Hc). rewrite forallb_spec in Hall. by apply Hall.
Qed.

(** C32. Extraction leaves attributes of a known form: a name, and a value of stripped lines
    with a continuation character for each line but the first. Attributes of that form render
    without an exception, and extracting the rendered text gives no message and the same
    attributes up to [canonical]: empty lines at the ends of a value are dropped, the
    continuation characters are then taken by position, and a plus sign stands before an
    empty line. The result is stable, and attributes that are stable come back exactly. *)
Theorem extract_render_roundtrip c :
  known_class c →
  (∀ text, Forall (attribute_ok c) (_extract_attributes_values c text).2) ∧
  (∀ data, Forall (attribute_ok c) data →
     ∃ text, render_data data = Ok text
       ∧ _extract_attributes_values c text = ([], canonical <$> data)
       ∧ Forall stable (canonical <$> data)
       ∧ (Forall stable data → canonical <$> data = data)).
Proof.
  intros Hc. split; [intros text; apply extracted_ok; intros a; by apply known_class_names|].
  intros data Hd. exists (para_text (concat (attr_lines <$> data))).
  pose proof (render_data_lines c data Hd) as Hr. split; [done|]. split; [by apply extract_rendered|].
  assert (Forall (λ a, value_ok a.1.2 a.2) data) as Hv by (eapply Forall_impl; [exact Hd|by intros a (_ & _ & ?)]).
  clear -Hv. induction Hv as [|a data Ha Hd [IH1 IH2]]; [done|]. csimpl. split.
  - apply Forall_cons. split; [by apply canonical_stable|done].
  - intros [Hs Hs']%Forall_cons. by rewrite stable_canonical, IH2.
Qed.


Lemma known_class_kinds c n f :
  known_class c → assoc n (c_fields c) = Some f → kind_ok (f_kind f).
Proof.
  intros [name Hc] Hf. apply assoc_elem in Hc, Hf.
  assert (forallb (λ nc : string * rpsl_class, forallb (λ nf : string * field,
      match f_kind nf.2 with
      | RPSLReferenceField [] _ | RPSLReferenceListField [] _ _ => false
      | _ => true end) (c_fields nc.2)) OBJECT_CLASS_MAPPING = true) as Hall by (vm_compute; reflexivity).
  rewrite forallb_spec in Hall. specialize (Hall _ Hc). rewrite forallb_spec in Hall.
  specialize (Hall _ Hf). simpl in Hall. unfold kind_ok.
  destruct (f_kind f) as [| | | | | | | | | | | | | | |[]|[]|]; done.
Qed.

(** ** Strict validation *)

Section Strict.
Context `{IPyLib} (cfg : configuration).

Definition names (data : list attribute) : list string := (λ a : attribute, a.1.1) <$> data.

Lemma attrs_present_elem data n : n ∈ attrs_present data ↔ n ∈ names data.
Proof using Type. unfold attrs_present. rewrite oset_update_elem. set_solver. Qed.

Lemma errors_concat {A} (f : A → messages_) l : errors (concat (f <$> l)) = concat ((λ x, errors (f x)) <$> l).
Proof using Type. induction l as [|x l IH]; csimpl; [done|]. by rewrite errors_app, IH. Qed.

(** The attribute counts of a strictly validated object. *)
Definition counts_ok (c : rpsl_class) (data : list attribute) : Prop :=
  (∀ n, n ∈ names data → n ∉ ignored_validation_fields →
        n ∈ attrs_allowed c ∧ (1 < attr_count data n → n ∈ attrs_multiple c)) ∧
  (∀ n, n ∈ attrs_required c → n ∈ names data).

Lemma count_messages_nil c data n :
  errors (count_messages c data n) = [] ↔
  (n ∉ ignored_validation_fields → n ∈ attrs_allowed c ∧ (1 < attr_count data n → n ∈ attrs_multiple c)).
Proof using Type.
  unfold count_messages. case_bool_decide; [naive_solver|]. rewrite errors_app_nil.
  case_bool_decide; simpl; [|naive_solver].
  destruct (Nat.ltb_spec 1 (attr_count data n)); simpl; [|split; [|naive_solver]; intros; split; [done|lia]].
  case_bool_decide; simpl; naive_solver.
Qed.

Lemma counts_strict c ds data :
  errors (_validate_attribute_counts c true ds data) = [] ↔ counts_ok c data.
Proof using Type.
  unfold _validate_attribute_counts, counts_ok. rewrite errors_app_nil, !errors_concat, !concat_nil.
  assert (∀ n, errors (if bool_decide (n ∈ attrs_present data) then [] else
    msg_error ("Mandatory attribute " +:+ quoted n +:+ " on object " +:+ rpsl_object_class c
               +:+ " is missing")) = [] ↔ n ∈ names data) as Hreq.
  { intros n. rewrite <- attrs_present_elem. by case_bool_decide. }
  split; intros [H1 H2]; (split; [|intros n Hn; apply Hreq; by apply H2]).
  - intros n Hn. apply count_messages_nil, H1. by apply attrs_present_elem.
  - intros n Hn. apply count_messages_nil, H1. by apply attrs_present_elem.
Qed.

(** *** The parsed values *)

Lemma store_value_get f n r pd : is_Some (store_value f n r pd !! n).
Proof using Type.
  unfold store_value. destruct (fr_values_list r); [destruct (f_multiple f); [|destruct (pd !! n)]|];
    rewrite lookup_insert_eq; eauto.
Qed.
Lemma store_value_mono f n r pd m : is_Some (pd !! m) → is_Some (store_value f n r pd !! m).
Proof using Type.
  intros Hm. destruct (decide (n = m)) as [->|Hne]; [apply store_value_get|].
  unfold store_value. destruct (fr_values_list r); [destruct (f_multiple f); [|destruct (pd !! n)]|];
    by rewrite lookup_insert_ne.
Qed.

(** One attribute in strict mode: messages only grow, names stay, values stay
    stored, and without an error the attribute of a known field has a value. *)
Lemma parse_attribute_strict c allow ms pd md a ms' pd' md' a' :
  known_class c →
  parse_attribute cfg c true allow (ms, pd, md) a = Ok (ms', pd', md', a') →
  (∃ new, ms' = ms ++ new) ∧ a'.1.1 = a.1.1 ∧ (∀ n, is_Some (pd !! n) → is_Some (pd' !! n)) ∧
  (errors ms' = [] → a.1.1 ∈ attrs_allowed c → is_Some (pd' !! a.1.1)).
Proof using Type.
  intros Hc. destruct a as [[n v] cs]. unfold parse_attribute. simpl.
  destruct (assoc n (c_fields c)) as [f|] eqn:Ef.
  2: { intros; simplify_eq. split_and!; [exists []; by rewrite app_nil_r|done|done|].
       intros _ Hin. exfalso. unfold attrs_allowed in Hin. apply list_elem_of_fmap in Hin as ([n' f'] & -> & Hin).
       simpl in Ef. clear -Ef Hin. induction (c_fields c) as [|[k g] l IH]; [set_solver|].
       simpl in Ef. case_decide; [done|]. set_solver. }
  destruct (parse_field cfg class_pk_field (f_kind f) _ true) as [[fm r]|] eqn:Ep; simpl; [|done].
  pose proof (field_reports cfg _ _ _ _ (known_class_kinds _ _ _ Hc Ef) Ep) as Hrep.
  destruct r as [r|]; simpl.
  - destruct (store_metadata f r allow md) as [md1|]; simpl; [|done]. intros; simplify_eq.
    split_and!; [eauto|by case_match| |].
    + intros m. apply store_value_mono.
    + intros _ _. apply store_value_get.
  - intros; simplify_eq. split_and!; [eauto|done|done|]. intros He _. exfalso.
    apply errors_app_nil in He as [_ He]. by apply (Hrep eq_refl).
Qed.

#[local] Arguments parse_attribute : simpl never.
Lemma parse_attributes_strict c allow data ms pd md ms' pd' md' data' :
  known_class c →
  parse_attributes cfg c true allow (ms, pd, md) data = Ok (ms', pd', md', data') →
  (∃ new, ms' = ms ++ new) ∧ names data' = names data ∧ (∀ n, is_Some (pd !! n) → is_Some (pd' !! n)) ∧
  (errors ms' = [] → ∀ n, n ∈ names data → n ∈ attrs_allowed c → is_Some (pd' !! n)).
Proof using Type.
  intros Hc. revert ms pd md data'. induction data as [|a data IH]; intros ms pd md data'; simpl.
  { intros; simplify_eq. split_and!; [exists []; by rewrite app_nil_r|done|done|set_solver]. }
  destruct (parse_attribute cfg c true allow (ms, pd, md) a) as [[[[ms1 pd1] md1] a1]|] eqn:E1;
    simpl; [|done].
  destruct (parse_attributes cfg c true allow (ms1, pd1, md1) data) as [[[[ms2 pd2] md2] data2]|] eqn:E2;
    simpl; [|done].
  intros; simplify_eq.
  destruct (parse_attribute_strict _ _ _ _ _ _ _ _ _ _ Hc E1) as ([new1 ->] & Hn1 & Hm1 & Hv1).
  destruct (IH _ _ _ _ E2) as ([new2 ->] & Hn2 & Hm2 & Hv2).
  split_and!.
  - eexists. by rewrite <- app_assoc.
  - unfold names in *. csimpl. by rewrite Hn1, Hn2.
  - eauto.
  - intros He n Hn Hall. change (n ∈ a.1.1 :: names data) in Hn.
    apply elem_of_cons in Hn as [->|Hin].
    + apply Hm2. apply Hv1; [|done]. by apply errors_app_nil in He as [? _].
    + by apply Hv2.
Qed.

Lemma names_count data data' n : names data = names data' → attr_count data n = attr_count data' n.
Proof using Type.
  unfold attr_count, names. revert data'. induction data as [|a data IH]; intros [|a' data']; try done.
  csimpl. intros [= Ha Hd]. rewrite Ha. destruct (String.eqb _ n); simpl; by rewrite (IH data').
Qed.

Lemma has_errors_false ms : has_errors ms = false ↔ errors ms = [].
Proof using Type. unfold has_errors. by destruct (errors ms). Qed.

Context (gpg_import_keys : string → list string * option string) (gpg_uids : string → list string).

(** *** What cleaning an object keeps *)

(** An object is complete: its attribute counts are right, and every attribute of
    its class that it has was parsed to a value. *)
Definition complete (o : RPSLObject) : Prop :=
  counts_ok (o_class o) (o_object_data o)
  ∧ ∀ n, n ∈ names (o_object_data o) → n ∈ attrs_allowed (o_class o) → is_Some (o_parsed_data o !! n).
Lemma attr_count_app l l' n : attr_count (l ++ l') n = attr_count l n + attr_count l' n.
Proof using Type. unfold attr_count. by rewrite List.filter_app, length_app. Qed.
Lemma attr_count_names data n : n ∈ names data ↔ 0 < attr_count data n.
Proof using Type.
  unfold names, attr_count. induction data as [|a data IH]; csimpl; [split; [by intros ?%elem_of_nil|lia]|].
  rewrite elem_of_cons. destruct (String.eqb_spec a.1.1 n) as [<-|Hne]; simpl; [split; [lia|by left]|].
  rewrite IH. split; [by intros [?|?]|by right].
Qed.
Lemma attr_count_inserted attr values n :
  attr_count ((λ v, (attr, v, "")) <$> values) n = if decide (n = attr) then length values else 0.
Proof using Type.
  unfold attr_count. induction values as [|v values IH]; csimpl; [by case_decide|].
  destruct (String.eqb_spec attr n) as [->|Hne]; simpl; rewrite IH; case_decide; congruence.
Qed.
Lemma attr_count_others (data : list attribute) attr n :
  attr_count (List.filter (λ a : attribute, negb (String.eqb a.1.1 attr)) data) n
  = if decide (n = attr) then 0 else attr_count data n.
Proof using Type.
  unfold attr_count. induction data as [|a data IH]; simpl; [by case_decide|].
  destruct (String.eqb_spec a.1.1 attr) as [Ea|Ea]; simpl; [|destruct (String.eqb_spec a.1.1 n); simpl]; rewrite IH;
    case_decide; subst; try done. destruct (String.eqb_spec a.1.1 n); congruence.
Qed.
Lemma updated_count o attr values flatten n :
  attr_count (o_object_data (_update_attribute_value o attr values flatten)) n
  = if decide (n = attr) then length values else attr_count (o_object_data o) n.
Proof using Type.
  unfold _update_attribute_value. cbn [o_object_data set_state].
  set (kept := List.filter (λ a : string * string * string, negb (String.eqb a.1.1 attr)) (o_object_data o)). rewrite !attr_count_app, attr_count_inserted.
  assert (attr_count (take 1 kept) n + attr_count (drop 1 kept) n = attr_count kept n) as Hkept
    by (rewrite <- attr_count_app; by rewrite take_drop).
  unfold kept in Hkept at 3. rewrite attr_count_others in Hkept. case_decide; lia.
Qed.
Lemma update_complete o attr values flatten :
  attr ∈ attrs_allowed (o_class o) → attr ∉ attrs_required (o_class o) →
  (1 < length values → attr ∈ attrs_multiple (o_class o)) →
  complete o → complete (_update_attribute_value o attr values flatten).
Proof using Type.
  intros Hall Hreq Hmult [[H1 H2] H3]. split; [split|]; change (o_class (_update_attribute_value o attr values flatten)) with (o_class o).
  - intros n Hn Hi. rewrite attr_count_names in Hn. rewrite updated_count in Hn |- *. case_decide as E; [by subst|].
    apply H1; [by apply attr_count_names|done].
  - intros n Hn. apply attr_count_names. rewrite updated_count. case_decide as E; [by subst|]. by apply attr_count_names, H2.
  - intros n Hn Ha. unfold _update_attribute_value. cbn [o_parsed_data set_state].
    destruct (decide (n = attr)) as [->|Hne]; [by rewrite lookup_insert_eq|]. rewrite lookup_insert_ne by done.
    apply H3; [|done]. rewrite attr_count_names, updated_count in Hn. rewrite decide_False in Hn by done. by apply attr_count_names.
Qed.
(** The attributes that a key-cert derives from its key are optional. *)
Lemma keycert_derived c : known_class c → rpsl_object_class c = "key-cert" →
  Forall (λ n, n ∈ attrs_allowed c ∧ n ∉ attrs_required c) ["fingerpr"; "owner"; "method"] ∧ "owner" ∈ attrs_multiple c.
Proof using Type.
  intros [name Hc] Hk. apply assoc_elem in Hc.
  assert (forallb (λ nc : string * rpsl_class, negb (String.eqb (rpsl_object_class nc.2) "key-cert")
    || (forallb (λ n, bool_decide (n ∈ attrs_allowed nc.2) && negb (bool_decide (n ∈ attrs_required nc.2))) ["fingerpr"; "owner"; "method"]
        && bool_decide ("owner" ∈ attrs_multiple nc.2))) OBJECT_CLASS_MAPPING = true) as Hall by (vm_compute; reflexivity).
  rewrite forallb_spec in Hall. specialize (Hall _ Hc). cbn [snd] in Hall. rewrite Hk in Hall. cbn [negb orb] in Hall.
  change (String.eqb "key-cert" "key-cert") with true in Hall. cbn [negb orb] in Hall.
  apply andb_true_iff in Hall as [Hall Hown%bool_decide_eq_true]. split; [|done]. apply Forall_forall. intros n Hn.
  rewrite forallb_spec in Hall. specialize (Hall n Hn). apply andb_true_iff in Hall as [H1%bool_decide_eq_true H2%negb_true_iff].
  by apply bool_decide_eq_false in H2.
Qed.
Lemma keycert_complete o :
  known_class (o_class o) → o_class_name o = "key-cert" → complete o →
  errors (o_messages (keycert_clean gpg_import_keys gpg_uids o)) = [] → complete (keycert_clean gpg_import_keys gpg_uids o).
Proof using Type.
  intros Hc Hk Ho. destruct (keycert_derived _ Hc Hk) as [Hd Hown]. rewrite !Forall_cons in Hd. destruct Hd as ([Hf1 Hf2] & [Ho1 Ho2] & [Hm1 Hm2] & _).
  unfold keycert_clean. destruct (gpg_import_keys _) as [[|fingerprint [|? ?]] text];
    try (cbn; rewrite errors_app_nil; by intros [_ ?]).
  destruct (String.eqb _ _); [|cbn; rewrite errors_app_nil; by intros [_ ?]]. intros _.
  apply update_complete; [done..|simpl; lia|]. apply update_complete; [done..|]. apply update_complete; [done..|simpl; lia|done].
Qed.
Lemma clean_complete o :
  known_class (o_class o) → complete o → errors (o_messages (clean gpg_import_keys gpg_uids o)) = [] →
  complete (clean gpg_import_keys gpg_uids o).
Proof using Type.
  intros Hc Ho. unfold clean. destruct (String.eqb_spec (o_class_name o) "mntner") as [Hm|Hm].
  - unfold mntner_clean. by destruct (_ && _).
  - destruct (String.eqb_spec (o_class_name o) "key-cert") as [Hk|Hk]; [by apply keycert_complete|done].
Qed.

(** C31. An object that strict validation accepts, without errors, has every mandatory
    attribute, and apart from last-modified attributes, which validation ignores, no
    unknown attribute and no repeated single attribute; and every attribute of its class
    that it has, in particular every primary key and the source, has a parsed value.  This
    includes key-certs, some of whose attributes are replaced by those of the key. *)
Theorem strict_object_complete c text default_source o :
  known_class c → RPSLObject_init cfg gpg_import_keys gpg_uids c text true default_source = Ok o →
  errors (o_messages o) = [] →
  o_class o = c
  ∧ (∀ n, n ∈ attrs_required c → n ∈ names (o_object_data o))
  ∧ (∀ n, n ∈ names (o_object_data o) → n ≠ "last-modified" →
      n ∈ attrs_allowed c ∧ (1 < attr_count (o_object_data o) n → n ∈ attrs_multiple c))
  ∧ (∀ n, n ∈ names (o_object_data o) → n ∈ attrs_allowed c → is_Some (o_parsed_data o !! n)).
Proof using Type.
  intros Hc Hinit He.
  assert (o_class o = c ∧ complete o) as [Ec [[H1 H2] H3]].
  2: { rewrite Ec in *. split_and!; [done|done| |done]. intros n Hn Hne. apply H1; [done|]. by intros ?%list_elem_of_singleton. }
  revert Hinit He. unfold RPSLObject_init.
  destruct (_extract_attributes_values c text) as [ms data].
  set (ds := match default_source with Some _ => _ | None => _ end).
  unfold _validate_object. cbn [o_messages o_object_data o_metadata set_state o_class o_strict_validation
    o_default_source add_messages o_parsed_data].
  destruct (has_errors ms) eqn:Ems.
  { (* errors of the extraction are never removed *)
    unfold _parse_attribute_data. simpl.
    destruct (parse_attributes cfg c true _ _ data) as [[[[ms1 pd1] md1] data1]|] eqn:E; simpl; [|done].
    destruct (parse_attributes_strict _ _ _ _ _ _ _ _ _ _ Hc E) as ([new ->] & _).
    assert (has_errors (ms ++ new) = true) as ->.
    { unfold has_errors in *. rewrite errors_app. by destruct (errors ms). }
    intros; simplify_eq. simpl in *. rewrite errors_app_nil in *.
    unfold has_errors in Ems. destruct (errors ms); naive_solver. }
  set (cm := _validate_attribute_counts c true ds data).
  unfold _parse_attribute_data. simpl.
  destruct (parse_attributes cfg c true _ _ data) as [[[[ms1 pd1] md1] data1]|] eqn:E; simpl; [|done].
  destruct (parse_attributes_strict _ _ _ _ _ _ _ _ _ _ Hc E) as ([new ->] & Hn & _ & Hv).
  set (o1 := set_state _ _ _ _ _). intros [= <-] He.
  destruct (has_errors ((ms ++ cm) ++ new)) eqn:Eh; cbn [negb] in *.
  { apply has_errors_false in He. simpl in He. by rewrite Eh in He. }
  apply has_errors_false in Eh. pose proof Eh as He2. rewrite !errors_app_nil in He2. destruct He2 as [[_ Hcm] _].
  apply counts_strict in Hcm as [Hc1 Hc2].
  assert (complete o1) as Ho1.
  { unfold complete, counts_ok, o1. cbn [o_class o_object_data o_parsed_data set_state]. rewrite Hn. split; [split; [|done]|].
    - intros n. rewrite (names_count _ _ n Hn). apply Hc1.
    - intros n Hin Hall. specialize (Hv Eh n Hin Hall).
      destruct (pd1 !! "source") eqn:Es; [done|]. destruct ds as [s|]; [|done].
      destruct (String.eqb s ""); [done|]. destruct (decide (n = "source")) as [->|Hne].
      + rewrite lookup_insert_eq. eauto.
      + by rewrite lookup_insert_ne. }
  split; [|by apply clean_complete].
  unfold clean, mntner_clean, keycert_clean. destruct (String.eqb _ "mntner"); [by destruct (_ && _)|].
  destruct (String.eqb _ "key-cert"); [|done]. destruct (gpg_import_keys _) as [[|? [|? ?]] ?]; try done. by destruct (String.eqb _ _).
Qed.
End Strict.

(** ** Concrete objects *)

Module RpslExamples.
Import ConcreteIP.

Definition text_of (lines : list string) : string := para_text lines.
Definition no_gpg (_ : string) : list string * option string := ([], None).
Definition no_uids (_ : string) : list string := [].
Definition parse (c : rpsl_class) (text : string) (strict : bool) : res RPSLObject :=
  RPSLObject_init (conf_of VNone) no_gpg no_uids c text strict None.

Definition set_text : string :=
  text_of ["as-set: AS65537:AS-X"; "members: AS1,"; "+ AS2"; "mnt-by: M-MNT"; "descr:"; "source: TEST"].
(** The value of members starts on the second line. *)
Definition late_text : string :=
  text_of ["as-set: AS65537:AS-X"; "members:"; "+ AS1,"; "+"; "  AS2"; "mnt-by: M-MNT"; "source: TEST"].
Definition late_data : list attribute :=
  [("as-set", "AS65537:AS-X", ""); ("members", NL +:+ "AS1," +:+ NL +:+ NL +:+ "AS2", "++ ");
   ("mnt-by", "M-MNT", ""); ("source", "TEST", "")].

(** Extraction keeps the empty first line; rendering drops it, and the continuation characters
    move up by one line. *)
Lemma extract_render_roundtrip_witness :
  _extract_attributes_values RPSLAsSet late_text = ([], late_data) ∧
  ∃ text, render_data late_data = Ok text
    ∧ _extract_attributes_values RPSLAsSet text
      = ([], [("as-set", "AS65537:AS-X", ""); ("members", "AS1," +:+ NL +:+ NL +:+ "AS2", "++");
              ("mnt-by", "M-MNT", ""); ("source", "TEST", "")]).
Proof.
  destruct (extract_render_roundtrip RPSLAsSet (ex_intro _ "as-set" eq_refl)) as [Hform Hround].
  assert (_extract_attributes_values RPSLAsSet late_text = ([], late_data)) as E by reflexivity.
  specialize (Hform late_text). rewrite E in Hform. split; [exact E|].
  destruct (Hround late_data Hform) as (text & Hr & He & _).
  exists text. split; [exact Hr|]. rewrite He. reflexivity.
Defined.

(** A value on a continuation line only: after one round the continuation is gone. *)
Example continuation_dropped :
  let data := [("members", NL +:+ "AS1", "+")] in
  (_extract_attributes_values RPSLAsSet (text_of ["members:"; "+ AS1"]),
   (λ t, _extract_attributes_values RPSLAsSet t) <$> match render_data data with Ok t => Some t | Raise _ => None end)
  = (([], data), Some ([], [("members", "AS1", "")])).
Proof. reflexivity. Qed.

Definition set_object : RPSLObject :=
  match parse RPSLAsSet set_text true with
  | Ok o => o
  | Raise _ => {| o_class := RPSLAsSet; o_messages := []; o_object_data := [];
                  o_strict_validation := true; o_default_source := None; o_parsed_data := ∅;
                  o_metadata := metadata_none; o_pk_asn_segment := None |}
  end.

Lemma strict_object_complete_witness :
  o_class_name set_object = "as-set" ∧ "source" ∈ names (o_object_data set_object) ∧ is_Some (o_parsed_data set_object !! "mnt-by").
Proof.
  assert (RPSLObject_init (conf_of VNone) no_gpg no_uids RPSLAsSet set_text true None = Ok set_object) as Hok.
  { assert (is_Ok (parse RPSLAsSet set_text true) = true) as Hok by (vm_compute; reflexivity).
    unfold set_object, parse in *. destruct (RPSLObject_init _ _ _ _ _ _ _) eqn:E; [reflexivity|done]. }
  destruct (strict_object_complete (conf_of VNone) no_gpg no_uids RPSLAsSet set_text None set_object (ex_intro _ "as-set" eq_refl) Hok)
    as (_ & Hreq & _ & Hval).
  - vm_compute. reflexivity.
  - split; [vm_compute; reflexivity|]. split.
    + apply Hreq. apply (bool_decide_unpack _). vm_compute. exact I.
    + apply Hval; apply (bool_decide_unpack _); vm_compute; exact I.
Defined.

(** Validation ignores last-modified: a person that strict validation accepts may have
    several, although the class does not have the attribute. *)
Example repeated_last_modified :
  match parse RPSLPerson (text_of ["person: J Doe"; "address: A"; "phone: +1"; "nic-hdl: JD-TEST"; "mnt-by: M-MNT"; "e-mail: a@example.com";
                                   "source: TEST"; "last-modified: x"; "last-modified: y"]) true with
  | Ok o => negb (has_errors (o_messages o)) && Nat.eqb (attr_count (o_object_data o) "last-modified") 2
            && negb (bool_decide ("last-modified" ∈ attrs_allowed RPSLPerson)) && bool_decide (o_parsed_data o !! "last-modified" = None)
  | Raise _ => false
  end = true.
Proof. vm_compute. reflexivity. Qed.

(** In non-strict mode a repeated primary key is not an error message: the
    [ValueError] of the metadata leaves the constructor. *)
Example repeated_pk_raises :
  match parse RPSLRoute (text_of ["route: 192.0.2.0/24"; "route: 192.0.2.0/25"; "origin: AS1";
                                  "source: TEST"]) false with
  | Raise (ValueError _) => true
  | _ => false
  end = true.
Proof. vm_compute. reflexivity. Qed.

(** The message for a set name that is not hierarchical names no example. *)
Example set_create_message :
  match parse RPSLAsSet (text_of ["as-set: AS-X"; "mnt-by: M-MNT"; "source: TEST"]) true with
  | Ok o => existsb (λ m, contains "AS65537:None" m) (errors (o_messages (clean_for_create (conf_of VNone) o).1))
  | Raise _ => false
  end = true.
Proof. vm_compute. reflexivity. Qed.

(** A repeated single attribute of a non-strict object keeps the last value only. *)
Example repeated_single_attribute :
  match parse RPSLAsSet (text_of ["as-set: AS-X"; "source: TEST1"; "source: TEST2"]) false with
  | Ok o => bool_decide (o_parsed_data o !! "source" = Some (PStr (NL +:+ "TEST2")))
  | Raise _ => false
  end = true.
Proof. vm_compute. reflexivity. Qed.
End RpslExamples.
