(* ===== verification/Queries.v ===== *)
(** * Query builders ([irrd/storage/queries.py])

    A builder accumulates the conjuncts of a [WHERE] clause; running it filters
    the table, orders and limits the rows.  PostgreSQL's [INET] and [CIDR]
    comparisons are written out on addresses; the collation of text is a
    parameter. *)
From S2P Require Import Prelude PyStr Conf Net Models Text Rpki RpslObjects.

(** ** [INET] values *)

(** A stored address, read as PostgreSQL reads its text. *)
Definition inet_val (s : string) : option (Z * Z) :=
  if has_char ":"%char s then (λ b, (6%Z, bytes_val b)) <$> inet_pton6 s
  else (λ b, (4%Z, bytes_val b)) <$> inet_pton4 s.
(** [<=] on [INET] host addresses: family first, then address. *)
Definition inet_le (a b : Z * Z) : bool :=
  ((a.1 <? b.1) || (a.1 =? b.1) && (a.2 <=? b.2))%Z.
Definition inet_eq (a b : Z * Z) : bool := ((a.1 =? b.1) && (a.2 =? b.2))%Z.
(** A stored prefix. *)
Definition cidr_val (s : string) : option cidr :=
  match split_on "/"%char s with
  | [a; l] => '(v, n) ← inet_val a; l ← py_int l; Some {| c_version := v; c_addr := n; c_len := l |}
  | _ => None
  end.
(** [<<]: strictly contained. *)
Definition cidr_contained (a b : cidr) : bool :=
  cidr_contains_eq b a && negb (bool_decide (a = b)).

(** SQL comparisons are not true on [NULL]. *)
Definition sql2 {A B} (f : A → B → bool) (a : option A) (b : option B) : bool :=
  match a, b with Some a, Some b => f a b | _, _ => false end.
Definition row_ip_first (r : rpsl_row) : option (Z * Z) := r_ip_first r ≫= inet_val.
Definition row_ip_last (r : rpsl_row) : option (Z * Z) := r_ip_last r ≫= inet_val.
Definition row_cidr (r : rpsl_row) : option cidr := r_prefix r ≫= cidr_val.

Section Queries.
Context `{IPyLib} (cfg : configuration).
(** Text comparison of the database. *)
Context (collate_lt : string → string → bool).

(** ** The builder *)

Record query := {
  q_where : list (rpsl_row → bool);
  (** The conjuncts of the size subquery of [ip_less_specific_one_level]. *)
  q_one_level : option (list (rpsl_row → bool));
  q_frozen : bool;
  q_sources_list : list string;
  q_object_classes : list string;
  q_ordered_by_sources : bool;
  q_enable_ordering : bool;
  q_limit : option nat;
}.
Definition RPSLDatabaseQuery (ordered_by_sources enable_ordering : bool) : query := {|
  q_where := []; q_one_level := None; q_frozen := false; q_sources_list := []; q_object_classes := [];
  q_ordered_by_sources := ordered_by_sources; q_enable_ordering := enable_ordering; q_limit := None |}.

Definition _check_query_frozen (q : query) : res unit :=
  if q_frozen q
  then Raise (ValueError "This query was frozen - no more filters can be applied.") else Ok tt.
Definition with_filter (q : query) (f : rpsl_row → bool) : query := {|
  q_where := q_where q ++ [f]; q_one_level := q_one_level q; q_frozen := q_frozen q;
  q_sources_list := q_sources_list q; q_object_classes := q_object_classes q;
  q_ordered_by_sources := q_ordered_by_sources q; q_enable_ordering := q_enable_ordering q;
  q_limit := q_limit q |}.
Definition _filter (q : query) (f : rpsl_row → bool) : res query :=
  _ ← _check_query_frozen q; Ok (with_filter q f).

Definition q_pk (q : query) (pk : string) : res query := _filter q (λ r, String.eqb (r_pk r) pk).
Definition q_pks (q : query) (pks : list string) : res query := _filter q (λ r, bool_decide (r_pk r ∈ pks)).
Definition rpsl_pks (q : query) (pks : list string) : res query :=
  let pks := (λ p, strip (str_upper p)) <$> pks in _filter q (λ r, bool_decide (r_rpsl_pk r ∈ pks)).
Definition rpsl_pk (q : query) (pk : string) : res query := rpsl_pks q [pk].
Definition sources (q : query) (srcs : list string) : res query :=
  let srcs := (λ s, strip (str_upper s)) <$> srcs in
  let q := {| q_where := q_where q; q_one_level := q_one_level q; q_frozen := q_frozen q;
              q_sources_list := srcs; q_object_classes := q_object_classes q;
              q_ordered_by_sources := q_ordered_by_sources q; q_enable_ordering := q_enable_ordering q;
              q_limit := q_limit q |} in
  _filter q (λ r, bool_decide (r_source r ∈ srcs)).
Definition object_classes (q : query) (classes : list string) : res query :=
  let q := {| q_where := q_where q; q_one_level := q_one_level q; q_frozen := q_frozen q;
              q_sources_list := q_sources_list q; q_object_classes := classes;
              q_ordered_by_sources := q_ordered_by_sources q; q_enable_ordering := q_enable_ordering q;
              q_limit := q_limit q |} in
  _filter q (λ r, bool_decide (r_object_class r ∈ classes)).
Definition limit (q : query) (record_limit : nat) : query := {|
  q_where := q_where q; q_one_level := q_one_level q; q_frozen := q_frozen q;
  q_sources_list := q_sources_list q; q_object_classes := q_object_classes q;
  q_ordered_by_sources := q_ordered_by_sources q; q_enable_ordering := q_enable_ordering q;
  q_limit := Some record_limit |}.
Definition first_only (q : query) : query := limit q 1.

(** ** Attributes *)

(** PostgreSQL's [?] on a JSON value: a string equal to it, or an element. *)
Definition json_has (v : pdata) (s : string) : bool :=
  match v with PStr t => String.eqb t s | PList l => bool_decide (s ∈ l) | PInt _ => false end.
(** A value to look for; [None] is the literal [True], any value. *)
Definition attr_matches (r : rpsl_row) (attr_name : string) (attr_value : option string) : bool :=
  match r_parsed_data r !! attr_name, attr_value with
  | None, _ => false
  | Some _, None => true
  | Some v, Some s => json_has v (str_upper s)
  end.
Definition lookup_attrs_in (q : query) (attr_names : list string) (attr_values : list (option string))
  : res query :=
  let attr_names := str_lower <$> attr_names in
  match List.find (λ n, negb (bool_decide (n ∈ lookup_field_names))) attr_names with
  | Some n => Raise (ValueError ("Invalid lookup attribute: " +:+ n))
  | None =>
      _ ← _check_query_frozen q;
      match attr_names, attr_values with
      | [], _ | _, [] => Ok q   (* an empty [or_] adds no condition *)
      | _, _ => _filter q (λ r, existsb (λ n, existsb (attr_matches r n) attr_values) attr_names)
      end
  end.
Definition lookup_attr (q : query) (attr_name : string) (attr_value : option string) : res query :=
  lookup_attrs_in q [attr_name] [attr_value].

(** ** Addresses *)

Definition net_of (ip : IP) : Z * Z := (ip_version ip, ip_first ip).
Definition broadcast_of (ip : IP) : Z * Z := (ip_version ip, ip_last ip).
Definition version_is (ip : IP) (r : rpsl_row) : bool := sql2 Z.eqb (r_ip_version r) (Some (ip_version ip)).
Definition is_exact (ip : IP) (r : rpsl_row) : bool :=
  sql2 inet_eq (row_ip_first r) (Some (net_of ip)) && sql2 inet_eq (row_ip_last r) (Some (broadcast_of ip)).

Definition _prefix_query_permitted (q : query) : bool :=
  truthy (get_setting cfg "compatibility.inetnum_search_disabled")
  || match q_object_classes q with
     | [] => false
     | l => negb (bool_decide ("inetnum" ∈ l))
     end.

Definition ip_exact (q : query) (ip : IP) : res query := _filter q (λ r, is_exact ip r && version_is ip r).

(** Each search by the [CIDR] column, and by first and last address. *)
Definition less_specific_cidr (ip : IP) (r : rpsl_row) : bool :=
  sql2 cidr_contains_eq (row_cidr r) (Some (cidr_of_ip ip)).
Definition less_specific_range (ip : IP) (r : rpsl_row) : bool :=
  sql2 inet_le (row_ip_first r) (Some (net_of ip)) && sql2 inet_le (Some (broadcast_of ip)) (row_ip_last r)
  && version_is ip r.
Definition ip_less_specific (q : query) (ip : IP) : res query :=
  _filter q (if _prefix_query_permitted q then less_specific_cidr ip else less_specific_range ip).

Definition within_range (ip : IP) (r : rpsl_row) : bool :=
  sql2 inet_le (Some (net_of ip)) (row_ip_first r) && sql2 inet_le (row_ip_first r) (Some (broadcast_of ip))
  && sql2 inet_le (row_ip_last r) (Some (broadcast_of ip)) && sql2 inet_le (Some (net_of ip)) (row_ip_last r).
Definition more_specific_cidr (ip : IP) (r : rpsl_row) : bool :=
  sql2 cidr_contained (row_cidr r) (Some (cidr_of_ip ip)).
Definition more_specific_range (ip : IP) (r : rpsl_row) : bool :=
  within_range ip r && version_is ip r && negb (is_exact ip r).
Definition ip_more_specific (q : query) (ip : IP) : res query :=
  _filter q (if _prefix_query_permitted q then more_specific_cidr ip else more_specific_range ip).

Definition any_cidr (ip : IP) (r : rpsl_row) : bool := less_specific_cidr ip r || more_specific_cidr ip r.
Definition any_range (ip : IP) (r : rpsl_row) : bool :=
  ((sql2 inet_le (row_ip_first r) (Some (net_of ip)) && sql2 inet_le (Some (broadcast_of ip)) (row_ip_last r))
   || within_range ip r) && version_is ip r.
Definition ip_any (q : query) (ip : IP) : res query :=
  _filter q (if _prefix_query_permitted q then any_cidr ip else any_range ip).

(** One level less specific: the rows of the smallest size among the strictly
    less specific ones that satisfy everything filtered so far. *)
Definition strictly_less_range (ip : IP) (r : rpsl_row) : bool :=
  less_specific_range ip r && negb (is_exact ip r).
Definition ip_less_specific_one_level (q : query) (ip : IP) : res query :=
  _ ← _check_query_frozen q;
  let fs := q_where q ++ [strictly_less_range ip] in
  Ok {| q_where := fs; q_one_level := Some fs; q_frozen := true; q_sources_list := q_sources_list q;
        q_object_classes := q_object_classes q; q_ordered_by_sources := q_ordered_by_sources q;
        q_enable_ordering := q_enable_ordering q; q_limit := q_limit q |}.

(** ** AS numbers and statuses *)

Definition q_asn (q : query) (asn : Z) : res query :=
  _filter q (λ r, sql2 Z.eqb (r_asn_first r) (Some asn) && sql2 Z.eqb (r_asn_last r) (Some asn)).
Definition asns_first (q : query) (asns : list Z) : res query :=
  _filter q (λ r, match r_asn_first r with Some n => bool_decide (n ∈ asns) | None => false end).
Definition asn_less_specific (q : query) (asn : Z) : res query :=
  _filter q (λ r, sql2 Z.leb (r_asn_first r) (Some asn) && sql2 Z.leb (Some asn) (r_asn_last r)).
Definition rpki_status (q : query) (status : list RPKIStatus) : res query :=
  _filter q (λ r, bool_decide (r_rpki_status r ∈ status)).
Definition scopefilter_status (q : query) (status : list ScopeFilterStatus) : res query :=
  _filter q (λ r, bool_decide (r_scopefilter_status r ∈ status)).
Definition route_preference_status (q : query) (status : list RoutePreferenceStatus) : res query :=
  _filter q (λ r, bool_decide (r_route_preference_status r ∈ status)).
Definition default_suppression (q : query) : res query :=
  q ← rpki_status q [rpki_not_found; rpki_valid];
  q ← scopefilter_status q [in_scope];
  route_preference_status q [rp_visible].

(** ** Free text *)

(** [ILIKE '%value%']: the wildcards of the value are kept. *)
Fixpoint like_fuel (fuel : nat) (pat s : string) : bool :=
  match fuel with
  | 0%nat => false
  | S fuel' =>
      match pat, s with
      | "", "" => true
      | "", _ => false
      | String "%" p', "" => like_fuel fuel' p' ""
      | String "%" p', String _ s' => like_fuel fuel' p' s || like_fuel fuel' pat s'
      | String "_" p', String _ s' => like_fuel fuel' p' s'
      | String "\" (String c p'), String d s' => bool_decide (c = d) && like_fuel fuel' p' s'
      | String c p', String d s' => bool_decide (c = d) && like_fuel fuel' p' s'
      | String _ _, "" => false
      end
  end.
Definition ilike (s pat : string) : bool :=
  like_fuel (S (String.length pat + String.length s)) (str_lower pat) (str_lower s).

Definition name_matches (class value : string) (r : rpsl_row) : bool :=
  String.eqb (r_object_class r) class
  && match r_parsed_data r !! class with Some (PStr s) => ilike s ("%" +:+ value +:+ "%") | _ => false end.
Definition text_filter (value : string) (r : rpsl_row) : bool :=
  String.eqb (r_rpsl_pk r) (str_upper value) || name_matches "person" value r || name_matches "role" value r.
Definition text_search (q : query) (value : string) (extract_asn_ip : bool) : res query :=
  _ ← _check_query_frozen q;
  if extract_asn_ip then
    match parse_as_number cfg (inl value) false true with
    | Ok (_, asn) => q ← object_classes q ["as-block"; "as-set"; "aut-num"]; asn_less_specific q asn
    | Raise _ =>
        match ip_of 0 value with
        | inr ip => ip_less_specific q ip
        | inl _ => _filter q (text_filter value)
        end
    end
  else _filter q (text_filter value).

(** ** Running a query *)

Definition holds (fs : list (rpsl_row → bool)) (r : rpsl_row) : bool := forallb (λ f, f r) fs.
(** [ip_size IN (SELECT ip_size ... ORDER BY ip_size ASC LIMIT 1)]. *)
Fixpoint min_size (l : list (option Z)) : option Z :=
  match l with
  | [] => None
  | None :: l' => min_size l'
  | Some n :: l' => match min_size l' with Some m => Some (Z.min n m) | None => Some n end
  end.
Definition one_level_ok (q : query) (table : list rpsl_row) (r : rpsl_row) : bool :=
  match q_one_level q with
  | None => true
  | Some fs => sql2 Z.eqb (r_ip_size r) (min_size (r_ip_size <$> List.filter (holds fs) table))
  end.
Definition selected (q : query) (table : list rpsl_row) : list rpsl_row :=
  List.filter (λ r, holds (q_where q) r && one_level_ok q table r) table.

(** The order of [finalise_statement]: the rank of the source, then address, AS
    number and primary key, [NULL] last. *)
Fixpoint source_rank (n : Z) (l : list string) (s : string) : Z :=
  match l with
  | [] => 100000
  | s' :: l' => if String.eqb s' s then n else source_rank (n + 1) l' s
  end.
Definition nulls_last {A} (lt : A → A → bool) (a b : option A) : comparison :=
  match a, b with
  | Some a, Some b => if lt a b then Lt else if lt b a then Gt else Eq
  | Some _, None => Lt
  | None, Some _ => Gt
  | None, None => Eq
  end.
Definition inet_lt (a b : Z * Z) : bool := inet_le a b && negb (inet_eq a b).
Definition row_compare (q : query) (a b : rpsl_row) : comparison :=
  let by_source :=
    if q_ordered_by_sources q
    then Z.compare (source_rank 1 (q_sources_list q) (r_source a)) (source_rank 1 (q_sources_list q) (r_source b))
    else Eq in
  let then_ c d := match c with Eq => d | _ => c end in
  then_ by_source
    (then_ (nulls_last inet_lt (row_ip_first a) (row_ip_first b))
      (then_ (nulls_last Z.ltb (r_asn_first a) (r_asn_first b))
        (nulls_last collate_lt (Some (r_rpsl_pk a)) (Some (r_rpsl_pk b))))).
Fixpoint insert_sorted (cmp : rpsl_row → rpsl_row → comparison) (r : rpsl_row) (l : list rpsl_row) :=
  match l with
  | [] => [r]
  | x :: l' => match cmp r x with Gt => x :: insert_sorted cmp r l' | _ => r :: l end
  end.
Definition sort_rows (cmp : rpsl_row → rpsl_row → comparison) (l : list rpsl_row) : list rpsl_row :=
  foldr (insert_sorted cmp) [] l.
Definition finalise_statement (q : query) (rows : list rpsl_row) : list rpsl_row :=
  if q_enable_ordering q then sort_rows (row_compare q) rows else rows.
Definition execute_query (q : query) (table : list rpsl_row) : list rpsl_row :=
  let rows := finalise_statement q (selected q table) in
  match q_limit q with Some n => take n rows | None => rows end.

(** ** ROA objects and database status *)

Definition ROADatabaseObjectQuery (table : list roa_row) (ip : option IP) : list roa_row :=
  match ip with Some ip => roas_less_specific_or_exact table ip | None => table end.
End Queries.
