(* ===== verification/QueriesTheory.v ===== *)
(** * Correctness of the query builders *)
From S2P Require Import Prelude PyStr Conf Net Models Text Rpki RpkiTheory RpslObjects Queries.

(** ** The two search strategies *)

Section Strategies.
Context `{IPyLib} `{!IPyLaws}.

(** The address columns of [r] are those of the prefix [p], as they are stored
    for route, route6 and inet6num objects. *)
Record row_describes (r : rpsl_row) (p : IP) : Prop := {
  describes_version : r_ip_version r = Some (ip_version p);
  describes_first : row_ip_first r = Some (net_of p);
  describes_last : row_ip_last r = Some (broadcast_of p);
  describes_prefix : row_cidr r = Some (cidr_of_ip p);
}.

Lemma cidr_contains_range p q :
  cidr_contains_eq (cidr_of_ip p) (cidr_of_ip q) = true ↔
  ip_version p = ip_version q ∧ (ip_first p ≤ ip_first q)%Z ∧ (ip_last q ≤ ip_last p)%Z.
Proof.
  rewrite cidr_contains_eq_spec. simpl. unfold ip_first, ip_last.
  destruct (Z.eq_dec (ip_version p) (ip_version q)) as [E|E]; [|tauto]. rewrite E.
  rewrite aligned_contains; [tauto|..|apply ip_aligned].
  - rewrite <- E. apply ip_prefixlen_ok.
  - apply ip_prefixlen_ok.
  - rewrite <- E. apply ip_aligned.
Qed.

Lemma cidr_of_ip_eq p q :
  cidr_of_ip p = cidr_of_ip q ↔
  ip_version p = ip_version q ∧ ip_first p = ip_first q ∧ ip_last p = ip_last q.
Proof.
  unfold cidr_of_ip, ip_first, ip_last. split; [by intros [= -> -> ->]|].
  intros (E & Ef & El). rewrite E, Ef in *. f_equal.
  assert (2 ^ (ip_width (ip_version q) - ip_prefixlen p) = 2 ^ (ip_width (ip_version q) - ip_prefixlen q))%Z
    as Hpow by lia.
  pose proof (ip_prefixlen_ok p) as Hp. pose proof (ip_prefixlen_ok q) as Hq. rewrite E in Hp.
  apply Z.pow_inj_r in Hpow; lia.
Qed.

Lemma inet_le_same v a b : inet_le (v, a) (v, b) = (a <=? b)%Z.
Proof. unfold inet_le. simpl. by rewrite Z.ltb_irrefl, Z.eqb_refl. Qed.

Lemma less_specific_agree ip r p :
  row_describes r p → less_specific_cidr ip r = less_specific_range ip r.
Proof.
  intros [Hv Hf Hl Hc]. unfold less_specific_cidr, less_specific_range, version_is.
  rewrite Hv, Hf, Hl, Hc. simpl. apply eq_true_iff_eq.
  rewrite cidr_contains_range, !andb_true_iff, Z.eqb_eq.
  destruct (Z.eq_dec (ip_version p) (ip_version ip)) as [E|E]; [|tauto].
  unfold net_of, broadcast_of. rewrite E, !inet_le_same, !Z.leb_le. tauto.
Qed.

Lemma more_specific_agree ip r p :
  row_describes r p → more_specific_cidr ip r = more_specific_range ip r.
Proof.
  intros [Hv Hf Hl Hc]. unfold more_specific_cidr, more_specific_range, within_range, is_exact, version_is.
  rewrite Hv, Hf, Hl, Hc. simpl. unfold cidr_contained. apply eq_true_iff_eq.
  rewrite !andb_true_iff, !negb_true_iff, bool_decide_eq_false, andb_false_iff, cidr_contains_range,
    cidr_of_ip_eq, Z.eqb_eq.
  destruct (Z.eq_dec (ip_version p) (ip_version ip)) as [E|E]; [|intuition congruence].
  unfold net_of, broadcast_of, inet_eq. simpl.
  rewrite E, !inet_le_same, !Z.leb_le, Z.eqb_refl, !andb_true_l, !Z.eqb_neq.
  assert (ip_first p ≤ ip_last p ∧ ip_first ip ≤ ip_last ip)%Z as [Hp Hi].
  { unfold ip_first, ip_last.
    pose proof (ip_prefixlen_ok p). pose proof (ip_prefixlen_ok ip).
    assert (0 < 2 ^ (ip_width (ip_version p) - ip_prefixlen p))%Z by (apply Z.pow_pos_nonneg; lia).
    assert (0 < 2 ^ (ip_width (ip_version ip) - ip_prefixlen ip))%Z by (apply Z.pow_pos_nonneg; lia). lia. }
  split; intros Hx; (repeat split); lia || (destruct Hx as [? ?]; lia) || idtac.
Qed.

(** Whether a search goes through the [CIDR] column or compares first and
    last addresses - which depends on the classes asked for and on the settings -
    it selects the same rows among those that describe a prefix: for less
    specific, more specific and any overlap. *)
Theorem ip_search_strategies_agree ip r p :
  row_describes r p →
  less_specific_cidr ip r = less_specific_range ip r ∧
  more_specific_cidr ip r = more_specific_range ip r ∧
  any_cidr ip r = any_range ip r.
Proof.
  intros Hr. split; [by apply (less_specific_agree _ _ p)|]. split; [by apply (more_specific_agree _ _ p)|].
  unfold any_cidr. rewrite (less_specific_agree _ _ p), (more_specific_agree _ _ p) by done.
  unfold less_specific_range, more_specific_range, any_range.
  destruct Hr as [Hv Hf Hl Hc]. unfold is_exact. rewrite Hf, Hl. simpl.
  destruct (version_is ip r); [|by rewrite !andb_false_r].
  rewrite !andb_true_r.
  destruct (inet_eq (net_of p) (net_of ip) && inet_eq (broadcast_of p) (broadcast_of ip)) eqn:E.
  - unfold inet_eq, net_of, broadcast_of in E. simpl in E.
    rewrite !andb_true_iff, !Z.eqb_eq in E. destruct E as [[Ev Ef] [_ El]].
    unfold net_of, broadcast_of. rewrite Ev, Ef, El, !inet_le_same, !Z.leb_refl. done.
  - by rewrite andb_true_r.
Qed.
End Strategies.

(** ** One level less specific *)

Section OneLevel.
Context `{IPyLib} (cfg : configuration) (collate_lt : string → string → bool).

Lemma min_size_spec l n :
  min_size l = Some n ↔ Some n ∈ l ∧ ∀ m, Some m ∈ l → (n ≤ m)%Z.
Proof using Type.
  revert n. induction l as [|[m|] l IH]; intros n; simpl.
  - set_solver.
  - destruct (min_size l) as [k|] eqn:E.
    + destruct (IH k) as [Hk _]. destruct (Hk eq_refl) as [Hin Hmin]. split.
      * intros [= <-]. split.
        -- destruct (Z.min_spec m k) as [[_ ->]|[_ ->]]; set_solver.
        -- intros x Hx. apply elem_of_cons in Hx as [[= ->]|Hx]; [lia|].
           pose proof (Hmin x Hx). lia.
      * intros [Hn Hall]. f_equal. apply Z.le_antisymm.
        -- apply elem_of_cons in Hn as [[= ->]|Hn]; [lia|]. pose proof (Hmin n Hn). lia.
        -- assert (n ≤ m)%Z by (apply Hall; set_solver).
           assert (n ≤ k)%Z by (apply Hall; set_solver). lia.
    + assert (∀ x, Some x ∉ l) as Hno.
      { intros x Hx. clear IH. induction l as [|[y|] l IHl]; simpl in E; [set_solver| |].
        - destruct (min_size l); done.
        - apply elem_of_cons in Hx as [?|Hx]; [done|]. by apply IHl. }
      split; [|set_solver]. intros [= <-]. split; [set_solver|].
      intros x Hx. apply elem_of_cons in Hx as [[= ->]|Hx]; [lia|]. by apply Hno in Hx.
  - rewrite IH. set_solver.
Qed.

Lemma min_size_None l : min_size l = None ↔ ∀ m, Some m ∉ l.
Proof using Type.
  induction l as [|[m|] l IH]; simpl; [set_solver| |rewrite IH; set_solver].
  destruct (min_size l); split; try done; intros Hn; exfalso; apply (Hn m); set_solver.
Qed.

Lemma holds_app fs gs r : holds (fs ++ gs) r = holds fs r && holds gs r.
Proof using Type. apply forallb_app. Qed.

(** The one-level search returns exactly the strictly less specific rows,
    among those that pass the earlier filters, whose size is the smallest such
    size; and it finds a row whenever there is a candidate. *)
Theorem one_level_selects q ip q' table :
  ip_less_specific_one_level q ip = Ok q' →
  let candidate r := r ∈ table ∧ holds (q_where q) r = true ∧ strictly_less_range ip r = true in
  (∀ r, r ∈ selected q' table ↔
    candidate r ∧ ∃ n, r_ip_size r = Some n ∧
      ∀ r' m, candidate r' → r_ip_size r' = Some m → (n ≤ m)%Z) ∧
  ((∃ r n, candidate r ∧ r_ip_size r = Some n) → ∃ r, r ∈ selected q' table).
Proof using Type.
  unfold ip_less_specific_one_level. destruct (_check_query_frozen q); simpl; [|done].
  intros [= <-]. set (fs := q_where q ++ [strictly_less_range ip]).
  assert (∀ r, holds fs r = true ↔ holds (q_where q) r = true ∧ strictly_less_range ip r = true) as Hfs.
  { intros r. unfold fs. rewrite holds_app, andb_true_iff. simpl. by rewrite andb_true_r. }
  set (sizes := r_ip_size <$> List.filter (holds fs) table).
  assert (∀ m, Some m ∈ sizes ↔ ∃ r, (r ∈ table ∧ holds (q_where q) r = true ∧
    strictly_less_range ip r = true) ∧ r_ip_size r = Some m) as Hsizes.
  { intros m. unfold sizes. rewrite list_elem_of_fmap. setoid_rewrite filter_elem. setoid_rewrite Hfs.
    naive_solver. }
  assert (∀ r, r ∈ List.filter (λ r, holds fs r && sql2 Z.eqb (r_ip_size r) (min_size sizes)) table ↔
    (r ∈ table ∧ holds (q_where q) r = true ∧ strictly_less_range ip r = true) ∧
    ∃ n, r_ip_size r = Some n ∧ min_size sizes = Some n) as Hsel.
  { intros r. rewrite filter_elem, andb_true_iff, Hfs.
    destruct (r_ip_size r) as [n|], (min_size sizes) as [m|]; simpl; rewrite ?Z.eqb_eq; naive_solver. }
  split.
  - intros r. unfold selected, one_level_ok; simpl. fold fs. fold sizes. rewrite Hsel. split.
    + intros [Hc (n & Hn & Hmin)]. split; [done|]. exists n. split; [done|].
      apply min_size_spec in Hmin as [_ Hmin]. intros r' m Hc' Hm. apply Hmin, Hsizes. eauto.
    + intros [Hc (n & Hn & Hall)]. split; [done|]. exists n. split; [done|].
      apply min_size_spec. split; [apply Hsizes; eauto|].
      intros m Hm. apply Hsizes in Hm as (r' & Hc' & Hm). eauto.
  - intros (r & n & Hc & Hn). destruct (min_size sizes) as [m|] eqn:Em.
    + pose proof Em as Em'. apply min_size_spec in Em' as [Hin _].
      apply Hsizes in Hin as (r' & Hc' & Hm'). exists r'.
      unfold selected, one_level_ok; simpl. fold fs. fold sizes. rewrite Em. apply Hsel. eauto.
    + exfalso. apply (proj1 (min_size_None sizes) Em n). apply Hsizes. eauto.
Qed.

(** ** Suppression *)

Lemma filter_Ok q f : q_frozen q = false → _filter q f = Ok (with_filter q f).
Proof using Type. unfold _filter, _check_query_frozen. by intros ->. Qed.
Lemma default_suppression_Ok q :
  q_frozen q = false → ∃ q', default_suppression q = Ok q'
    ∧ q_limit q' = q_limit q ∧ q_one_level q' = q_one_level q ∧ q_enable_ordering q' = q_enable_ordering q
    ∧ ∀ r, holds (q_where q') r = holds (q_where q) r && row_visible r.
Proof using Type.
  intros Hq. unfold default_suppression, rpki_status, scopefilter_status, route_preference_status.
  rewrite filter_Ok by done. simpl. rewrite filter_Ok by done. simpl. rewrite filter_Ok by done.
  eexists. split; [done|]. split_and!; [done..|]. intros r. simpl. rewrite !holds_app, <- !andb_assoc. f_equal.
  unfold row_visible, object_is_visible, holds. simpl. rewrite !andb_true_r.
  by destruct (r_rpki_status r), (r_scopefilter_status r), (r_route_preference_status r).
Qed.

(** The default suppression of a query selects exactly the rows that are
    visible by their RPKI, scope filter and route preference status. *)
Theorem default_suppression_visible q q' r :
  default_suppression q = Ok q' →
  holds (q_where q') r = true ↔ holds (q_where q) r = true ∧ row_visible r = true.
Proof using Type.
  intros Hq'. destruct (q_frozen q) eqn:Hq.
  - by unfold default_suppression, rpki_status, _filter, _check_query_frozen in Hq'; rewrite Hq in Hq'.
  - destruct (default_suppression_Ok q Hq) as (q1 & Hq1 & _ & _ & _ & Hr). rewrite Hq1 in Hq'.
    injection Hq' as <-. by rewrite Hr, andb_true_iff.
Qed.
End OneLevel.

Module QueryExamples.
Import ConcreteIP.

Definition ex_row (pk first last prefix : string) (size : Z) : rpsl_row := {|
  r_pk := pk; r_rpsl_pk := pk; r_source := "TEST"; r_object_class := "route";
  r_parsed_data := ∅; r_object_text := ""; r_ip_version := Some 4%Z; r_ip_first := Some first;
  r_ip_last := Some last; r_ip_size := Some size; r_prefix := Some prefix; r_prefix_length := None;
  r_asn_first := Some 1%Z; r_asn_last := Some 1%Z; r_rpki_status := rpki_not_found;
  r_scopefilter_status := in_scope; r_route_preference_status := rp_visible;
  r_created := 0; r_updated := 0 |}.
Definition row24 : rpsl_row := ex_row "24" "192.0.2.0" "192.0.2.255" "192.0.2.0/24" 256.
Definition row16 : rpsl_row := ex_row "16" "192.0.0.0" "192.0.255.255" "192.0.0.0/16" 65536.

Lemma ip_search_strategies_agree_witness :
  any_cidr (lit "192.0.2.128/25") row24 = any_range (lit "192.0.2.128/25") row24.
Proof.
  refine (proj2 (proj2 (ip_search_strategies_agree (lit "192.0.2.128/25") row24 (lit "192.0.2.0/24") _))).
  split; reflexivity.
Defined.

Definition base : query := RPSLDatabaseQuery true true.
Definition one_level_query : query :=
  match ip_less_specific_one_level base (lit "192.0.2.128/25") with Ok q => q | Raise _ => base end.

Lemma one_level_selects_witness :
  ∃ n, r_ip_size row24 = Some n ∧
    ∀ r' m, r' ∈ [row16; row24] ∧ holds (q_where base) r' = true ∧
            strictly_less_range (lit "192.0.2.128/25") r' = true →
            r_ip_size r' = Some m → (n ≤ m)%Z.
Proof.
  refine (proj2 (proj1 (proj1 (one_level_selects base (lit "192.0.2.128/25") one_level_query [row16; row24]
    eq_refl) row24) _)).
  apply filter_elem. split; [apply elem_of_cons; right; apply elem_of_cons; by left|].
  vm_compute. reflexivity.
Defined.

Definition suppressed_query : query :=
  match default_suppression base with Ok q => q | Raise _ => base end.
Lemma default_suppression_visible_witness :
  holds (q_where base) (set_rpki_status rpki_valid row24) = true ∧
  row_visible (set_rpki_status rpki_valid row24) = true.
Proof.
  apply (default_suppression_visible base suppressed_query (set_rpki_status rpki_valid row24) eq_refl).
  vm_compute. reflexivity.
Defined.
End QueryExamples.

(** ** Results of queries *)

Lemma take_elem {A} n (l : list A) x : x ∈ take n l → x ∈ l.
Proof. intros Hx. rewrite <- (take_drop n l), elem_of_app. by left. Qed.
Section QueryRows.
Context `{IPyLib} (collate_lt : string → string → bool).

Lemma insert_sorted_elem cmp r l x : x ∈ insert_sorted cmp r l ↔ x = r ∨ x ∈ l.
Proof.
  induction l as [|y l IH]; simpl; [set_solver|].
  destruct (cmp r y); rewrite ?elem_of_cons, ?IH, ?elem_of_cons; tauto.
Qed.
Lemma sort_rows_elem cmp l x : x ∈ sort_rows cmp l ↔ x ∈ l.
Proof. induction l as [|r l IH]; simpl; [done|]. rewrite insert_sorted_elem, IH, elem_of_cons. done. Qed.
Lemma finalise_elem q l x : x ∈ finalise_statement collate_lt q l ↔ x ∈ l.
Proof. unfold finalise_statement. destruct (q_enable_ordering q); [apply sort_rows_elem|done]. Qed.
(** A row of a result is in the table and meets every condition. *)
Lemma execute_query_elem q table r :
  r ∈ execute_query collate_lt q table → r ∈ table ∧ holds (q_where q) r = true.
Proof.
  intros Hr. assert (r ∈ selected q table) as Hs.
  { unfold execute_query in Hr. apply (finalise_elem q). destruct (q_limit q); [by eapply take_elem|done]. }
  apply filter_elem in Hs as [Hin Hs]. by apply andb_true_iff in Hs as [? _].
Qed.
(** Without a limit, or one level of specificity, all of them are in the result. *)
Lemma execute_query_complete q table r :
  q_limit q = None → q_one_level q = None → r ∈ table → holds (q_where q) r = true → r ∈ execute_query collate_lt q table.
Proof.
  intros Hlimit Hlevel Hin Hr. unfold execute_query. rewrite Hlimit. apply finalise_elem, filter_elem.
  unfold one_level_ok. by rewrite Hr, Hlevel.
Qed.
(** The sort only changes the order. *)
Lemma insert_sorted_perm cmp r l : insert_sorted cmp r l ≡ₚ r :: l.
Proof.
  induction l as [|y l IH]; simpl; [done|]. destruct (cmp r y); [done..|]. rewrite IH. apply Permutation_swap.
Qed.
Lemma sort_rows_perm cmp l : sort_rows cmp l ≡ₚ l.
Proof. induction l as [|r l IH]; simpl; [done|]. by rewrite insert_sorted_perm, IH. Qed.
(** Without a limit or a level, a query is a filter of the table up to the order. *)
Lemma execute_query_perm q table p :
  q_limit q = None → q_one_level q = None → (∀ r, holds (q_where q) r = p r) →
  execute_query collate_lt q table ≡ₚ List.filter p table.
Proof.
  intros Hlimit Hlevel Hp. assert (selected q table = List.filter p table) as E.
  { unfold selected. apply filter_ext. intros r. unfold one_level_ok. by rewrite Hlevel, Hp, andb_true_r. }
  unfold execute_query, finalise_statement. rewrite Hlimit, E. destruct (q_enable_ordering q); [apply sort_rows_perm|done].
Qed.
(** Without a limit, a level or an order, a query is a filter of the table. *)
Lemma execute_query_filter q table p :
  q_limit q = None → q_one_level q = None → q_enable_ordering q = false → (∀ r, holds (q_where q) r = p r) →
  execute_query collate_lt q table = List.filter p table.
Proof.
  intros Hlimit Hlevel Horder Hp. unfold execute_query, finalise_statement, selected. rewrite Hlimit, Horder.
  apply filter_ext. intros r. unfold one_level_ok. by rewrite Hlevel, Hp, andb_true_r.
Qed.
Lemma q_where_filter q f q' : _filter q f = Ok q' → q_where q' = q_where q ++ [f].
Proof. unfold _filter. destruct (_check_query_frozen q); [|done]. by intros [= <-]. Qed.
Lemma holds_snoc fs f r : holds (fs ++ [f]) r = holds fs r && f r.
Proof. unfold holds. rewrite forallb_app. simpl. by rewrite andb_true_r. Qed.
End QueryRows.
