(* ===== verification/RoutePref.v ===== *)
(** * Route object preference ([irrd/routepref/routepref.py])

    The sources have preferences; a route object is suppressed when a route
    object that overlaps it comes from a source with a higher one.  [py-radix]
    is a third-party package: an interface with its documented laws. *)
From S2P Require Import Prelude PyStr Conf Net Models Rpki Queries.

(** The part of [radix.Radix] the code uses; a node is known by its prefix. *)
Class Radix (D : Type) := {
  rtree : Type;
  rtree_empty : rtree;
  (** The prefix a text denotes; [None] for its [ValueError]. *)
  rtree_prefix : string → option cidr;
  (** The data of the node with this prefix, if there is one. *)
  rtree_get : rtree → cidr → option D;
  (** [add], then assigning [data]. *)
  rtree_set : rtree → cidr → D → rtree;
  (** Iteration. *)
  rtree_nodes : rtree → list (cidr * D);
  search_covered : rtree → cidr → list (cidr * D);
  search_covering : rtree → cidr → list (cidr * D);
}.
Arguments rtree D {_}.

Class RadixLaws (D : Type) `{Radix D} : Prop := {
  rtree_get_empty : ∀ c, rtree_get rtree_empty c = None;
  rtree_get_set : ∀ t c c' d,
    rtree_get (rtree_set t c d) c' = if decide (c' = c) then Some d else rtree_get t c';
  rtree_nodes_ok : ∀ t c d, (c, d) ∈ rtree_nodes t ↔ rtree_get t c = Some d;
  (** The nodes at or below, and at or above, a prefix. *)
  search_covered_ok : ∀ t c c' d,
    (c', d) ∈ search_covered t c ↔ rtree_get t c' = Some d ∧ cidr_contains_eq c c' = true;
  search_covering_ok : ∀ t c c' d,
    (c', d) ∈ search_covering t c ↔ rtree_get t c' = Some d ∧ cidr_contains_eq c' c = true;
}.

(** A node's data: preference and current status per primary key. *)
Definition node_data : Type := list (string * (Z * RoutePreferenceStatus)).

Section RoutePref.
Context `{IPyLib} `{Radix node_data} (cfg : configuration).
Context (collate_lt : string → string → bool).

Record RoutePreferenceValidator := {
  source_preferences : list (string * Z);
  rp_tree : rtree node_data;
  excluded_currently_suppressed : list string;
}.

(** The preference of each source that has one. *)
Fixpoint load_preferences (items : list (string * pyval)) : res (list (string * Z)) :=
  match items with
  | [] => Ok []
  | (source_name, source_data) :: items' =>
      let v := settings_get source_data "route_object_preference" in
      if is_none v then load_preferences items'
      else
        match pyval_int v with
        | Some n => rest ← load_preferences items'; Ok ((source_name, n) :: rest)
        | None => Raise (ValueError "invalid literal for int()")
        end
  end.
Definition max_preference (prefs : list (string * Z)) : option Z :=
  match prefs.*2 with
  | [] => None
  | p :: ps => Some (foldr Z.max p ps)
  end.

Definition rp_add (v : RoutePreferenceValidator) (c : cidr) (pk : string) (preference : Z)
    (status : RoutePreferenceStatus) : RoutePreferenceValidator :=
  let data := default [] (rtree_get (rp_tree v) c) in
  {| source_preferences := source_preferences v;
     rp_tree := rtree_set (rp_tree v) c (dict_set pk (preference, status) data);
     excluded_currently_suppressed := excluded_currently_suppressed v |}.
Definition rp_exclude (v : RoutePreferenceValidator) (pk : string) : RoutePreferenceValidator := {|
  source_preferences := source_preferences v; rp_tree := rp_tree v;
  excluded_currently_suppressed := excluded_currently_suppressed v ++ [pk] |}.

Fixpoint _build_tree (v : RoutePreferenceValidator) (route_objects : list rpsl_row)
  : res RoutePreferenceValidator :=
  match route_objects with
  | [] => Ok v
  | r :: rs =>
      match assoc (r_source r) (source_preferences v) with
      | None =>
          if decide (r_route_preference_status r = rp_visible) then _build_tree v rs
          else _build_tree (rp_exclude v (r_pk r)) rs
      | Some preference =>
          match r_prefix r with
          | None => Raise (GenericException "TypeError")
          | Some text =>
              match rtree_prefix text with
              | None => Raise (ValueError "Invalid address format")
              | Some c => _build_tree (rp_add v c (r_pk r) preference (r_route_preference_status r)) rs
              end
          end
      end
  end.

Definition RoutePreferenceValidator_init (existing_route_objects : list rpsl_row)
  : res RoutePreferenceValidator :=
  prefs ← load_preferences (sources_items cfg);
  _build_tree {| source_preferences := prefs; rp_tree := rtree_empty;
                 excluded_currently_suppressed := [] |} existing_route_objects.

Definition _evaluate_route (v : RoutePreferenceValidator) (route_preference : Z)
    (overlapping_nodes : list (cidr * node_data)) : RoutePreferenceStatus :=
  if decide (Some route_preference = max_preference (source_preferences v)) then rp_visible
  else if existsb (λ '(_, data), existsb (λ '(_, (p, _)), (route_preference <? p)%Z) data) overlapping_nodes
  then rp_suppressed else rp_visible.

(** The nodes that overlap the prefix of a node. *)
Definition overlapping (v : RoutePreferenceValidator) (c : cidr) : list (cidr * node_data) :=
  search_covered (rp_tree v) c ++ search_covering (rp_tree v) c.
(** The primary keys of a node's routes that get a status they do not have. *)
Definition node_changes (v : RoutePreferenceValidator) (s : RoutePreferenceStatus)
    (node : cidr * node_data) : list string :=
  let nodes := overlapping v node.1 in
  omap (λ '(evaluated_key, (evaluated_preference, current_status)),
          let new_status := _evaluate_route v evaluated_preference nodes in
          if decide (new_status ≠ current_status ∧ new_status = s) then Some evaluated_key else None)
    node.2.
Definition validate_known_routes (v : RoutePreferenceValidator) : list string * list string :=
  match source_preferences v with
  | [] => ([], [])
  | _ => (rtree_nodes (rp_tree v) ≫= node_changes v rp_visible,
          rtree_nodes (rp_tree v) ≫= node_changes v rp_suppressed)
  end.

(** ** The database side *)

Definition route_query (filter_prefix : option IP) : res query :=
  q ← object_classes (RPSLDatabaseQuery false true) ["route"; "route6"];
  match filter_prefix with Some p => ip_any cfg q p | None => Ok q end.
Definition route_rows (table : list rpsl_row) (filter_prefix : option IP) : res (list rpsl_row) :=
  q ← route_query filter_prefix; Ok (execute_query collate_lt q table).
Definition build_validator (table : list rpsl_row) (filter_prefixes : list IP)
  : res RoutePreferenceValidator :=
  match filter_prefixes with
  | [] => rows ← route_rows table None; RoutePreferenceValidator_init rows
  | _ => rowss ← res_map (λ p, route_rows table (Some p)) filter_prefixes;
         RoutePreferenceValidator_init (concat rowss)
  end.

Definition MAX_FILTER_PREFIX_LEN : nat := 5000.
Definition enrich_pks (table : list rpsl_row) (pks_to_enrich : list string) : res (list rpsl_row) :=
  query ← q_pks (RPSLDatabaseQuery true false) pks_to_enrich;
  Ok (execute_query collate_lt query table).
Definition any_source_preference : bool :=
  existsb (λ '(_, settings), truthy (settings_get settings "route_object_preference")) (sources_items cfg).
(** The rows passed to the database handler's [update_route_preference_status]:
    to become visible, and to be suppressed. *)
Definition update_route_preference_status (table : list rpsl_row) (filter_prefixes : list IP)
  : res (list rpsl_row * list rpsl_row) :=
  if negb any_source_preference then Ok ([], [])
  else
    let filter_prefixes :=
      if (MAX_FILTER_PREFIX_LEN <? length filter_prefixes)%nat then [] else filter_prefixes in
    validator ← build_validator table filter_prefixes;
    let '(pks_to_be_visible, pks_to_be_suppressed) := validate_known_routes validator in
    let pks_to_become_visible := pks_to_be_visible ++ excluded_currently_suppressed validator in
    objs_to_become_visible ← enrich_pks table pks_to_become_visible;
    objs_to_be_suppressed ← enrich_pks table pks_to_be_suppressed;
    Ok (objs_to_become_visible, objs_to_be_suppressed).
End RoutePref.
Arguments RoutePreferenceValidator {_}.
