(* ===== verification/RoutePrefTheory.v ===== *)
(** * Correctness of the route object preference *)
From S2P Require Import Prelude PyStr Conf Net Models Rpki RpkiTheory RpslObjects Queries QueriesTheory RoutePref.

(** ** Nested prefixes *)

Lemma cidr_contains_trans a b c :
  (c_len b ≤ ip_width (c_version b))%Z →
  cidr_contains_eq a b = true → cidr_contains_eq b c = true → cidr_contains_eq a c = true.
Proof.
  rewrite !cidr_contains_eq_spec. intros Hb (Hv & Hl & Hs) (Hv' & Hl' & Hs').
  split_and!; [congruence|lia|]. rewrite Hs.
  rewrite <- Hv', <- Hv in *.
  set (w := ip_width (c_version a)) in *.
  assert (w - c_len a = (w - c_len b) + (c_len b - c_len a))%Z as -> by lia.
  rewrite <- !Z.shiftr_shiftr by lia. by rewrite Hs'.
Qed.

(** Two prefixes that contain a third are nested. *)
Lemma cidr_laminar a b c :
  (c_len a ≤ ip_width (c_version a))%Z → (c_len b ≤ ip_width (c_version b))%Z →
  cidr_contains_eq a c = true → cidr_contains_eq b c = true →
  cidr_contains_eq a b = true ∨ cidr_contains_eq b a = true.
Proof.
  rewrite !cidr_contains_eq_spec. intros Ha Hb (Hv & Hl & Hs) (Hv' & Hl' & Hs').
  rewrite Hv, Hv' in *. set (w := ip_width (c_version c)) in *.
  destruct (Z.le_ge_cases (c_len a) (c_len b)) as [Hle|Hle]; [left|right]; (split_and!; [done|lia|]).
  - assert (w - c_len a = (w - c_len b) + (c_len b - c_len a))%Z as E by lia.
    rewrite Hs, E, <- !Z.shiftr_shiftr by lia. by rewrite Hs'.
  - assert (w - c_len b = (w - c_len a) + (c_len a - c_len b))%Z as E by lia.
    rewrite Hs', E, <- !Z.shiftr_shiftr by lia. by rewrite Hs.
Qed.

Section RoutePrefTheory.
Context `{IPyLib} `{!IPyLaws} `{RadixLaws node_data} (cfg : configuration).
Definition row_node (r : rpsl_row) : option cidr := r_prefix r ≫= rtree_prefix.
Definition preference_in (prefs : list (string * Z)) (r : rpsl_row) : option Z := assoc (r_source r) prefs.
Definition data_at (t : rtree node_data) (c : cidr) : node_data := default [] (rtree_get t c).

(** Rows with the same primary key are the same row: the rows may be listed
    several times, as [build_validator] does for overlapping filters. *)
Definition rows_by_pk (rows : list rpsl_row) : Prop :=
  ∀ r r', r ∈ rows → r' ∈ rows → r_pk r = r_pk r' → r = r'.

(** A row's entry in the tree. *)
Definition entry_of (prefs : list (string * Z)) (r : rpsl_row) (c : cidr) (pk : string)
    (x : Z * RoutePreferenceStatus) : Prop :=
  r_pk r = pk ∧ row_node r = Some c ∧ preference_in prefs r = Some x.1 ∧ r_route_preference_status r = x.2.

Record built (prefs : list (string * Z)) (rows : list rpsl_row) (v : RoutePreferenceValidator) : Prop := {
  built_prefs : source_preferences v = prefs;
  built_nodup : ∀ c, NoDup (data_at (rp_tree v) c).*1;
  built_data : ∀ c pk x, dict_get pk (data_at (rp_tree v) c) = Some x ↔ ∃ r, r ∈ rows ∧ entry_of prefs r c pk x;
  built_excluded : ∀ pk, pk ∈ excluded_currently_suppressed v ↔
    ∃ r, r ∈ rows ∧ r_pk r = pk ∧ preference_in prefs r = None ∧ r_route_preference_status r = rp_suppressed;
  built_nodes : ∀ r, r ∈ rows → is_Some (preference_in prefs r) → is_Some (row_node r);
}.

Lemma snoc_other {A} (l : list A) r (P : A → Prop) :
  ¬ P r → (∃ x, x ∈ l ∧ P x) ↔ ∃ x, x ∈ l ++ [r] ∧ P x.
Proof.
  intros Hr. setoid_rewrite elem_of_app. setoid_rewrite list_elem_of_singleton. split.
  - intros (x & Hx & Hp). eauto.
  - intros (x & [Hx| ->] & Hp); [eauto|done].
Qed.

Lemma build_tree_built prefs rows done v v' :
  rows_by_pk (done ++ rows) → built prefs done v → _build_tree v rows = Ok v' → built prefs (done ++ rows) v'.
Proof.
  revert done v. induction rows as [|r rows IH]; intros done v Hpk Hv; simpl.
  - intros [= <-]. by rewrite app_nil_r.
  - rewrite cons_middle, app_assoc in Hpk |- *.
    assert (rows_by_pk (done ++ [r])) as Hpk'. { intros x y Hx Hy. apply Hpk; set_solver. }
    destruct Hv as [Hp Hnd Hd He Hn]. rewrite Hp.
    assert (∀ x, x ∈ done ++ [r] ↔ x ∈ done ∨ x = r) as Hin by set_solver.
    destruct (assoc (r_source r) prefs) as [p|] eqn:Ep.
    + destruct (r_prefix r) as [text|] eqn:Et; [|done].
      destruct (rtree_prefix text) as [c|] eqn:Ec; [|done].
      apply IH; [done|]. assert (row_node r = Some c) as Hc by (unfold row_node; by rewrite Et).
      split; simpl; [done|..].
      * intros c'. unfold data_at. rewrite rtree_get_set. case_decide as E; [|apply Hnd].
        simpl. apply dict_set_NoDup, Hnd.
      * intros c' pk x. unfold data_at. rewrite rtree_get_set. case_decide as E.
        -- subst c'. simpl. rewrite dict_set_get. fold (data_at (rp_tree v) c). case_decide as Epk.
           ++ split; [intros [= <-]; exists r; rewrite Hin; by repeat split; auto|].
              intros (r' & Hr' & Epk' & _ & Epr & Est). destruct x as [p' s']. simpl in *.
              assert (r' = r) as -> by (apply Hpk'; [done|set_solver|congruence]).
              unfold preference_in in Epr. congruence.
           ++ rewrite Hd. apply snoc_other. intros (Epk' & _). congruence.
        -- fold (data_at (rp_tree v) c'). rewrite Hd. apply snoc_other.
           intros (_ & Hc' & _). congruence.
      * intros pk. rewrite He. apply snoc_other. intros (_ & Hx & _). unfold preference_in in Hx. congruence.
      * intros r' [Hr'| ->]%Hin Hs; [by apply Hn|]. by rewrite Hc.
    + assert (∀ c pk x, ¬ entry_of prefs r c pk x) as Hent.
      { intros c pk x (_ & _ & Hx & _). unfold preference_in in Hx. congruence. }
      assert (∀ r', r' ∈ done ++ [r] → is_Some (preference_in prefs r') → is_Some (row_node r')) as Hn'.
      { intros r' [Hr'| ->]%Hin Hs; [by apply Hn|]. unfold preference_in in Hs.
        rewrite Ep in Hs. by apply is_Some_None in Hs. }
      case_decide as Es; apply IH; try done; (split; simpl; [done|done| | |exact Hn']).
      * intros. rewrite Hd. by apply snoc_other.
      * intros pk. rewrite He. apply snoc_other. intros (_ & _ & Hx). congruence.
      * intros. rewrite Hd. by apply snoc_other.
      * assert (r_route_preference_status r = rp_suppressed) by (by destruct (r_route_preference_status r)).
        intros pk. rewrite elem_of_app, list_elem_of_singleton, He. split.
        -- intros [(r' & Hr' & Hx)| ->]; [exists r'|exists r]; (split; [by apply Hin; auto|done]).
        -- intros (r' & [Hr'| ->]%Hin & Hx); [left; eauto|right]. by destruct Hx.
Qed.

Lemma init_built rows v :
  rows_by_pk rows → RoutePreferenceValidator_init cfg rows = Ok v →
  built (source_preferences v) rows v ∧ load_preferences (sources_items cfg) = Ok (source_preferences v).
Proof.
  unfold RoutePreferenceValidator_init. destruct (load_preferences _) as [prefs|]; simpl; [|done].
  intros Hpk Hb. apply (build_tree_built prefs _ []) in Hb; [|done|].
  - simpl in Hb. rewrite (built_prefs _ _ _ Hb). done.
  - split; simpl; try done; try set_solver.
    + intros c. unfold data_at. rewrite rtree_get_empty. constructor.
    + intros c pk x. unfold data_at. rewrite rtree_get_empty. simpl. set_solver.
Qed.
(** ** The verdict on a route *)

Definition nested (c c' : cidr) : Prop := cidr_contains_eq c c' = true ∨ cidr_contains_eq c' c = true.

(** Some route that overlaps [r] has a higher preference. *)
Definition outranked (prefs : list (string * Z)) (rows : list rpsl_row) (r : rpsl_row) : Prop :=
  ∃ r' c c' p p', r' ∈ rows ∧ row_node r = Some c ∧ row_node r' = Some c' ∧ nested c c' ∧
    preference_in prefs r = Some p ∧ preference_in prefs r' = Some p' ∧ (p < p')%Z.

Lemma max_preference_ge prefs m s p :
  max_preference prefs = Some m → assoc s prefs = Some p → (p ≤ m)%Z.
Proof.
  unfold max_preference. intros Hm Hp%assoc_elem%(list_elem_of_fmap_2 snd). simpl in Hp.
  destruct prefs.*2 as [|q qs]; [done|]. simplify_eq.
  induction qs as [|q' qs IH]; simpl.
  - apply list_elem_of_singleton in Hp. lia.
  - apply elem_of_cons in Hp as [->|[->|Hp]%elem_of_cons]; [|lia|].
    + assert (q ≤ foldr Z.max q qs)%Z by (apply IH; set_solver). lia.
    + assert (p ≤ foldr Z.max q qs)%Z by (apply IH; set_solver). lia.
Qed.

Lemma overlapping_elem v c c' d :
  (c', d) ∈ overlapping v c ↔ rtree_get (rp_tree v) c' = Some d ∧ nested c c'.
Proof.
  unfold overlapping, nested. rewrite elem_of_app, search_covered_ok, search_covering_ok. tauto.
Qed.

Lemma evaluate_spec prefs rows v r c p :
  built prefs rows v → row_node r = Some c → preference_in prefs r = Some p →
  _evaluate_route v p (overlapping v c) = rp_suppressed ↔ outranked prefs rows r.
Proof.
  intros Hv Hc Hp. unfold _evaluate_route. rewrite (built_prefs _ _ _ Hv).
  assert (existsb (λ '(_, data), existsb (λ '(_, (q, _)), (p <? q)%Z) data) (overlapping v c) = true ↔
          outranked prefs rows r) as Hex.
  { rewrite existsb_spec. split.
    - intros ([c' d] & [Hg Hn]%overlapping_elem & Hx). apply existsb_spec in Hx as ([pk [q s]] & Hin & Hlt).
      apply Z.ltb_lt in Hlt. pose proof (built_nodup _ _ _ Hv c') as Hnd. pose proof (built_data _ _ _ Hv c' pk (q, s)) as Hd.
      unfold data_at in Hnd, Hd. rewrite Hg in Hnd, Hd. simpl in Hnd, Hd.
      rewrite dict_get_elem in Hd by done. apply Hd in Hin as (r' & Hr' & _ & Hc' & Hq & _).
      exists r', c, c', p, q. split_and!; done.
    - intros (r' & c1 & c' & p1 & q & Hr' & Hc1 & Hc' & Hn & Hp1 & Hq & Hlt). simplify_eq.
      pose proof (built_nodup _ _ _ Hv c') as Hnd.
      pose proof (built_data _ _ _ Hv c' (r_pk r') (q, r_route_preference_status r')) as Hd.
      destruct Hd as [_ Hd]. specialize (Hd ltac:(exists r'; split; [done|]; by repeat split)).
      unfold data_at in Hnd, Hd. destruct (rtree_get (rp_tree v) c') as [d|] eqn:Hg; simpl in *; [|done].
      exists (c', d). split; [by apply overlapping_elem|]. apply existsb_spec.
      exists (r_pk r', (q, r_route_preference_status r')). split; [by apply dict_get_elem|]. by apply Z.ltb_lt. }
  case_decide as Em.
  - split; [done|]. intros (r' & c1 & c' & p1 & q & _ & _ & _ & _ & Hp1 & Hq & Hlt).
    unfold preference_in in *. symmetry in Em. pose proof (max_preference_ge _ _ _ _ Em Hq).
    simplify_eq. lia.
  - rewrite <- Hex. by destruct (existsb _ _).
Qed.

Lemma rp_status_cases (s : RoutePreferenceStatus) : s ≠ rp_suppressed → s = rp_visible.
Proof. by destruct s. Qed.

Lemma node_changes_spec prefs rows v s pk :
  rows_by_pk rows → built prefs rows v →
  pk ∈ rtree_nodes (rp_tree v) ≫= node_changes v s ↔
  ∃ r, r ∈ rows ∧ r_pk r = pk ∧ is_Some (preference_in prefs r) ∧ r_route_preference_status r ≠ s ∧
       (s = rp_suppressed ↔ outranked prefs rows r).
Proof.
  intros Hpk Hv. rewrite list_elem_of_bind. split.
  - intros ([c d] & Hin & Hnode). unfold node_changes in Hin. simpl in Hin.
    apply list_elem_of_omap in Hin as ([pk' [p cur]] & Hin & Hx). case_decide as E; [|done].
    destruct E as [Hne Hs]. simplify_eq. apply rtree_nodes_ok in Hnode.
    pose proof (built_nodup _ _ _ Hv c) as Hnd. pose proof (built_data _ _ _ Hv c pk (p, cur)) as Hd.
    unfold data_at in Hnd, Hd. rewrite Hnode in Hnd, Hd. simpl in Hnd, Hd.
    rewrite dict_get_elem in Hd by done. apply Hd in Hin as (r & Hr & Epk & Hc & Hp & Hst). simpl in *.
    exists r. rewrite Hp, Hst. split_and!; try done.
    by apply evaluate_spec.
  - intros (r & Hr & Epk & [p Hp] & Hne & Hs).
    destruct (built_nodes _ _ _ Hv r Hr ltac:(by rewrite Hp)) as [c Hc].
    pose proof (evaluate_spec _ _ _ _ _ _ Hv Hc Hp) as Hev.
    pose proof (built_nodup _ _ _ Hv c) as Hnd.
    pose proof (proj2 (built_data _ _ _ Hv c pk (p, r_route_preference_status r))
                  (ex_intro _ r (conj Hr (conj Epk (conj Hc (conj Hp eq_refl)))))) as Hd.
    unfold data_at in Hnd, Hd. destruct (rtree_get (rp_tree v) c) as [d|] eqn:Hg; simpl in *; [|done].
    exists (c, d). split; [|by apply rtree_nodes_ok]. unfold node_changes. apply list_elem_of_omap.
    exists (pk, (p, r_route_preference_status r)). split; [by apply dict_get_elem|]. simpl.
    assert (_evaluate_route v p (overlapping v c) = s) as ->; [|by rewrite decide_True].
    rewrite <- Hev in Hs. destruct s, (_evaluate_route v p (overlapping v c)); try done; naive_solver.
Qed.

Lemma validate_known_nodes v :
  (∀ s, source_preferences v = [] → rtree_nodes (rp_tree v) ≫= node_changes v s = []) →
  validate_known_routes v
  = (rtree_nodes (rp_tree v) ≫= node_changes v rp_visible, rtree_nodes (rp_tree v) ≫= node_changes v rp_suppressed).
Proof.
  intros Hn. unfold validate_known_routes. destruct (source_preferences v) eqn:E; [|done]. by rewrite !Hn.
Qed.

Lemma built_validate prefs rows v :
  rows_by_pk rows → built prefs rows v →
  validate_known_routes v
  = (rtree_nodes (rp_tree v) ≫= node_changes v rp_visible, rtree_nodes (rp_tree v) ≫= node_changes v rp_suppressed).
Proof.
  intros Hpk Hv. apply validate_known_nodes. intros s E.
  destruct (rtree_nodes _ ≫= _) as [|pk l] eqn:El; [done|]. exfalso.
  assert (pk ∈ rtree_nodes (rp_tree v) ≫= node_changes v s) as Hin by (rewrite El; set_solver).
  apply (node_changes_spec prefs rows) in Hin as (r & _ & _ & [p Hp] & _); [|done..].
  rewrite (built_prefs _ _ _ Hv) in E. unfold preference_in in Hp. by rewrite E in Hp.
Qed.

(** C40. The route preference validator reports exactly the primary keys whose
    status must change: a visible route of a ranked source is suppressed when a
    known route that overlaps it comes from a source with a higher preference; a
    suppressed one becomes visible when none does; and the suppressed routes of
    sources without a preference are listed apart. *)
Theorem route_preference_exact rows v lv ls :
  rows_by_pk rows → RoutePreferenceValidator_init cfg rows = Ok v → validate_known_routes v = (lv, ls) →
  (∀ pk, pk ∈ ls ↔ ∃ r, r ∈ rows ∧ r_pk r = pk ∧ r_route_preference_status r = rp_visible ∧
                        outranked (source_preferences v) rows r) ∧
  (∀ pk, pk ∈ lv ↔ ∃ r, r ∈ rows ∧ r_pk r = pk ∧ r_route_preference_status r = rp_suppressed ∧
                        is_Some (preference_in (source_preferences v) r) ∧
                        ¬ outranked (source_preferences v) rows r) ∧
  (∀ pk, pk ∈ excluded_currently_suppressed v ↔
     ∃ r, r ∈ rows ∧ r_pk r = pk ∧ r_route_preference_status r = rp_suppressed ∧
          preference_in (source_preferences v) r = None).
Proof.
  intros Hpk Hi. destruct (init_built _ _ Hpk Hi) as [Hb _]. rewrite (built_validate _ rows) by done. intros [= <- <-].
  split_and!; intros pk.
  - rewrite (node_changes_spec _ rows) by done. split; intros (r & Hr & Epk & Hx); exists r.
    + destruct Hx as (_ & Hne & Ho). split_and!; [done..|by apply rp_status_cases|by apply Ho].
    + destruct Hx as (Hst & Ho). rewrite Hst. split_and!; try done.
      destruct Ho as (? & ? & ? & ? & ? & ? & ? & ? & ? & -> & ?). done.
  - rewrite (node_changes_spec _ rows) by done. split; intros (r & Hr & Epk & Hx); exists r.
    + destruct Hx as (Hp & Hne & Ho). split_and!; try done; [by destruct (r_route_preference_status r)|].
      intros H'. by apply Ho in H'.
    + destruct Hx as (Hst & Hp & Ho). rewrite Hst. split_and!; try done.
  - rewrite (built_excluded _ _ _ Hb). split; intros (r & ? & ? & ? & ?); by exists r.
Qed.
(** ** Applying the changes *)

(** The rows after the lists of primary keys got their status. *)
Definition apply_changes (visible suppressed : list string) (r : rpsl_row) : rpsl_row :=
  if bool_decide (r_pk r ∈ suppressed) then set_route_preference_status rp_suppressed r
  else if bool_decide (r_pk r ∈ visible) then set_route_preference_status rp_visible r
  else r.

Lemma apply_changes_same lv ls r :
  r_pk (apply_changes lv ls r) = r_pk r ∧ r_source (apply_changes lv ls r) = r_source r ∧
  r_prefix (apply_changes lv ls r) = r_prefix r.
Proof. unfold apply_changes. by repeat case_bool_decide. Qed.

Lemma build_tree_Ok_map (f : rpsl_row → rpsl_row) rows v0 v1 v :
  (∀ r, r_source (f r) = r_source r ∧ r_prefix (f r) = r_prefix r) →
  source_preferences v0 = source_preferences v1 →
  _build_tree v0 rows = Ok v → ∃ v', _build_tree v1 (f <$> rows) = Ok v'.
Proof.
  intros Hf. revert v0 v1. induction rows as [|r rows IH]; intros v0 v1 Hs; csimpl; [eauto|].
  destruct (Hf r) as [-> ->]. rewrite Hs. destruct (assoc _ _) as [p|].
  - destruct (r_prefix r) as [text|]; [|done]. destruct (rtree_prefix text); [|done].
    by apply IH.
  - repeat case_decide; by apply IH.
Qed.

Lemma outranked_dec prefs rows v r :
  built prefs rows v → r ∈ rows → is_Some (preference_in prefs r) →
  outranked prefs rows r ∨ ¬ outranked prefs rows r.
Proof.
  intros Hb Hr Hp. destruct (built_nodes _ _ _ Hb r Hr Hp) as [c Hc]. destruct Hp as [p Hp].
  pose proof (evaluate_spec _ _ _ _ _ _ Hb Hc Hp) as Hev.
  destruct (_evaluate_route v p (overlapping v c)); [right; rewrite <- Hev; done|left; by apply Hev].
Qed.

(** The statuses after one evaluation. *)
Lemma settled_spec rows v lv ls :
  rows_by_pk rows → RoutePreferenceValidator_init cfg rows = Ok v → validate_known_routes v = (lv, ls) →
  let f := apply_changes (lv ++ excluded_currently_suppressed v) ls in
  (∀ r, r ∈ rows → is_Some (preference_in (source_preferences v) r) →
    r_route_preference_status (f r) = rp_suppressed ↔ outranked (source_preferences v) rows r) ∧
  (∀ r, r ∈ rows → preference_in (source_preferences v) r = None →
    r_route_preference_status (f r) = rp_visible).
Proof.
  intros Hpk Hi. destruct (init_built _ _ Hpk Hi) as [Hb _]. rewrite (built_validate _ rows) by done.
  intros [= <- <-]. unfold apply_changes.
  assert (∀ s r, r ∈ rows → r_pk r ∈ rtree_nodes (rp_tree v) ≫= node_changes v s ↔
    is_Some (preference_in (source_preferences v) r) ∧ r_route_preference_status r ≠ s ∧
    (s = rp_suppressed ↔ outranked (source_preferences v) rows r)) as Hn.
  { intros s r Hr. rewrite (node_changes_spec _ _ _ _ _ Hpk Hb). split.
    - intros (r' & Hr' & Epk & Hx). by rewrite (Hpk r' r Hr' Hr Epk) in Hx.
    - intros Hx. by exists r. }
  assert (∀ r, r ∈ rows → r_pk r ∈ excluded_currently_suppressed v ↔
    preference_in (source_preferences v) r = None ∧ r_route_preference_status r = rp_suppressed) as He.
  { intros r Hr. rewrite (built_excluded _ _ _ Hb). split.
    - intros (r' & Hr' & Epk & Hx). by rewrite (Hpk r' r Hr' Hr Epk) in Hx.
    - intros Hx. by exists r. }
  split; intros r Hr Hp.
  - case_bool_decide as E1; [rewrite Hn in E1 by done; simpl; naive_solver|]. rewrite Hn in E1 by done.
    case_bool_decide as E2; rewrite elem_of_app, Hn, He in E2 by done; simpl.
    + destruct E2 as [E2|[E2 _]]; [|rewrite E2 in Hp; by destruct Hp]. split; [done|].
      intros Ho. destruct E2 as (_ & _ & [_ E2]). by apply E2 in Ho.
    + destruct (r_route_preference_status r) eqn:Es; split; try done.
      * intros Ho. destruct E1. split_and!; done.
      * intros _. destruct (outranked_dec _ _ _ r Hb Hr Hp) as [Ho|Ho]; [done|].
        destruct E2. left. split_and!; done.
  - case_bool_decide as E1; [rewrite Hn in E1 by done; destruct E1 as [[? E1] _]; congruence|].
    case_bool_decide as E2; [done|]. rewrite elem_of_app, He in E2 by done.
    destruct (r_route_preference_status r) eqn:Es; [done|]. destruct E2. by right.
Qed.

(** One evaluation settles the statuses: with its changes applied, the
    same routes are evaluated again without any change. *)
Theorem route_preference_settles rows v lv ls :
  rows_by_pk rows → RoutePreferenceValidator_init cfg rows = Ok v → validate_known_routes v = (lv, ls) →
  ∃ v', RoutePreferenceValidator_init cfg
          (apply_changes (lv ++ excluded_currently_suppressed v) ls <$> rows) = Ok v' ∧
        validate_known_routes v' = ([], []) ∧ excluded_currently_suppressed v' = [].
Proof.
  intros Hpk Hi Hval. set (f := apply_changes (lv ++ excluded_currently_suppressed v) ls).
  destruct (init_built _ _ Hpk Hi) as [Hb Hprefs].
  assert (∃ v', RoutePreferenceValidator_init cfg (f <$> rows) = Ok v') as [v' Hi'].
  { revert Hi. unfold RoutePreferenceValidator_init. rewrite Hprefs. simpl. intros Hi.
    apply (build_tree_Ok_map f) with (2 := eq_refl) in Hi; [done|].
    intros r. destruct (apply_changes_same (lv ++ excluded_currently_suppressed v) ls r); naive_solver. }
  assert (rows_by_pk (f <$> rows)) as Hpk'.
  { intros x y (r & -> & Hr)%list_elem_of_fmap (r' & -> & Hr')%list_elem_of_fmap Heq.
    f_equal. apply Hpk; [done..|]. unfold f in Heq.
    by rewrite !(proj1 (apply_changes_same _ _ _)) in Heq. }
  destruct (init_built _ _ Hpk' Hi') as [Hb' Hprefs']. rewrite Hprefs in Hprefs'. injection Hprefs' as Hpr.
  exists v'. split; [done|].
  destruct (settled_spec _ _ _ _ Hpk Hi Hval) as [Hset Hexc]. fold f in Hset, Hexc.
  assert (∀ r, outranked (source_preferences v) (f <$> rows) (f r) ↔ outranked (source_preferences v) rows r)
    as Ho.
  { intros r. unfold outranked, row_node, preference_in, f.
    rewrite (proj1 (proj2 (apply_changes_same _ _ r))), (proj2 (proj2 (apply_changes_same _ _ r))).
    setoid_rewrite list_elem_of_fmap. split.
    - intros (x & c & c' & p & p' & (r' & -> & Hr') & Hx).
      rewrite (proj1 (proj2 (apply_changes_same _ _ r'))), (proj2 (proj2 (apply_changes_same _ _ r'))) in Hx.
      by exists r', c, c', p, p'.
    - intros (r' & c & c' & p & p' & Hr' & Hx). exists (f r'), c, c', p, p'. unfold f.
      rewrite (proj1 (proj2 (apply_changes_same _ _ r'))), (proj2 (proj2 (apply_changes_same _ _ r'))).
      split; [by exists r'|done]. }
  assert (∀ s, rtree_nodes (rp_tree v') ≫= node_changes v' s = []) as Hnil.
  { intros s. destruct (_ ≫= _) as [|pk l] eqn:E; [done|]. exfalso.
    assert (pk ∈ rtree_nodes (rp_tree v') ≫= node_changes v' s) as Hin by (rewrite E; set_solver).
    apply (node_changes_spec _ _ _ _ _ Hpk' Hb') in Hin as (x & Hx & _ & Hp & Hne & Hs).
    apply list_elem_of_fmap in Hx as (r & -> & Hr). rewrite <- Hpr, Ho in Hs.
    rewrite <- Hpr in Hp. unfold preference_in, f in Hp.
    rewrite (proj1 (proj2 (apply_changes_same _ _ r))) in Hp.
    specialize (Hset r Hr Hp). destruct s, (r_route_preference_status (f r)); naive_solver. }
  split; [rewrite (built_validate _ _ _ Hpk' Hb'); by rewrite !Hnil|].
  destruct (excluded_currently_suppressed v') as [|pk l] eqn:E; [done|]. exfalso.
  assert (pk ∈ excluded_currently_suppressed v') as Hin by (rewrite E; set_solver).
  apply (built_excluded _ _ _ Hb') in Hin as (x & Hx & _ & Hp & Hst).
  apply list_elem_of_fmap in Hx as (r & -> & Hr). rewrite <- Hpr in Hp. unfold preference_in, f in Hp.
  rewrite (proj1 (proj2 (apply_changes_same _ _ r))) in Hp. by rewrite (Hexc r Hr Hp) in Hst.
Qed.
(** ** Evaluating a part of the routes *)

Context (collate_lt : string → string → bool).

Lemma route_query_prefix p :
  route_query cfg (Some p) = Ok {|
    q_where := [λ r, bool_decide (r_object_class r ∈ ["route"; "route6"]); any_cidr p];
    q_one_level := None; q_frozen := false; q_sources_list := []; q_object_classes := ["route"; "route6"];
    q_ordered_by_sources := false; q_enable_ordering := true; q_limit := None |}.
Proof. unfold route_query, ip_any, _prefix_query_permitted. simpl. by rewrite orb_true_r. Qed.

Lemma route_rows_elem table fp rows x :
  route_rows cfg collate_lt table fp = Ok rows →
  x ∈ rows ↔ x ∈ table ∧ r_object_class x ∈ ["route"; "route6"] ∧
             match fp with Some p => any_cidr p x = true | None => True end.
Proof.
  unfold route_rows. destruct fp as [p|].
  - rewrite route_query_prefix. intros [= <-]. unfold execute_query, finalise_statement. simpl.
    rewrite sort_rows_elem. unfold selected, one_level_ok, holds. simpl.
    rewrite filter_elem, !andb_true_r, andb_true_iff, bool_decide_eq_true. done.
  - simpl. intros [= <-]. unfold execute_query, finalise_statement. simpl.
    rewrite sort_rows_elem. unfold selected, one_level_ok, holds. simpl.
    rewrite filter_elem, !andb_true_r, bool_decide_eq_true. tauto.
Qed.

Lemma build_validator_rows table ps v :
  build_validator cfg collate_lt table ps = Ok v →
  ∃ rows, RoutePreferenceValidator_init cfg rows = Ok v ∧
    ∀ x, x ∈ rows ↔ x ∈ table ∧ r_object_class x ∈ ["route"; "route6"] ∧
                    (ps = [] ∨ ∃ p, p ∈ ps ∧ any_cidr p x = true).
Proof.
  unfold build_validator. destruct ps as [|p ps].
  - intros (rows & Hr & Hi)%res_bind_Ok. exists rows. split; [done|]. intros x.
    rewrite (route_rows_elem _ _ _ _ Hr). set_solver.
  - set (l := p :: ps). intros (rowss & Hr & Hi)%res_bind_Ok. exists (concat rowss). split; [done|].
    apply res_map_Forall2 in Hr. intros x. rewrite list_elem_of_In, in_concat. split.
    + intros (rows & Hin%list_elem_of_In & Hx%list_elem_of_In).
      destruct (Forall2_elem_r _ _ _ _ Hr Hin) as (q & Hq & Hrows).
      rewrite (route_rows_elem _ _ _ _ Hrows) in Hx. destruct Hx as (Hxt & Hxc & Ha).
      split_and!; [done..|]. right. by exists q.
    + intros (Hin & Hc & [?|(q & Hq & Ha)]); [done|].
      destruct (Forall2_elem_l _ _ _ _ Hr Hq) as (rows & Hrow & Hrows).
      exists rows. rewrite <- !list_elem_of_In. split; [done|].
      apply (route_rows_elem _ _ _ _ Hrows). done.
Qed.

(** [py-radix] and the database read the stored prefix text alike. *)
Definition prefix_read (r : rpsl_row) : Prop :=
  ∃ c, row_node r = Some c ∧ row_cidr r = Some c ∧ (c_len c ≤ ip_width (c_version c))%Z.

Lemma any_cidr_nested p r c :
  row_cidr r = Some c → nested c (cidr_of_ip p) → any_cidr p r = true.
Proof.
  intros Hc Hn. unfold any_cidr, less_specific_cidr, more_specific_cidr, cidr_contained.
  rewrite Hc. simpl. destruct Hn as [->| ->]; [done|]. case_bool_decide as E; simpl.
  - subst c. rewrite orb_false_r. rewrite cidr_contains_eq_spec. split_and!; done || lia.
  - by rewrite orb_true_r.
Qed.

Lemma ip_width_len p : (c_len (cidr_of_ip p) ≤ ip_width (c_version (cidr_of_ip p)))%Z.
Proof. apply ip_prefixlen_ok. Qed.

(** C35. Evaluating only the routes that overlap some changed prefixes reports
    a route at or below one of these prefixes exactly when the evaluation of all
    routes does. *)
Theorem incremental_agrees_below table ps p v vp lv ls lvp lsp r c :
  NoDup (r_pk <$> table) →
  (∀ x, x ∈ table → r_object_class x ∈ ["route"; "route6"] → prefix_read x) →
  build_validator cfg collate_lt table [] = Ok v → validate_known_routes v = (lv, ls) →
  build_validator cfg collate_lt table ps = Ok vp → validate_known_routes vp = (lvp, lsp) →
  p ∈ ps → r ∈ table → r_object_class r ∈ ["route"; "route6"] → row_cidr r = Some c →
  cidr_contains_eq (cidr_of_ip p) c = true →
  (r_pk r ∈ ls ↔ r_pk r ∈ lsp) ∧ (r_pk r ∈ lv ↔ r_pk r ∈ lvp).
Proof.
  intros Hnd Hread (rows & Hi & Hrows)%build_validator_rows Hval (rowsp & Hip & Hrowsp)%build_validator_rows
    Hvalp Hp Hr Hcl Hc Hin.
  assert (∀ x y, x ∈ table → y ∈ table → r_pk x = r_pk y → x = y) as Hinj.
  { intros x y Hx Hy E. pose proof (row_by_pk_elem _ _ Hnd Hx) as Ex.
    pose proof (row_by_pk_elem _ _ Hnd Hy) as Ey. rewrite E in Ex. congruence. }
  assert (rows_by_pk rows) as Hpk by (intros x y Hx%Hrows Hy%Hrows; naive_solver).
  assert (rows_by_pk rowsp) as Hpkp by (intros x y Hx%Hrowsp Hy%Hrowsp; naive_solver).
  destruct (init_built _ _ Hpk Hi) as [Hb Hpr], (init_built _ _ Hpkp Hip) as [Hbp Hprp].
  rewrite Hpr in Hprp. injection Hprp as Eprefs.
  rewrite (built_validate _ _ _ Hpk Hb) in Hval. rewrite (built_validate _ _ _ Hpkp Hbp) in Hvalp.
  simplify_eq. destruct (Hread r Hr Hcl) as (c' & Hnode & Hcidr & Hw).
  rewrite Hc in Hcidr. injection Hcidr as <-.
  assert (∀ x d, x ∈ table → r_object_class x ∈ ["route"; "route6"] → row_node x = Some d → nested c d →
                 x ∈ rowsp) as Hover.
  { intros x d Hx Hxc Hd Hn. apply Hrowsp. split_and!; [done..|]. right. exists p. split; [done|].
    destruct (Hread x Hx Hxc) as (d' & Hd' & Hdc & Hdw). rewrite Hd in Hd'. injection Hd' as <-.
    apply (any_cidr_nested _ _ _ Hdc). pose proof (ip_width_len p) as Hpw. destruct Hn as [Hn|Hn].
    - right. by apply (cidr_contains_trans _ c).
    - by apply (cidr_laminar _ _ c). }
  assert (r ∈ rowsp) as Hrp.
  { apply (Hover r c); try done. left. apply cidr_contains_eq_spec. split_and!; done || lia. }
  assert (r ∈ rows) as Hrr by (apply Hrows; set_solver).
  assert (outranked (source_preferences v) rows r ↔ outranked (source_preferences vp) rowsp r) as Ho.
  { rewrite <- Eprefs. split; intros (x & c1 & d & q & q' & Hx & Hc1 & Hd & Hrest);
      exists x, c1, d, q, q'; (split_and!; try done; [|apply Hrest..]).
    - apply Hrows in Hx as (? & ? & _). apply (Hover x d); [done..|]. rewrite Hnode in Hc1.
      simplify_eq. apply Hrest.
    - apply Hrowsp in Hx as (? & ? & _). apply Hrows. set_solver. }
  assert (∀ s, r_pk r ∈ rtree_nodes (rp_tree v) ≫= node_changes v s ↔
               r_pk r ∈ rtree_nodes (rp_tree vp) ≫= node_changes vp s) as Hs; [|by rewrite !Hs].
  intros s. rewrite (node_changes_spec _ _ _ _ _ Hpk Hb), (node_changes_spec _ _ _ _ _ Hpkp Hbp).
  split; intros (x & Hx & Ex & Hrest).
  - assert (x = r) as -> by (by apply Hpk). exists r. rewrite <- Ho, <- Eprefs. done.
  - assert (x = r) as -> by (by apply Hpkp). exists r. rewrite Ho, Eprefs. done.
Qed.
End RoutePrefTheory.

(** ** A concrete tree *)

Module ConcreteRadix.
#[export] Instance cidr_countable : Countable cidr :=
  inj_countable' (λ c, (c_version c, c_addr c, c_len c))
    (λ x, {| c_version := x.1.1; c_addr := x.1.2; c_len := x.2 |}) ltac:(by intros []).

#[export] Instance concrete_radix : Radix node_data := {|
  rtree := gmap cidr node_data;
  rtree_empty := ∅;
  rtree_prefix := cidr_val;
  rtree_get t c := t !! c;
  rtree_set t c d := <[c := d]> t;
  rtree_nodes := map_to_list;
  search_covered t c := List.filter (λ n, cidr_contains_eq c n.1) (map_to_list t);
  search_covering t c := List.filter (λ n, cidr_contains_eq n.1 c) (map_to_list t) |}.

#[export] Instance concrete_radix_laws : RadixLaws node_data.
Proof.
  split; intros; simpl.
  - apply lookup_empty.
  - case_decide; subst; [apply lookup_insert_eq|by apply lookup_insert_ne].
  - apply elem_of_map_to_list.
  - by rewrite filter_elem, elem_of_map_to_list.
  - by rewrite filter_elem, elem_of_map_to_list.
Qed.
End ConcreteRadix.

Module RoutePrefExamples.
Import ConcreteIP ConcreteRadix.

Definition source_conf (pref : string) : pyval := VDict [("route_object_preference", VStr pref)].
Definition ex_cfg : configuration :=
  conf_of (VDict [("sources", VDict [("HIGH", source_conf "200"); ("LOW", source_conf "100"); ("NONE", VDict [])])]).
Definition ex_row (pk source prefix : string) (status : RoutePreferenceStatus) : rpsl_row := {|
  r_pk := pk; r_rpsl_pk := pk; r_source := source; r_object_class := "route"; r_parsed_data := ∅;
  r_object_text := ""; r_ip_version := Some 4%Z; r_ip_first := None; r_ip_last := None; r_ip_size := None;
  r_prefix := Some prefix; r_prefix_length := None; r_asn_first := Some 1%Z; r_asn_last := Some 1%Z;
  r_rpki_status := rpki_not_found; r_scopefilter_status := in_scope; r_route_preference_status := status;
  r_created := 0; r_updated := 0 |}.
Definition by_text (a b : string) : bool := bool_decide (a <> b).

(** A low preference /8 with two more specifics: the one of the high
    preference source suppresses it. *)
Definition table : list rpsl_row := [
  ex_row "8" "LOW" "10.0.0.0/8" rp_suppressed;
  ex_row "16" "HIGH" "10.5.0.0/16" rp_visible;
  ex_row "24" "LOW" "10.0.1.0/24" rp_suppressed;
  ex_row "x" "NONE" "10.0.2.0/24" rp_suppressed].
Definition run (rows : list rpsl_row) : RoutePreferenceValidator :=
  match RoutePreferenceValidator_init ex_cfg rows with
  | Ok v => v
  | Raise _ => {| source_preferences := []; rp_tree := rtree_empty; excluded_currently_suppressed := [] |}
  end.
Definition run_query (ps : list cip) : RoutePreferenceValidator :=
  match build_validator ex_cfg by_text table ps with
  | Ok v => v
  | Raise _ => {| source_preferences := []; rp_tree := rtree_empty; excluded_currently_suppressed := [] |}
  end.

Lemma table_pks : rows_by_pk table.
Proof.
  intros r r' Hr Hr'. unfold table in *.
  repeat (apply elem_of_cons in Hr as [->|Hr]; [|]); try (by apply elem_of_nil in Hr);
    repeat (apply elem_of_cons in Hr' as [->|Hr']; [done|]); by apply elem_of_nil in Hr'.
Qed.

Lemma init_run_ok : RoutePreferenceValidator_init ex_cfg table = Ok (run table).
Proof. reflexivity. Qed.

Lemma route_preference_exact_witness :
  ∃ r, r ∈ table ∧ r_pk r = "24" ∧ r_route_preference_status r = rp_suppressed ∧
       is_Some (preference_in (source_preferences (run table)) r) ∧
       ¬ outranked (source_preferences (run table)) table r.
Proof.
  apply (proj1 (proj2 (route_preference_exact ex_cfg table (run table) ["24"] [] table_pks init_run_ok eq_refl))).
  by left.
Defined.

Lemma route_preference_settles_witness :
  ∃ v', RoutePreferenceValidator_init ex_cfg (apply_changes ["24"; "x"] [] <$> table) = Ok v' ∧
        validate_known_routes v' = ([], []) ∧ excluded_currently_suppressed v' = [].
Proof. apply (route_preference_settles ex_cfg table (run table) ["24"] [] table_pks init_run_ok eq_refl). Defined.

Lemma table_nodup : NoDup (r_pk <$> table).
Proof. apply (bool_decide_unpack _). vm_compute. exact I. Qed.
Lemma table_read x : x ∈ table → r_object_class x ∈ ["route"; "route6"] → prefix_read x.
Proof.
  intros Hx _. unfold prefix_read, row_node, row_cidr. unfold table in Hx.
  repeat (apply elem_of_cons in Hx as [->|Hx]; [eexists; split; [reflexivity|]; split; [reflexivity|]; vm_compute; intros ?; discriminate|]).
  by apply elem_of_nil in Hx.
Qed.

(** The changed prefix of the route that is evaluated: the same verdict. *)
Lemma incremental_agrees_below_witness :
  "24" ∈ ["24"] ↔ "24" ∈ ["24"; "8"].
Proof.
  refine (proj2 (incremental_agrees_below ex_cfg by_text table [lit "10.0.1.0/24"] (lit "10.0.1.0/24")
    (run_query []) (run_query [lit "10.0.1.0/24"]) ["24"] [] ["24"; "8"] []
    (ex_row "24" "LOW" "10.0.1.0/24" rp_suppressed) {| c_version := 4; c_addr := 167772416; c_len := 24 |}
    table_nodup table_read eq_refl eq_refl eq_refl eq_refl _ _ _ eq_refl eq_refl)).
  - by left.
  - right. right. by left.
  - by left.
Defined.

(** A route above the changed prefixes is judged without the routes that
    overlap it elsewhere: the /8 is outranked by the /16, and a change of the
    /24 makes it visible. *)
Example incremental_reveals_outranked :
  "8" ∈ (validate_known_routes (run_query [lit "10.0.1.0/24"])).1 ∧
  "8" ∉ (validate_known_routes (run_query [])).1 ∧
  outranked (source_preferences (run_query [])) table (ex_row "8" "LOW" "10.0.0.0/8" rp_suppressed).
Proof.
  assert (validate_known_routes (run_query [lit "10.0.1.0/24"]) = (["24"; "8"], [])) as -> by reflexivity.
  assert (validate_known_routes (run_query []) = (["24"], [])) as -> by reflexivity.
  split; [right; by left|]. split; [apply (bool_decide_unpack _); vm_compute; exact I|].
  exists (ex_row "16" "HIGH" "10.5.0.0/16" rp_visible), {| c_version := 4; c_addr := 167772160; c_len := 8 |},
    {| c_version := 4; c_addr := 168099840; c_len := 16 |}, 100%Z, 200%Z.
  assert (source_preferences (run_query []) = [("HIGH", 200%Z); ("LOW", 100%Z)]) as -> by reflexivity.
  split; [right; by left|]. split; [reflexivity|]. split; [reflexivity|].
  split; [left; reflexivity|]. split; [reflexivity|]. split; [reflexivity|]. lia.
Qed.
End RoutePrefExamples.
