(* ===== verification/Database.v ===== *)
(** * The SQL database: tables and the statements issued on them

    The tables of [irrd/storage/models.py] as lists of rows in insertion order,
    and the effect of each statement [irrd/storage/database_handler.py] sends.
    PostgreSQL's key generator [gen_random_uuid()] is a parameter. *)
From S2P Require Import Prelude PyStr Conf Net Models.

(** ** Tables *)

Record journal_row := {
  j_serial_global : Z;
  j_rpsl_pk : string;
  j_source : string;
  j_origin : JournalEntryOrigin;
  j_serial_nrtm : Z;
  j_operation : DatabaseOperation;
  j_object_class : string;
  j_object_text : string;
  j_timestamp : Z;
}.
Record suspended_row := {
  sus_pk : string;
  sus_rpsl_pk : string;
  sus_source : string;
  sus_object_class : string;
  sus_object_text : string;
  sus_mntners : list string;
  sus_timestamp : Z;
  sus_original_created : Z;
  sus_original_updated : Z;
}.
Record protected_row := {
  prot_rpsl_pk : string;
  prot_source : string;
  prot_object_class : string;
  prot_name : string;
}.
Record NRTM4ClientDatabaseStatus := {
  nc_session_id : option string;
  nc_version : option Z;
  nc_current_key : option string;
  nc_next_key : option string;
  nc_previous_file_hashes : option (list (string * list string));
}.
(** An element of [previous_deltas]. *)
Record delta_info := {
  d_filename : string;
  d_hash : string;
  d_timestamp : Z;
  d_version : Z;
  d_serial_global_start : Z;
  d_serial_global_end : Z;
}.
Record NRTM4ServerDatabaseStatus := {
  ns_session_id : option string;
  ns_version : option Z;
  ns_last_update_notification_file_update : option Z;
  ns_last_snapshot_version : option Z;
  ns_last_snapshot_global_serial : option Z;
  ns_last_snapshot_filename : option string;
  ns_last_snapshot_timestamp : option Z;
  ns_last_snapshot_hash : option string;
  ns_previous_deltas : list delta_info;
}.
Definition client_status_none : NRTM4ClientDatabaseStatus := {|
  nc_session_id := None; nc_version := None; nc_current_key := None; nc_next_key := None;
  nc_previous_file_hashes := None |}.
Definition server_status_none : NRTM4ServerDatabaseStatus := {|
  ns_session_id := None; ns_version := None; ns_last_update_notification_file_update := None;
  ns_last_snapshot_version := None; ns_last_snapshot_global_serial := None;
  ns_last_snapshot_filename := None; ns_last_snapshot_timestamp := None;
  ns_last_snapshot_hash := None; ns_previous_deltas := [] |}.

(** The serial columns of a status row. *)
Record serials := {
  serial_oldest_seen : option Z;
  serial_newest_seen : option Z;
  serial_oldest_journal : option Z;
  serial_newest_journal : option Z;
  serial_last_export : option Z;
  serial_newest_mirror : option Z;
}.
Record status_row := {
  s_source : string;
  s_serials : serials;
  s_nrtm4_client : NRTM4ClientDatabaseStatus;
  s_nrtm4_server : NRTM4ServerDatabaseStatus;
  s_force_reload : bool;
  s_synchronised_serials : bool;
  s_last_error : option string;
  s_last_error_timestamp : option Z;
  s_rpsl_data_updated : Z;
}.
Record database := {
  db_objects : list rpsl_row;
  db_suspended : list suspended_row;
  db_journal : list journal_row;
  db_status : list status_row;
  db_roas : list roa_row;
  db_protected : list protected_row;
  db_next_uuid : nat;
  db_next_global : Z;
}.
Definition db_empty : database := {|
  db_objects := []; db_suspended := []; db_journal := []; db_status := []; db_roas := [];
  db_protected := []; db_next_uuid := 0; db_next_global := 1 |}.

Definition set_objects (l : list rpsl_row) (d : database) : database := {|
  db_objects := l; db_suspended := db_suspended d; db_journal := db_journal d;
  db_status := db_status d; db_roas := db_roas d; db_protected := db_protected d;
  db_next_uuid := db_next_uuid d; db_next_global := db_next_global d |}.
Definition set_suspended (l : list suspended_row) (d : database) : database := {|
  db_objects := db_objects d; db_suspended := l; db_journal := db_journal d;
  db_status := db_status d; db_roas := db_roas d; db_protected := db_protected d;
  db_next_uuid := db_next_uuid d; db_next_global := db_next_global d |}.
Definition set_journal (l : list journal_row) (d : database) : database := {|
  db_objects := db_objects d; db_suspended := db_suspended d; db_journal := l;
  db_status := db_status d; db_roas := db_roas d; db_protected := db_protected d;
  db_next_uuid := db_next_uuid d; db_next_global := db_next_global d |}.
Definition set_status (l : list status_row) (d : database) : database := {|
  db_objects := db_objects d; db_suspended := db_suspended d; db_journal := db_journal d;
  db_status := l; db_roas := db_roas d; db_protected := db_protected d;
  db_next_uuid := db_next_uuid d; db_next_global := db_next_global d |}.
Definition set_roas (l : list roa_row) (d : database) : database := {|
  db_objects := db_objects d; db_suspended := db_suspended d; db_journal := db_journal d;
  db_status := db_status d; db_roas := l; db_protected := db_protected d;
  db_next_uuid := db_next_uuid d; db_next_global := db_next_global d |}.
Definition set_protected (l : list protected_row) (d : database) : database := {|
  db_objects := db_objects d; db_suspended := db_suspended d; db_journal := db_journal d;
  db_status := db_status d; db_roas := db_roas d; db_protected := l;
  db_next_uuid := db_next_uuid d; db_next_global := db_next_global d |}.
Definition next_uuid (d : database) : database := {|
  db_objects := db_objects d; db_suspended := db_suspended d; db_journal := db_journal d;
  db_status := db_status d; db_roas := db_roas d; db_protected := db_protected d;
  db_next_uuid := S (db_next_uuid d); db_next_global := db_next_global d |}.
Definition next_global (d : database) : database := {|
  db_objects := db_objects d; db_suspended := db_suspended d; db_journal := db_journal d;
  db_status := db_status d; db_roas := db_roas d; db_protected := db_protected d;
  db_next_uuid := db_next_uuid d; db_next_global := db_next_global d + 1 |}.

(** ** rpsl_objects *)

(** The composite key of [rpsl_objects]. *)
Definition row_key (r : rpsl_row) : string * string * string := (r_rpsl_pk r, r_source r, r_object_class r).
Definition has_key (k : string * string * string) (r : rpsl_row) : bool := bool_decide (row_key r = k).

Definition set_pk (pk : string) (r : rpsl_row) : rpsl_row := {|
  r_pk := pk; r_rpsl_pk := r_rpsl_pk r; r_source := r_source r; r_object_class := r_object_class r;
  r_parsed_data := r_parsed_data r; r_object_text := r_object_text r; r_ip_version := r_ip_version r;
  r_ip_first := r_ip_first r; r_ip_last := r_ip_last r; r_ip_size := r_ip_size r; r_prefix := r_prefix r;
  r_prefix_length := r_prefix_length r; r_asn_first := r_asn_first r; r_asn_last := r_asn_last r;
  r_rpki_status := r_rpki_status r; r_scopefilter_status := r_scopefilter_status r;
  r_route_preference_status := r_route_preference_status r; r_created := r_created r;
  r_updated := r_updated r |}.

(** A statement with duplicate keys, or whose rows exist while it has no
    conflict clause, is refused. *)
Definition integrity_error : exn := GenericException "IntegrityError".
Definition cardinality_violation : exn :=
  GenericException "ON CONFLICT DO UPDATE command cannot affect row a second time".

(** One row of [INSERT ... ON CONFLICT DO UPDATE]: every column but the key
    columns and [pk] is replaced. *)
Definition upsert_row (uuid : nat → string) (d : database) (r : rpsl_row) : database :=
  if existsb (has_key (row_key r)) (db_objects d)
  then set_objects ((λ r', if has_key (row_key r) r' then set_pk (r_pk r') r else r') <$> db_objects d) d
  else next_uuid (set_objects (db_objects d ++ [set_pk (uuid (db_next_uuid d)) r]) d).
Definition insert_row (uuid : nat → string) (d : database) (r : rpsl_row) : res database :=
  if existsb (has_key (row_key r)) (db_objects d) then Raise integrity_error
  else Ok (next_uuid (set_objects (db_objects d ++ [set_pk (uuid (db_next_uuid d)) r]) d)).
Fixpoint insert_rows (uuid : nat → string) (d : database) (rows : list rpsl_row) : res database :=
  match rows with
  | [] => Ok d
  | r :: rows' => d ← insert_row uuid d r; insert_rows uuid d rows'
  end.
Definition sql_upsert (uuid : nat → string) (d : database) (rows : list rpsl_row) : res database :=
  if bool_decide (NoDup (row_key <$> rows)) then Ok (foldl (upsert_row uuid) d rows)
  else Raise cardinality_violation.

(** [UPDATE ... SET status WHERE column IN keys]. *)
Definition sql_update (p : rpsl_row → bool) (f : rpsl_row → rpsl_row) (d : database) : database :=
  set_objects ((λ r, if p r then f r else r) <$> db_objects d) d.
(** [DELETE ... RETURNING]. *)
Definition sql_delete (p : rpsl_row → bool) (d : database) : database * list rpsl_row :=
  (set_objects (List.filter (λ r, negb (p r)) (db_objects d)) d, List.filter p (db_objects d)).

(** ** Journal *)

Definition journal_of (source : string) (d : database) : list journal_row :=
  List.filter (λ j, String.eqb (j_source j) source) (db_journal d).
Definition journal_serials (source : string) (d : database) : list Z := j_serial_nrtm <$> journal_of source d.

Definition opt_max (l : list Z) : option Z :=
  match l with [] => None | x :: l' => Some (foldr Z.max x l') end.
Definition opt_min (l : list Z) : option Z :=
  match l with [] => None | x :: l' => Some (foldr Z.min x l') end.
(** [least] and [greatest] ignore [NULL]. *)
Definition sql_greatest (l : list (option Z)) : option Z := opt_max (omap id l).
Definition sql_least (l : list (option Z)) : option Z := opt_min (omap id l).

Definition status_of (source : string) (d : database) : option status_row :=
  List.find (λ s, String.eqb (s_source s) source) (db_status d).

(** [SELECT COALESCE(MAX(serial_nrtm), MAX(serial_newest_seen), 0) + 1] from the
    status rows of the source, joined with its journal. *)
Definition sql_next_serial (source : string) (d : database) : Z :=
  match status_of source d with
  | None => 1
  | Some s =>
      match opt_max (journal_serials source d) with
      | Some n => n + 1
      | None => match serial_newest_seen (s_serials s) with Some n => n + 1 | None => 1 end
      end
  end.

(** The serial of an entry must be given, and new for its source. *)
Definition sql_insert_journal (rpsl_pk source : string) (origin : JournalEntryOrigin)
    (serial_nrtm : option Z) (operation : DatabaseOperation) (object_class object_text : string) (now : Z)
    (d : database) : res (database * Z) :=
  match serial_nrtm with
  | None => Raise integrity_error
  | Some n =>
      if bool_decide (n ∈ journal_serials source d) then Raise integrity_error
      else
        let j := {| j_serial_global := db_next_global d; j_rpsl_pk := rpsl_pk; j_source := source;
                    j_origin := origin; j_serial_nrtm := n; j_operation := operation;
                    j_object_class := object_class; j_object_text := object_text; j_timestamp := now |} in
        Ok (next_global (set_journal (db_journal d ++ [j]) d), n)
  end.

(** ** Status *)

Definition sql_update_status (source : string) (f : status_row → status_row) (d : database) : database :=
  set_status ((λ s, if String.eqb (s_source s) source then f s else s) <$> db_status d) d.
Definition status_with_serials (g : serials → serials) (s : status_row) : status_row := {|
  s_source := s_source s; s_serials := g (s_serials s); s_nrtm4_client := s_nrtm4_client s;
  s_nrtm4_server := s_nrtm4_server s; s_force_reload := s_force_reload s;
  s_synchronised_serials := s_synchronised_serials s; s_last_error := s_last_error s;
  s_last_error_timestamp := s_last_error_timestamp s; s_rpsl_data_updated := s_rpsl_data_updated s |}.
Definition status_with_flags (force_reload synchronised : bool) (s : status_row) : status_row := {|
  s_source := s_source s; s_serials := s_serials s; s_nrtm4_client := s_nrtm4_client s;
  s_nrtm4_server := s_nrtm4_server s; s_force_reload := force_reload;
  s_synchronised_serials := synchronised; s_last_error := s_last_error s;
  s_last_error_timestamp := s_last_error_timestamp s; s_rpsl_data_updated := s_rpsl_data_updated s |}.
Definition status_with_updated (now : Z) (s : status_row) : status_row := {|
  s_source := s_source s; s_serials := s_serials s; s_nrtm4_client := s_nrtm4_client s;
  s_nrtm4_server := s_nrtm4_server s; s_force_reload := s_force_reload s;
  s_synchronised_serials := s_synchronised_serials s; s_last_error := s_last_error s;
  s_last_error_timestamp := s_last_error_timestamp s; s_rpsl_data_updated := now |}.
Definition status_with_error (error : string) (now : Z) (s : status_row) : status_row := {|
  s_source := s_source s; s_serials := s_serials s; s_nrtm4_client := s_nrtm4_client s;
  s_nrtm4_server := s_nrtm4_server s; s_force_reload := s_force_reload s;
  s_synchronised_serials := s_synchronised_serials s; s_last_error := Some error;
  s_last_error_timestamp := Some now; s_rpsl_data_updated := s_rpsl_data_updated s |}.
Definition status_with_client (c : NRTM4ClientDatabaseStatus) (s : status_row) : status_row := {|
  s_source := s_source s; s_serials := s_serials s; s_nrtm4_client := c;
  s_nrtm4_server := s_nrtm4_server s; s_force_reload := s_force_reload s;
  s_synchronised_serials := s_synchronised_serials s; s_last_error := s_last_error s;
  s_last_error_timestamp := s_last_error_timestamp s; s_rpsl_data_updated := s_rpsl_data_updated s |}.
Definition status_with_server (c : NRTM4ServerDatabaseStatus) (s : status_row) : status_row := {|
  s_source := s_source s; s_serials := s_serials s; s_nrtm4_client := s_nrtm4_client s;
  s_nrtm4_server := c; s_force_reload := s_force_reload s;
  s_synchronised_serials := s_synchronised_serials s; s_last_error := s_last_error s;
  s_last_error_timestamp := s_last_error_timestamp s; s_rpsl_data_updated := s_rpsl_data_updated s |}.

Definition serials_none : serials := {|
  serial_oldest_seen := None; serial_newest_seen := None; serial_oldest_journal := None;
  serial_newest_journal := None; serial_last_export := None; serial_newest_mirror := None |}.
(** [INSERT ... ON CONFLICT (source) DO UPDATE]. *)
Definition sql_upsert_status (source : string) (synchronised : bool) (now : Z) (d : database) : database :=
  match status_of source d with
  | Some _ => sql_update_status source (status_with_flags false synchronised) d
  | None =>
      set_status (db_status d ++ [{|
        s_source := source; s_serials := serials_none; s_nrtm4_client := client_status_none;
        s_nrtm4_server := server_status_none; s_force_reload := false;
        s_synchronised_serials := synchronised; s_last_error := None; s_last_error_timestamp := None;
        s_rpsl_data_updated := now |}]) d
  end.
