(* ===== verification/DatabaseHandler.v ===== *)
(** * The database handler ([irrd/storage/database_handler.py])

    One handler with its transaction: the pending object and ROA writes, the
    status tracker and the tracker of changed objects.  Methods run in the state
    and exception monad of the prelude; the clock is part of the state. *)
From S2P Require Import Prelude PyStr Conf Net Models Rpki RpslObjects RpslParser Queries RoutePref Database.

(** ** State *)

(** An element of [_rpsl_upsert_buffer]; the row's [pk] is not set yet, and its
    [created] is the forced value or the time of the change. *)
Record upsert_entry := {
  u_row : rpsl_row;
  u_origin : JournalEntryOrigin;
  u_source_serial : option Z;
}.

(** [DatabaseStatusTracker]; sets and dicts in insertion order. *)
Record status_tracker := {
  t_journaling_enabled : bool;
  t_new_serials_per_source : list (string * list Z);
  t_sources_seen : list string;
  t_sources_rpsl_data_updated : list string;
  t_newest_mirror_serials : list (string * Z);
  t_mirroring_error : list (string * string);
  t_exported_serials : list (string * option Z);
  t_nrtm4_client_status : list (string * NRTM4ClientDatabaseStatus);
  t_nrtm4_server_status : list (string * NRTM4ServerDatabaseStatus);
  t_journal_table_locked : bool;
  (** The cache of [_is_serial_synchronised], the last used first. *)
  t_sync_cache : list (string * bool);
}.
Definition tracker_reset (journaling_enabled : bool) : status_tracker := {|
  t_journaling_enabled := journaling_enabled; t_new_serials_per_source := []; t_sources_seen := [];
  t_sources_rpsl_data_updated := []; t_newest_mirror_serials := []; t_mirroring_error := [];
  t_exported_serials := []; t_nrtm4_client_status := []; t_nrtm4_server_status := [];
  t_journal_table_locked := false; t_sync_cache := [] |}.

(** Messages to Redis: to the process that reloads the preload store, and to the
    event stream. *)
Inductive announcement := reload_signal (object_classes : list string) | journal_extended (source : string).
(** Whether Redis takes a message, given the time and what this handler sent before. *)
Class Redis := redis_publish : Z → list (list string) → list string → announcement → res unit.

Section DatabaseHandler.
Context `{IPyLib} `{Radix node_data} `{redis : Redis} (cfg : configuration).
Context (collate_lt : string → string → bool).
(** [gen_random_uuid()], and the text of a timestamp. *)
Context (uuid : nat → string) (timestamp_text : Z → string).

(** [SessionChangedObjectsTracker]: a prefix is an [IP], or text from a row. *)
Record changed_objects_tracker := {
  ct_object_classes : list string;
  ct_prefixes_for_routepref : list (IP + string);
}.
Definition ct_reset : changed_objects_tracker := {| ct_object_classes := []; ct_prefixes_for_routepref := [] |}.

Record handler := {
  (** The database in the transaction, and as last committed. *)
  h_db : database;
  h_committed : database;
  h_readonly : bool;
  h_journaling_enabled : bool;
  h_rpsl_upsert_buffer : list upsert_entry;
  h_rpsl_pk_source_seen : list string;
  h_roa_insert_buffer : list roa_row;
  h_rpsl_guaranteed_no_existing : bool;
  h_tracker : status_tracker;
  h_changed : changed_objects_tracker;
  (** Messages sent: to the event stream, and to the preloader. *)
  h_published : list string;
  h_reload_signals : list (list string);
  h_now : Z;
}.

Definition with_db (f : database → database) (h : handler) : handler := {|
  h_db := f (h_db h); h_committed := h_committed h; h_readonly := h_readonly h;
  h_journaling_enabled := h_journaling_enabled h; h_rpsl_upsert_buffer := h_rpsl_upsert_buffer h;
  h_rpsl_pk_source_seen := h_rpsl_pk_source_seen h; h_roa_insert_buffer := h_roa_insert_buffer h;
  h_rpsl_guaranteed_no_existing := h_rpsl_guaranteed_no_existing h; h_tracker := h_tracker h;
  h_changed := h_changed h; h_published := h_published h; h_reload_signals := h_reload_signals h;
  h_now := h_now h |}.
Definition with_tracker (f : status_tracker → status_tracker) (h : handler) : handler := {|
  h_db := h_db h; h_committed := h_committed h; h_readonly := h_readonly h;
  h_journaling_enabled := h_journaling_enabled h; h_rpsl_upsert_buffer := h_rpsl_upsert_buffer h;
  h_rpsl_pk_source_seen := h_rpsl_pk_source_seen h; h_roa_insert_buffer := h_roa_insert_buffer h;
  h_rpsl_guaranteed_no_existing := h_rpsl_guaranteed_no_existing h; h_tracker := f (h_tracker h);
  h_changed := h_changed h; h_published := h_published h; h_reload_signals := h_reload_signals h;
  h_now := h_now h |}.
Definition with_changed (f : changed_objects_tracker → changed_objects_tracker) (h : handler) : handler := {|
  h_db := h_db h; h_committed := h_committed h; h_readonly := h_readonly h;
  h_journaling_enabled := h_journaling_enabled h; h_rpsl_upsert_buffer := h_rpsl_upsert_buffer h;
  h_rpsl_pk_source_seen := h_rpsl_pk_source_seen h; h_roa_insert_buffer := h_roa_insert_buffer h;
  h_rpsl_guaranteed_no_existing := h_rpsl_guaranteed_no_existing h; h_tracker := h_tracker h;
  h_changed := f (h_changed h); h_published := h_published h; h_reload_signals := h_reload_signals h;
  h_now := h_now h |}.
Definition with_buffer (buffer : list upsert_entry) (seen : list string) (guaranteed : bool) (h : handler)
  : handler := {|
  h_db := h_db h; h_committed := h_committed h; h_readonly := h_readonly h;
  h_journaling_enabled := h_journaling_enabled h; h_rpsl_upsert_buffer := buffer;
  h_rpsl_pk_source_seen := seen; h_roa_insert_buffer := h_roa_insert_buffer h;
  h_rpsl_guaranteed_no_existing := guaranteed; h_tracker := h_tracker h;
  h_changed := h_changed h; h_published := h_published h; h_reload_signals := h_reload_signals h;
  h_now := h_now h |}.
Definition with_roa_buffer (roas : list roa_row) (h : handler) : handler := {|
  h_db := h_db h; h_committed := h_committed h; h_readonly := h_readonly h;
  h_journaling_enabled := h_journaling_enabled h; h_rpsl_upsert_buffer := h_rpsl_upsert_buffer h;
  h_rpsl_pk_source_seen := h_rpsl_pk_source_seen h; h_roa_insert_buffer := roas;
  h_rpsl_guaranteed_no_existing := h_rpsl_guaranteed_no_existing h; h_tracker := h_tracker h;
  h_changed := h_changed h; h_published := h_published h; h_reload_signals := h_reload_signals h;
  h_now := h_now h |}.
Definition with_journaling (b : bool) (h : handler) : handler := {|
  h_db := h_db h; h_committed := h_committed h; h_readonly := h_readonly h;
  h_journaling_enabled := b; h_rpsl_upsert_buffer := h_rpsl_upsert_buffer h;
  h_rpsl_pk_source_seen := h_rpsl_pk_source_seen h; h_roa_insert_buffer := h_roa_insert_buffer h;
  h_rpsl_guaranteed_no_existing := h_rpsl_guaranteed_no_existing h; h_tracker := h_tracker h;
  h_changed := h_changed h; h_published := h_published h; h_reload_signals := h_reload_signals h;
  h_now := h_now h |}.
(** [_transaction.commit()] and [_transaction.rollback()]. *)
Definition sql_commit (h : handler) : handler := {|
  h_db := h_db h; h_committed := h_db h; h_readonly := h_readonly h;
  h_journaling_enabled := h_journaling_enabled h; h_rpsl_upsert_buffer := h_rpsl_upsert_buffer h;
  h_rpsl_pk_source_seen := h_rpsl_pk_source_seen h; h_roa_insert_buffer := h_roa_insert_buffer h;
  h_rpsl_guaranteed_no_existing := h_rpsl_guaranteed_no_existing h; h_tracker := h_tracker h;
  h_changed := h_changed h; h_published := h_published h; h_reload_signals := h_reload_signals h;
  h_now := h_now h |}.
Definition sql_rollback : handler → handler := λ h, with_db (λ _, h_committed h) h.
Definition with_published (sources : list string) (h : handler) : handler := {|
  h_db := h_db h; h_committed := h_committed h; h_readonly := h_readonly h;
  h_journaling_enabled := h_journaling_enabled h; h_rpsl_upsert_buffer := h_rpsl_upsert_buffer h;
  h_rpsl_pk_source_seen := h_rpsl_pk_source_seen h; h_roa_insert_buffer := h_roa_insert_buffer h;
  h_rpsl_guaranteed_no_existing := h_rpsl_guaranteed_no_existing h; h_tracker := h_tracker h;
  h_changed := h_changed h; h_published := h_published h ++ sources; h_reload_signals := h_reload_signals h;
  h_now := h_now h |}.
Definition with_signal (classes : list string) (h : handler) : handler := {|
  h_db := h_db h; h_committed := h_committed h; h_readonly := h_readonly h;
  h_journaling_enabled := h_journaling_enabled h; h_rpsl_upsert_buffer := h_rpsl_upsert_buffer h;
  h_rpsl_pk_source_seen := h_rpsl_pk_source_seen h; h_roa_insert_buffer := h_roa_insert_buffer h;
  h_rpsl_guaranteed_no_existing := h_rpsl_guaranteed_no_existing h; h_tracker := h_tracker h;
  h_changed := h_changed h; h_published := h_published h; h_reload_signals := h_reload_signals h ++ [classes];
  h_now := h_now h |}.

Definition M := st handler.
Definition modify (f : handler → handler) : M unit := st_modify f.
(** A statement that may be refused. *)
Definition execute_statement (f : database → res database) : M unit := λ h,
  match f (h_db h) with
  | Ok d => (with_db (λ _, d) h, Ok tt)
  | Raise e => (h, Raise e)
  end.

Definition _check_write_permitted : M unit := λ h,
  if h_readonly h
  then (h, Raise (GenericException "Attempted to write to SQL database from readonly database handler"))
  else (h, Ok tt).

(** ** Changed objects *)

Definition object_modified (object_class source : string) (prefix : option (IP + string))
    (origin : option JournalEntryOrigin) : M unit :=
  modify (with_changed (λ c, {|
    ct_object_classes := oset_add (ct_object_classes c) object_class;
    ct_prefixes_for_routepref :=
      match prefix with
      | Some p =>
          if bool_decide (object_class ∈ RPKI_RELEVANT_OBJECT_CLASSES)
             && negb (bool_decide (origin = Some jo_route_preference))
             && negb (String.eqb source RPKI_IRR_PSEUDO_SOURCE)
          then oset_add (ct_prefixes_for_routepref c) p else ct_prefixes_for_routepref c
      | None => ct_prefixes_for_routepref c
      end |})).
Definition object_modified_dict (r : rpsl_row) (origin : option JournalEntryOrigin) : M unit :=
  object_modified (r_object_class r) (r_source r)
    (match r_prefix r with Some s => if String.eqb s "" then None else Some (inr s) | None => None end) origin.
Definition all_object_classes_updated : M unit :=
  modify (with_changed (λ c, {|
    ct_object_classes := oset_update (ct_object_classes c) (OBJECT_CLASS_MAPPING.*1);
    ct_prefixes_for_routepref := ct_prefixes_for_routepref c |})).

(** ** Serial synchronisation *)

Definition is_serial_synchronised (d : database) (source : string) (settings_only : bool) : bool :=
  let db_status :=
    if settings_only then true
    else match status_of (str_upper source) d with
         | Some s => s_synchronised_serials s
         | None => true
         end in
  let settings_status :=
    (negb (truthy (get_setting cfg "scopefilter")) || truthy (source_setting cfg source "scopefilter_excluded"))
    && (negb (truthy (get_setting cfg "rpki.roa_source")) || truthy (source_setting cfg source "rpki_excluded"))
    && negb (truthy (source_setting cfg source "route_object_preference"))
    && truthy (source_setting cfg source "nrtm_host") in
  db_status && settings_status.

Definition SYNC_CACHE_SIZE : nat := 100.
Definition set_sync_cache (l : list (string * bool)) (t : status_tracker) : status_tracker := {|
  t_journaling_enabled := t_journaling_enabled t; t_new_serials_per_source := t_new_serials_per_source t;
  t_sources_seen := t_sources_seen t; t_sources_rpsl_data_updated := t_sources_rpsl_data_updated t;
  t_newest_mirror_serials := t_newest_mirror_serials t; t_mirroring_error := t_mirroring_error t;
  t_exported_serials := t_exported_serials t; t_nrtm4_client_status := t_nrtm4_client_status t;
  t_nrtm4_server_status := t_nrtm4_server_status t; t_journal_table_locked := t_journal_table_locked t;
  t_sync_cache := l |}.
Definition _is_serial_synchronised (source : string) : M bool := λ h,
  let cache := t_sync_cache (h_tracker h) in
  let b := match assoc source cache with
           | Some b => b
           | None => is_serial_synchronised (h_db h) source false
           end in
  let cache' := take SYNC_CACHE_SIZE
                  ((source, b) :: List.filter (λ x : string * bool, negb (String.eqb x.1 source)) cache) in
  (with_tracker (set_sync_cache cache') h, Ok b).

(** ** The status tracker *)

Definition update_tracker (seen updated : list string) (serials : list (string * list Z))
    (newest_mirror : list (string * Z)) (errors : list (string * string)) (exported : list (string * option Z))
    (client : list (string * NRTM4ClientDatabaseStatus)) (server : list (string * NRTM4ServerDatabaseStatus))
    (locked : bool) (t : status_tracker) : status_tracker := {|
  t_journaling_enabled := t_journaling_enabled t; t_new_serials_per_source := serials;
  t_sources_seen := seen; t_sources_rpsl_data_updated := updated; t_newest_mirror_serials := newest_mirror;
  t_mirroring_error := errors; t_exported_serials := exported; t_nrtm4_client_status := client;
  t_nrtm4_server_status := server; t_journal_table_locked := locked; t_sync_cache := t_sync_cache t |}.

(** [_sources_seen.add(source)]. *)
Definition see_source (source : string) (t : status_tracker) : status_tracker :=
  update_tracker (oset_add (t_sources_seen t) source) (t_sources_rpsl_data_updated t)
    (t_new_serials_per_source t) (t_newest_mirror_serials t) (t_mirroring_error t) (t_exported_serials t)
    (t_nrtm4_client_status t) (t_nrtm4_server_status t) (t_journal_table_locked t) t.
Definition data_updated (source : string) (t : status_tracker) : status_tracker :=
  update_tracker (t_sources_seen t) (oset_add (t_sources_rpsl_data_updated t) source)
    (t_new_serials_per_source t) (t_newest_mirror_serials t) (t_mirroring_error t) (t_exported_serials t)
    (t_nrtm4_client_status t) (t_nrtm4_server_status t) (t_journal_table_locked t) t.
(** [_new_serials_per_source[source].add(serial)]. *)
Definition add_serial (source : string) (serial : Z) (t : status_tracker) : status_tracker :=
  let serials := t_new_serials_per_source t in
  update_tracker (t_sources_seen t) (t_sources_rpsl_data_updated t)
    (dict_set source (oset_add (default [] (dict_get source serials)) serial) serials)
    (t_newest_mirror_serials t) (t_mirroring_error t) (t_exported_serials t)
    (t_nrtm4_client_status t) (t_nrtm4_server_status t) (t_journal_table_locked t) t.
Definition lock_journal (t : status_tracker) : status_tracker :=
  update_tracker (t_sources_seen t) (t_sources_rpsl_data_updated t) (t_new_serials_per_source t)
    (t_newest_mirror_serials t) (t_mirroring_error t) (t_exported_serials t)
    (t_nrtm4_client_status t) (t_nrtm4_server_status t) true t.

Definition record_serial_newest_mirror (source : string) (serial : Z) : M unit :=
  _ ← _check_write_permitted;
  modify (with_tracker (λ t, let t := see_source source t in
    update_tracker (t_sources_seen t) (t_sources_rpsl_data_updated t) (t_new_serials_per_source t)
      (dict_set source serial (t_newest_mirror_serials t)) (t_mirroring_error t) (t_exported_serials t)
      (t_nrtm4_client_status t) (t_nrtm4_server_status t) (t_journal_table_locked t) t)).
Definition record_serial_seen (source : string) (serial : Z) : M unit :=
  _ ← _check_write_permitted;
  modify (with_tracker (λ t, add_serial source serial (see_source source t))).
Definition record_mirror_error (source error : string) : M unit :=
  _ ← _check_write_permitted;
  modify (with_tracker (λ t, let t := see_source source t in
    update_tracker (t_sources_seen t) (t_sources_rpsl_data_updated t) (t_new_serials_per_source t)
      (t_newest_mirror_serials t) (dict_set source error (t_mirroring_error t)) (t_exported_serials t)
      (t_nrtm4_client_status t) (t_nrtm4_server_status t) (t_journal_table_locked t) t)).
Definition record_serial_exported (source : string) (serial : option Z) : M unit :=
  _ ← _check_write_permitted;
  modify (with_tracker (λ t, let t := see_source source t in
    update_tracker (t_sources_seen t) (t_sources_rpsl_data_updated t) (t_new_serials_per_source t)
      (t_newest_mirror_serials t) (t_mirroring_error t) (dict_set source serial (t_exported_serials t))
      (t_nrtm4_client_status t) (t_nrtm4_server_status t) (t_journal_table_locked t) t)).
Definition record_nrtm4_client_status (source : string) (status : NRTM4ClientDatabaseStatus) : M unit :=
  _ ← _check_write_permitted;
  modify (with_tracker (λ t, let t := see_source source t in
    update_tracker (t_sources_seen t) (t_sources_rpsl_data_updated t) (t_new_serials_per_source t)
      (t_newest_mirror_serials t) (t_mirroring_error t) (t_exported_serials t)
      (dict_set source status (t_nrtm4_client_status t)) (t_nrtm4_server_status t)
      (t_journal_table_locked t) t)).
Definition record_nrtm4_server_status (source : string) (status : NRTM4ServerDatabaseStatus) : M unit :=
  _ ← _check_write_permitted;
  modify (with_tracker (λ t, let t := see_source source t in
    update_tracker (t_sources_seen t) (t_sources_rpsl_data_updated t) (t_new_serials_per_source t)
      (t_newest_mirror_serials t) (t_mirroring_error t) (t_exported_serials t)
      (t_nrtm4_client_status t) (dict_set source status (t_nrtm4_server_status t))
      (t_journal_table_locked t) t)).

(** The serial of a new journal entry. *)
Definition new_serial (source : string) (source_serial : option Z) (synchronised : bool) (h : handler)
  : option Z :=
  if synchronised then source_serial
  else match dict_get source (t_new_serials_per_source (h_tracker h)) with
       | Some (n :: l) => Some (foldr Z.max n l + 1)%Z
       | _ => Some (sql_next_serial source (h_db h))
       end.
Definition keeps_journal (source : string) : bool := truthy (source_setting cfg source "keep_journal").

Definition insert_journal (operation : DatabaseOperation) (rpsl_pk source object_class object_text : string)
    (origin : JournalEntryOrigin) (serial_nrtm : option Z) : M unit := λ h,
  match sql_insert_journal rpsl_pk source origin serial_nrtm operation object_class object_text (h_now h)
          (h_db h) with
  | Ok (d, n) => (with_tracker (add_serial source n) (with_db (λ _, d) h), Ok tt)
  | Raise e => (h, Raise e)
  end.
Definition record_operation (operation : DatabaseOperation) (rpsl_pk source object_class object_text : string)
    (origin : JournalEntryOrigin) (source_serial : option Z) : M unit :=
  _ ← modify (with_tracker (λ t, data_updated source (see_source source t)));
  h ← st_get;
  if t_journaling_enabled (h_tracker h) && keeps_journal source then
    _ ← modify (with_tracker lock_journal);
    synchronised ← _is_serial_synchronised source;
    h ← st_get;
    insert_journal operation rpsl_pk source object_class object_text origin
      (new_serial source source_serial synchronised h)
  else mret tt.
Definition record_operation_from_rpsl_dict (operation : DatabaseOperation) (r : rpsl_row)
    (origin : JournalEntryOrigin) : M unit :=
  record_operation operation (r_rpsl_pk r) (r_source r) (r_object_class r) (r_object_text r) origin None.

(** ** Finalising the status *)

Definition finalise_source (source : string) : M unit :=
  synchronised ← _is_serial_synchronised source;
  h ← st_get;
  modify (with_db (sql_upsert_status source synchronised (h_now h))).
Definition finalise_serials (source : string) (new : list Z) (now : Z) (d : database) : database :=
  let journal := journal_serials source d in
  let oldest_journal := opt_min journal in
  let newest_journal := opt_max journal in
  sql_update_status source (λ s,
    status_with_updated now (status_with_serials (λ n, {|
      serial_oldest_seen := sql_least [serial_oldest_seen n; oldest_journal; opt_min new];
      serial_newest_seen := sql_greatest [serial_newest_seen n; newest_journal; opt_max new];
      serial_oldest_journal := oldest_journal;
      serial_newest_journal := newest_journal;
      serial_last_export := serial_last_export n;
      serial_newest_mirror := serial_newest_mirror n |}) s)) d.
Definition set_newest_mirror (serial : Z) (n : serials) : serials := {|
  serial_oldest_seen := serial_oldest_seen n; serial_newest_seen := serial_newest_seen n;
  serial_oldest_journal := serial_oldest_journal n; serial_newest_journal := serial_newest_journal n;
  serial_last_export := serial_last_export n; serial_newest_mirror := Some serial |}.
Definition set_last_export (serial : option Z) (n : serials) : serials := {|
  serial_oldest_seen := serial_oldest_seen n; serial_newest_seen := serial_newest_seen n;
  serial_oldest_journal := serial_oldest_journal n; serial_newest_journal := serial_newest_journal n;
  serial_last_export := serial; serial_newest_mirror := serial_newest_mirror n |}.
Definition for_dict {A} (l : list (string * A)) (f : string → A → database → database) (d : database)
  : database := foldl (λ d x, f x.1 x.2 d) d l.
Definition finalise_dicts (t : status_tracker) (now : Z) (d : database) : database :=
  let d := foldl (λ d source, sql_update_status source (status_with_updated now) d) d
             (t_sources_rpsl_data_updated t) in
  let d := for_dict (t_new_serials_per_source t) (λ source l d, finalise_serials source l now d) d in
  let d := for_dict (t_mirroring_error t) (λ source error, sql_update_status source (status_with_error error now)) d in
  let d := for_dict (t_newest_mirror_serials t) (λ source serial, sql_update_status source (λ s,
             status_with_updated now (status_with_serials (set_newest_mirror serial) s))) d in
  let d := for_dict (t_exported_serials t) (λ source serial, sql_update_status source
             (status_with_serials (set_last_export serial))) d in
  let d := for_dict (t_nrtm4_client_status t) (λ source c, sql_update_status source (status_with_client c)) d in
  for_dict (t_nrtm4_server_status t) (λ source c, sql_update_status source (status_with_server c)) d.
Definition finalise_transaction : M unit :=
  h ← st_get;
  _ ← st_iter finalise_source (t_sources_seen (h_tracker h));
  h ← st_get;
  modify (with_db (finalise_dicts (h_tracker h) (h_now h))).

(** ** The write buffers *)

Definition entry_visible (u : upsert_entry) : bool := row_visible (u_row u).
Definition journal_entry (u : upsert_entry) : M unit :=
  if entry_visible u
  then record_operation add_or_update (r_rpsl_pk (u_row u)) (r_source (u_row u)) (r_object_class (u_row u))
         (r_object_text (u_row u)) (u_origin u) (u_source_serial u)
  else mret tt.
Definition flush_statement (buffer : list upsert_entry) (guaranteed : bool) (d : database) : res database :=
  if guaranteed then insert_rows uuid d (u_row <$> buffer) else sql_upsert uuid d (u_row <$> buffer).
(** The statement, rolling the transaction back when it is refused. *)
Definition execute_flush (buffer : list upsert_entry) (guaranteed : bool) : M unit := λ h,
  match flush_statement buffer guaranteed (h_db h) with
  | Ok d => (with_db (λ _, d) h, Ok tt)
  | Raise e => (sql_rollback h, Raise e)
  end.
Definition _flush_rpsl_object_writing_buffer : M unit :=
  h ← st_get;
  match h_rpsl_upsert_buffer h with
  | [] => mret tt
  | buffer =>
      _ ← _check_write_permitted;
      _ ← execute_flush buffer (h_rpsl_guaranteed_no_existing h);
      _ ← st_iter journal_entry buffer;
      modify (λ h, with_buffer [] [] (h_rpsl_guaranteed_no_existing h) h)
  end.
(** The COPY of the ROAs; the table's unique constraint refuses duplicates. *)
Definition roa_key (r : roa_row) : cidr * Z * Z * string :=
  (roa_prefix r, roa_asn r, roa_max_length r, roa_trust_anchor r).
Definition copy_roas (l : list roa_row) (d : database) : res database :=
  if bool_decide (NoDup (roa_key <$> db_roas d ++ l)) then Ok (set_roas (db_roas d ++ l) d)
  else Raise integrity_error.
Definition _flush_roa_writing_buffer : M unit :=
  h ← st_get;
  match h_roa_insert_buffer h with
  | [] => mret tt
  | roas =>
      _ ← _check_write_permitted;
      _ ← execute_statement (copy_roas roas);
      modify (with_roa_buffer [])
  end.

(** [execute_query] for the object table. *)
Definition execute_query_objects (q : query) : M (list rpsl_row) :=
  h ← st_get;
  _ ← (if h_readonly h then mret tt else _flush_rpsl_object_writing_buffer);
  h ← st_get;
  mret (execute_query collate_lt q (db_objects (h_db h))).

(** ** Writing objects *)

(** An object with the statuses the importers set on it. *)
Record stored_object := {
  so_object : RPSLObject;
  so_rpki_status : RPKIStatus;
  so_scopefilter_status : ScopeFilterStatus;
  so_route_preference_status : RoutePreferenceStatus;
}.

Definition object_row (o : stored_object) (src text : string) (created now : Z) : rpsl_row :=
  let md := o_metadata (so_object o) in {|
  r_pk := "";
  r_rpsl_pk := pk (so_object o);
  r_source := src;
  r_object_class := o_class_name (so_object o);
  r_parsed_data := o_parsed_data (so_object o);
  r_object_text := text;
  r_ip_version := o_ip_version (so_object o);
  r_ip_first := ip_str <$> md_ip_first md;
  r_ip_last := ip_str <$> md_ip_last md;
  r_ip_size := match md_ip_first md, md_ip_last md with
               | Some a, Some b => Some (ip_int b - ip_int a + 1)%Z
               | _, _ => None
               end;
  r_prefix := ip_str <$> md_prefix md;
  r_prefix_length := md_prefix_length md;
  r_asn_first := md_asn_first md;
  r_asn_last := md_asn_last md;
  r_rpki_status := so_rpki_status o;
  r_scopefilter_status := so_scopefilter_status o;
  r_route_preference_status := so_route_preference_status o;
  r_created := created;
  r_updated := now |}.

Definition MAX_RECORDS_BUFFER_BEFORE_INSERT : Z := 15000.
Definition pk_source (r : rpsl_row) : string := r_rpsl_pk r +:+ "-" +:+ r_source r.
(** The buffer is flushed before a second row with the same primary key and
    source is added, and after the row that fills it. *)
Definition flush_if_seen (rpsl_pk_source : string) : M unit :=
  h ← st_get;
  if bool_decide (rpsl_pk_source ∈ h_rpsl_pk_source_seen h)
  then _flush_rpsl_object_writing_buffer else mret tt.
Definition append_row (u : upsert_entry) (prefix : option IP) : M unit :=
  _ ← modify (λ h, with_buffer (h_rpsl_upsert_buffer h ++ [u])
                     (oset_add (h_rpsl_pk_source_seen h) (pk_source (u_row u)))
                     (h_rpsl_guaranteed_no_existing h) h);
  _ ← object_modified (r_object_class (u_row u)) (r_source (u_row u)) (inl <$> prefix) None;
  h ← st_get;
  if (MAX_RECORDS_BUFFER_BEFORE_INSERT <? Z.of_nat (length (h_rpsl_upsert_buffer h)))%Z
  then _flush_rpsl_object_writing_buffer else mret tt.
(** Any object with a source, a primary key, a text and a row, given the time. *)
Definition upsert_rendered (src : res string) (rpsl_pk : string) (render : Z → res string)
    (row : string → string → Z → rpsl_row) (prefix : option IP)
    (origin : JournalEntryOrigin) (rpsl_guaranteed_no_existing : bool) (source_serial : option Z) : M unit :=
  _ ← _check_write_permitted;
  _ ← modify (λ h, with_buffer (h_rpsl_upsert_buffer h) (h_rpsl_pk_source_seen h)
                     (h_rpsl_guaranteed_no_existing h && rpsl_guaranteed_no_existing) h);
  src ← st_lift src;
  _ ← flush_if_seen (rpsl_pk +:+ "-" +:+ src);
  h ← st_get;
  text ← st_lift (render (h_now h));
  append_row {| u_row := row src text (h_now h); u_origin := origin; u_source_serial := source_serial |} prefix.
Definition upsert_rpsl_object (o : stored_object) (origin : JournalEntryOrigin)
    (rpsl_guaranteed_no_existing : bool) (source_serial : option Z) (forced_created_value : option Z)
  : M unit :=
  upsert_rendered
    (match o_parsed_data (so_object o) !! "source" with
     | Some v => Ok (pdata_str (Some v)) | None => Raise (KeyError "source") end)
    (pk (so_object o))
    (λ now, render_rpsl_text cfg (so_object o) (Some (timestamp_text now)))
    (λ src text now, object_row o src text (default now forced_created_value) now)
    (md_prefix (o_metadata (so_object o))) origin rpsl_guaranteed_no_existing source_serial.

Definition insert_roa_object (r : roa_row) : M unit :=
  _ ← _check_write_permitted;
  modify (λ h, with_roa_buffer (h_roa_insert_buffer h ++ [r]) h).

(** ** Status updates *)

Definition in_pks {A} (key : rpsl_row → A) `{EqDecision A} (objs : list rpsl_row) (r : rpsl_row) : bool :=
  bool_decide (key r ∈ key <$> objs).
(** [UPDATE ... WHERE pk IN pks], sent when there are objects. *)
Definition update_where {A} `{EqDecision A} (key : rpsl_row → A) (objs : list rpsl_row)
    (f : rpsl_row → rpsl_row) : M unit :=
  match objs with
  | [] => mret tt
  | _ => modify (with_db (sql_update (in_pks key objs) f))
  end.
(** The journal entry and notification for one object whose visibility changed. *)
Definition visibility_changed (operation : DatabaseOperation) (origin : JournalEntryOrigin) (r : rpsl_row)
  : M unit :=
  _ ← record_operation_from_rpsl_dict operation r origin;
  object_modified_dict r (Some origin).

Definition rpki_visible_previously (o : RPKIStatus * rpsl_row) : bool :=
  object_is_visible o.1 (r_scopefilter_status o.2) (r_route_preference_status o.2).
Definition rpki_now_visible (o : RPKIStatus * rpsl_row) : M unit :=
  if row_visible o.2 && negb (rpki_visible_previously o)
  then visibility_changed add_or_update jo_rpki_status o.2 else mret tt.
Definition rpki_now_hidden (o : RPKIStatus * rpsl_row) : M unit :=
  if negb (row_visible o.2) && rpki_visible_previously o
  then visibility_changed delete_op jo_rpki_status o.2 else mret tt.
Definition update_rpki_status (now_valid now_invalid now_not_found : list (RPKIStatus * rpsl_row)) : M unit :=
  _ ← _check_write_permitted;
  _ ← update_where r_pk now_valid.*2 (set_rpki_status rpki_valid);
  _ ← update_where r_pk now_invalid.*2 (set_rpki_status rpki_invalid);
  _ ← update_where r_pk now_not_found.*2 (set_rpki_status rpki_not_found);
  _ ← st_iter rpki_now_visible (now_valid ++ now_not_found);
  st_iter rpki_now_hidden now_invalid.

Definition scope_visible_previously (o : ScopeFilterStatus * rpsl_row) : bool :=
  object_is_visible (r_rpki_status o.2) o.1 (r_route_preference_status o.2).
Definition scope_now_visible (o : ScopeFilterStatus * rpsl_row) : M unit :=
  if row_visible o.2 && negb (scope_visible_previously o)
  then visibility_changed add_or_update jo_scope_filter o.2 else mret tt.
Definition scope_now_hidden (o : ScopeFilterStatus * rpsl_row) : M unit :=
  if negb (row_visible o.2) && scope_visible_previously o
  then visibility_changed delete_op jo_scope_filter o.2 else mret tt.
(** Unlike the others, these statements select the rows by RPSL primary key. *)
Definition update_scopefilter_status (now_in_scope now_out_as now_out_prefix : list (ScopeFilterStatus * rpsl_row))
  : M unit :=
  _ ← _check_write_permitted;
  _ ← update_where r_rpsl_pk now_in_scope.*2 (set_scopefilter_status in_scope);
  _ ← update_where r_rpsl_pk now_out_as.*2 (set_scopefilter_status out_scope_as);
  _ ← update_where r_rpsl_pk now_out_prefix.*2 (set_scopefilter_status out_scope_prefix);
  _ ← st_iter scope_now_visible now_in_scope;
  st_iter scope_now_hidden (now_out_as ++ now_out_prefix).

Definition otherwise_visible (r : rpsl_row) : bool :=
  object_is_visible (r_rpki_status r) (r_scopefilter_status r) rp_visible.
Definition pref_changed (operation : DatabaseOperation) (r : rpsl_row) : M unit :=
  if otherwise_visible r then visibility_changed operation jo_route_preference r else mret tt.
(** [chunked_iterable]: the chunks of [size] elements, the last one shorter. *)
Fixpoint chunks {A} (fuel size : nat) (l : list A) : list (list A) :=
  match fuel, l with
  | S fuel', _ :: _ => take size l :: chunks fuel' size (drop size l)
  | _, _ => []
  end.
Definition ROUTEPREF_STATUS_UPDATE_CHUNK_SIZE : nat := 5000.
Definition chunked_iterable {A} (l : list A) (size : nat) : list (list A) := chunks (length l) size l.
Definition update_route_preference_status (now_visible now_suppressed : list rpsl_row) : M unit :=
  _ ← _check_write_permitted;
  _ ← st_iter (pref_changed add_or_update) now_visible;
  _ ← st_iter (pref_changed delete_op) now_suppressed;
  _ ← st_iter (λ chunk, update_where r_pk chunk (set_route_preference_status rp_visible))
        (chunked_iterable now_visible ROUTEPREF_STATUS_UPDATE_CHUNK_SIZE);
  st_iter (λ chunk, update_where r_pk chunk (set_route_preference_status rp_suppressed))
    (chunked_iterable now_suppressed ROUTEPREF_STATUS_UPDATE_CHUNK_SIZE).

(** ** Deletion *)

(** [_check_single_row_match]. *)
Definition _check_single_row_match (rows : list rpsl_row) : res bool :=
  match rows with
  | [] => Ok false
  | [_] => Ok true
  | _ => Raise (ValueError "Attempted to remove object, but multiple objects were affected")
  end.
Definition delete_returning (p : rpsl_row → bool) : M (list rpsl_row) := λ h,
  let '(d, rows) := sql_delete p (h_db h) in (with_db (λ _, d) h, Ok rows).
Definition protect_name (r : rpsl_row) (d : database) : database :=
  set_protected (db_protected d ++ [{| prot_rpsl_pk := r_rpsl_pk r; prot_source := r_source r;
    prot_object_class := r_object_class r; prot_name := r_rpsl_pk r |}]) d.
(** [delete_rpsl_object], by primary key, source and class. *)
Definition delete_rpsl_object (origin : JournalEntryOrigin) (rpsl_pk source object_class : string)
    (source_serial : option Z) (protect_rpsl_name : bool) : M unit :=
  _ ← _check_write_permitted;
  _ ← _flush_rpsl_object_writing_buffer;
  results ← delete_returning (has_key (rpsl_pk, source, object_class));
  matched ← st_lift (_check_single_row_match results);
  match results with
  | r :: _ =>
      if negb matched then mret tt
      else
        _ ← record_operation delete_op (r_rpsl_pk r) (r_source r) (r_object_class r) (r_object_text r)
              origin source_serial;
        _ ← object_modified_dict r (Some origin);
        if protect_rpsl_name then modify (with_db (protect_name r)) else mret tt
  | [] => mret tt
  end.
(** The same for an [RPSLObject]; the names of some classes are protected. *)
Definition delete_rpsl_object_of (origin : JournalEntryOrigin) (o : RPSLObject) (source_serial : option Z)
    (protect_rpsl_name : bool) : M unit :=
  delete_rpsl_object origin (pk o) (pdata_str (o_parsed_data o !! "source")) (o_class_name o) source_serial
    (protect_rpsl_name && bool_decide (o_class_name o ∈ PROTECTED_NAME_OBJECT_CLASSES)).

Definition suspend_row (now : Z) (r : rpsl_row) (d : database) : database :=
  next_uuid (set_suspended (db_suspended d ++ [{|
    sus_pk := uuid (db_next_uuid d); sus_rpsl_pk := r_rpsl_pk r; sus_source := r_source r;
    sus_object_class := r_object_class r; sus_object_text := r_object_text r;
    sus_mntners := pdata_list (r_parsed_data r !! "mnt-by"); sus_timestamp := now;
    sus_original_created := r_created r; sus_original_updated := r_updated r |}]) d).
Definition suspend_rpsl_object (pk_uuid : string) : M unit :=
  _ ← _check_write_permitted;
  _ ← _flush_rpsl_object_writing_buffer;
  results ← delete_returning (λ r, String.eqb (r_pk r) pk_uuid);
  matched ← st_lift (_check_single_row_match results);
  match results with
  | r :: _ =>
      if negb matched then st_raise (ValueError ("Attempt to suspend obect with PK " +:+ pk_uuid +:+ " which does not exist"))
      else if bool_decide (r_parsed_data r !! "mnt-by" = None) then st_raise (KeyError "mnt-by")
      else
        h ← st_get;
        _ ← modify (with_db (suspend_row (h_now h) r));
        _ ← record_operation delete_op (r_rpsl_pk r) (r_source r) (r_object_class r) (r_object_text r)
              jo_suspension None;
        object_modified_dict r (Some jo_suspension)
  | [] => st_raise (ValueError ("Attempt to suspend obect with PK " +:+ pk_uuid +:+ " which does not exist"))
  end.
Definition delete_suspended_rpsl_objects (pk_uuids : list string) : M unit :=
  _ ← _check_write_permitted;
  _ ← _flush_rpsl_object_writing_buffer;
  modify (with_db (λ d, set_suspended
    (List.filter (λ s, negb (bool_decide (sus_pk s ∈ pk_uuids))) (db_suspended d)) d)).

Definition delete_journal_entries_before_date (timestamp : Z) (source : string) : M unit :=
  _ ← _check_write_permitted;
  _ ← _flush_rpsl_object_writing_buffer;
  modify (with_db (λ d, set_journal
    (List.filter (λ j, negb (String.eqb (j_source j) source && (j_timestamp j <? timestamp)%Z)) (db_journal d)) d)).
Definition delete_all_rpsl_objects_with_journal (source : string) (journal_guaranteed_empty : bool) : M unit :=
  _ ← _check_write_permitted;
  _ ← _flush_rpsl_object_writing_buffer;
  _ ← modify (with_db (λ d, (sql_delete (λ r, String.eqb (r_source r) source) d).1));
  _ ← (if journal_guaranteed_empty then mret tt
       else modify (with_db (λ d, set_journal
              (List.filter (λ j, negb (String.eqb (j_source j) source)) (db_journal d)) d)));
  _ ← modify (with_db (λ d, set_status
        (List.filter (λ s, negb (String.eqb (s_source s) source)) (db_status d)) d));
  all_object_classes_updated.
Definition delete_all_roa_objects : M unit :=
  _ ← _check_write_permitted;
  _ ← modify (with_roa_buffer []);
  modify (with_db (set_roas [])).
Definition set_force_reload (source : string) : M unit :=
  _ ← _check_write_permitted;
  modify (with_db (λ d, sql_update_status source (λ s,
    status_with_flags true (is_serial_synchronised d source true) (status_with_serials (λ n, {|
      serial_oldest_seen := None; serial_newest_seen := None;
      serial_oldest_journal := serial_oldest_journal n; serial_newest_journal := serial_newest_journal n;
      serial_last_export := serial_last_export n; serial_newest_mirror := serial_newest_mirror n |}) s)) d)).

(** ** Transactions *)

Definition _start_transaction : M unit :=
  modify (λ h, with_tracker (λ _, tracker_reset (h_journaling_enabled h))
                 (with_roa_buffer [] (with_buffer [] [] true h))).
Definition set_journaling (b : bool) : M unit :=
  modify (λ h, with_tracker (λ t, {|
    t_journaling_enabled := b; t_new_serials_per_source := t_new_serials_per_source t;
    t_sources_seen := t_sources_seen t; t_sources_rpsl_data_updated := t_sources_rpsl_data_updated t;
    t_newest_mirror_serials := t_newest_mirror_serials t; t_mirroring_error := t_mirroring_error t;
    t_exported_serials := t_exported_serials t; t_nrtm4_client_status := t_nrtm4_client_status t;
    t_nrtm4_server_status := t_nrtm4_server_status t; t_journal_table_locked := t_journal_table_locked t;
    t_sync_cache := t_sync_cache t |}) (with_journaling b h)).
Definition disable_journaling : M unit := set_journaling false.
Definition enable_journaling : M unit := set_journaling true.

(** The prefix of a search: text from the database is read by PostgreSQL. *)
Definition search_prefix (p : IP + string) : res IP :=
  match p with
  | inl p => Ok p
  | inr s => match ip_of 0 s with inr p => Ok p | inl m => Raise (GenericException m) end
  end.
(** [SessionChangedObjectsTracker.pre_commit]. *)
Definition pre_commit : M unit :=
  h ← st_get;
  match ct_prefixes_for_routepref (h_changed h) with
  | [] => mret tt
  | prefixes =>
      ps ← st_lift (res_map search_prefix prefixes);
      '(now_visible, now_suppressed) ←
        st_lift (RoutePref.update_route_preference_status cfg collate_lt (db_objects (h_db h)) ps);
      if any_source_preference cfg then update_route_preference_status now_visible now_suppressed else mret tt
  end.
(** [Preloader.signal_reload] and [EventStreamPublisher.publish_update]: Redis may
    be out of reach. *)
Definition announce (m : announcement) : M unit := λ h,
  match redis_publish (h_now h) (h_reload_signals h) (h_published h) m with
  | Ok _ => (match m with
             | reload_signal classes => with_signal classes h
             | journal_extended source => with_published [source] h
             end, Ok tt)
  | Raise e => (h, Raise e)
  end.
Definition tracker_commit : M unit :=
  h ← st_get;
  _ ← (match ct_object_classes (h_changed h) with [] => mret tt | cs => announce (reload_signal cs) end);
  modify (with_changed (λ _, ct_reset)).
Definition publish_event_stream : M unit :=
  h ← st_get;
  st_iter (λ source, announce (journal_extended source)) (t_new_serials_per_source (h_tracker h)).*1.

(** The part of [commit] up to the commit of the transaction, and the part after it. *)
Definition before_commit : M unit :=
  h ← st_get;
  _ ← (if h_journaling_enabled h then mret tt else modify sql_commit);
  _ ← pre_commit;
  modify sql_commit.
Definition after_commit : M unit :=
  _ ← tracker_commit;
  _ ← publish_event_stream;
  _start_transaction.
(** [except Exception]: roll back and raise again.  After [sql_commit] there is
    nothing to roll back, so when Redis refuses a message the data is committed
    although [commit] raises. *)
Definition or_rollback (m : M unit) : M unit := λ h,
  match m h with
  | (h', Raise e) => (sql_rollback h', Raise e)
  | r => r
  end.
Definition commit : M unit :=
  _ ← _check_write_permitted;
  _ ← _flush_rpsl_object_writing_buffer;
  _ ← _flush_roa_writing_buffer;
  _ ← finalise_transaction;
  or_rollback (_ ← before_commit; after_commit).
(** What [commit] has done when the transaction is committed. *)
Definition commit_sql : M unit :=
  _ ← _check_write_permitted;
  _ ← _flush_rpsl_object_writing_buffer;
  _ ← _flush_roa_writing_buffer;
  _ ← finalise_transaction;
  or_rollback before_commit.
Definition rollback (start_transaction : bool) : M unit :=
  _ ← modify (λ h, with_changed (λ _, ct_reset)
        (with_tracker (λ t, tracker_reset (t_journaling_enabled t))
          (with_buffer [] [] (h_rpsl_guaranteed_no_existing h) h)));
  _ ← modify sql_rollback;
  if start_transaction then _start_transaction else mret tt.

(** A new handler on a committed database. *)
Definition DatabaseHandler_init (readonly : bool) (d : database) (now : Z) : handler := {|
  h_db := d; h_committed := d;
  h_readonly := truthy (get_setting cfg "readonly_standby") || readonly;
  h_journaling_enabled := negb readonly; h_rpsl_upsert_buffer := []; h_rpsl_pk_source_seen := [];
  h_roa_insert_buffer := []; h_rpsl_guaranteed_no_existing := true;
  h_tracker := tracker_reset (negb readonly); h_changed := ct_reset; h_published := [];
  h_reload_signals := []; h_now := now |}.
End DatabaseHandler.
Arguments handler {_}.
Arguments changed_objects_tracker {_}.
Arguments stored_object {_}.

(** Redis within reach. *)
Module ConcreteRedis.
#[export] Instance redis_up : Redis := λ _ _ _ _, Ok tt.
End ConcreteRedis.
