(* ===== verification/StorageTheory.v ===== *)
(** * Journal serials, read-only handlers and the write buffer *)
From S2P Require Import Prelude PyStr Conf Net Models Rpki RpslObjects RpslParser Queries RoutePref Database DatabaseHandler.

(** ** Relations kept by a method *)

Section Keeps.
Context {S : Type} (R : S → S → Prop) `{!PreOrder R}.

(** When it returns, [m] has only moved along [R]. *)
Definition keeps {A} (m : st S A) : Prop := ∀ s s' a, m s = (s', Ok a) → R s s'.

Lemma keeps_ret {A} (a : A) : keeps (mret a).
Proof. by intros s s' a' [= <- <-]. Qed.
Lemma keeps_raise {A} e : keeps (st_raise (A := A) e).
Proof. by intros s s' a' [=]. Qed.
Lemma keeps_get : keeps st_get.
Proof. by intros s s' a' [= <- <-]. Qed.
Lemma keeps_lift {A} (m : res A) : keeps (st_lift m).
Proof. by intros s s' a' [= <- ?]. Qed.
Lemma keeps_bind {A B} (m : st S A) (f : A → st S B) : keeps m → (∀ a, keeps (f a)) → keeps (m ≫= f).
Proof.
  intros Hm Hf s s' b. unfold mbind, st_bind. specialize (Hm s).
  destruct (m s) as [s1 [a|e]]; [|done]. intros Hb. etrans; [by eapply Hm|by eapply Hf].
Qed.
Lemma keeps_modify f : (∀ s, R s (f s)) → keeps (st_modify f).
Proof. intros Hf s s' a [= <- <-]. apply Hf. Qed.
Lemma keeps_iter {A} (f : A → st S unit) l : (∀ x, keeps (f x)) → keeps (st_iter f l).
Proof.
  intros Hf. induction l as [|x l IH]; simpl; [apply keeps_ret|].
  apply keeps_bind; [apply Hf|]. by intros _.
Qed.
Lemma keeps_if {A} (b : bool) (m n : st S A) : keeps m → keeps n → keeps (if b then m else n).
Proof. by destruct b. Qed.
End Keeps.
(** [keeps] by the structure of the method; the methods it calls are found in
    the database [keeps], where the sections below put what they have shown. *)
Create HintDb keeps.
Ltac keeps_tac :=
  repeat match goal with
  | |- keeps _ (_ ≫= _) => apply (keeps_bind _); [|intros]
  | |- keeps _ (mret _) => apply (keeps_ret _)
  | |- keeps _ st_get => apply (keeps_get _)
  | |- keeps _ (st_lift _) => apply (keeps_lift _)
  | |- keeps _ (st_raise _) => apply (keeps_raise _)
  | |- keeps _ (st_iter _ _) => apply (keeps_iter _); intros
  | |- keeps _ (if _ then _ else _) => apply keeps_if
  | |- keeps _ (match ?x with _ => _ end) => destruct x
  | |- keeps _ (let _ := _ in _) => cbv zeta
  | |- keeps _ _ => solve [auto with keeps]
  end.

(** The same when the method may raise, too. *)
Section Moves.
Context {S : Type} (R : S → S → Prop) `{!PreOrder R}.
Definition moves {A} (m : st S A) : Prop := ∀ s, R s (m s).1.
Lemma moves_ret {A} (a : A) : moves (mret a).
Proof. by intros s. Qed.
Lemma moves_raise {A} e : moves (st_raise (A := A) e).
Proof. by intros s. Qed.
Lemma moves_get : moves st_get.
Proof. by intros s. Qed.
Lemma moves_lift {A} (m : res A) : moves (st_lift m).
Proof. by intros s. Qed.
Lemma moves_bind {A B} (m : st S A) (f : A → st S B) : moves m → (∀ a, moves (f a)) → moves (m ≫= f).
Proof.
  intros Hm Hf s. unfold mbind, st_bind. specialize (Hm s). destruct (m s) as [s1 [a|e]]; [|done].
  etrans; [exact Hm|apply Hf].
Qed.
Lemma moves_modify f : (∀ s, R s (f s)) → moves (st_modify f).
Proof. intros Hf s. apply Hf. Qed.
Lemma moves_iter {A} (f : A → st S unit) l : (∀ x, moves (f x)) → moves (st_iter f l).
Proof.
  intros Hf. induction l as [|x l IH]; simpl; [apply moves_ret|]. apply moves_bind; [apply Hf|]. by intros _.
Qed.
Lemma moves_if {A} (b : bool) (m n : st S A) : moves m → moves n → moves (if b then m else n).
Proof. by destruct b. Qed.
End Moves.
Create HintDb moves.
Ltac moves_tac :=
  repeat match goal with
  | |- moves _ (_ ≫= _) => apply (moves_bind _); [|intros]
  | |- moves _ (mret _) => apply (moves_ret _)
  | |- moves _ st_get => apply (moves_get _)
  | |- moves _ (st_lift _) => apply (moves_lift _)
  | |- moves _ (st_raise _) => apply (moves_raise _)
  | |- moves _ (st_iter _ _) => apply (moves_iter _); intros
  | |- moves _ (if _ then _ else _) => apply moves_if
  | |- moves _ (match ?x with _ => _ end) => destruct x
  | |- moves _ (let _ := _ in _) => cbv zeta
  | |- moves _ _ => solve [auto with moves]
  end.

(** ** Parts of the state that a method leaves alone, also when it raises *)

Section Fixes.
Context {S T : Type} (part : S → T).
Definition fixes {A} (m : st S A) : Prop := ∀ s, part (m s).1 = part s.
Lemma fixes_ret {A} (a : A) : fixes (mret a).
Proof. done. Qed.
Lemma fixes_raise {A} e : fixes (st_raise (A := A) e).
Proof. done. Qed.
Lemma fixes_get : fixes st_get.
Proof. done. Qed.
Lemma fixes_lift {A} (m : res A) : fixes (st_lift m).
Proof. done. Qed.
Lemma fixes_bind {A B} (m : st S A) (f : A → st S B) : fixes m → (∀ a, fixes (f a)) → fixes (m ≫= f).
Proof.
  intros Hm Hf s. unfold mbind, st_bind. specialize (Hm s). destruct (m s) as [s1 [a|e]]; [|done].
  by rewrite (Hf a s1).
Qed.
Lemma fixes_modify f : (∀ s, part (f s) = part s) → fixes (st_modify f).
Proof. done. Qed.
Lemma fixes_iter {A} (f : A → st S unit) l : (∀ x, fixes (f x)) → fixes (st_iter f l).
Proof.
  intros Hf. induction l as [|x l IH]; simpl; [done|]. apply fixes_bind; [apply Hf|]. by intros _.
Qed.
Lemma fixes_if {A} (b : bool) (m n : st S A) : fixes m → fixes n → fixes (if b then m else n).
Proof. by destruct b. Qed.
End Fixes.
Create HintDb fixes.
Ltac fixes_tac :=
  repeat match goal with
  | |- fixes _ (_ ≫= _) => apply fixes_bind; [|intros]
  | |- fixes _ (mret _) => apply fixes_ret
  | |- fixes _ st_get => apply fixes_get
  | |- fixes _ (st_lift _) => apply fixes_lift
  | |- fixes _ (st_raise _) => apply fixes_raise
  | |- fixes _ (st_modify _) => apply fixes_modify; reflexivity
  | |- fixes _ (st_iter _ _) => apply fixes_iter; intros
  | |- fixes _ (if _ then _ else _) => apply fixes_if
  | |- fixes _ (match ?x with _ => _ end) => destruct x
  | |- fixes _ (let _ := _ in _) => cbv zeta
  | |- fixes _ _ => solve [auto with fixes]
  end.

(** A method with roll-back that returns. *)
Lemma or_rollback_Ok `{IPyLib} m h h' : or_rollback m h = (h', Ok tt) → m h = (h', Ok tt).
Proof. unfold or_rollback. by destruct (m h) as [h1 [[]|e]]. Qed.

(** ** The calls of the other components *)

Section Calls.
Context `{IPyLib} `{Radix node_data} `{redis : Redis} (cfg : configuration).
Context (collate_lt : string → string → bool) (uuid : nat → string) (timestamp_text : Z → string).

(** Every method that writes. *)
Inductive call :=
| c_upsert (o : stored_object) (origin : JournalEntryOrigin) (guaranteed : bool) (serial created : option Z)
| c_insert_roa (r : roa_row)
| c_update_rpki (now_valid now_invalid now_not_found : list (RPKIStatus * rpsl_row))
| c_update_scope (now_in now_out_as now_out_prefix : list (ScopeFilterStatus * rpsl_row))
| c_update_pref (now_visible now_suppressed : list rpsl_row)
| c_delete (origin : JournalEntryOrigin) (rpsl_pk source object_class : string) (serial : option Z) (protect : bool)
| c_suspend (pk_uuid : string)
| c_delete_suspended (pk_uuids : list string)
| c_expire_journal (timestamp : Z) (source : string)
| c_delete_all (source : string) (journal_guaranteed_empty : bool)
| c_delete_roas
| c_force_reload (source : string)
| c_newest_mirror (source : string) (serial : Z)
| c_serial_seen (source : string) (serial : Z)
| c_mirror_error (source error : string)
| c_exported (source : string) (serial : option Z)
| c_nrtm4_client (source : string) (status : NRTM4ClientDatabaseStatus)
| c_nrtm4_server (source : string) (status : NRTM4ServerDatabaseStatus)
| c_commit.
Definition run_call (c : call) : M unit :=
  match c with
  | c_upsert o origin guaranteed serial created =>
      upsert_rpsl_object cfg uuid timestamp_text o origin guaranteed serial created
  | c_insert_roa r => insert_roa_object r
  | c_update_rpki a b c => update_rpki_status cfg a b c
  | c_update_scope a b c => update_scopefilter_status cfg a b c
  | c_update_pref a b => update_route_preference_status cfg a b
  | c_delete origin pk source class serial protect =>
      delete_rpsl_object cfg uuid origin pk source class serial protect
  | c_suspend pk_uuid => suspend_rpsl_object cfg uuid pk_uuid
  | c_delete_suspended pks => delete_suspended_rpsl_objects cfg uuid pks
  | c_expire_journal ts source => delete_journal_entries_before_date cfg uuid ts source
  | c_delete_all source b => delete_all_rpsl_objects_with_journal cfg uuid source b
  | c_delete_roas => delete_all_roa_objects
  | c_force_reload source => set_force_reload cfg source
  | c_newest_mirror source serial => record_serial_newest_mirror source serial
  | c_serial_seen source serial => record_serial_seen source serial
  | c_mirror_error source error => record_mirror_error source error
  | c_exported source serial => record_serial_exported source serial
  | c_nrtm4_client source status => record_nrtm4_client_status source status
  | c_nrtm4_server source status => record_nrtm4_server_status source status
  | c_commit => commit cfg collate_lt uuid
  end.

(** A read-only handler refuses every writing call, and nothing changes. *)
Theorem readonly_refuses c h :
  h_readonly h = true →
  run_call c h = (h, Raise (GenericException "Attempted to write to SQL database from readonly database handler")).
Proof.
  intros Hr. assert (∀ {A} (m : unit → M A),
    (_ ← _check_write_permitted; m ()) h
    = (h, Raise (GenericException "Attempted to write to SQL database from readonly database handler"))) as Hc.
  { intros A m. unfold mbind, st_bind, _check_write_permitted. by rewrite Hr. }
  destruct c; simpl; apply (Hc unit (λ _, _)).
Qed.
End Calls.

(** ** Journal serials of a source *)

Section Serials.
Context `{IPyLib} (cfg : configuration) (src : string).

(** The serial the next journal entry of the source gets. *)
Definition next_serial (h : handler) : Z :=
  (match dict_get src (t_new_serials_per_source (h_tracker h)) with
   | Some (n :: l) => foldr Z.max n l + 1
   | _ => sql_next_serial src (h_db h)
   end)%Z.

(** Serials of the journal, the transaction and the status agree, and the
    source is known not to be synchronised. *)
Record serials_ok (h : handler) : Prop := {
  ok_new : ∀ l, dict_get src (t_new_serials_per_source (h_tracker h)) = Some l →
           l ≠ [] ∧ opt_max (journal_serials src (h_db h)) = opt_max l;
  ok_status : status_of src (h_db h) = None → dict_get src (t_new_serials_per_source (h_tracker h)) = None →
              journal_serials src (h_db h) = [];
  ok_cache : ∀ b, assoc src (t_sync_cache (h_tracker h)) = Some b → b = false;
}.

(** [n, n + 1, ...]. *)
Fixpoint consecutive (n : Z) (k : nat) : list Z :=
  match k with 0%nat => [] | S k' => n :: consecutive (n + 1) k' end.
Lemma consecutive_app n k k' :
  consecutive n (k + k') = consecutive n k ++ consecutive (n + Z.of_nat k) k'.
Proof.
  revert n. induction k as [|k IH]; intros n; simpl; [by rewrite Z.add_0_r|].
  rewrite IH. do 3 f_equal. lia.
Qed.

(** The journal of the source grows by consecutive serials. *)
Definition extends (h h' : handler) : Prop :=
  serials_ok h →
  serials_ok h' ∧ ∃ k,
    journal_serials src (h_db h') = journal_serials src (h_db h) ++ consecutive (next_serial h) k ∧
    next_serial h' = (next_serial h + Z.of_nat k)%Z.
#[local] Instance extends_preorder : PreOrder extends.
Proof.
  split.
  - intros h Hok. split; [done|]. exists 0%nat. simpl. rewrite app_nil_r. split; [done|lia].
  - intros h1 h2 h3 H12 H23 Hok. destruct (H12 Hok) as (Hok2 & k & Hj & Hn).
    destruct (H23 Hok2) as (Hok3 & k' & Hj' & Hn'). split; [done|].
    exists (k + k')%nat. rewrite Hj', Hj, consecutive_app, <- app_assoc, Hn', Hn. split; [done|lia].
Qed.

(** Steps that leave the serials alone. *)
Definition newest_seen (d : database) : option (option Z) :=
  (λ s, serial_newest_seen (s_serials s)) <$> status_of src d.
Record same_serials (h h' : handler) : Prop := {
  same_journal : journal_serials src (h_db h') = journal_serials src (h_db h);
  same_status : newest_seen (h_db h') = newest_seen (h_db h);
  same_new : dict_get src (t_new_serials_per_source (h_tracker h'))
             = dict_get src (t_new_serials_per_source (h_tracker h));
  same_cache : ∀ b, assoc src (t_sync_cache (h_tracker h')) = Some b →
               assoc src (t_sync_cache (h_tracker h)) = Some b ∨ b = false;
}.

Lemma sql_next_serial_newest d :
  sql_next_serial src d =
  (match newest_seen d with
   | None => 1
   | Some s => match opt_max (journal_serials src d) with
               | Some n => n + 1
               | None => match s with Some n => n + 1 | None => 1 end
               end
   end)%Z.
Proof. unfold sql_next_serial, newest_seen. by destruct (status_of src d). Qed.
Lemma status_of_newest d : status_of src d = None ↔ newest_seen d = None.
Proof. unfold newest_seen. by destruct (status_of src d). Qed.

Lemma same_extends h h' : same_serials h h' → extends h h'.
Proof.
  intros [Hj Hs Hn Hc] [On Os Oc]. split.
  - split.
    + rewrite Hn, Hj. apply On.
    + rewrite status_of_newest, Hs, Hn, Hj, <- status_of_newest. apply Os.
    + intros b [Hb|Hb]%Hc; [by apply Oc|done].
  - exists 0%nat. simpl. rewrite app_nil_r, Hj. split; [done|].
    unfold next_serial. rewrite Hn, !sql_next_serial_newest, Hs, Hj. lia.
Qed.

(** *** Recording an operation *)

Lemma filter_assoc_ne {A} (k k' : string) (l : list (string * A)) :
  k ≠ k' → assoc k (List.filter (λ x : string * A, negb (String.eqb x.1 k')) l) = assoc k l.
Proof.
  intros Hne. induction l as [|[k1 v] l IH]; simpl; [done|].
  destruct (String.eqb_spec k1 k') as [->|]; simpl; [by rewrite decide_False|].
  by case_decide.
Qed.
Lemma assoc_take {A} n k (l : list (string * A)) v : assoc k (take n l) = Some v → assoc k l = Some v.
Proof.
  revert l. induction n as [|n IH]; intros [|[k' v'] l]; simpl; try done. case_decide; [done|]. apply IH.
Qed.

Lemma sync_cached source :
  (∀ d, is_serial_synchronised cfg d src true = false) →
  keeps same_serials (_is_serial_synchronised cfg source) ∧
  (source = src → ∀ h, serials_ok h → (_is_serial_synchronised cfg source h).2 = Ok false).
Proof.
  intros Hun.
  assert (∀ d, is_serial_synchronised cfg d src false = false) as Hsync.
  { intros d. specialize (Hun d). unfold is_serial_synchronised in *. rewrite andb_true_l in Hun.
    by rewrite Hun, andb_false_r. }
  split.
  - intros h h' b0. unfold _is_serial_synchronised. intros [= <- _]. split; try done. simpl. intros b Hb.
    change (take SYNC_CACHE_SIZE ?l) with (take 100 l) in Hb.
    destruct (decide (source = src)) as [->|Hne].
    + simpl in Hb. rewrite decide_True in Hb by done.
      destruct (assoc src (t_sync_cache (h_tracker h))); [by left|right]. rewrite Hsync in Hb. congruence.
    + left. simpl in Hb. rewrite decide_False in Hb by done. apply assoc_take in Hb.
      by rewrite filter_assoc_ne in Hb.
  - intros -> h [_ _ Hc]. unfold _is_serial_synchronised. simpl.
    destruct (assoc src (t_sync_cache (h_tracker h))) as [b|] eqn:E; [by rewrite (Hc b eq_refl)|by rewrite Hsync].
Qed.
Lemma opt_max_snoc l n :
  opt_max (l ++ [n]) = Some (match opt_max l with Some m => Z.max m n | None => n end).
Proof.
  destruct l as [|x l]; simpl; [done|]. f_equal.
  induction l as [|y l IH]; simpl; [lia|]. rewrite IH. lia.
Qed.

Lemma next_serial_gt h m :
  serials_ok h → opt_max (journal_serials src (h_db h)) = Some m → (m < next_serial h)%Z.
Proof.
  intros [On Os _] Hm. unfold next_serial.
  destruct (dict_get src _) as [l|] eqn:E.
  - destruct (On l eq_refl) as [Hl Ho]. destruct l as [|n l]; [done|]. rewrite Hm in Ho. simpl in Ho.
    simplify_eq. lia.
  - rewrite sql_next_serial_newest. destruct (newest_seen _) eqn:En; rewrite ?Hm; [lia|].
    apply status_of_newest in En. by rewrite Os in Hm.
Qed.

Lemma foldr_max_oset n l x :
  (∀ y, y ∈ n :: l → (y < x)%Z) → ∃ m l', oset_add (n :: l) x = m :: l' ∧ foldr Z.max m l' = x.
Proof.
  intros Hlt. unfold oset_add. case_decide as Hin; [apply Hlt in Hin; lia|].
  exists n, (l ++ [x]). split; [done|]. clear Hin. induction l as [|y l IH]; simpl.
  - assert (n < x)%Z by (apply Hlt; set_solver). lia.
  - assert (y < x)%Z by (apply Hlt; set_solver). rewrite IH by set_solver. lia.
Qed.
Lemma opt_max_ge l m x : opt_max l = Some m → x ∈ l → (x ≤ m)%Z.
Proof.
  destruct l as [|n l]; [done|]. simpl. intros [= <-]. induction l as [|y l IH]; simpl.
  - intros ->%list_elem_of_singleton. lia.
  - intros [->|[->|Hx]%elem_of_cons]%elem_of_cons; [|lia|].
    + assert (n ≤ foldr Z.max n l)%Z by (apply IH; set_solver). lia.
    + assert (x ≤ foldr Z.max n l)%Z by (apply IH; set_solver). lia.
Qed.

Lemma journal_serials_snoc d j :
  journal_serials src (set_journal (db_journal d ++ [j]) d)
  = journal_serials src d ++ (if String.eqb (j_source j) src then [j_serial_nrtm j] else []).
Proof.
  unfold journal_serials, journal_of. simpl. rewrite List.filter_app, fmap_app. simpl.
  by destruct (String.eqb _ _).
Qed.

(** One journal entry with the next serial. *)
Lemma insert_journal_extends op rpsl_pk class text origin h :
  extends h (insert_journal op rpsl_pk src class text origin (Some (next_serial h)) h).1.
Proof.
  intros Hok. unfold insert_journal, sql_insert_journal. case_bool_decide as Hin; simpl.
  - split; [done|]. exists 0%nat. simpl. rewrite app_nil_r. split; [done|lia].
  - set (j := Build_journal_row _ _ _ _ _ _ _ _ _).
    assert (journal_serials src (next_global (set_journal (db_journal (h_db h) ++ [j]) (h_db h)))
            = journal_serials src (h_db h) ++ [next_serial h]) as Hj.
    { change (journal_serials src (next_global ?d)) with (journal_serials src d).
      rewrite journal_serials_snoc. simpl. by rewrite String.eqb_refl. }
    assert (∃ l, dict_get src (t_new_serials_per_source (h_tracker h)) = l ∧
      oset_add (default [] l) (next_serial h) ≠ [] ∧
      opt_max (oset_add (default [] l) (next_serial h)) = Some (next_serial h)) as (l & El & Hne & Hmax).
    { eexists. split; [done|]. destruct (dict_get src _) as [[|n l]|] eqn:E; simpl; try done.
      destruct (foldr_max_oset n l (next_serial h)) as (m & l' & -> & Hm); [|by rewrite <- Hm].
      intros y Hy. destruct (ok_new _ Hok _ E) as [_ Ho]. simpl in Ho.
      pose proof (opt_max_ge (n :: l) _ y eq_refl Hy). pose proof (next_serial_gt _ _ Hok Ho). lia. }
    split.
    + split; simpl.
      * intros l'. rewrite dict_set_get, decide_True by done. rewrite El. intros [= <-].
        split; [done|]. rewrite Hj, opt_max_snoc, Hmax. f_equal.
        destruct (opt_max (journal_serials src (h_db h))) as [m|] eqn:Em; [|done].
        pose proof (next_serial_gt _ _ Hok Em). lia.
      * intros _. by rewrite dict_set_get, decide_True.
      * apply (ok_cache _ Hok).
    + exists 1%nat. simpl. rewrite Hj. split; [done|].
      unfold next_serial at 1. simpl. rewrite dict_set_get, decide_True by done. rewrite El.
      destruct (oset_add _ _) as [|m l']; [done|]. simpl in Hmax. simplify_eq. lia.
Qed.

Lemma insert_journal_other op rpsl_pk source class text origin serial h :
  source ≠ src → same_serials h (insert_journal op rpsl_pk source class text origin serial h).1.
Proof.
  intros Hne. unfold insert_journal, sql_insert_journal.
  destruct serial as [n|]; simpl; [|by split; auto].
  case_bool_decide; simpl; [by split; auto|]. split; simpl; auto.
  - change (journal_serials src (next_global ?d)) with (journal_serials src d).
    rewrite journal_serials_snoc. simpl. apply String.eqb_neq in Hne. by rewrite Hne, app_nil_r.
  - rewrite dict_set_get, decide_False; congruence.
Qed.
Lemma keeps_same {A} (m : M A) : keeps same_serials m → keeps extends m.
Proof. intros Hm h h' a E. by eapply same_extends, Hm. Qed.

Lemma with_tracker_same f h :
  t_new_serials_per_source (f (h_tracker h)) = t_new_serials_per_source (h_tracker h) →
  t_sync_cache (f (h_tracker h)) = t_sync_cache (h_tracker h) → same_serials h (with_tracker f h).
Proof. intros Hn Hc. split; simpl; try done; [by rewrite Hn|]. rewrite Hc. auto. Qed.

(** The settings do not keep the serials of the source synchronised with its upstream: it is
    not mirrored over NRTM, or filtered by scope, RPKI or route preference. *)
Context (Hun : ∀ d, is_serial_synchronised cfg d src true = false).

Lemma record_operation_extends op rpsl_pk source class text origin source_serial :
  keeps extends (record_operation cfg op rpsl_pk source class text origin source_serial).
Proof using Hun.
  apply (keeps_bind _); [apply (keeps_modify _); intros; apply same_extends; by apply with_tracker_same|].
  intros _. apply (keeps_bind _); [apply (keeps_get _)|]. intros h0. apply keeps_if; [|apply (keeps_ret _)].
  apply (keeps_bind _); [apply (keeps_modify _); intros; apply same_extends; by apply with_tracker_same|].
  intros _ h h2 r. destruct (sync_cached source Hun) as [Hs Hf]. specialize (Hs h). unfold mbind, st_bind at 1.
  destruct (_is_serial_synchronised cfg source h) as [h1 [b|e]] eqn:E; [|done].
  specialize (Hs h1 b eq_refl). intros Hr. etrans; [by apply same_extends|].
  apply (f_equal fst) in Hr. simpl in Hr. subst h2. intros Hok. destruct (decide (source = src)) as [->|Hne]; [|by apply (same_extends _ _ (insert_journal_other _ _ _ _ _ _ _ _ Hne))].
  assert (b = false) as ->.
  { unfold _is_serial_synchronised in E. injection E as <- <-. apply (ok_cache _ Hok).
    change (take SYNC_CACHE_SIZE ?l) with (take 100 l). simpl. by rewrite decide_True. }
  assert (new_serial src source_serial false h1 = Some (next_serial h1)) as Hn.
  { unfold new_serial, next_serial. by destruct (dict_get src _) as [[|]|]. }
  pose proof (insert_journal_extends op rpsl_pk class text origin h1 Hok) as Hi.
  rewrite <- Hn in Hi. exact Hi.
Qed.

(** *** The other methods *)

Context `{Radix node_data} `{redis : Redis}.
Context (collate_lt : string → string → bool) (uuid : nat → string) (timestamp_text : Z → string).

Lemma with_db_same f h :
  journal_serials src (f (h_db h)) = journal_serials src (h_db h) →
  newest_seen (f (h_db h)) = newest_seen (h_db h) → same_serials h (with_db f h).
Proof using Type. intros Hj Hs. split; simpl; auto. Qed.

Lemma upsert_row_parts d r :
  db_journal (upsert_row uuid d r) = db_journal d ∧ db_status (upsert_row uuid d r) = db_status d.
Proof using Type. unfold upsert_row. by destruct (existsb _ _). Qed.
Lemma flush_statement_parts buffer guaranteed d d' :
  flush_statement uuid buffer guaranteed d = Ok d' →
  db_journal d' = db_journal d ∧ db_status d' = db_status d.
Proof using Type.
  unfold flush_statement. destruct guaranteed.
  - generalize (u_row <$> buffer). clear. intros l. revert d. induction l as [|r l IH]; intros d; simpl.
    + by intros [= <-].
    + unfold insert_row. destruct (existsb _ _); simpl; [done|]. by intros [-> ->]%IH.
  - unfold sql_upsert. case_bool_decide; [|done]. intros [= <-]. generalize (u_row <$> buffer). clear.
    intros l. revert d. induction l as [|r l IH]; intros d; simpl; [done|].
    destruct (IH (upsert_row uuid d r)) as [-> ->]. apply upsert_row_parts.
Qed.
Lemma write_permitted_extends : keeps extends _check_write_permitted.
Proof using Type. intros h h' []. unfold _check_write_permitted. destruct (h_readonly h); [done|]. by intros [= <-]. Qed.
Lemma modify_db_extends f :
  (∀ d, journal_serials src (f d) = journal_serials src d) → (∀ d, newest_seen (f d) = newest_seen d) →
  keeps extends (modify (with_db f)).
Proof using Type. intros. apply (keeps_modify _). intros h. by apply same_extends, with_db_same. Qed.
Lemma modify_tracker_extends f :
  (∀ t, t_new_serials_per_source (f t) = t_new_serials_per_source t) →
  (∀ t, t_sync_cache (f t) = t_sync_cache t) → keeps extends (modify (with_tracker f)).
Proof using Type. intros. apply (keeps_modify _). intros h. by apply same_extends, with_tracker_same. Qed.
Lemma modify_other_extends f :
  (∀ h, h_db (f h) = h_db h) → (∀ h, h_tracker (f h) = h_tracker h) → keeps extends (modify f).
Proof using Type.
  intros Hd Ht. apply (keeps_modify _). intros h. apply same_extends. split; rewrite ?Hd, ?Ht; auto.
Qed.
Hint Resolve write_permitted_extends record_operation_extends modify_tracker_extends modify_other_extends : keeps.

Lemma object_modified_extends a b c d : keeps extends (object_modified a b c d).
Proof using Type. by apply modify_other_extends. Qed.
Lemma object_modified_dict_extends r o : keeps extends (object_modified_dict r o).
Proof using Type. apply object_modified_extends. Qed.
Hint Resolve object_modified_extends object_modified_dict_extends : keeps.

Lemma flush_extends : keeps extends (_flush_rpsl_object_writing_buffer cfg uuid).
Proof using Hun.
  unfold _flush_rpsl_object_writing_buffer. keeps_tac; try by apply modify_other_extends.
  - intros h h' []. unfold execute_flush. destruct (flush_statement _ _ _ _) as [d|] eqn:E; [|done].
    intros [= <-]. apply flush_statement_parts in E as [Ej Es]. apply same_extends, with_db_same.
    + unfold journal_serials, journal_of. by rewrite Ej.
    + unfold newest_seen, status_of. by rewrite Es.
  - unfold journal_entry. keeps_tac.
Qed.
Hint Resolve flush_extends : keeps.

Lemma visibility_changed_extends op o r : keeps extends (visibility_changed cfg op o r).
Proof using Hun. unfold visibility_changed, record_operation_from_rpsl_dict. keeps_tac. Qed.
Hint Resolve visibility_changed_extends : keeps.
Lemma update_where_extends {A} `{EqDecision A} (key : rpsl_row → A) objs f :
  keeps extends (update_where key objs f).
Proof using Type. unfold update_where. keeps_tac. by apply modify_db_extends. Qed.
Hint Resolve update_where_extends : keeps.

Lemma delete_returning_extends p : keeps extends (delete_returning p).
Proof using Type. intros h h' rows [= <- _]. by apply same_extends, with_db_same. Qed.
Hint Resolve delete_returning_extends : keeps.

(** Calls that neither end the transaction nor reset the serials of the source. *)
Definition keeps_serials (c : call) : Prop :=
  match c with
  | c_expire_journal _ s | c_delete_all s _ | c_force_reload s | c_serial_seen s _ => s ≠ src
  | c_commit => False
  | _ => True
  end.

Lemma filter_other_journal p d :
  (∀ j, j_source j = src → p j = true) →
  journal_serials src (set_journal (List.filter p (db_journal d)) d) = journal_serials src d.
Proof using Type.
  intros Hp. unfold journal_serials, journal_of. simpl. f_equal. induction (db_journal d) as [|j l IH]; simpl; [done|].
  destruct (p j) eqn:E; simpl.
  - destruct (String.eqb _ _); by rewrite IH.
  - destruct (String.eqb_spec (j_source j) src) as [Ej|]; [|done]. by rewrite (Hp j Ej) in E.
Qed.
Lemma newest_seen_update source f d :
  (∀ s, s_source (f s) = s_source s) →
  (source = src → ∀ s, serial_newest_seen (s_serials (f s)) = serial_newest_seen (s_serials s)) →
  newest_seen (sql_update_status source f d) = newest_seen d.
Proof using Type.
  intros Hs Hf. unfold newest_seen, status_of, sql_update_status. simpl.
  induction (db_status d) as [|s l IH]; csimpl; [done|].
  destruct (String.eqb_spec (s_source s) source) as [E|E]; rewrite ?Hs;
    destruct (String.eqb_spec (s_source s) src) as [E'|E']; simpl; try done.
  f_equal. apply Hf. congruence.
Qed.

Lemma run_call_extends c : keeps_serials c → keeps extends (run_call cfg collate_lt uuid timestamp_text c).
Proof using Hun.
  destruct c; simpl; intros Hc; try done.
  - unfold upsert_rpsl_object, upsert_rendered, flush_if_seen, append_row. keeps_tac; try by apply modify_other_extends.
  - unfold insert_roa_object. keeps_tac; try by apply modify_other_extends.
  - unfold update_rpki_status, rpki_now_visible, rpki_now_hidden. keeps_tac.
  - unfold update_scopefilter_status, scope_now_visible, scope_now_hidden. keeps_tac.
  - unfold update_route_preference_status, pref_changed. keeps_tac.
  - unfold delete_rpsl_object. keeps_tac; try by apply modify_db_extends.
  - unfold suspend_rpsl_object. keeps_tac; try by apply modify_db_extends.
  - unfold delete_suspended_rpsl_objects. keeps_tac; try by apply modify_db_extends.
  - unfold delete_journal_entries_before_date. keeps_tac. apply modify_db_extends; [|done]. intros d.
    apply filter_other_journal. intros j ->. apply String.eqb_neq in Hc. rewrite String.eqb_sym, Hc. done.
  - unfold delete_all_rpsl_objects_with_journal, all_object_classes_updated.
    keeps_tac; try (by apply modify_other_extends); apply modify_db_extends; try done; intros d.
    + apply filter_other_journal. intros j ->. apply String.eqb_neq in Hc. by rewrite String.eqb_sym, Hc.
    + unfold newest_seen, status_of. simpl. f_equal. induction (db_status d) as [|s l IH]; simpl; [done|].
      destruct (String.eqb_spec (s_source s) source) as [E|E]; simpl.
      * rewrite IH. destruct (String.eqb_spec (s_source s) src); congruence.
      * by destruct (String.eqb_spec (s_source s) src).
  - unfold delete_all_roa_objects. keeps_tac; try by apply modify_db_extends.
  - unfold set_force_reload. keeps_tac. apply modify_db_extends; [done|]. intros d.
    apply newest_seen_update; [done|]. congruence.
  - unfold record_serial_newest_mirror. keeps_tac; try by apply modify_tracker_extends.
  - unfold record_serial_seen. keeps_tac. apply (keeps_modify _). intros h. apply same_extends. split; simpl; auto.
    rewrite dict_set_get, decide_False; congruence.
  - unfold record_mirror_error. keeps_tac; try by apply modify_tracker_extends.
  - unfold record_serial_exported. keeps_tac; try by apply modify_tracker_extends.
  - unfold record_nrtm4_client_status. keeps_tac; try by apply modify_tracker_extends.
  - unfold record_nrtm4_server_status. keeps_tac; try by apply modify_tracker_extends.
Qed.

(** C38. Within a transaction the journal of a source whose settings do not keep it
    synchronised with an upstream only grows, and by consecutive serials: whatever calls
    are made, other than expiring the journal, deleting all, forcing a reload or recording
    a seen serial of that source and committing, the entries they add continue the
    numbering without gaps. *)
Theorem journal_gapless cs h h' :
  serials_ok h → Forall keeps_serials cs →
  st_iter (run_call cfg collate_lt uuid timestamp_text) cs h = (h', Ok tt) →
  ∃ k, journal_serials src (h_db h') = journal_serials src (h_db h) ++ consecutive (next_serial h) k ∧
       next_serial h' = (next_serial h + Z.of_nat k)%Z.
Proof using Hun.
  intros Hok Hcs Hrun. assert (keeps extends (st_iter (run_call cfg collate_lt uuid timestamp_text) cs)) as Hk.
  { clear Hrun. induction Hcs as [|c cs Hc Hcs IH]; simpl; [apply (keeps_ret _)|].
    apply (keeps_bind _); [by apply run_call_extends|by intros _]. }
  by destruct (Hk _ _ _ Hrun Hok).
Qed.
End Serials.
