(* ===== verification/JournalTheory.v ===== *)
(** * The journal describes every change of the visible objects

    A mirror that applies the journal entries of a source holds exactly the
    visible objects of that source. *)
From S2P Require Import Prelude PyStr Conf Net Models Rpki RpkiTheory RpslObjects RpslParser Queries RoutePref RoutePrefTheory Database DatabaseHandler StorageTheory.

(** ** What a mirror holds *)

Definition view_key (r : rpsl_row) : string * string := (r_rpsl_pk r, r_object_class r).
Definition view_map : Type := gmap (string * string) string.
Definition visible_in (src : string) (r : rpsl_row) : bool := String.eqb (r_source r) src && row_visible r.
(** The visible objects of a source: text by primary key and class. *)
Definition view (src : string) (d : database) : view_map :=
  list_to_map ((λ r, (view_key r, r_object_text r)) <$> List.filter (visible_in src) (db_objects d)).
(** Applying journal entries, as [NRTMOperation.save] does. *)
Definition replay1 (m : view_map) (j : journal_row) : view_map :=
  match j_operation j with
  | add_or_update => <[(j_rpsl_pk j, j_object_class j) := j_object_text j]> m
  | delete_op => delete (j_rpsl_pk j, j_object_class j) m
  end.
Definition replay (l : list journal_row) (m : view_map) : view_map := foldl replay1 m l.

(** ** Rows by key *)

Definition find_row (k : string * string * string) (l : list rpsl_row) : option rpsl_row :=
  List.find (has_key k) l.
Definition seen (r : rpsl_row) : option string := if row_visible r then Some (r_object_text r) else None.

Lemma find_row_Some k l r : find_row k l = Some r → r ∈ l ∧ row_key r = k.
Proof. intros [Hin Hk]%find_some. split; [by apply list_elem_of_In|by apply bool_decide_eq_true in Hk]. Qed.
Lemma find_row_elem l r : NoDup (row_key <$> l) → r ∈ l → find_row (row_key r) l = Some r.
Proof.
  unfold find_row. induction l as [|r' l IH]; [set_solver|]. csimpl.
  intros [Hni Hnd]%NoDup_cons Hin. unfold has_key at 1. case_bool_decide as E.
  - apply elem_of_cons in Hin as [->|Hin]; [done|]. exfalso. apply Hni. rewrite E.
    by apply (list_elem_of_fmap_2 row_key).
  - apply elem_of_cons in Hin as [->|Hin]; [done|]. by apply IH.
Qed.
Lemma find_row_None k l : find_row k l = None ↔ ∀ r, r ∈ l → row_key r ≠ k.
Proof.
  unfold find_row. induction l as [|r l IH]; simpl; [set_solver|]. unfold has_key at 1. case_bool_decide as E.
  - split; [done|]. intros H. exfalso. apply (H r); set_solver.
  - rewrite IH. set_solver.
Qed.

Lemma view_lookup src d p c :
  NoDup (row_key <$> db_objects d) → view src d !! (p, c) = find_row (p, src, c) (db_objects d) ≫= seen.
Proof.
  unfold view, find_row. induction (db_objects d) as [|r l IH]; csimpl; [done|].
  intros [Hni Hnd]%NoDup_cons. unfold visible_in at 1, has_key at 1.
  destruct (String.eqb_spec (r_source r) src) as [Es|Es]; simpl.
  - case_bool_decide as E.
    + unfold row_key in E. simplify_eq. unfold seen. simpl. destruct (row_visible r); csimpl.
      * apply lookup_insert_eq.
      * rewrite IH by done. destruct (List.find _ l) as [r'|] eqn:Ef; [|done].
        apply find_row_Some in Ef as [Hin Ek]. exfalso. apply Hni.
        change (row_key r ∈ row_key <$> l). unfold row_key at 1. rewrite <- Ek.
        by apply (list_elem_of_fmap_2 row_key).
    + destruct (row_visible r); csimpl; [|by apply IH]. etrans; [apply lookup_insert_ne|by apply IH].
      unfold view_key. intros [= <- <-]. apply E. unfold row_key. congruence.
  - rewrite bool_decide_false; [by apply IH|]. unfold row_key. congruence.
Qed.

(** ** Events *)

(** What is recorded: an operation on the object of a row. *)
Definition event : Type := DatabaseOperation * rpsl_row.
Definition event_result (e : event) : option string :=
  match e.1 with add_or_update => Some (r_object_text e.2) | delete_op => None end.
Definition apply_event (m : view_map) (e : event) : view_map :=
  match e.1 with
  | add_or_update => <[view_key e.2 := r_object_text e.2]> m
  | delete_op => delete (view_key e.2) m
  end.
Definition of_source (src : string) (e : event) : bool := String.eqb (r_source e.2) src.
Definition entry_for (e : event) (j : journal_row) : Prop :=
  j_operation j = e.1 ∧ j_rpsl_pk j = r_rpsl_pk e.2 ∧ j_source j = r_source e.2 ∧
  j_object_class j = r_object_class e.2 ∧ j_object_text j = r_object_text e.2.

Lemma apply_event_lookup m e k :
  apply_event m e !! k = if decide (view_key e.2 = k) then event_result e else m !! k.
Proof.
  unfold apply_event, event_result. destruct (e.1); case_decide; subst.
  - apply lookup_insert_eq.
  - by apply lookup_insert_ne.
  - apply lookup_delete_eq.
  - by apply lookup_delete_ne.
Qed.
(** When all events on a key agree, it ends with what they say. *)
Lemma apply_events_lookup evs m k v :
  (∀ e, e ∈ evs → view_key e.2 = k → event_result e = v) →
  ((∃ e, e ∈ evs ∧ view_key e.2 = k) ∨ m !! k = v) → foldl apply_event m evs !! k = v.
Proof.
  revert m. induction evs as [|e evs IH]; intros m Hall Hex; simpl.
  - destruct Hex as [(e & ?%elem_of_nil & _)|?]; done.
  - apply IH; [intros; apply Hall; set_solver|]. rewrite apply_event_lookup. case_decide as E.
    + right. apply Hall; [set_solver|done].
    + destruct Hex as [(e' & [->|Hin]%elem_of_cons & Hk)|Hm]; [done|left; eauto|by right].
Qed.

Lemma replay_events evs l src m :
  Forall2 entry_for evs l →
  replay (List.filter (λ j, String.eqb (j_source j) src) l) m
  = foldl apply_event m (List.filter (of_source src) evs).
Proof.
  intros Hall. revert m. induction Hall as [|e j evs l He Hall IH]; intros m; simpl; [done|].
  destruct He as (Ho & Hp & Hs & Hc & Ht). unfold of_source at 1. rewrite Hs.
  destruct (String.eqb _ _); [|done]. simpl. rewrite IH. f_equal.
  unfold replay1, apply_event, view_key. by rewrite Ho, Hp, Hc, Ht.
Qed.

(** ** Recording *)

Section Recording.
Context `{IPyLib} (cfg : configuration).

Definition journaled (e : event) : bool := keeps_journal cfg (r_source e.2).

(** [h'] differs from [h] by the journal entries of some events, and in what
    the objects, the buffer and the journaling flag do not depend on. *)
Record recorded (evs : list event) (h h' : handler) : Prop := {
  rec_objects : db_objects (h_db h') = db_objects (h_db h);
  rec_uuid : (db_next_uuid (h_db h) ≤ db_next_uuid (h_db h'))%nat;
  rec_buffer : h_rpsl_upsert_buffer h' = h_rpsl_upsert_buffer h;
  rec_flag : t_journaling_enabled (h_tracker h') = t_journaling_enabled (h_tracker h);
  rec_journal : ∃ l, db_journal (h_db h') = db_journal (h_db h) ++ l ∧
                Forall2 entry_for (List.filter journaled evs) l;
}.

Lemma recorded_refl h : recorded [] h h.
Proof. split; try done. exists []. by rewrite app_nil_r. Qed.
Lemma recorded_trans evs evs' h1 h2 h3 :
  recorded evs h1 h2 → recorded evs' h2 h3 → recorded (evs ++ evs') h1 h3.
Proof.
  intros [Ho Hu Hb Hf (l & Hl & Hall)] [Ho' Hu' Hb' Hf' (l' & Hl' & Hall')].
  split; [congruence|lia|congruence..|]. exists (l ++ l'). rewrite Hl', Hl, <- app_assoc, List.filter_app.
  split; [done|by apply Forall2_app].
Qed.

(** [m] records the events [evs] when it returns. *)
Definition records {A} (evs : list event) (m : M A) : Prop :=
  ∀ h h' a, t_journaling_enabled (h_tracker h) = true → m h = (h', Ok a) → recorded evs h h'.

Lemma records_ret {A} (a : A) : records [] (mret a).
Proof. intros h h' a' _ [= <- <-]. apply recorded_refl. Qed.
Lemma records_bind {A B} evs evs' (m : M A) (f : A → M B) :
  records evs m → (∀ a, records evs' (f a)) → records (evs ++ evs') (m ≫= f).
Proof.
  intros Hm Hf h h' b Hj. unfold mbind, st_bind. specialize (Hm h).
  destruct (m h) as [h1 [a|e]]; [|done]. intros Hb. pose proof (Hm _ a Hj eq_refl) as Hr.
  eapply recorded_trans; [done|]. eapply Hf; [|done]. by rewrite (rec_flag _ _ _ Hr).
Qed.
Lemma records_iter {A} (f : A → M unit) (g : A → list event) l :
  (∀ x, records (g x) (f x)) → records (l ≫= g) (st_iter f l).
Proof.
  intros Hf. induction l as [|x l IH]; csimpl; [apply records_ret|].
  apply records_bind; [apply Hf|by intros _].
Qed.
Lemma records_modify f :
  (∀ h, db_objects (h_db (f h)) = db_objects (h_db h) ∧
        (db_next_uuid (h_db h) ≤ db_next_uuid (h_db (f h)))%nat ∧
        db_journal (h_db (f h)) = db_journal (h_db h) ∧
        h_rpsl_upsert_buffer (f h) = h_rpsl_upsert_buffer h ∧
        t_journaling_enabled (h_tracker (f h)) = t_journaling_enabled (h_tracker h)) → records [] (modify f).
Proof.
  intros Hf h h' a _ [= <- _]. destruct (Hf h) as (? & ? & Hj & ? & ?). split; try done.
  exists []. by rewrite Hj, app_nil_r.
Qed.

Lemma record_operation_records op r origin serial :
  records [(op, r)]
    (record_operation cfg op (r_rpsl_pk r) (r_source r) (r_object_class r) (r_object_text r) origin serial).
Proof.
  intros h h' a Hj. unfold record_operation. unfold mbind, st_bind, modify, st_modify, st_get.
  cbn [h_tracker with_tracker]. cbn [t_journaling_enabled data_updated see_source update_tracker].
  rewrite Hj. rewrite andb_true_l. destruct (keeps_journal cfg (r_source r)) eqn:Ek.
  - unfold insert_journal. simpl.
    match goal with |- context [sql_insert_journal ?a ?b ?c ?d ?e ?f ?g ?i ?k] => set (serial' := d) end.
    unfold sql_insert_journal. destruct serial' as [n|]; [|done]. case_bool_decide; [done|].
    intros [= <-]. split; simpl; try done. eexists [_]. split; [done|].
    unfold journaled. simpl. rewrite Ek. constructor; [done|constructor].
  - intros [= <-]. split; simpl; try done. exists []. rewrite app_nil_r. split; [done|].
    unfold journaled. simpl. by rewrite Ek.
Qed.

Lemma object_modified_records a b c d : records [] (object_modified a b c d).
Proof. by apply records_modify. Qed.
Lemma object_modified_dict_records r o : records [] (object_modified_dict r o).
Proof. apply object_modified_records. Qed.
Lemma visibility_changed_records op o r : records [(op, r)] (visibility_changed cfg op o r).
Proof.
  change [(op, r)] with ([(op, r)] ++ []). apply records_bind.
  - apply record_operation_records.
  - intros _. apply object_modified_dict_records.
Qed.
Lemma check_permitted_records : records [] _check_write_permitted.
Proof. intros h h' [] _. unfold _check_write_permitted. destruct (h_readonly h); [done|]. intros [= <-]. apply recorded_refl. Qed.
End Recording.

(** ** What the entries do to the mirror *)

Section Follows.
Context `{IPyLib} (cfg : configuration).

(** The journal grew by entries that turn what a mirror of each journaled
    source held into what it should hold. *)
Definition follows (h h' : handler) : Prop :=
  ∃ l, db_journal (h_db h') = db_journal (h_db h) ++ l ∧
    ∀ src, keeps_journal cfg src = true →
      view src (h_db h') = replay (List.filter (λ j, String.eqb (j_source j) src) l) (view src (h_db h)).
#[export] Instance follows_preorder : PreOrder follows.
Proof.
  split.
  - intros h. exists []. rewrite app_nil_r. by split.
  - intros h1 h2 h3 (l & Hl & Hv) (l' & Hl' & Hv'). exists (l ++ l'). rewrite Hl', Hl, <- app_assoc.
    split; [done|]. intros src Hs. rewrite Hv', Hv by done. unfold replay. by rewrite List.filter_app, foldl_app.
Qed.

Lemma filter_journaled src evs :
  keeps_journal cfg src = true →
  List.filter (of_source src) (List.filter (journaled cfg) evs) = List.filter (of_source src) evs.
Proof.
  intros Hs. induction evs as [|e evs IH]; simpl; [done|].
  destruct (journaled cfg e) eqn:Ej, (of_source src e) eqn:Eo; simpl; rewrite ?Eo, ?IH; try done.
  unfold journaled, of_source in *. apply String.eqb_eq in Eo. congruence.
Qed.

(** The events of a step explain the change of the objects. *)
Lemma recorded_follows evs h0 h1 h2 :
  db_journal (h_db h1) = db_journal (h_db h0) → recorded cfg evs h1 h2 →
  (∀ src, keeps_journal cfg src = true →
     view src (h_db h1) = foldl apply_event (view src (h_db h0)) (List.filter (of_source src) evs)) →
  follows h0 h2.
Proof.
  intros Hj [Ho _ _ _ (l & Hl & Hall)] Hv. exists l. rewrite Hl, Hj. split; [done|].
  intros src Hs. rewrite (replay_events _ _ _ _ Hall). rewrite (filter_journaled _ _ Hs), <- Hv by done.
  unfold view. by rewrite Ho.
Qed.

(** Two databases with unique keys, compared key by key. *)
Lemma view_events src d d' evs :
  NoDup (row_key <$> db_objects d) → NoDup (row_key <$> db_objects d') →
  (∀ p c, let k := (p, src, c) in
     (∀ e, e ∈ evs → row_key e.2 = k → event_result e = find_row k (db_objects d') ≫= seen) ∧
     ((∃ e, e ∈ evs ∧ row_key e.2 = k) ∨
      find_row k (db_objects d) ≫= seen = find_row k (db_objects d') ≫= seen)) →
  view src d' = foldl apply_event (view src d) (List.filter (of_source src) evs).
Proof.
  intros Hnd Hnd' Hk. apply map_eq. intros [p c]. destruct (Hk p c) as [Hall Hex]. symmetry.
  assert (∀ e, e ∈ List.filter (of_source src) evs ∧ view_key e.2 = (p, c) ↔
               e ∈ evs ∧ row_key e.2 = (p, src, c)) as Hiff.
  { intros e. rewrite filter_elem. unfold of_source. rewrite String.eqb_eq. unfold view_key, row_key. split.
    - intros [[? <-] [= <- <-]]. done.
    - intros [? [= <- <- <-]]. done. }
  rewrite view_lookup by done. apply apply_events_lookup.
  - intros e He Hkey. apply Hall; by apply Hiff.
  - destruct Hex as [(e & He)|Heq]; [left; exists e; by apply Hiff|right]. by rewrite view_lookup.
Qed.
End Follows.

(** ** Writing rows *)

Section Upserts.
Context (uuid : nat → string) `{!Inj eq eq uuid}.

(** Keys and primary keys are unique, and the next primary key is new. *)
Record rows_wf (d : database) : Prop := {
  wf_keys : NoDup (row_key <$> db_objects d);
  wf_pks : NoDup (r_pk <$> db_objects d);
  wf_fresh : ∀ n, uuid n ∈ r_pk <$> db_objects d → (n < db_next_uuid d)%nat;
}.

Lemma seen_set_pk p r : seen (set_pk p r) = seen r.
Proof. done. Qed.
Lemma has_key_iff k r : has_key k r = true ↔ row_key r = k.
Proof. unfold has_key. by rewrite bool_decide_eq_true. Qed.

Lemma replace_rows_key k r (l : list rpsl_row) :
  row_key r = k → row_key <$> ((λ r', if has_key k r' then set_pk (r_pk r') r else r') <$> l) = row_key <$> l.
Proof using Type.
  intros Hk. rewrite <- list_fmap_compose. apply list_fmap_ext. intros i r' _. simpl.
  destruct (has_key k r') eqn:E; [|done]. apply has_key_iff in E. by rewrite E, <- Hk.
Qed.
Lemma replace_rows_pk k r (l : list rpsl_row) :
  r_pk <$> ((λ r', if has_key k r' then set_pk (r_pk r') r else r') <$> l) = r_pk <$> l.
Proof using Type.
  rewrite <- list_fmap_compose. apply list_fmap_ext. intros i r' _. simpl. by destruct (has_key k r').
Qed.
(** [g] is what is looked at of a row: anything but its [pk]. *)
Lemma replace_rows_find {B} (g : rpsl_row → option B) k r (l : list rpsl_row) k' :
  (∀ p r, g (set_pk p r) = g r) → row_key r = k →
  find_row k' ((λ r', if has_key k r' then set_pk (r_pk r') r else r') <$> l) ≫= g
  = if decide (k' = k ∧ existsb (has_key k) l = true) then g r else find_row k' l ≫= g.
Proof using Type.
  intros Hg Hk. induction l as [|r' l IH]; csimpl; [by rewrite decide_False by naive_solver|].
  unfold find_row in *. simpl. destruct (has_key k r') eqn:E; simpl.
  - assert (has_key k' (set_pk (r_pk r') r) = bool_decide (k' = k)) as ->.
    { unfold has_key. apply bool_decide_ext. change (row_key (set_pk (r_pk r') r)) with (row_key r). naive_solver. }
    case_bool_decide as Ek; simpl.
    + by rewrite decide_True, Hg by done.
    + rewrite decide_False by naive_solver. rewrite IH, decide_False by naive_solver.
      destruct (has_key k' r') eqn:E'; [|done]. apply has_key_iff in E, E'. congruence.
  - destruct (has_key k' r') eqn:E'; [|exact IH]. simpl. rewrite decide_False; [done|].
    intros [-> _]. congruence.
Qed.
Lemma find_row_app k l r :
  existsb (has_key (row_key r)) l = false →
  find_row k (l ++ [r]) = if decide (k = row_key r) then Some r else find_row k l.
Proof using Type.
  intros Hno. unfold find_row. induction l as [|r' l IH]; simpl.
  - unfold has_key. case_bool_decide; case_decide; congruence.
  - simpl in Hno. apply orb_false_iff in Hno as [Hr Hno]. destruct (has_key k r') eqn:E.
    + case_decide as Ek; [|done]. subst. congruence.
    + by apply IH.
Qed.
Lemma existsb_key k l : existsb (has_key k) l = true ↔ k ∈ row_key <$> l.
Proof using Type.
  rewrite existsb_spec, list_elem_of_fmap. setoid_rewrite has_key_iff. naive_solver.
Qed.

Lemma upsert_row_find {B} (g : rpsl_row → option B) d r k :
  (∀ p r, g (set_pk p r) = g r) →
  find_row k (db_objects (upsert_row uuid d r)) ≫= g
  = if decide (k = row_key r) then g r else find_row k (db_objects d) ≫= g.
Proof using Type.
  intros Hg. unfold upsert_row. destruct (existsb _ _) eqn:E; simpl.
  - rewrite replace_rows_find by done. rewrite E. repeat case_decide; naive_solver.
  - rewrite find_row_app by done. change (row_key (set_pk _ r)) with (row_key r).
    case_decide; [simpl; apply Hg|done].
Qed.
Lemma upsert_row_keys d r k :
  k ∈ row_key <$> db_objects (upsert_row uuid d r) ↔ k = row_key r ∨ k ∈ row_key <$> db_objects d.
Proof using Type.
  unfold upsert_row. destruct (existsb _ _) eqn:E; simpl.
  - rewrite replace_rows_key by done. apply existsb_key in E. naive_solver.
  - rewrite fmap_app, elem_of_app. simpl. rewrite list_elem_of_singleton.
    change (row_key (set_pk _ r)) with (row_key r). naive_solver.
Qed.
Lemma upsert_row_wf d r : rows_wf d → rows_wf (upsert_row uuid d r).
Proof using Type*.
  intros [Hk Hp Hf]. unfold upsert_row. destruct (existsb _ _) eqn:E; split; simpl.
  - by rewrite replace_rows_key.
  - by rewrite replace_rows_pk.
  - by rewrite replace_rows_pk.
  - rewrite fmap_app. apply NoDup_app. split_and!; [done| |apply NoDup_singleton].
    intros k Hin. simpl. rewrite list_elem_of_singleton. intros ->.
    apply existsb_key in Hin. change (row_key (set_pk _ r)) with (row_key r) in Hin. congruence.
  - rewrite fmap_app. apply NoDup_app. split_and!; [done| |apply NoDup_singleton].
    intros k Hin. simpl. rewrite list_elem_of_singleton. intros ->. apply Hf in Hin. lia.
  - intros n. rewrite fmap_app, elem_of_app. simpl. rewrite list_elem_of_singleton.
    intros [Hin|Heq]; [apply Hf in Hin; lia|]. apply (inj uuid) in Heq. lia.
Qed.

Lemma foldl_upsert_find {B} (g : rpsl_row → option B) rows d k :
  (∀ p r, g (set_pk p r) = g r) → NoDup (row_key <$> rows) →
  find_row k (db_objects (foldl (upsert_row uuid) d rows)) ≫= g
  = match find_row k rows with Some r => g r | None => find_row k (db_objects d) ≫= g end.
Proof using Type.
  intros Hg. revert d. induction rows as [|r rows IH]; intros d; csimpl; [done|].
  intros [Hni Hnd]%NoDup_cons. rewrite IH by done. unfold find_row at 3. simpl.
  fold (find_row k rows). destruct (has_key k r) eqn:E.
  - apply has_key_iff in E. subst k. destruct (find_row (row_key r) rows) as [r'|] eqn:Ef.
    + exfalso. apply Hni. apply find_row_Some in Ef as [Hin <-]. by apply (list_elem_of_fmap_2 row_key).
    + by rewrite upsert_row_find, decide_True by done.
  - destruct (find_row k rows); [done|]. rewrite upsert_row_find by done. rewrite decide_False; [done|].
    intros ->. assert (has_key (row_key r) r = true) by by apply has_key_iff. congruence.
Qed.
Lemma foldl_upsert_wf rows d : rows_wf d → rows_wf (foldl (upsert_row uuid) d rows).
Proof using Type*. revert d. induction rows as [|r rows IH]; intros d Hd; simpl; [done|]. by apply IH, upsert_row_wf. Qed.

(** Both forms of the statement write the rows of the buffer. *)
Lemma insert_rows_upsert rows d d' :
  insert_rows uuid d rows = Ok d' →
  d' = foldl (upsert_row uuid) d rows ∧ NoDup (row_key <$> rows) ∧
  ∀ k, k ∈ row_key <$> rows → k ∉ row_key <$> db_objects d.
Proof using Type.
  clear Inj0.
  revert d. induction rows as [|r rows IH]; intros d; csimpl.
  - intros [= <-]. split_and!; [done|constructor|set_solver].
  - unfold insert_row at 1. destruct (existsb _ _) eqn:E; simpl; [done|]. intros Hr.
    assert (next_uuid (set_objects (db_objects d ++ [set_pk (uuid (db_next_uuid d)) r]) d) = upsert_row uuid d r)
      as Hu by (unfold upsert_row; by rewrite E).
    rewrite Hu in Hr. apply IH in Hr as (-> & Hnd & Hdisj). split; [done|].
    assert (row_key r ∉ row_key <$> db_objects d) as Hni by (rewrite <- existsb_key; congruence).
    split.
    + apply NoDup_cons. split; [|done]. intros Hin%Hdisj. apply Hin, upsert_row_keys. by left.
    + intros k [->|Hin]%elem_of_cons; [done|]. intros Hk. apply (Hdisj k Hin), upsert_row_keys. by right.
Qed.
Lemma flush_statement_rows buffer guaranteed d d' :
  flush_statement uuid buffer guaranteed d = Ok d' →
  d' = foldl (upsert_row uuid) d (u_row <$> buffer) ∧ NoDup (row_key <$> (u_row <$> buffer)).
Proof using Type.
  unfold flush_statement. destruct guaranteed.
  - intros (? & ? & _)%insert_rows_upsert. done.
  - unfold sql_upsert. case_bool_decide; [|done]. by intros [= <-].
Qed.
End Upserts.

(** ** The calls, one by one *)

Section Generic.
Context `{IPyLib}.
Lemma permitted_Ok h h' a : _check_write_permitted h = (h', Ok a) → h' = h.
Proof. unfold _check_write_permitted. destruct (h_readonly h); [done|]. by intros [= <- _]. Qed.

Lemma find_row_filter p k l :
  (∀ r, r ∈ l → row_key r = k → p r = true) → find_row k (List.filter p l) = find_row k l.
Proof.
  unfold find_row. induction l as [|r l IH]; intros Hp; simpl; [done|].
  destruct (p r) eqn:E; simpl; destruct (has_key k r) eqn:Ek; try (apply IH; set_solver); [done|].
  apply has_key_iff in Ek. rewrite Hp in E by set_solver. done.
Qed.
Lemma filter_nil_negb {A} (p : A → bool) l : List.filter p l = [] → List.filter (λ x, negb (p x)) l = l.
Proof.
  induction l as [|x l IH]; simpl; [done|]. destruct (p x); simpl; [done|]. intros E. by rewrite IH.
Qed.
Lemma filter_NoDup_fmap {A} `{EqDecision A} (f : rpsl_row → A) p l :
  NoDup (f <$> l) → NoDup (f <$> List.filter p l).
Proof.
  induction l as [|r l IH]; csimpl; [done|]. intros [Hni Hnd]%NoDup_cons.
  destruct (p r); csimpl; [|by apply IH]. apply NoDup_cons. split; [|by apply IH].
  intros (x & Ex & Hin)%list_elem_of_fmap. apply filter_elem in Hin as [Hin _]. apply Hni.
  rewrite Ex. by apply list_elem_of_fmap_2.
Qed.

End Generic.

Section Steps.
Context `{IPyLib} (cfg : configuration) (uuid : nat → string) `{!Inj eq eq uuid}.

(** The rows are well formed, journaling is on, and no hidden object waits to
    replace a visible one. *)
Record mirror_wf (h : handler) : Prop := {
  mwf_rows : rows_wf uuid (h_db h);
  mwf_flag : t_journaling_enabled (h_tracker h) = true;
  mwf_buffer : ∀ u, u ∈ h_rpsl_upsert_buffer h →
    entry_visible u = true ∨ find_row (row_key (u_row u)) (db_objects (h_db h)) ≫= seen = None;
}.

Lemma recorded_wf evs h h' : recorded cfg evs h h' → mirror_wf h → mirror_wf h'.
Proof.
  intros [Ho Hu Hb Hf _] [[Hk Hp Hn] Hj Hbuf]. split; [split|..]; rewrite ?Ho, ?Hb, ?Hf; try done.
  intros n Hin%Hn. lia.
Qed.
Lemma recorded_nil_follows h h' : recorded cfg [] h h' → follows cfg h h'.
Proof. intros Hr. apply (recorded_follows _ [] h h h'); [done|done|]. by intros src _. Qed.

(** Methods that write nothing the view depends on. *)
Lemma records_nil_step {A} (m : M A) h h' a :
  records cfg [] m → mirror_wf h → m h = (h', Ok a) → follows cfg h h' ∧ mirror_wf h'.
Proof.
  intros Hm Hwf Hrun. pose proof (Hm _ _ _ (mwf_flag _ Hwf) Hrun) as Hr.
  split; [by apply recorded_nil_follows|by eapply recorded_wf].
Qed.

Definition buffer_events (buffer : list upsert_entry) : list event :=
  buffer ≫= λ u, if entry_visible u then [(add_or_update, u_row u)] else [].
Lemma journal_entries_records buffer : records cfg (buffer_events buffer) (st_iter (journal_entry cfg) buffer).
Proof.
  apply records_iter. intros u. unfold journal_entry. destruct (entry_visible u);
    [apply record_operation_records|apply records_ret].
Qed.

Lemma buffer_events_elem buffer e :
  e ∈ buffer_events buffer ↔ e.1 = add_or_update ∧ ∃ u, u ∈ buffer ∧ entry_visible u = true ∧ e.2 = u_row u.
Proof.
  unfold buffer_events. rewrite list_elem_of_bind. split.
  - intros (u & Hin & Hu). destruct (entry_visible u) eqn:E; [|by apply elem_of_nil in Hin].
    apply list_elem_of_singleton in Hin as ->. simpl. eauto.
  - intros (He & u & Hu & E & He2). exists u. split; [|done]. rewrite E. apply list_elem_of_singleton.
    destruct e; simpl in *; by subst.
Qed.

Lemma flush_step h h' :
  mirror_wf h → _flush_rpsl_object_writing_buffer cfg uuid h = (h', Ok tt) →
  follows cfg h h' ∧ mirror_wf h' ∧ h_rpsl_upsert_buffer h' = [] ∧
  (∀ k, find_row k (db_objects (h_db h')) ≫= seen
        = match find_row k (u_row <$> h_rpsl_upsert_buffer h) with
          | Some r => seen r | None => find_row k (db_objects (h_db h)) ≫= seen end).
Proof using Type*.
  intros Hwf. unfold _flush_rpsl_object_writing_buffer. unfold mbind at 1, st_bind at 1, st_get.
  destruct (h_rpsl_upsert_buffer h) as [|u us] eqn:Eb.
  - intros [= <-]. split_and!; [reflexivity|done|done|]. done.
  - set (buffer := u :: us) in *. unfold mbind at 1, st_bind at 1, _check_write_permitted.
    destruct (h_readonly h); [done|]. unfold mbind at 1, st_bind at 1, execute_flush.
    destruct (flush_statement _ _ _ _) as [d|] eqn:Ef; [|done].
    pose proof (flush_statement_parts uuid _ _ _ _ Ef) as [Hj _].
    apply (flush_statement_rows uuid) in Ef as [-> Hnd].
    set (h1 := with_db _ h). unfold mbind, st_bind at 1.
    destruct (st_iter (journal_entry cfg) buffer h1) as [h2 [[]|]] eqn:Ei; [|done]. intros [= <-].
    pose proof (journal_entries_records buffer h1 h2 tt (mwf_flag _ Hwf) Ei) as Hrec.
    pose proof (foldl_upsert_wf uuid (u_row <$> buffer) _ (mwf_rows _ Hwf)) as Hwf1.
    assert (∀ k, find_row k (db_objects (h_db h1)) ≫= seen
        = match find_row k (u_row <$> buffer) with
          | Some r => seen r | None => find_row k (db_objects (h_db h)) ≫= seen end) as Hfind.
    { intros k. by apply foldl_upsert_find. }
    assert (follows cfg h h2) as Hfol.
    { apply (recorded_follows _ (buffer_events buffer) h h1 h2); [done|done|]. intros src _.
      apply view_events; [apply (mwf_rows _ Hwf)|apply Hwf1|]. intros p c. split.
      - intros e (He & v & Hv & Ev & He2)%buffer_events_elem Hk. rewrite Hfind, <- Hk, He2.
        rewrite find_row_elem; [|done|by apply list_elem_of_fmap_2]. unfold event_result, seen. rewrite He.
        unfold entry_visible in Ev. by rewrite Ev, He2.
      - rewrite Hfind. destruct (find_row _ (u_row <$> buffer)) as [r|] eqn:Er; [|by right].
        apply find_row_Some in Er as [Hin Hk]. apply list_elem_of_fmap in Hin as (v & -> & Hv).
        destruct (entry_visible v) eqn:Ev.
        + left. exists (add_or_update, u_row v). split; [|done]. apply buffer_events_elem. eauto.
        + right. destruct (mwf_buffer _ Hwf v) as [?|Hh]; [by rewrite Eb|congruence|].
          rewrite <- Hk, Hh. unfold seen. unfold entry_visible in Ev. by rewrite Ev. }
    split_and!; [exact Hfol| |done|].
    + destruct Hrec as [Ho Hu _ Hf _]. destruct Hwf1 as [H1 H2 H3].
      split; simpl; [split; simpl; rewrite ?Ho; [done|done|intros n Hin; eapply Nat.lt_le_trans; [by apply H3|exact Hu]]| |set_solver].
      rewrite Hf. apply (mwf_flag _ Hwf).
    + intros k. simpl. rewrite (rec_objects _ _ _ _ Hrec). apply Hfind.
Qed.

(** Deleting the rows that satisfy [p], with one of them recorded. *)
Lemma delete_one_step p h h1 h2 rows r :
  mirror_wf h → h_rpsl_upsert_buffer h = [] →
  delete_returning p h = (h1, Ok rows) → rows = [r] →
  recorded cfg [(delete_op, r)] h1 h2 → follows cfg h h2 ∧ mirror_wf h2.
Proof.
  intros [[Hk Hp Hf] Hj Hb] Hbuf [= <- <-] Hrows Hrec.
  assert (r ∈ db_objects (h_db h) ∧ p r = true) as [Hr Hpr] by (apply filter_elem; rewrite Hrows; set_solver).
  assert (NoDup (row_key <$> List.filter (λ r, negb (p r)) (db_objects (h_db h)))) as Hk' by by apply filter_NoDup_fmap.
  split.
  - refine (recorded_follows _ _ _ _ _ _ Hrec _); [done|]. intros src _.
    apply view_events; [done|done|]. simpl. intros q c. split.
    + intros e ->%list_elem_of_singleton Ek. unfold event_result. simpl.
      destruct (find_row _ _) as [r'|] eqn:E; [|done]. exfalso.
      apply find_row_Some in E as [Hin Ek']. apply filter_elem in Hin as [Hin Hn]. simpl in Ek.
      pose proof (find_row_elem _ _ Hk Hr) as E1. pose proof (find_row_elem _ _ Hk Hin) as E2.
      rewrite Ek' in E2. rewrite Ek in E1. assert (r' = r) by congruence. subst. by rewrite Hpr in Hn.
    + destruct (decide (row_key r = (q, src, c))) as [Ek|Hne]; [left; exists (delete_op, r); set_solver|right].
      rewrite find_row_filter; [done|]. intros r' Hin Ek. destruct (p r') eqn:E; [|done].
      exfalso. apply Hne. rewrite <- Ek. f_equal.
      assert (r' ∈ [r]) as ->%list_elem_of_singleton by (rewrite <- Hrows; apply filter_elem; done). done.
  - eapply recorded_wf; [done|]. split; [split|..]; simpl; try done.
    + by apply filter_NoDup_fmap.
    + intros n Hin. apply Hf. apply list_elem_of_fmap in Hin as (x & -> & Hin).
      apply filter_elem in Hin as [Hin _]. by apply list_elem_of_fmap_2.
    + rewrite Hbuf. set_solver.
Qed.
Lemma delete_none_step p h h1 :
  mirror_wf h → delete_returning p h = (h1, Ok []) → follows cfg h h1 ∧ mirror_wf h1.
Proof.
  intros Hwf [= <- Hrows].
  assert (recorded cfg [] h (with_db (λ _, set_objects (List.filter (λ r, negb (p r)) (db_objects (h_db h))) (h_db h)) h))
    as Hrec.
  { split; simpl; try done; [by apply filter_nil_negb|]. exists []. by rewrite app_nil_r. }
  split; [by apply recorded_nil_follows|by eapply recorded_wf].
Qed.

Lemma delete_step origin rpk source class serial protect h h' :
  mirror_wf h → delete_rpsl_object cfg uuid origin rpk source class serial protect h = (h', Ok tt) →
  follows cfg h h' ∧ mirror_wf h'.
Proof using Type*.
  intros Hwf (h0 & [] & ->%permitted_Ok & (h1 & [] & Hflush & (h2 & rows & Hdel & (h3 & m & [-> Hm]%st_lift_Ok & Hrest)%st_bind_Ok)%st_bind_Ok)%st_bind_Ok)%st_bind_Ok.
  destruct (flush_step _ _ Hwf Hflush) as (Hfol & Hwf1 & Hbuf & _).
  destruct rows as [|r [|r' rows]]; simpl in Hm; simplify_eq.
  - injection Hrest as <-. destruct (delete_none_step _ _ _ Hwf1 Hdel) as [Hf2 Hwf2]. split; [by etrans|done].
  - simpl in Hrest. assert (recorded cfg [(delete_op, r)] h2 h') as Hrec.
    { assert (t_journaling_enabled (h_tracker h2) = true) as Hj.
      { injection Hdel as <- _. apply (mwf_flag _ Hwf1). }
      apply (λ m, records_bind cfg [(delete_op, r)] [] _ _ (record_operation_records cfg _ _ _ _) m _ _ _ Hj) in Hrest; [done|].
      intros _. apply (records_bind cfg [] []); [apply object_modified_dict_records|]. intros _.
      destruct protect; [by apply records_modify|apply records_ret]. }
    destruct (delete_one_step _ _ _ _ _ _ Hwf1 Hbuf Hdel eq_refl Hrec). split; [by etrans|done].
Qed.

Lemma suspend_step pk_uuid h h' :
  mirror_wf h → suspend_rpsl_object cfg uuid pk_uuid h = (h', Ok tt) → follows cfg h h' ∧ mirror_wf h'.
Proof.
  intros Hwf (h0 & [] & ->%permitted_Ok & (h1 & [] & Hflush & (h2 & rows & Hdel & (h3 & m & [-> Hm]%st_lift_Ok & Hrest)%st_bind_Ok)%st_bind_Ok)%st_bind_Ok)%st_bind_Ok.
  destruct (flush_step _ _ Hwf Hflush) as (Hfol & Hwf1 & Hbuf & _).
  destruct rows as [|r [|r' rows]]; simpl in Hm; simplify_eq.
  simpl in Hrest. case_bool_decide; [done|]. assert (recorded cfg [(delete_op, r)] h2 h') as Hrec.
  { assert (t_journaling_enabled (h_tracker h2) = true) as Hj.
    { injection Hdel as <- _. apply (mwf_flag _ Hwf1). }
    change [(delete_op, r)] with ([] ++ [] ++ [(delete_op, r)] ++ []).
    refine (records_bind cfg [] _ st_get _ _ _ _ _ _ Hj Hrest); [intros ? ? ? _ [= <- _]; apply recorded_refl|].
    intros h0. apply records_bind; [apply records_modify; simpl; auto with lia|]. intros _.
    apply records_bind; [apply record_operation_records|]. intros _. apply object_modified_dict_records. }
  destruct (delete_one_step _ _ _ _ _ _ Hwf1 Hbuf Hdel eq_refl Hrec). split; [by etrans|done].
Qed.

(** *** Upserts *)

(** No visible row has the key, neither stored nor waiting. *)
Definition hidden_key (k : string * string * string) (h : handler) : Prop :=
  find_row k (db_objects (h_db h)) ≫= seen = None ∧
  ∀ u, u ∈ h_rpsl_upsert_buffer h → row_key (u_row u) = k → entry_visible u = false.

Lemma flush_if_seen_step key h h' :
  mirror_wf h → flush_if_seen cfg uuid key h = (h', Ok tt) →
  follows cfg h h' ∧ mirror_wf h' ∧ ∀ k, hidden_key k h → hidden_key k h'.
Proof.
  intros Hwf. unfold flush_if_seen. unfold mbind, st_bind, st_get. case_bool_decide; intros Hrun.
  - destruct (flush_step _ _ Hwf Hrun) as (Hf & Hw & Hb & Hfind). split_and!; [done..|].
    intros k [Hdb Hbuf]. split; [|rewrite Hb; set_solver]. rewrite Hfind.
    destruct (find_row k (u_row <$> _)) as [r|] eqn:E; [|done].
    apply find_row_Some in E as [Hin Hk]. apply list_elem_of_fmap in Hin as (u & -> & Hu).
    specialize (Hbuf u Hu Hk). unfold entry_visible in Hbuf. unfold seen. by rewrite Hbuf.
  - injection Hrun as <-. split_and!; [reflexivity|done|done].
Qed.

Lemma append_row_step u prefix h h' :
  mirror_wf h → (entry_visible u = true ∨ hidden_key (row_key (u_row u)) h) →
  append_row cfg uuid u prefix h = (h', Ok tt) → follows cfg h h' ∧ mirror_wf h'.
Proof.
  intros Hwf Hu (h1 & [] & [= <-] & (h2 & [] & [= <-] & Hrest)%st_bind_Ok)%st_bind_Ok.
  set (h1 := with_changed _ _) in Hrest. unfold mbind, st_bind, st_get in Hrest.
  assert (follows cfg h h1) as Hf1 by (exists []; rewrite app_nil_r; split; [done|by intros]).
  assert (mirror_wf h1) as Hwf1.
  { destruct Hwf as [Hr Hj Hb]. split; [done|done|]. simpl.
    intros v [Hv| ->%list_elem_of_singleton]%elem_of_app; [by apply Hb|]. destruct Hu as [|[]]; auto. }
  destruct (_ <? _)%Z.
  - destruct (flush_step _ _ Hwf1 Hrest) as (? & ? & _). split; [by etrans|done].
  - injection Hrest as <-. done.
Qed.

Definition stored_visible (o : stored_object) : bool :=
  object_is_visible (so_rpki_status o) (so_scopefilter_status o) (so_route_preference_status o).
Definition stored_key (o : stored_object) : string * string * string :=
  (pk (so_object o), pdata_str (o_parsed_data (so_object o) !! "source"), o_class_name (so_object o)).

Lemma upsert_step timestamp_text o origin guaranteed serial created h h' :
  mirror_wf h → (stored_visible o = true ∨ hidden_key (stored_key o) h) →
  upsert_rpsl_object cfg uuid timestamp_text o origin guaranteed serial created h = (h', Ok tt) →
  follows cfg h h' ∧ mirror_wf h'.
Proof.
  intros Hwf Ho (h0 & [] & ->%permitted_Ok & (h1 & [] & [= <-] & (h2 & src & [-> Hsrc]%st_lift_Ok &
    (h3 & [] & Hflush & (h4 & hh & [= <- <-] & (h5 & text & [-> Htext]%st_lift_Ok & Happ)%st_bind_Ok)%st_bind_Ok)%st_bind_Ok)%st_bind_Ok)%st_bind_Ok)%st_bind_Ok.
  assert (pdata_str (o_parsed_data (so_object o) !! "source") = src) as Es.
  { destruct (o_parsed_data (so_object o) !! "source"); by simplify_eq. }
  set (h1 := with_buffer _ _ _ h) in Hflush.
  assert (mirror_wf h1) as Hwf1 by (by destruct Hwf).
  destruct (flush_if_seen_step _ _ _ Hwf1 Hflush) as (Hf & Hwf3 & Hh).
  assert (follows cfg h h1) as Hf1 by (exists []; rewrite app_nil_r; split; [done|by intros]).
  match type of Happ with append_row _ _ ?u _ _ = _ =>
    assert (entry_visible u = true ∨ hidden_key (row_key (u_row u)) h3) as Hu end.
  { destruct Ho as [Hv|Hk]; [by left|right]. apply Hh. unfold row_key. simpl. rewrite <- Es. exact Hk. }
  destruct (append_row_step _ _ _ _ Hwf3 Hu Happ) as [Hf' Hwf'].
  split; [|done]. transitivity h1; [done|]. by transitivity h3.
Qed.

(** *** Status updates *)

(** [f] changes statuses only. *)
Record restating (f : rpsl_row → rpsl_row) : Prop := {
  rs_key : ∀ r, row_key (f r) = row_key r;
  rs_pk : ∀ r, r_pk (f r) = r_pk r;
}.
Lemma find_row_map f k (l : list rpsl_row) : restating f → find_row k (f <$> l) = f <$> find_row k l.
Proof.
  intros [Hk _]. unfold find_row. induction l as [|r l IH]; csimpl; [done|].
  assert (has_key k (f r) = has_key k r) as -> by (unfold has_key; by rewrite Hk).
  by destruct (has_key k r).
Qed.

(** The events say, for each changed object, what is seen of it now, and there
    is one for every object seen differently. *)
Record explained (f : rpsl_row → rpsl_row) (evs : list event) (rows : list rpsl_row) : Prop := {
  ex_sound : ∀ e, e ∈ evs → ∃ r, r ∈ rows ∧ row_key e.2 = row_key r ∧ event_result e = seen (f r);
  ex_complete : ∀ r, r ∈ rows → seen (f r) = seen r ∨ ∃ e, e ∈ evs ∧ row_key e.2 = row_key r;
}.

Lemma restated_rows_wf f d d' :
  restating f → rows_wf uuid d → db_objects d' = f <$> db_objects d →
  (db_next_uuid d ≤ db_next_uuid d')%nat → rows_wf uuid d'.
Proof.
  intros [Hk Hp] [Hnk Hnp Hf] Ho Hu.
  assert (row_key <$> (f <$> db_objects d) = row_key <$> db_objects d) as Ek.
  { rewrite <- list_fmap_compose. apply list_fmap_ext. intros i r _. apply Hk. }
  assert (r_pk <$> (f <$> db_objects d) = r_pk <$> db_objects d) as Ep.
  { rewrite <- list_fmap_compose. apply list_fmap_ext. intros i r _. apply Hp. }
  split; rewrite Ho, ?Ek, ?Ep; try done. intros n Hin%Hf. lia.
Qed.

Lemma explained_view src f evs d d' :
  restating f → rows_wf uuid d → db_objects d' = f <$> db_objects d → explained f evs (db_objects d) →
  view src d' = foldl apply_event (view src d) (List.filter (of_source src) evs).
Proof.
  intros Hf Hwf Ho [Hs Hc]. pose proof (wf_keys _ _ Hwf) as Hnd.
  assert (NoDup (row_key <$> db_objects d')) as Hnd'.
  { rewrite Ho. assert (row_key <$> (f <$> db_objects d) = row_key <$> db_objects d) as ->; [|done].
    rewrite <- list_fmap_compose. apply list_fmap_ext. intros i r _. apply (rs_key _ Hf). }
  apply view_events; [done|done|]. intros p c. cbv zeta. rewrite Ho, find_row_map by done. split.
  - intros e He Hk. destruct (Hs e He) as (r & Hr & Ek & ->).
    by rewrite <- Hk, Ek, (find_row_elem _ _ Hnd Hr).
  - destruct (find_row _ (db_objects d)) as [r|] eqn:E; simpl; [|by right].
    apply find_row_Some in E as [Hr Hk]. destruct (Hc r Hr) as [->|(e & He & Ek)]; [by right|].
    left. exists e. by rewrite Ek.
Qed.

(** A status update: the rows change and the events are recorded, in either
    order, while no write is pending. *)
Lemma status_step f evs h h' :
  restating f → mirror_wf h → h_rpsl_upsert_buffer h = [] → explained f evs (db_objects (h_db h)) →
  db_objects (h_db h') = f <$> db_objects (h_db h) →
  recorded cfg evs h (with_db (set_objects (db_objects (h_db h))) h') →
  follows cfg h h' ∧ mirror_wf h'.
Proof.
  intros Hf Hwf Hb Hex Ho [_ Hu Hbuf Hflag (l & Hl & Hall)]. simpl in *. split.
  - exists l. split; [done|]. intros src Hs. rewrite (replay_events _ _ _ _ Hall), (filter_journaled _ _ _ Hs).
    by apply (explained_view src f); [done|apply Hwf|done|done].
  - split; [by eapply restated_rows_wf; [done|apply Hwf|done|done]|rewrite Hflag; apply Hwf|].
    rewrite Hbuf, Hb. set_solver.
Qed.

(** [h'] is [h] with other objects. *)
Definition only_objects (f : rpsl_row → rpsl_row) (h h' : handler) : Prop :=
  db_objects (h_db h') = f <$> db_objects (h_db h) ∧ h = with_db (set_objects (db_objects (h_db h))) h'.
Lemma only_objects_trans f g h1 h2 h3 :
  only_objects f h1 h2 → only_objects g h2 h3 → only_objects (λ r, g (f r)) h1 h3.
Proof.
  intros [Ho He] [Ho' He']. split.
  - rewrite Ho', Ho. by rewrite <- list_fmap_compose.
  - rewrite He at 1. rewrite He'. done.
Qed.
Lemma same_objects h : h = with_db (set_objects (db_objects (h_db h))) h.
Proof. destruct h as [d]. unfold with_db. simpl. f_equal. by destruct d. Qed.
Lemma update_where_only {A} `{EqDecision A} (key : rpsl_row → A) objs f h h' a :
  update_where key objs f h = (h', Ok a) → only_objects (λ r, if in_pks key objs r then f r else r) h h'.
Proof.
  unfold update_where. destruct objs as [|o objs]; intros [= <- _].
  - split; [|apply same_objects]. rewrite (list_fmap_ext _ id); [by rewrite list_fmap_id|done].
  - split; [done|]. rewrite (same_objects h) at 1. done.
Qed.
Lemma only_then_recorded f evs h h1 h' :
  only_objects f h h1 → recorded cfg evs h1 h' → db_objects (h_db h') = f <$> db_objects (h_db h) ∧
  recorded cfg evs h (with_db (set_objects (db_objects (h_db h))) h').
Proof.
  intros [Ho He] [Ho' Hu Hb Hf (l & Hl & Hall)]. split; [congruence|].
  assert (db_journal (h_db h) = db_journal (h_db h1) ∧ db_next_uuid (h_db h) = db_next_uuid (h_db h1) ∧
    h_rpsl_upsert_buffer h = h_rpsl_upsert_buffer h1 ∧
    t_journaling_enabled (h_tracker h) = t_journaling_enabled (h_tracker h1)) as (Ej & Eu & Eb & Ef)
    by (by rewrite He).
  split; simpl; rewrite ?Ej, ?Eu, ?Eb, ?Ef; try done. eauto.
Qed.
Lemma recorded_then_only f evs h h1 h' :
  recorded cfg evs h h1 → only_objects f h1 h' → db_objects (h_db h') = f <$> db_objects (h_db h) ∧
  recorded cfg evs h (with_db (set_objects (db_objects (h_db h))) h').
Proof.
  intros Hr [Ho He]. pose proof (rec_objects _ _ _ _ Hr) as Eo. rewrite Eo in Ho, He. split; [done|].
  by rewrite <- He.
Qed.
End Steps.

(** ** Lists of objects with a new status *)

Section StatusLists.
Context {T K : Type} `{EqDecision K} (set : T → rpsl_row → rpsl_row) (old : rpsl_row → T) (key : rpsl_row → K).
Context (set_set : ∀ s s' r, set s (set s' r) = set s r).
Context (set_key : ∀ s r, key (set s r) = key r).
Context (set_row_key : ∀ s r, row_key (set s r) = row_key r).
Context (set_row_pk : ∀ s r, r_pk (set s r) = r_pk r).
Context (set_text : ∀ s r, r_object_text (set s r) = r_object_text r).

(** One statement per list. *)
Definition restate1 (r : rpsl_row) (x : T * list (T * rpsl_row)) : rpsl_row :=
  if in_pks key x.2.*2 r then set x.1 r else r.
Definition restate (lists : list (T * list (T * rpsl_row))) (r : rpsl_row) : rpsl_row := foldl restate1 r lists.

(** The lists hold rows of the table with their old status, the lists are
    disjoint, and the statement for a list reaches no other row. *)
Record changes_ok (rows : list rpsl_row) (lists : list (T * list (T * rpsl_row))) : Prop := {
  co_rows : ∀ s l o, (s, l) ∈ lists → o ∈ l → ∃ r, r ∈ rows ∧ o = (old r, set s r);
  co_disjoint : ∀ s l s' l' o o', (s, l) ∈ lists → (s', l') ∈ lists → o ∈ l → o' ∈ l' →
    key o.2 = key o'.2 → s = s';
  co_reach : ∀ s l r, (s, l) ∈ lists → r ∈ rows → key r ∈ key <$> l.*2 → (old r, set s r) ∈ l;
}.

Lemma restate_restating lists : restating (restate lists).
Proof.
  assert (∀ r, row_key (restate lists r) = row_key r ∧ r_pk (restate lists r) = r_pk r) as H.
  { unfold restate. induction lists as [|x lists IH]; intros r; simpl; [done|].
    destruct (IH (restate1 r x)) as [-> ->]. unfold restate1. by destruct (in_pks _ _ _). }
  split; intros r; apply H.
Qed.

Lemma restate_not_in lists r : (∀ s l, (s, l) ∈ lists → key r ∉ key <$> l.*2) → restate lists r = r.
Proof.
  unfold restate. induction lists as [|[s l] lists IH]; simpl; intros Hn; [done|].
  unfold restate1 at 2. simpl. unfold in_pks. rewrite bool_decide_false by (apply (Hn s l); set_solver).
  apply IH. intros s' l' Hin. apply (Hn s' l'). set_solver.
Qed.
Lemma restate_in lists r s :
  (∃ l, (s, l) ∈ lists ∧ key r ∈ key <$> l.*2) →
  (∀ s' l', (s', l') ∈ lists → key r ∈ key <$> l'.*2 → s' = s) → restate lists r = set s r.
Proof.
  unfold restate. assert (∀ lists r', (r' = set s r ∨ (r' = r ∧ ∃ l, (s, l) ∈ lists ∧ key r ∈ key <$> l.*2)) →
    (∀ s' l', (s', l') ∈ lists → key r ∈ key <$> l'.*2 → s' = s) → foldl restate1 r' lists = set s r) as Hgen.
  { clear lists. induction lists as [|[s' l'] lists IH]; simpl; intros r' Hr' Hs.
    - destruct Hr' as [->|(_ & l & Hl & _)]; [done|by apply elem_of_nil in Hl].
    - apply IH; [|intros s1 l1 H1; apply (Hs s1 l1); set_solver]. unfold restate1, in_pks. simpl.
      assert (key r' = key r) as -> by (destruct Hr' as [->|[-> _]]; by rewrite ?set_key).
      case_bool_decide as E.
      + left. assert (s' = s) as -> by (apply (Hs s' l'); set_solver).
        destruct Hr' as [->|[-> _]]; [apply set_set|done].
      + destruct Hr' as [->|(-> & l & [Hl|Hl]%elem_of_cons & Hk)]; [by left|by simplify_eq|right; eauto]. }
  intros Hex Hs. apply Hgen; [by right|done].
Qed.

Lemma list_find_in (lists : list (T * list (T * rpsl_row))) r :
  (∃ s l, (s, l) ∈ lists ∧ key r ∈ key <$> l.*2) ∨ ¬ (∃ s l, (s, l) ∈ lists ∧ key r ∈ key <$> l.*2).
Proof.
  induction lists as [|[s l] lists IH]; [right; set_solver|].
  destruct (decide (key r ∈ key <$> l.*2)); [left; exists s, l; set_solver|].
  destruct IH as [(s' & l' & ? & ?)|Hno]; [left; exists s', l'; set_solver|right].
  intros (s' & l' & [Heq|Hin]%elem_of_cons & Hk); [by simplify_eq|]. apply Hno. eauto.
Qed.

Lemma restate_listed rows lists s l r :
  changes_ok rows lists → (s, l) ∈ lists → r ∈ rows → (old r, set s r) ∈ l → restate lists r = set s r.
Proof.
  intros [Hrows Hdis Hreach] Hl Hr Hin. apply restate_in.
  - exists l. split; [done|]. rewrite <- (set_key s). apply list_elem_of_fmap_2.
    by apply (list_elem_of_fmap_2 snd) in Hin.
  - intros s' l' Hl' Hk. pose proof (Hreach _ _ _ Hl' Hr Hk) as Hin'.
    eapply (Hdis _ _ _ _ _ _ Hl' Hl Hin' Hin). simpl. by rewrite !set_key.
Qed.
Lemma restate_cases lists r : restate lists r = r ∨ ∃ s, restate lists r = set s r.
Proof.
  unfold restate. assert (∀ r', (r' = r ∨ ∃ s, r' = set s r) →
    foldl restate1 r' lists = r ∨ ∃ s, foldl restate1 r' lists = set s r) as H; [|apply H; by left].
  induction lists as [|[s l] lists IH]; intros r' Hr'; simpl; [done|]. apply IH. unfold restate1. simpl.
  destruct (in_pks _ _ _); [|done]. right. exists s. destruct Hr' as [->|[s' ->]]; [done|apply set_set].
Qed.

Context (up : T → bool).
Context (set_up : ∀ s r, up s = true → row_visible r = true → row_visible (set s r) = true).
Context (set_down : ∀ s r, up s = false → row_visible (set s r) = false).

(** The events of the loops after the statements. *)
Definition status_event (prev : T * rpsl_row → bool) (s : T) (o : T * rpsl_row) (e : event) : Prop :=
  (up s = true ∧ e = (add_or_update, o.2) ∧ row_visible o.2 = true ∧ prev o = false) ∨
  (up s = false ∧ e = (delete_op, o.2) ∧ row_visible o.2 = false ∧ prev o = true).

Lemma seen_set s r : row_visible (set s r) = row_visible r → seen (set s r) = seen r.
Proof. unfold seen. intros ->. by rewrite set_text. Qed.

Lemma lists_explained prev rows lists evs :
  changes_ok rows lists → (∀ r s, prev (old r, set s r) = row_visible r) →
  (∀ e, e ∈ evs ↔ ∃ s l o, (s, l) ∈ lists ∧ o ∈ l ∧ status_event prev s o e) →
  explained (restate lists) evs rows.
Proof.
  intros Hok Hprev Hevs.
  assert (∀ s l r, (s, l) ∈ lists → r ∈ rows → (old r, set s r) ∈ l → restate lists r = set s r) as Hres
    by (intros; by eapply restate_listed).
  destruct Hok as [Hrows Hdis Hreach].
  split.
  - intros e (s & l & o & Hl & Ho & He)%Hevs. destruct (Hrows _ _ _ Hl Ho) as (r & Hr & ->). exists r.
    split; [done|]. rewrite (Hres s l) by done.
    destruct He as [(_ & -> & Hv & _)|(_ & -> & Hv & _)]; simpl; rewrite set_row_key; (split; [done|]);
      unfold event_result, seen; simpl in *; by rewrite Hv.
  - intros r Hr. destruct (list_find_in lists r) as [(s & l & Hl & Hk)|Hno].
    + pose proof (Hreach _ _ _ Hl Hr Hk) as Hin. rewrite (Hres s l) by done.
      destruct (row_visible r) eqn:Ev, (row_visible (set s r)) eqn:Ev'; try (left; apply seen_set; congruence).
      * right. destruct (up s) eqn:Eu; [by rewrite (set_up s r) in Ev'|].
        exists (delete_op, set s r). split; [|apply set_row_key]. apply Hevs. exists s, l, (old r, set s r).
        split_and!; [done..|right]. by rewrite Hprev.
      * right. destruct (up s) eqn:Eu; [|by rewrite (set_down s r) in Ev'].
        exists (add_or_update, set s r). split; [|apply set_row_key]. apply Hevs. exists s, l, (old r, set s r).
        split_and!; [done..|left]. by rewrite Hprev.
    + left. rewrite restate_not_in; [done|]. intros s l Hl Hk. apply Hno. eauto.
Qed.
End StatusLists.

(** *** The three status updates *)

Section StatusCalls.
Context `{IPyLib} (cfg : configuration) (uuid : nat → string) `{!Inj eq eq uuid}.

(** The objects passed: rows of the table with the old and the new status. *)
Definition rpki_lists (a b c : list (RPKIStatus * rpsl_row)) : list (RPKIStatus * list (RPKIStatus * rpsl_row)) :=
  [(rpki_valid, a); (rpki_invalid, b); (rpki_not_found, c)].
Definition rpki_changes_ok (rows : list rpsl_row) (a b c : list (RPKIStatus * rpsl_row)) : Prop :=
  changes_ok set_rpki_status r_rpki_status r_pk rows (rpki_lists a b c).
Definition scope_lists (a b c : list (ScopeFilterStatus * rpsl_row))
  : list (ScopeFilterStatus * list (ScopeFilterStatus * rpsl_row)) :=
  [(in_scope, a); (out_scope_as, b); (out_scope_prefix, c)].
Definition scope_changes_ok (rows : list rpsl_row) (a b c : list (ScopeFilterStatus * rpsl_row)) : Prop :=
  changes_ok set_scopefilter_status r_scopefilter_status r_rpsl_pk rows (scope_lists a b c).

Definition when (b : bool) (e : event) : list event := if b then [e] else [].
Lemma when_elem b e e' : e' ∈ when b e ↔ b = true ∧ e' = e.
Proof. destruct b; simpl; [rewrite list_elem_of_singleton|rewrite elem_of_nil]; naive_solver. Qed.
Lemma when_up_elem b b' e e' : e' ∈ when (b && negb b') e ↔ b = true ∧ b' = false ∧ e' = e.
Proof. rewrite when_elem. destruct b, b'; naive_solver. Qed.
Lemma when_down_elem b b' e e' : e' ∈ when (negb b && b') e ↔ b = false ∧ b' = true ∧ e' = e.
Proof. rewrite when_elem. destruct b, b'; naive_solver. Qed.
Lemma visibility_records b op origin r :
  records cfg (when b (op, r)) (if b then visibility_changed cfg op origin r else mret tt).
Proof. destruct b; [apply visibility_changed_records|apply records_ret]. Qed.

Lemma loops_records {A} (ups downs : list A) (f g : A → M unit) (eu ed : A → list event) :
  (∀ x, records cfg (eu x) (f x)) → (∀ x, records cfg (ed x) (g x)) →
  records cfg ((ups ≫= eu) ++ (downs ≫= ed)) (_ ← st_iter f ups; st_iter g downs).
Proof. intros Hf Hg. apply records_bind; [by apply records_iter|]. intros _. by apply records_iter. Qed.

Lemma rpki_step a b c h h' :
  mirror_wf uuid h → h_rpsl_upsert_buffer h = [] → rpki_changes_ok (db_objects (h_db h)) a b c →
  update_rpki_status cfg a b c h = (h', Ok tt) → follows cfg h h' ∧ mirror_wf uuid h' ∧
  db_objects (h_db h') = restate set_rpki_status r_pk (rpki_lists a b c) <$> db_objects (h_db h).
Proof.
  intros Hwf Hb Hok (h0 & [] & ->%permitted_Ok & (h1 & [] & H1 & (h2 & [] & H2 & (h3 & [] & H3 & Hloops)%st_bind_Ok)%st_bind_Ok)%st_bind_Ok)%st_bind_Ok.
  apply update_where_only in H1, H2, H3.
  pose proof (only_objects_trans _ _ _ _ _ (only_objects_trans _ _ _ _ _ H1 H2) H3) as Hup.
  set (evs := ((a ++ c) ≫= λ o, when (row_visible o.2 && negb (rpki_visible_previously o)) (add_or_update, o.2)) ++
              (b ≫= λ o, when (negb (row_visible o.2) && rpki_visible_previously o) (delete_op, o.2))).
  apply (loops_records _ _ _ _ _ _ (λ o, visibility_records _ _ _ _) (λ o, visibility_records _ _ _ _)) in Hloops;
    [|destruct Hup as [_ He]; rewrite He in Hwf; apply (mwf_flag _ _ Hwf)].
  destruct (only_then_recorded _ _ _ _ _ _ Hup Hloops) as [Ho Hrec].
  apply and_assoc. split; [|exact Ho].
  eapply (status_step cfg uuid (restate set_rpki_status r_pk (rpki_lists a b c)) evs); try done.
  - by apply restate_restating.
  - eapply (lists_explained set_rpki_status r_rpki_status r_pk)
      with (up := rpki_is_visible) (prev := rpki_visible_previously); try done.
    + intros s r. unfold row_visible, object_is_visible. simpl. intros ->. by destruct (rpki_is_visible _).
    + intros s r. unfold row_visible, object_is_visible. simpl. by intros ->.
    + intros e. unfold evs, status_event. rewrite elem_of_app, !list_elem_of_bind.
      setoid_rewrite when_up_elem. setoid_rewrite when_down_elem. setoid_rewrite elem_of_app. split.
      * intros [(o & (Hv & Hp & ->) & [Ho'|Ho'])|(o & (Hv & Hp & ->) & Ho')].
        -- exists rpki_valid, a, o. split_and!; [set_solver|done|by left].
        -- exists rpki_not_found, c, o. split_and!; [set_solver|done|by left].
        -- exists rpki_invalid, b, o. split_and!; [set_solver|done|by right].
      * intros (s & l & o & Hl & Ho' & He). unfold rpki_lists in Hl.
        apply elem_of_cons in Hl as [[= -> ->]|[[= -> ->]|[= -> ->]%list_elem_of_singleton]%elem_of_cons];
          destruct He as [(He & -> & Hv & Hp)|(He & -> & Hv & Hp)]; try done.
        -- left. exists o. auto.
        -- right. exists o. auto.
        -- left. exists o. auto.
Qed.

Lemma scope_step a b c h h' :
  mirror_wf uuid h → h_rpsl_upsert_buffer h = [] → scope_changes_ok (db_objects (h_db h)) a b c →
  update_scopefilter_status cfg a b c h = (h', Ok tt) → follows cfg h h' ∧ mirror_wf uuid h'.
Proof.
  intros Hwf Hb Hok (h0 & [] & ->%permitted_Ok & (h1 & [] & H1 & (h2 & [] & H2 & (h3 & [] & H3 & Hloops)%st_bind_Ok)%st_bind_Ok)%st_bind_Ok)%st_bind_Ok.
  apply update_where_only in H1, H2, H3.
  pose proof (only_objects_trans _ _ _ _ _ (only_objects_trans _ _ _ _ _ H1 H2) H3) as Hup.
  set (evs := (a ≫= λ o, when (row_visible o.2 && negb (scope_visible_previously o)) (add_or_update, o.2)) ++
              ((b ++ c) ≫= λ o, when (negb (row_visible o.2) && scope_visible_previously o) (delete_op, o.2))).
  apply (loops_records _ _ _ _ _ _ (λ o, visibility_records _ _ _ _) (λ o, visibility_records _ _ _ _)) in Hloops;
    [|destruct Hup as [_ He]; rewrite He in Hwf; apply (mwf_flag _ _ Hwf)].
  destruct (only_then_recorded _ _ _ _ _ _ Hup Hloops) as [Ho Hrec].
  eapply (status_step cfg uuid (restate set_scopefilter_status r_rpsl_pk (scope_lists a b c)) evs); try done.
  - by apply restate_restating.
  - eapply (lists_explained set_scopefilter_status r_scopefilter_status r_rpsl_pk)
      with (up := scope_is_visible) (prev := scope_visible_previously); try done.
    + intros s r. unfold row_visible, object_is_visible. simpl. intros ->.
      destruct (rpki_is_visible _); [|done]. by destruct (scope_is_visible _).
    + intros s r. unfold row_visible, object_is_visible. simpl. intros ->. by rewrite andb_false_r.
    + intros e. unfold evs, status_event. rewrite elem_of_app, !list_elem_of_bind.
      setoid_rewrite when_up_elem. setoid_rewrite when_down_elem. setoid_rewrite elem_of_app. split.
      * intros [(o & (Hv & Hp & ->) & Ho')|(o & (Hv & Hp & ->) & [Ho'|Ho'])].
        -- exists in_scope, a, o. split_and!; [set_solver|done|by left].
        -- exists out_scope_as, b, o. split_and!; [set_solver|done|by right].
        -- exists out_scope_prefix, c, o. split_and!; [set_solver|done|by right].
      * intros (s & l & o & Hl & Ho' & He). unfold scope_lists in Hl.
        apply elem_of_cons in Hl as [[= -> ->]|[[= -> ->]|[= -> ->]%list_elem_of_singleton]%elem_of_cons];
          destruct He as [(He & -> & Hv & Hp)|(He & -> & Hv & Hp)]; try done.
        -- left. exists o. auto.
        -- right. exists o. auto.
        -- right. exists o. auto.
Qed.

(** The objects passed: rows of the table whose status does change. *)
Definition pref_changes_ok (rows now_visible now_suppressed : list rpsl_row) : Prop :=
  (∀ r, r ∈ now_visible → r ∈ rows ∧ r_route_preference_status r = rp_suppressed) ∧
  (∀ r, r ∈ now_suppressed → r ∈ rows ∧ r_route_preference_status r = rp_visible).

Lemma chunks_concat {A} fuel size (l : list A) :
  (length l ≤ fuel)%nat → (0 < size)%nat → concat (chunks fuel size l) = l.
Proof using Type.
  intros Hl Hs. revert l Hl. induction fuel as [|fuel IH]; intros [|x l] Hl; simpl in *; try done; [lia|].
  rewrite IH; [apply (take_drop size)|]. destruct size; simpl; [lia|]. rewrite length_drop. lia.
Qed.
Lemma only_objects_ext f g h h' : (∀ r, f r = g r) → only_objects f h h' → only_objects g h h'.
Proof. intros Hfg [Ho He]. split; [|done]. rewrite Ho. by apply list_fmap_ext. Qed.
Lemma chunk_updates s cs h h' a :
  st_iter (λ chunk, update_where r_pk chunk (set_route_preference_status s)) cs h = (h', Ok a) →
  only_objects (λ r, if in_pks r_pk (concat cs) r then set_route_preference_status s r else r) h h'.
Proof.
  revert h. induction cs as [|c cs IH]; intros h; simpl.
  - intros [= <- _]. split; [|apply same_objects]. rewrite (list_fmap_ext _ id); [by rewrite list_fmap_id|done].
  - intros (h1 & [] & H1%update_where_only & H2%IH)%st_bind_Ok.
    eapply only_objects_ext; [|exact (only_objects_trans _ _ _ _ _ H1 H2)].
    intros r. cbv beta. assert (in_pks r_pk (c ++ concat cs) r = in_pks r_pk c r || in_pks r_pk (concat cs) r) as ->.
    { unfold in_pks. rewrite fmap_app. apply eq_true_iff_eq. rewrite orb_true_iff, !bool_decide_eq_true. set_solver. }
    destruct (in_pks r_pk c r) eqn:E; simpl; [|done].
    assert (in_pks r_pk (concat cs) (set_route_preference_status s r) = in_pks r_pk (concat cs) r) as -> by done.
    by destruct (in_pks r_pk (concat cs) r).
Qed.

Definition restate_pref (a b : list rpsl_row) (r : rpsl_row) : rpsl_row :=
  if in_pks r_pk b r then set_route_preference_status rp_suppressed r
  else if in_pks r_pk a r then set_route_preference_status rp_visible r else r.
Lemma pref_explained rows a b :
  NoDup (r_pk <$> rows) → pref_changes_ok rows a b →
  explained (restate_pref a b)
    ((a ≫= λ r, when (otherwise_visible r) (add_or_update, r)) ++ (b ≫= λ r, when (otherwise_visible r) (delete_op, r)))
    rows.
Proof.
  intros Hnd [Ha Hb].
  assert (∀ x y, x ∈ rows → y ∈ rows → r_pk x = r_pk y → x = y) as Hinj.
  { intros x y Hx Hy E. pose proof (row_by_pk_elem _ _ Hnd Hx) as Ex.
    pose proof (row_by_pk_elem _ _ Hnd Hy) as Ey. rewrite E in Ex. congruence. }
  assert (∀ l r, (∀ x, x ∈ l → x ∈ rows) → r ∈ rows → in_pks r_pk l r = true ↔ r ∈ l) as Hin.
  { intros l r Hl Hr. unfold in_pks. rewrite bool_decide_eq_true, list_elem_of_fmap. split; [|eauto].
    intros (x & Ex & Hx). by rewrite (Hinj r x) by auto. }
  assert (∀ x, x ∈ a → x ∈ rows) as Ha' by (intros x Hx; by apply Ha).
  assert (∀ x, x ∈ b → x ∈ rows) as Hb' by (intros x Hx; by apply Hb).
  assert (∀ r, r ∈ a → restate_pref a b r = set_route_preference_status rp_visible r) as Hra.
  { intros r Hr. unfold restate_pref. rewrite (proj2 (Hin a r Ha' (Ha' r Hr)) Hr).
    destruct (in_pks r_pk b r) eqn:E; [|done]. apply Hin in E; [|done|by apply Ha'].
    destruct (Ha r Hr), (Hb r E). congruence. }
  assert (∀ r, r ∈ b → restate_pref a b r = set_route_preference_status rp_suppressed r) as Hrb.
  { intros r Hr. unfold restate_pref. by rewrite (proj2 (Hin b r Hb' (Hb' r Hr)) Hr). }
  split.
  - intros e. rewrite elem_of_app, !list_elem_of_bind. setoid_rewrite when_elem.
    intros [(r & [Hv ->] & Hr)|(r & [Hv ->] & Hr)]; exists r; (split; [by auto|]); (split; [done|]).
    + rewrite Hra by done. unfold event_result, seen. simpl. by change (row_visible _) with (otherwise_visible r); rewrite Hv.
    + rewrite Hrb by done. unfold event_result, seen, row_visible, object_is_visible. simpl. by rewrite !andb_false_r.
  - intros r Hr. destruct (in_pks r_pk b r) eqn:Eb.
    + apply Hin in Eb as Hrb'; [|done|done]. rewrite Hrb by done. destruct (Hb r Hrb') as [_ Hst]. destruct (otherwise_visible r) eqn:Ev.
      * right. exists (delete_op, r). split; [|done]. apply elem_of_app. right. apply list_elem_of_bind.
        exists r. split; [|done]. by apply when_elem.
      * left. unfold seen. assert (row_visible r = otherwise_visible r) as ->.
        { unfold row_visible, otherwise_visible. by rewrite Hst. }
        rewrite Ev. unfold row_visible, object_is_visible. simpl. by rewrite !andb_false_r.
    + destruct (in_pks r_pk a r) eqn:Ea.
      * apply Hin in Ea as Hra'; [|done|done]. rewrite Hra by done. destruct (Ha r Hra') as [_ Hst]. destruct (otherwise_visible r) eqn:Ev.
        -- right. exists (add_or_update, r). split; [|done]. apply elem_of_app. left. apply list_elem_of_bind.
           exists r. split; [|done]. by apply when_elem.
        -- left. unfold seen. change (row_visible (set_route_preference_status rp_visible r)) with (otherwise_visible r).
           rewrite Ev. unfold row_visible, object_is_visible. rewrite Hst. simpl. by rewrite !andb_false_r.
      * left. unfold restate_pref. by rewrite Ea, Eb.
Qed.

Lemma pref_step a b h h' :
  mirror_wf uuid h → h_rpsl_upsert_buffer h = [] → pref_changes_ok (db_objects (h_db h)) a b →
  DatabaseHandler.update_route_preference_status cfg a b h = (h', Ok tt) → follows cfg h h' ∧ mirror_wf uuid h'.
Proof.
  intros Hwf Hb Hok (h0 & [] & ->%permitted_Ok & (h1 & [] & H1 & (h2 & [] & H2 & (h3 & [] & H3 & H4)%st_bind_Ok)%st_bind_Ok)%st_bind_Ok)%st_bind_Ok.
  assert (st_iter (pref_changed cfg add_or_update) a h = (h1, Ok tt)) as H1' by done.
  pose proof (records_iter cfg _ _ a (λ r, visibility_records (otherwise_visible r) add_or_update jo_route_preference r)
    _ _ _ (mwf_flag _ _ Hwf) H1) as R1.
  assert (t_journaling_enabled (h_tracker h1) = true) as Hj1 by (rewrite (rec_flag _ _ _ _ R1); apply Hwf).
  pose proof (records_iter cfg _ _ b (λ r, visibility_records (otherwise_visible r) delete_op jo_route_preference r)
    _ _ _ Hj1 H2) as R2.
  apply chunk_updates in H3, H4. unfold chunked_iterable in H3, H4.
  rewrite chunks_concat in H3, H4 by (done || (unfold ROUTEPREF_STATUS_UPDATE_CHUNK_SIZE; apply Nat.lt_0_succ)).
  pose proof (only_objects_trans _ _ _ _ _ H3 H4) as Hup.
  destruct (recorded_then_only _ _ _ _ _ _ (recorded_trans _ _ _ _ _ _ R1 R2) Hup) as [Ho Hrec].
  eapply (status_step cfg uuid (restate_pref a b)); try done.
  - split; intros r; unfold restate_pref; by repeat case_match.
  - by apply pref_explained; [apply Hwf|].
  - rewrite Ho. apply list_fmap_ext. intros i r _. unfold restate_pref.
    assert (in_pks r_pk b (if in_pks r_pk a r then set_route_preference_status rp_visible r else r)
            = in_pks r_pk b r) as -> by (by destruct (in_pks r_pk a r)).
    by destruct (in_pks r_pk a r), (in_pks r_pk b r).
Qed.
End StatusCalls.

(** ** The mirror follows *)

Section Mirror.
Context `{IPyLib} `{Radix node_data} `{redis : Redis} (cfg : configuration).
Context (collate_lt : string → string → bool) (uuid : nat → string) (timestamp_text : Z → string).
Context `{!Inj eq eq uuid}.

(** How the calls are made: the status updates on rows read from the table with
    nothing pending, and no hidden object in the place of a visible one.  The
    calls that discard data or end the transaction are left out. *)
Definition call_ok (c : call) (h : handler) : Prop :=
  match c with
  | c_upsert o _ _ _ _ => stored_visible o = true ∨ hidden_key (stored_key o) h
  | c_update_rpki a b c => h_rpsl_upsert_buffer h = [] ∧ rpki_changes_ok (db_objects (h_db h)) a b c
  | c_update_scope a b c => h_rpsl_upsert_buffer h = [] ∧ scope_changes_ok (db_objects (h_db h)) a b c
  | c_update_pref a b => h_rpsl_upsert_buffer h = [] ∧ pref_changes_ok (db_objects (h_db h)) a b
  | c_commit | c_delete_all _ _ | c_expire_journal _ _ => False
  | _ => True
  end.
Inductive calls : list call → handler → handler → Prop :=
| calls_nil h : calls [] h h
| calls_cons c cs h h1 h' :
    call_ok c h → run_call cfg collate_lt uuid timestamp_text c h = (h1, Ok tt) →
    calls cs h1 h' → calls (c :: cs) h h'.

Lemma tracker_step (f : status_tracker → status_tracker) h h' :
  (∀ t, t_journaling_enabled (f t) = t_journaling_enabled t) → mirror_wf uuid h →
  (_ ← _check_write_permitted; modify (with_tracker f)) h = (h', Ok tt) → follows cfg h h' ∧ mirror_wf uuid h'.
Proof.
  intros Hf Hwf. apply (records_nil_step cfg uuid); [|done].
  apply (records_bind cfg [] []); [apply check_permitted_records|]. intros _. apply records_modify. simpl. auto.
Qed.
Lemma call_step c h h' :
  mirror_wf uuid h → call_ok c h → run_call cfg collate_lt uuid timestamp_text c h = (h', Ok tt) →
  follows cfg h h' ∧ mirror_wf uuid h'.
Proof using Type*.
  intros Hwf. destruct c; simpl; intros Hok Hrun; try done; try (by eapply tracker_step; [..|exact Hrun]).
  - by eapply upsert_step.
  - eapply records_nil_step; [|done|exact Hrun]. apply (records_bind cfg [] []); [apply check_permitted_records|].
    intros _. by apply records_modify.
  - destruct Hok as [Hb Hok]. destruct (rpki_step _ _ _ _ _ _ _ Hwf Hb Hok Hrun) as (? & ? & _). done.
  - destruct Hok. by eapply scope_step.
  - destruct Hok. by eapply pref_step.
  - by eapply delete_step.
  - by eapply suspend_step.
  - apply st_bind_Ok in Hrun as (h0 & [] & ->%permitted_Ok & (h1 & [] & Hflush & Hrest)%st_bind_Ok).
    destruct (flush_step _ _ _ _ Hwf Hflush) as (Hf & Hw & _).
    assert (follows cfg h1 h' ∧ mirror_wf uuid h') as [? ?]; [|split; [by etrans|done]].
    eapply records_nil_step; [|done|exact Hrest]. by apply records_modify.
  - eapply records_nil_step; [|done|exact Hrun]. apply (records_bind cfg [] []); [apply check_permitted_records|].
    intros _. apply (records_bind cfg [] []); [by apply records_modify|]. intros _. by apply records_modify.
  - eapply records_nil_step; [|done|exact Hrun]. apply (records_bind cfg [] []); [apply check_permitted_records|].
    intros _. by apply records_modify.
Qed.

(** C37. A mirror that applies the journal entries a transaction adds turns the visible
    objects of each journaled source from before into the visible objects after: every
    change of visibility and content is journaled, and nothing else is.  This is for a
    journaling transaction of calls other than commits, expiries of a journal and deletions
    of a whole source, in which no visible object is replaced by a hidden one, and status
    updates are made with nothing pending, name rows whose status changes and reach no
    row besides ([call_ok]; the examples at the end show that these conditions matter). *)
Theorem mirror_follows cs h h' :
  mirror_wf uuid h → calls cs h h' →
  ∃ l, db_journal (h_db h') = db_journal (h_db h) ++ l ∧
    ∀ src, keeps_journal cfg src = true →
      view src (h_db h') = replay (List.filter (λ j, String.eqb (j_source j) src) l) (view src (h_db h)).
Proof using Type*.
  intros Hwf Hcalls. change (follows cfg h h').
  induction Hcalls as [h|c cs h h1 h' Hok Hrun Hcalls IH]; [reflexivity|].
  destruct (call_step _ _ _ Hwf Hok Hrun) as [Hf Hw]. etrans; [done|by apply IH].
Qed.
End Mirror.

(** ** A validation run *)

Lemma pk_inj (rows : list rpsl_row) :
  NoDup (r_pk <$> rows) → ∀ x y, x ∈ rows → y ∈ rows → r_pk x = r_pk y → x = y.
Proof. intros Hnd x y. by apply NoDup_fmap_inj. Qed.

Section RpkiRun.
Context `{IPyLib} `{Datrie (list roa_tuple)} (cfg : configuration) (uuid : nat → string) `{!Inj eq eq uuid}.

Lemma validated_lists b rows sources lv li ln s l o :
  NoDup (r_pk <$> rows) → validate_all_routes b rows sources = Ok (lv, li, ln) →
  (s, l) ∈ rpki_lists lv li ln →
  o ∈ l ↔ ∃ r, r ∈ rows ∧ is_route_row sources r = true ∧ r_source r ≠ RPKI_IRR_PSEUDO_SOURCE ∧
    row_status b r = Some s ∧ s ≠ r_rpki_status r ∧ o = (r_rpki_status r, set_rpki_status s r).
Proof.
  intros Hnd Hv Hl. rewrite <- (validate_all_routes_elem _ _ _ _ _ _ Hnd Hv s o). unfold rpki_lists in Hl.
  apply elem_of_cons in Hl as [[= -> ->]|[[= -> ->]|[= -> ->]%list_elem_of_singleton]%elem_of_cons]; done.
Qed.
Lemma validated_changes_ok b rows sources lv li ln :
  NoDup (r_pk <$> rows) → validate_all_routes b rows sources = Ok (lv, li, ln) →
  rpki_changes_ok rows lv li ln.
Proof.
  intros Hnd Hv. pose proof (pk_inj rows Hnd) as Hinj.
  assert (∀ s l o, (s, l) ∈ rpki_lists lv li ln → o ∈ l ↔ _) as Hlist
    by (intros s l o; exact (validated_lists b rows sources lv li ln s l o Hnd Hv)).
  split.
  - intros s l o Hl Ho. apply (Hlist s l) in Ho as (r & Hr & _ & _ & _ & _ & ->); eauto.
  - intros s l s' l' o o' Hl Hl' Ho Ho' Hk. apply (Hlist s l) in Ho as (r & Hr & _ & _ & Hs & _ & ->); [|done].
    apply (Hlist s' l') in Ho' as (r' & Hr' & _ & _ & Hs' & _ & ->); [|done].
    assert (r = r') as -> by (by apply Hinj). congruence.
  - intros s l r Hl Hr Hk. rewrite <- list_fmap_compose in Hk. apply list_elem_of_fmap in Hk as (o & Ek & Ho).
    pose proof Ho as Ho'. apply (Hlist s l) in Ho as (r' & Hr' & _ & _ & _ & _ & ->); [|done].
    assert (r = r') as -> by (by apply Hinj). done.
Qed.

(** The status of a selected route after the update. *)
Lemma validated_restate b rows sources lv li ln r s :
  NoDup (r_pk <$> rows) → validate_all_routes b rows sources = Ok (lv, li, ln) → r ∈ rows →
  is_route_row sources r = true → r_source r ≠ RPKI_IRR_PSEUDO_SOURCE → row_status b r = Some s →
  r_rpki_status (restate set_rpki_status r_pk (rpki_lists lv li ln) r) = s.
Proof.
  intros Hnd Hv Hr Hroute Hsrc Hst. pose proof (validated_changes_ok _ _ _ _ _ _ Hnd Hv) as Hok.
  destruct (decide (s = r_rpki_status r)) as [Heq|Hne].
  - enough (restate set_rpki_status r_pk (rpki_lists lv li ln) r = r) as -> by done.
    apply restate_not_in; try done. intros s1 l Hl Hk.
    pose proof (co_reach _ _ _ _ _ Hok s1 l r Hl Hr Hk) as Hin.
    rewrite (validated_lists _ _ _ _ _ _ _ _ _ Hnd Hv Hl) in Hin.
    destruct Hin as (r0 & Hr0 & _ & _ & Hs0 & Hn0 & E0).
    assert (r = r0) as -> by (apply (pk_inj rows Hnd); [done..|]; by injection E0). congruence.
  - assert (∃ l, (s, l) ∈ rpki_lists lv li ln) as [l Hl] by (destruct s; unfold rpki_lists; set_solver).
    erewrite restate_listed with (s := s); try done. apply (validated_lists _ _ _ _ _ _ _ _ _ Hnd Hv Hl). eauto 10.
Qed.

(** C39. A run of the ROA validator over the table, followed by the status
    update of its result: afterwards every selected route has the status the
    validator gives it, and the mirrors of all sources follow. *)
Theorem rpki_run_settles b sources lv li ln h h' :
  mirror_wf uuid h → h_rpsl_upsert_buffer h = [] →
  validate_all_routes b (db_objects (h_db h)) sources = Ok (lv, li, ln) →
  update_rpki_status cfg lv li ln h = (h', Ok tt) →
  follows cfg h h' ∧
  ∀ r s, r ∈ db_objects (h_db h') → is_route_row sources r = true → r_source r ≠ RPKI_IRR_PSEUDO_SOURCE →
    row_status b r = Some s → r_rpki_status r = s.
Proof using Type*.
  intros Hwf Hb Hv Hup. pose proof (wf_pks _ _ (mwf_rows _ _ Hwf)) as Hnd.
  pose proof (validated_changes_ok _ _ _ _ _ _ Hnd Hv) as Hok.
  destruct (rpki_step _ _ _ _ _ _ _ Hwf Hb Hok Hup) as (Hf & _ & Ho). split; [done|].
  intros r' s. rewrite Ho. intros (r & -> & Hr)%list_elem_of_fmap Hroute Hsrc Hst.
  apply (validated_restate b (db_objects (h_db h)) sources); try done;
    destruct (restate_cases set_rpki_status r_pk (ltac:(done)) (rpki_lists lv li ln) r) as [E|[s' E]];
    by rewrite E in *.
Qed.
End RpkiRun.

(** ** At concrete inputs *)

Module JournalExamples.
Import ConcreteIP ConcreteRadix ConcreteRedis ConcreteTrie.

Definition ex_uuid (n : nat) : string := repeat_char n "u"%char.
#[export] Instance ex_uuid_inj : Inj eq eq ex_uuid.
Proof.
  intros m n E. apply (f_equal String.length) in E. unfold ex_uuid in E.
  assert (∀ k, String.length (repeat_char k "u"%char) = k) as Hl.
  { intros k. induction k as [|k IH]; simpl; [done|]. by rewrite IH. }
  by rewrite !Hl in E.
Qed.
Definition by_text (a b : string) : bool := bool_decide (a <> b).

(** Two sources with a journal and no upstream. *)
Definition ex_cfg : configuration :=
  conf_of (VDict [("sources", VDict [("A", VDict [("keep_journal", VBool true)]);
                                     ("B", VDict [("keep_journal", VBool true)])])]).
Definition ex_row (pk rpsl_pk source : string) (rpki : RPKIStatus) (scope : ScopeFilterStatus) : rpsl_row := {|
  r_pk := pk; r_rpsl_pk := rpsl_pk; r_source := source; r_object_class := "route";
  r_parsed_data := {[ "mnt-by" := PList ["M-MNT"] ]}; r_object_text := "route " +:+ source;
  r_ip_version := Some 4%Z; r_ip_first := Some "192.0.2.0"; r_ip_last := Some "192.0.2.255";
  r_ip_size := Some 256%Z; r_prefix := Some "192.0.2.0/24"; r_prefix_length := Some 24%Z;
  r_asn_first := Some 65537%Z; r_asn_last := Some 65537%Z; r_rpki_status := rpki;
  r_scopefilter_status := scope; r_route_preference_status := rp_visible;
  r_created := 0; r_updated := 0 |}.
Definition ex_db (rows : list rpsl_row) : database := {|
  db_objects := rows; db_suspended := []; db_journal := []; db_status := []; db_roas := [];
  db_protected := []; db_next_uuid := 10; db_next_global := 1 |}.
Definition ex_handler (readonly : bool) (rows : list rpsl_row) : handler :=
  DatabaseHandler_init ex_cfg readonly (ex_db rows) 100.
Definition ex_person (rpki : RPKIStatus) : stored_object := {|
  so_object := {|
    o_class := RPSLPerson; o_messages := []; o_object_data := [("person", "J Doe", ""); ("nic-hdl", "JD-A", "")];
    o_strict_validation := false; o_default_source := None;
    o_parsed_data := {[ "nic-hdl" := PStr "JD-A"; "source" := PStr "A" ]}; o_metadata := metadata_none;
    o_pk_asn_segment := None |};
  so_rpki_status := rpki; so_scopefilter_status := in_scope; so_route_preference_status := rp_visible |}.
Definition run (c : call) (h : handler) : handler * res unit := run_call ex_cfg by_text ex_uuid str_of_Z c h.

Definition row_a : rpsl_row := ex_row "uuu" "192.0.2.0/24AS65537" "A" rpki_valid in_scope.
Definition row_b : rpsl_row := ex_row "uu" "192.0.2.0/24AS65537" "B" rpki_valid in_scope.

Lemma readonly_refuses_witness :
  (run c_delete_roas (ex_handler true [row_a])).2
  = Raise (GenericException "Attempted to write to SQL database from readonly database handler").
Proof.
  unfold run. rewrite (readonly_refuses ex_cfg by_text ex_uuid str_of_Z c_delete_roas (ex_handler true [row_a]) eq_refl).
  reflexivity.
Defined.

(** An upsert, a deletion that flushes it, and a suspension. *)
Definition ex_calls : list call :=
  [c_upsert (ex_person rpki_not_found) jo_auth_change false None None;
   c_delete jo_auth_change "192.0.2.0/24AS65537" "A" "route" None false; c_suspend "uu"].
Definition h0 : handler := ex_handler false [row_a; row_b].
Definition h1 : handler := (run (c_upsert (ex_person rpki_not_found) jo_auth_change false None None) h0).1.
Definition h2 : handler := (run (c_delete jo_auth_change "192.0.2.0/24AS65537" "A" "route" None false) h1).1.
Definition h3 : handler := (run (c_suspend "uu") h2).1.

Lemma run_ok c h : (run c h).2 = Ok tt → run c h = ((run c h).1, Ok tt).
Proof. destruct (run c h) as [h' r]. simpl. by intros ->. Qed.
Lemma h1_ok : run (c_upsert (ex_person rpki_not_found) jo_auth_change false None None) h0 = (h1, Ok tt).
Proof. apply run_ok. vm_compute. reflexivity. Qed.
Lemma h2_ok : run (c_delete jo_auth_change "192.0.2.0/24AS65537" "A" "route" None false) h1 = (h2, Ok tt).
Proof. apply run_ok. vm_compute. reflexivity. Qed.
Lemma h3_ok : run (c_suspend "uu") h2 = (h3, Ok tt).
Proof. apply run_ok. vm_compute. reflexivity. Qed.
Lemma run_all : st_iter run ex_calls h0 = (h3, Ok tt).
Proof.
  unfold ex_calls. cbn [st_iter]. unfold mbind, st_bind. by rewrite h1_ok, h2_ok, h3_ok.
Qed.

Lemma ex_serials_ok : serials_ok "A" h0.
Proof. split; done. Qed.
Lemma journal_gapless_witness :
  ∃ k, journal_serials "A" (h_db h3) = consecutive 1 k ∧ next_serial "A" h3 = (1 + Z.of_nat k)%Z.
Proof.
  apply (journal_gapless ex_cfg "A" (λ _, eq_refl) by_text ex_uuid str_of_Z ex_calls h0 h3 ex_serials_ok).
  - repeat constructor.
  - exact run_all.
Defined.

Lemma ex_wf : mirror_wf ex_uuid h0.
Proof.
  split; [split|done|intros u []%elem_of_nil].
  - apply (bool_decide_unpack _). vm_compute. exact I.
  - apply (bool_decide_unpack _). vm_compute. exact I.
  - intros n Hn. simpl in Hn. change "uuu" with (ex_uuid 3) in Hn. change "uu" with (ex_uuid 2) in Hn.
    apply elem_of_cons in Hn as [->%(inj ex_uuid)|[->%(inj ex_uuid)|[]%elem_of_nil]%elem_of_cons]; simpl; lia.
Qed.
Lemma ex_calls_made : calls ex_cfg by_text ex_uuid str_of_Z ex_calls h0 h3.
Proof.
  apply (calls_cons _ _ _ _ _ _ _ h1); [by left|exact h1_ok|].
  apply (calls_cons _ _ _ _ _ _ _ h2); [done|exact h2_ok|].
  apply (calls_cons _ _ _ _ _ _ _ h3); [done|exact h3_ok|]. apply calls_nil.
Qed.
Lemma mirror_follows_witness :
  ∃ l, db_journal (h_db h3) = l ∧
       view "A" (h_db h3) = replay (List.filter (λ j, String.eqb (j_source j) "A") l) (view "A" (h_db h0)).
Proof.
  destruct (mirror_follows ex_cfg by_text ex_uuid str_of_Z ex_calls h0 h3 ex_wf ex_calls_made) as (l & Hl & Hv).
  exists l. split; [exact Hl|]. apply Hv. reflexivity.
Defined.

(** *** A validation run *)

Definition rpki_h : handler := ex_handler false RpkiExamples.ex_table.
Definition now_valid : list changed_obj :=
  [(rpki_not_found, set_rpki_status rpki_valid (RpkiExamples.ex_route "1" "192.0.2.0" 24 64496 rpki_not_found))].
Definition rpki_h' : handler := (run (c_update_rpki now_valid [] []) rpki_h).1.
Lemma rpki_wf : mirror_wf ex_uuid rpki_h.
Proof.
  split; [split|done|intros u []%elem_of_nil].
  - apply (bool_decide_unpack _). vm_compute. exact I.
  - apply (bool_decide_unpack _). vm_compute. exact I.
  - intros n Hn. simpl in Hn. apply elem_of_cons in Hn as [Hn|[Hn|[]%elem_of_nil]%elem_of_cons];
      destruct n; discriminate.
Qed.
Lemma rpki_run_settles_witness :
  follows ex_cfg rpki_h rpki_h' ∧
  r_rpki_status (set_rpki_status rpki_valid (RpkiExamples.ex_route "1" "192.0.2.0" 24 64496 rpki_not_found)) = rpki_valid.
Proof.
  destruct (rpki_run_settles ex_cfg ex_uuid RpkiExamples.ex_bulk None now_valid [] [] rpki_h rpki_h' rpki_wf eq_refl)
    as [Hf Hs].
  - by vm_compute.
  - refine (run_ok (c_update_rpki now_valid [] []) rpki_h _). by vm_compute.
  - split; [exact Hf|]. apply Hs; [|done|done|by vm_compute].
    assert (db_objects (h_db rpki_h') = [set_rpki_status rpki_valid (RpkiExamples.ex_route "1" "192.0.2.0" 24 64496 rpki_not_found);
      RpkiExamples.ex_route "2" "192.0.2.0" 24 64497 rpki_invalid]) as -> by (by vm_compute).
    by left.
Defined.

(** *** Where the conditions of [mirror_follows] matter *)

(** The scope filter update selects rows by RPSL primary key: an object of
    another source with the same key is hidden too, and not journaled. *)
Definition scope_call : call :=
  c_update_scope [] [] [(in_scope, set_scopefilter_status out_scope_prefix row_a)].
Example scope_update_reaches_other_source :
  r_scopefilter_status <$> db_objects (h_db (run scope_call h0).1) = [out_scope_prefix; out_scope_prefix] ∧
  j_source <$> db_journal (h_db (run scope_call h0).1) = ["A"].
Proof. by vm_compute. Qed.

(** Replacing a visible object by one that is RPKI invalid adds no entry: its
    mirrors keep the old object. *)
Definition replaced : handler :=
  let upsert s := c_upsert (ex_person s) jo_mirror false None None in
  let h := (run (c_delete_suspended []) (run (upsert rpki_not_found) h0).1).1 in
  (run (c_delete_suspended []) (run (upsert rpki_invalid) h).1).1.
Example hidden_replacement_not_journaled :
  row_visible <$> db_objects (h_db replaced) = [true; true; false] ∧
  j_operation <$> db_journal (h_db replaced) = [add_or_update] ∧
  bool_decide (view "A" (h_db replaced) = view "A" (h_db h0)) = true.
Proof. by vm_compute. Qed.

(** Journal entries made by the route preference just before the commit come
    after the status was brought up to date: the serial in the status of the
    source lags behind its journal. *)
Definition pref_cfg : configuration :=
  conf_of (VDict [("sources", VDict [
    ("HIGH", VDict [("keep_journal", VBool true); ("route_object_preference", VInt 200)]);
    ("LOW", VDict [("keep_journal", VBool true); ("route_object_preference", VInt 100)])])]).
Definition pref_row (pk source : string) (pref : RoutePreferenceStatus) : rpsl_row :=
  set_route_preference_status pref (ex_row pk "192.0.2.0/24AS65537" source rpki_not_found in_scope).
Definition pref_db : database :=
  sql_upsert_status "LOW" false 0 (sql_upsert_status "HIGH" false 0
    (ex_db [pref_row "u" "HIGH" rp_visible; pref_row "uu" "LOW" rp_suppressed])).
Definition pref_run (c : call) (h : handler) : handler := (run_call pref_cfg by_text ex_uuid str_of_Z c h).1.
Definition committed : handler :=
  pref_run c_commit
    (pref_run (c_delete jo_auth_change "192.0.2.0/24AS65537" "HIGH" "route" None false)
      (DatabaseHandler_init pref_cfg false pref_db 100)).
Example commit_status_lags :
  row_visible <$> db_objects (h_committed committed) = [true] ∧
  journal_serials "LOW" (h_committed committed) = [1%Z] ∧
  (λ s, serial_newest_journal (s_serials s)) <$> status_of "LOW" (h_committed committed) = Some None ∧
  (λ s, serial_newest_journal (s_serials s)) <$> status_of "HIGH" (h_committed committed) = Some (Some 1%Z).
Proof. by vm_compute. Qed.
End JournalExamples.
