(* ===== verification/StoreTheory.v ===== *)
(** * The database handler as a store of objects

    What clients of the handler rely on, whatever waits in its buffers: a map from
    keys to object texts, changed by each call as by the operation on the map. *)
From S2P Require Import Prelude PyStr Conf Net Models Rpki RpslObjects RpslParser Queries RoutePref RoutePrefTheory Database DatabaseHandler StorageTheory JournalTheory.

(** ** The abstraction *)

Notation store := (gmap (string * string * string) string).
Definition row_text (r : rpsl_row) : (string * string * string) * string := (row_key r, r_object_text r).
Definition rows_store (l : list rpsl_row) : store := list_to_map (row_text <$> l).

Lemma rows_store_lookup l k : rows_store l !! k = r_object_text <$> find_row k l.
Proof.
  unfold rows_store. induction l as [|r l IH]; [done|]. 
  change (list_to_map (row_text <$> r :: l)) with (<[row_key r := r_object_text r]> (list_to_map (row_text <$> l) : store)).
  assert (find_row k (r :: l) = if has_key k r then Some r else find_row k l) as -> by done.
  destruct (decide (row_key r = k)) as [<-|Hne].
  - rewrite lookup_insert_eq. by rewrite (proj2 (has_key_iff _ _)).
  - rewrite lookup_insert_ne by done. destruct (has_key k r) eqn:E; [by apply has_key_iff in E|]. exact IH.
Qed.

Section Store.
Context `{IPyLib}.

(** Rows waiting to be written hide the rows they replace. *)
Definition stored (h : handler) : store :=
  rows_store (u_row <$> h_rpsl_upsert_buffer h) ∪ rows_store (db_objects (h_db h)).
Record store_ok (h : handler) : Prop := {
  so_keys : NoDup (row_key <$> db_objects (h_db h));
  so_seen : ∀ u, u ∈ h_rpsl_upsert_buffer h → pk_source (u_row u) ∈ h_rpsl_pk_source_seen h;
}.

(** The method does not change the store. *)
Definition kept (h h' : handler) : Prop :=
  store_ok h → stored h' = stored h ∧ store_ok h' ∧ h_now h' = h_now h.
#[export] Instance kept_preorder : PreOrder kept.
Proof.
  split; [by intros h ?|]. intros h1 h2 h3 H12 H23 Hok.
  destruct (H12 Hok) as (E1 & Hok2 & N1). destruct (H23 Hok2) as (E2 & Hok3 & N2). split_and!; congruence || done.
Qed.

(** It does not even touch keys, texts and buffers. *)
Record same_store (h h' : handler) : Prop := {
  ss_rows : row_text <$> db_objects (h_db h') = row_text <$> db_objects (h_db h);
  ss_buffer : h_rpsl_upsert_buffer h' = h_rpsl_upsert_buffer h;
  ss_seen : h_rpsl_pk_source_seen h' = h_rpsl_pk_source_seen h;
  ss_now : h_now h' = h_now h;
}.
#[export] Instance same_store_preorder : PreOrder same_store.
Proof. split; [done|]. intros h1 h2 h3 [] []. split; congruence. Qed.

Lemma row_text_keys (l l' : list rpsl_row) : row_text <$> l' = row_text <$> l → row_key <$> l' = row_key <$> l.
Proof.
  intros E. apply (f_equal (fmap fst)) in E. rewrite <- !list_fmap_compose in E. exact E.
Qed.
Lemma same_kept h h' : same_store h h' → kept h h'.
Proof.
  intros [Hr Hb Hs Hn] [Hk Hse]. unfold stored, rows_store. rewrite Hb, Hr. split_and!; [done| |done].
  split; [by rewrite (row_text_keys _ _ Hr)|]. by rewrite Hb, Hs.
Qed.

Lemma with_db_same_store f h :
  row_text <$> db_objects (f (h_db h)) = row_text <$> db_objects (h_db h) → same_store h (with_db f h).
Proof. by split. Qed.
Lemma modify_db_same f :
  (∀ d, row_text <$> db_objects (f d) = row_text <$> db_objects d) → keeps same_store (modify (with_db f)).
Proof. intros Hf. apply (keeps_modify _). intros h. by apply with_db_same_store. Qed.
Lemma modify_tracker_same f : keeps same_store (modify (with_tracker f)).
Proof. apply (keeps_modify _). by intros h. Qed.
Lemma modify_changed_same f : keeps same_store (modify (with_changed f)).
Proof. apply (keeps_modify _). by intros h. Qed.
Lemma write_permitted_same : keeps same_store _check_write_permitted.
Proof. intros h h' []. unfold _check_write_permitted. destruct (h_readonly h); [done|]. by intros [= <-]. Qed.
Hint Resolve modify_tracker_same modify_changed_same write_permitted_same : keeps.

Section Methods.
Context `{Radix node_data} `{redis : Redis} (cfg : configuration) (collate_lt : string → string → bool).
Context (uuid : nat → string) (timestamp_text : Z → string).

Lemma record_operation_same op rpk source class text origin serial :
  keeps same_store (record_operation cfg op rpk source class text origin serial).
Proof.
  unfold record_operation, _is_serial_synchronised, insert_journal. keeps_tac.
  - intros h h' b. by intros [= <- _].
  - intros h h' b. destruct (sql_insert_journal _ _ _ _ _ _ _ _ _) as [[d n]|] eqn:E; [|done].
    intros [= <- _]. unfold sql_insert_journal in E. destruct (new_serial _ _ _ _); [|done].
    case_bool_decide; [done|]. injection E as <- _. done.
Qed.
Hint Resolve record_operation_same : keeps.
Lemma object_modified_same a b c d : keeps same_store (object_modified a b c d).
Proof. apply (keeps_modify _). by intros h. Qed.
Lemma object_modified_dict_same r o : keeps same_store (object_modified_dict r o).
Proof. apply object_modified_same. Qed.
Hint Resolve object_modified_same object_modified_dict_same : keeps.
Lemma all_classes_same : keeps same_store all_object_classes_updated.
Proof. apply modify_changed_same. Qed.
Hint Resolve all_classes_same : keeps.
Lemma visibility_changed_same op o r : keeps same_store (visibility_changed cfg op o r).
Proof. unfold visibility_changed, record_operation_from_rpsl_dict. keeps_tac. Qed.
Hint Resolve visibility_changed_same : keeps.
Lemma update_where_same {A} `{EqDecision A} (key : rpsl_row → A) objs f :
  (∀ r, row_text (f r) = row_text r) → keeps same_store (update_where key objs f).
Proof.
  intros Hf. unfold update_where. keeps_tac. apply modify_db_same. intros d. simpl.
  rewrite <- list_fmap_compose. apply list_fmap_ext. intros i r' _. simpl. destruct (in_pks _ _ _); [apply Hf|done].
Qed.

(** *** Flushing *)

Lemma journal_entries_same buffer : keeps same_store (st_iter (journal_entry cfg) buffer).
Proof. unfold journal_entry. keeps_tac. Qed.

Lemma flush_empties h h' :
  store_ok h → _flush_rpsl_object_writing_buffer cfg uuid h = (h', Ok tt) →
  stored h' = stored h ∧ store_ok h' ∧ h_now h' = h_now h ∧ h_rpsl_upsert_buffer h' = [].
Proof.
  intros Hok. unfold _flush_rpsl_object_writing_buffer. unfold mbind at 1, st_bind at 1, st_get.
  destruct (h_rpsl_upsert_buffer h) as [|u us] eqn:Eb.
  - by intros [= <-].
  - set (buffer := u :: us) in *. intros (h0 & [] & ->%permitted_Ok & (h1 & [] & Hx & (h2 & [] & Hi & [= <-])%st_bind_Ok)%st_bind_Ok)%st_bind_Ok.
    unfold execute_flush in Hx. destruct (flush_statement _ _ _ _) as [d|] eqn:Ef; [|done]. injection Hx as <-.
    apply (flush_statement_rows uuid) in Ef as [-> Hnd].
    apply journal_entries_same in Hi as [Hr _ _ Hn]. simpl in *.
    assert (∀ rows d0, NoDup (row_key <$> db_objects d0) →
      NoDup (row_key <$> db_objects (foldl (upsert_row uuid) d0 rows))) as Hwf.
    { clear. intros rows. induction rows as [|r rows IH]; intros d0 Hd; [done|]. simpl. apply IH.
      unfold upsert_row. destruct (existsb _ _) eqn:E; simpl; [by rewrite replace_rows_key|].
      rewrite fmap_app. apply NoDup_app. split_and!; [done| |apply NoDup_singleton].
      intros k Hin. simpl. rewrite list_elem_of_singleton. intros ->.
      apply existsb_key in Hin. change (row_key (set_pk _ r)) with (row_key r) in Hin. congruence. }
    split_and!; [|split; simpl|done|done].
    + assert (rows_store (db_objects (h_db h2))
        = rows_store (db_objects (foldl (upsert_row uuid) (h_db h) (u_row <$> buffer)))) as Er
        by (unfold rows_store; by rewrite Hr).
      unfold stored. simpl h_rpsl_upsert_buffer. simpl h_db. rewrite Er, Eb. apply map_eq. intros k.
      assert (rows_store (u_row <$> []) = ∅) as -> by done.
      rewrite (left_id_L ∅ (∪)), lookup_union, !rows_store_lookup.
      pose proof (foldl_upsert_find uuid (λ r, Some (r_object_text r)) (u_row <$> buffer) (h_db h) k
        ltac:(done) Hnd) as Hf.
      assert (∀ o : option rpsl_row, o ≫= (λ r, Some (r_object_text r)) = r_object_text <$> o) as Eo by by intros [].
      rewrite !Eo in Hf. rewrite Hf.
      by destruct (find_row k (u_row <$> buffer)), (find_row k (db_objects (h_db h))).
    + rewrite (row_text_keys _ _ Hr). exact (Hwf (u_row <$> buffer) _ (so_keys _ Hok)).
    + intros v Hv. by apply elem_of_nil in Hv.
Qed.
Lemma flush_kept : keeps kept (_flush_rpsl_object_writing_buffer cfg uuid).
Proof. intros h h' [] Hrun Hok. destruct (flush_empties _ _ Hok Hrun) as (? & ? & ? & _). done. Qed.
Lemma keeps_same_kept {A} (m : M A) : keeps same_store m → keeps kept m.
Proof. intros Hm h h' a Hrun. by eapply same_kept, Hm. Qed.

(** *** Writing and deleting *)

Lemma pk_source_key r r' : row_key r = row_key r' → pk_source r = pk_source r'.
Proof. unfold row_key, pk_source. by intros [= -> -> _]. Qed.

Lemma append_row_store u prefix h h' :
  store_ok h → (∀ v, v ∈ h_rpsl_upsert_buffer h → row_key (u_row v) ≠ row_key (u_row u)) →
  append_row cfg uuid u prefix h = (h', Ok tt) →
  stored h' = <[row_key (u_row u) := r_object_text (u_row u)]> (stored h) ∧ store_ok h' ∧ h_now h' = h_now h.
Proof.
  intros [Hk Hs] Hne (h1 & [] & [= <-] & (h2 & [] & [= <-] & Hrest)%st_bind_Ok)%st_bind_Ok.
  set (h1 := with_changed _ _) in Hrest.
  assert (stored h1 = <[row_key (u_row u) := r_object_text (u_row u)]> (stored h)) as E1.
  { unfold stored. simpl. apply map_eq. intros k. rewrite lookup_union, !rows_store_lookup.
    rewrite fmap_app. change (u_row <$> [u]) with [u_row u]. rewrite find_row_app.
    - destruct (decide (k = row_key (u_row u))) as [->|Hn]; [rewrite lookup_insert_eq; by destruct (find_row _ (db_objects (h_db h)))|].
      by rewrite lookup_insert_ne, lookup_union, !rows_store_lookup by done.
    - apply existsb_false. intros r (v & -> & Hv)%list_elem_of_fmap. destruct (has_key _ _) eqn:E; [|done].
      apply has_key_iff in E. by apply Hne in Hv. }
  assert (store_ok h1) as Hok1.
  { split; [done|]. simpl. intros v [Hv| ->%list_elem_of_singleton]%elem_of_app; apply oset_add_elem; [|by right].
    left. by apply Hs. }
  rewrite <- E1. unfold mbind, st_bind, st_get in Hrest. destruct (_ <? _)%Z.
  - destruct (flush_empties _ _ Hok1 Hrest) as (-> & ? & -> & _). done.
  - injection Hrest as <-. done.
Qed.

Lemma flush_if_seen_store r h h' :
  store_ok h → flush_if_seen cfg uuid (pk_source r) h = (h', Ok tt) →
  stored h' = stored h ∧ store_ok h' ∧ h_now h' = h_now h
  ∧ ∀ v, v ∈ h_rpsl_upsert_buffer h' → row_key (u_row v) ≠ row_key r.
Proof.
  intros Hok. unfold flush_if_seen. unfold mbind, st_bind, st_get. case_bool_decide as Hin; intros Hrun.
  - destruct (flush_empties _ _ Hok Hrun) as (? & ? & ? & Hb). split_and!; [done..|]. rewrite Hb.
    intros v Hv. by apply elem_of_nil in Hv.
  - injection Hrun as <-. split_and!; [done..|]. intros v Hv E%pk_source_key. apply Hin. rewrite <- E.
    by apply (so_seen _ Hok).
Qed.

Lemma upsert_rendered_store src rpsl_pk render row prefix origin guaranteed serial h h' :
  store_ok h → (∀ src text now, pk_source (row src text now) = rpsl_pk +:+ "-" +:+ src) →
  upsert_rendered cfg uuid src rpsl_pk render row prefix origin guaranteed serial h = (h', Ok tt) →
  ∃ s text, src = Ok s ∧ render (h_now h) = Ok text
    ∧ (let r := row s text (h_now h) in stored h' = <[row_key r := r_object_text r]> (stored h))
    ∧ store_ok h' ∧ h_now h' = h_now h.
Proof.
  intros Hok Hrow (h0 & [] & ->%permitted_Ok & (h1 & [] & [= <-] & (h2 & s & [-> Hsrc]%st_lift_Ok &
    (h3 & [] & Hflush & (h4 & hh & [= <- <-] & (h5 & text & [-> Htext]%st_lift_Ok & Happ)%st_bind_Ok)%st_bind_Ok)%st_bind_Ok)%st_bind_Ok)%st_bind_Ok)%st_bind_Ok.
  match type of Hflush with flush_if_seen _ _ _ ?h = _ => set (h1 := h) in Hflush end.
  assert (store_ok h1) as Hok1 by (by destruct Hok).
  match type of Happ with append_row _ _ ?u _ _ = _ => set (u' := u) in Happ end.
  rewrite <- (Hrow s text (h_now h3)) in Hflush.
  destruct (flush_if_seen_store (u_row u') _ _ Hok1 Hflush) as (E3 & Hok3 & N3 & Hne).
  destruct (append_row_store _ _ _ _ Hok3 Hne Happ) as (E' & Hok' & N').
  exists s, text. rewrite N3 in Htext. split; [done|]. split; [exact Htext|].
  split; [|split; [done|by rewrite N', N3]]. rewrite E', E3. simpl. by rewrite N3.
Qed.
Lemma upsert_store o origin guaranteed serial created h h' :
  store_ok h → upsert_rpsl_object cfg uuid timestamp_text o origin guaranteed serial created h = (h', Ok tt) →
  ∃ text, render_rpsl_text cfg (so_object o) (Some (timestamp_text (h_now h))) = Ok text
    ∧ stored h' = <[stored_key o := text]> (stored h) ∧ store_ok h' ∧ h_now h' = h_now h.
Proof.
  intros Hok Hrun. unfold upsert_rpsl_object in Hrun.
  apply upsert_rendered_store in Hrun as (src & text & Hsrc & Ht & E & ? & ?); [|done|done].
  exists text. split; [done|]. split; [|done]. rewrite E. unfold stored_key.
  destruct (o_parsed_data (so_object o) !! "source"); by simplify_eq.
Qed.

(** Deleting the rows that satisfy [p] while nothing waits to be written. *)
Lemma delete_returning_store p h h' rows :
  store_ok h → h_rpsl_upsert_buffer h = [] → delete_returning p h = (h', Ok rows) →
  rows = List.filter p (db_objects (h_db h)) ∧ store_ok h' ∧ h_now h' = h_now h ∧
  ∀ k, stored h' !! k = match find_row k (db_objects (h_db h)) with
                        | Some r => if p r then None else Some (r_object_text r) | None => None end.
Proof.
  intros [Hk Hs] Hb [= <- <-]. split_and!; [done| |done|].
  - split; simpl; [by apply filter_NoDup_fmap|]. rewrite Hb. intros v Hv. by apply elem_of_nil in Hv.
  - intros k. unfold stored. simpl. rewrite Hb. assert (rows_store (u_row <$> []) = ∅) as -> by done.
    rewrite (left_id_L ∅ (∪)), rows_store_lookup. destruct (find_row k (db_objects (h_db h))) as [r|] eqn:E.
    + apply find_row_Some in E as [Hin <-]. destruct (p r) eqn:Ep.
      * destruct (find_row (row_key r) (List.filter _ _)) as [r'|] eqn:E'; [|done]. exfalso.
        apply find_row_Some in E' as [Hin' Ek]. apply filter_elem in Hin' as [Hin' Hn].
        pose proof (find_row_elem _ _ Hk Hin) as F1. pose proof (find_row_elem _ _ Hk Hin') as F2.
        rewrite Ek in F2. rewrite F1 in F2. injection F2 as <-. by rewrite Ep in Hn.
      * rewrite find_row_elem; [done|by apply filter_NoDup_fmap|]. apply filter_elem. by rewrite Ep.
    + destruct (find_row k (List.filter _ _)) as [r'|] eqn:E'; [|done]. exfalso.
      apply find_row_Some in E' as [Hin' Ek]. apply filter_elem in Hin' as [Hin' _].
      by apply (proj1 (find_row_None _ _) E r').
Qed.

Lemma stored_empty_buffer h k :
  h_rpsl_upsert_buffer h = [] → stored h !! k = r_object_text <$> find_row k (db_objects (h_db h)).
Proof.
  intros Hb. unfold stored. rewrite Hb. assert (rows_store (u_row <$> []) = ∅) as -> by done.
  by rewrite (left_id_L ∅ (∪)), rows_store_lookup.
Qed.

(** What follows the deletion of the rows only records it. *)
Ltac rest_same H := eapply same_kept, (λ Hs : keeps same_store _, Hs _ _ _ H); keeps_tac.
Lemma delete_store origin rpk source class serial protect h h' :
  store_ok h → delete_rpsl_object cfg uuid origin rpk source class serial protect h = (h', Ok tt) →
  stored h' = delete (rpk, source, class) (stored h) ∧ store_ok h' ∧ h_now h' = h_now h.
Proof.
  intros Hok (h0 & [] & ->%permitted_Ok & (h1 & [] & Hflush & (h2 & rows & Hdel & (h3 & m & [-> Hm]%st_lift_Ok & Hrest)%st_bind_Ok)%st_bind_Ok)%st_bind_Ok)%st_bind_Ok.
  destruct (flush_empties _ _ Hok Hflush) as (<- & Hok1 & <- & Hb).
  destruct (delete_returning_store _ _ _ _ Hok1 Hb Hdel) as (_ & Hok2 & N2 & Hk).
  assert (stored h2 = delete (rpk, source, class) (stored h1)) as E2.
  { apply map_eq. intros k. rewrite Hk. destruct (decide (k = (rpk, source, class))) as [->|Hne].
    - rewrite lookup_delete_eq. destruct (find_row _ _) as [r|] eqn:E; [|done].
      apply find_row_Some in E as [_ E]. by rewrite (proj2 (has_key_iff _ _) E).
    - rewrite lookup_delete_ne, stored_empty_buffer by done.
      destruct (find_row k _) as [r|] eqn:E; [|done]. apply find_row_Some in E as [_ E].
      destruct (has_key _ r) eqn:Eh; [|done]. apply has_key_iff in Eh. congruence. }
  rewrite <- E2, <- N2. revert Hok2. change (kept h2 h').
  destruct rows as [|r rows]; [rest_same Hrest|]. destruct m; simpl in Hrest; rest_same Hrest.
  by apply modify_db_same.
Qed.

Lemma suspend_store pk_uuid h h' :
  store_ok h → suspend_rpsl_object cfg uuid pk_uuid h = (h', Ok tt) →
  ∃ k, is_Some (stored h !! k) ∧ stored h' = delete k (stored h) ∧ store_ok h' ∧ h_now h' = h_now h.
Proof.
  intros Hok (h0 & [] & ->%permitted_Ok & (h1 & [] & Hflush & (h2 & rows & Hdel & (h3 & m & [-> Hm]%st_lift_Ok & Hrest)%st_bind_Ok)%st_bind_Ok)%st_bind_Ok)%st_bind_Ok.
  destruct (flush_empties _ _ Hok Hflush) as (<- & Hok1 & <- & Hb).
  destruct (delete_returning_store _ _ _ _ Hok1 Hb Hdel) as (Hrows & Hok2 & N2 & Hk).
  destruct rows as [|r [|r' rows]]; simpl in Hm; simplify_eq. simpl in Hrest. case_bool_decide; [done|].
  assert (r ∈ db_objects (h_db h1) ∧ String.eqb (r_pk r) pk_uuid = true) as [Hr Hp]
    by (apply (filter_elem (λ r, String.eqb (r_pk r) pk_uuid)); rewrite <- Hrows; set_solver).
  pose proof (find_row_elem _ _ (so_keys _ Hok1) Hr) as Hf.
  exists (row_key r). split; [rewrite stored_empty_buffer, Hf by done; by eexists|].
  assert (stored h2 = delete (row_key r) (stored h1)) as E2.
  { apply map_eq. intros k. rewrite Hk. destruct (decide (k = row_key r)) as [->|Hne].
    - by rewrite lookup_delete_eq, Hf, Hp.
    - rewrite lookup_delete_ne, stored_empty_buffer by done.
      destruct (find_row k _) as [r'|] eqn:E; [|done]. apply find_row_Some in E as [Hin E].
      destruct (String.eqb (r_pk r') pk_uuid) eqn:Eh; [|done].
      assert (r' ∈ [r]) as ->%list_elem_of_singleton
        by (rewrite Hrows; by apply (filter_elem (λ r, String.eqb (r_pk r) pk_uuid))). congruence. }
  rewrite <- E2, <- N2. revert Hok2. change (kept h2 h'). rest_same Hrest. by apply modify_db_same.
Qed.

Lemma delete_all_store source b h h' :
  store_ok h → delete_all_rpsl_objects_with_journal cfg uuid source b h = (h', Ok tt) →
  stored h' = filter (λ x, x.1.1.2 ≠ source) (stored h) ∧ store_ok h' ∧ h_now h' = h_now h.
Proof.
  intros Hok (h0 & [] & ->%permitted_Ok & (h1 & [] & Hflush & (h2 & [] & [= <-] & Hrest)%st_bind_Ok)%st_bind_Ok)%st_bind_Ok.
  destruct (flush_empties _ _ Hok Hflush) as (<- & Hok1 & <- & Hb).
  destruct (delete_returning_store (λ r, String.eqb (r_source r) source) h1 _ _ Hok1 Hb eq_refl)
    as (_ & Hok2 & N2 & Hk). set (h2 := with_db _ h1) in *.
  match type of Hk with ∀ k, stored ?h !! k = _ => assert (kept h h2) as H12 end.
  { apply same_kept. by split. }
  destruct (H12 Hok2) as (_ & Hok3 & _).
  assert (kept h2 h') as H3.
  { rest_same Hrest; by apply modify_db_same. }
  destruct (H3 Hok3) as (-> & Hok' & ->). split_and!; [|done|done].
  apply map_eq. intros k. rewrite Hk, map_lookup_filter, stored_empty_buffer by done.
  destruct (find_row k _) as [r|] eqn:E; simpl; [|done]. apply find_row_Some in E as [_ <-]. simpl.
  destruct (String.eqb_spec (r_source r) source); [by rewrite option_guard_False by naive_solver|].
  by rewrite option_guard_True.
Qed.
(** *** What no write touches *)

(** A part of the handler that the writing of objects leaves alone: whether it is
    read-only, and the ROAs that wait. *)
Class Steady {A} (f : handler → A) : Prop := {
  steady_db : ∀ g h, f (with_db g h) = f h;
  steady_tracker : ∀ g h, f (with_tracker g h) = f h;
  steady_changed : ∀ g h, f (with_changed g h) = f h;
  steady_buffer : ∀ b seen g h, f (with_buffer b seen g h) = f h;
}.
#[export] Instance steady_readonly : Steady h_readonly.
Proof. by split. Qed.
#[export] Instance steady_roas : Steady h_roa_insert_buffer.
Proof. by split. Qed.
Hint Resolve steady_db steady_tracker steady_changed steady_buffer : keeps.

Definition same_field {A} (f : handler → A) (h h' : handler) : Prop := f h' = f h.
#[export] Instance same_field_preorder {A} (f : handler → A) : PreOrder (same_field f).
Proof. split; unfold same_field; [by intros h|]. intros h1 h2 h3. congruence. Qed.
Section Fields.
Context {A : Type} {f : handler → A} `{!Steady f}.
Lemma modify_mode g : (∀ h, f (g h) = f h) → keeps (same_field f) (modify g).
Proof. intros Hf. by apply (keeps_modify _). Qed.
Lemma write_permitted_mode : keeps (same_field f) _check_write_permitted.
Proof. intros h h' []. unfold _check_write_permitted. destruct (h_readonly h); [done|]. by intros [= <-]. Qed.
Hint Resolve modify_mode write_permitted_mode : keeps.
Lemma record_operation_mode op rpk source class text origin serial :
  keeps (same_field f) (record_operation cfg op rpk source class text origin serial).
Proof.
  unfold record_operation, _is_serial_synchronised, insert_journal. keeps_tac.
  - intros h h' b. intros [= <- _]. apply steady_tracker.
  - intros h h' b. destruct (sql_insert_journal _ _ _ _ _ _ _ _ _) as [[d n]|] eqn:E; [|done]. intros [= <- _].
    unfold same_field. by rewrite steady_tracker, steady_db.
Qed.
Lemma flush_mode : keeps (same_field f) (_flush_rpsl_object_writing_buffer cfg uuid).
Proof.
  pose proof record_operation_mode. unfold _flush_rpsl_object_writing_buffer, journal_entry. keeps_tac; auto.
  intros h h' []. unfold execute_flush. destruct (flush_statement _ _ _ _); [|done]. intros [= <-]. apply steady_db.
Qed.
Lemma upsert_rendered_mode src rpk render row prefix origin guaranteed serial :
  keeps (same_field f) (upsert_rendered cfg uuid src rpk render row prefix origin guaranteed serial).
Proof.
  pose proof flush_mode. unfold upsert_rendered, flush_if_seen, append_row, object_modified. keeps_tac; auto with keeps.
Qed.
Lemma upsert_mode o origin guaranteed serial created :
  keeps (same_field f) (upsert_rpsl_object cfg uuid timestamp_text o origin guaranteed serial created).
Proof. apply upsert_rendered_mode. Qed.
Lemma delete_mode origin rpk source class serial protect :
  keeps (same_field f) (delete_rpsl_object cfg uuid origin rpk source class serial protect).
Proof.
  pose proof flush_mode. pose proof record_operation_mode.
  unfold delete_rpsl_object, object_modified_dict, object_modified. keeps_tac; auto. intros h h' rows [= <- _]. apply steady_db.
Qed.
Lemma query_mode q : keeps (same_field f) (execute_query_objects cfg collate_lt uuid q).
Proof. pose proof flush_mode. unfold execute_query_objects. keeps_tac; auto. Qed.
End Fields.

(** *** The specification *)

(** What each call does to the store, at time [now]. *)
Definition store_call (c : call) (now : Z) (m m' : store) : Prop :=
  match c with
  | c_upsert o _ _ _ _ =>
      ∃ text, render_rpsl_text cfg (so_object o) (Some (timestamp_text now)) = Ok text
        ∧ m' = <[stored_key o := text]> m
  | c_delete _ rpk source class _ _ => m' = delete (rpk, source, class) m
  | c_suspend _ => ∃ k, is_Some (m !! k) ∧ m' = delete k m
  | c_delete_all source _ => m' = filter (λ x, x.1.1.2 ≠ source) m
  | _ => m' = m
  end.
Inductive store_calls (now : Z) : list call → store → store → Prop :=
| store_done m : store_calls now [] m m
| store_next c cs m m1 m2 :
    store_call c now m m1 → store_calls now cs m1 m2 → store_calls now (c :: cs) m m2.

Lemma set_status_text :
  (∀ s r, row_text (set_rpki_status s r) = row_text r) ∧ (∀ s r, row_text (set_scopefilter_status s r) = row_text r)
  ∧ (∀ s r, row_text (set_route_preference_status s r) = row_text r).
Proof. done. Qed.
Lemma update_pref_same a b : keeps same_store (update_route_preference_status cfg a b).
Proof.
  unfold update_route_preference_status, pref_changed. keeps_tac; by apply update_where_same.
Qed.
Hint Resolve update_pref_same : keeps.

Lemma announce_same m : keeps same_store (announce m).
Proof.
  intros h h' []. unfold announce. destruct (redis_publish _ _ _ m); [|done]. destruct m; by intros [= <-].
Qed.

Lemma commit_store h h' : store_ok h → commit cfg collate_lt uuid h = (h', Ok tt) →
  stored h' = stored h ∧ store_ok h' ∧ h_now h' = h_now h.
Proof.
  intros Hok (h0 & [] & ->%permitted_Ok & (h1 & [] & Hflush & (h2 & [] & Hroa & (h3 & [] & Hfin & Hcom)%st_bind_Ok)%st_bind_Ok)%st_bind_Ok)%st_bind_Ok.
  destruct (flush_empties _ _ Hok Hflush) as (<- & Hok1 & <- & Hb).
  assert (same_store h1 h2) as H12.
  { revert Hroa. apply (λ Hk : keeps same_store _, Hk h1 h2 tt). unfold _flush_roa_writing_buffer, execute_statement.
    keeps_tac; try (apply (keeps_modify _); by intros x).
    intros ? ? []. unfold copy_roas. case_bool_decide; [|done]. by intros [= <-]. }
  assert (same_store h2 h3) as H23.
  { revert Hfin. apply (λ Hk : keeps same_store _, Hk h2 h3 tt).
    unfold finalise_transaction, finalise_source, _is_serial_synchronised. keeps_tac.
    - intros ? ? ? [= <- _]. done.
    - apply modify_db_same. intros d. unfold sql_upsert_status. by destruct (status_of _ _).
    - apply (keeps_modify _). intros hx. apply with_db_same_store. unfold finalise_dicts, for_dict, finalise_serials.
      assert (∀ {A} (f : database → A → database) l d, (∀ d x, db_objects (f d x) = db_objects d) →
        db_objects (foldl f d l) = db_objects d) as Hfold.
      { intros A f l. induction l as [|y l IH]; intros d Hf; [done|]. simpl. by rewrite IH, Hf. }
      by rewrite !Hfold. }
  apply or_rollback_Ok in Hcom as (h4 & [] & Hbefore & (h6 & [] & Htracker & (h5 & [] & Hpublish & Hst)%st_bind_Ok)%st_bind_Ok)%st_bind_Ok.
  assert (same_store h3 h4) as H34.
  { revert Hbefore. apply (λ Hk : keeps same_store _, Hk h3 h4 tt). unfold before_commit, pre_commit. keeps_tac;
      apply (keeps_modify _); by intros ?. }
  assert (same_store h4 h5) as H45.
  { assert (same_store h4 h6) as ->; [revert Htracker|revert Hpublish].
    - apply (λ Hk : keeps same_store _, Hk h4 h6 tt). unfold tracker_commit. keeps_tac. apply announce_same.
    - apply (λ Hk : keeps same_store _, Hk h6 h5 tt). unfold publish_event_stream. keeps_tac. apply announce_same. }
  assert (same_store h3 h5) as H35 by (by rewrite H34).
  assert (same_store h1 h5) as H15 by (rewrite H12, H23; exact H35).
  destruct (same_kept _ _ H15 Hok1) as (<- & Hok5 & <-). injection Hst as <-.
  assert (h_rpsl_upsert_buffer h5 = []) as Hb5 by (by rewrite (ss_buffer _ _ H15)).
  unfold stored. simpl. rewrite Hb5. split_and!; [done| |done].
  split; simpl; [apply Hok5|]. intros v Hv. by apply elem_of_nil in Hv.
Qed.

Lemma run_call_store c h h' :
  store_ok h → run_call cfg collate_lt uuid timestamp_text c h = (h', Ok tt) →
  store_call c (h_now h) (stored h) (stored h') ∧ store_ok h' ∧ h_now h' = h_now h.
Proof.
  intros Hok Hrun.
  assert (keeps kept (run_call cfg collate_lt uuid timestamp_text c) →
    stored h' = stored h ∧ store_ok h' ∧ h_now h' = h_now h) as Hkept by (intros Hk; by apply (Hk _ _ _ Hrun)).
  assert (keeps same_store (run_call cfg collate_lt uuid timestamp_text c) →
    stored h' = stored h ∧ store_ok h' ∧ h_now h' = h_now h) as Hsame by (intros Hk; by apply Hkept, keeps_same_kept).
  pose proof flush_kept as Hfl. pose proof (keeps_same_kept _ write_permitted_same) as Hwr.
  destruct c; simpl in Hrun, Hkept, Hsame |- *.
  - destruct (upsert_store _ _ _ _ _ _ _ Hok Hrun) as (text & ? & ? & ? & ?). eauto 6.
  - apply Hsame. unfold insert_roa_object. keeps_tac. apply (keeps_modify _). by intros ?.
  - apply Hsame. unfold update_rpki_status, rpki_now_visible, rpki_now_hidden. keeps_tac; by apply update_where_same.
  - apply Hsame. unfold update_scopefilter_status, scope_now_visible, scope_now_hidden.
    keeps_tac; by apply update_where_same.
  - apply Hsame, update_pref_same.
  - by eapply delete_store.
  - destruct (suspend_store _ _ _ Hok Hrun) as (k & ? & ? & ? & ?). eauto 6.
  - apply Hkept. unfold delete_suspended_rpsl_objects. apply (keeps_bind _); [done|intros _].
    apply (keeps_bind _); [done|intros _]. by apply keeps_same_kept, modify_db_same.
  - apply Hkept. unfold delete_journal_entries_before_date. apply (keeps_bind _); [done|intros _].
    apply (keeps_bind _); [done|intros _]. by apply keeps_same_kept, modify_db_same.
  - by eapply delete_all_store.
  - apply Hsame. unfold delete_all_roa_objects. keeps_tac; [|by apply modify_db_same].
    apply (keeps_modify _). by intros ?.
  - apply Hsame. unfold set_force_reload. keeps_tac. by apply modify_db_same.
  - apply Hsame. unfold record_serial_newest_mirror. keeps_tac.
  - apply Hsame. unfold record_serial_seen. keeps_tac.
  - apply Hsame. unfold record_mirror_error. keeps_tac.
  - apply Hsame. unfold record_serial_exported. keeps_tac.
  - apply Hsame. unfold record_nrtm4_client_status. keeps_tac.
  - apply Hsame. unfold record_nrtm4_server_status. keeps_tac.
  - by apply commit_store.
Qed.

(** C27. The handler refines a map from keys to object texts.  Whatever calls are made,
    buffered or flushed, committed in between or not, with status updates and journaling
    interleaved, what it stores changes as the map does: an upsert sets the key of the object
    to its rendered text, deletions and suspensions remove theirs, and no other call changes it. *)
Theorem handler_refines_store cs h h' :
  store_ok h → st_iter (run_call cfg collate_lt uuid timestamp_text) cs h = (h', Ok tt) →
  store_calls (h_now h) cs (stored h) (stored h') ∧ store_ok h'.
Proof.
  revert h. induction cs as [|c cs IH]; intros h Hok; [intros [= <-]; split; [constructor|done]|].
  intros (h1 & [] & Hc & Hrest)%st_bind_Ok. destruct (run_call_store _ _ _ Hok Hc) as (Hs & Hok1 & N1).
  destruct (IH _ Hok1 Hrest) as [Hs' Hok']. rewrite N1 in Hs'. split; [by econstructor|done].
Qed.
End Methods.
End Store.

Module StoreExamples.
Import ConcreteIP ConcreteRadix ConcreteRedis JournalExamples.

Lemma ex_store_ok : store_ok h0.
Proof.
  split; [|intros u Hu; by apply elem_of_nil in Hu].
  assert (row_key <$> db_objects (h_db h0)
    = [("192.0.2.0/24AS65537", "A", "route"); ("192.0.2.0/24AS65537", "B", "route")]) as -> by reflexivity.
  apply (bool_decide_unpack _). vm_compute. exact I.
Qed.
Lemma handler_refines_store_witness :
  ∃ m, store_calls ex_cfg str_of_Z 100 ex_calls (stored h0) m
    ∧ m !! ("JD-A", "A", "person") = Some ("person:         J Doe" +:+ NL +:+ "nic-hdl:        JD-A" +:+ NL)
    ∧ m !! ("192.0.2.0/24AS65537", "A", "route") = None ∧ m !! ("192.0.2.0/24AS65537", "B", "route") = None.
Proof.
  exists (stored h3). split; [|vm_compute; done].
  apply (handler_refines_store ex_cfg by_text ex_uuid str_of_Z ex_calls h0 h3 ex_store_ok run_all).
Defined.
End StoreExamples.
