(* ===== verification/Nrtm.v ===== *)
(** * NRTM version 1 and 3

    Serving journal entries ([irrd/mirroring/nrtm_generator.py]), reading such a
    response ([NRTMStreamParser] in [irrd/mirroring/parsers.py]) and carrying out
    its operations ([irrd/mirroring/nrtm_operation.py]).  The expression for the
    START line is a scanner; its classes are the ASCII ones. *)
From S2P Require Import Prelude PyStr Conf Net Models Text Rpki ScopeFilter Fields RpslObjects RpslParser Queries RoutePref Database DatabaseHandler.

(** ** Texts of messages *)

(** [repr] of a string. *)
Definition hex_text (n : N) : string :=
  let d k := match String.get (N.to_nat k) "0123456789abcdef" with Some c => String c "" | None => "" end in
  d (n / 16)%N +:+ d (n mod 16)%N.
Definition repr_char (quote c : ascii) : string :=
  let n := N_of_ascii c in
  if bool_decide (c = quote ∨ c = "\"%char) then String "\" (String c "")
  else if bool_decide (c = ch_nl) then "\n"
  else if bool_decide (c = ch_cr) then "\r"
  else if bool_decide (c = ch_tab) then "\t"
  else if ((n <? 32) || (n =? 127))%N then "\x" +:+ hex_text n
  else String c "".
Fixpoint repr_body (quote : ascii) (s : string) : string :=
  match s with "" => "" | String c s' => repr_char quote c +:+ repr_body quote s' end.
Definition py_repr (s : string) : string :=
  let quote := if has_char "'"%char s && negb (has_char "034"%char s) then "034"%char else "'"%char in
  String quote (repr_body quote s +:+ String quote "").
(** [str] of a list of strings. *)
Definition list_repr (l : list string) : string := "[" +:+ join ", " (py_repr <$> l) +:+ "]".

(** ** The START line *)

Fixpoint span_if (p : ascii → bool) (s : string) : string * string :=
  match s with
  | "" => ("", "")
  | String c s' => if p c then let '(a, b) := span_if p s' in (String c a, b) else ("", s)
  end.
Definition is_word (c : ascii) : bool :=
  is_letter c || is_digit c || bool_decide (c = "_"%char).
Definition is_source_char (c : ascii) : bool := is_word c || bool_decide (c = "-"%char).
Definition is_blank (c : ascii) : bool := bool_decide (c = ch_space).
Definition lit (p s : string) : option string :=
  if startswith p s then Some (str_drop (String.length p) s) else None.
(** [p*] and [p+]. *)
Definition many (p : ascii → bool) (s : string) : string := (span_if p s).2.
Definition many1 (p : ascii → bool) (s : string) : option (string * string) :=
  let '(a, b) := span_if p s in if String.eqb a "" then None else Some (a, b).

Record start_line := {
  sl_version : string;
  sl_source : string;
  sl_first_serial : string;
  sl_last_serial : string;
}.
Definition nrtm_start_line_re (line : string) : option start_line :=
  s ← lit "%" line; s ← lit "START" (many is_blank s); s ← lit "Version:" (many is_blank s);
  '(version, s) ← many1 is_digit (many is_blank s); '(_, s) ← many1 is_blank s;
  '(source, s) ← many1 is_source_char s; '(_, s) ← many1 is_blank s;
  '(first, s) ← many1 is_digit s; s ← lit "-" s; '(last, s) ← many1 is_digit s;
  s ← lit NL (default s (lit " FILTERED" s));
  if String.eqb s "" || startswith NL s
  then Some {| sl_version := version; sl_source := source; sl_first_serial := first; sl_last_serial := last |}
  else None.

(** ** Journal and status queries *)

Fixpoint insert_serial (j : journal_row) (l : list journal_row) : list journal_row :=
  match l with
  | [] => [j]
  | x :: l' => if (j_serial_nrtm j <=? j_serial_nrtm x)%Z then j :: l else x :: insert_serial j l'
  end.
Definition sort_serial (l : list journal_row) : list journal_row := foldr insert_serial [] l.
(** [.sources([source]).serial_nrtm_range(start, end)], by serial. *)
Definition serial_in_range (start : Z) (end_ : option Z) (j : journal_row) : bool :=
  (start <=? j_serial_nrtm j)%Z
  && match end_ with Some e => (j_serial_nrtm j <=? e)%Z | None => true end.
Definition journal_nrtm_range (source : string) (start : Z) (end_ : option Z) (d : database)
  : list journal_row :=
  sort_serial (List.filter (serial_in_range start end_) (journal_of (strip (str_upper source)) d)).

Section NRTM.
Context `{IPyLib} `{Radix node_data} `{redis : Redis} (cfg : configuration).
Context (uuid : nat → string) (timestamp_text : Z → string).
Context (gpg_import_keys : string → list string * option string) (gpg_uids : string → list string).

(** [execute_query] for the other tables. *)
Definition query_database {A} (f : database → A) : M A :=
  h ← st_get;
  _ ← (if h_readonly h then mret tt else _flush_rpsl_object_writing_buffer cfg uuid);
  h ← st_get;
  mret (f (h_db h)).

(** ** The generator *)

Definition generator_error {A} (m : string) : M A := st_raise (NRTMGeneratorException m).
Definition no_serials {A} (a b : Z) : M A :=
  generator_error ("Serials " +:+ str_of_Z a +:+ " - " +:+ str_of_Z b +:+ " do not exist").

(** Times are in microseconds. *)
Definition MICROSECONDS_PER_DAY : Z := 86400000000.
(** [timedelta(days=value)]. *)
Definition timedelta_days (v : pyval) : res Z :=
  match v with
  | VInt n => Ok (n * MICROSECONDS_PER_DAY)%Z
  | VBool b => Ok (if b then MICROSECONDS_PER_DAY else 0)%Z
  | _ => Raise (GenericException "TypeError")
  end.

Definition check_range_limit (source : string) (serial_start_requested serial_end_display : Z) : M unit :=
  let range_limit := source_setting cfg source "nrtm_query_serial_range_limit" in
  if truthy range_limit then
    limit ← st_lift (int_py range_limit);
    if (limit <? serial_end_display - serial_start_requested)%Z
    then generator_error ("Serial range requested exceeds maximum range of " +:+ pyval_str range_limit)
    else mret tt
  else mret tt.
Definition check_days_limit (source : string) (serial_start_requested : Z) : M unit :=
  let days_limit := source_setting cfg source "nrtm_query_serial_days_limit" in
  if truthy days_limit then
    journal ← query_database (journal_nrtm_range source serial_start_requested None);
    match journal with
    | [] => generator_error ("There are no journal entries greater than or equal to this serial "
                               +:+ str_of_Z serial_start_requested +:+ ".")
    | j :: _ =>
        days ← st_lift (timedelta_days days_limit);
        h ← st_get;
        if (days <? h_now h - j_timestamp j)%Z
        then generator_error ("Requesting serials older than " +:+ pyval_str days_limit
                                +:+ " days will be rejected")
        else mret tt
    end
  else mret tt.

(** The text of one journal entry. *)
Definition nrtm_text (source : string) (remove_hashes client_is_dummifying_exempt : bool) (j : journal_row)
  : string :=
  let text := if remove_hashes then remove_auth_hashes (j_object_text j) else j_object_text j in
  if client_is_dummifying_exempt then text
  else dummify_object_text cfg text (j_object_class j) source (j_rpsl_pk j).
Definition operation_line (version : string) (j : journal_row) : string :=
  operation_value (j_operation j)
  +:+ (if String.eqb version "3" then " " +:+ str_of_Z (j_serial_nrtm j) else "").
Definition start_text (version source : string) (first last : Z) : string :=
  "%START Version: " +:+ version +:+ " " +:+ source +:+ " " +:+ str_of_Z first +:+ "-" +:+ str_of_Z last.
(** [textwrap.indent] of the configured header, when there is one. *)
Definition response_header (source : string) : res (list string) :=
  match source_setting cfg source "nrtm_response_header" with
  | VStr s => Ok (if String.eqb s "" then [] else [text_indent s "%"])
  | v => if truthy v then Raise AttributeError else Ok []
  end.
Definition nrtm_response (version source : string) (header : list string) (first last : Z)
    (remove_hashes client_is_dummifying_exempt : bool) (journal : list journal_row) : string :=
  join NL (header
           ++ [start_text version source first last +:+ NL]
           ++ ((λ j, operation_line version j +:+ NL +:+ NL
                     +:+ nrtm_text source remove_hashes client_is_dummifying_exempt j) <$> journal)
           ++ ["%END " +:+ source]).

(** The entries, once the requested range is known to exist. *)
Definition generate_range (source version : string) (serial_start_requested : Z)
    (serial_end_requested : option Z) (serial_end_available : Z)
    (remove_hashes client_is_dummifying_exempt : bool) : M string :=
  let serial_end_display := default serial_end_available serial_end_requested in
  _ ← check_range_limit source serial_start_requested serial_end_display;
  _ ← check_days_limit source serial_start_requested;
  header ← st_lift (response_header source);
  journal ← query_database (journal_nrtm_range source serial_start_requested serial_end_requested);
  mret (nrtm_response version source header serial_start_requested serial_end_display
          remove_hashes client_is_dummifying_exempt journal).
(** The tests of the requested range against the serials of the journal. *)
Definition check_available (source version : string) (serial_start_requested : Z)
    (serial_end_requested : option Z) (oldest newest : option Z)
    (remove_hashes client_is_dummifying_exempt : bool) : M string :=
  match oldest, newest with
  | Some serial_start_available, Some serial_end_available =>
      if (serial_start_requested <? serial_start_available)%Z
      then no_serials serial_start_requested serial_start_available
      else
        match serial_end_requested with
        | Some e =>
            if (serial_end_available <? e)%Z then no_serials serial_end_available e
            else generate_range source version serial_start_requested (Some e) serial_end_available
                   remove_hashes client_is_dummifying_exempt
        | None =>
            if (serial_start_requested =? serial_end_available + 1)%Z
            then mret "% Warning: there are no newer updates available"
            else if (serial_end_available <? serial_start_requested)%Z
            then no_serials serial_end_available serial_start_requested
            else generate_range source version serial_start_requested None serial_end_available
                   remove_hashes client_is_dummifying_exempt
        end
  | _, _ => mret "% Warning: there are no updates available"
  end.
Definition generate (source version : string) (serial_start_requested : Z)
    (serial_end_requested : option Z) (remove_hashes client_is_dummifying_exempt : bool) : M string :=
  if negb (truthy (source_setting cfg source "keep_journal"))
  then generator_error "No journal kept for this source, unable to serve NRTM queries"
  else
    status ← query_database (status_of (str_upper source));
    match status with
    | None => generator_error "There are no journal entries for this source."
    | Some s =>
        match serial_end_requested with
        | Some e =>
            if negb (e =? 0)%Z && (e <? serial_start_requested)%Z
            then generator_error ("Start of the serial range (" +:+ str_of_Z serial_start_requested
                   +:+ ") must be lower or equal to end of the serial range (" +:+ str_of_Z e +:+ ")")
            else check_available source version serial_start_requested serial_end_requested
                   (serial_oldest_journal (s_serials s)) (serial_newest_journal (s_serials s))
                   remove_hashes client_is_dummifying_exempt
        | None =>
            check_available source version serial_start_requested serial_end_requested
              (serial_oldest_journal (s_serials s)) (serial_newest_journal (s_serials s))
              remove_hashes client_is_dummifying_exempt
        end
    end.

(** ** Operations *)

Record NRTMOperation := {
  op_source : string;
  op_operation : DatabaseOperation;
  op_serial : option Z;
  op_origin_identifier : string;
  op_object_text : option string;
  op_rpsl_pk : option string;
  op_object_class : option string;
  op_strict_validation_key_cert : bool;
  op_rpki_aware : bool;
  op_object_class_filter : option (list string);
}.
(** A string that is given and not empty. *)
Definition given (s : option string) : bool :=
  match s with Some s => negb (String.eqb s "") | None => false end.
Definition NRTMOperation_init (source : string) (operation : DatabaseOperation) (serial : option Z)
    (origin_identifier object_text rpsl_pk object_class : option string)
    (strict_validation_key_cert rpki_aware : bool) (object_class_filter : option (list string))
  : res NRTMOperation :=
  if (given object_text && (given rpsl_pk || given object_class))
     || (negb (given object_text) && negb (given rpsl_pk && given object_class))
  then Raise (RuntimeError "Operation must have object text or pk/class")
  else Ok {|
    op_source := source; op_operation := operation; op_serial := serial;
    op_origin_identifier :=
      if given origin_identifier then default "" origin_identifier
      else match serial with Some n => str_of_Z n | None => "None" end;
    op_object_text := object_text; op_rpsl_pk := rpsl_pk; op_object_class := object_class;
    op_strict_validation_key_cert := strict_validation_key_cert; op_rpki_aware := rpki_aware;
    op_object_class_filter := object_class_filter |}.

Definition class_filtered (filter : option (list string)) (cls : string) : bool :=
  match filter with
  | None | Some [] => false
  | Some l => negb (bool_decide (str_lower cls ∈ l))
  end.
(** Key-certs are parsed again with strict validation when that is configured. *)
Definition parse_mirrored (strict_validation_key_cert : bool) (text : string) (default_source : option string)
  : res RPSLObject :=
  o ← rpsl_object_from_text cfg gpg_import_keys gpg_uids text false default_source;
  if strict_validation_key_cert && String.eqb (o_class_name o) "key-cert"
  then rpsl_object_from_text cfg gpg_import_keys gpg_uids text true default_source
  else Ok o.

Definition nonzero_asn (o : RPSLObject) : option Z :=
  match md_asn_first (o_metadata o) with
  | Some n => if (n =? 0)%Z then None else Some n
  | None => None
  end.
(** The status [SingleRouteROAValidator] gives a route with a prefix and an AS
    number other than zero; every other object keeps the initial status. *)
Definition operation_rpki_status (rpki_aware : bool) (o : RPSLObject) : M RPKIStatus :=
  match md_prefix (o_metadata o), nonzero_asn o with
  | Some prefix, Some asn =>
      if rpki_aware && c_is_route (o_class o) then
        src ← st_lift (source o);
        if truthy (source_setting cfg src "rpki_excluded") then mret rpki_not_found
        else query_database (λ d, single_validate_route cfg (db_roas d) prefix asn src)
      else mret rpki_not_found
  | _, _ => mret rpki_not_found
  end.
Definition operation_scope_status (o : RPSLObject) : M ScopeFilterStatus :=
  filters ← st_lift (load_filters cfg);
  src ← st_lift (source o);
  '(status, _) ← st_lift (validate_rpsl_object cfg filters src (o_class_name o)
                            (md_prefix (o_metadata o)) (md_asn_first (o_metadata o)));
  mret status.

Definition parsing_errors_message (o : RPSLObject) (text : string) : string :=
  "Parsing errors: " +:+ list_repr (errors (o_messages o)) +:+ ", original object text follows:" +:+ NL +:+ text.
Definition incorrect_source_message (op : NRTMOperation) (src pk : string) : string :=
  "Incorrect source in NRTM object: stream has source " +:+ op_source op +:+ ", found object with source "
  +:+ src +:+ " in operation " +:+ op_origin_identifier op +:+ "/" +:+ operation_value (op_operation op)
  +:+ "/" +:+ pk
  +:+ ". This operation is ignored, causing potential data inconsistencies.".

(** The operation on a parsed object. *)
Definition add_object (op : NRTMOperation) (o : RPSLObject) : M bool :=
  rpki ← operation_rpki_status (op_rpki_aware op) o;
  scope ← operation_scope_status o;
  _ ← upsert_rpsl_object cfg uuid timestamp_text
        {| so_object := o; so_rpki_status := rpki; so_scopefilter_status := scope;
           so_route_preference_status := rp_visible |}
        jo_mirror false (op_serial op) None;
  mret true.
Definition save_object (op : NRTMOperation) (o : RPSLObject) (text : string) : M bool :=
  if class_filtered (op_object_class_filter op) (o_class_name o) then mret false
  else if has_errors (o_messages o) then
    _ ← record_mirror_error (op_source op) (parsing_errors_message o text); mret false
  else
    match o_parsed_data o !! "source" with
    | Some v =>
        if negb (String.eqb (str_upper (pdata_str (Some v))) (op_source op)) then
          src ← st_lift (source o);
          _ ← record_mirror_error (op_source op) (incorrect_source_message op src (pk o));
          mret false
        else
          match op_operation op with
          | add_or_update => add_object op o
          | delete_op =>
              _ ← delete_rpsl_object cfg uuid jo_mirror (pk o) (op_source op) (str_lower (o_class_name o))
                    (op_serial op) false;
              mret true
          end
    | None =>
        match op_operation op with
        | add_or_update => add_object op o
        | delete_op =>
            _ ← delete_rpsl_object cfg uuid jo_mirror (pk o) (op_source op) (str_lower (o_class_name o))
                  (op_serial op) false;
            mret true
        end
    end.
(** The operation without an object text. *)
Definition save_by_pk (op : NRTMOperation) (rpsl_pk object_class : string) : M bool :=
  if class_filtered (op_object_class_filter op) object_class then mret false
  else
    match op_operation op with
    | add_or_update => mret true
    | delete_op =>
        _ ← delete_rpsl_object cfg uuid jo_mirror rpsl_pk (op_source op) object_class (op_serial op) false;
        mret true
    end.
Definition save (op : NRTMOperation) : M bool :=
  let default_source := match op_operation op with delete_op => Some (op_source op) | add_or_update => None end in
  if given (op_object_text op) then
    let text := default "" (op_object_text op) in
    match parse_mirrored (op_strict_validation_key_cert op) (strip text) default_source with
    | Raise (UnknownRPSLObjectClassException _ _) => mret false
    | Raise e => st_raise e
    | Ok o => save_object op o text
    end
  else
    match op_rpsl_pk op, op_object_class op with
    | Some rpsl_pk, Some object_class =>
        if String.eqb object_class ""
        then st_raise (RuntimeError "NRTMOperation called with neither object_text nor object_class")
        else save_by_pk op rpsl_pk object_class
    | _, _ => st_raise (RuntimeError "NRTMOperation called with neither object_text nor object_class")
    end.

(** ** The stream parser *)

Record NRTMStreamParser := {
  p_first_serial : Z;
  p_last_serial : Z;
  p_nrtm_source : option string;
  p_version : string;
  p_current_op_serial : Z;
  p_operations : list NRTMOperation;
}.
Definition parser_init : NRTMStreamParser := {|
  p_first_serial := -1; p_last_serial := -1; p_nrtm_source := None; p_version := "";
  p_current_op_serial := -1; p_operations := [] |}.

(** An error of the stream: recorded for the source, and raised. *)
Definition stream_error {A} (source msg : string) : M A :=
  _ ← record_mirror_error source msg; st_raise (ValueError msg).
Definition py_int_or (s : string) : Z := default 0%Z (py_int s).

Definition _handle_possible_start_line (source line : string) (p : NRTMStreamParser)
  : M (bool * NRTMStreamParser) :=
  match nrtm_start_line_re line with
  | None => mret (false, p)
  | Some m =>
      match p_nrtm_source p with
      | Some _ =>
          stream_error source ("Encountered second START line in NRTM stream, first was " +:+ source +:+ " "
            +:+ str_of_Z (p_first_serial p) +:+ "-" +:+ str_of_Z (p_last_serial p) +:+ ", new line is: " +:+ line)
      | None =>
          let nrtm_source := str_upper (sl_source m) in
          if negb (String.eqb source nrtm_source) then
            stream_error source ("Invalid NRTM source in START line: expected " +:+ source +:+ " but found "
              +:+ nrtm_source +:+ " in line: " +:+ line)
          else if negb (bool_decide (sl_version m ∈ ["1"; "3"])) then
            stream_error source ("Invalid NRTM version " +:+ sl_version m +:+ " in START line: " +:+ line)
          else
            mret (true, {| p_first_serial := py_int_or (sl_first_serial m);
                           p_last_serial := py_int_or (sl_last_serial m);
                           p_nrtm_source := Some nrtm_source; p_version := sl_version m;
                           p_current_op_serial := p_current_op_serial p; p_operations := p_operations p |})
      end
  end.

(** The name and the serial of an ADD or DEL paragraph. *)
Definition operation_serial (source paragraph : string) (current : Z) : M (string * Z) :=
  if has_char ch_space paragraph then
    match split_on ch_space paragraph with
    | [operation_str; line_serial_str] =>
        line_serial ← st_lift (int_py (VStr line_serial_str));
        if (line_serial <? current)%Z
        then stream_error source ("Invalid NRTM serial for " +:+ source +:+ ": ADD/DEL has serial "
               +:+ str_of_Z line_serial +:+ ", expected at least " +:+ str_of_Z current)
        else mret (operation_str, line_serial)
    | _ => st_raise (ValueError "too many values to unpack (expected 2)")
    end
  else mret (strip paragraph, current).
(** [next_paragraph] is what [next(paragraphs)] yields, if anything. *)
Definition _handle_operation (source current_paragraph : string) (next_paragraph : option string)
    (p : NRTMStreamParser) : M NRTMStreamParser :=
  match p_nrtm_source p with
  | None =>
      stream_error source ("Encountered operation before valid NRTM START line, paragraph encountered: "
                             +:+ current_paragraph)
  | Some _ =>
      let current := if (p_current_op_serial p =? -1)%Z then p_first_serial p
                     else (p_current_op_serial p + 1)%Z in
      '(operation_str, current) ← operation_serial source current_paragraph current;
      operation ← st_lift (operation_of operation_str);
      object_text ← st_lift (match next_paragraph with Some t => Ok t | None => Raise StopIteration end);
      op ← st_lift (NRTMOperation_init source operation (Some current) None (Some object_text) None None
             (truthy (source_setting cfg source "strict_import_keycert_objects"))
             (truthy (get_setting cfg "rpki.roa_source"))
             (get_object_class_filter_for_source cfg source));
      mret {| p_first_serial := p_first_serial p; p_last_serial := p_last_serial p;
              p_nrtm_source := p_nrtm_source p; p_version := p_version p;
              p_current_op_serial := current; p_operations := p_operations p ++ [op] |}
  end.

(** The loop over the paragraphs; an operation takes the one after it. *)
Fixpoint split_loop (source : string) (paragraphs : list string) (last_comment_seen : string)
    (p : NRTMStreamParser) : M (string * NRTMStreamParser) :=
  match paragraphs with
  | [] => mret (last_comment_seen, p)
  | paragraph :: paragraphs' =>
      '(started, p) ← _handle_possible_start_line source paragraph p;
      if (started : bool) then split_loop source paragraphs' last_comment_seen p
      else if startswith "%" paragraph || startswith "#" paragraph
      then split_loop source paragraphs' paragraph p
      else if startswith "ADD" paragraph || startswith "DEL" paragraph then
        match paragraphs' with
        | [] => p ← _handle_operation source paragraph None p; mret (last_comment_seen, p)
        | text :: paragraphs'' =>
            p ← _handle_operation source paragraph (Some text) p;
            split_loop source paragraphs'' last_comment_seen p
        end
      else split_loop source paragraphs' last_comment_seen p
  end.
Definition _split_stream (source data : string) : M NRTMStreamParser :=
  '(last_comment_seen, p) ← split_loop source (split_paragraphs_rpsl (inl data) false) "" parser_init;
  let comment := strip (str_upper last_comment_seen) in
  if bool_decide (is_Some (p_nrtm_source p)) && negb (String.eqb comment ("%END " +:+ source)) then
    stream_error source ("NRTM stream error for " +:+ source +:+ ": last comment paragraph expected to be "
      +:+ quoted ("%END " +:+ source) +:+ ", but is actually " +:+ quoted comment
      +:+ " - could be caused by TCP disconnection during NRTM query or mirror server "
      +:+ "returning an error or an otherwise incomplete or invalid response")
  else if (p_last_serial p <? p_current_op_serial p)%Z && negb (String.eqb (p_version p) "3") then
    stream_error source ("NRTM stream error for " +:+ source
      +:+ ": expected operations up to and including serial " +:+ str_of_Z (p_last_serial p)
      +:+ ", last operation was " +:+ str_of_Z (p_current_op_serial p))
  else if (0 <? p_last_serial p)%Z then
    _ ← record_serial_newest_mirror source (p_last_serial p); mret p
  else mret p.

(** [NRTMImportUpdateStreamRunner.run] on the response of the mirrored server. *)
Definition update_stream_run (source response : string) : M unit :=
  if negb (truthy (source_setting cfg source "nrtm_host")) then mret tt
  else
    parser ← _split_stream source response;
    st_iter (λ op, _ ← save op; mret tt) (p_operations parser).
End NRTM.
