(* ===== verification/NrtmTheory.v ===== *)
(** * Correctness of NRTM

    A response of the generator is read back by the stream parser as exactly the
    journal entries of the requested range. *)
From S2P Require Import Prelude PyStr Conf Net Models Text TextTheory Rpki ScopeFilter Fields RpslObjects RpslParser Queries RoutePref RoutePrefTheory Database DatabaseHandler Nrtm.

(** ** The START line *)

Lemma span_if_app p a b :
  str_all p a = true → (b = "" ∨ ∃ c b', b = String c b' ∧ p c = false) → span_if p (a +:+ b) = (a, b).
Proof.
  intros Ha Hb. induction a as [|c a IH].
  - destruct Hb as [->|(c & b' & -> & Hc)]; [done|]. simpl. by rewrite Hc.
  - simpl in *. apply andb_true_iff in Ha as [Hc Ha]. by rewrite Hc, IH.
Qed.
Lemma many_app p a b :
  str_all p a = true → (b = "" ∨ ∃ c b', b = String c b' ∧ p c = false) → many p (a +:+ b) = b.
Proof. intros. unfold many. by rewrite span_if_app. Qed.
Lemma many1_app p a b :
  str_all p a = true → a ≠ "" → (b = "" ∨ ∃ c b', b = String c b' ∧ p c = false) →
  many1 p (a +:+ b) = Some (a, b).
Proof. intros. unfold many1. rewrite span_if_app by done. by rewrite (proj2 (String.eqb_neq a "")). Qed.
Lemma lit_app p s : lit p (p +:+ s) = Some s.
Proof. unfold lit, startswith. by rewrite prefix_app, str_drop_app. Qed.

Lemma str_of_Z_nonempty n : (0 ≤ n)%Z → str_of_Z n ≠ "".
Proof. intros Hn E. pose proof (py_int_str_of_Z n Hn) as H. by rewrite E in H. Qed.

(** A source name as the START line can carry it, in upper case. *)
Record source_ok (source : string) : Prop := {
  so_nonempty : source ≠ "";
  so_chars : str_all is_source_char source = true;
  so_upper : str_upper source = source;
}.
Definition version_ok (version : string) : Prop := version = "1" ∨ version = "3".

Lemma head_source source : source_ok source → ∃ c s, source = String c s ∧ is_blank c = false.
Proof.
  intros [Hne Hc _]. destruct source as [|c s]; [done|]. exists c, s. split; [done|].
  simpl in Hc. apply andb_true_iff in Hc as [Hc _]. destruct (is_blank c) eqn:E; [|done].
  unfold is_blank in E. apply bool_decide_eq_true in E as ->. discriminate Hc.
Qed.
Lemma head_digits n : (0 ≤ n)%Z → ∃ c s, str_of_Z n = String c s ∧ is_digit c = true.
Proof.
  intros Hn. pose proof (str_of_Z_nonempty n Hn) as Hne. pose proof (str_of_Z_digits n Hn) as Hd.
  destruct (str_of_Z n) as [|c s]; [done|]. simpl in Hd. apply andb_true_iff in Hd as [Hd _]. eauto.
Qed.
Lemma digit_not_blank c : is_digit c = true → is_blank c = false.
Proof. intros H. unfold is_blank. apply bool_decide_false. intros ->. done. Qed.

Lemma start_text_matches version source first last :
  version_ok version → source_ok source → (0 ≤ first)%Z → (0 ≤ last)%Z →
  nrtm_start_line_re (start_text version source first last +:+ NL)
  = Some {| sl_version := version; sl_source := source; sl_first_serial := str_of_Z first;
            sl_last_serial := str_of_Z last |}.
Proof.
  intros Hv Hs Hf Hl. pose proof (head_source source Hs) as (sc & ss & Hsrc & Hsb).
  destruct (head_digits first Hf) as (fc & fs & Hfirst & Hfd).
  destruct (head_digits last Hl) as (lc & ls & Hlast & Hld).
  unfold nrtm_start_line_re, start_text. rewrite !str_app_assoc.
  change ("%START Version: " +:+ ?x) with ("%" +:+ "START" +:+ " " +:+ "Version:" +:+ " " +:+ x).
  assert (version ≠ "" ∧ str_all is_digit version = true
          ∧ ∃ c v, version = String c v ∧ is_blank c = false) as (Hvne & Hvd & vc & vv & Hvers & Hvb)
    by (destruct Hv as [-> | ->]; split_and!; eauto).
  rewrite lit_app. cbn [mbind option_bind].
  assert (∀ x, many is_blank ("START" +:+ x) = "START" +:+ x) as -> by done.
  rewrite lit_app. cbn [mbind option_bind].
  rewrite (many_app is_blank " ") by (try done; right; by eexists _, _). rewrite lit_app. cbn [mbind option_bind].
  rewrite (many_app is_blank " ") by (try done; right; rewrite Hvers; by eexists _, _).
  rewrite (many1_app is_digit version) by (try done; right; by eexists _, _). cbn [mbind option_bind].
  rewrite (many1_app is_blank " ") by (try done; right; rewrite Hsrc; by eexists _, _). cbn [mbind option_bind].
  rewrite (many1_app is_source_char source) by (try apply Hs; right; by eexists _, _).
  cbn [mbind option_bind].
  rewrite (many1_app is_blank " ")
    by (try done; right; rewrite Hfirst; eexists _, _; by eauto using digit_not_blank).
  cbn [mbind option_bind].
  rewrite (many1_app is_digit (str_of_Z first))
    by (try apply str_of_Z_digits; try apply str_of_Z_nonempty; try done; right; by eexists _, _).
  cbn [mbind option_bind]. rewrite lit_app. cbn [mbind option_bind].
  rewrite (many1_app is_digit (str_of_Z last))
    by (try apply str_of_Z_digits; try apply str_of_Z_nonempty; try done; right; by eexists _, _).
  cbn [mbind option_bind]. done.
Qed.

(** ** The response as a document of paragraphs *)

Lemma strip_nl s : s ≠ "" → strip s = s → strip (s +:+ NL) = s.
Proof.
  intros Hne Hs. destruct (strip_if_fix_ends is_space s Hs Hne) as [(c & s' & E1 & Hc) _].
  unfold strip, strip_if in *. rewrite E1 in *. simpl in *. rewrite Hc in *.
  change (String c (s' +:+ NL)) with (String c s' +:+ NL). by rewrite rstrip_if_app.
Qed.

Lemma py_int_line n : (0 ≤ n)%Z → py_int (str_of_Z n +:+ NL) = Some n.
Proof.
  intros Hn. rewrite <- (py_int_str_of_Z n Hn). unfold py_int.
  assert (strip (str_of_Z n) = str_of_Z n) as Hs.
  { apply strip_if_id. eapply str_all_mono; [|by apply str_of_Z_digits]. apply is_digit_not_space. }
  by rewrite strip_nl, Hs by (try apply str_of_Z_nonempty; done).
Qed.

Lemma para_text_one l : para_text [l] = l +:+ NL.
Proof. unfold para_text. simpl. by rewrite str_app_nil_r. Qed.

Lemma document_lines_cons ls paras :
  ls ≠ [] → document_lines paras ≠ [] →
  join NL (document_lines (ls :: paras)) = para_text ls +:+ NL +:+ join NL (document_lines paras).
Proof.
  intros Hls Hp. destruct ls as [|l ls]; [done|]. destruct paras as [|p paras]; [done|].
  assert (document_lines ((l :: ls) :: p :: paras) = (l :: ls) ++ "" :: document_lines (p :: paras)) as -> by done.
  destruct (document_lines (p :: paras)) as [|x xs]; [done|].
  by rewrite join_app, para_text_join, !str_app_assoc, join_cons.
Qed.
Lemma document_lines_nonempty ls paras : ls ≠ [] → document_lines (ls :: paras) ≠ [].
Proof. destruct ls; [done|]. by destruct paras. Qed.

(** A configured header that is sent as paragraphs of comments, none of them a START
    line: each line, with its [%], is terminated, as with YAML's [|] style. *)
Definition comment_para (ls : list string) : Prop :=
  para_ok false ls ∧ startswith "%" (para_text ls) = true ∧ nrtm_start_line_re (para_text ls) = None.
Definition header_ok (header : list string) (paras : list (list string)) : Prop :=
  Forall comment_para paras ∧ header = match paras with [] => [] | _ => [document paras] end.
Lemma document_cons ls ls' paras : document (ls :: ls' :: paras) = para_text ls +:+ NL +:+ document (ls' :: paras).
Proof. unfold document. by rewrite !fmap_cons, join_cons. Qed.
Lemma header_document (hps paras : list (list string)) :
  hps ≠ [] → Forall (para_ok false) hps → (∃ ls paras', paras = ls :: paras' ∧ ls ≠ []) →
  document hps +:+ NL +:+ join NL (document_lines paras) = join NL (document_lines (hps ++ paras)).
Proof.
  intros Hne Hok (l & paras' & -> & Hl). induction Hok as [|ls hps Hls Hok IH]; [done|].
  assert (ls ≠ []) as Hls' by (by destruct (para_ok_cons _ _ Hls) as (? & ? & ->)). cbn [app].
  rewrite (document_lines_cons ls); [|done|].
  - destruct hps as [|ls2 hps]; [reflexivity|]. rewrite <- IH by done. by rewrite document_cons, !str_app_assoc.
  - destruct hps as [|ls2 hps]; simpl app; apply document_lines_nonempty; [done|].
    apply Forall_cons in Hok as [Hls2 _]. by destruct (para_ok_cons _ _ Hls2) as (? & ? & ->).
Qed.

Section Response.
Context (version source : string) (first last : Z).

Definition operation_paras (j : journal_row) (ls : list string) : list (list string) :=
  [[operation_line version j]; ls].
Definition response_paras (journal : list journal_row) (texts : list (list string)) : list (list string) :=
  [start_text version source first last]
  :: concat (zip_with operation_paras journal texts) ++ [["%END " +:+ source]].
End Response.

Section RoundTrip.
Context `{IPyLib} `{Radix node_data} `{redis : Redis} (scfg ccfg : configuration).
Context (version source : string) (first last : Z) (remove_hashes exempt : bool).
Let text := nrtm_text scfg source remove_hashes exempt.

(** The text of an entry, as lines that form a paragraph. *)
Definition entry_ok (j : journal_row) (ls : list string) : Prop :=
  nrtm_text scfg source remove_hashes exempt j = para_text ls ∧ para_ok false ls.

Lemma entry_nonempty j ls : entry_ok j ls → ls ≠ [].
Proof using Type. intros [_ Hok] ->. by destruct Hok as [_ Hok]. Qed.

Lemma operations_document journal texts :
  Forall2 entry_ok journal texts →
  join NL (((λ j, operation_line version j +:+ NL +:+ NL +:+ text j) <$> journal) ++ ["%END " +:+ source])
  = join NL (document_lines (concat (zip_with (operation_paras version) journal texts) ++ [["%END " +:+ source]]))
  ∧ document_lines (concat (zip_with (operation_paras version) journal texts) ++ [["%END " +:+ source]]) ≠ [].
Proof using Type.
  induction 1 as [|j ls journal texts Hj Hall [IH Hne]]; [done|].
  pose proof (entry_nonempty _ _ Hj) as Hls. destruct Hj as [Htext _].
  assert (concat (zip_with (operation_paras version) (j :: journal) (ls :: texts)) ++ [["%END " +:+ source]]
    = [operation_line version j] :: ls :: concat (zip_with (operation_paras version) journal texts)
      ++ [["%END " +:+ source]]) as -> by done.
  split; [|by apply document_lines_nonempty].
  rewrite document_lines_cons, (document_lines_cons ls) by (try done; by apply document_lines_nonempty).
  rewrite <- IH, para_text_one, fmap_cons, <- app_comm_cons. subst text. rewrite Htext.
  destruct (((λ j, operation_line version j +:+ NL +:+ NL +:+ nrtm_text scfg source remove_hashes exempt j)
    <$> journal) ++ ["%END " +:+ source]) as [|x xs] eqn:E; [by destruct journal|].
  by rewrite join_cons, !str_app_assoc.
Qed.

Lemma response_document journal texts :
  Forall2 entry_ok journal texts →
  nrtm_response scfg version source [] first last remove_hashes exempt journal
  = join NL (document_lines (response_paras version source first last journal texts)).
Proof using Type.
  intros Hall. destruct (operations_document journal texts Hall) as [Hj Hne].
  unfold response_paras. rewrite document_lines_cons, <- Hj, para_text_one by done.
  assert (nrtm_response scfg version source [] first last remove_hashes exempt journal
    = join NL ((start_text version source first last +:+ NL)
        :: ((λ j, operation_line version j +:+ NL +:+ NL +:+ text j) <$> journal) ++ ["%END " +:+ source]))
    as -> by done.
  destruct (((λ j, operation_line version j +:+ NL +:+ NL +:+ text j) <$> journal) ++ ["%END " +:+ source])
    as [|x xs] eqn:E; [by destruct journal|].
  by rewrite join_cons, !str_app_assoc.
Qed.
Lemma response_headed header hps journal texts :
  header_ok header hps → Forall2 entry_ok journal texts →
  nrtm_response scfg version source header first last remove_hashes exempt journal
  = join NL (document_lines (hps ++ response_paras version source first last journal texts)).
Proof using Type.
  intros [Hhps ->] Hall. destruct (decide (hps = [])) as [->|Hne]; [by apply response_document|].
  rewrite <- header_document; [|done| |by eexists _, _].
  - rewrite <- response_document by done. destruct hps as [|ls hps]; [done|]. unfold nrtm_response. cbn [app].
    by rewrite join_cons.
  - eapply Forall_impl; [exact Hhps|]. by intros ls [? _].
Qed.

(** ** Reading the paragraphs *)

(** The serials of the entries as the parser expects them: at least the next one
    when they are given, exactly the next one when they are counted. *)
Fixpoint serials_follow (next : Z) (l : list Z) : Prop :=
  match l with
  | [] => True
  | n :: l' => (if String.eqb version "3" then (next <= n)%Z else n = next) ∧ serials_follow (n + 1) l'
  end.

(** What the parser makes of an entry. *)
Definition entry_operation (j : journal_row) (ls : list string) : NRTMOperation := {|
  op_source := source; op_operation := j_operation j; op_serial := Some (j_serial_nrtm j);
  op_origin_identifier := str_of_Z (j_serial_nrtm j); op_object_text := Some (para_text ls);
  op_rpsl_pk := None; op_object_class := None;
  op_strict_validation_key_cert := truthy (source_setting ccfg source "strict_import_keycert_objects");
  op_rpki_aware := truthy (get_setting ccfg "rpki.roa_source");
  op_object_class_filter := get_object_class_filter_for_source ccfg source |}.
Definition next_serial (p : NRTMStreamParser) : Z :=
  if (p_current_op_serial p =? -1)%Z then p_first_serial p else (p_current_op_serial p + 1)%Z.
Definition after_entry (j : journal_row) (ls : list string) (p : NRTMStreamParser) : NRTMStreamParser := {|
  p_first_serial := p_first_serial p; p_last_serial := p_last_serial p;
  p_nrtm_source := p_nrtm_source p; p_version := p_version p;
  p_current_op_serial := j_serial_nrtm j; p_operations := p_operations p ++ [entry_operation j ls] |}.

Lemma operation_line_serial (j : journal_row) (cur : Z) (h : handler) :
  version_ok version → (0 ≤ j_serial_nrtm j)%Z → serials_follow cur [j_serial_nrtm j] →
  operation_serial source (operation_line version j +:+ NL) cur h
  = (h, Ok (operation_value (j_operation j), j_serial_nrtm j)).
Proof using Type.
  intros Hv Hn [Hfollow _]. unfold operation_serial, operation_line. destruct Hv as [-> | ->]; simpl in Hfollow.
  - subst. destruct (j_operation j); reflexivity.
  - change (String.eqb "3" "3") with true. cbv iota.
    assert (has_char ch_space ((operation_value (j_operation j) +:+ " " +:+ str_of_Z (j_serial_nrtm j)) +:+ NL) = true)
      as -> by (rewrite !has_char_app; simpl; by rewrite !orb_true_r).
    assert (split_on ch_space ((operation_value (j_operation j) +:+ " " +:+ str_of_Z (j_serial_nrtm j)) +:+ NL)
      = [operation_value (j_operation j); str_of_Z (j_serial_nrtm j) +:+ NL]) as ->.
    { rewrite !str_app_assoc. change (" " +:+ ?x) with (String ch_space x). rewrite split_on_app.
      - rewrite split_on_none; [done|]. rewrite has_char_app, str_of_Z_no_char; done.
      - by destruct (j_operation j). }
    unfold int_py, pyval_int. rewrite py_int_line by done. unfold mbind, st_bind, st_lift, mret, st_ret.
    destruct (Z.ltb_spec (j_serial_nrtm j) cur); [lia|]. done.
Qed.

Lemma operation_of_value op : operation_of (operation_value op) = Ok op.
Proof using Type. by destruct op. Qed.
Lemma para_text_given ls : ls ≠ [] → String.eqb (para_text ls) "" = false.
Proof using Type.
  intros Hls. destruct ls as [|l ls]; [done|]. rewrite para_text_cons. by destruct l.
Qed.

Lemma handle_entry j ls p (h : handler) :
  version_ok version → entry_ok j ls → (0 ≤ j_serial_nrtm j)%Z →
  is_Some (p_nrtm_source p) → serials_follow (next_serial p) [j_serial_nrtm j] →
  _handle_operation ccfg source (operation_line version j +:+ NL) (Some (para_text ls)) p h
  = (h, Ok (after_entry j ls p)).
Proof using Type.
  intros Hv Hj Hn [src Hsrc] Hfollow. unfold _handle_operation. rewrite Hsrc.
  unfold mbind, st_bind. fold (next_serial p).
  rewrite operation_line_serial by done. unfold st_lift. rewrite operation_of_value.
  unfold NRTMOperation_init, given. rewrite para_text_given by (by eapply entry_nonempty).
  simpl. rewrite <- Hsrc. done.
Qed.

Definition all_entries (journal : list journal_row) (texts : list (list string)) (p : NRTMStreamParser)
  : NRTMStreamParser := foldl (λ p x, after_entry x.1 x.2 p) p (zip journal texts).

Lemma start_line_other c s p (h : handler) :
  c ≠ "%"%char → _handle_possible_start_line source (String c s) p h = (h, Ok (false, p)).
Proof using Type.
  intros Hc. unfold _handle_possible_start_line.
  assert (nrtm_start_line_re (String c s) = None) as ->; [|done].
  unfold nrtm_start_line_re, lit, startswith. cbn [String.prefix].
  destruct (ascii_dec "%" c) as [<-|]; [by destruct Hc|]. done.
Qed.

Lemma split_loop_entry j ls rest comment p (h : handler) :
  version_ok version → entry_ok j ls → (0 ≤ j_serial_nrtm j)%Z →
  is_Some (p_nrtm_source p) → serials_follow (next_serial p) [j_serial_nrtm j] →
  split_loop ccfg source (para_text [operation_line version j] :: para_text ls :: rest) comment p h
  = split_loop ccfg source rest comment (after_entry j ls p) h.
Proof using Type.
  intros Hv Hj Hn Hsrc Hfollow. rewrite para_text_one.
  assert (∃ c s, operation_line version j +:+ NL = String c s ∧ c ≠ "%"%char
    ∧ startswith "%" (String c s) || startswith "#" (String c s) = false
    ∧ startswith "ADD" (String c s) || startswith "DEL" (String c s) = true) as (c & s & E & Hc & Hp & Ha).
  { unfold operation_line. destruct Hv as [-> | ->], (j_operation j); eexists _, _; (split; [reflexivity|]); (split; [discriminate|]); split; reflexivity. }
  pose proof (handle_entry j ls p h Hv Hj Hn Hsrc Hfollow) as Hh. rewrite E in *.
  cbn [split_loop]. unfold mbind, st_bind. rewrite start_line_other by done. rewrite Hp, Ha, Hh. done.
Qed.

Lemma split_loop_entries journal texts rest comment p (h : handler) :
  version_ok version → Forall2 entry_ok journal texts → Forall (λ j, (0 ≤ j_serial_nrtm j)%Z) journal →
  is_Some (p_nrtm_source p) → serials_follow (next_serial p) (j_serial_nrtm <$> journal) →
  split_loop ccfg source ((para_text <$> concat (zip_with (operation_paras version) journal texts)) ++ rest)
    comment p h
  = split_loop ccfg source rest comment (all_entries journal texts p) h.
Proof using Type.
  intros Hv Hall. revert p. induction Hall as [|j ls journal texts Hj Hall IH]; intros p Hn Hsrc Hf; [done|].
  apply Forall_cons in Hn as [Hnj Hn]. destruct Hf as [Hfj Hf].
  change ((para_text <$> concat (zip_with (operation_paras version) (j :: journal) (ls :: texts))) ++ rest)
    with (para_text [operation_line version j] :: para_text ls
      :: (para_text <$> concat (zip_with (operation_paras version) journal texts)) ++ rest).
  rewrite split_loop_entry by done. rewrite IH; [done..|].
  unfold next_serial. simpl. by rewrite (proj2 (Z.eqb_neq _ (-1))) by lia.
Qed.

(** Comments before the START line only move the last comment. *)
Lemma split_loop_comments hps rest comment p (h : handler) :
  Forall comment_para hps →
  ∃ comment', split_loop ccfg source ((para_text <$> hps) ++ rest) comment p h = split_loop ccfg source rest comment' p h.
Proof using Type.
  intros Hhps. revert comment. induction Hhps as [|ls hps (_ & Hc & Hstart) Hhps IH]; intros comment; [by eexists|].
  destruct (IH (para_text ls)) as [comment' IH']. exists comment'. rewrite <- IH'. cbn [fmap list_fmap app split_loop].
  unfold mbind, st_bind. unfold _handle_possible_start_line. rewrite Hstart, Hc. done.
Qed.

(** The parser after the START line. *)
Definition started : NRTMStreamParser := {|
  p_first_serial := first; p_last_serial := last; p_nrtm_source := Some source; p_version := version;
  p_current_op_serial := -1; p_operations := [] |}.

Lemma handle_start (h : handler) :
  version_ok version → source_ok source → (0 ≤ first)%Z → (0 ≤ last)%Z →
  _handle_possible_start_line source (start_text version source first last +:+ NL) parser_init h
  = (h, Ok (true, started)).
Proof using Type.
  intros Hv Hs Hf Hl. unfold _handle_possible_start_line.
  rewrite start_text_matches by done. cbn [p_nrtm_source parser_init sl_source sl_version].
  rewrite (so_upper _ Hs), (proj2 (String.eqb_eq source source)) by done. cbn [negb].
  rewrite bool_decide_true by (destruct Hv as [-> | ->]; set_solver). cbn [negb].
  cbn [sl_first_serial sl_last_serial]. unfold py_int_or. by rewrite !py_int_str_of_Z.
Qed.

Lemma handle_end comment p (h : handler) :
  split_loop ccfg source [para_text ["%END " +:+ source]] comment p h
  = (h, Ok ("%END " +:+ source +:+ NL, p)).
Proof using Type.
  rewrite para_text_one, str_app_assoc. cbn [split_loop]. unfold mbind, st_bind.
  assert (_handle_possible_start_line source ("%END " +:+ source +:+ NL) p h = (h, Ok (false, p))) as -> by done.
  done.
Qed.

Lemma end_comment : source_ok source → strip (str_upper ("%END " +:+ source +:+ NL)) = "%END " +:+ source.
Proof using Type.
  intros Hs. rewrite !str_upper_app, (so_upper _ Hs).
  change (str_upper "%END ") with "%END ". change (str_upper NL) with NL.
  rewrite <- str_app_assoc. apply strip_nl; [done|].
  destruct (str_snoc source (so_nonempty _ Hs)) as (r & d & E).
  apply (strip_if_both is_space _ "%"%char ("END " +:+ source) ("%END " +:+ r) d); [done|by rewrite E, str_app_assoc|done|].
  pose proof (so_chars _ Hs) as Hc. rewrite E, str_all_app in Hc. apply andb_true_iff in Hc as [_ Hc].
  simpl in Hc. rewrite andb_true_r in Hc. destruct (is_space d) eqn:Ed; [|done].
  unfold is_space in Ed. revert Hc Ed. clear. destruct d as [[] [] [] [] [] [] [] []]; vm_compute; congruence.
Qed.

Lemma all_entries_fields journal texts p :
  p_first_serial (all_entries journal texts p) = p_first_serial p
  ∧ p_last_serial (all_entries journal texts p) = p_last_serial p
  ∧ p_nrtm_source (all_entries journal texts p) = p_nrtm_source p
  ∧ p_version (all_entries journal texts p) = p_version p
  ∧ p_operations (all_entries journal texts p) = p_operations p ++ zip_with entry_operation journal texts.
Proof using Type.
  revert p texts. induction journal as [|j journal IH]; intros p [|ls texts];
    try (unfold all_entries; simpl; rewrite ?app_nil_r; done).
  change (all_entries (j :: journal) (ls :: texts) p) with (all_entries journal texts (after_entry j ls p)).
  destruct (IH (after_entry j ls p) texts) as (-> & -> & -> & -> & ->).
  repeat split. simpl. by rewrite <- app_assoc.
Qed.

Lemma all_entries_current journal texts p :
  length journal = length texts →
  p_current_op_serial (all_entries journal texts p)
  = default (p_current_op_serial p) (list.last (j_serial_nrtm <$> journal)).
Proof using Type.
  revert p texts. induction journal as [|j journal IH]; intros p [|ls texts] Hlen; try done.
  change (all_entries (j :: journal) (ls :: texts) p) with (all_entries journal texts (after_entry j ls p)).
  rewrite IH by (by injection Hlen). rewrite fmap_cons, list.last_cons.
  by destruct (list.last (j_serial_nrtm <$> journal)).
Qed.

Lemma source_clean : source_ok source →
  has_char ch_nl source = false ∧ has_char ch_cr source = false ∧ strip source = source.
Proof using Type.
  intros Hs. pose proof (so_chars _ Hs) as Hc.
  assert (∀ p, (∀ c, is_source_char c = true → p c = true) → str_all p source = true) as Hall
    by (intros p Hp; by eapply str_all_mono).
  assert (∀ d, is_source_char d = false → has_char d source = false) as Hno.
  { intros d Hd. unfold has_char. rewrite str_any_all. apply negb_false_iff, Hall. intros c Hcc.
    apply negb_true_iff, bool_decide_false. intros ->. congruence. }
  split_and!; [by apply Hno..|]. apply strip_if_id, Hall. intros c Hcc.
  destruct (is_space c) eqn:E; [|done]. revert Hcc E.
  clear. destruct c as [[] [] [] [] [] [] [] []]; vm_compute; congruence.
Qed.

Lemma response_paras_ok journal texts :
  version_ok version → source_ok source → (0 ≤ first)%Z → (0 ≤ last)%Z →
  Forall2 entry_ok journal texts → Forall (λ j, (0 ≤ j_serial_nrtm j)%Z) journal →
  Forall (para_ok false) (response_paras version source first last journal texts).
Proof using Type.
  intros Hv Hs Hf Hl Hall Hn. destruct (source_clean Hs) as (Hnl & Hcr & _).
  assert (∀ a s, strip_if is_space a = a → a ≠ "" → startswith "#" (a +:+ s) = false →
    has_char ch_nl (a +:+ s) = false → has_char ch_cr (a +:+ s) = false → para_ok false [a +:+ s]) as Hone.
  { intros a s Ha Hne Hh Hn1 Hn2. destruct (strip_if_fix_ends _ a Ha Hne) as [(c & a' & -> & Hc) _].
    assert (∀ t, strip (String c t) ≠ "") as Hst.
    { intros t. unfold strip, strip_if. simpl. rewrite Hc. simpl. rewrite Hc. by destruct (rstrip_if is_space t). }
    split; [by repeat constructor|]. rewrite para_text_one. apply Hst. }
  constructor; [|apply Forall_app; split].
  - apply (Hone "%START" (" Version: " +:+ version +:+ " " +:+ source +:+ " " +:+ str_of_Z first +:+ "-"
      +:+ str_of_Z last)); try done;
      rewrite !has_char_app, ?Hnl, ?Hcr, !str_of_Z_no_char by done; by destruct Hv as [-> | ->].
  - induction Hall as [|j ls journal texts Hj Hall IH]; [constructor|].
    apply Forall_cons in Hn as [Hnj Hn]. simpl. constructor; [|constructor; [apply Hj|by apply IH]].
    unfold operation_line. destruct Hv as [-> | ->]; [by destruct (j_operation j); apply Hone|].
    change (String.eqb "3" "3") with true. cbv iota.
    destruct (j_operation j); apply Hone; try done; rewrite !has_char_app, str_of_Z_no_char; done.
  - constructor; [|done]. apply (Hone "%END" (" " +:+ source)); try done; by rewrite !has_char_app, ?Hnl, ?Hcr.
Qed.

Lemma parse_response header hps journal texts end_ (h : handler) :
  header_ok header hps →
  version_ok version → source_ok source → (0 ≤ first)%Z → (0 ≤ last)%Z →
  Forall2 entry_ok journal texts → Forall (λ j, (0 ≤ j_serial_nrtm j)%Z) journal →
  serials_follow first (j_serial_nrtm <$> journal) →
  (version = "1" → Forall (λ j, (j_serial_nrtm j <= last)%Z) journal) →
  end_ = NL ∨ end_ = "" → h_readonly h = false →
  ∃ h', (if (0 <? last)%Z then record_serial_newest_mirror source last h else (h, Ok tt)) = (h', Ok tt)
    ∧ _split_stream ccfg source
        (nrtm_response scfg version source header first last remove_hashes exempt journal +:+ end_) h
      = (h', Ok (all_entries journal texts started)).
Proof using Type.
  intros Hhead Hv Hs Hf Hl Hall Hn Hfollow Hlast Hend Hro.
  rewrite (response_headed header hps journal texts) by done. unfold _split_stream.
  rewrite (split_document false); [|apply Forall_app; split; [|by apply response_paras_ok]|by destruct hps|done].
  2: { eapply Forall_impl; [apply Hhead|]. by intros ls [? _]. }
  rewrite fmap_app. unfold mbind at 1, st_bind at 1.
  match goal with |- context [split_loop ccfg source ((para_text <$> hps) ++ ?rest) ?c ?p ?h] =>
    destruct (split_loop_comments hps rest c p h (proj1 Hhead)) as [comment ->] end.
  unfold response_paras. rewrite fmap_cons, fmap_app, para_text_one.
  unfold mbind, st_bind. cbn [split_loop]. unfold mbind, st_bind.
  rewrite handle_start by done. cbv iota.
  rewrite split_loop_entries by (try done; by eexists). cbn [fmap list_fmap].
  rewrite handle_end. rewrite end_comment by done.
  pose proof (all_entries_fields journal texts started) as (_ & -> & -> & -> & _).
  cbn [started p_nrtm_source p_last_serial p_version].
  rewrite (proj2 (String.eqb_eq _ _)) by done. rewrite andb_false_r.
  assert ((last <? p_current_op_serial (all_entries journal texts started))%Z && negb (String.eqb version "3") = false)
    as ->.
  { destruct Hv as [-> | ->]; [|by rewrite andb_false_r]. apply andb_false_iff. left. apply Z.ltb_ge.
    rewrite all_entries_current by (by eapply Forall2_length).
    destruct (list.last (j_serial_nrtm <$> journal)) eqn:E; [|simpl; lia].
    apply last_Some_elem_of in E. apply list_elem_of_fmap in E as (j & -> & Hj).
    simpl. by apply (proj1 (Forall_forall _ _) (Hlast eq_refl)). }
  unfold record_serial_newest_mirror, _check_write_permitted, mbind, st_bind. rewrite Hro.
  destruct (0 <? last)%Z; eexists; (split; [reflexivity|]); simpl; by rewrite ?Hro.
Qed.
End RoundTrip.

(** ** Journal ranges *)

Lemma insert_serial_perm j l : insert_serial j l ≡ₚ j :: l.
Proof.
  induction l as [|x l IH]; simpl; [done|]. destruct (_ <=? _)%Z; [done|].
  rewrite IH. apply perm_swap.
Qed.
Lemma sort_serial_perm l : sort_serial l ≡ₚ l.
Proof. induction l as [|x l IH]; simpl; [done|]. by rewrite insert_serial_perm, IH. Qed.

(** Strictly increasing serials. *)
Fixpoint increasing (l : list Z) : Prop :=
  match l with [] => True | n :: l' => Forall (λ m, (n < m)%Z) l' ∧ increasing l' end.

Lemma insert_serial_increasing j l :
  j_serial_nrtm j ∉ j_serial_nrtm <$> l → increasing (j_serial_nrtm <$> l) →
  increasing (j_serial_nrtm <$> insert_serial j l).
Proof.
  induction l as [|x l IH]; intros Hj Hl; [done|]. destruct Hl as [Hx Hl]. simpl.
  destruct (Z.leb_spec (j_serial_nrtm j) (j_serial_nrtm x)) as [Hle|Hgt].
  - csimpl. split; [|done]. assert (j_serial_nrtm j ≠ j_serial_nrtm x) by (intros E; apply Hj; rewrite E; left).
    assert (j_serial_nrtm j < j_serial_nrtm x)%Z as Hlt by lia.
    constructor; [done|]. eapply Forall_impl; [exact Hx|]. intros m Hm. simpl in Hm. lia.
  - csimpl. split; [|apply IH; [csimpl in Hj; set_solver|done]].
    rewrite insert_serial_perm. csimpl. by constructor.
Qed.
Lemma sort_serial_increasing l : NoDup (j_serial_nrtm <$> l) → increasing (j_serial_nrtm <$> sort_serial l).
Proof.
  induction l as [|x l IH]; [done|]. csimpl. intros [Hx Hl]%NoDup_cons.
  apply insert_serial_increasing; [|by apply IH]. by rewrite sort_serial_perm.
Qed.

Lemma increasing_follow first l :
  increasing l → Forall (λ n, (first <= n)%Z) l → serials_follow "3" first l.
Proof.
  revert first. induction l as [|n l IH]; intros first Hi Hf; [done|]. destruct Hi as [Hn Hi].
  apply Forall_cons in Hf as [Hfn Hf]. split; [done|]. apply IH; [done|].
  eapply Forall_impl; [exact Hn|]. intros m Hm. simpl in Hm. lia.
Qed.
Lemma gapless_follow first last l :
  increasing l → Forall (λ n, (first <= n <= last)%Z) l → (∀ n, (first <= n <= last)%Z → n ∈ l) →
  serials_follow "1" first l.
Proof.
  revert first. induction l as [|n l IH]; intros first Hi Hf Hg; [done|]. destruct Hi as [Hn Hi].
  apply Forall_cons in Hf as [Hfn Hf]. rewrite Forall_forall in Hn.
  assert (n = first) as ->.
  { assert (first ∈ n :: l) as [->|Hin]%elem_of_cons by (apply Hg; lia); [done|]. specialize (Hn _ Hin). lia. }
  split; [done|]. apply IH; [done| |].
  - apply Forall_forall. intros m Hm. pose proof (proj1 (Forall_forall _ _) Hf m Hm) as Hm'.
    specialize (Hn m Hm). simpl in *. lia.
  - intros m Hm. assert (m ∈ first :: l) as [->|Hin]%elem_of_cons by (apply Hg; lia); [lia|done].
Qed.

Lemma journal_nrtm_range_elem source start end_ d j :
  strip (str_upper source) = source →
  j ∈ journal_nrtm_range source start end_ d ↔ j ∈ journal_of source d ∧ serial_in_range start end_ j = true.
Proof.
  intros Hs. unfold journal_nrtm_range. rewrite sort_serial_perm, filter_elem, Hs. done.
Qed.
Lemma journal_nrtm_range_increasing source start end_ d :
  strip (str_upper source) = source → NoDup (journal_serials source d) →
  increasing (j_serial_nrtm <$> journal_nrtm_range source start end_ d).
Proof.
  intros Hs Hnd. apply sort_serial_increasing. rewrite Hs. unfold journal_serials in Hnd.
  induction (journal_of source d) as [|j l IH]; [done|]. csimpl in Hnd. apply NoDup_cons in Hnd as [Hj Hnd].
  simpl. destruct (serial_in_range start end_ j); [|by apply IH]. csimpl. constructor; [|by apply IH].
  intros (x & E & Hx)%list_elem_of_fmap. apply Hj. rewrite E. apply list_elem_of_fmap_2. by apply filter_elem in Hx as [? _].
Qed.

Section Mirroring.
Context `{IPyLib} `{Radix node_data} `{redis : Redis} (scfg ccfg : configuration) (uuid : nat → string).
Context (version source : string) (start : Z) (end_requested : option Z) (remove_hashes exempt : bool).

(** What a mirror can rely on: the serials of the journal are distinct and not
    negative; for version 1 no serial is missing, and the status is up to date. *)
Record journal_ok (d : database) : Prop := {
  jo_nodup : NoDup (journal_serials source d);
  jo_nonneg : Forall (λ n, (0 <= n)%Z) (journal_serials source d);
  jo_gapless : version = "1" → ∀ s oldest newest,
    status_of source d = Some s → serial_oldest_journal (s_serials s) = Some oldest →
    serial_newest_journal (s_serials s) = Some newest →
    (∀ n, (oldest <= n <= newest)%Z → n ∈ journal_serials source d)
    ∧ Forall (λ n, (n <= newest)%Z) (journal_serials source d);
  jo_texts : ∀ j, j ∈ journal_of source d → ∃ ls, entry_ok scfg source remove_hashes exempt j ls;
}.

Lemma query_readonly {A} (f : database → A) (h : handler) :
  h_readonly h = true → query_database scfg uuid f h = (h, Ok (f (h_db h))).
Proof using Type. intros Hro. unfold query_database, mbind, st_bind, st_get. simpl. by rewrite Hro. Qed.

(** What the client is told when there is nothing to serve. *)
Definition nothing_served (text : string) : Prop :=
  text = "% Warning: there are no updates available" ∨ text = "% Warning: there are no newer updates available".

Lemma check_range_limit_same last h h' :
  check_range_limit scfg source start last h = (h', Ok tt) → h' = h.
Proof using Type.
  unfold check_range_limit, mbind, st_bind, st_lift, generator_error, st_raise, mret, st_ret.
  destruct (truthy _); [|congruence]. destruct (int_py _); [|congruence]. destruct (_ <? _)%Z; congruence.
Qed.
Lemma check_days_limit_same (h h' : handler) :
  h_readonly h = true → check_days_limit scfg uuid source start h = (h', Ok tt) → h' = h.
Proof using Type.
  intros Hro. unfold check_days_limit, mbind, st_bind, st_lift, generator_error, st_raise, mret, st_ret, st_get.
  destruct (truthy _); [|congruence]. rewrite query_readonly by done.
  destruct (journal_nrtm_range _ _ _ _); [congruence|]. destruct (timedelta_days _); [|congruence].
  destruct (_ <? _)%Z; congruence.
Qed.

(** A text that is served: the available range, and the entries in it. *)
Lemma generate_range_served header er newest (h h' : handler) text :
  response_header scfg source = Ok header → h_readonly h = true →
  generate_range scfg uuid source version start er newest remove_hashes exempt h = (h', Ok text) →
  h' = h ∧ text = nrtm_response scfg version source header start (default newest er) remove_hashes exempt
                    (journal_nrtm_range source start er (h_db h)).
Proof using Type.
  intros Hhead Hro. unfold generate_range. rewrite Hhead. unfold mbind, st_bind at 1.
  destruct (check_range_limit _ _ _ _ h) as [h1 [[]|]] eqn:E1; [|done].
  apply check_range_limit_same in E1 as ->. unfold st_bind at 1.
  destruct (check_days_limit _ _ _ _ h) as [h1 [[]|]] eqn:E2; [|done].
  apply check_days_limit_same in E2 as ->; [|done]. unfold st_bind, st_lift. rewrite query_readonly by done.
  unfold mret, st_ret. intros Hg. simplify_eq. done.
Qed.
Definition range_available (oldest newest : Z) : Prop :=
  (oldest <= start)%Z ∧ match end_requested with Some e => (e <= newest)%Z | None => (start <= newest)%Z end.
Lemma check_available_served header oldest newest (h h' : handler) text :
  response_header scfg source = Ok header → h_readonly h = true →
  check_available scfg uuid source version start end_requested oldest newest remove_hashes exempt h
  = (h', Ok text) →
  h' = h ∧ (nothing_served text ∨ ∃ o n, oldest = Some o ∧ newest = Some n ∧ range_available o n
    ∧ text = nrtm_response scfg version source header start (default n end_requested) remove_hashes exempt
               (journal_nrtm_range source start end_requested (h_db h))).
Proof using Type.
  intros Hhead Hro. unfold check_available, no_serials, generator_error, st_raise, mret, st_ret, range_available.
  destruct oldest as [o|], newest as [n|]; try (intros; simplify_eq; unfold nothing_served; auto; fail).
  destruct (Z.ltb_spec start o); [done|].
  destruct end_requested as [e|].
  - destruct (Z.ltb_spec n e); [done|]. intros Hg.
    apply (generate_range_served header) in Hg as [-> Ht]; [|done..]. eauto 10.
  - destruct (Z.eqb_spec start (n + 1)); [intros; simplify_eq; unfold nothing_served; auto|].
    destruct (Z.ltb_spec n start); [done|]. intros Hg.
    apply (generate_range_served header) in Hg as [-> Ht]; [|done..]. eauto 10.
Qed.
Lemma generate_served header (h h' : handler) text :
  source_ok source → response_header scfg source = Ok header → h_readonly h = true →
  generate scfg uuid source version start end_requested remove_hashes exempt h = (h', Ok text) →
  h' = h ∧ (nothing_served text ∨ ∃ s o n,
    status_of source (h_db h) = Some s ∧ serial_oldest_journal (s_serials s) = Some o
    ∧ serial_newest_journal (s_serials s) = Some n ∧ range_available o n
    ∧ text = nrtm_response scfg version source header start (default n end_requested) remove_hashes exempt
               (journal_nrtm_range source start end_requested (h_db h))).
Proof using Type.
  intros Hs Hhead Hro. unfold generate. destruct (negb _); [done|].
  unfold mbind at 1, st_bind at 1. rewrite query_readonly, (so_upper _ Hs) by done.
  destruct (status_of source (h_db h)) as [s|] eqn:Hst; [|done]. intros Hg.
  assert (check_available scfg uuid source version start end_requested
      (serial_oldest_journal (s_serials s)) (serial_newest_journal (s_serials s)) remove_hashes exempt h
      = (h', Ok text)) as Hc by (destruct end_requested; [destruct (_ && _); [done|]|]; exact Hg).
  apply (check_available_served header) in Hc as [-> [Hn|(o & n & Ho & Hn & Hr & Ht)]]; [auto|eauto 12|done..].
Qed.

(** A response to serve nothing is read as a stream without operations. *)
Lemma nothing_served_parse text (h : handler) :
  nothing_served text → _split_stream ccfg source text h = (h, Ok parser_init).
Proof using Type. intros [-> | ->]; reflexivity. Qed.

(** An operation as the mirror receives it. *)
Definition received (op : NRTMOperation) : DatabaseOperation * option Z * option string :=
  (op_operation op, op_serial op, op_object_text op).
Definition sent (j : journal_row) : DatabaseOperation * option Z * option string :=
  (j_operation j, Some (j_serial_nrtm j), Some (nrtm_text scfg source remove_hashes exempt j)).

Lemma received_sent journal texts :
  Forall2 (entry_ok scfg source remove_hashes exempt) journal texts →
  received <$> zip_with (entry_operation ccfg source) journal texts = sent <$> journal.
Proof using Type.
  induction 1 as [|j ls journal texts [Ht _] Hall IH]; [done|]. csimpl. rewrite IH. f_equal.
  unfold received, sent. simpl. by rewrite Ht.
Qed.

Lemma range_follows (d : database) s o n :
  version_ok version → strip (str_upper source) = source → journal_ok d →
  status_of source d = Some s → serial_oldest_journal (s_serials s) = Some o →
  serial_newest_journal (s_serials s) = Some n → range_available o n →
  let journal := journal_nrtm_range source start end_requested d in
  serials_follow version start (j_serial_nrtm <$> journal)
  ∧ (version = "1" → Forall (λ j, (j_serial_nrtm j <= default n end_requested)%Z) journal).
Proof using Type.
  intros Hv Hs Hd Hst Ho Hn [Hos Hrange] journal.
  pose proof (journal_nrtm_range_increasing source start end_requested d Hs (jo_nodup _ Hd)) as Hinc.
  assert (∀ m, m ∈ j_serial_nrtm <$> journal ↔ m ∈ journal_serials source d ∧ (start <= m)%Z
    ∧ match end_requested with Some e => (m <= e)%Z | None => True end) as Hel.
  { intros m. unfold journal, journal_serials. rewrite !list_elem_of_fmap. setoid_rewrite journal_nrtm_range_elem; [|done].
    unfold serial_in_range. split.
    - intros (j & -> & Hj & Hr). bool_solve. split; [eauto|]. split; [done|]. destruct end_requested; [by bool_solve|done].
    - intros ((j & -> & Hj) & Hr & He). exists j. split; [done|]. split; [done|]. apply andb_true_iff.
      split; [by apply Z.leb_le|]. destruct end_requested; [by apply Z.leb_le|done]. }
  destruct Hv as [Hv|Hv]; rewrite Hv.
  - destruct (jo_gapless _ Hd Hv s o n Hst Ho Hn) as [Hall Hmax]. rewrite Forall_forall in Hmax.
    assert (Forall (λ m, (start <= m <= default n end_requested)%Z) (j_serial_nrtm <$> journal)) as Hb.
    { apply Forall_forall. intros m (Hm & Hlo & Hhi)%Hel. specialize (Hmax m Hm).
      destruct end_requested; simpl in *; lia. }
    split; [|intros _; apply Forall_fmap in Hb; eapply Forall_impl; [exact Hb|]; intros j Hj; apply Hj].
    eapply gapless_follow; [done|exact Hb|]. intros m Hm. apply Hel.
    destruct end_requested; simpl in *; (split; [apply Hall; lia|split; [lia|]]); [lia|done].
  - split; [|done]. apply increasing_follow; [done|]. apply Forall_forall. by intros m (_ & ? & _)%Hel.
Qed.

End Mirroring.

Module NrtmExamples.
Import ConcreteIP ConcreteRadix ConcreteRedis.

Definition ex_uuid (n : nat) : string := str_of_Z (Z.of_nat n).
Definition ex_conf (settings : list (string * pyval)) : configuration :=
  conf_of (VDict [("sources", VDict [("A", VDict (("keep_journal", VBool true) :: settings))])]).
Definition ex_row (serial : Z) (op : DatabaseOperation) : journal_row := {|
  j_serial_global := serial; j_rpsl_pk := "M-MNT"; j_source := "A"; j_origin := jo_auth_change;
  j_serial_nrtm := serial; j_operation := op; j_object_class := "mntner";
  j_object_text := "mntner:         M-MNT" +:+ NL +:+ "auth:           MD5-PW $1$secret" +:+ NL;
  j_timestamp := 0 |}.
Definition ex_serials : serials := {|
  serial_oldest_seen := Some 5%Z; serial_newest_seen := Some 6%Z; serial_oldest_journal := Some 5%Z;
  serial_newest_journal := Some 6%Z; serial_last_export := None; serial_newest_mirror := None |}.
Definition ex_db : database := {|
  db_objects := []; db_suspended := []; db_journal := [ex_row 6 delete_op; ex_row 5 add_or_update];
  db_status := [{| s_source := "A"; s_serials := ex_serials; s_nrtm4_client := client_status_none;
    s_nrtm4_server := server_status_none; s_force_reload := false; s_synchronised_serials := false;
    s_last_error := None; s_last_error_timestamp := None; s_rpsl_data_updated := 0 |}];
  db_roas := []; db_protected := []; db_next_uuid := 10; db_next_global := 7 |}.
Definition ex_handler (readonly : bool) : handler := DatabaseHandler_init (ex_conf []) readonly ex_db 100.
Definition ex_generate (settings : list (string * pyval)) : res string :=
  (generate (ex_conf settings) ex_uuid "A" "1" 5 None true false (ex_handler true)).2.
Definition ex_parse (text : string) : res (list (DatabaseOperation * option Z * option string)) :=
  p ← (_split_stream (ex_conf []) "A" text (ex_handler false)).2; Ok (received <$> p_operations p).
Definition ex_sent_text : string :=
  "mntner:         M-MNT" +:+ NL +:+ "auth:           MD5-PW DummyValue  # Filtered for security" +:+ NL.
Definition ex_response : string :=
  "%START Version: 1 A 5-6" +:+ NL +:+ NL +:+ "ADD" +:+ NL +:+ NL +:+ ex_sent_text +:+ NL
  +:+ "DEL" +:+ NL +:+ NL +:+ ex_sent_text +:+ NL +:+ "%END A".

Lemma ex_journal_ok : journal_ok (ex_conf []) "1" "A" true false ex_db.
Proof.
  split.
  - apply (bool_decide_unpack _). vm_compute. exact I.
  - repeat constructor; vm_compute; discriminate.
  - intros _ s o n Hs Ho Hn. assert (s_serials s = ex_serials) as E by (vm_compute in Hs; by simplify_eq).
    rewrite E in Ho, Hn. simpl in *. simplify_eq.
    change (journal_serials "A" ex_db) with [6; 5]%Z. split; [|by repeat constructor].
    intros m Hm. assert (m = 5 ∨ m = 6)%Z as [-> | ->] by lia; set_solver.
  - change (journal_of "A" ex_db) with [ex_row 6 delete_op; ex_row 5 add_or_update].
    intros j Hj. exists ["mntner:         M-MNT"; "auth:           MD5-PW DummyValue  # Filtered for security"].
    apply elem_of_cons in Hj as [->|Hj]; [|apply list_elem_of_singleton in Hj as ->];
      (split; [vm_compute; reflexivity|split; [|vm_compute; discriminate]]);
      repeat constructor; vm_compute; congruence.
Qed.

Definition headed_conf : configuration :=
  ex_conf [("nrtm_response_header", VStr ("Served by A" +:+ NL +:+ "for mirrors" +:+ NL +:+ NL +:+ "See A" +:+ NL))].
Definition headed_response : string :=
  "%Served by A" +:+ NL +:+ "%for mirrors" +:+ NL +:+ NL +:+ "%See A" +:+ NL +:+ NL +:+ ex_response.
Definition ex_header : list (list string) := [["%Served by A"; "%for mirrors"]; ["%See A"]].
Lemma ex_header_ok : ∃ header, response_header headed_conf "A" = Ok header ∧ header_ok header ex_header.
Proof.
  exists [document ex_header]. split; [vm_compute; reflexivity|]. split; [|reflexivity].
  repeat constructor; vm_compute; congruence.
Qed.
Lemma headed_journal_ok : journal_ok headed_conf "1" "A" true false ex_db.
Proof. destruct ex_journal_ok as [H1 H2 H3 H4]. split; [exact H1|exact H2|exact H3|exact H4]. Qed.

(** A header without a final line break joins the START line in one paragraph: the
    parser then finds operations before any START line. *)
Example header_hides_start :
  ex_generate [("nrtm_response_header", VStr "Served by A")] = Ok ("%Served by A" +:+ NL +:+ ex_response)
  ∧ ex_parse ("%Served by A" +:+ NL +:+ ex_response)
    = Raise (ValueError ("Encountered operation before valid NRTM START line, paragraph encountered: ADD" +:+ NL))
  ∧ ex_parse ("%Served by A" +:+ NL +:+ NL +:+ ex_response)
    = Ok [(add_or_update, Some 5%Z, Some ex_sent_text); (delete_op, Some 6%Z, Some ex_sent_text)].
Proof. repeat split; vm_compute; reflexivity. Qed.

(** A stream that ends after an ADD line raises [StopIteration], not [ValueError]. *)
Example truncated_stream :
  ex_parse ("%START Version: 1 A 5-6" +:+ NL +:+ NL +:+ "ADD" +:+ NL) = Raise StopIteration.
Proof. vm_compute. reflexivity. Qed.
End NrtmExamples.
