(* ===== verification/Importers.v ===== *)
(** * Importing mirror files ([irrd/mirroring/parsers.py])

    The two file parsers, on the lines of the file.  The order in which Python
    iterates over a set is a parameter.  The runs that use the parsers are in
    [MirrorRuns.v]. *)
From S2P Require Import Prelude PyStr Conf Net Models Text Rpki ScopeFilter Fields RpslObjects RpslParser Queries RoutePref Database DatabaseHandler Nrtm.

Section Importers.
Context `{IPyLib} `{Radix node_data} `{redis : Redis} `{Datrie (list roa_tuple)} (cfg : configuration).
Context (cidr_text : cidr → string) (collate_lt : string → string → bool).
Context (uuid : nat → string) (timestamp_text : Z → string).
Context (gpg_import_keys : string → list string * option string) (gpg_uids : string → list string).

(** ** Parsing one object *)

Record import_parser := {
  ip_source : string;
  ip_direct_error_return : bool;
  ip_roa_validator : option BulkRouteROAValidator;
  ip_scopefilter_validator : ScopeFilterValidator;
  ip_strict_validation_key_cert : bool;
  ip_object_class_filter : option (list string);
}.
Record import_counts := {
  obj_parsed : Z;
  obj_errors : Z;
  obj_ignored_class : Z;
  obj_unknown : Z;
  unknown_object_classes : list string;
}.
Definition counts_zero : import_counts := {|
  obj_parsed := 0; obj_errors := 0; obj_ignored_class := 0; obj_unknown := 0; unknown_object_classes := [] |}.
Definition count_parsed (n : Z) (c : import_counts) : import_counts := {|
  obj_parsed := obj_parsed c + n; obj_errors := obj_errors c; obj_ignored_class := obj_ignored_class c;
  obj_unknown := obj_unknown c; unknown_object_classes := unknown_object_classes c |}.
Definition count_error (c : import_counts) : import_counts := {|
  obj_parsed := obj_parsed c; obj_errors := obj_errors c + 1; obj_ignored_class := obj_ignored_class c;
  obj_unknown := obj_unknown c; unknown_object_classes := unknown_object_classes c |}.
Definition count_ignored (c : import_counts) : import_counts := {|
  obj_parsed := obj_parsed c; obj_errors := obj_errors c; obj_ignored_class := obj_ignored_class c + 1;
  obj_unknown := obj_unknown c; unknown_object_classes := unknown_object_classes c |}.
Definition count_unknown (cls : string) (c : import_counts) : import_counts := {|
  obj_parsed := obj_parsed c; obj_errors := obj_errors c; obj_ignored_class := obj_ignored_class c;
  obj_unknown := obj_unknown c + 1; unknown_object_classes := oset_add (unknown_object_classes c) cls |}.

Definition import_parser_init (source : string) (direct_error_return : bool)
    (roa_validator : option BulkRouteROAValidator) : res import_parser :=
  filters ← load_filters cfg;
  Ok {| ip_source := source; ip_direct_error_return := direct_error_return; ip_roa_validator := roa_validator;
        ip_scopefilter_validator := filters;
        ip_strict_validation_key_cert := truthy (source_setting cfg source "strict_import_keycert_objects");
        ip_object_class_filter := get_object_class_filter_for_source cfg source |}.

(** An object that is refused: an exception, or a recorded error. *)
Definition refuse (p : import_parser) (c : import_counts) (msg : string)
  : M (import_counts * option stored_object) :=
  if ip_direct_error_return p then st_raise (RPSLImportError msg)
  else _ ← record_mirror_error (ip_source p) msg; mret (count_error c, None).

(** The status from the bulk validator, for routes with a prefix length and an
    AS number other than zero. *)
Definition import_rpki_status (p : import_parser) (o : RPSLObject) : res RPKIStatus :=
  match ip_roa_validator p, md_prefix_length (o_metadata o), nonzero_asn o with
  | Some validator, Some len, Some asn =>
      if c_is_route (o_class o) && negb (len =? 0)%Z then
        src ← source o;
        match md_ip_first (o_metadata o) with
        | Some ip_first => bulk_validate_route validator (ip_str ip_first) len asn src
        | None => Raise AttributeError
        end
      else Ok rpki_not_found
  | _, _, _ => Ok rpki_not_found
  end.
Definition import_statuses (p : import_parser) (o : RPSLObject) : res stored_object :=
  rpki ← import_rpki_status p o;
  src ← source o;
  '(scope, _) ← validate_rpsl_object cfg (ip_scopefilter_validator p) src (o_class_name o)
                  (md_prefix (o_metadata o)) (md_asn_first (o_metadata o));
  Ok {| so_object := o; so_rpki_status := rpki; so_scopefilter_status := scope;
        so_route_preference_status := rp_visible |}.

Definition accept_object (p : import_parser) (c : import_counts) (o : RPSLObject) (rpsl_text : string)
  : M (import_counts * option stored_object) :=
  if has_errors (o_messages o) then refuse p c (parsing_errors_message o rpsl_text)
  else
    src ← st_lift (source o);
    if negb (String.eqb src (ip_source p))
    then refuse p c ("Invalid source " +:+ src +:+ " for object " +:+ pk o +:+ ", expected " +:+ ip_source p)
    else if class_filtered (ip_object_class_filter p) (o_class_name o) then mret (count_ignored c, None)
    else so ← st_lift (import_statuses p o); mret (c, Some so).

Definition parse_object (p : import_parser) (c : import_counts) (rpsl_text : string)
  : M (import_counts * option stored_object) :=
  let c := count_parsed 1 c in
  match parse_mirrored cfg gpg_import_keys gpg_uids (ip_strict_validation_key_cert p) (strip rpsl_text) None with
  | Raise (UnknownRPSLObjectClassException _ cls) =>
      if startswith "*xx" cls then mret (count_parsed (-1) c, None)
      else if ip_direct_error_return p
      then st_raise (RPSLImportError ("Unknown object class: " +:+ cls))
      else mret (count_unknown cls c, None)
  | Raise e => st_raise e
  | Ok o => accept_object p c o rpsl_text
  end.

(** ** Importing a file as additions *)

(** [try: ... except RPSLImportError as e: return e.message]. *)
Definition import_message {A} (m : M A) : M (string + A) := λ h,
  match m h with
  | (h', Ok a) => (h', Ok (inr a))
  | (h', Raise (RPSLImportError msg)) => (h', Ok (inl msg))
  | (h', Raise e) => (h', Raise e)
  end.

(** The loop over the paragraphs; [None] when it ran to the end. *)
Fixpoint import_paragraphs (p : import_parser) (c : import_counts) (paragraphs : list string)
  : M (import_counts * option string) :=
  match paragraphs with
  | [] => mret (c, None)
  | paragraph :: paragraphs' =>
      r ← import_message (parse_object p c paragraph);
      match r with
      | inl msg =>
          if ip_direct_error_return p then mret (c, Some msg) else import_paragraphs p c paragraphs'
      | inr (c, Some o) =>
          _ ← upsert_rpsl_object cfg uuid timestamp_text o jo_mirror false None None;
          import_paragraphs p c paragraphs'
      | inr (c, None) => import_paragraphs p c paragraphs'
      end
  end.
(** [MirrorFileImportParser.run_import] on the lines of the file. *)
Definition run_import (p : import_parser) (serial : option Z) (lines : list string)
  : M (import_counts * option string) :=
  '(c, msg) ← import_paragraphs p counts_zero (split_paragraphs_rpsl (inr lines) true);
  match msg, serial with
  | None, Some n => _ ← (if (n =? 0)%Z then mret tt else record_serial_seen (ip_source p) n); mret (c, None)
  | _, _ => mret (c, msg)
  end.

(** ** Importing a file as the new state of the source *)

(** The objects of the file, without writing them. *)
Fixpoint read_paragraphs (p : import_parser) (c : import_counts) (paragraphs : list string)
  : M (string + import_counts * list stored_object) :=
  match paragraphs with
  | [] => mret (inr (c, []))
  | paragraph :: paragraphs' =>
      r ← import_message (parse_object p c paragraph);
      match r with
      | inl msg => if ip_direct_error_return p then mret (inl msg) else read_paragraphs p c paragraphs'
      | inr (c, o) =>
          rest ← read_paragraphs p c paragraphs';
          mret (match rest, o with
                | inr (c, objs), Some o => inr (c, o :: objs)
                | rest, _ => rest
                end)
      end
  end.

Definition object_pk (o : stored_object) : string * string := (pk (so_object o), o_class_name (so_object o)).
Definition row_pk (r : rpsl_row) : string * string := (r_rpsl_pk r, r_object_class r).
Definition file_objs_by_pk (objs : list stored_object) : list ((string * string) * stored_object) :=
  foldl (λ d o, dict_set (object_pk o) o d) [] objs.
Definition source_rows (source : string) : M (list rpsl_row) :=
  q ← st_lift (sources (RPSLDatabaseQuery false false) [source]);
  execute_query_objects cfg collate_lt uuid q.

(** The order of [for ... in deleted_pks]. *)
Context (set_order : list (string * string) → list (string * string)).

Definition upsert_synthetic (o : stored_object) : M unit :=
  upsert_rpsl_object cfg uuid timestamp_text o jo_synthetic_nrtm false None None.
Definition delete_synthetic (source : string) (k : string * string) : M unit :=
  delete_rpsl_object cfg uuid jo_synthetic_nrtm k.1 source k.2 None false.
(** One row of the last loop: whether its object was written again. *)
Definition update_modified (file_objs : list ((string * string) * stored_object)) (r : rpsl_row) : M Z :=
  match dict_get (row_pk r) file_objs with
  | None => mret 0%Z
  | Some o =>
      text ← st_lift (render_rpsl_text cfg (so_object o) None);
      if String.eqb text (remove_last_modified (r_object_text r)) then mret 0%Z
      else _ ← upsert_synthetic o; mret 1%Z
  end.
Fixpoint update_rows (file_objs : list ((string * string) * stored_object)) (rows : list rpsl_row) : M Z :=
  match rows with
  | [] => mret 0%Z
  | r :: rows' => n ← update_modified file_objs r; n' ← update_rows file_objs rows'; mret (n + n')%Z
  end.
Record update_counts := {
  obj_new : Z;
  obj_modified : Z;
  obj_retained : Z;
  obj_deleted : Z;
}.
Definition update_source (source : string) (objs : list stored_object) : M update_counts :=
  rows ← source_rows source;
  let current_pks := oset_update [] (row_pk <$> rows) in
  let file_objs := file_objs_by_pk objs in
  let file_pks := file_objs.*1 in
  let new_objs := List.filter (λ x : (string * string) * stored_object, negb (bool_decide (x.1 ∈ current_pks))) file_objs in
  let deleted_pks := List.filter (λ k, negb (bool_decide (k ∈ file_pks))) current_pks in
  let retained_pks := List.filter (λ k, bool_decide (k ∈ current_pks)) file_pks in
  _ ← st_iter upsert_synthetic new_objs.*2;
  _ ← st_iter (delete_synthetic source) (set_order deleted_pks);
  rows ← source_rows source;
  modified ← update_rows file_objs rows;
  mret {| obj_new := Z.of_nat (length new_objs); obj_modified := modified;
          obj_retained := Z.of_nat (length retained_pks); obj_deleted := Z.of_nat (length deleted_pks) |}.
(** [MirrorUpdateFileImportParser.run_import] on the lines of the file. *)
Definition run_update_import (p : import_parser) (lines : list string)
  : M (string + import_counts * update_counts) :=
  r ← read_paragraphs p counts_zero (split_paragraphs_rpsl (inr lines) true);
  match r with
  | inl msg => mret (inl msg)
  | inr (c, objs) => u ← update_source (ip_source p) objs; mret (inr (c, u))
  end.

End Importers.
