(* ===== verification/ImportersTheory.v ===== *)
(** * Correctness of file imports *)
From S2P Require Import Prelude PyStr Conf Net Models Text Rpki RpkiTheory ScopeFilter Fields RpslObjects RpslParser Queries RoutePref RoutePrefTheory Database DatabaseHandler StorageTheory JournalTheory StoreTheory Nrtm Importers.

Section Update.
Context `{IPyLib} `{Radix node_data} `{redis : Redis} (cfg : configuration).
Context (collate_lt : string → string → bool) (uuid : nat → string) (timestamp_text : Z → string).
Context (source : string).

(** Objects as [parse_object] returns them. *)
Definition of_this_source (o : stored_object) : Prop := o_parsed_data (so_object o) !! "source" = Some (PStr source).
Definition source_key (k : string * string) : string * string * string := (k.1, source, k.2).
Lemma stored_key_source o : of_this_source o → stored_key o = source_key (object_pk o).
Proof. unfold of_this_source, stored_key. by intros ->. Qed.
Lemma source_key_inj k k' : source_key k = source_key k' → k = k'.
Proof. destruct k, k'. by intros [= -> ->]. Qed.

(** [t] is a text of the object as written at time [now]. *)
Definition written (now : Z) (o : stored_object) (t : string) : Prop :=
  render_rpsl_text cfg (so_object o) (Some (timestamp_text now)) = Ok t.
(** The update leaves a stored text alone when it is the text of the file. *)
Definition unchanged (o : stored_object) (t : string) : Prop :=
  render_rpsl_text cfg (so_object o) None = Ok (remove_last_modified t).

(** Some objects are written: each key holds a written text or what it held. *)
Definition writes (now : Z) (os : list stored_object) (m m' : store) : Prop :=
  ∀ k, (∃ o t, o ∈ os ∧ stored_key o = k ∧ written now o t ∧ m' !! k = Some t)
       ∨ ((∀ o, o ∈ os → stored_key o ≠ k) ∧ m' !! k = m !! k).

Lemma upserts_store os h h' :
  store_ok h → st_iter (upsert_synthetic cfg uuid timestamp_text) os h = (h', Ok tt) →
  writes (h_now h) os (stored h) (stored h') ∧ store_ok h' ∧ h_now h' = h_now h.
Proof.
  revert h. induction os as [|o os IH]; intros h Hok; [intros [= <-]; split; [|done]; right; set_solver|].
  intros (h1 & [] & Hu & Hrest)%st_bind_Ok. unfold upsert_synthetic in Hu.
  destruct (upsert_store _ _ _ _ _ _ _ _ _ _ Hok Hu) as (t & Ht & E1 & Hok1 & N1).
  destruct (IH _ Hok1 Hrest) as (Hw & Hok' & N'). rewrite N1 in *. split; [|done]. intros k.
  destruct (Hw k) as [(o' & t' & ? & ? & ? & ?)|[Hne E]]; [left; exists o', t'; set_solver|].
  rewrite E1 in E. destruct (decide (stored_key o = k)) as [Hk|Hk].
  - left. exists o, t. subst. rewrite lookup_insert_eq in E. set_solver.
  - right. rewrite lookup_insert_ne in E by done. set_solver.
Qed.

Lemma deletes_store ks h h' :
  store_ok h → st_iter (delete_synthetic cfg uuid source) ks h = (h', Ok tt) →
  (∀ k, stored h' !! k = if decide (k ∈ source_key <$> ks) then None else stored h !! k)
  ∧ store_ok h' ∧ h_now h' = h_now h.
Proof.
  revert h. induction ks as [|k0 ks IH]; intros h Hok; [by intros [= <-]|].
  intros (h1 & [] & Hd & Hrest)%st_bind_Ok. unfold delete_synthetic in Hd. destruct (delete_store _ _ _ _ _ _ _ _ _ _ Hok Hd) as (E1 & Hok1 & N1).
  destruct (IH _ Hok1 Hrest) as (Hw & Hok' & N'). rewrite N1 in *. split; [|done]. intros k. rewrite Hw, E1.
  change (source_key <$> k0 :: ks) with (source_key k0 :: (source_key <$> ks)).
  destruct (decide (k = source_key k0)) as [->|Hne].
  - rewrite (decide_True (P := _ ∈ _ :: _)) by set_solver. rewrite lookup_delete_eq. by case_decide.
  - rewrite lookup_delete_ne by done. repeat case_decide; set_solver.
Qed.

(** The rows of the source, after whatever waited has been written. *)
Lemma source_rows_store h h' rows :
  strip (str_upper source) = source → store_ok h → h_readonly h = false →
  source_rows cfg collate_lt uuid source h = (h', Ok rows) →
  stored h' = stored h ∧ store_ok h' ∧ h_now h' = h_now h
  ∧ (∀ r, r ∈ rows → stored h' !! source_key (row_pk r) = Some (r_object_text r))
  ∧ (∀ k t, stored h' !! source_key k = Some t → ∃ r, r ∈ rows ∧ row_pk r = k).
Proof.
  intros Hs Hok Hro. unfold source_rows, execute_query_objects. unfold mbind at 1, st_bind at 1.
  intros (h0 & hh & [= <- <-] & (h1 & [] & Hflush & (h2 & hh' & [= <- <-] & [= <- <-])%st_bind_Ok)%st_bind_Ok)%st_bind_Ok.
  rewrite Hro in Hflush. destruct (flush_empties _ _ _ _ Hok Hflush) as (<- & Hok1 & <- & Hb).
  assert (∀ r, r ∈ execute_query collate_lt
      {| q_where := [λ r, bool_decide (r_source r ∈ [strip (str_upper source)])]; q_one_level := None;
         q_frozen := false; q_sources_list := [strip (str_upper source)]; q_object_classes := [];
         q_ordered_by_sources := false; q_enable_ordering := false; q_limit := None |}
      (db_objects (h_db h1)) ↔ r ∈ db_objects (h_db h1) ∧ r_source r = source) as Hq.
  { intros r. unfold execute_query, finalise_statement, selected. simpl. rewrite filter_elem, !andb_true_r, Hs.
    rewrite bool_decide_eq_true, list_elem_of_singleton. done. }
  split_and!; [done..| |].
  - intros r [Hr Hsrc]%Hq. rewrite stored_empty_buffer by done.
    assert (source_key (row_pk r) = row_key r) as -> by (unfold source_key, row_key; by rewrite Hsrc).
    by rewrite (find_row_elem _ _ (so_keys _ Hok1) Hr).
  - intros [p c] t. rewrite stored_empty_buffer by done. destruct (find_row _ _) as [r|] eqn:E; [|done].
    intros _. apply find_row_Some in E as [Hr E]. unfold row_key, source_key in E. injection E as E1 E2 E3.
    exists r. split; [by apply Hq|]. unfold row_pk. by rewrite E1, E3.
Qed.
Lemma update_rows_store file_objs rows n h h' :
  (∀ r o, r ∈ rows → dict_get (row_pk r) file_objs = Some o → stored_key o = source_key (row_pk r)) →
  store_ok h → update_rows cfg uuid timestamp_text file_objs rows h = (h', Ok n) →
  store_ok h' ∧ h_now h' = h_now h ∧
  ∀ k, (∃ r o t, r ∈ rows ∧ dict_get (row_pk r) file_objs = Some o ∧ stored_key o = k
                 ∧ written (h_now h) o t ∧ stored h' !! k = Some t)
       ∨ (stored h' !! k = stored h !! k ∧ ∀ r o, r ∈ rows → dict_get (row_pk r) file_objs = Some o →
           stored_key o = k → unchanged o (r_object_text r)).
Proof.
  revert h n. induction rows as [|r rows IH]; intros h n Hkey Hok.
  { intros [= <- <-]. split_and!; [done..|]. right. split; [done|]. intros r o Hr. by apply elem_of_nil in Hr. }
  intros (h1 & n1 & Hm & (h2 & n2 & Hrest & [= <- _])%st_bind_Ok)%st_bind_Ok.
  assert (∀ r o, r ∈ rows → dict_get (row_pk r) file_objs = Some o → stored_key o = source_key (row_pk r)) as Hkey'
    by (intros; apply Hkey; [set_solver|done]).
  unfold update_modified in Hm. destruct (dict_get (row_pk r) file_objs) as [o|] eqn:Eo.
  - apply st_bind_Ok in Hm as (h3 & text & [-> Htext]%st_lift_Ok & Hm).
    destruct (String.eqb_spec text (remove_last_modified (r_object_text r))) as [Et|Et].
    + injection Hm as <- <-. destruct (IH _ _ Hkey' Hok Hrest) as (Hok' & N' & Hk). split_and!; [done..|].
      intros k. destruct (Hk k) as [(r' & o' & t' & ? & ? & ? & ? & ?)|[E Hu]].
      * left. exists r', o', t'. set_solver.
      * right. split; [done|]. intros r' o' [->|Hr']%elem_of_cons Ho' Ek; [|by eapply Hu].
        unfold unchanged. congruence.
    + apply st_bind_Ok in Hm as (h4 & [] & Hu & [= <- <-]). unfold upsert_synthetic in Hu.
      destruct (upsert_store _ _ _ _ _ _ _ _ _ _ Hok Hu) as (t & Ht & E1 & Hok1 & N1).
      destruct (IH _ _ Hkey' Hok1 Hrest) as (Hok' & N' & Hk). rewrite N1 in *. split_and!; [done..|].
      intros k. destruct (Hk k) as [(r' & o' & t' & ? & ? & ? & ? & ?)|[E Hun]].
      * left. exists r', o', t'. set_solver.
      * rewrite E1 in E. destruct (decide (stored_key o = k)) as [Hk'|Hk'].
        -- left. exists r, o, t. rewrite Hk', lookup_insert_eq in E. set_solver.
        -- right. rewrite lookup_insert_ne in E by done. split; [done|].
           intros r' o' [->|Hr']%elem_of_cons Ho' Ek; [congruence|by eapply Hun].
  - injection Hm as <- <-. destruct (IH _ _ Hkey' Hok Hrest) as (Hok' & N' & Hk). split_and!; [done..|].
    intros k. destruct (Hk k) as [(r' & o' & t' & ? & ? & ? & ? & ?)|[E Hu]].
    + left. exists r', o', t'. set_solver.
    + right. split; [done|]. intros r' o' [->|Hr']%elem_of_cons Ho' Ek; [congruence|by eapply Hu].
Qed.

(** The file's objects by key: the last one of each key. *)
Lemma file_objs_wf objs :
  NoDup (file_objs_by_pk objs).*1 ∧
  ∀ k o, dict_get k (file_objs_by_pk objs) = Some o → object_pk o = k ∧ o ∈ objs.
Proof.
  unfold file_objs_by_pk.
  assert (∀ d, NoDup d.*1 → (∀ k o, dict_get k d = Some o → object_pk o = k ∧ o ∈ objs) →
    ∀ l, (∀ o, o ∈ l → o ∈ objs) →
    NoDup (foldl (λ d o, dict_set (object_pk o) o d) d l).*1 ∧
    ∀ k o, dict_get k (foldl (λ d o, dict_set (object_pk o) o d) d l) = Some o → object_pk o = k ∧ o ∈ objs) as Hg.
  { intros d Hnd Hd l. revert d Hnd Hd. induction l as [|o l IH]; intros d Hnd Hd Hl; [done|]. simpl.
    apply IH; [by apply dict_set_NoDup| |set_solver]. intros k o'. rewrite dict_set_get.
    case_decide as Ek; [intros [= ->]; subst; set_solver|apply Hd]. }
  apply Hg; [constructor|done|done].
Qed.

Context (set_order : list (string * string) → list (string * string)).

Lemma source_rows_mode h h' rows :
  source_rows cfg collate_lt uuid source h = (h', Ok rows) → h_readonly h' = h_readonly h.
Proof.
  assert (keeps (same_field h_readonly) (source_rows cfg collate_lt uuid source)) as Hk; [|intros Hr; by apply (Hk _ _ _ Hr)].
  apply (keeps_bind _); [apply (keeps_lift _)|]. intros q. (apply query_mode; apply _).
Qed.
Lemma upserts_mode os h h' :
  st_iter (upsert_synthetic cfg uuid timestamp_text) os h = (h', Ok tt) → h_readonly h' = h_readonly h.
Proof.
  assert (keeps (same_field h_readonly) (st_iter (upsert_synthetic cfg uuid timestamp_text) os)) as Hk;
    [|intros Hr; by apply (Hk _ _ _ Hr)]. apply (keeps_iter _). intros o. (apply upsert_mode; apply _).
Qed.
Lemma deletes_mode ks h h' :
  st_iter (delete_synthetic cfg uuid source) ks h = (h', Ok tt) → h_readonly h' = h_readonly h.
Proof.
  assert (keeps (same_field h_readonly) (st_iter (delete_synthetic cfg uuid source) ks)) as Hk;
    [|intros Hr; by apply (Hk _ _ _ Hr)]. apply (keeps_iter _). intros k. (apply delete_mode; apply _).
Qed.

(** After the new objects are written and the missing ones deleted, the source
    has exactly the keys of the file. *)
Lemma update_keys (objs : list stored_object) (rows : list rpsl_row) (now : Z) (m m1 m2 : store) :
  let current : list (string * string) := oset_update [] (row_pk <$> rows) in
  let file := file_objs_by_pk objs in
  (∀ l k, k ∈ set_order l ↔ k ∈ l) → Forall of_this_source objs →
  (∀ k t, m !! source_key k = Some t → ∃ r, r ∈ rows ∧ row_pk r = k) →
  (∀ r, r ∈ rows → is_Some (m !! source_key (row_pk r))) →
  writes now (List.filter (λ x : (string * string) * stored_object, negb (bool_decide (x.1 ∈ current))) file).*2 m m1 →
  (∀ k, m2 !! k = if decide (k ∈ source_key <$> set_order (List.filter (λ k, negb (bool_decide (k ∈ file.*1))) current))
                  then None else m1 !! k) →
  (∀ k, k.1.2 ≠ source → m2 !! k = m !! k) ∧
  ∀ k, match dict_get k file with
       | None => m2 !! source_key k = None
       | Some o => ∃ t, m2 !! source_key k = Some t ∧ (written now o t ∨ m !! source_key k = Some t)
       end.
Proof.
  intros current file Hset Hsrc Hrows Hrows' Hw Hd. destruct (file_objs_wf objs) as [Hnd Hfile]. fold file in Hnd, Hfile.
  assert (∀ k, k ∈ current ↔ is_Some (m !! source_key k)) as Hcur.
  { intros k. unfold current. rewrite oset_update_elem. split.
    - intros [Hn|(r & -> & Hr)%list_elem_of_fmap]; [by apply elem_of_nil in Hn|]. by apply Hrows'.
    - intros [t Ht]. destruct (Hrows k t Ht) as (r & Hr & <-). right. by apply list_elem_of_fmap_2. }
  assert (∀ o k, o ∈ (List.filter (λ x : (string * string) * stored_object, negb (bool_decide (x.1 ∈ current))) file).*2 →
    stored_key o = source_key k → dict_get k file = Some o ∧ k ∉ current) as Hnew.
  { intros o k ([k' o'] & -> & Hin)%list_elem_of_fmap Ek. apply filter_elem in Hin as [Hin Hc]. simpl in *.
    apply (dict_get_elem _ _ _ Hnd) in Hin. destruct (Hfile _ _ Hin) as [<- Ho].
    rewrite stored_key_source in Ek by (by eapply Forall_forall). apply source_key_inj in Ek as <-.
    split; [done|]. apply negb_true_iff in Hc. by apply bool_decide_eq_false in Hc. }
  assert (∀ k, k ∈ set_order (List.filter (λ k, negb (bool_decide (k ∈ file.*1))) current)
    ↔ k ∈ current ∧ dict_get k file = None) as Hdel.
  { intros k. rewrite Hset, filter_elem, negb_true_iff, bool_decide_eq_false. split; intros [Hc Hk]; split; try done.
    - destruct (dict_get k file) as [o|] eqn:E; [|done]. apply (dict_get_elem _ _ _ Hnd) in E.
      destruct Hk. by apply (list_elem_of_fmap_2 fst) in E.
    - intros ([k' o] & -> & Hin)%list_elem_of_fmap. apply (dict_get_elem _ _ _ Hnd) in Hin. simpl in Hk. congruence. }
  assert (∀ k, source_key k ∈ source_key <$> set_order (List.filter (λ k, negb (bool_decide (k ∈ file.*1))) current)
    ↔ k ∈ current ∧ dict_get k file = None) as Hdel'.
  { intros k. rewrite <- Hdel, list_elem_of_fmap. split; [|eauto].
    intros (k' & E & Hk'). apply source_key_inj in E. by subst. }
  split.
  - intros k Hk. rewrite Hd, decide_False by (intros (k' & -> & _)%list_elem_of_fmap; done).
    destruct (Hw k) as [(o & t & Ho & Ek & _)|[_ E]]; [|done]. exfalso. apply Hk. subst k.
    apply list_elem_of_fmap in Ho as ([k' o'] & -> & Hin). apply filter_elem in Hin as [Hin _].
    apply (dict_get_elem _ _ _ Hnd) in Hin. destruct (Hfile _ _ Hin) as [_ Ho].
    rewrite stored_key_source by (by eapply Forall_forall). done.
  - intros k. rewrite Hd. destruct (dict_get k file) as [o|] eqn:E.
    + rewrite decide_False by (rewrite Hdel'; intros [_ [=]]; congruence).
      destruct (Hw (source_key k)) as [(o' & t & Ho' & Ek & Ht & Hm1)|[Hne Hm1]].
      * destruct (Hnew _ _ Ho' Ek) as [E' _]. assert (o' = o) as -> by congruence. eauto.
      * rewrite Hm1. destruct (decide (k ∈ current)) as [Hc|Hc].
        -- apply Hcur in Hc as [t Ht]. eauto.
        -- exfalso. apply (Hne o).
           ++ apply list_elem_of_fmap. exists (k, o). split; [done|]. apply filter_elem. simpl.
              rewrite bool_decide_false by done. split; [|done]. by apply dict_get_elem.
           ++ destruct (Hfile _ _ E) as [<- Ho]. apply stored_key_source. by eapply Forall_forall.
    + case_decide as Hk; [done|]. rewrite Hdel' in Hk.
      destruct (Hw (source_key k)) as [(o' & t & Ho' & Ek & _)|[_ ->]];
        [destruct (Hnew _ _ Ho' Ek); congruence|].
      destruct (m !! source_key k) eqn:Em; [|done]. exfalso. apply Hk. split; [|done]. apply Hcur. by rewrite Em.
Qed.

(** After [update_source] the source holds exactly the objects of the file. *)
Definition holds_file (objs : list stored_object) (now : Z) (m m' : store) : Prop :=
  (∀ k, k.1.2 ≠ source → m' !! k = m !! k) ∧
  ∀ k, match dict_get k (file_objs_by_pk objs) with
       | None => m' !! source_key k = None
       | Some o => ∃ t, m' !! source_key k = Some t
                     ∧ (written now o t ∨ m !! source_key k = Some t ∧ unchanged o t)
       end.
Lemma update_source_exact objs h h' u :
  strip (str_upper source) = source → (∀ l k, k ∈ set_order l ↔ k ∈ l) →
  Forall of_this_source objs → store_ok h → h_readonly h = false →
  update_source cfg collate_lt uuid timestamp_text set_order source objs h = (h', Ok u) →
  store_ok h' ∧ holds_file objs (h_now h) (stored h) (stored h').
Proof.
  intros Hs Hset Hsrc Hok Hro (h1 & rows & Hq & (h2 & [] & Hnew & (h3 & [] & Hdel &
    (h4 & rows' & Hq' & (h5 & n & Hupd & [= <- _])%st_bind_Ok)%st_bind_Ok)%st_bind_Ok)%st_bind_Ok)%st_bind_Ok.
  destruct (source_rows_store _ _ _ Hs Hok Hro Hq) as (E1 & Hok1 & N1 & Hr1 & Hr1').
  destruct (upserts_store _ _ _ Hok1 Hnew) as (Hw & Hok2 & N2).
  destruct (deletes_store _ _ _ Hok2 Hdel) as (Hd & Hok3 & N3).
  assert (h_readonly h3 = false) as Hro3
    by (rewrite (deletes_mode _ _ _ Hdel), (upserts_mode _ _ _ Hnew), (source_rows_mode _ _ _ Hq); done).
  destruct (source_rows_store _ _ _ Hs Hok3 Hro3 Hq') as (E4 & Hok4 & N4 & Hr4 & Hr4').
  destruct (update_keys objs rows (h_now h1) (stored h1) (stored h2) (stored h3) Hset Hsrc Hr1'
    ltac:(intros r Hr; by rewrite (Hr1 r Hr)) Hw Hd) as [Hother Hkeys].
  destruct (file_objs_wf objs) as [_ Hfile].
  destruct (update_rows_store (file_objs_by_pk objs) rows' n h4 h5) as (Hok5 & N5 & Hk5); [|done..|].
  { intros r o _ Ho. destruct (Hfile _ _ Ho) as [<- Hin]. apply stored_key_source. by eapply Forall_forall. }
  rewrite N4, N3, N2, N1 in Hk5. rewrite E1 in Hother, Hkeys. rewrite N1 in Hkeys. rewrite E4 in Hk5.
  split; [done|]. split.
  - intros k Hk. rewrite <- Hother by done. destruct (Hk5 k) as [(r & o & t & _ & Ho & Ek & _)|[E _]]; [|done].
    exfalso. apply Hk. subst k. destruct (Hfile _ _ Ho) as [_ Hin].
    rewrite stored_key_source by (by eapply Forall_forall). done.
  - intros k. specialize (Hkeys k). destruct (dict_get k _) as [o|] eqn:E.
    + destruct Hkeys as (t & Ht & Hor). destruct (Hk5 (source_key k)) as [(r & o' & t' & _ & Ho & Ek & Hwr & Hm)|[Em Hun]].
      * destruct (Hfile _ _ Ho) as [Ek' Hin]. rewrite stored_key_source in Ek by (by eapply Forall_forall).
        apply source_key_inj in Ek. rewrite Ek in Ek'. assert (o' = o) as -> by congruence. eauto.
      * exists t. rewrite Em. split; [done|]. destruct Hor as [Hor|Hor]; [by left|right]. split; [done|].
        rewrite E4 in Hr4'. destruct (Hr4' k t Ht) as (r & Hr & Ek). rewrite <- Ek in E.
        pose proof (Hr4 r Hr) as Htr. rewrite E4, Ek, Ht in Htr. injection Htr as ->.
        apply (Hun r o Hr E). destruct (Hfile _ _ E) as [Eo Hin].
        rewrite stored_key_source by (by eapply Forall_forall). by rewrite Eo, Ek.
    + destruct (Hk5 (source_key k)) as [(r & o' & t' & _ & Ho & Ek & _)|[Em _]]; [|by rewrite Em].
      destruct (Hfile _ _ Ho) as [Ek' Hin]. rewrite stored_key_source in Ek by (by eapply Forall_forall).
      apply source_key_inj in Ek. congruence.
Qed.

(** The same in terms of the last object of the file for each key. *)
Definition object_key (o : RPSLObject) : string * string := (pk o, o_class_name o).
Definition last_object (k : string * string) (objs : list RPSLObject) : option RPSLObject :=
  list.last (List.filter (λ o, bool_decide (object_key o = k)) objs).
Definition is_file (objs : list RPSLObject) (now : Z) (m m' : store) : Prop :=
  (∀ k, k.1.2 ≠ source → m' !! k = m !! k) ∧
  ∀ k, match last_object k objs with
       | None => m' !! source_key k = None
       | Some o => ∃ t, m' !! source_key k = Some t
                     ∧ (render_rpsl_text cfg o (Some (timestamp_text now)) = Ok t
                        ∨ m !! source_key k = Some t ∧ render_rpsl_text cfg o None = Ok (remove_last_modified t))
       end.
Lemma file_objs_last objs k :
  so_object <$> dict_get k (file_objs_by_pk objs) = last_object k (so_object <$> objs).
Proof using Type.
  unfold file_objs_by_pk, last_object. induction objs as [|o objs IH] using rev_ind; [done|].
  rewrite foldl_app, fmap_app, List.filter_app. cbn [foldl fmap list_fmap List.filter]. rewrite dict_set_get.
  change (object_key (so_object o)) with (object_pk o). destruct (decide (k = object_pk o)) as [->|Hk].
  - by rewrite bool_decide_eq_true_2, last_snoc.
  - by rewrite (bool_decide_eq_false_2 (object_pk o = k)), app_nil_r.
Qed.
Lemma holds_is_file objs now m m' : holds_file objs now m m' → is_file (so_object <$> objs) now m m'.
Proof using Type.
  intros [Hother Hkeys]. split; [exact Hother|]. intros k. specialize (Hkeys k). rewrite <- file_objs_last.
  by destruct (dict_get k (file_objs_by_pk objs)) as [o|].
Qed.
End Update.

Section Parsing.
Context `{IPyLib} `{Radix node_data} `{redis : Redis} `{Datrie (list roa_tuple)} (cfg : configuration).
Context (collate_lt : string → string → bool) (uuid : nat → string) (timestamp_text : Z → string).
Context (gpg_import_keys : string → list string * option string) (gpg_uids : string → list string).
Context (p : import_parser).

(** The object of a paragraph of the file: what it is parsed to, when that has no
    errors, is of the source, and is not filtered out by its class. *)
Definition file_object (text : string) : option RPSLObject :=
  match parse_mirrored cfg gpg_import_keys gpg_uids (ip_strict_validation_key_cert p) (strip text) None with
  | Ok o =>
      if negb (has_errors (o_messages o)) && bool_decide (o_parsed_data o !! "source" = Some (PStr (ip_source p)))
         && negb (class_filtered (ip_object_class_filter p) (o_class_name o))
      then Some o else None
  | Raise _ => None
  end.
Lemma source_PStr o s : source o = Ok s ↔ o_parsed_data o !! "source" = Some (PStr s).
Proof using Type. unfold source. destruct (o_parsed_data o !! "source") as [[]|]; split; congruence. Qed.

Lemma validate_scope_no_import v src prefix asn msg : validate cfg v src prefix asn ≠ Raise (RPSLImportError msg).
Proof using Type. unfold validate. destruct prefix, asn; repeat case_match; done. Qed.
Lemma statuses_no_import o msg : import_statuses cfg p o ≠ Raise (RPSLImportError msg).
Proof using Type.
  assert (∀ A (m : res A) B (k : A → res B) e, m ≫= k = Raise e → m = Raise e ∨ ∃ a, m = Ok a ∧ k a = Raise e) as Hbind.
  { intros A [a|e0] B k e; cbn; [eauto|]. intros [= ->]. by left. }
  unfold import_statuses. intros [Hr|(rpki & _ & [Hr|(src & _ & [Hr|([sc m] & _ & [=])]%Hbind)]%Hbind)]%Hbind.
  - unfold import_rpki_status in Hr. destruct (ip_roa_validator p), (md_prefix_length (o_metadata o)), (nonzero_asn o); try done.
    destruct (_ && _); [|done]. apply Hbind in Hr as [Hr|(src & _ & Hr)].
    + unfold source in Hr. by repeat case_match.
    + destruct (md_ip_first _); [|done]. unfold bulk_validate_route in Hr. destruct (bool_decide _); [done|].
      apply Hbind in Hr as [Hr|([version bin] & _ & Hr)]; [unfold _ip_to_binary_str in Hr; by destruct (if has_char _ _ then _ else _)|].
      destruct (trie_prefix_items _ _); [done|]. by destruct (existsb _ _).
  - unfold source in Hr. by repeat case_match.
  - unfold validate_rpsl_object, _validate_rpsl_data in Hr. destruct (negb _); [done|].
    apply Hbind in Hr as [Hr|(a & _ & Hr)]; [destruct (md_prefix _); [by apply validate_scope_no_import in Hr|done]|].
    assert (∀ b : bool, (asn_state ← match md_asn_first (o_metadata o) with Some n => validate cfg (ip_scopefilter_validator p) src None (Some n) | None => Ok in_scope end;
      match md_asn_first (o_metadata o), decide (asn_state = in_scope) with
      | Some n, right _ => Ok (asn_state, "ASN " +:+ str_of_Z n +:+ " is out of scope")
      | _, _ => Ok (in_scope, "")
      end) = Raise (RPSLImportError msg) → False) as Hasn.
    { intros _ [Hr'|(a' & _ & Hr')]%Hbind; [destruct (md_asn_first _); [by apply validate_scope_no_import in Hr'|done]|].
      repeat case_match; done. }
    destruct (md_prefix (o_metadata o)); [destruct (decide (a = in_scope)); [|done]|]; by apply (Hasn true).
Qed.
Lemma statuses_object o so : import_statuses cfg p o = Ok so → so_object so = o.
Proof using Type.
  unfold import_statuses. by intros (rpki & _ & (src & _ & ([sc m] & _ & [= <-])%res_bind_Ok)%res_bind_Ok)%res_bind_Ok.
Qed.
(** What one paragraph gives: its object, if it has one. *)
Lemma refuse_none c msg h h' c' o : refuse p c msg h = (h', Ok (c', o)) → o = None.
Proof using Type. unfold refuse. destruct (ip_direct_error_return p); [done|]. by intros (? & [] & _ & [= _ _ <-])%st_bind_Ok. Qed.
Lemma parse_object_Ok c text h h' c' o :
  parse_object cfg gpg_import_keys gpg_uids p c text h = (h', Ok (c', o)) → file_object text = so_object <$> o.
Proof using Type.
  unfold parse_object, file_object. destruct (parse_mirrored _ _ _ _ _ _) as [ob|e].
  2: { destruct e; try done. destruct (startswith _ _); [by intros [= _ _ <-]|].
       destruct (ip_direct_error_return p); [done|by intros [= _ _ <-]]. }
  unfold accept_object. destruct (has_errors _); cbn [negb andb]; [by intros ->%refuse_none|].
  intros (h1 & src & [-> Hsrc]%st_lift_Ok & Hrest)%st_bind_Ok. apply source_PStr in Hsrc. rewrite Hsrc.
  destruct (String.eqb_spec src (ip_source p)) as [->|Hne]; cbn [negb] in Hrest.
  2: { apply refuse_none in Hrest as ->. rewrite bool_decide_eq_false_2; [done|]. intros [= E]. by destruct Hne. }
  rewrite bool_decide_eq_true_2 by done. cbn [andb]. destruct (class_filtered _ _); cbn [negb]; [by injection Hrest as _ _ <-|].
  apply st_bind_Ok in Hrest as (h2 & so & [-> Hso]%st_lift_Ok & [= _ _ <-]). simpl. by rewrite (statuses_object _ _ Hso).
Qed.
Lemma parse_object_message c text h h' msg :
  parse_object cfg gpg_import_keys gpg_uids p c text h = (h', Raise (RPSLImportError msg)) → file_object text = None.
Proof using Type.
  unfold parse_object, file_object. destruct (parse_mirrored _ _ _ _ _ _) as [ob|e]; [|done].
  unfold accept_object. destruct (has_errors _); cbn [negb andb]; [done|]. unfold mbind at 1, st_bind at 1, st_lift at 1.
  destruct (source ob) as [src|e] eqn:Hsrc; [|unfold source in Hsrc; by repeat case_match; simplify_eq].
  apply source_PStr in Hsrc. rewrite Hsrc. destruct (String.eqb_spec src (ip_source p)) as [->|Hne]; cbn [negb].
  2: { intros _. rewrite bool_decide_eq_false_2; [done|]. intros [= E]. by destruct Hne. }
  destruct (class_filtered _ _); [done|]. unfold mbind, st_bind, st_lift.
  destruct (import_statuses cfg p ob) as [so|e] eqn:Es; [done|]. intros [= _ ->]. by apply statuses_no_import in Es.
Qed.
Lemma parse_object_source text o : file_object text = Some o → o_parsed_data o !! "source" = Some (PStr (ip_source p)).
Proof using Type.
  unfold file_object. destruct (parse_mirrored _ _ _ _ _ _); [|done]. destruct (_ && _) eqn:E; [|done]. intros [= <-].
  apply andb_true_iff in E as [[_ E]%andb_true_iff _]. by apply bool_decide_eq_true in E.
Qed.

Lemma refuse_same c msg : keeps same_store (refuse p c msg) ∧ keeps (same_field h_readonly) (refuse p c msg).
Proof.
  unfold refuse, record_mirror_error. split; (destruct (ip_direct_error_return p); [apply (keeps_raise _)|]).
  - repeat (apply (keeps_bind _); [|intros]); [apply write_permitted_same|apply modify_tracker_same|apply (keeps_ret _)].
  - repeat (apply (keeps_bind _); [|intros]); [(apply write_permitted_mode; apply _)|by apply modify_mode|apply (keeps_ret _)].
Qed.
Lemma parse_object_same c text :
  keeps same_store (parse_object cfg gpg_import_keys gpg_uids p c text)
  ∧ keeps (same_field h_readonly) (parse_object cfg gpg_import_keys gpg_uids p c text).
Proof.
  pose proof refuse_same as Hr. unfold parse_object, accept_object.
  split; (destruct (parse_mirrored _ _ _ _ _ _) as [ob|[]]; keeps_tac; apply Hr).
Qed.
Lemma import_message_keeps {A} (R : handler → handler → Prop) (m : M A) h h' r :
  (∀ h h' a, m h = (h', Ok a) → R h h') → (∀ h h' e, m h = (h', Raise e) → R h h') →
  import_message m h = (h', Ok r) → R h h'.
Proof.
  intros Ho Hr. unfold import_message. destruct (m h) as [h1 [a|e]] eqn:E.
  - intros [= <- _]. by eapply Ho.
  - destruct e; intros [= <- _]; by eapply Hr.
Qed.
Lemma parse_object_raise c text h h' e :
  parse_object cfg gpg_import_keys gpg_uids p c text h = (h', Raise e) → h' = h.
Proof.
  assert (∀ msg c, refuse p c msg h = (h', Raise e) → h' = h) as Hr.
  { intros msg c0. unfold refuse. destruct (ip_direct_error_return p); [by intros [= <-]|].
    unfold record_mirror_error, _check_write_permitted, mbind, st_bind.
    destruct (h_readonly h); simpl; [by intros [= <-]|done]. }
  unfold parse_object, accept_object. destruct (parse_mirrored _ _ _ _ _ _) as [ob|e'].
  2: { destruct e'; try by intros [= <-]. destruct (startswith _ _); [done|].
       destruct (ip_direct_error_return p); [by intros [= <-]|done]. }
  destruct (has_errors _); [apply Hr|]. unfold mbind at 1, st_bind at 1, st_lift at 1.
  destruct (source ob) as [src|]; [|by intros [= <-]]. destruct (negb _); [apply Hr|].
  destruct (class_filtered _ _); [done|]. unfold mbind, st_bind, st_lift.
  destruct (import_statuses _ _ _); [done|by intros [= <-]].
Qed.

(** Reading the file stores nothing, and yields the objects of its paragraphs. *)
Definition file_objects (paragraphs : list string) : list RPSLObject := omap file_object paragraphs.
Lemma read_paragraphs_objects paragraphs c h h' r :
  read_paragraphs cfg gpg_import_keys gpg_uids p c paragraphs h = (h', Ok r) →
  same_store h h' ∧ h_readonly h' = h_readonly h
  ∧ match r with
    | inl _ => ip_direct_error_return p = true ∧ ∃ text, text ∈ paragraphs ∧ file_object text = None
    | inr (_, objs) => so_object <$> objs = file_objects paragraphs
    end.
Proof using Type.
  revert c h h' r. induction paragraphs as [|text ps IH]; intros c h h' r; [by intros [= <- <-]|].
  intros (h1 & x & Hm & Hrest)%st_bind_Ok.
  assert (same_store h h1 ∧ h_readonly h1 = h_readonly h) as [Hs Hro].
  { destruct (parse_object_same c text) as [Hks Hkm]. split.
    - refine (import_message_keeps same_store _ _ _ _ _ _ Hm); [apply Hks|].
      intros ? ? ? E. by rewrite (parse_object_raise _ _ _ _ _ E).
    - refine (import_message_keeps (same_field h_readonly) _ _ _ _ _ _ Hm); [apply Hkm|].
      intros ? ? ? E. by rewrite (parse_object_raise _ _ _ _ _ E). }
  assert (file_object text = match x with inl _ => None | inr (_, o) => so_object <$> o end) as Hfile.
  { unfold import_message in Hm. destruct (parse_object _ _ _ _ _ _ h) as [h2 [[c1 o]|e]] eqn:E.
    - injection Hm as <- <-. by apply parse_object_Ok in E.
    - destruct e; try done. injection Hm as <- <-. by apply parse_object_message in E. }
  assert (∀ c0 h2 r2, read_paragraphs cfg gpg_import_keys gpg_uids p c0 ps h1 = (h2, Ok r2) →
    same_store h h2 ∧ h_readonly h2 = h_readonly h
    ∧ match r2 with
      | inl _ => ip_direct_error_return p = true ∧ ∃ t, t ∈ text :: ps ∧ file_object t = None
      | inr (_, objs) => so_object <$> objs = file_objects ps
      end) as Hnext.
  { intros c0 h2 r2 (Hs2 & Hro2 & Ha)%IH. rewrite <- Hro. split; [by rewrite Hs|]. split; [done|].
    destruct r2 as [msg|[? ?]]; [|done]. destruct Ha as [? (t & ? & ?)]. split; [done|]. exists t. split; [by right|done]. }
  unfold file_objects. destruct x as [msg|[c1 o]].
  - destruct (ip_direct_error_return p) eqn:Ed.
    + injection Hrest as <- <-. split; [done|]. split; [done|]. split; [done|]. exists text. split; [by left|done].
    + cbn [omap list_omap]. rewrite Hfile. rewrite <- Ed in *. apply Hnext in Hrest. by rewrite Ed in *.
  - apply st_bind_Ok in Hrest as (h2 & rest & Hrd & [= <- <-]). destruct (Hnext _ _ _ Hrd) as (Hs2 & Hro2 & Ha).
    split; [done|]. split; [done|]. cbn [omap list_omap]. rewrite Hfile. destruct rest as [|[c2 objs]]; [by destruct o|].
    destruct o as [o|]; [|exact Ha]. cbn [fmap option_fmap option_map]. rewrite fmap_cons. by rewrite Ha.
Qed.

Context (set_order : list (string * string) → list (string * string)).

(** C28. After an update import the source holds exactly the objects of the file's
    paragraphs that parse without errors, are of the source and of an imported class,
    the last one for each key: each key of the file has the text of its object, or keeps a
    stored text that equals it apart from the last-modified line; every other key of the
    source is gone, and other sources are untouched.  An import that ends with a message
    stores nothing: the parser was told to return errors, and some paragraph has no
    such object. *)
Theorem update_import_exact lines h h' r :
  strip (str_upper (ip_source p)) = ip_source p → (∀ l k, k ∈ set_order l ↔ k ∈ l) →
  store_ok h → h_readonly h = false →
  run_update_import cfg collate_lt uuid timestamp_text gpg_import_keys gpg_uids set_order p lines h = (h', Ok r) →
  let paragraphs := split_paragraphs_rpsl (inr lines) true in
  store_ok h' ∧
  match r with
  | inl _ => stored h' = stored h ∧ ip_direct_error_return p = true
             ∧ ∃ text, text ∈ paragraphs ∧ file_object text = None
  | inr _ => is_file cfg timestamp_text (ip_source p) (file_objects paragraphs) (h_now h) (stored h) (stored h')
  end.
Proof using Type.
  intros Hs Hset Hok Hro (h1 & x & Hrd & Hrest)%st_bind_Ok paragraphs.
  destruct (read_paragraphs_objects _ _ _ _ _ Hrd) as (Hsame & Hro1 & Ha).
  destruct (same_kept _ _ Hsame Hok) as (E1 & Hok1 & N1). destruct x as [msg|[c objs]]; [by injection Hrest as <- <-|].
  apply st_bind_Ok in Hrest as (h2 & u & Hu & [= <- <-]).
  destruct (update_source_exact cfg collate_lt uuid timestamp_text (ip_source p) set_order objs h1 h2 u) as [? Hh];
    [done..| |done|congruence|done|].
  { apply Forall_forall. intros o Ho%(list_elem_of_fmap_2 so_object). rewrite Ha in Ho.
    apply list_elem_of_omap in Ho as (text & _ & Ho). by apply parse_object_source in Ho. }
  split; [done|]. unfold paragraphs. rewrite <- Ha, <- N1, <- E1. by apply holds_is_file.
Qed.
End Parsing.

Module ImportExamples.
Import ConcreteIP ConcreteRadix ConcreteRedis ConcreteTrie.

Definition ex_cfg : configuration := conf_of (VDict [("sources", VDict [("RR", VDict [])])]).
Definition ex_uuid (n : nat) : string := str_of_Z (Z.of_nat n).
Definition ex_collate (s t : string) : bool := bool_decide (s = t).
Definition no_keys (_ : string) : list string * option string := ([], None).
Definition no_uids (_ : string) : list string := [].
Definition ex_person (name nic : string) (rest : list string) : list string :=
  ["person: " +:+ name +:+ NL; "nic-hdl: " +:+ nic +:+ NL] ++ ((λ l, l +:+ NL) <$> rest) ++ ["source: RR" +:+ NL; NL].
Definition ex_parser : res import_parser := import_parser_init ex_cfg "RR" true None.
Definition with_parser {A} (f : import_parser → M A) : M A := p ← st_lift ex_parser; f p.
Definition ex_start (lines : list string) : handler :=
  (with_parser (λ p, run_import ex_cfg ex_uuid str_of_Z no_keys no_uids p None lines)
     (DatabaseHandler_init ex_cfg false
        {| db_objects := []; db_suspended := []; db_journal := []; db_status := []; db_roas := [];
           db_protected := []; db_next_uuid := 0; db_next_global := 1 |} 100)).1.
Definition ex_update (lines : list string) (h : handler) :=
  with_parser (λ p, run_update_import ex_cfg ex_collate ex_uuid str_of_Z no_keys no_uids id p lines) h.

Definition old_file : list string := ex_person "J Doe" "JD-A" [] ++ ex_person "Old" "OLD-A" [].
Definition new_file : list string := ex_person "J Doe" "JD-A" [] ++ ex_person "New" "NN-A" [].
Definition h0 : handler := ex_start old_file.
Lemma h0_ok : store_ok h0.
Proof.
  split.
  - assert (row_key <$> db_objects (h_db h0) = []) as -> by (vm_compute; done). constructor.
  - assert ((λ u, pk_source (u_row u)) <$> h_rpsl_upsert_buffer h0 = h_rpsl_pk_source_seen h0) as E
      by (vm_compute; reflexivity).
    intros u Hu. apply (list_elem_of_fmap_2 (λ u, pk_source (u_row u))) in Hu. rewrite E in Hu. exact Hu.
Qed.

(** One object stays, one is replaced by another. *)
Lemma new_file_runs : match (ex_update new_file h0).2 with Ok (inr _) => True | _ => False end.
Proof. vm_compute. exact I. Qed.
Lemma new_file_keys :
  stored (ex_update new_file h0).1 !! ("OLD-A", "RR", "person") = None
  ∧ stored (ex_update new_file h0).1 !! ("JD-A", "RR", "person") = stored h0 !! ("JD-A", "RR", "person")
  ∧ stored (ex_update new_file h0).1 !! ("NN-A", "RR", "person") ≠ None.
Proof. split_and!; vm_compute; [reflexivity..|discriminate]. Qed.
Lemma update_import_exact_witness :
  ∃ p h', ex_parser = Ok p
    ∧ object_key <$> file_objects ex_cfg no_keys no_uids p (split_paragraphs_rpsl (inr new_file) true) = [("JD-A", "person"); ("NN-A", "person")]
    ∧ is_file ex_cfg str_of_Z "RR" (file_objects ex_cfg no_keys no_uids p (split_paragraphs_rpsl (inr new_file) true)) 100 (stored h0) (stored h')
    ∧ stored h0 !! ("OLD-A", "RR", "person") ≠ None ∧ stored h' !! ("OLD-A", "RR", "person") = None
    ∧ stored h' !! ("JD-A", "RR", "person") = stored h0 !! ("JD-A", "RR", "person")
    ∧ stored h' !! ("NN-A", "RR", "person") ≠ None.
Proof.
  assert (match ex_parser with
          | Ok p => ip_source p = "RR" ∧ object_key <$> file_objects ex_cfg no_keys no_uids p (split_paragraphs_rpsl (inr new_file) true)
                                         = [("JD-A", "person"); ("NN-A", "person")]
          | _ => False
          end) as Hsrc by (vm_compute; done).
  destruct ex_parser as [p|] eqn:Ep; [|destruct Hsrc]. destruct Hsrc as [Hsrc Hobjs].
  pose proof (surjective_pairing
    (run_update_import ex_cfg ex_collate ex_uuid str_of_Z no_keys no_uids id p new_file h0)) as Er.
  set (h' := (run_update_import ex_cfg ex_collate ex_uuid str_of_Z no_keys no_uids id p new_file h0).1) in *.
  set (r := (run_update_import ex_cfg ex_collate ex_uuid str_of_Z no_keys no_uids id p new_file h0).2) in *.
  assert (ex_update new_file h0 = (h', r)) as Eu.
  { unfold ex_update, with_parser, mbind, st_bind, st_lift. rewrite Ep. exact Er. }
  clearbody h' r.
  pose proof new_file_keys as Hk. pose proof new_file_runs as Hr.
  rewrite Eu in Hk, Hr. cbn [fst snd] in Hk, Hr. destruct r as [[|x]|]; [destruct Hr| |destruct Hr].
  destruct (update_import_exact ex_cfg ex_collate ex_uuid str_of_Z no_keys no_uids p id new_file h0 h' (inr x))
    as [_ Hh].
  - by rewrite Hsrc.
  - intros l k. reflexivity.
  - apply h0_ok.
  - vm_compute. reflexivity.
  - exact Er.
  - exists p, h'. rewrite Hsrc in Hh. split; [done|]. split; [exact Hobjs|]. split; [exact Hh|].
    split; [vm_compute; discriminate|exact Hk].
Defined.

(** Objects with a last-modified line in the file are compared with it against a
    stored text without it: an unchanged file is written again every time. *)
Definition dated_file : list string := ex_person "J Doe" "JD-A" ["last-modified: 2020-01-01T00:00:00Z"].
Example unchanged_dated_object_rewritten :
  (match ex_update dated_file (ex_start dated_file) with
   | (_, Ok (inr (_, u))) => Some (obj_retained u, obj_modified u)
   | _ => None
   end) = Some (1, 1)%Z
  ∧ stored (ex_update dated_file (ex_start dated_file)).1 = stored (ex_start dated_file)
  ∧ (match ex_update old_file h0 with
     | (_, Ok (inr (_, u))) => Some (obj_retained u, obj_modified u)
     | _ => None
     end) = Some (2, 0)%Z.
Proof. repeat split; vm_compute; reflexivity. Qed.
End ImportExamples.
