(* ===== verification/RoaImport.v ===== *)
(** * Importing ROAs ([irrd/rpki/importer.py], [irrd/rpki/notifications.py])
    and the runs that update statuses ([irrd/mirroring/mirror_runners_import.py])

    The JSON decoder, IPy's [IPSet] and the retrieval of the files are
    parameters; the values of the decoded JSON are Python values. *)
From S2P Require Import Prelude PyStr Conf Net Models Text Rpki ScopeFilter Fields RpslObjects RpslParser Queries RoutePref Database DatabaseHandler Nrtm.

(** IPy's [IPSet]: a set of addresses, built from prefixes. *)
Class IPSetLib `{IPyLib} := {
  ipset : Type;
  ipset_empty : ipset;
  ipset_add : ipset → IP → ipset;
  (** [prefix in set]. *)
  ipset_contains : ipset → IP → bool;
}.
Definition ipset_of `{IPSetLib} (l : list IP) : ipset := foldl ipset_add ipset_empty l.
(** A prefix within one of the added prefixes is in the set, and a prefix in the
    set has only addresses of the added prefixes. *)
Class IPSetLaws `{IPSetLib} : Prop := {
  ipset_covers : ∀ l p q, q ∈ l → ip_contains p q = true → ipset_contains (ipset_of l) p = true;
  ipset_only : ∀ l p, ipset_contains (ipset_of l) p = true →
    ∀ a, (ip_first p ≤ a ≤ ip_last p)%Z →
    ∃ q, q ∈ l ∧ ip_version q = ip_version p ∧ (ip_first q ≤ a ≤ ip_last q)%Z;
}.

(** ** Decoded JSON *)

Definition type_error : exn := GenericException "TypeError".
(** [v[key]], [v.get(key, default)], [key in v], iteration, and [int(v)]. *)
Definition json_item (v : pyval) (key : string) : res pyval :=
  match v with
  | VDict d => match assoc key d with Some v => Ok v | None => Raise (KeyError key) end
  | _ => Raise type_error
  end.
Definition json_get (v : pyval) (key : string) (default : pyval) : res pyval :=
  match v with
  | VDict d => Ok match assoc key d with Some v => v | None => default end
  | _ => Raise AttributeError
  end.
Definition json_in (v : pyval) (key : string) : res bool :=
  match v with
  | VDict d => Ok match assoc key d with Some _ => true | None => false end
  | VStr s => Ok (contains key s)
  | VList l => Ok (existsb (λ x, match x with VStr s => String.eqb s key | _ => false end) l)
  | VNone | VBool _ | VInt _ => Raise type_error
  end.
Definition json_iter (v : pyval) : res (list pyval) :=
  match v with
  | VList l => Ok l
  | VDict d => Ok (VStr <$> d.*1)
  | VStr s => Ok ((λ c, VStr (String c "")) <$> String.list_ascii_of_string s)
  | VNone | VBool _ | VInt _ => Raise type_error
  end.
Definition json_int (v : pyval) : res Z :=
  match v with VNone | VList _ | VDict _ => Raise type_error | _ => int_py v end.

Definition SLURM_TRUST_ANCHOR : string := "SLURM file".

Section RoaImport.
Context `{IPSetLib} `{Radix node_data} `{redis : Redis} `{Datrie (list roa_tuple)} (cfg : configuration).
Context (collate_lt : string → string → bool) (uuid : nat → string) (timestamp_text : Z → string).
(** [ujson.loads], with the message of its [ValueError], and [str] of a
    decoded list or dictionary. *)
Context (json_loads : string → string + pyval) (repr : pyval → string).

Definition json_str (v : pyval) : string :=
  match v with VList _ | VDict _ => repr v | _ => pyval_str v end.

(** ** The JSON and SLURM data *)

Record slurm_filters := {
  _filtered_asns : list Z;
  _filtered_prefixes : ipset;
  (** A [defaultdict]. *)
  _filtered_combined : list (Z * ipset);
}.
Definition no_filters : slurm_filters := {|
  _filtered_asns := []; _filtered_prefixes := ipset_empty; _filtered_combined := [] |}.

Definition _load_roa_dicts (rpki_json_str : string) : res pyval :=
  match json_loads rpki_json_str with
  | inl error => Raise (ROAParserException ("Unable to parse ROA input: invalid JSON: " +:+ error))
  | inr v =>
      match json_item v "roas" with
      | Raise (KeyError _) =>
          Raise (ROAParserException ("Unable to parse ROA input: root key " +:+ quoted "roas" +:+ " not found"))
      | r => r
      end
  end.

(** One of the [prefixFilters]. *)
Definition load_filter (f : slurm_filters) (item : pyval) : res slurm_filters :=
  has_asn ← json_in item "asn";
  has_prefix ← json_in item "prefix";
  match has_asn, has_prefix with
  | true, false =>
      asn ← json_item item "asn"; asn ← json_int asn;
      Ok {| _filtered_asns := oset_add (_filtered_asns f) asn; _filtered_prefixes := _filtered_prefixes f;
            _filtered_combined := _filtered_combined f |}
  | false, true =>
      prefix ← json_item item "prefix"; prefix ← IP_py prefix;
      Ok {| _filtered_asns := _filtered_asns f; _filtered_prefixes := ipset_add (_filtered_prefixes f) prefix;
            _filtered_combined := _filtered_combined f |}
  | true, true =>
      asn ← json_item item "asn"; asn ← json_int asn;
      prefix ← json_item item "prefix"; prefix ← IP_py prefix;
      let old := default ipset_empty (dict_get asn (_filtered_combined f)) in
      Ok {| _filtered_asns := _filtered_asns f; _filtered_prefixes := _filtered_prefixes f;
            _filtered_combined := dict_set asn (ipset_add old prefix) (_filtered_combined f) |}
  | false, false => Ok f
  end.
Fixpoint load_filters_loop (f : slurm_filters) (items : list pyval) : res slurm_filters :=
  match items with
  | [] => Ok f
  | item :: items' => f ← load_filter f item; load_filters_loop f items'
  end.

(** One of the [prefixAssertions], as a ROA record. *)
Definition assertion_roa (assertion : pyval) : res pyval :=
  max_length ← json_get assertion "maxPrefixLength" VNone;
  max_length ← (if is_none max_length
                then prefix ← json_item assertion "prefix"; ip ← IP_py prefix; Ok (VInt (ip_prefixlen ip))
                else Ok max_length);
  asn ← json_item assertion "asn";
  prefix ← json_item assertion "prefix";
  Ok (VDict [("asn", VStr ("AS" +:+ json_str asn)); ("prefix", prefix); ("maxLength", max_length);
             ("ta", VStr SLURM_TRUST_ANCHOR)]).
(** [self._roa_dicts.append]. *)
Definition append_roa (roa_dicts : pyval) (roa : pyval) : res pyval :=
  match roa_dicts with VList l => Ok (VList (l ++ [roa])) | _ => Raise AttributeError end.
Fixpoint load_assertions (roa_dicts : pyval) (assertions : list pyval) : res pyval :=
  match assertions with
  | [] => Ok roa_dicts
  | assertion :: assertions' =>
      roa ← assertion_roa assertion; roa_dicts ← append_roa roa_dicts roa; load_assertions roa_dicts assertions'
  end.
(** [version != 1]. *)
Definition is_one (v : pyval) : bool :=
  match v with VInt n => (n =? 1)%Z | VBool b => b | _ => false end.
Definition _load_slurm (roa_dicts : pyval) (slurm_json_str : string) : res (slurm_filters * pyval) :=
  match json_loads slurm_json_str with
  | inl error => Raise (ValueError error)
  | inr slurm =>
      version ← json_get slurm "slurmVersion" VNone;
      if negb (is_one version)
      then Raise (ROAParserException ("SLURM data has invalid version: " +:+ json_str version))
      else
        output ← json_get slurm "validationOutputFilters" (VDict []);
        filters ← json_get output "prefixFilters" (VList []);
        filters ← json_iter filters;
        f ← load_filters_loop no_filters filters;
        local ← json_get slurm "locallyAddedAssertions" (VDict []);
        assertions ← json_get local "prefixAssertions" (VList []);
        assertions ← json_iter assertions;
        roa_dicts ← load_assertions roa_dicts assertions;
        Ok (f, roa_dicts)
  end.

(** ** ROAs *)

Definition ROA_init (prefix : IP) (asn : Z) (max_length trust_anchor : pyval) : res ROA :=
  match json_int max_length with
  | Raise (ValueError ve) => Raise (ROAParserException ("Invalid value in ROA: " +:+ ve))
  | Raise e => Raise e
  | Ok n =>
      if (n <? ip_prefixlen prefix)%Z
      then Raise (ROAParserException
        ("Invalid ROA: prefix size " +:+ str_of_Z (ip_prefixlen prefix) +:+ " is smaller than max length "
         +:+ json_str max_length +:+ " in ROA for " +:+ ip_str prefix +:+ " / AS" +:+ str_of_Z asn))
      else Ok {| ROA_prefix := prefix; ROA_prefix_str := ip_str prefix; ROA_asn := asn;
                 ROA_max_length := n; ROA_trust_anchor := json_str trust_anchor |}
  end.

(** The filters, for a record that does not come from the SLURM file. *)
Definition slurm_filtered (f : slurm_filters) (asn : Z) (prefix : IP) : bool :=
  bool_decide (asn ∈ _filtered_asns f)
  || ipset_contains (_filtered_prefixes f) prefix
  || match dict_get asn (_filtered_combined f) with
     | Some s => ipset_contains s prefix
     | None => false
     end.
Definition from_slurm (ta : pyval) : bool :=
  match ta with VStr s => String.eqb s SLURM_TRUST_ANCHOR | _ => false end.
(** [parse_as_number(value, permit_plain=True)]. *)
Definition json_as_number (v : pyval) : res (string * Z) :=
  match v with
  | VStr s => parse_as_number cfg (inl s) true false
  | VInt n => parse_as_number cfg (inr n) true false
  | VBool b => parse_as_number cfg (inr (if b then 1 else 0)%Z) true false
  | VNone | VList _ | VDict _ => Raise type_error
  end.
Definition read_roa_dict (f : slurm_filters) (roa_dict : pyval) : res (option ROA) :=
  asn ← json_item roa_dict "asn"; '(_, asn) ← json_as_number asn;
  prefix ← json_item roa_dict "prefix"; prefix ← IP_py prefix;
  ta ← json_item roa_dict "ta";
  if negb (from_slurm ta) && slurm_filtered f asn prefix then Ok None
  else max_length ← json_item roa_dict "maxLength"; roa ← ROA_init prefix asn max_length ta; Ok (Some roa).
(** The [try] around it. *)
Definition roa_of_dict (f : slurm_filters) (roa_dict : pyval) : res (option ROA) :=
  match read_roa_dict f roa_dict with
  | Raise (KeyError ke) =>
      Raise (ROAParserException ("Unable to parse ROA record: missing key " +:+ py_repr ke +:+ " -- full record: "
                                   +:+ json_str roa_dict))
  | Raise e =>
      Raise (if is_ValueError e then ROAParserException ("Invalid value in ROA or SLURM: " +:+ exn_str e) else e)
  | r => r
  end.

(** ** The pseudo-IRR object of a ROA *)

Definition roa_object_class (prefix : IP) : string := if (ip_version prefix =? 6)%Z then "route6" else "route".
Definition roa_pk (roa : ROA) : string :=
  ROA_prefix_str roa +:+ "AS" +:+ str_of_Z (ROA_asn roa) +:+ "/ML" +:+ str_of_Z (ROA_max_length roa).
Definition roa_text (roa : ROA) : res string :=
  match get_setting cfg "rpki.pseudo_irr_remarks" with
  | VStr remarks =>
      let remarks := strip (replace_all NL (NL +:+ repeat_char RPSL_ATTRIBUTE_TEXT_WIDTH ch_space) remarks) in
      remarks ← py_format [("asn", str_of_Z (ROA_asn roa)); ("prefix", ROA_prefix_str roa)] remarks;
      Ok (strip (NL
        +:+ ljust RPSL_ATTRIBUTE_TEXT_WIDTH (roa_object_class (ROA_prefix roa) +:+ ":") +:+ ROA_prefix_str roa +:+ NL
        +:+ "descr:          RPKI ROA for " +:+ ROA_prefix_str roa +:+ " / AS" +:+ str_of_Z (ROA_asn roa) +:+ NL
        +:+ "remarks:        " +:+ remarks +:+ NL
        +:+ "max-length:     " +:+ str_of_Z (ROA_max_length roa) +:+ NL
        +:+ "origin:         AS" +:+ str_of_Z (ROA_asn roa) +:+ NL
        +:+ "source:         " +:+ RPKI_IRR_PSEUDO_SOURCE +:+ "  # Trust Anchor: " +:+ ROA_trust_anchor roa +:+ NL)
        +:+ NL)
  | _ => Raise AttributeError
  end.
Definition roa_parsed_data (roa : ROA) : gmap string pdata :=
  <[roa_object_class (ROA_prefix roa) := PStr (ROA_prefix_str roa)]>
  (<["origin" := PStr ("AS" +:+ str_of_Z (ROA_asn roa))]>
  (<["source" := PStr RPKI_IRR_PSEUDO_SOURCE]>
  (<["rpki_max_length" := PInt (ROA_max_length roa)]> ∅))).
(** [RPSLObjectFromROA], as the row that is written for it. *)
Definition RPSLObjectFromROA (scope : ScopeFilterStatus) (roa : ROA) (src text : string) (now : Z) : rpsl_row :=
  let p := ROA_prefix roa in {|
  r_pk := ""; r_rpsl_pk := roa_pk roa; r_source := src; r_object_class := roa_object_class p;
  r_parsed_data := roa_parsed_data roa; r_object_text := text;
  r_ip_version := Some (ip_version p); r_ip_first := Some (ip_str (ip_net p));
  r_ip_last := Some (ip_str (ip_broadcast p));
  r_ip_size := Some (ip_int (ip_broadcast p) - ip_int (ip_net p) + 1)%Z;
  r_prefix := Some (ip_str p); r_prefix_length := Some (ip_prefixlen p);
  r_asn_first := Some (ROA_asn roa); r_asn_last := Some (ROA_asn roa);
  r_rpki_status := rpki_valid; r_scopefilter_status := scope; r_route_preference_status := rp_visible;
  r_created := now; r_updated := now |}.
Definition roa_table_row (roa : ROA) : roa_row := {|
  roa_ip_version := ip_version (ROA_prefix roa); roa_prefix := cidr_of_ip (ROA_prefix roa);
  roa_asn := ROA_asn roa; roa_max_length := ROA_max_length roa; roa_trust_anchor := ROA_trust_anchor roa |}.

Definition ROA_save (v : ScopeFilterValidator) (roa : ROA) : M unit :=
  _ ← insert_roa_object (roa_table_row roa);
  '(scope, _) ← st_lift (validate_rpsl_object cfg v RPKI_IRR_PSEUDO_SOURCE (roa_object_class (ROA_prefix roa))
                          (Some (ROA_prefix roa)) (Some (ROA_asn roa)));
  upsert_rendered cfg uuid (Ok RPKI_IRR_PSEUDO_SOURCE) (roa_pk roa) (λ _, roa_text roa)
    (RPSLObjectFromROA scope roa) (Some (ROA_prefix roa)) jo_pseudo_irr true None.

(** The loop of [ROADataImporter.__init__]: the ROAs saved. *)
Fixpoint import_roa_dicts (f : slurm_filters) (v : ScopeFilterValidator) (roa_dicts : list pyval) : M (list ROA) :=
  match roa_dicts with
  | [] => mret []
  | roa_dict :: roa_dicts' =>
      roa ← st_lift (roa_of_dict f roa_dict);
      match roa with
      | None => import_roa_dicts f v roa_dicts'
      | Some roa => _ ← ROA_save v roa; roas ← import_roa_dicts f v roa_dicts'; mret (roa :: roas)
      end
  end.
Definition load_roa_data (rpki_json_str : string) (slurm_json_str : option string)
  : res (slurm_filters * pyval) :=
  roa_dicts ← _load_roa_dicts rpki_json_str;
  match slurm_json_str with
  | Some s => if String.eqb s "" then Ok (no_filters, roa_dicts) else _load_slurm roa_dicts s
  | None => Ok (no_filters, roa_dicts)
  end.
Definition ROADataImporter (rpki_json_str : string) (slurm_json_str : option string) : M (list ROA) :=
  '(f, roa_dicts) ← st_lift (load_roa_data rpki_json_str slurm_json_str);
  v ← st_lift (load_filters cfg);
  roa_dicts ← st_lift (json_iter roa_dicts);
  import_roa_dicts f v roa_dicts.

(** ** The import run *)

Context (retrieve : string → res string).
(** [_import_roas]: everything is removed first, so the ROAs of a failed import
    come back only because nothing is committed. *)
Definition _import_roas : M (list ROA) :=
  _ ← delete_all_roa_objects;
  _ ← delete_all_rpsl_objects_with_journal cfg uuid RPKI_IRR_PSEUDO_SOURCE true;
  let slurm_source := get_setting cfg "rpki.slurm_source" in
  slurm_data ← (if truthy slurm_source then data ← st_lift (retrieve (pyval_str slurm_source)); mret (Some data)
                else mret None);
  roas ← st_lift (retrieve (pyval_str (get_setting cfg "rpki.roa_source")));
  ROADataImporter roas slurm_data.
End RoaImport.

(** ** Notifications of newly invalid objects *)

Section Notify.
Context `{IPyLib} `{Radix node_data} `{redis : Redis} (cfg : configuration).
Context (collate_lt : string → string → bool) (uuid : nat → string).
Context (gpg_import_keys : string → list string * option string) (gpg_uids : string → list string).
(** The order in which Python iterates over sets. *)
Context (set_order : list string → list string) (obj_order : list RPSLObject → list RPSLObject).

Fixpoint invalid_objects (now_invalid : list changed_obj) : res (list RPSLObject) :=
  match now_invalid with
  | [] => Ok []
  | (_, r) :: now_invalid' =>
      if truthy (source_setting cfg (r_source r) "authoritative") && bool_decide (r_rpki_status r = rpki_invalid)
      then o ← rpsl_object_from_text cfg gpg_import_keys gpg_uids (r_object_text r) true None;
           os ← invalid_objects now_invalid'; Ok (o :: os)
      else invalid_objects now_invalid'
  end.
Definition mnt_by (o : RPSLObject) : list string := pdata_list (o_parsed_data o !! "mnt-by").
Definition query_pks (source : string) (pks classes : list string) : M (list rpsl_row) :=
  q ← st_lift (sources (RPSLDatabaseQuery true true) [source]);
  q ← st_lift (rpsl_pks q pks);
  q ← st_lift (object_classes q classes);
  execute_query_objects cfg collate_lt uuid q.
Definition row_attr (r : rpsl_row) (attr : string) : list string := pdata_list (r_parsed_data r !! attr).
(** The contact addresses of one maintainer. *)
Definition mntner_addresses (contacts : list (string * list string)) (mntner : rpsl_row) : list string :=
  foldl oset_update (oset_update [] (row_attr mntner "mnt-nfy"))
    ((λ contact, default [] (dict_get contact contacts)) <$> row_attr mntner "tech-c" ++ row_attr mntner "admin-c").
Definition mntner_emails (rpsl_objs : list RPSLObject) (source : string) : M (list (string * list string)) :=
  let of_source := List.filter (λ o, String.eqb (pdata_str (o_parsed_data o !! "source")) source) rpsl_objs in
  mntners ← query_pks source (oset_update [] (concat (mnt_by <$> of_source))) ["mntner"];
  let contact_pks := oset_update [] (concat ((λ m, row_attr m "tech-c" ++ row_attr m "admin-c") <$> mntners)) in
  rows ← query_pks source contact_pks ["role"; "person"];
  let contacts := foldl (λ d r, dict_set (r_rpsl_pk r) (row_attr r "e-mail") d) [] rows in
  mret (foldl (λ d m, dict_set (r_rpsl_pk m)
          (oset_update (default [] (dict_get (r_rpsl_pk m) d)) (mntner_addresses contacts m)) d) [] mntners).
Fixpoint emails_by_source (rpsl_objs : list RPSLObject) (srcs : list string)
  : M (list (string * list (string * list string))) :=
  match srcs with
  | [] => mret []
  | s :: srcs' => e ← mntner_emails rpsl_objs s; rest ← emails_by_source rpsl_objs srcs'; mret (dict_set s e rest)
  end.
(** The addresses for one object, and the objects of each address. *)
Definition object_emails (emails : list (string * list (string * list string))) (o : RPSLObject) : list string :=
  let by_mntner := default [] (dict_get (pdata_str (o_parsed_data o !! "source")) emails) in
  foldl oset_update [] ((λ m, default [] (dict_get m by_mntner)) <$> mnt_by o).
Definition objs_per_email (emails : list (string * list (string * list string))) (rpsl_objs : list RPSLObject)
  : list (string * list RPSLObject) :=
  foldl (λ d o, foldl (λ d email, dict_set email (default [] (dict_get email d) ++ [o]) d) d
                  (set_order (object_emails emails o))) [] rpsl_objs.

Record email_message := { email_recipient : string; email_subject : string; email_body : string }.
Fixpoint render_all (objs : list RPSLObject) : res string :=
  match objs with
  | [] => Ok ""
  | o :: objs' => text ← render_rpsl_text cfg o None; rest ← render_all objs'; Ok (text +:+ NL +:+ rest)
  end.
Definition template (name : string) : res string :=
  match get_setting_default cfg name (VStr "") with VStr s => Ok s | _ => Raise AttributeError end.
Definition notification (email : string) (objs : list RPSLObject) : res email_message :=
  header_template ← template "rpki.notify_invalid_header";
  subject_template ← template "rpki.notify_invalid_subject";
  let sources_str := join ", " (set_order (oset_update [] ((λ o, pdata_str (o_parsed_data o !! "source")) <$> objs))) in
  let args := [("sources_str", sources_str); ("object_count", str_of_Z (Z.of_nat (length objs)))] in
  subject ← py_format args (replace_all NL " " subject_template);
  header ← py_format args header_template;
  body ← render_all (obj_order objs);
  Ok {| email_recipient := email; email_subject := subject;
        email_body := header +:+ NL +:+ "The following objects are affected:" +:+ NL
          +:+ "~~~~~~~~~~~~~~~~~~~~~~~~~~~~~~~~~~~~~~~~~~~~~~~~~~~~" +:+ NL +:+ NL +:+ body
          +:+ "~~~~~~~~~~~~~~~~~~~~~~~~~~~~~~~~~~~~~~~~~~~~~~~~~~~~" |}.
(** The messages handed to the mailer, which may fail for each of them. *)
Definition notify_rpki_invalid_owners (now_invalid : list changed_obj) : M (list email_message) :=
  if negb (truthy (get_setting cfg "rpki.notify_invalid_enabled")) then mret []
  else
    rpsl_objs ← st_lift (invalid_objects now_invalid);
    match rpsl_objs with
    | [] => mret []
    | _ =>
        emails ← emails_by_source rpsl_objs
                   (set_order (oset_update [] ((λ o, pdata_str (o_parsed_data o !! "source")) <$> rpsl_objs)));
        st_lift (res_map (λ x, notification x.1 x.2) (objs_per_email emails rpsl_objs))
    end.
End Notify.
