(* ===== verification/RoaImportTheory.v ===== *)
(** * Correctness of ROA imports *)
From S2P Require Import Prelude PyStr Conf Net Models Text Rpki RpkiTheory ScopeFilter RpslObjects RpslParser Queries RoutePref RoutePrefTheory Database DatabaseHandler StorageTheory JournalTheory StoreTheory Nrtm RoaImport.

(** ** SLURM filters (RFC 8416) *)

Section Slurm.
Context `{IPSetLib}.

(** A prefix filter as read: an AS number, a prefix, or both. *)
Definition filter_of (item : pyval) : res (option Z * option IP) :=
  has_asn ← json_in item "asn";
  has_prefix ← json_in item "prefix";
  asn ← (if has_asn : bool then v ← json_item item "asn"; n ← json_int v; Ok (Some n) else Ok None);
  prefix ← (if has_prefix : bool then v ← json_item item "prefix"; p ← IP_py v; Ok (Some p) else Ok None);
  Ok (asn, prefix).

(** The filters that give only an AS number, only a prefix, or both. *)
Definition asn_only (l : list (option Z * option IP)) : list Z :=
  omap (λ x, match x with (Some a, None) => Some a | _ => None end) l.
Definition prefix_only (l : list (option Z * option IP)) : list IP :=
  omap (λ x, match x with (None, Some p) => Some p | _ => None end) l.
Definition combined (asn : Z) (l : list (option Z * option IP)) : list IP :=
  omap (λ x, match x with (Some a, Some p) => if decide (a = asn) then Some p else None | _ => None end) l.

Record filters_hold (f : slurm_filters) (l : list (option Z * option IP)) : Prop := {
  fh_asns : ∀ a, a ∈ _filtered_asns f ↔ a ∈ asn_only l;
  fh_prefixes : _filtered_prefixes f = ipset_of (prefix_only l);
  fh_combined : ∀ a, match dict_get a (_filtered_combined f) with
                     | Some s => s = ipset_of (combined a l)
                     | None => combined a l = []
                     end;
}.
Lemma ipset_of_snoc l p : ipset_of (l ++ [p]) = ipset_add (ipset_of l) p.
Proof. unfold ipset_of. by rewrite foldl_app. Qed.
Lemma load_filter_holds f l item f' :
  filters_hold f l → load_filter f item = Ok f' → ∃ x, filter_of item = Ok x ∧ filters_hold f' (l ++ [x]).
Proof.
  intros [Ha Hp Hc] Hl. unfold load_filter in Hl. unfold filter_of.
  apply res_bind_Ok in Hl as (has_asn & -> & Hl). apply res_bind_Ok in Hl as (has_prefix & -> & Hl). simpl.
  assert (∀ x, asn_only (l ++ [x]) = asn_only l ++ asn_only [x] ∧ prefix_only (l ++ [x]) = prefix_only l ++ prefix_only [x]
    ∧ ∀ a, combined a (l ++ [x]) = combined a l ++ combined a [x]) as Happ.
  { intros x. unfold asn_only, prefix_only, combined. by rewrite !omap_app; split_and!; [..|intros a; rewrite omap_app]. }
  destruct has_asn, has_prefix.
  - apply res_bind_Ok in Hl as (v & -> & Hl). simpl. apply res_bind_Ok in Hl as (a & -> & Hl). simpl.
    apply res_bind_Ok in Hl as (v' & -> & Hl). simpl. apply res_bind_Ok in Hl as (p & -> & [= <-]). simpl. eexists. split; [done|].
    destruct (Happ (Some a, Some p)) as (E1 & E2 & E3). split; simpl; rewrite ?E1, ?E2; simpl; rewrite ?app_nil_r; [done..|].
    intros b. rewrite dict_set_get, E3. simpl. specialize (Hc b). destruct (decide (b = a)) as [->|Hne].
    + rewrite decide_True by done. rewrite ipset_of_snoc. destruct (dict_get a _); simpl; [by rewrite Hc|by rewrite Hc].
    + rewrite decide_False by done. by rewrite app_nil_r.
  - apply res_bind_Ok in Hl as (v & -> & Hl). simpl. apply res_bind_Ok in Hl as (a & -> & [= <-]). simpl. eexists. split; [done|].
    destruct (Happ (Some a, None)) as (E1 & E2 & E3). split; simpl; rewrite ?E1, ?E2; simpl; rewrite ?app_nil_r; [|done|].
    + intros b. rewrite oset_add_elem, Ha, elem_of_app, list_elem_of_singleton. done.
    + intros b. rewrite E3. simpl. rewrite app_nil_r. apply Hc.
  - apply res_bind_Ok in Hl as (v' & -> & Hl). simpl. apply res_bind_Ok in Hl as (p & -> & [= <-]). simpl. eexists. split; [done|].
    destruct (Happ (None, Some p)) as (E1 & E2 & E3). split; simpl; rewrite ?E1, ?E2; simpl; rewrite ?app_nil_r; [done| |].
    + by rewrite ipset_of_snoc, Hp.
    + intros b. rewrite E3. simpl. rewrite app_nil_r. apply Hc.
  - injection Hl as <-. simpl. eexists. split; [done|].
    destruct (Happ (None, None)) as (E1 & E2 & E3). split; simpl; rewrite ?E1, ?E2; simpl; rewrite ?app_nil_r; [done..|].
    intros b. rewrite E3. simpl. rewrite app_nil_r. apply Hc.
Qed.
Lemma load_filters_holds items f l f' :
  filters_hold f l → load_filters_loop f items = Ok f' →
  ∃ l', Forall2 (λ item x, filter_of item = Ok x) items l' ∧ filters_hold f' (l ++ l').
Proof.
  revert f l. induction items as [|item items IH]; intros f l Hf Hl.
  - injection Hl as <-. exists []. rewrite app_nil_r. split; [constructor|done].
  - apply res_bind_Ok in Hl as (f1 & H1 & Hl). destruct (load_filter_holds _ _ _ _ Hf H1) as (x & Hx & Hf1).
    destruct (IH _ _ Hf1 Hl) as (l' & Hall & Hf'). exists (x :: l'). rewrite <- app_assoc in Hf'. by split; [constructor|].
Qed.

(** A ROA is matched by a filter: by its AS number, by a prefix that covers it,
    or by both. *)
Definition filter_matches (asn : Z) (p : IP) (x : option Z * option IP) : Prop :=
  match x with
  | (Some a, None) => a = asn
  | (None, Some q) => ip_contains p q = true
  | (Some a, Some q) => a = asn ∧ ip_contains p q = true
  | (None, None) => False
  end.
(** The filters that concern an address of the ROA. *)
Definition address_filtered (asn : Z) (p : IP) (a : Z) (x : option Z * option IP) : Prop :=
  ∃ q, x.2 = Some q ∧ match x.1 with Some n => n = asn | None => True end
       ∧ ip_version q = ip_version p ∧ (ip_first q ≤ a ≤ ip_last q)%Z.

(** What the loaded filters discard. *)
Lemma slurm_filtered_holds f l asn p :
  IPSetLaws → filters_hold f l →
  ((∃ x, x ∈ l ∧ filter_matches asn p x) → slurm_filtered f asn p = true)
  ∧ (slurm_filtered f asn p = true →
     (∃ x, x ∈ l ∧ x = (Some asn, None))
     ∨ ∀ a, (ip_first p ≤ a ≤ ip_last p)%Z → ∃ x, x ∈ l ∧ address_filtered asn p a x).
Proof.
  intros [Hcov Honly] [Ha Hp Hc]. specialize (Hc asn).
  assert (∀ q, q ∈ combined asn l ↔ (Some asn, Some q) ∈ l) as Hcomb.
  { intros q. unfold combined. rewrite list_elem_of_omap. split.
    - intros ([[b|] [r|]] & Hin & E); try done. case_decide; by simplify_eq.
    - intros Hin. exists (Some asn, Some q). split; [exact Hin|]. by rewrite decide_True. }
  assert (∀ q, q ∈ prefix_only l ↔ (None, Some q) ∈ l) as Hpre.
  { intros q. unfold prefix_only. rewrite list_elem_of_omap. split.
    - intros ([[b|] [r|]] & Hin & E); by simplify_eq.
    - intros Hin. by eexists (_, _). }
  assert (asn ∈ asn_only l ↔ (Some asn, None) ∈ l) as Hasn.
  { unfold asn_only. rewrite list_elem_of_omap. split.
    - intros ([[b|] [r|]] & Hin & E); by simplify_eq.
    - intros Hin. by eexists (_, _). }
  unfold slurm_filtered. rewrite !orb_true_iff, bool_decide_eq_true, Ha, Hp. split.
  - intros ([[b|] [q|]] & Hin & Hm); simpl in Hm.
    + destruct Hm as [-> Hm]. right. apply Hcomb in Hin. destruct (dict_get asn _).
      * subst. by eapply Hcov.
      * rewrite Hc in Hin. by apply elem_of_nil in Hin.
    + left; left. apply Hasn. by subst.
    + left; right. apply Hpre in Hin. by eapply Hcov.
    + done.
  - intros [[Hin|Hin]|Hin].
    + left. apply Hasn in Hin. eauto.
    + right. intros a Hr. destruct (Honly _ _ Hin a Hr) as (q & Hq & ? & ?). apply Hpre in Hq.
      exists (None, Some q). split; [done|]. by exists q.
    + right. intros a Hr. destruct (dict_get asn _); [|done]. subst.
      destruct (Honly _ _ Hin a Hr) as (q & Hq & ? & ?). apply Hcomb in Hq.
      exists (Some asn, Some q). split; [done|]. by exists q.
Qed.
Lemma no_filters_hold : filters_hold no_filters [].
Proof. split; [done|done|]. intros a. done. Qed.
(** C30. The SLURM filters discard what RFC 8416 says they match, and only that: every
    ROA matched by a filter is discarded, and a discarded ROA has a filtered AS number, or
    only addresses within the prefixes of filters for its AS number or for any. *)
Theorem slurm_filters_exact items f asn p :
  IPSetLaws → load_filters_loop no_filters items = Ok f →
  ∃ l, Forall2 (λ item x, filter_of item = Ok x) items l
    ∧ ((∃ x, x ∈ l ∧ filter_matches asn p x) → slurm_filtered f asn p = true)
    ∧ (slurm_filtered f asn p = true →
       (∃ x, x ∈ l ∧ x = (Some asn, None))
       ∨ ∀ a, (ip_first p ≤ a ≤ ip_last p)%Z → ∃ x, x ∈ l ∧ address_filtered asn p a x).
Proof.
  intros Hlaws Hl. destruct (load_filters_holds items no_filters [] f no_filters_hold Hl) as (l & Hall & Hf).
  exists l. split; [done|]. by apply slurm_filtered_holds.
Qed.
End Slurm.

(** ** What an import saves *)

Section Saving.
Context `{IPSetLib} `{Radix node_data} `{redis : Redis} `{Datrie (list roa_tuple)} (cfg : configuration).
Context (collate_lt : string → string → bool) (uuid : nat → string).
Context (json_loads : string → string + pyval) (repr : pyval → string).

Definition pseudo_key (roa : ROA) : string * string * string :=
  (roa_pk roa, RPKI_IRR_PSEUDO_SOURCE, roa_object_class (ROA_prefix roa)).
(** The pseudo-IRR objects of some ROAs are written, and nothing else. *)
Definition pseudo_written (roas : list ROA) (m m' : store) : Prop :=
  ∀ k, match list.last (List.filter (λ roa, bool_decide (pseudo_key roa = k)) roas) with
       | Some roa => ∃ text, roa_text cfg roa = Ok text ∧ m' !! k = Some text
       | None => m' !! k = m !! k
       end.
Lemma pseudo_written_cons roa roas m m' text :
  roa_text cfg roa = Ok text → pseudo_written roas (<[pseudo_key roa := text]> m) m' → pseudo_written (roa :: roas) m m'.
Proof using Type.
  intros Ht Hw k. specialize (Hw k). cbn [List.filter]. case_bool_decide as Hk.
  - rewrite list.last_cons. destruct (list.last _); [done|]. exists text. split; [done|]. by rewrite Hw, Hk, lookup_insert_eq.
  - destruct (list.last _); [done|]. by rewrite Hw, lookup_insert_ne.
Qed.

(** *** What the documents say *)

(** A record of the ROA data, or an assertion of the SLURM file. *)
Inductive roa_item := Record_of (v : pyval) | Assertion_of (v : pyval).
(** The AS number, the prefix and the trust anchor of an item. *)
Definition names (item : roa_item) (asn : Z) (prefix : IP) (ta : pyval) : Prop :=
  let v := match item with Record_of v | Assertion_of v => v end in
  (∃ a text, json_item v "asn" = Ok a
    ∧ json_as_number cfg (match item with Record_of _ => a | Assertion_of _ => VStr ("AS" +:+ json_str repr a) end) = Ok (text, asn))
  ∧ (∃ q, json_item v "prefix" = Ok q ∧ IP_py q = Ok prefix)
  ∧ match item with Record_of v => json_item v "ta" = Ok ta | Assertion_of _ => ta = VStr SLURM_TRUST_ANCHOR end.
(** The longest prefix that it authorises; without one, that of the assertion's prefix. *)
Definition authorises (item : roa_item) (prefix : IP) (max_length : Z) : Prop :=
  match item with
  | Record_of v => ∃ n, json_item v "maxLength" = Ok n ∧ json_int n = Ok max_length
  | Assertion_of v =>
      ∃ n, json_get v "maxPrefixLength" VNone = Ok n
        ∧ if is_none n then max_length = ip_prefixlen prefix else json_int n = Ok max_length
  end.
(** The ROAs that the items give under some filters: an item of the SLURM file is
    exempt from them, every other one that a filter matches is left out, and what is
    left out is matched by its AS number or by the addresses of its prefix. *)
Inductive gives (l : list (option Z * option IP)) : list roa_item → list ROA → Prop :=
| gives_nothing : gives l [] []
| gives_roa item items asn prefix ta max_length roas :
    names item asn prefix ta → authorises item prefix max_length → (ip_prefixlen prefix ≤ max_length)%Z →
    (ta ≠ VStr SLURM_TRUST_ANCHOR → ¬ ∃ x, x ∈ l ∧ filter_matches asn prefix x) →
    gives l items roas →
    gives l (item :: items)
      ({| ROA_prefix := prefix; ROA_prefix_str := ip_str prefix; ROA_asn := asn; ROA_max_length := max_length;
          ROA_trust_anchor := json_str repr ta |} :: roas)
| gives_filtered item items asn prefix ta roas :
    names item asn prefix ta → ta ≠ VStr SLURM_TRUST_ANCHOR →
    ((∃ x, x ∈ l ∧ x = (Some asn, None))
     ∨ ∀ a, (ip_first prefix ≤ a ≤ ip_last prefix)%Z → ∃ x, x ∈ l ∧ address_filtered asn prefix a x) →
    gives l items roas → gives l (item :: items) roas.
(** The lists in the documents. *)
Definition roas_document (text : string) (records : list pyval) : Prop :=
  ∃ v roas, json_loads text = inr v ∧ json_item v "roas" = Ok roas ∧ json_iter roas = Ok records.
Definition slurm_items (slurm : pyval) (section_ key : string) : res (list pyval) :=
  v ← json_get slurm section_ (VDict []); items ← json_get v key (VList []); json_iter items.
Definition slurm_document (text : option string) (filters assertions : list pyval) : Prop :=
  match text with
  | None | Some "" => filters = [] ∧ assertions = []
  | Some text =>
      ∃ slurm version, json_loads text = inr slurm ∧ json_get slurm "slurmVersion" VNone = Ok version ∧ is_one version = true
        ∧ slurm_items slurm "validationOutputFilters" "prefixFilters" = Ok filters
        ∧ slurm_items slurm "locallyAddedAssertions" "prefixAssertions" = Ok assertions
  end.

Definition is_roa_item (r : pyval) (item : roa_item) : Prop :=
  match item with Record_of v => r = v | Assertion_of v => assertion_roa repr v = Ok r end.
Lemma load_assertions_items assertions v v' records :
  json_iter v = Ok records → load_assertions repr v assertions = Ok v' →
  ∃ added, json_iter v' = Ok (records ++ added) ∧ Forall2 is_roa_item added (Assertion_of <$> assertions).
Proof using Type.
  revert v records. induction assertions as [|a assertions IH]; intros v records Hv Hl.
  { injection Hl as <-. exists []. rewrite app_nil_r. by split; [|constructor]. }
  apply res_bind_Ok in Hl as (r & Hr & (v1 & Hv1 & Hl)%res_bind_Ok). destruct v; try discriminate Hv1. injection Hv1 as <-.
  injection Hv as ->. destruct (IH (VList (records ++ [r])) (records ++ [r]) eq_refl Hl) as (added & Hadded & Hall).
  exists (r :: added). rewrite <- app_assoc in Hadded. split; [exact Hadded|]. rewrite fmap_cons. by constructor.
Qed.
Lemma load_roa_data_items rpki_json slurm_json f v dicts :
  load_roa_data json_loads repr rpki_json slurm_json = Ok (f, v) → json_iter v = Ok dicts →
  ∃ records filters assertions l, roas_document rpki_json records ∧ slurm_document slurm_json filters assertions
    ∧ Forall2 (λ item x, filter_of item = Ok x) filters l ∧ filters_hold f l
    ∧ Forall2 is_roa_item dicts ((Record_of <$> records) ++ (Assertion_of <$> assertions)).
Proof using Type.
  intros (roas & Hroas & Hl)%res_bind_Ok Hiter.
  assert (∃ v0, json_loads rpki_json = inr v0 ∧ json_item v0 "roas" = Ok roas) as (v0 & Hv0 & Hitem).
  { unfold _load_roa_dicts in Hroas. destruct (json_loads rpki_json) as [e|v0]; [done|]. exists v0. split; [done|].
    destruct (json_item v0 "roas") as [x|[]] eqn:E; try done. }
  assert (∀ records : list pyval, Forall2 is_roa_item records (Record_of <$> records)) as Hrec.
  { intros records. apply Forall2_fmap_r, Forall2_same_length_lookup_2; [done|]. intros i x y Hx Hy. simpl. congruence. }
  assert (f = no_filters ∧ v = roas → slurm_document slurm_json [] [] → ∃ records filters assertions l,
    roas_document rpki_json records ∧ slurm_document slurm_json filters assertions
    ∧ Forall2 (λ item x, filter_of item = Ok x) filters l ∧ filters_hold f l
    ∧ Forall2 is_roa_item dicts ((Record_of <$> records) ++ (Assertion_of <$> assertions))) as Hnone.
  { intros [-> ->] Hdoc. exists dicts, [], [], []. split; [by exists v0, roas|]. split; [done|]. split; [constructor|].
    split; [apply no_filters_hold|]. rewrite app_nil_r. apply Hrec. }
  destruct slurm_json as [text|]; [|injection Hl as <- <-; by apply Hnone].
  destruct (String.eqb_spec text "") as [->|Hne]; [injection Hl as <- <-; by apply Hnone|]. clear Hnone.
  unfold _load_slurm in Hl. destruct (json_loads text) as [e|slurm] eqn:Hslurm; [done|].
  apply res_bind_Ok in Hl as (version & Hversion & Hl). destruct (is_one version) eqn:Hone; [|done]. cbn [negb] in Hl.
  apply res_bind_Ok in Hl as (output & Ho & (filters & Hf & (filters' & Hf' & (f0 & Hload & (local & Hloc & (ass & Ha & (assertions & Hass
    & (v' & Hadd & [= <- <-])%res_bind_Ok)%res_bind_Ok)%res_bind_Ok)%res_bind_Ok)%res_bind_Ok)%res_bind_Ok)%res_bind_Ok).
  destruct (load_filters_holds _ _ _ _ no_filters_hold Hload) as (l & Hall & Hholds).
  assert (∃ records, json_iter roas = Ok records) as [records Hrecords].
  { destruct assertions as [|a assertions]; [injection Hadd as ->; by exists dicts|].
    apply res_bind_Ok in Hadd as (r & _ & (v1 & Hv1 & _)%res_bind_Ok). destruct roas; try done. by eexists. }
  destruct (load_assertions_items _ _ _ _ Hrecords Hadd) as (added & Hadded & Hitems).
  exists records, filters', assertions, l. split; [by exists v0, roas|]. split.
  { destruct text; [done|]. exists slurm, version. split_and!; [done..| |]; unfold slurm_items.
    - rewrite Ho. cbn [mbind res_bind]. rewrite Hf. exact Hf'.
    - rewrite Hloc. cbn [mbind res_bind]. rewrite Ha. exact Hass. }
  split; [done|]. split; [exact Hholds|]. rewrite Hiter in Hadded. injection Hadded as ->. by apply Forall2_app.
Qed.

Lemma from_slurm_true ta : from_slurm ta = true ↔ ta = VStr SLURM_TRUST_ANCHOR.
Proof using Type. unfold from_slurm. destruct ta; try done. rewrite String.eqb_eq. split; congruence. Qed.
Lemma roa_of_dict_Ok f r o : roa_of_dict cfg repr f r = Ok o → read_roa_dict cfg repr f r = Ok o.
Proof using Type. unfold roa_of_dict. destruct (read_roa_dict cfg repr f r) as [x|[]]; done. Qed.
Lemma ROA_init_Ok prefix asn n ta roa :
  ROA_init repr prefix asn n ta = Ok roa →
  ∃ ml, json_int n = Ok ml ∧ (ip_prefixlen prefix ≤ ml)%Z
    ∧ roa = {| ROA_prefix := prefix; ROA_prefix_str := ip_str prefix; ROA_asn := asn; ROA_max_length := ml;
               ROA_trust_anchor := json_str repr ta |}.
Proof using Type.
  unfold ROA_init. destruct (json_int n) as [ml|[]]; try done. destruct (Z.ltb_spec ml (ip_prefixlen prefix)); [done|].
  intros [= <-]. by exists ml.
Qed.
(** A record as the loop reads it is what its item says. *)
Lemma item_names r item asn a prefix q ta :
  is_roa_item r item → json_item r "asn" = Ok a → json_as_number cfg a = Ok asn → json_item r "prefix" = Ok q → IP_py q = Ok prefix →
  json_item r "ta" = Ok ta → names item asn.2 prefix ta.
Proof using Type.
  destruct asn as [text asn]. destruct item as [v|v]; simpl.
  - intros -> Ha Hn Hq Hp Hta. split; [by exists a, text|]. by split; [exists q|].
  - unfold assertion_roa. intros (n & Hml & (n' & Hml' & (a' & Ha' & (q' & Hq' & [= <-])%res_bind_Ok)%res_bind_Ok)%res_bind_Ok)%res_bind_Ok.
    cbn. intros [= <-] Hn [= <-] Hp [= <-]. split; [by exists a', text|]. by split; [exists q'|].
Qed.
Lemma item_authorises r item n prefix q ml :
  is_roa_item r item → json_item r "prefix" = Ok q → IP_py q = Ok prefix → json_item r "maxLength" = Ok n → json_int n = Ok ml →
  authorises item prefix ml.
Proof using Type.
  destruct item as [v|v]; simpl.
  - intros -> Hq Hp Hn Hml. by exists n.
  - unfold assertion_roa. intros (m & Hm & (m' & Hm' & (a & Ha & (q' & Hq' & [= <-])%res_bind_Ok)%res_bind_Ok)%res_bind_Ok)%res_bind_Ok.
    cbn. intros [= <-] Hp [= <-] Hml. exists m. split; [exact Hm|]. destruct (is_none m); [|by injection Hm' as ->].
    apply res_bind_Ok in Hm' as (q2 & Hq2 & (ip & Hip & [= <-])%res_bind_Ok). rewrite Hq' in Hq2. injection Hq2 as <-.
    rewrite Hp in Hip. injection Hip as <-. by injection Hml as <-.
Qed.
Lemma dicts_give f l dicts items read :
  IPSetLaws → filters_hold f l → Forall2 is_roa_item dicts items → Forall2 (λ d o, roa_of_dict cfg repr f d = Ok o) dicts read →
  gives l items (omap id read).
Proof using Type.
  intros Hlaws Hf Hitems. revert read. induction Hitems as [|r item dicts items Hr Hitems IH]; intros read Hread.
  { apply Forall2_nil_inv_l in Hread as ->. constructor. }
  apply Forall2_cons_inv_l in Hread as (o & read' & Ho%roa_of_dict_Ok & Hread & ->). specialize (IH _ Hread).
  apply res_bind_Ok in Ho as (a & Ha & ([text asn] & Hn & (q & Hq & (prefix & Hp & (ta & Hta & Ho)%res_bind_Ok)%res_bind_Ok)%res_bind_Ok)%res_bind_Ok).
  pose proof (item_names r item (text, asn) a prefix q ta Hr Ha Hn Hq Hp Hta) as Hnames.
  destruct (slurm_filtered_holds f l asn prefix Hlaws Hf) as [Hmatch Honly].
  destruct (negb (from_slurm ta) && slurm_filtered f asn prefix) eqn:Hd.
  - injection Ho as <-. apply andb_true_iff in Hd as [Hs Hd]. eapply gives_filtered; [exact Hnames| |by apply Honly|exact IH].
    intros ->. discriminate Hs.
  - apply res_bind_Ok in Ho as (n & Hml & (roa & Hroa & [= <-])%res_bind_Ok). apply ROA_init_Ok in Hroa as (ml & Hint & Hlen & ->).
    cbn [omap list_omap id]. eapply gives_roa; [exact Hnames|by eapply item_authorises|exact Hlen| |exact IH].
    intros Hta' Hm. apply andb_false_iff in Hd as [Hd|Hd]; [|by rewrite (Hmatch Hm) in Hd].
    apply Hta', from_slurm_true. by apply negb_false_iff.
Qed.

Lemma ROA_save_store v roa h h' :
  store_ok h → ROA_save cfg uuid v roa h = (h', Ok tt) →
  ∃ text, roa_text cfg roa = Ok text ∧ stored h' = <[pseudo_key roa := text]> (stored h) ∧ store_ok h'
    ∧ h_roa_insert_buffer h' = h_roa_insert_buffer h ++ [roa_table_row roa].
Proof.
  intros Hok (h1 & [] & Hi & (h2 & [scope msg] & [-> _]%st_lift_Ok & Hu)%st_bind_Ok)%st_bind_Ok.
  unfold insert_roa_object in Hi. apply st_bind_Ok in Hi as (h0 & [] & ->%permitted_Ok & [= <-]).
  set (h1 := with_roa_buffer _ h) in Hu. assert (store_ok h1) as Hok1 by (by destruct Hok).
  pose proof (upsert_rendered_mode (f := h_roa_insert_buffer) _ _ _ _ _ _ _ _ _ _ _ _ _ Hu) as Hb.
  apply upsert_rendered_store in Hu as (src & text & [= <-] & Ht & E & Hok' & _); [|done|done].
  exists text. split; [done|]. split; [exact E|]. split; [done|exact Hb].
Qed.
Lemma import_roa_dicts_store f v dicts h h' roas :
  store_ok h → import_roa_dicts cfg uuid repr f v dicts h = (h', Ok roas) →
  ∃ read, Forall2 (λ d o, roa_of_dict cfg repr f d = Ok o) dicts read ∧ roas = omap id read
    ∧ pseudo_written roas (stored h) (stored h') ∧ store_ok h'
    ∧ h_roa_insert_buffer h' = h_roa_insert_buffer h ++ (roa_table_row <$> roas).
Proof.
  revert h roas. induction dicts as [|d dicts IH]; intros h roas Hok.
  { intros [= <- <-]. exists []. rewrite app_nil_r. split_and!; [constructor|done|by intros k|done|done]. }
  intros (h1 & o & [-> Ho]%st_lift_Ok & Hrest)%st_bind_Ok. destruct o as [roa|].
  - apply st_bind_Ok in Hrest as (h2 & [] & Hs & (h3 & roas' & Hr & [= <- <-])%st_bind_Ok).
    destruct (ROA_save_store _ _ _ _ Hok Hs) as (text & Ht & E & Hok2 & Hb).
    destruct (IH _ _ Hok2 Hr) as (read & Hall & -> & Hw & Hok' & Hb').
    exists (Some roa :: read). rewrite E in Hw. split_and!; [by constructor|done| |done|].
    + by eapply pseudo_written_cons.
    + rewrite Hb', Hb, <- app_assoc. done.
  - destruct (IH _ _ Hok Hrest) as (read & Hall & -> & Hw & Hok' & Hb').
    exists (None :: read). split_and!; [by constructor|done..].
Qed.

(** C29. A ROA import that succeeds saves exactly the ROAs that the documents give, in
    their order: one for each record of the ROA data and then for each assertion of the
    SLURM file, with its AS number, prefix, trust anchor and maximum length, which is not
    shorter than the prefix.  A record that one of the SLURM filters matches is left out,
    unless it bears the SLURM file's trust anchor, as assertions do; and one that is left
    out has the AS number of a filter, or only addresses within the prefixes of filters.
    With each ROA its pseudo-IRR object is written, and nothing else; the new rows of the
    ROA table agree with the ROA objects that validation uses. *)
Theorem roa_import_exact rpki_json slurm_json h h' roas :
  IPSetLaws → store_ok h → ROADataImporter cfg uuid json_loads repr rpki_json slurm_json h = (h', Ok roas) →
  ∃ records filters assertions l,
    roas_document rpki_json records ∧ slurm_document slurm_json filters assertions
    ∧ Forall2 (λ item x, filter_of item = Ok x) filters l
    ∧ gives l ((Record_of <$> records) ++ (Assertion_of <$> assertions)) roas
    ∧ pseudo_written roas (stored h) (stored h') ∧ store_ok h'
    ∧ ∃ rows, h_roa_insert_buffer h' = h_roa_insert_buffer h ++ rows ∧ Forall2 saved_as roas rows.
Proof using Type.
  intros Hlaws Hok (h1 & [f data] & [-> Hload]%st_lift_Ok & (h2 & v & [-> _]%st_lift_Ok & (h3 & dicts & [-> Hi]%st_lift_Ok & Hrun)%st_bind_Ok)%st_bind_Ok)%st_bind_Ok.
  destruct (import_roa_dicts_store _ _ _ _ _ _ Hok Hrun) as (read & Hall & -> & Hw & Hok' & Hb).
  destruct (load_roa_data_items _ _ _ _ _ Hload Hi) as (records & filters & assertions & l & Hdoc & Hslurm & Hfilters & Hf & Hitems).
  exists records, filters, assertions, l. split_and!; [done..|by eapply dicts_give|done|done|].
  eexists. split; [exact Hb|]. clear. induction (omap id read) as [|roa roas IH]; constructor; [done|exact IH].
Qed.
End Saving.

(** ** At concrete inputs *)

Module ConcreteIPSet.
Import ConcreteIP.
#[export] Instance list_ipset : IPSetLib := {|
  ipset := list IP;
  ipset_empty := [];
  ipset_add s p := s ++ [p];
  ipset_contains s p := existsb (λ q, ip_contains p q) s;
|}.
Lemma ipset_of_list (l : list IP) : ipset_of l = l.
Proof.
  unfold ipset_of. assert (∀ acc, foldl ipset_add acc l = acc ++ l) as Hl; [|by rewrite Hl].
  induction l as [|p l IH]; intros acc; simpl; [by rewrite app_nil_r|]. rewrite IH. by rewrite <- app_assoc.
Qed.
#[export] Instance list_ipset_laws : IPSetLaws.
Proof.
  split.
  - intros l p q Hq Hc. rewrite ipset_of_list. apply existsb_exists. exists q. by rewrite <- list_elem_of_In.
  - intros l p Hc a Ha. rewrite ipset_of_list in Hc. apply existsb_exists in Hc as (q & Hq%list_elem_of_In & Hc).
    exists q. split; [done|]. destruct (decide (ip_version p = ip_version q)) as [E|E].
    + apply ip_contains_ok in Hc; [|done]. split; [done|]. lia.
    + by rewrite ip_contains_version in Hc.
Qed.
End ConcreteIPSet.

Module RoaExamples.
Import ConcreteIP ConcreteIPSet ConcreteRadix ConcreteRedis ConcreteTrie.

Definition ex_cfg : configuration :=
  conf_of (VDict [("rpki", VDict [("pseudo_irr_remarks", VStr "AS{asn} {prefix}")])]).
Definition ex_uuid (n : nat) : string := str_of_Z (Z.of_nat n).
Definition ex_repr (_ : pyval) : string := "".
Definition ex_json_roa (asn prefix : string) (ml : Z) (ta : string) : pyval :=
  VDict [("asn", VStr asn); ("prefix", VStr prefix); ("maxLength", VInt ml); ("ta", VStr ta)].
Definition ex_slurm (filters assertions : list pyval) : pyval :=
  VDict [("slurmVersion", VInt 1); ("validationOutputFilters", VDict [("prefixFilters", VList filters)]);
         ("locallyAddedAssertions", VDict [("prefixAssertions", VList assertions)])].
(** A decoder that knows two documents. *)
Definition ex_loads (roas : list pyval) (slurm : pyval) (s : string) : string + pyval :=
  if String.eqb s "roas" then inr (VDict [("roas", VList roas)])
  else if String.eqb s "slurm" then inr slurm else inl "no JSON".
Definition ex_db : database :=
  {| db_objects := []; db_suspended := []; db_journal := []; db_status := []; db_roas := [];
     db_protected := []; db_next_uuid := 0; db_next_global := 1 |}.
Definition h0 : handler := DatabaseHandler_init ex_cfg false ex_db 100.
Lemma roa_h0_ok : store_ok h0.
Proof. split; [apply NoDup_nil_2|]. intros u Hu. by apply elem_of_nil in Hu. Qed.
Notation ex_import roas slurm :=
  (ROADataImporter ex_cfg ex_uuid (ex_loads roas slurm) ex_repr "roas" (Some "slurm") h0).

Definition ex_filters : list pyval :=
  [VDict [("asn", VInt 64497)]; VDict [("prefix", VStr "198.51.100.0/24")];
   VDict [("asn", VInt 64496); ("prefix", VStr "203.0.113.0/24")]].
Definition ex_roas : list pyval :=
  [ex_json_roa "AS64496" "192.0.2.0/24" 26 "TA"; ex_json_roa "64497" "192.0.2.0/24" 24 "TA";
   ex_json_roa "AS64496" "203.0.113.0/25" 25 "TA"; ex_json_roa "AS64498" "203.0.113.0/25" 25 "TA"].

(** A ROA that a combined filter covers, and one for another AS number. *)
Lemma slurm_filters_exact_witness :
  ∃ f l, load_filters_loop no_filters ex_filters = Ok f
    ∧ Forall2 (λ item x, filter_of item = Ok x) ex_filters l
    ∧ ((∃ x, x ∈ l ∧ x = (Some 64496%Z, None))
       ∨ ∀ a, (ip_first (lit "203.0.113.0/25") ≤ a ≤ ip_last (lit "203.0.113.0/25"))%Z →
              ∃ x, x ∈ l ∧ address_filtered 64496 (lit "203.0.113.0/25") a x)
    ∧ slurm_filtered f 64498 (lit "203.0.113.0/25") = false.
Proof.
  destruct (load_filters_loop no_filters ex_filters) as [f|] eqn:E; [|discriminate].
  destruct (slurm_filters_exact ex_filters f 64496 (lit "203.0.113.0/25") list_ipset_laws E) as (l & Hall & _ & Hf).
  exists f, l. injection E as <-. split; [reflexivity|]. split; [exact Hall|]. split; [|vm_compute; reflexivity].
  apply Hf. vm_compute. reflexivity.
Defined.

(** The record for AS64497 and the one that the combined filter covers are discarded,
    the record for AS64498 is kept; the assertion is added. *)
Definition ex_assertion : pyval := VDict [("asn", VInt 64499); ("prefix", VStr "198.51.100.0/24")].
Definition ex_shown (roa : ROA) : string * Z * Z * string :=
  (ROA_prefix_str roa, ROA_asn roa, ROA_max_length roa, ROA_trust_anchor roa).
Definition ex_kept : list (string * Z * Z * string) :=
  [("192.0.2.0/24", 64496%Z, 26%Z, "TA"); ("203.0.113.0/25", 64498%Z, 25%Z, "TA");
   ("198.51.100.0/24", 64499%Z, 24%Z, "SLURM file")].
Definition ex_text : string :=
  join NL ["route:          192.0.2.0/24"; "descr:          RPKI ROA for 192.0.2.0/24 / AS64496";
           "remarks:        AS64496 192.0.2.0/24"; "max-length:     26"; "origin:         AS64496";
           "source:         RPKI  # Trust Anchor: TA"; ""].
Lemma ex_imported :
  ∃ h' roas, ex_import ex_roas (ex_slurm ex_filters [ex_assertion]) = (h', Ok roas)
    ∧ ex_shown <$> roas = ex_kept ∧ stored h' !! ("192.0.2.0/24AS64496/ML26", "RPKI", "route") = Some ex_text.
Proof.
  assert (∀ x : handler * res (list ROA),
    match x with
    | (h', Ok roas) => bool_decide (ex_shown <$> roas = ex_kept)
        && bool_decide (stored h' !! ("192.0.2.0/24AS64496/ML26", "RPKI", "route") = Some ex_text)
    | _ => false
    end = true →
    ∃ h' roas, x = (h', Ok roas) ∧ ex_shown <$> roas = ex_kept
      ∧ stored h' !! ("192.0.2.0/24AS64496/ML26", "RPKI", "route") = Some ex_text) as Hx.
  { intros [h' [roas|]] Hx; [|discriminate Hx]. apply andb_true_iff in Hx as [H1%bool_decide_eq_true H2%bool_decide_eq_true].
    by exists h', roas. }
  apply Hx. vm_compute. reflexivity.
Qed.
Lemma ex_documents records filters assertions :
  roas_document (ex_loads ex_roas (ex_slurm ex_filters [ex_assertion])) "roas" records →
  slurm_document (ex_loads ex_roas (ex_slurm ex_filters [ex_assertion])) (Some "slurm") filters assertions →
  records = ex_roas ∧ filters = ex_filters ∧ assertions = [ex_assertion].
Proof.
  intros (v & roas & [= <-] & [= <-] & [= <-]) (slurm & version & [= <-] & _ & _ & Hf & Ha).
  injection Hf as <-. by injection Ha as <-.
Qed.
Lemma roa_import_exact_witness :
  ∃ h' roas l rows, ex_shown <$> roas = ex_kept
    ∧ Forall2 (λ item x, filter_of item = Ok x) ex_filters l
    ∧ gives ex_cfg ex_repr l ((Record_of <$> ex_roas) ++ [Assertion_of ex_assertion]) roas
    ∧ h_roa_insert_buffer h' = rows ∧ Forall2 saved_as roas rows
    ∧ pseudo_written ex_cfg roas (stored h0) (stored h')
    ∧ stored h' !! ("192.0.2.0/24AS64496/ML26", "RPKI", "route") = Some ex_text.
Proof.
  destruct ex_imported as (h' & roas & Er & Hr & Ht).
  destruct (roa_import_exact ex_cfg ex_uuid (ex_loads ex_roas (ex_slurm ex_filters [ex_assertion])) ex_repr
    "roas" (Some "slurm") h0 h' roas list_ipset_laws roa_h0_ok Er)
    as (records & filters & assertions & l & Hdoc & Hslurm & Hf & Hg & Hw & _ & rows & Hb & Hs).
  destruct (ex_documents _ _ _ Hdoc Hslurm) as (-> & -> & ->).
  exists h', roas, l, rows. split; [exact Hr|]. split; [exact Hf|]. split; [exact Hg|].
  split; [exact Hb|]. split; [exact Hs|]. split; [exact Hw|exact Ht].
Defined.

(** A SLURM assertion for what a ROA of the data authorises already, or the same
    authorisation under two trust anchors, gives two pseudo-IRR objects with one key: the
    objects are inserted as guaranteed new, and the whole import fails. *)
Definition ex_commit (roas : list pyval) (slurm : pyval) : res unit :=
  match ex_import roas slurm with
  | (h, Ok _) => (commit ex_cfg (λ a b, bool_decide (a = b)) ex_uuid h).2
  | (_, Raise e) => Raise e
  end.
Example duplicate_assertion_fails :
  ex_commit [ex_json_roa "AS64496" "192.0.2.0/24" 24 "TA"] (ex_slurm [] []) = Ok tt
  ∧ ex_commit [ex_json_roa "AS64496" "192.0.2.0/24" 24 "TA"]
      (ex_slurm [] [VDict [("asn", VInt 64496); ("prefix", VStr "192.0.2.0/24")]]) = Raise integrity_error
  ∧ ex_commit [ex_json_roa "AS64496" "192.0.2.0/24" 24 "TA"; ex_json_roa "AS64496" "192.0.2.0/24" 24 "TB"]
      (ex_slurm [] []) = Raise integrity_error.
Proof. split_and!; vm_compute; reflexivity. Qed.
End RoaExamples.
