(* ===== verification/Retrieval.v ===== *)
(** * Retrieving files ([irrd/mirroring/retrieval.py])

    The network, the file system, gzip and SHA-256 are parameters; what is done
    with URLs, hashes and contents is modelled. *)
From S2P Require Import Prelude PyStr Net Fields.

(** ** [urllib.parse] *)

(** [a.rpartition(c)[2]]. *)
Fixpoint after_last (c : ascii) (s : string) : string :=
  match s with
  | "" => ""
  | String d s' => if has_char c s then (if has_char c s' then after_last c s' else if bool_decide (d = c) then s' else s) else s
  end.
Definition before (c : ascii) (s : string) : string := match split_once c s with Some (a, _) => a | None => s end.

Record url_parts := { url_scheme_ : string; url_netloc : string; url_path : string }.
Definition USES_NETLOC : list string :=
  [""; "ftp"; "http"; "gopher"; "nntp"; "telnet"; "imap"; "wais"; "file"; "mms"; "https"; "shttp"; "snews";
   "prospero"; "rtsp"; "rtsps"; "rtspu"; "rsync"; "svn"; "svn+ssh"; "sftp"; "nfs"; "git"; "git+ssh"; "ws"; "wss"].
Definition USES_PARAMS : list string :=
  [""; "ftp"; "hdl"; "prospero"; "http"; "imap"; "https"; "shttp"; "rtsp"; "rtsps"; "rtspu"; "sip"; "sips"; "mms";
   "sftp"; "tel"].
(** The path without the [;parameters] of its last segment. *)
Definition without_params (path : string) : string :=
  if has_char "/"%char path then
    let last := after_last "/"%char path in
    str_take (String.length path - String.length last) path +:+ before ";"%char last
  else before ";"%char path.
Definition urlsplit (value : string) : url_parts :=
  let '(scheme, rest) := url_scheme (url_clean value) in
  let '(netloc, rest) :=
    if startswith "//" rest then span_if (λ c, negb (has_char c "/?#")) (str_drop 2 rest) else ("", rest) in
  let path := before "?"%char (before "#"%char rest) in
  {| url_scheme_ := scheme; url_netloc := netloc;
     url_path := if bool_decide (scheme ∈ USES_PARAMS) then without_params path else path |}.
(** [urlparse(url).hostname]; [None] when there is none. *)
Definition hostname (u : url_parts) : option string :=
  let hostinfo := after_last "@"%char (url_netloc u) in
  let host := match split_once "["%char hostinfo with
              | Some (_, bracketed) => before "]"%char bracketed
              | None => before ":"%char hostinfo
              end in
  if String.eqb host "" then None
  else Some match split_once "%"%char host with
            | Some (h, zone) => str_lower h +:+ "%" +:+ zone
            | None => str_lower host
            end.
(** [urlunparse((scheme, netloc, path, "", "", ""))]. *)
Definition urlunparse (scheme : string) (netloc : option string) (path : string) : string :=
  let given := match netloc with Some n => negb (String.eqb n "") | None => false end in
  let url :=
    if given || (negb (String.eqb scheme "") && bool_decide (scheme ∈ USES_NETLOC) && negb (startswith "//" path))
    then "//" +:+ default "" netloc +:+ (if negb (String.eqb path "") && negb (startswith "/" path) then "/" else "") +:+ path
    else path in
  if String.eqb scheme "" then url else scheme +:+ ":" +:+ url.

(** ** [bytes.fromhex], as lower-case hexadecimal *)

Fixpoint fromhex (s : string) : option string :=
  match s with
  | "" => Some ""
  | String c s' =>
      if is_space c then fromhex s'
      else match s' with
           | String d s'' => if is_hex c && is_hex d then rest ← fromhex s''; Some (str_lower (String c (String d rest))) else None
           | "" => None
           end
  end.

Section Retrieval.
(** Downloading over HTTP or FTP, reading a local file, gunzipping, and the
    hexadecimal digest. *)
Context (download read_local : string → res string) (gunzip : string → res string) (sha256_hex : string → string).

Definition check_file_hash_sha256 (filename content : string) (expected_hash : option string) : res unit :=
  match expected_hash with
  | None => Ok tt
  | Some expected =>
      if String.eqb expected "" then Ok tt
      else match fromhex expected with
           | None => Raise (ValueError "non-hexadecimal number found in fromhex() arg")
           | Some h =>
               if String.eqb (sha256_hex content) h then Ok tt
               else Raise (ValueError ("Invalid hash in " +:+ filename +:+ ": expected " +:+ expected +:+ ", found "
                                         +:+ sha256_hex content))
           end
  end.
Definition gunzip_if (name content : string) : res string :=
  if endswith ".gz" name then gunzip content else Ok content.

Definition scheme_error {A} (url scheme : string) : res A :=
  Raise (ValueError ("Invalid URL: " +:+ url +:+ " - scheme " +:+ scheme +:+ " is not supported")).
(** [retrieve_file(url, return_contents=True)]. *)
Definition retrieve_contents (url : string) : res string :=
  let u := urlsplit url in
  if bool_decide (url_scheme_ u ∈ ["ftp"; "http"; "https"]) then c ← download url; Ok (strip c)
  else if String.eqb (url_scheme_ u) "file" then c ← read_local (url_path u); Ok (strip c)
  else scheme_error url (url_scheme_ u).
(** [retrieve_file(url, return_contents=False, expected_hash=...)]: what the file
    it returns holds.  The hash is that of the file as retrieved. *)
Definition retrieve_file (url : string) (expected_hash : option string) : res string :=
  let u := urlsplit url in
  if bool_decide (url_scheme_ u ∈ ["ftp"; "http"; "https"]) then
    c ← download url; _ ← check_file_hash_sha256 url c expected_hash; gunzip_if url c
  else if String.eqb (url_scheme_ u) "file" then
    c ← read_local (url_path u); _ ← check_file_hash_sha256 (url_path u) c expected_hash; gunzip_if (url_path u) c
  else scheme_error url (url_scheme_ u).
End Retrieval.
