(* ===== verification/Nrtm4.v ===== *)
(** * NRTMv4 files ([irrd/mirroring/nrtm4/jsonseq.py], [nrtm4_types.py])

    JSON sequences and the documents of an NRTMv4 repository with the rules the
    code checks on them.  The JSON coder and pydantic's reading of the declared
    types are parameters. *)
From S2P Require Import Prelude PyStr Conf Models Retrieval.

Definition UPDATE_NOTIFICATION_FILENAME : string := "update-notification-file.jose".

(** ** JSON sequences *)

Definition RS : ascii := "030"%char.
Definition CHUNK_SIZE : nat := Z.to_nat (1024 * 100).

Section JsonSeq.
(** [ujson.dumps], encoded, and [ujson.loads], with the message of its error. *)
Context (json_dumps : pyval → string) (json_loads : string → string + pyval).

Definition jsonseq_encode_one (input_item : pyval) (output_stream : string) : string :=
  output_stream +:+ String RS (json_dumps input_item +:+ NL).
Definition jsonseq_encode (input_stream : list pyval) (output_stream : string) : string :=
  foldl (λ out item, jsonseq_encode_one item out) output_stream input_stream.

(** A generator, run to its end: the items it yields, and the exception that ends it. *)
Definition generated (A : Type) : Type := list A * option exn.
Definition then_gen {A} (g : generated A) (next : generated A) : generated A :=
  match g with
  | (l, Some e) => (l, Some e)
  | (l, None) => (l ++ next.1, next.2)
  end.
Definition yield_loads (sequence : string) : generated pyval :=
  match json_loads sequence with
  | inl m => ([], Some (ValueError m))
  | inr v => ([v], None)
  end.
Fixpoint yield_sequences (sequences : list string) : generated pyval :=
  match sequences with
  | [] => ([], None)
  | s :: sequences' =>
      if String.eqb s "" then yield_sequences sequences'
      else then_gen (yield_loads s) (yield_sequences sequences')
  end.
(** [yield_buffer]: the complete sequences, and what stays in the buffer. *)
Definition split_buffer (buffer : string) : list string * string :=
  let parts := split_on RS buffer in (removelast parts, List.last parts "").
Fixpoint decode_chunks (buffer : string) (chunks : list string) : generated pyval :=
  match chunks with
  | [] =>
      let '(sequences, buffer) := split_buffer buffer in
      then_gen (yield_sequences sequences) (if String.eqb buffer "" then ([], None) else yield_loads buffer)
  | chunk :: chunks' =>
      let '(sequences, buffer) := split_buffer (buffer +:+ chunk) in
      then_gen (yield_sequences sequences) (decode_chunks buffer chunks')
  end.
Fixpoint read_chunks (fuel size : nat) (s : string) : list string :=
  match fuel with
  | 0%nat => []
  | S fuel => if String.eqb s "" then [] else str_take size s :: read_chunks fuel size (str_drop size s)
  end.
Definition jsonseq_decode (input_stream : string) : generated pyval :=
  decode_chunks "" (read_chunks (S (String.length input_stream)) CHUNK_SIZE input_stream).
End JsonSeq.

(** ** Documents *)

Record NRTM4FileReference := { fr_version : Z; fr_url : string; fr_hash : string }.
Record NRTM4UpdateNotificationFile := {
  unf_source : string;
  unf_session_id : string;
  unf_version : Z;
  unf_timestamp : Z;
  unf_snapshot : NRTM4FileReference;
  unf_deltas : list NRTM4FileReference;
  unf_next_signing_key : option string;
}.
(** The header of a snapshot or of a delta. *)
Inductive nrtm4_header_type := type_snapshot | type_delta.
Record NRTM4Header := {
  hd_type : nrtm4_header_type;
  hd_source : string;
  hd_session_id : string;
  hd_version : Z;
}.
Definition origin_identifier (h : NRTM4Header) : string :=
  hd_session_id h +:+ (match hd_type h with type_snapshot => "/S" | type_delta => "/D" end) +:+ str_of_Z (hd_version h).

Definition full_url (f : NRTM4FileReference) (unf_url : string) : string :=
  let u := urlsplit unf_url in
  urlunparse (url_scheme_ u) (hostname u) (replace_all UPDATE_NOTIFICATION_FILENAME (fr_url f) (url_path u)).

(** [validate_expected_values] for one value: the message of its error. *)
Definition expected_value (key expected found : string) : list string :=
  if String.eqb expected found then []
  else ["Value error, Mismatch in " +:+ key +:+ " field: expected " +:+ expected +:+ ", found " +:+ found].
Definition first_error (l : list string) : res unit :=
  match l with [] => Ok tt | m :: _ => Raise (ValidationError m) end.
Definition validate_header (source session_id : string) (version : Z) (h : NRTM4Header) : res NRTM4Header :=
  _ ← first_error (expected_value "source" source (hd_source h)
                   ++ expected_value "session_id" session_id (hd_session_id h)
                   ++ expected_value "version" (str_of_Z version) (str_of_Z (hd_version h)));
  Ok h.

Definition min_delta_version (u : NRTM4UpdateNotificationFile) : option Z :=
  match unf_deltas u with [] => None | d :: _ => Some (fr_version d) end.
Definition max_delta_version (u : NRTM4UpdateNotificationFile) : option Z :=
  match List.rev (unf_deltas u) with [] => None | d :: _ => Some (fr_version d) end.
(** [list(range(a, b + 1))]. *)
Definition versions_between (a b : Z) : list Z :=
  (λ i, a + Z.of_nat i)%Z <$> seq 0 (Z.to_nat (b + 1 - a)).
Definition check_version_consistency (u : NRTM4UpdateNotificationFile) : list string :=
  let expected_unf_version :=
    match max_delta_version u with
    | Some n => if (n =? 0)%Z then fr_version (unf_snapshot u) else Z.max (fr_version (unf_snapshot u)) n
    | None => fr_version (unf_snapshot u)
    end in
  if negb (unf_version u =? expected_unf_version)%Z
  then ["Value error, Update Notification File version " +:+ str_of_Z (unf_version u) +:+ " should have version "
        +:+ str_of_Z expected_unf_version +:+ " based on Snapshot and Delta versions"]
  else
    match min_delta_version u, max_delta_version u with
    | Some a, Some b =>
        if bool_decide (fr_version <$> unf_deltas u = versions_between a b) then []
        else ["Value error, Deltas in Update Notification File do not have contiguous serials."]
    | _, _ => []
    end.
(** Times are in microseconds. *)
Definition MICROSECONDS_PER_HOUR : Z := 3600000000.
Definition HOURS_24 : Z := (24 * MICROSECONDS_PER_HOUR)%Z.

Section Unf.
Context (timestamp_text : Z → string).
(** [eckey_from_str]: the message of its [ValueError]. *)
Context (eckey_error : string → option string).

Definition validate_timestamp (now timestamp : Z) : list string :=
  if (HOURS_24 <? now - timestamp)%Z
  then ["timestamp: Value error, Update Notification File is older than 24 hours, timestamp " +:+ timestamp_text timestamp]
  else [].
Definition validate_next_signing_key (next_signing_key : option string) : list string :=
  match next_signing_key with
  | Some k =>
      if String.eqb k "" then []
      else match eckey_error k with
           | Some ve => ["next_signing_key: Value error, Update Notification File has invalid next_signing_key "
                         +:+ k +:+ ": " +:+ ve]
           | None => []
           end
  | None => []
  end.
(** The validators of a notification file whose fields have their types: those of
    fields first, and those of the model when they pass. *)
Definition validate_unf (now : Z) (expected_source : option string) (u : NRTM4UpdateNotificationFile)
  : res NRTM4UpdateNotificationFile :=
  match validate_timestamp now (unf_timestamp u) ++ validate_next_signing_key (unf_next_signing_key u) with
  | [] =>
      _ ← first_error (match expected_source with Some s => expected_value "source" s (unf_source u) | None => [] end);
      _ ← first_error (check_version_consistency u);
      Ok u
  | errors => Raise (ValidationError (join "; " errors))
  end.
End Unf.
