(* ===== verification/Nrtm4Client.v ===== *)
(** * The NRTMv4 client ([irrd/mirroring/nrtm4/nrtm4_client.py])

    Signatures, keys and pydantic's reading of the declared types are
    parameters. *)
From S2P Require Import Prelude PyStr Conf Net Models Text Rpki ScopeFilter Fields RpslObjects RpslParser Queries RoutePref Database DatabaseHandler Nrtm Importers RoaImport Retrieval Nrtm4.

(** [unf, next_version] where [next_version] may be [None]. *)
Definition client_error {A} (m : string) : res A := Raise (NRTM4ClientError m).

Section NRTM4Client.
Context `{IPyLib} `{Radix node_data} `{redis : Redis} `{Datrie (list roa_tuple)} (cfg : configuration).
Context (uuid : nat → string) (timestamp_text : Z → string) (cidr_text : cidr → string).
Context (gpg_import_keys : string → list string * option string) (gpg_uids : string → list string).
(** Retrieval ([Retrieval.v]), JSON, and the reading of typed documents. *)
Context (retrieve_text : string → res string) (retrieve_data : string → option string → res string).
Context (json_loads : string → string + pyval).
Context (read_unf : string → string + NRTM4UpdateNotificationFile).
Context (read_header : nrtm4_header_type → pyval → string + NRTM4Header).
(** [eckey_from_str] and [jws_deserialize] with the messages of their
    [ValueError]s; the payload of a valid signature; [str] of a JSON value. *)
Context (eckey_error : string → option string) (jws_deserialize : string → string → string + string).
Context (repr : pyval → string).

Record NRTM4Client := {
  nc_source : string;
  nc_rpki_aware : bool;
  nc_notification_file_url : string;
  nc_force_reload : bool;
  nc_last_status : NRTM4ClientDatabaseStatus;
}.
Definition some_nonempty (o : option string) : option string :=
  match o with Some s => if String.eqb s "" then None else Some s | None => None end.

Definition _current_db_status (source : string) : M (bool * NRTM4ClientDatabaseStatus) :=
  status ← query_database cfg uuid (status_of (str_upper source));
  mret match status with
       | Some s => (s_force_reload s, s_nrtm4_client s)
       | None => (false, client_status_none)
       end.
Definition NRTM4Client_init (source : string) : M NRTM4Client :=
  '(force_reload, last_status) ← _current_db_status source;
  mret {| nc_source := source; nc_rpki_aware := truthy (get_setting cfg "rpki.roa_source");
          nc_notification_file_url := pyval_str (source_setting cfg source "nrtm4_client_notification_file_url");
          nc_force_reload := force_reload; nc_last_status := last_status |}.

(** ** The notification file *)

Definition key_setting (c : NRTM4Client) : pyval := source_setting cfg (nc_source c) "nrtm4_client_initial_public_key".
(** The loop over the keys: the payload and key, or the errors. *)
Fixpoint try_keys (content : string) (keys_pem : list (option string)) (errors : list (string * string))
  : res ((string * string) + list (string * string)) :=
  match keys_pem with
  | [] => Ok (inr errors)
  | key :: keys' =>
      match some_nonempty key with
      | None => try_keys content keys' errors
      | Some key_pem =>
          match eckey_error key_pem with
          | Some m => Raise (ValueError m)
          | None =>
              match jws_deserialize content key_pem with
              | inr payload => Ok (inl (payload, key_pem))
              | inl ve => try_keys content keys' (dict_set key_pem ve errors)
              end
          end
      end
  end.
Definition setting_str (v : pyval) : option string := match v with VStr s => Some s | _ => None end.
(** The signature is one of the initial key only. *)
Definition valid_for_initial_key (c : NRTM4Client) (content : string) : bool :=
  match setting_str (key_setting c) with
  | Some key => match eckey_error key with
                | Some _ => false
                | None => match jws_deserialize content key with inr _ => true | inl _ => false end
                end
  | None => false
  end.
Definition no_signature_message (c : NRTM4Client) (errors : list (string * string)) : string :=
  nc_source c +:+ ": No valid signature found for any known keys"
  +:+ concat_str ((λ x : string * string, "; attempting '" +:+ replace_all NL "\n" x.1 +:+ "' resulted in error: '"
                                          +:+ x.2 +:+ "'") <$> errors).
Definition initial_key_message (c : NRTM4Client) (current_key : string) : string :=
  nc_source c +:+ ": No valid signature found for the Update Notification File. The signature is valid for public key "
  +:+ pyval_str (key_setting c)
  +:+ " set in the nrtm4_client_initial_public_key setting, but that is only used for initial validation."
  +:+ " IRRD is currently expecting the public key " +:+ current_key
  +:+ match some_nonempty (nc_next_key (nc_last_status c)) with Some k => " or " +:+ k | None => "" end
  +:+ ". If you want to clear IRRDs key information and revert to nrtm4_client_initial_public_key, use the"
  +:+ " 'irrdctl nrtm4 client-clear-known-keys' command.".
Definition _deserialize_unf (c : NRTM4Client) (unf_content : string) : res (string * string) :=
  let current_key := some_nonempty (nc_current_key (nc_last_status c)) in
  let keys_pem := match current_key with
                  | Some k => [Some k; nc_next_key (nc_last_status c)]
                  | None => [setting_str (key_setting c)]
                  end in
  r ← try_keys unf_content keys_pem [];
  match r with
  | inl found => Ok found
  | inr errors =>
      match current_key with
      | Some k => client_error (if valid_for_initial_key c unf_content then initial_key_message c k
                                else no_signature_message c errors)
      | None => client_error (no_signature_message c errors)
      end
  end.
Definition _retrieve_unf (c : NRTM4Client) (now : Z) : res (NRTM4UpdateNotificationFile * string) :=
  if String.eqb (nc_notification_file_url c) ""
  then Raise (RuntimeError "NRTM4 client called for a source without a Update Notification File URL")
  else
    unf_signed ← retrieve_text (nc_notification_file_url c);
    '(unf_payload, used_key) ← _deserialize_unf c unf_signed;
    match read_unf unf_payload with
    | inl m => Raise (ValidationError m)
    | inr u => u ← validate_unf timestamp_text eckey_error now (Some (nc_source c)) u; Ok (u, used_key)
    end.

(** ** Versions and file references *)

(** The tests that need the last known state: whether the snapshot is needed. *)
Definition session_lost (c : NRTM4Client) (u : NRTM4UpdateNotificationFile) : bool :=
  nc_force_reload c
  || match nc_session_id (nc_last_status c), nc_version (nc_last_status c) with
     | Some session_id, Some n => (n =? 0)%Z || negb (String.eqb (unf_session_id u) session_id)
     | _, _ => true
     end.
Definition _find_next_version (c : NRTM4Client) (u : NRTM4UpdateNotificationFile) (last_version : option Z)
  : res (option Z) :=
  let given := match last_version with Some n => negb (n =? 0)%Z | None => false end in
  if negb given && session_lost c u then Ok None
  else
    let last := if given then default 0%Z last_version else default 0%Z (nc_version (nc_last_status c)) in
    if (unf_version u <? last)%Z
    then client_error ("Update Notification File " +:+ nc_source c +:+ "/" +:+ unf_session_id u
      +:+ " has matching session ID, but version " +:+ str_of_Z (unf_version u) +:+ " is older than local version "
      +:+ str_of_Z last)
    else
      let next_version := (last + 1)%Z in
      match min_delta_version u with
      | Some n => if negb (n =? 0)%Z && (next_version <? n)%Z then Ok None else Ok (Some next_version)
      | None => Ok (Some next_version)
      end.

Definition current_files (u : NRTM4UpdateNotificationFile) : list (string * list string) :=
  foldl (λ d f, dict_set ("delta-" +:+ str_of_Z (fr_version f)) [fr_url f; fr_hash f] d)
    [("snapshot-" +:+ str_of_Z (fr_version (unf_snapshot u)), [fr_url (unf_snapshot u); fr_hash (unf_snapshot u)])]
    (unf_deltas u).
Definition nth_detail (l : list string) (i : nat) : string := List.nth i l "".
Definition rewritten_message (c : NRTM4Client) (reference : string) (current previous : list string) : string :=
  nc_source c +:+ ": Reference " +:+ reference +:+ " has filename '" +:+ nth_detail current 0 +:+ "' with hash '"
  +:+ nth_detail current 1 +:+ "' in current Update Notification File, but had filename '" +:+ nth_detail previous 0
  +:+ "' with hash '" +:+ nth_detail previous 1
  +:+ "' in a previous Update Notification File. Server is rewriting history.".
Fixpoint check_previous (c : NRTM4Client) (previous current : list (string * list string)) : res unit :=
  match current with
  | [] => Ok tt
  | (reference, details) :: current' =>
      match dict_get reference previous with
      | Some p => if bool_decide (details = p) then check_previous c previous current'
                  else client_error (rewritten_message c reference details p)
      | None => check_previous c previous current'
      end
  end.
Definition _validate_aggregate_previous_file_hashes_from_unf (c : NRTM4Client) (u : NRTM4UpdateNotificationFile)
  : res (list (string * list string)) :=
  match nc_previous_file_hashes (nc_last_status c) with
  | None | Some [] => Ok (current_files u)
  | Some previous => _ ← check_previous c previous (current_files u); Ok (current_files u)
  end.

(** ** Loading *)

(** [next(iterator)] of the decoded file, validated as its header, and the items after it. *)
Definition header_of (type : nrtm4_header_type) (source session_id : string) (version : Z) (g : generated pyval)
  : res (NRTM4Header * generated pyval) :=
  match g with
  | ([], Some e) => Raise e
  | ([], None) => Raise StopIteration
  | (v :: items, e) =>
      match read_header type v with
      | inl m => Raise (ValidationError m)
      | inr h => h ← validate_header source session_id version h; Ok (h, (items, e))
      end
  end.
(** A loop over a generator. *)
Fixpoint for_items {A} (f : A → M unit) (items : list A) (e : option exn) : M unit :=
  match items with
  | [] => match e with Some e => st_raise e | None => mret tt end
  | v :: items' => _ ← f v; for_items f items' e
  end.

(** One object of a snapshot; the counters of the importer are kept in the state
    of the loop. *)
Fixpoint load_snapshot_items (p : import_parser) (counts : import_counts) (items : list pyval) (e : option exn)
  : M import_counts :=
  match items with
  | [] => match e with Some e => st_raise e | None => mret counts end
  | v :: items' =>
      text ← st_lift (json_item v "object");
      match text with
      | VStr s =>
          '(counts, o) ← parse_object cfg gpg_import_keys gpg_uids p counts s;
          _ ← (match o with
               | Some o => upsert_rpsl_object cfg uuid timestamp_text o jo_mirror false None None
               | None => mret tt
               end);
          load_snapshot_items p counts items' e
      | _ => st_raise AttributeError
      end
  end.
Definition _load_snapshot (c : NRTM4Client) (u : NRTM4UpdateNotificationFile) : M import_counts :=
  let f := unf_snapshot u in
  content ← st_lift (retrieve_data (full_url f (nc_notification_file_url c)) (Some (fr_hash f)));
  '(_, (items, e)) ← st_lift (header_of type_snapshot (nc_source c) (unf_session_id u) (fr_version f)
                                 (jsonseq_decode json_loads content));
  roa_validator ← (if nc_rpki_aware c then
                     b ← query_database cfg uuid (λ d, BulkRouteROAValidator_init cidr_text cfg (db_roas d) None);
                     b ← st_lift b; mret (Some b)
                   else mret None);
  _ ← delete_all_rpsl_objects_with_journal cfg uuid (nc_source c) false;
  _ ← disable_journaling;
  p ← st_lift (import_parser_init cfg (nc_source c) false roa_validator);
  counts ← load_snapshot_items p counts_zero items e;
  _ ← enable_journaling;
  mret counts.

Definition invalid_entry (source : string) (h : NRTM4Header) (ke : string) (item : pyval) : exn :=
  NRTM4ClientError ("Delta file " +:+ source +:+ "/" +:+ hd_session_id h +:+ "/" +:+ str_of_Z (hd_version h)
                      +:+ " contained invalid entry: " +:+ py_repr ke +:+ ": " +:+ json_str repr item).
(** [NRTM4_OPERATION_MAPPING[action]]. *)
Definition nrtm4_operation (action : pyval) : res DatabaseOperation :=
  match action with
  | VStr s =>
      if String.eqb s "add_modify" then Ok add_or_update
      else if String.eqb s "delete" then Ok delete_op else Raise (KeyError s)
  | VList _ | VDict _ => Raise type_error
  | _ => Raise (KeyError (pyval_str action))
  end.
(** Text that is used as a string, and text that may be missing. *)
Definition json_text (v : pyval) : res string := match v with VStr s => Ok s | _ => Raise AttributeError end.
Definition json_text_opt (v : pyval) : res (option string) :=
  match v with VStr s => Ok (Some s) | v => if truthy v then Raise AttributeError else Ok None end.
Definition delta_operation (c : NRTM4Client) (object_class_filter : option (list string)) (h : NRTM4Header)
    (item : pyval) : res NRTMOperation :=
  action ← json_item item "action";
  operation ← nrtm4_operation action;
  match operation with
  | add_or_update =>
      text ← json_item item "object"; text ← json_text_opt text;
      NRTMOperation_init (nc_source c) add_or_update None (Some (origin_identifier h)) text None None
        false (nc_rpki_aware c) object_class_filter
  | delete_op =>
      rpsl_pk ← json_item item "primary_key"; rpsl_pk ← json_text rpsl_pk;
      object_class ← json_item item "object_class"; object_class ← json_text object_class;
      NRTMOperation_init (nc_source c) delete_op None (Some (origin_identifier h)) None (Some (str_upper rpsl_pk))
        (Some (str_lower object_class)) false (nc_rpki_aware c) object_class_filter
  end.
Definition catch_key_error (c : NRTM4Client) (h : NRTM4Header) (item : pyval) (m : M unit) : M unit := λ s,
  match m s with
  | (s', Raise (KeyError ke)) => (s', Raise (invalid_entry (nc_source c) h ke item))
  | r => r
  end.
Definition _process_delta_item (c : NRTM4Client) (object_class_filter : option (list string)) (h : NRTM4Header)
    (item : pyval) : M unit :=
  catch_key_error c h item
    (op ← st_lift (delta_operation c object_class_filter h item);
     _ ← save cfg uuid timestamp_text gpg_import_keys gpg_uids op; mret tt).

(** One delta file: the operations of its items. *)
Definition load_delta (c : NRTM4Client) (u : NRTM4UpdateNotificationFile) (object_class_filter : option (list string))
    (f : NRTM4FileReference) : M unit :=
  content ← st_lift (retrieve_data (full_url f (nc_notification_file_url c)) (Some (fr_hash f)));
  '(h, (items, e)) ← st_lift (header_of type_delta (nc_source c) (unf_session_id u) (fr_version f)
                                 (jsonseq_decode json_loads content));
  _ ← for_items (_process_delta_item c object_class_filter h) items e;
  match items with
  | [] => st_lift (client_error ("Delta file " +:+ nc_source c +:+ "/" +:+ unf_session_id u +:+ "/"
            +:+ str_of_Z (fr_version f) +:+ " did not contain any entries."))
  | _ => mret tt
  end.
Definition _load_deltas (c : NRTM4Client) (u : NRTM4UpdateNotificationFile) (next_version : Z) : M unit :=
  st_iter (load_delta c u (get_object_class_filter_for_source cfg (nc_source c)))
    (List.filter (λ f, (next_version <=? fr_version f)%Z) (unf_deltas u)).

(** ** The run *)

(** What one run loads. *)
Definition load_deltas_from (c : NRTM4Client) (u : NRTM4UpdateNotificationFile) (next_delta_version : option Z) : M unit :=
  match max_delta_version u with
  | Some n =>
      match next_delta_version with
      | Some next => if negb (n =? 0)%Z && (next <=? n)%Z then _load_deltas c u next else mret tt
      | None => if (n =? 0)%Z then mret tt else st_raise type_error
      end
  | None => mret tt
  end.
Definition load_changes (c : NRTM4Client) (u : NRTM4UpdateNotificationFile) (force_deltas : bool) : M bool :=
  next_delta_version ← st_lift (_find_next_version c u None);
  match next_delta_version with
  | None =>
      _ ← _load_snapshot c u;
      next_delta_version ← st_lift (_find_next_version c u (Some (fr_version (unf_snapshot u))));
      _ ← (if force_deltas then load_deltas_from c u next_delta_version else mret tt);
      mret true
  | Some _ => _ ← load_deltas_from c u next_delta_version; mret false
  end.
Definition new_client_status (u : NRTM4UpdateNotificationFile) (used_key : string) (deltas_deferred : bool)
    (hashes : list (string * list string)) : NRTM4ClientDatabaseStatus := {|
  nc_session_id := Some (unf_session_id u);
  nc_version := Some (if deltas_deferred then fr_version (unf_snapshot u) else unf_version u);
  nc_current_key := Some used_key; nc_next_key := unf_next_signing_key u;
  nc_previous_file_hashes := Some hashes |}.
Definition _run_client (c : NRTM4Client) (force_load_delta_even_after_snapshot : bool) : M bool :=
  h ← st_get;
  '(u, used_key) ← st_lift (_retrieve_unf c (h_now h));
  has_loaded_snapshot ← load_changes c u force_load_delta_even_after_snapshot;
  hashes ← st_lift (_validate_aggregate_previous_file_hashes_from_unf c u);
  _ ← record_nrtm4_client_status (nc_source c)
        (new_client_status u used_key (has_loaded_snapshot && negb force_load_delta_even_after_snapshot) hashes);
  mret has_loaded_snapshot.
(** [run_client]: validation and value errors become errors of the client. *)
Definition run_client (c : NRTM4Client) (force_load_delta_even_after_snapshot : bool) : M bool := λ h,
  match _run_client c force_load_delta_even_after_snapshot h with
  | (h', Raise e) => (h', Raise (if is_ValueError e then NRTM4ClientError (exn_str e) else e))
  | r => r
  end.
End NRTM4Client.
