(* ===== verification/Nrtm4Server.v ===== *)
(** * The NRTMv4 server ([irrd/mirroring/nrtm4/nrtm4_server.py])

    The repository directory is part of the state.  Compression, hashing,
    signatures and the JSON coder are parameters; the locks that other processes
    may hold, the clock and the random names are inputs of a run. *)
From S2P Require Import Prelude PyStr Conf Net Models Text Rpki RpslObjects RpslParser Queries RoutePref Database DatabaseHandler Nrtm RoaImport Retrieval Nrtm4.

#[export] Instance delta_info_eq : EqDecision delta_info.
Proof. solve_decision. Defined.
#[export] Instance server_status_eq : EqDecision NRTM4ServerDatabaseStatus.
Proof. solve_decision. Defined.

(** A file: its contents, and when they were written. *)
Record repo_file := { f_content : string; f_mtime : Z }.

Section NRTM4Server.
Context `{IPyLib} `{Radix node_data} `{redis : Redis} (cfg : configuration).
Context (collate_lt : string → string → bool) (uuid : nat → string) (timestamp_text : Z → string).
Context (json_dumps : pyval → string) (gzip_compress : string → string) (sha256_hex : string → string).
(** [model_dump_json], signing, and keys. *)
Context (unf_json : NRTM4UpdateNotificationFile → string) (jws_serialize : string → string → string).
Context (eckey_error : string → option string) (public_key : string → string).
Context (source : string).

Record world := {
  w_files : list (string * repo_file);
  w_handler : handler;
  (** The status being worked on and the one last read; [None] before reading. *)
  w_status : NRTM4ServerDatabaseStatus;
  w_original : NRTM4ServerDatabaseStatus;
}.
Notation W := (st world).
Definition with_files (f : list (string * repo_file) → list (string * repo_file)) (w : world) : world := {|
  w_files := f (w_files w); w_handler := w_handler w; w_status := w_status w; w_original := w_original w |}.
Definition with_status4 (f : NRTM4ServerDatabaseStatus → NRTM4ServerDatabaseStatus) (w : world) : world := {|
  w_files := w_files w; w_handler := w_handler w; w_status := f (w_status w); w_original := w_original w |}.
(** A method of the database handler. *)
Definition on_handler {A} (m : M A) : W A := λ w,
  let '(h, r) := m (w_handler w) in
  ({| w_files := w_files w; w_handler := h; w_status := w_status w; w_original := w_original w |}, r).

(** Inputs of one run. *)
Record server_run := {
  run_status_lock : bool;
  run_snapshot_lock : bool;
  run_timestamp : Z;
  run_session_id : string;
  run_delta_token : string;
  run_snapshot_token : string;
}.
Context (run : server_run).

(** ** Status *)

Definition set_session (session_id : option string) (s : NRTM4ServerDatabaseStatus) : NRTM4ServerDatabaseStatus := {|
  ns_session_id := session_id; ns_version := ns_version s;
  ns_last_update_notification_file_update := ns_last_update_notification_file_update s;
  ns_last_snapshot_version := ns_last_snapshot_version s;
  ns_last_snapshot_global_serial := ns_last_snapshot_global_serial s;
  ns_last_snapshot_filename := ns_last_snapshot_filename s;
  ns_last_snapshot_timestamp := ns_last_snapshot_timestamp s; ns_last_snapshot_hash := ns_last_snapshot_hash s;
  ns_previous_deltas := ns_previous_deltas s |}.
Definition new_session (session_id : string) (s : NRTM4ServerDatabaseStatus) : NRTM4ServerDatabaseStatus := {|
  ns_session_id := Some session_id; ns_version := Some 1%Z;
  ns_last_update_notification_file_update := ns_last_update_notification_file_update s;
  ns_last_snapshot_version := None; ns_last_snapshot_global_serial := None;
  ns_last_snapshot_filename := ns_last_snapshot_filename s;
  ns_last_snapshot_timestamp := ns_last_snapshot_timestamp s; ns_last_snapshot_hash := ns_last_snapshot_hash s;
  ns_previous_deltas := [] |}.
Definition add_delta (d : delta_info) (s : NRTM4ServerDatabaseStatus) : NRTM4ServerDatabaseStatus := {|
  ns_session_id := ns_session_id s; ns_version := Some (d_version d);
  ns_last_update_notification_file_update := ns_last_update_notification_file_update s;
  ns_last_snapshot_version := ns_last_snapshot_version s;
  ns_last_snapshot_global_serial := ns_last_snapshot_global_serial s;
  ns_last_snapshot_filename := ns_last_snapshot_filename s;
  ns_last_snapshot_timestamp := ns_last_snapshot_timestamp s; ns_last_snapshot_hash := ns_last_snapshot_hash s;
  ns_previous_deltas := ns_previous_deltas s ++ [d] |}.
Definition set_deltas (l : list delta_info) (s : NRTM4ServerDatabaseStatus) : NRTM4ServerDatabaseStatus := {|
  ns_session_id := ns_session_id s; ns_version := ns_version s;
  ns_last_update_notification_file_update := ns_last_update_notification_file_update s;
  ns_last_snapshot_version := ns_last_snapshot_version s;
  ns_last_snapshot_global_serial := ns_last_snapshot_global_serial s;
  ns_last_snapshot_filename := ns_last_snapshot_filename s;
  ns_last_snapshot_timestamp := ns_last_snapshot_timestamp s; ns_last_snapshot_hash := ns_last_snapshot_hash s;
  ns_previous_deltas := l |}.
Definition set_unf_update (now : Z) (s : NRTM4ServerDatabaseStatus) : NRTM4ServerDatabaseStatus := {|
  ns_session_id := ns_session_id s; ns_version := ns_version s;
  ns_last_update_notification_file_update := Some now;
  ns_last_snapshot_version := ns_last_snapshot_version s;
  ns_last_snapshot_global_serial := ns_last_snapshot_global_serial s;
  ns_last_snapshot_filename := ns_last_snapshot_filename s;
  ns_last_snapshot_timestamp := ns_last_snapshot_timestamp s; ns_last_snapshot_hash := ns_last_snapshot_hash s;
  ns_previous_deltas := ns_previous_deltas s |}.
Definition set_snapshot (filename : string) (version serial now : Z) (hash : string) (s : NRTM4ServerDatabaseStatus)
  : NRTM4ServerDatabaseStatus := {|
  ns_session_id := ns_session_id s; ns_version := ns_version s;
  ns_last_update_notification_file_update := ns_last_update_notification_file_update s;
  ns_last_snapshot_version := Some version; ns_last_snapshot_global_serial := Some serial;
  ns_last_snapshot_filename := Some filename; ns_last_snapshot_timestamp := Some now;
  ns_last_snapshot_hash := Some hash; ns_previous_deltas := ns_previous_deltas s |}.

(** [_update_status]: whether the source has a status, and its reload flag. *)
Definition _update_status : W (option bool) :=
  status ← on_handler (query_database cfg uuid (status_of (str_upper source)));
  match status with
  | None => mret None
  | Some s =>
      _ ← st_modify (λ w, {| w_files := w_files w; w_handler := w_handler w; w_status := s_nrtm4_server s;
                             w_original := s_nrtm4_server s |});
      mret (Some (s_force_reload s))
  end.

(** ** Files *)

Definition file_not_found (name : string) : exn := GenericException ("FileNotFoundError: " +:+ name).
Definition unlink (name : string) : W unit := λ w,
  match dict_get name (w_files w) with
  | Some _ => (with_files (List.filter (λ x, negb (String.eqb x.1 name))) w, Ok tt)
  | None => (w, Raise (file_not_found name))
  end.
Definition write_file (name content : string) : W unit :=
  st_modify (with_files (dict_set name {| f_content := content; f_mtime := run_timestamp run |})).
Definition file_hash (name : string) : W string := λ w,
  match dict_get name (w_files w) with
  | Some f => (w, Ok (sha256_hex (f_content f)))
  | None => (w, Raise (file_not_found name))
  end.
(** [fnmatch(name, prefix + "*.json.gz")]. *)
Definition glob_matches (prefix name : string) : bool :=
  startswith prefix name && endswith ".json.gz" name
  && (String.length prefix + String.length ".json.gz" <=? String.length name)%nat.

Definition _verify_integrity : W bool := λ w,
  let filenames := (d_filename <$> ns_previous_deltas (w_status w))
                   ++ match ns_last_snapshot_filename (w_status w) with
                      | Some s => if String.eqb s "" then [] else [s]
                      | None => []
                      end in
  (w, Ok (forallb (λ f, match dict_get f (w_files w) with Some _ => true | None => false end) filenames)).

(** ** Writing a delta and a snapshot *)

Definition header_json (type : nrtm4_header_type) (session_id : string) (version : Z) : pyval :=
  VDict [("nrtm_version", VInt 4); ("source", VStr source); ("session_id", VStr session_id);
         ("version", VInt version);
         ("type", VStr (match type with type_snapshot => "snapshot" | type_delta => "delta" end))].
Definition published_text (text object_class rpsl_pk : string) : string :=
  dummify_object_text cfg (remove_auth_hashes text) object_class source rpsl_pk.
Definition delta_entry (j : journal_row) : pyval :=
  match j_operation j with
  | add_or_update =>
      VDict [("action", VStr "add_modify");
             ("object", VStr (published_text (j_object_text j) (j_object_class j) (j_rpsl_pk j)))]
  | delete_op =>
      VDict [("action", VStr "delete"); ("object_class", VStr (j_object_class j)); ("primary_key", VStr (j_rpsl_pk j))]
  end.
(** [RPSLDatabaseJournalQuery().sources([source]).serial_global_range(start)]. *)
Definition journal_global_range (start : Z) (d : database) : list journal_row :=
  sort_serial (List.filter (λ j, (start <=? j_serial_global j)%Z) (journal_of (strip (str_upper source)) d)).
Definition session_text : W string := λ w,
  match ns_session_id (w_status w) with
  | Some s => (w, Ok s)
  | None => (w, Raise (ValidationError "session_id: UUID input should be a string, bytes or UUID object"))
  end.
Definition nrtm_file_name (kind session_id : string) (version : Z) (token : string) : string :=
  kind +:+ "." +:+ session_id +:+ "." +:+ str_of_Z version +:+ "." +:+ token +:+ ".json.gz".
Definition _write_delta (version serial_global_start : Z) : W (option string) :=
  journal ← on_handler (query_database cfg uuid (journal_global_range serial_global_start));
  match journal with
  | [] => mret None
  | _ =>
      session_id ← session_text;
      let filename := nrtm_file_name "nrtm-delta" session_id version (run_delta_token run) in
      _ ← write_file filename (gzip_compress
            (jsonseq_encode json_dumps (header_json type_delta session_id version :: (delta_entry <$> journal)) ""));
      mret (Some filename)
  end.
Definition snapshot_item (r : rpsl_row) : pyval :=
  VDict [("object", VStr (published_text (r_object_text r) (r_object_class r) (r_rpsl_pk r)))].
Definition _write_snapshot (version : Z) : W string :=
  q ← st_lift (sources (RPSLDatabaseQuery true true) [source]);
  q ← st_lift (default_suppression q);
  objs ← on_handler (execute_query_objects cfg collate_lt uuid q);
  session_id ← session_text;
  let filename := nrtm_file_name "nrtm-snapshot" session_id version (run_snapshot_token run) in
  _ ← write_file filename (gzip_compress
        (jsonseq_encode json_dumps (header_json type_snapshot session_id version :: (snapshot_item <$> objs)) ""));
  mret filename.

(** ** The notification file *)

Definition eckey_from_config (setting : string) : res string :=
  match source_setting cfg source setting with
  | VStr k => match eckey_error k with Some m => Raise (ValueError m) | None => Ok k end
  | _ => Raise type_error
  end.
Definition eckey_from_config_opt (setting : string) : res (option string) :=
  if truthy (source_setting cfg source setting) then k ← eckey_from_config setting; Ok (Some k) else Ok None.
Definition missing_type {A} (field : string) : res A :=
  Raise (ValidationError (field +:+ ": Input should be a valid value")).
Definition required {A} (field : string) (o : option A) : res A :=
  match o with Some a => Ok a | None => missing_type field end.
Definition delta_reference (d : delta_info) : NRTM4FileReference :=
  {| fr_version := d_version d; fr_url := d_filename d; fr_hash := d_hash d |}.
(** The notification file of a status; pydantic validates it when it is made. *)
Definition unf_of_status (s : NRTM4ServerDatabaseStatus) (next_signing_key : option string)
  : res NRTM4UpdateNotificationFile :=
  session_id ← required "session_id" (ns_session_id s);
  version ← required "version" (ns_version s);
  snapshot_version ← required "version" (ns_last_snapshot_version s);
  url ← required "url" (ns_last_snapshot_filename s);
  hash ← required "hash" (ns_last_snapshot_hash s);
  validate_unf timestamp_text eckey_error (run_timestamp run) None
    {| unf_source := source; unf_session_id := session_id; unf_version := version;
       unf_timestamp := run_timestamp run;
       unf_snapshot := {| fr_version := snapshot_version; fr_url := url; fr_hash := hash |};
       unf_deltas := delta_reference <$> ns_previous_deltas s; unf_next_signing_key := next_signing_key |}.
Definition _write_unf : W unit :=
  w ← st_get;
  next_key ← st_lift (eckey_from_config_opt "nrtm4_server_private_key_next");
  u ← st_lift (unf_of_status (w_status w) (public_key <$> next_key));
  private_key ← st_lift (eckey_from_config "nrtm4_server_private_key");
  _ ← write_file UPDATE_NOTIFICATION_FILENAME (jws_serialize (unf_json u) private_key);
  st_modify (with_status4 (set_unf_update (unf_timestamp u))).

(** ** Expiry *)

Definition NRTM4_SERVER_DELTA_EXPIRY_TIME : Z := HOURS_24.
Definition DANGLING_SNAPSHOT_EXPIRY_TIME : Z := HOURS_24.
Definition delta_expired (d : delta_info) : bool :=
  (NRTM4_SERVER_DELTA_EXPIRY_TIME <? run_timestamp run - d_timestamp d)%Z.
Definition remove_files (p : string * repo_file → bool) : W unit :=
  st_modify (with_files (List.filter (λ x, negb (p x)))).
Definition _expire_deltas : W unit :=
  w ← st_get;
  let deltas := ns_previous_deltas (w_status w) in
  _ ← st_iter (λ d, unlink (d_filename d)) (List.filter delta_expired deltas);
  let new_delta_list := List.filter (λ d, negb (delta_expired d)) deltas in
  _ ← st_modify (with_status4 (set_deltas new_delta_list));
  remove_files (λ x, glob_matches "nrtm-delta." x.1 && negb (bool_decide (x.1 ∈ d_filename <$> new_delta_list))).
Definition _expire_snapshots : W unit :=
  w ← st_get;
  remove_files (λ x, glob_matches "nrtm-snapshot." x.1
    && (DANGLING_SNAPSHOT_EXPIRY_TIME <? run_timestamp run - f_mtime x.2)%Z
    && negb (bool_decide (Some x.1 = ns_last_snapshot_filename (w_status w)))).
Definition _commit_status : W unit :=
  _ ← _expire_deltas;
  _ ← _write_unf;
  w ← st_get;
  _ ← (if decide (w_status w = w_original w) then mret tt
       else on_handler (record_nrtm4_server_status source (w_status w)));
  _ ← _expire_snapshots;
  on_handler (commit cfg collate_lt uuid).

(** ** The run *)

(** The delta of a run: entries of the journal after those already published. *)
Definition serial_global_start (s : NRTM4ServerDatabaseStatus) : res Z :=
  match List.rev (ns_previous_deltas s) with
  | d :: _ => Ok (d_serial_global_end d + 1)%Z
  | [] => match ns_last_snapshot_global_serial s with Some n => Ok (n + 1)%Z | None => Raise type_error end
  end.
Definition write_next_delta (max_serial_global : Z) : W unit :=
  w ← st_get;
  start ← st_lift (serial_global_start (w_status w));
  match ns_version (w_status w) with
  | None => st_raise type_error
  | Some version =>
      let next_version := (version + 1)%Z in
      filename ← _write_delta next_version start;
      match filename with
      | None => mret tt
      | Some filename =>
          hash ← file_hash filename;
          st_modify (with_status4 (add_delta {|
            d_filename := filename; d_hash := hash; d_timestamp := run_timestamp run; d_version := next_version;
            d_serial_global_start := start; d_serial_global_end := max_serial_global |}))
      end
  end.
Definition publish_changes (max_serial_global : Z) : W unit :=
  _ ← write_next_delta max_serial_global; _commit_status.
Definition timedelta_seconds (v : pyval) : res Z :=
  match v with
  | VInt n => Ok (n * 1000000)%Z
  | VBool b => Ok (if b then 1000000 else 0)%Z
  | _ => Raise type_error
  end.
Definition DEFAULT_SOURCE_NRTM4_SERVER_SNAPSHOT_FREQUENCY : Z := 3600 * 4.
Definition snapshot_frequency : res Z :=
  timedelta_seconds (get_setting_default cfg ("sources." +:+ source +:+ ".nrtm4_server_snapshot_frequency")
                       (VInt DEFAULT_SOURCE_NRTM4_SERVER_SNAPSHOT_FREQUENCY)).
Definition should_create_snapshot (s : NRTM4ServerDatabaseStatus) (frequency : Z) : res bool :=
  match ns_last_snapshot_version s with
  | None => Ok true
  | Some v =>
      if (v =? 0)%Z then Ok true
      else if bool_decide (Some v = ns_version s) then Ok false
      else match ns_last_snapshot_timestamp s with
           | Some t => Ok (frequency <? run_timestamp run - t)%Z
           | None => Raise type_error
           end
  end.
Definition write_next_snapshot (is_initialisation : bool) (max_serial_global : Z) : W unit :=
  w ← st_get;
  version ← st_lift (required "version" (ns_version (w_status w)));
  filename ← _write_snapshot version;
  _ ← (if is_initialisation then mret tt
       else _ ← on_handler (commit cfg collate_lt uuid);
            present ← _update_status;
            match present with Some _ => mret tt | None => st_raise AttributeError end);
  hash ← file_hash filename;
  _ ← st_modify (with_status4 (set_snapshot filename version max_serial_global (run_timestamp run) hash));
  _commit_status.
(** [max_serial_global] is read when the writer is made. *)
Definition max_serial (d : database) : Z := default 0%Z (opt_max (j_serial_global <$> db_journal d)).
Definition run_session (max_serial_global : Z) : W unit :=
  w ← st_get;
  let is_initialisation := match ns_session_id (w_status w) with Some _ => false | None => true end in
  _ ← (if is_initialisation then st_modify (with_status4 (new_session (run_session_id run)))
       else publish_changes max_serial_global);
  frequency ← st_lift snapshot_frequency;
  w ← st_get;
  create ← st_lift (should_create_snapshot (w_status w) frequency);
  if create : bool then
    if run_snapshot_lock run then write_next_snapshot is_initialisation max_serial_global
    else (if is_initialisation then _commit_status else mret tt : W unit)
  else mret tt.
(** The run, with the lock and the status: a repository that lacks files starts anew. *)
Definition run_locked (max_serial_global : Z) : W unit :=
  ok ← _verify_integrity;
  _ ← (if ok : bool then mret tt else st_modify (with_status4 (set_session None)));
  run_session max_serial_global.
Definition NRTM4ServerWriter_run : W unit :=
  max_serial_global ← on_handler (query_database cfg uuid max_serial);
  if negb (run_status_lock run) then mret tt
  else
    status ← _update_status;
    match status with
    | None | Some true => mret tt
    | Some false => run_locked max_serial_global
    end.
End NRTM4Server.
