(* ===== verification/Nrtm4Theory.v ===== *)
(** * Correctness of NRTMv4 mirroring

    JSON sequences are read back, what the server publishes is complete, and a
    client follows it. *)
From S2P Require Import Prelude PyStr Conf Net Models Text Rpki RpkiTheory ScopeFilter Fields RpslObjects RpslParser Queries RoutePref RoutePrefTheory Database DatabaseHandler StorageTheory JournalTheory StoreTheory Nrtm NrtmTheory Importers RoaImport Retrieval Nrtm4 Nrtm4Client Nrtm4Server.

(** ** JSON sequences *)

Lemma split_on_append c x y :
  split_on c (x +:+ y) = removelast (split_on c x) ++ split_on c (List.last (split_on c x) "" +:+ y).
Proof.
  induction x as [|d x IH]; [done|]. cbn [String.append split_on]. pose proof (split_on_nonempty c x) as Hne.
  case_bool_decide as Hd; destruct (split_on c x) as [|w ws] eqn:E; try done.
  - rewrite IH. done.
  - rewrite IH. destruct ws as [|w' ws].
    + cbn [removelast List.last app String.append split_on]. rewrite bool_decide_false by done. done.
    + done.
Qed.

Section JsonSeqs.
Context (json_dumps : pyval → string) (json_loads : string → string + pyval).

Lemma then_gen_assoc {A} (a b c : generated A) : then_gen (then_gen a b) c = then_gen a (then_gen b c).
Proof.
  destruct a as [la [ea|]], b as [lb [eb|]], c as [lc ec]; simpl; try done. by rewrite app_assoc.
Qed.
Lemma yield_sequences_app a b :
  yield_sequences json_loads (a ++ b) = then_gen (yield_sequences json_loads a) (yield_sequences json_loads b).
Proof.
  induction a as [|s a IH]; simpl; [by destruct (yield_sequences json_loads b)|].
  destruct (String.eqb s ""); [done|]. by rewrite IH, then_gen_assoc.
Qed.
(** However the stream is cut into chunks, the same items are decoded. *)
Lemma decode_chunks_whole chunks buffer :
  decode_chunks json_loads buffer chunks = decode_chunks json_loads (buffer +:+ concat_str chunks) [].
Proof.
  revert buffer. induction chunks as [|chunk chunks IH]; intros buffer.
  { change (concat_str []) with "". by rewrite str_app_nil_r. }
  change (concat_str (chunk :: chunks)) with (chunk +:+ concat_str chunks).
  rewrite <- str_app_assoc. cbn [decode_chunks]. unfold split_buffer.
  rewrite (split_on_append RS (buffer +:+ chunk) (concat_str chunks)).
  set (parts := split_on RS (buffer +:+ chunk)). rewrite IH. cbn [decode_chunks]. unfold split_buffer.
  set (rest := split_on RS (List.last parts "" +:+ concat_str chunks)).
  assert (rest ≠ []) as Hne by apply split_on_nonempty.
  rewrite removelast_app by done. rewrite yield_sequences_app, then_gen_assoc. f_equal. f_equal.
  assert (List.last (removelast parts ++ rest) "" = List.last rest "") as ->; [|done].
  rewrite (app_removelast_last "" Hne) at 1. rewrite app_assoc, !last_last. done.
Qed.

(** The values that the coder writes without a record separator and reads back,
    with the line break after it. *)
Definition codable (v : pyval) : Prop :=
  has_char RS (json_dumps v) = false ∧ json_loads (json_dumps v +:+ NL) = inr v.

Lemma encode_concat items out :
  jsonseq_encode json_dumps items out = out +:+ concat_str ((λ v, String RS (json_dumps v +:+ NL)) <$> items).
Proof.
  revert out. induction items as [|v items IH]; intros out; [by rewrite str_app_nil_r|].
  change (jsonseq_encode json_dumps (v :: items) out)
    with (jsonseq_encode json_dumps items (jsonseq_encode_one json_dumps v out)).
  rewrite IH. unfold jsonseq_encode_one. rewrite fmap_cons.
  change (concat_str (?x :: ?l)) with (x +:+ concat_str l). by rewrite str_app_assoc.
Qed.
Lemma decode_encoded items :
  Forall codable items →
  decode_chunks json_loads (concat_str ((λ v, String RS (json_dumps v +:+ NL)) <$> items)) [] = (items, None).
Proof.
  intros Hall. cbn [decode_chunks]. unfold split_buffer.
  assert (split_on RS (concat_str ((λ v, String RS (json_dumps v +:+ NL)) <$> items))
    = "" :: ((λ v, json_dumps v +:+ NL) <$> items)) as ->.
  { induction Hall as [|v items [Hv _] Hall IH]; [done|]. rewrite !fmap_cons.
    change (concat_str (?x :: ?l)) with (x +:+ concat_str l).
    change (String RS (json_dumps v +:+ NL) +:+ ?s) with ("" +:+ String RS ((json_dumps v +:+ NL) +:+ s)).
    rewrite split_on_app by done. f_equal. rewrite split_on_append.
    assert (has_char RS (json_dumps v +:+ NL) = false) as Hno by (by rewrite has_char_app, Hv).
    rewrite (split_on_none _ _ Hno). cbn [removelast List.last app].
    destruct items as [|v' items]; [by rewrite str_app_nil_r, split_on_none|].
    rewrite fmap_cons in *. change (concat_str (?x :: ?l)) with (x +:+ concat_str l) in *.
    change (String RS (json_dumps v' +:+ NL) +:+ ?s) with (String RS ((json_dumps v' +:+ NL) +:+ s)) in *.
    rewrite split_on_app by done. f_equal. change (String RS ?s) with ("" +:+ String RS s) in IH.
    rewrite split_on_app in IH by done. by injection IH. }
  assert (∀ l : list pyval, Forall codable l →
    yield_sequences json_loads ((λ v, json_dumps v +:+ NL) <$> l) = (l, None)) as Hy.
  { intros l. induction 1 as [|v l [Hv Hl] Hall' IH]; [done|]. rewrite fmap_cons. cbn [yield_sequences].
    destruct (String.eqb_spec (json_dumps v +:+ NL) "") as [E|_].
    - apply (f_equal String.length) in E. rewrite str_length_app in E. simpl in E. lia.
    - unfold yield_loads. rewrite Hl, IH. done. }
  assert (∀ l : list string, l ≠ [] → removelast ("" :: l) = "" :: removelast l ∧ List.last ("" :: l) "" = List.last l "")
    as Hl by (by intros [|]).
  destruct (decide (items = [])) as [->|Hne]; [done|].
  destruct (Hl ((λ v, json_dumps v +:+ NL) <$> items)) as [-> ->]; [by destruct items|].
  cbn [yield_sequences]. change (String.eqb "" "") with true. cbv iota.
  destruct (exists_last Hne) as (l & v & ->). rewrite fmap_app. change ((λ v, json_dumps v +:+ NL) <$> [v]) with [json_dumps v +:+ NL].
  rewrite removelast_last, last_last. apply Forall_app in Hall as [Hl1 Hv]. apply Forall_singleton in Hv as [_ Hv].
  rewrite (Hy l Hl1). destruct (String.eqb_spec (json_dumps v +:+ NL) "") as [E|_].
  - apply (f_equal String.length) in E. rewrite str_length_app in E. simpl in E. lia.
  - unfold yield_loads. by rewrite Hv.
Qed.
Lemma read_chunks_concat fuel size s :
  (0 < size)%nat → (String.length s < fuel)%nat → concat_str (read_chunks fuel size s) = s.
Proof.
  intros Hs. revert s. induction fuel as [|fuel IH]; intros s Hl; [lia|]. cbn [read_chunks].
  destruct (String.eqb_spec s "") as [->|Hne]; [done|].
  change (concat_str (?x :: ?l)) with (x +:+ concat_str l).
  assert (∀ n t, str_take n t +:+ str_drop n t = t) as Htd.
  { intros n t. revert n. induction t as [|c t IHt]; intros [|n]; try done.
    - change (str_take 0 (String c t)) with "". by rewrite str_drop_0.
    - change (str_take (S n) (String c t)) with (String c (str_take n t)). rewrite str_drop_S.
      change (String c (str_take n t) +:+ ?r) with (String c (str_take n t +:+ r)). by rewrite IHt. }
  assert (String.length (str_drop size s) < fuel)%nat as Hlen.
  { assert (String.length (str_take size s) + String.length (str_drop size s) = String.length s)%nat as E
      by (by rewrite <- str_length_app, Htd).
    destruct s as [|c s]; [done|]. destruct size as [|size]; [lia|].
    change (str_take (S size) (String c s)) with (String c (str_take size s)) in E. simpl in E, Hl. lia. }
  rewrite IH by done. apply Htd.
Qed.

Lemma decode_encode items :
  Forall codable items → jsonseq_decode json_loads (jsonseq_encode json_dumps items "") = (items, None).
Proof.
  intros Hall. rewrite (encode_concat items ""). cbn [String.append]. unfold jsonseq_decode.
  rewrite decode_chunks_whole, read_chunks_concat; [|unfold CHUNK_SIZE; lia|lia].
  cbn [String.append]. by apply decode_encoded.
Qed.

(** Reading a JSON sequence gives back what was written, however the chunks of the
    stream fall. *)
Theorem jsonseq_roundtrip items chunks :
  Forall codable items → concat_str chunks = jsonseq_encode json_dumps items "" →
  decode_chunks json_loads "" chunks = (items, None)
  ∧ jsonseq_decode json_loads (jsonseq_encode json_dumps items "") = (items, None).
Proof.
  intros Hall Hc. split; [|by apply decode_encode]. rewrite decode_chunks_whole, Hc, (encode_concat items "").
  cbn [String.append]. by apply decode_encoded.
Qed.
End JsonSeqs.

(** ** What the server publishes *)

Section Server.
Context `{IPyLib} `{Radix node_data} `{redis : Redis} (cfg : configuration).
Context (collate_lt : string → string → bool) (uuid : nat → string) (timestamp_text : Z → string).
Context (json_dumps : pyval → string) (gzip_compress : string → string) (sha256_hex : string → string).
Context (unf_json : NRTM4UpdateNotificationFile → string) (jws_serialize : string → string → string).
Context (eckey_error : string → option string) (public_key : string → string).
Context (source : string) (run : server_run).

Notation deltas w := (ns_previous_deltas (w_status w)).

(** The contents of a delta file. *)
Definition delta_file (session_id : string) (version : Z) (journal : list journal_row) : string :=
  gzip_compress (jsonseq_encode json_dumps
    (header_json source type_delta session_id version :: (delta_entry cfg source <$> journal)) "").
(** Each delta follows the one before it, and is not older. *)
Fixpoint linked (l : list delta_info) : Prop :=
  match l with
  | d :: (d' :: _) as l' =>
      (d_version d' = d_version d + 1 ∧ d_serial_global_start d' = d_serial_global_end d + 1
       ∧ d_timestamp d ≤ d_timestamp d')%Z ∧ linked l'
  | _ => True
  end.

(** The repository agrees with its status: every file that the status names is there
    with its hash, a delta file holds the header and [entries] of its delta, and the
    deltas are consecutive up to the current version. *)
Record repo_ok (entries : string → list journal_row) (w : world) : Prop := {
  ro_names : NoDup (d_filename <$> deltas w);
  ro_delta : ∀ d, d ∈ deltas w → ∃ f session_id,
    dict_get (d_filename d) (w_files w) = Some f ∧ sha256_hex (f_content f) = d_hash d
    ∧ startswith "nrtm-delta." (d_filename d) = true ∧ ns_session_id (w_status w) = Some session_id
    ∧ f_content f = delta_file session_id (d_version d) (entries (d_filename d)) ∧ entries (d_filename d) ≠ [];
  ro_linked : linked (deltas w);
  ro_version : ∀ d, last (deltas w) = Some d → ns_version (w_status w) = Some (d_version d);
  ro_snapshot : ∀ name, ns_last_snapshot_filename (w_status w) = Some name →
    startswith "nrtm-snapshot." name = true
    ∧ ∃ f, dict_get name (w_files w) = Some f ∧ ns_last_snapshot_hash (w_status w) = Some (sha256_hex (f_content f));
}.

Lemma dict_get_filter {V} (p : string * V → bool) k v (l : list (string * V)) :
  dict_get k l = Some v → p (k, v) = true → dict_get k (List.filter p l) = Some v.
Proof.
  induction l as [|[k' v'] l IH]; simpl; [done|]. case_decide as Hk.
  - intros [= ->] Hp. subst. rewrite Hp. simpl. by rewrite decide_True.
  - intros Hl Hp. destruct (p (k', v')); simpl; [rewrite decide_False by done|]; by apply IH.
Qed.
Lemma linked_drop n l : linked l → linked (drop n l).
Proof.
  revert l. induction n as [|n IH]; intros [|d l]; try done. simpl. intros Hl. apply IH.
  destruct l as [|d' l]; [done|]. by destruct Hl.
Qed.
Lemma linked_snoc l d :
  linked l →
  (∀ d', last l = Some d' → d_version d = d_version d' + 1 ∧ d_serial_global_start d = d_serial_global_end d' + 1
     ∧ d_timestamp d' ≤ d_timestamp d)%Z →
  linked (l ++ [d]).
Proof.
  induction l as [|d1 l IH]; [done|]. intros Hl Hd. destruct l as [|d2 l].
  - simpl. split; [by apply Hd|done].
  - destruct Hl as [H12 Hl]. change (linked (d1 :: d2 :: l ++ [d])). split; [done|]. apply IH; [done|].
    intros d' Hd'. apply Hd. exact Hd'.
Qed.
Lemma linked_older d l : linked (d :: l) → Forall (λ d', d_timestamp d ≤ d_timestamp d')%Z l.
Proof.
  revert d. induction l as [|d' l IH]; intros d Hl; [constructor|]. destruct Hl as [(_ & _ & Ht) Hl].
  constructor; [done|]. eapply Forall_impl; [exact (IH d' Hl)|]. simpl. lia.
Qed.
(** Only the oldest deltas expire. *)
Lemma expired_prefix l :
  linked l → ∃ n, List.filter (λ d, negb (delta_expired run d)) l = drop n l
    ∧ List.filter (delta_expired run) l = take n l.
Proof.
  induction l as [|d l IH]; intros Hl; [by exists 0%nat|].
  assert (linked l) as Hl' by (destruct l; [done|by destruct Hl]).
  destruct (delta_expired run d) eqn:E.
  - destruct (IH Hl') as (n & Hn & Hn'). exists (S n). simpl. rewrite E. simpl. by rewrite Hn, Hn'.
  - exists 0%nat. pose proof (linked_older _ _ Hl) as Ho. simpl. rewrite E. simpl.
    unfold delta_expired in E. apply Z.ltb_ge in E.
    assert (Forall (λ d', delta_expired run d' = false) l) as Hf.
    { eapply Forall_impl; [exact Ho|]. simpl. intros d' Hd'. unfold delta_expired. apply Z.ltb_ge. lia. }
    clear - Hf. assert (List.filter (λ d, negb (delta_expired run d)) l = l ∧ List.filter (delta_expired run) l = []) as [-> ->]; [|done].
    induction Hf as [|d' l Hd' Hf [IH1 IH2]]; [done|]. simpl. rewrite Hd'. simpl. by rewrite IH1, IH2.
Qed.

(** *** The steps of a run *)

Lemma on_handler_Ok {A} (m : M A) w w' a :
  on_handler m w = (w', Ok a) →
  w_files w' = w_files w ∧ w_status w' = w_status w ∧ w_original w' = w_original w
  ∧ m (w_handler w) = (w_handler w', Ok a).
Proof. unfold on_handler. destruct (m (w_handler w)) as [h r]. by intros [= <- ->]. Qed.
Lemma unlink_all names w w' :
  st_iter (λ d, unlink (d_filename d)) names w = (w', Ok tt) →
  w_files w' = List.filter (λ x, negb (bool_decide (x.1 ∈ d_filename <$> names))) (w_files w)
  ∧ w_status w' = w_status w ∧ w_handler w' = w_handler w ∧ w_original w' = w_original w.
Proof.
  revert w. induction names as [|d names IH]; intros w.
  - intros [= <-]. split_and!; try done. symmetry. generalize (w_files w) as l.
    induction l as [|x l Hl]; [done|]. simpl in *. by rewrite Hl.
  - intros (w1 & [] & Hu & Hrest)%st_bind_Ok. unfold unlink in Hu. destruct (dict_get _ _); [|done]. injection Hu as <-.
    destruct (IH _ Hrest) as (-> & -> & -> & ->). split_and!; try done. simpl. generalize (w_files w) as l.
    induction l as [|x l Hl]; [done|]. simpl. destruct (String.eqb_spec x.1 (d_filename d)) as [E|E]; simpl.
    + rewrite Hl. rewrite (bool_decide_true (x.1 ∈ _ :: _)) by (rewrite E; by left). done.
    + rewrite Hl. assert (x.1 ∈ d_filename d :: (d_filename <$> names) ↔ x.1 ∈ d_filename <$> names) as Hx
        by (rewrite elem_of_cons; naive_solver).
      by rewrite (bool_decide_ext _ _ Hx).
Qed.
Lemma glob_prefix prefix name : glob_matches prefix name = true → startswith prefix name = true.
Proof. unfold glob_matches. destruct (startswith prefix name); [done|]. simpl. done. Qed.
Lemma two_prefixes name : startswith "nrtm-delta." name = true → startswith "nrtm-snapshot." name = true → False.
Proof.
  unfold startswith. rewrite !String.prefix_correct.
  do 6 (destruct name as [|? name]; [done|]). cbn. intros [=] [=]. congruence.
Qed.
Lemma snapshot_not_delta name : startswith "nrtm-snapshot." name = true → startswith "nrtm-delta." name = false.
Proof. intros Hs. destruct (startswith "nrtm-delta." name) eqn:E; [|done]. by destruct (two_prefixes name). Qed.

(** The files that the status names. *)
Definition named (w : world) (name : string) : Prop :=
  name ∈ d_filename <$> deltas w ∨ ns_last_snapshot_filename (w_status w) = Some name.
(** A step that drops the oldest deltas and keeps the named files keeps the agreement. *)
Lemma repo_ok_kept entries w w' n :
  repo_ok entries w →
  deltas w' = drop n (deltas w) → ns_version (w_status w') = ns_version (w_status w) →
  ns_session_id (w_status w') = ns_session_id (w_status w) →
  ns_last_snapshot_filename (w_status w') = ns_last_snapshot_filename (w_status w) →
  ns_last_snapshot_hash (w_status w') = ns_last_snapshot_hash (w_status w) →
  (∀ name f, named w' name → startswith "nrtm-delta." name = true ∨ startswith "nrtm-snapshot." name = true →
     dict_get name (w_files w) = Some f → dict_get name (w_files w') = Some f) →
  repo_ok entries w'.
Proof.
  intros [Hn Hd Hl Hv Hs] Hds Ever Eses Esf Esh Hf. split.
  - rewrite Hds. rewrite fmap_drop. eapply sublist_NoDup; [exact Hn|]. apply sublist_drop.
  - intros d Hin. assert (d ∈ deltas w) as Hin' by (rewrite <- (take_drop n (deltas w)), <- Hds, elem_of_app; by right).
    destruct (Hd d Hin') as (f & sid & Hg & Hh & Hp & Hsid & Hc & Hne). exists f, sid. rewrite Eses.
    split_and!; try done. apply Hf; [|by left|done]. left. by apply list_elem_of_fmap_2.
  - rewrite Hds. by apply linked_drop.
  - rewrite Ever, Hds. intros d Hlast. apply Hv. by rewrite <- (take_drop n (deltas w)), last_app, Hlast.
  - rewrite Esf, Esh. intros name En. destruct (Hs name En) as (Hp & f & Hg & Hh).
    split; [done|]. exists f. split; [|done]. apply Hf; [|by right|done]. right. by rewrite Esf.
Qed.

(** What is at the place where clients look. *)
Definition published (w : world) (u : NRTM4UpdateNotificationFile) : Prop :=
  ∃ private_key, dict_get UPDATE_NOTIFICATION_FILENAME (w_files w)
    = Some {| f_content := jws_serialize (unf_json u) private_key; f_mtime := run_timestamp run |}
  ∧ eckey_from_config cfg eckey_error source "nrtm4_server_private_key" = Ok private_key.

Lemma write_file_other name content k w :
  k ≠ name → dict_get k (w_files (write_file run name content w).1) = dict_get k (w_files w).
Proof. intros Hk. simpl. rewrite dict_set_get. by rewrite decide_False. Qed.
Lemma not_unf name :
  startswith "nrtm-delta." name = true ∨ startswith "nrtm-snapshot." name = true → name ≠ UPDATE_NOTIFICATION_FILENAME.
Proof. intros [H'|H'] ->; done. Qed.
Lemma elem_of_filter_neq d l :
  NoDup (d_filename <$> l) → d ∈ l → delta_expired run d = false →
  d_filename d ∉ d_filename <$> List.filter (delta_expired run) l.
Proof.
  intros Hn Hd He (d' & E & [Hin He']%filter_elem)%list_elem_of_fmap.
  assert (d = d') as ->; [|congruence]. clear He He'. induction l as [|x l IH]; [by apply elem_of_nil in Hd|].
  rewrite fmap_cons, NoDup_cons in Hn. destruct Hn as [Hx Hn].
  apply elem_of_cons in Hd as [->|Hd], Hin as [->|Hin]; try done.
  - destruct Hx. rewrite E. by apply list_elem_of_fmap_2.
  - destruct Hx. rewrite <- E. by apply list_elem_of_fmap_2.
  - by apply IH.
Qed.

Lemma expire_deltas_ok entries w w' :
  repo_ok entries w → _expire_deltas run w = (w', Ok tt) →
  repo_ok entries w' ∧ w_status w' = set_deltas (List.filter (λ d, negb (delta_expired run d)) (deltas w)) (w_status w).
Proof.
  intros Hr (w0 & x & Hg & H1)%st_bind_Ok. injection Hg as <- <-. apply st_bind_Ok in H1 as (w1 & [] & Hu & H1).
  apply st_bind_Ok in H1 as (w2 & [] & Hm & H1). injection Hm as <-. injection H1 as <-. destruct (unlink_all _ _ _ Hu) as (Ef & Es & _ & _).
  split; [|simpl; by rewrite Es].
  destruct (expired_prefix _ (ro_linked _ _ Hr)) as (n & Hkept & Hgone).
  apply (repo_ok_kept entries w _ n Hr); simpl; rewrite ?Es; try done.
  intros name f Hnamed Hp Hg. unfold named in Hnamed. simpl in Hnamed. rewrite Es in Hnamed.
  apply dict_get_filter; [rewrite Ef; apply dict_get_filter; [done|]|].
  - simpl. apply negb_true_iff, bool_decide_eq_false. destruct Hnamed as [Hin|Hsnap].
    + apply list_elem_of_fmap in Hin as (d & -> & [Hin He]%filter_elem).
      apply elem_of_filter_neq; [by apply ro_names with entries|done|by apply negb_true_iff].
    + intros (d & -> & [Hin _]%filter_elem)%list_elem_of_fmap.
      destruct (ro_delta _ _ Hr d Hin) as (fd & sid & _ & _ & Hpd & _ & _).
      destruct (ro_snapshot _ _ Hr _ Hsnap) as [Hps _]. by destruct (two_prefixes (d_filename d)).
  - simpl. apply negb_true_iff. destruct Hnamed as [Hin|Hsnap].
    + by rewrite (bool_decide_true _ Hin), andb_false_r.
    + destruct (ro_snapshot _ _ Hr _ Hsnap) as [Hps _].
      destruct (glob_matches "nrtm-delta." name) eqn:E; [|done]. by destruct (two_prefixes name (glob_prefix _ _ E)).
Qed.
Lemma write_unf_ok entries w w' :
  repo_ok entries w →
  _write_unf cfg timestamp_text unf_json jws_serialize eckey_error public_key source run w = (w', Ok tt) →
  repo_ok entries w' ∧ w_status w' = set_unf_update (run_timestamp run) (w_status w)
  ∧ w_handler w' = w_handler w ∧ w_original w' = w_original w
  ∧ ∃ next_key u, unf_of_status timestamp_text eckey_error source run (w_status w) next_key = Ok u ∧ published w' u.
Proof.
  intros Hr (w0 & x & Hg & H1)%st_bind_Ok. injection Hg as <- <-.
  apply st_bind_Ok in H1 as (w1 & next_key & Hnk & H1). injection Hnk as <- Hnk.
  apply st_bind_Ok in H1 as (w2 & u & Hu & H1). injection Hu as <- Hu.
  apply st_bind_Ok in H1 as (w3 & key & Hkey & H1). injection Hkey as <- Hkey.
  apply st_bind_Ok in H1 as (w4 & [] & Hw & H1). injection Hw as <-. injection H1 as <-.
  assert (unf_timestamp u = run_timestamp run) as Et.
  { unfold unf_of_status in Hu. repeat (apply res_bind_Ok in Hu as (? & _ & Hu)). unfold validate_unf in Hu.
    destruct (validate_timestamp _ _ _ ++ _); [|done]. apply res_bind_Ok in Hu as (? & _ & Hu).
    apply res_bind_Ok in Hu as (? & _ & Hu). by injection Hu as <-. }
  split_and!; try done.
  - apply (repo_ok_kept entries w _ 0 Hr); try done. intros name f _ Hp Hg. simpl. rewrite dict_set_get.
    by rewrite decide_False by (by apply not_unf).
  - simpl. by rewrite Et.
  - exists (public_key <$> next_key), u. split; [done|]. exists key. split; [|done]. simpl.
    rewrite dict_set_get. by rewrite decide_True.
Qed.
Lemma expire_snapshots_ok entries w w' u :
  repo_ok entries w → _expire_snapshots run w = (w', Ok tt) →
  repo_ok entries w' ∧ w_status w' = w_status w ∧ (published w u → published w' u).
Proof.
  intros Hr (w0 & x & Hg & H1)%st_bind_Ok. injection Hg as <- <-. injection H1 as <-. split_and!; [|done|].
  - apply (repo_ok_kept entries w _ 0 Hr); try done. intros name f Hnamed Hp Hg. simpl.
    apply dict_get_filter; [done|]. simpl. apply negb_true_iff. destruct Hnamed as [Hin|Hsnap].
    + apply list_elem_of_fmap in Hin as (d & -> & Hd).
      destruct (ro_delta _ _ Hr d Hd) as (fd & sid & _ & _ & Hpd & _ & _).
      destruct (glob_matches "nrtm-snapshot." (d_filename d)) eqn:E; [|done].
      by destruct (two_prefixes (d_filename d) Hpd (glob_prefix _ _ E)).
    + simpl in Hsnap. rewrite (bool_decide_true (Some name = _)) by done. by rewrite andb_false_r.
  - intros (key & Hk & Hkey). exists key. split; [|done]. simpl. by apply dict_get_filter.
Qed.

(** The notification file names files that are there with the hashes it gives. *)
Definition names_present (w : world) (u : NRTM4UpdateNotificationFile) : Prop :=
  ∀ r, r ∈ unf_snapshot u :: unf_deltas u → ∃ f, dict_get (fr_url r) (w_files w) = Some f ∧ sha256_hex (f_content f) = fr_hash r.
Lemma unf_names_present entries w w' s next_key u :
  repo_ok entries w' → s = w_status w → ns_previous_deltas s = deltas w' →
  ns_last_snapshot_filename s = ns_last_snapshot_filename (w_status w') →
  ns_last_snapshot_hash s = ns_last_snapshot_hash (w_status w') →
  unf_of_status timestamp_text eckey_error source run s next_key = Ok u →
  names_present w' u ∧ unf_deltas u = delta_reference <$> deltas w'.
Proof.
  intros Hr -> Ed Ef Eh Hu. unfold unf_of_status in Hu.
  apply res_bind_Ok in Hu as (sid & Hsid & Hu). apply res_bind_Ok in Hu as (v & Hv & Hu).
  apply res_bind_Ok in Hu as (sv & Hsv & Hu). apply res_bind_Ok in Hu as (url & Hurl & Hu).
  apply res_bind_Ok in Hu as (hash & Hhash & Hu).
  assert (u = {| unf_source := source; unf_session_id := sid; unf_version := v; unf_timestamp := run_timestamp run;
       unf_snapshot := {| fr_version := sv; fr_url := url; fr_hash := hash |};
       unf_deltas := delta_reference <$> deltas w; unf_next_signing_key := next_key |}) as ->.
  { unfold validate_unf in Hu. destruct (validate_timestamp _ _ _ ++ _); [|done].
    apply res_bind_Ok in Hu as (? & _ & Hu). apply res_bind_Ok in Hu as (? & _ & Hu). by injection Hu as <-. }
  simpl. split; [|by rewrite Ed]. intros r [->|Hin]%elem_of_cons; simpl.
  - destruct (ns_last_snapshot_filename (w_status w)) as [name|] eqn:E; [|done]. injection Hurl as <-.
    destruct (ro_snapshot _ _ Hr name) as (_ & f & Hg & Hh); [by rewrite <- Ef|]. exists f. split; [done|].
    rewrite Eh, Hh in Hhash. by injection Hhash.
  - apply list_elem_of_fmap in Hin as (d & -> & Hd). rewrite Ed in Hd.
    destruct (ro_delta _ _ Hr d Hd) as (f & _ & Hg & Hh & _). by exists f.
Qed.
Lemma commit_status_ok entries w w' :
  repo_ok entries w →
  _commit_status cfg collate_lt uuid timestamp_text unf_json jws_serialize eckey_error public_key source run w = (w', Ok tt) →
  repo_ok entries w'
  ∧ deltas w' = List.filter (λ d, negb (delta_expired run d)) (deltas w)
  ∧ ns_version (w_status w') = ns_version (w_status w)
  ∧ ∃ u, published w' u ∧ names_present w' u ∧ unf_deltas u = delta_reference <$> deltas w'
      ∧ unf_version u = default 0%Z (ns_version (w_status w)).
Proof.
  intros Hr (w1 & [] & H1 & H2)%st_bind_Ok. destruct (expire_deltas_ok _ _ _ Hr H1) as [Hr1 Es1].
  apply st_bind_Ok in H2 as (w2 & [] & H2 & H3).
  destruct (write_unf_ok _ _ _ Hr1 H2) as (Hr2 & Es2 & _ & _ & next_key & u & Hu & Hp).
  apply st_bind_Ok in H3 as (w3 & x & Hg & H3). injection Hg as <- <-. apply st_bind_Ok in H3 as (w3 & [] & H3 & H4).
  assert (w_files w3 = w_files w2 ∧ w_status w3 = w_status w2) as [Ef3 Es3].
  { case_decide; [by injection H3 as <-|]. by apply on_handler_Ok in H3 as (? & ? & _). }
  assert (repo_ok entries w3) as Hr3.
  { apply (repo_ok_kept entries w2 _ 0 Hr2); rewrite ?Es3, ?Ef3; try done. }
  apply st_bind_Ok in H4 as (w4 & [] & H4 & H5). destruct (expire_snapshots_ok _ _ _ u Hr3 H4) as (Hr4 & Es4 & Hp4).
  apply on_handler_Ok in H5 as (Ef5 & Es5 & _).
  assert (repo_ok entries w') as Hr5.
  { apply (repo_ok_kept entries w4 _ 0 Hr4); rewrite ?Es5, ?Ef5; try done. }
  assert (w_status w' = set_unf_update (run_timestamp run) (w_status w1)) as Es by congruence.
  split_and!; [done|by rewrite Es, Es1|by rewrite Es, Es1|].
  assert (published w' u) as Hp'.
  { unfold published. rewrite Ef5. apply Hp4. unfold published. rewrite Ef3. exact Hp. }
  destruct (unf_names_present entries w1 w' (w_status w1) next_key u Hr5 eq_refl) as [Hn Hd]; try (by rewrite Es); [done|].
  exists u. split_and!; try done.
  unfold unf_of_status in Hu. apply res_bind_Ok in Hu as (sid & Hsid & Hu). apply res_bind_Ok in Hu as (v & Hv & Hu).
  rewrite Es1 in Hv. simpl in Hv. destruct (ns_version (w_status w)) as [v'|]; [|done]. injection Hv as <-.
  repeat (apply res_bind_Ok in Hu as (? & _ & Hu)). unfold validate_unf in Hu.
  destruct (validate_timestamp _ _ _ ++ _); [|done]. apply res_bind_Ok in Hu as (? & _ & Hu).
  apply res_bind_Ok in Hu as (? & _ & Hu). by injection Hu as <-.
Qed.

(** *** The next delta *)

Lemma query_database_empty {A} (f : database → A) h :
  h_rpsl_upsert_buffer h = [] → query_database cfg uuid f h = (h, Ok (f (h_db h))).
Proof.
  intros Hb. unfold query_database, _flush_rpsl_object_writing_buffer, mbind, st_bind, st_get. simpl.
  destruct (h_readonly h); [done|]. by rewrite Hb.
Qed.
Definition set_entries (name : string) (l : list journal_row) (entries : string → list journal_row) (k : string)
  : list journal_row := if String.eqb k name then l else entries k.
(** The run's token is in no name of the repository, and the clock has not gone back. *)
Definition fresh_run (w : world) : Prop :=
  (∀ session_id version,
     dict_get (nrtm_file_name "nrtm-delta" session_id version (run_delta_token run)) (w_files w) = None)
  ∧ ∀ d, d ∈ deltas w → (d_timestamp d ≤ run_timestamp run)%Z.
(** A delta of [journal], or none when there is nothing to publish. *)
Inductive next_delta (entries : string → list journal_row) (start max_serial_global version : Z) (w w' : world)
  : list journal_row → (string → list journal_row) → Prop :=
| no_delta : w_files w' = w_files w → w_status w' = w_status w →
    next_delta entries start max_serial_global version w w' [] entries
| one_delta d journal : journal ≠ [] → deltas w' = deltas w ++ [d] →
    d_serial_global_start d = start → d_serial_global_end d = max_serial_global → d_version d = (version + 1)%Z →
    d_timestamp d = run_timestamp run → d_filename d ∉ d_filename <$> deltas w →
    ns_version (w_status w') = Some (version + 1)%Z →
    next_delta entries start max_serial_global version w w' journal (set_entries (d_filename d) journal entries).

Lemma write_next_delta_ok entries w w' max_serial_global start :
  repo_ok entries w → fresh_run w → h_rpsl_upsert_buffer (w_handler w) = [] →
  serial_global_start (w_status w) = Ok start →
  write_next_delta cfg uuid json_dumps gzip_compress sha256_hex source run max_serial_global w = (w', Ok tt) →
  ∃ version entries', ns_version (w_status w) = Some version ∧ repo_ok entries' w'
    ∧ next_delta entries start max_serial_global version w w'
        (journal_global_range source start (h_db (w_handler w))) entries'.
Proof.
  intros Hr [Hfresh Hclock] Hbuf Hstart (w0 & x & Hg & H1)%st_bind_Ok. injection Hg as <- <-.
  apply st_bind_Ok in H1 as (w1 & st' & Hs & H1). rewrite Hstart in Hs. injection Hs as <- <-.
  destruct (ns_version (w_status w)) as [version|] eqn:Ever; [|done]. exists version.
  apply st_bind_Ok in H1 as (w1 & filename & Hw & H1). unfold _write_delta in Hw.
  apply st_bind_Ok in Hw as (w2 & journal & Hq & Hw). unfold on_handler in Hq.
  rewrite (query_database_empty _ _ Hbuf) in Hq. injection Hq as <- <-.
  set (journal := journal_global_range source start (h_db (w_handler w))) in *.
  set (w2 := {| w_files := w_files w; w_handler := w_handler w; w_status := w_status w; w_original := w_original w |}) in Hw.
  destruct journal as [|j journal'] eqn:Ej.
  { injection Hw as <- <-. injection H1 as <-. exists entries. split_and!; [done| |by apply no_delta].
    by apply (repo_ok_kept entries w _ 0 Hr). }
  rewrite <- Ej in *. apply st_bind_Ok in Hw as (w3 & sid & Hsid & Hw). unfold session_text in Hsid. simpl in Hsid.
  destruct (ns_session_id (w_status w)) as [sid'|] eqn:Esid; [|done]. injection Hsid as <- <-.
  set (name := nrtm_file_name "nrtm-delta" sid' (version + 1) (run_delta_token run)) in *.
  apply st_bind_Ok in Hw as (w4 & [] & Hwf & Hw). injection Hwf as <-. injection Hw as <- <-.
  apply st_bind_Ok in H1 as (w5 & hash & Hh & H1). unfold file_hash in Hh. simpl in Hh.
  rewrite dict_set_get, decide_True in Hh by done. injection Hh as <- <-. injection H1 as <-.
  assert (dict_get name (w_files w) = None) as Hnone by apply Hfresh.
  assert (name ∉ d_filename <$> deltas w) as Hnew.
  { intros (d & E & Hd)%list_elem_of_fmap. destruct (ro_delta _ _ Hr d Hd) as (f & _ & Hg & _). congruence. }
  exists (set_entries name journal entries). split_and!; [done| |].
  2: { match goal with |- context [add_delta ?x] => set (nd := x) end.
    apply (one_delta entries start max_serial_global version w _ nd); try done. by rewrite Ej. }
  split; simpl.
  - rewrite fmap_app. simpl. apply NoDup_app. split_and!; [by apply ro_names with entries| |apply NoDup_singleton].
    intros k Hk Hk2. apply list_elem_of_singleton in Hk2 as ->. done.
  - intros d [Hd|Hd]%elem_of_app; [|apply list_elem_of_singleton in Hd as ->].
    + destruct (ro_delta _ _ Hr d Hd) as (f & sid & Hg & Hh & Hp & Hs & Hc & Hne). exists f, sid.
      assert (d_filename d ≠ name) as Hdn by (intros <-; apply Hnew; by apply list_elem_of_fmap_2).
      unfold set_entries. rewrite dict_set_get, decide_False by done.
      destruct (String.eqb_spec (d_filename d) name) as [|_]; [done|]. by split_and!.
    + eexists. exists sid'. simpl. rewrite dict_set_get, decide_True by done.
      unfold set_entries. rewrite String.eqb_refl. split_and!; try done. all: first [by destruct sid' | by rewrite Ej].
  - apply linked_snoc; [by apply ro_linked with entries|]. intros d' Hd'. simpl.
    pose proof (ro_version _ _ Hr d' Hd') as Ev. rewrite Ever in Ev. injection Ev as ->.
    assert (d' ∈ deltas w) as Hin by (by apply last_Some_elem_of).
    split_and!; [done| |by apply Hclock]. apply last_Some in Hd' as (l & El).
    unfold serial_global_start in Hstart. rewrite El, List.rev_app_distr in Hstart. simpl in Hstart. by injection Hstart.
  - intros d. rewrite last_snoc. by intros [= <-].
  - intros sname Hsn. destruct (ro_snapshot _ _ Hr sname Hsn) as (Hp & f & Hg & Hh). split; [done|]. exists f.
    split; [|done]. rewrite dict_set_get, decide_False; [done|]. intros ->. congruence.
Qed.

(** C10. Publishing changes keeps the repository in agreement with its status: every file that the new notification
    file names is in the directory with the hash it gives, the deltas it names are consecutive and end at its version,
    a delta that was there keeps its contents, and the new one, when the journal has entries after the last published
    serial, holds exactly those entries and starts right after the previous delta. *)
Theorem publish_keeps_repository entries w w' max_serial_global start :
  repo_ok entries w → fresh_run w → h_rpsl_upsert_buffer (w_handler w) = [] →
  serial_global_start (w_status w) = Ok start →
  publish_changes cfg collate_lt uuid timestamp_text json_dumps gzip_compress sha256_hex unf_json jws_serialize
    eckey_error public_key source run max_serial_global w = (w', Ok tt) →
  ∃ version entries' w1 u, ns_version (w_status w) = Some version ∧ repo_ok entries' w'
    ∧ next_delta entries start max_serial_global version w w1
        (journal_global_range source start (h_db (w_handler w))) entries'
    ∧ deltas w' = List.filter (λ d, negb (delta_expired run d)) (deltas w1)
    ∧ published w' u ∧ names_present w' u ∧ unf_deltas u = delta_reference <$> deltas w'
    ∧ Some (unf_version u) = ns_version (w_status w1).
Proof.
  intros Hr Hfresh Hbuf Hstart (w1 & [] & H1 & H2)%st_bind_Ok.
  destruct (write_next_delta_ok _ _ _ _ _ Hr Hfresh Hbuf Hstart H1) as (version & entries' & Ever & Hr1 & Hnext).
  destruct (commit_status_ok _ _ _ Hr1 H2) as (Hr2 & Hd & _ & u & Hp & Hn & Hud & Huv).
  exists version, entries', w1, u. split_and!; try done. rewrite Huv.
  assert (is_Some (ns_version (w_status w1))) as [v ->]; [|done].
  destruct Hnext as [_ Es|d journal _ _ _ _ _ _ _ Ev]; [rewrite Es, Ever|rewrite Ev]; by eexists.
Qed.

(** *** When nothing can be published *)

Lemma st_lift_raise {S A B} (e : exn) (k : A → st S B) (s : S) : (a ← st_lift (Raise e); k a) s = (s, Raise e).
Proof. done. Qed.
(** A notification file needs a snapshot. *)
Lemma write_unf_no_snapshot w :
  ns_last_snapshot_version (w_status w) = None →
  ∃ e, _write_unf cfg timestamp_text unf_json jws_serialize eckey_error public_key source run w = (w, Raise e).
Proof.
  intros Hs. unfold _write_unf. unfold mbind at 1, st_bind at 1, st_get. unfold mbind at 1, st_bind at 1, st_lift at 1.
  destruct (eckey_from_config_opt _ _ _ _) as [k|e]; [|by exists e]. unfold mbind at 1, st_bind at 1, st_lift at 1.
  assert (∃ e, unf_of_status timestamp_text eckey_error source run (w_status w) (public_key <$> k) = Raise e) as [e ->]; [|by exists e].
  unfold unf_of_status. rewrite Hs. destruct (ns_session_id _), (ns_version _); by eexists.
Qed.
Lemma session_needs_snapshot_lock w max_serial_global :
  ns_session_id (w_status w) = None → run_snapshot_lock run = false →
  ∃ w' e, run_session cfg collate_lt uuid timestamp_text json_dumps gzip_compress sha256_hex unf_json jws_serialize
    eckey_error public_key source run max_serial_global w = (w', Raise e)
  ∧ w_handler w' = w_handler w
  ∧ dict_get UPDATE_NOTIFICATION_FILENAME (w_files w') = dict_get UPDATE_NOTIFICATION_FILENAME (w_files w).
Proof.
  intros Hs Hlock. unfold run_session. unfold mbind at 1, st_bind at 1, st_get at 1. rewrite Hs.
  unfold mbind at 1, st_bind at 1, st_modify at 1. set (w2 := with_status4 (new_session _) w).
  unfold mbind at 1, st_bind at 1, st_lift at 1.
  destruct (snapshot_frequency cfg source) as [freq|e]; [|by exists w2, e].
  unfold mbind at 1, st_bind at 1, st_get at 1.
  assert (should_create_snapshot run (w_status w2) freq = Ok true) as -> by done. cbv beta iota.
  unfold mbind at 1, st_bind at 1, st_lift at 1. rewrite Hlock. unfold _commit_status at 1. unfold mbind at 1, st_bind at 1.
  destruct (_expire_deltas run w2) as [w3 r] eqn:Ee. injection Ee as <- <-.
  match goal with |- context [mbind _ _ ?x] => set (w3 := x) end.
  unfold mbind at 1, st_bind at 1. destruct (write_unf_no_snapshot w3) as [e ->]; [done|]. exists w3, e.
  split_and!; [done|done|]. cbn [w3 w2 with_files w_files with_status4].
  generalize (w_files w). induction l as [|[k f] l IH]; [done|]. cbn [List.filter dict_get fst].
  destruct (decide (UPDATE_NOTIFICATION_FILENAME = k)) as [<-|Hk].
  - cbn. done.
  - destruct (negb _); [|done]. cbn [dict_get]. by rewrite decide_False.
Qed.
(** A new session that starts while another process holds the snapshot lock cannot be published: there is no
    snapshot for its notification file to name, so the run fails, with nothing changed in the database and the
    notification file as it was. *)
Theorem initialisation_needs_snapshot_lock w max_serial_global :
  ns_session_id (w_status w) = None → run_snapshot_lock run = false →
  ∃ w' e, run_locked cfg collate_lt uuid timestamp_text json_dumps gzip_compress sha256_hex unf_json jws_serialize
    eckey_error public_key source run max_serial_global w = (w', Raise e)
  ∧ w_handler w' = w_handler w
  ∧ dict_get UPDATE_NOTIFICATION_FILENAME (w_files w') = dict_get UPDATE_NOTIFICATION_FILENAME (w_files w).
Proof.
  intros Hs Hlock. unfold run_locked. unfold mbind at 1, st_bind at 1, _verify_integrity. unfold mbind at 1, st_bind at 1.
  match goal with |- context [forallb ?f ?l] => destruct (forallb f l) end; cbn [mret st_ret st_modify].
  - by apply session_needs_snapshot_lock.
  - by apply (session_needs_snapshot_lock (with_status4 (set_session None) w)).
Qed.

(** ** A client that follows the server *)

Section Follow.
Context `{Datrie (list roa_tuple)} (cidr_text : cidr → string).
Context (gpg_import_keys : string → list string * option string) (gpg_uids : string → list string).
Context (retrieve_text : string → res string) (retrieve_data : string → option string → res string).
Context (json_loads : string → string + pyval).
Context (read_header : nrtm4_header_type → pyval → string + NRTM4Header) (repr : pyval → string).
Context (gunzip : string → string).
Notation load := (load_changes cfg uuid timestamp_text cidr_text gpg_import_keys gpg_uids retrieve_data json_loads
                    read_header repr).
Notation process c h := (_process_delta_item cfg uuid timestamp_text gpg_import_keys gpg_uids repr c
                           (get_object_class_filter_for_source cfg (nc_source c)) h).

(** What the client relies on: the directory is served with the hashes checked and the
    files decompressed, and a header is read as it was written. *)
Definition serves (w : world) (url : string) : Prop := ∀ d f,
  d ∈ deltas w → dict_get (d_filename d) (w_files w) = Some f → sha256_hex (f_content f) = d_hash d →
  retrieve_data (full_url (delta_reference d) url) (Some (d_hash d)) = Ok (gunzip (f_content f)).
Definition coder_laws (session_id : string) (d : delta_info) (journal : list journal_row) : Prop :=
  (∀ t, gunzip (gzip_compress t) = t)
  ∧ Forall (codable json_dumps json_loads)
      (header_json source type_delta session_id (d_version d) :: (delta_entry cfg source <$> journal))
  ∧ read_header type_delta (header_json source type_delta session_id (d_version d))
    = inr {| hd_type := type_delta; hd_source := source; hd_session_id := session_id; hd_version := d_version d |}.
Definition delta_header (session_id : string) (d : delta_info) : NRTM4Header :=
  {| hd_type := type_delta; hd_source := source; hd_session_id := session_id; hd_version := d_version d |}.

Lemma for_items_all {A} (f : A → M unit) l h : for_items f l None h = st_iter f l h.
Proof. revert h. induction l as [|x l IH]; intros h; [done|]. simpl. unfold mbind, st_bind. destruct (f x h) as [h' [[]|]]; [apply IH|done]. Qed.
Lemma st_iter_ext {A} (f g : A → M unit) l h :
  (∀ x h, x ∈ l → f x h = g x h) → st_iter f l h = st_iter g l h.
Proof.
  revert h. induction l as [|x l IH]; intros h Hfg; [done|]. simpl. unfold mbind, st_bind.
  rewrite Hfg by (by left). destruct (g x h) as [h' [[]|]]; [|done]. apply IH. intros y h2 Hy. apply Hfg. by right.
Qed.
Lemma st_iter_fmap {A B} (f : B → M unit) (g : A → B) l : st_iter f (g <$> l) = st_iter (λ x, f (g x)) l.
Proof. induction l as [|x l IH]; [done|]. rewrite fmap_cons. simpl. by rewrite IH. Qed.
Lemma expected_value_same key v : expected_value key v v = [].
Proof. unfold expected_value. by rewrite String.eqb_refl. Qed.

(** One delta of the repository. *)
Lemma load_delta_published c u entries w session_id d h :
  repo_ok entries w → nc_source c = source → unf_session_id u = session_id →
  ns_session_id (w_status w) = Some session_id → serves w (nc_notification_file_url c) →
  d ∈ deltas w → coder_laws session_id d (entries (d_filename d)) →
  load_delta cfg uuid timestamp_text gpg_import_keys gpg_uids retrieve_data json_loads read_header repr c u
    (get_object_class_filter_for_source cfg (nc_source c)) (delta_reference d) h
  = st_iter (process c (delta_header session_id d)) (delta_entry cfg source <$> entries (d_filename d)) h.
Proof.
  intros Hr Hsrc Hu Hsid Hserve Hin (Hgz & Hcod & Hread).
  destruct (ro_delta _ _ Hr d Hin) as (f & sid & Hg & Hh & _ & Hsid' & Hc & Hne).
  assert (sid = session_id) as -> by congruence.
  unfold load_delta. unfold mbind at 1, st_bind at 1, st_lift at 1.
  change (fr_hash (delta_reference d)) with (d_hash d). rewrite (Hserve d f Hin Hg Hh), Hc. unfold delta_file. rewrite Hgz.
  rewrite (decode_encode _ _ _ Hcod). unfold header_of. rewrite Hread.
  unfold validate_header. cbn [hd_source hd_session_id hd_version fr_version delta_reference].
  rewrite Hsrc, Hu, !expected_value_same. unfold mbind at 1, st_bind at 1, st_lift at 1. cbn [app first_error mbind res_bind].
  rewrite <- Hsrc at 2. cbv beta iota. unfold mbind, st_bind. rewrite for_items_all. rewrite Hsrc. unfold delta_header.
  destruct (st_iter _ _ _) as [h' [[]|e]]; [|done].
  destruct (entries (d_filename d)); [done|]. done.
Qed.

Lemma versions_cons a b : (a ≤ b)%Z → versions_between a b = a :: versions_between (a + 1) b.
Proof.
  intros Hab. unfold versions_between. replace (Z.to_nat (b + 1 - a)) with (S (Z.to_nat (b + 1 - (a + 1)))) by lia.
  cbn [seq]. rewrite fmap_cons. f_equal; [lia|]. rewrite <- fmap_S_seq, <- list_fmap_compose.
  apply list_fmap_ext. intros i x _. simpl. lia.
Qed.
Lemma versions_none a b : (b < a)%Z → versions_between a b = [].
Proof. intros Hab. unfold versions_between. by replace (Z.to_nat (b + 1 - a)) with 0%nat by lia. Qed.
Lemma linked_versions d l dl :
  linked (d :: l) → last (d :: l) = Some dl →
  d_version <$> d :: l = versions_between (d_version d) (d_version dl) ∧ (d_version d ≤ d_version dl)%Z.
Proof.
  revert d. induction l as [|d' l IH]; intros d Hl Hlast.
  - injection Hlast as <-. split; [|done]. rewrite versions_cons, versions_none by lia. done.
  - destruct Hl as [(Hv & _) Hl]. destruct (IH d' Hl Hlast) as [IHv Hle]. split; [|lia].
    rewrite versions_cons by lia. rewrite fmap_cons, IHv. by rewrite Hv.
Qed.
Lemma pending_versions l v dl :
  linked l → last l = Some dl → (∀ d, head l = Some d → d_version d ≤ v + 1)%Z → (v ≤ d_version dl)%Z →
  d_version <$> List.filter (λ d, v + 1 <=? d_version d)%Z l = versions_between (v + 1) (d_version dl).
Proof.
  induction l as [|d l IH]; [done|]. intros Hl Hlast Hhead Hv. pose proof (Hhead d eq_refl) as Hd.
  cbn [List.filter]. destruct (Z.leb_spec (v + 1) (d_version d)) as [Hle|Hlt].
  - assert (d_version d = v + 1)%Z as E by lia. destruct (linked_versions _ _ _ Hl Hlast) as [Hall _]. rewrite <- E, <- Hall.
    assert (List.filter (λ d', (d_version d <=? d_version d')%Z) l = l) as ->; [|done].
    clear - Hl. revert d Hl. induction l as [|d' l IH]; intros d Hl; [done|]. destruct Hl as [(Hv & _) Hl]. simpl.
    rewrite (proj2 (Z.leb_le _ _)) by lia. f_equal. rewrite <- (IH _ Hl) at 2. apply List.filter_ext_in.
    intros x Hx%list_elem_of_In. destruct (Z.leb_spec (d_version d') (d_version x)) as [|Hx']; [apply Z.leb_le; lia|].
    exfalso. assert (d_version d' ≤ d_version x)%Z; [|lia]. clear - Hl Hx.
    revert d' Hl Hx. induction l as [|y l IH]; intros d' Hl Hx; [by apply elem_of_nil in Hx|].
    destruct Hl as [(Hv & _) Hl]. apply elem_of_cons in Hx as [->|Hx]; [lia|]. specialize (IH _ Hl Hx). lia.
  - destruct l as [|d' l].
    + injection Hlast as ->. simpl. by rewrite versions_none by lia.
    + destruct Hl as [(Hvv & _) Hl]. apply IH; [done|done| |done]. intros d2 [= <-]. lia.
Qed.

(** C9. A client of the same session that is at most as far behind as the oldest delta applies exactly the journal
    entries of the deltas it lacks, each delta in its turn and the entries in their order, and those deltas are
    every version from the one after its own up to the version of the notification file. *)
Theorem client_follows_server c u entries w session_id v force_deltas h :
  repo_ok entries w → nc_source c = source →
  ns_session_id (w_status w) = Some session_id → unf_session_id u = session_id →
  unf_deltas u = delta_reference <$> deltas w → ns_version (w_status w) = Some (unf_version u) →
  serves w (nc_notification_file_url c) →
  (∀ d, d ∈ deltas w → coder_laws session_id d (entries (d_filename d))) →
  session_lost c u = false → nc_version (nc_last_status c) = Some v → (0 < v ≤ unf_version u)%Z →
  match deltas w with d :: _ => (d_version d ≤ v + 1)%Z | [] => v = unf_version u end →
  let pending := List.filter (λ d, v + 1 <=? d_version d)%Z (deltas w) in
  load c u force_deltas h
    = (_ ← st_iter (λ d, st_iter (process c (delta_header session_id d))
                           (delta_entry cfg source <$> entries (d_filename d))) pending;
       mret false) h
  ∧ d_version <$> pending = versions_between (v + 1) (unf_version u).
Proof.
  intros Hr Hsrc Hsid Hu Hds Hver Hserve Hlaws Hlost Hv Hrange Hbehind pending.
  assert (_find_next_version c u None = Ok (Some (v + 1)%Z)) as Hnext.
  { unfold _find_next_version. rewrite Hlost, Hv. cbv zeta. cbn [negb andb]. change (default 0%Z (Some v)) with v.
    rewrite (proj2 (Z.ltb_ge (unf_version u) v)) by lia. unfold min_delta_version. rewrite Hds.
    destruct (deltas w) as [|d l]; [done|]. rewrite fmap_cons. cbn [fr_version delta_reference].
    rewrite (proj2 (Z.ltb_ge (v + 1) (d_version d))) by lia. by rewrite andb_false_r. }
  unfold load_changes. unfold mbind at 1, st_bind at 1, st_lift at 1. rewrite Hnext.
  unfold load_deltas_from, max_delta_version. rewrite Hds.
  assert (List.rev (delta_reference <$> deltas w) = delta_reference <$> List.rev (deltas w)) as ->
    by (symmetry; apply List.map_rev).
  destruct (last (deltas w)) as [dl|] eqn:Elast.
  - pose proof (ro_version _ _ Hr dl Elast) as Edl. rewrite Hver in Edl. injection Edl as Edl.
    pose proof (pending_versions (deltas w) v dl (ro_linked _ _ Hr) Elast) as Hpv.
    assert (∀ d, head (deltas w) = Some d → d_version d ≤ v + 1)%Z as Hhead.
    { clear - Hbehind. destruct (deltas w); [done|]. by intros ? [= <-]. }
    specialize (Hpv Hhead). rewrite <- Edl in Hpv. split; [|apply Hpv; lia].
    apply last_Some in Elast as (l & El).
    assert (List.rev (deltas w) = dl :: List.rev l) as -> by (by rewrite El, List.rev_unit).
    rewrite fmap_cons. cbn [fr_version delta_reference]. rewrite <- Edl.
    destruct (Z.leb_spec (v + 1) (unf_version u)) as [Hle|Hlt].
    + rewrite (proj2 (Z.eqb_neq _ _)) by lia. cbn [negb andb]. unfold _load_deltas. rewrite Hds.
      assert (List.filter (λ f, v + 1 <=? fr_version f)%Z (delta_reference <$> deltas w) = delta_reference <$> pending) as ->.
      { unfold pending. clear. induction (deltas w) as [|d l IH]; [done|]. rewrite fmap_cons. simpl.
        destruct (_ <=? _)%Z; simpl; by rewrite IH. }
      rewrite st_iter_fmap. unfold mbind, st_bind.
      erewrite st_iter_ext; [done|]. intros d h' [Hd _]%filter_elem. simpl. apply (load_delta_published c u entries w session_id d h'); try done. by apply Hlaws.
    + rewrite andb_false_r. unfold pending.
      assert (pending = []) as Hnil; [|by unfold pending in Hnil; rewrite Hnil].
      apply (fmap_nil_inv d_version). unfold pending. rewrite Hpv by lia. apply versions_none. lia.
  - apply last_None in Elast. unfold pending. rewrite Elast in Hbehind |- *. simpl. split; [done|].
    by rewrite versions_none by lia.
Qed.

(** A notification file without deltas: a client of an older version loads nothing,
    whatever the snapshot holds, and [_run_client] then records the version of the file. *)
Lemma no_deltas_loads_nothing c u v force_deltas h :
  session_lost c u = false → nc_version (nc_last_status c) = Some v → (v ≤ unf_version u)%Z → unf_deltas u = [] →
  load c u force_deltas h = (h, Ok false).
Proof.
  intros Hlost Hv Hle Hd. unfold load_changes. unfold mbind at 1, st_bind at 1, st_lift at 1.
  assert (_find_next_version c u None = Ok (Some (v + 1)%Z)) as ->.
  { unfold _find_next_version. rewrite Hlost, Hv. cbv zeta. cbn [negb andb]. change (default 0%Z (Some v)) with v.
    rewrite (proj2 (Z.ltb_ge (unf_version u) v)) by lia. unfold min_delta_version. by rewrite Hd. }
  unfold load_deltas_from, max_delta_version. by rewrite Hd.
Qed.
End Follow.
End Server.

Module Nrtm4Examples.
Import ConcreteIP ConcreteRadix ConcreteRedis ConcreteTrie NrtmExamples.

(** A small coder: the fields of a flat dict, each as two words that end in a tab. *)
Definition TAB : ascii := "009"%char.
Definition coded_value (v : pyval) : string :=
  match v with VStr s => "S" +:+ s | VInt n => "I" +:+ str_of_Z n | _ => "N" end.
Definition ex_dumps (v : pyval) : string :=
  match v with
  | VDict l => concat_str ((λ x : string * pyval, x.1 +:+ String TAB (coded_value x.2 +:+ String TAB "")) <$> l)
  | _ => ""
  end.
Fixpoint coded_fields (words : list string) : list (string * pyval) :=
  match words with
  | key :: String tag value :: words' =>
      (key, if ascii_dec tag "I" then match py_int value with Some n => VInt n | None => VNone end else VStr value)
      :: coded_fields words'
  | _ => []
  end.
Definition ex_loads (s : string) : string + pyval := inr (VDict (coded_fields (split_on TAB s))).

Definition ex_item (n : Z) (text : string) : pyval := VDict [("version", VInt n); ("object", VStr text)].
Definition ex_items : list pyval := [ex_item 1 ("a" +:+ NL +:+ "b"); ex_item 22 ""].
Lemma jsonseq_roundtrip_witness :
  decode_chunks ex_loads "" [String RS "version"; ""; str_drop 8 (jsonseq_encode ex_dumps ex_items "")] = (ex_items, None).
Proof.
  destruct (jsonseq_roundtrip ex_dumps ex_loads ex_items
    [String RS "version"; ""; str_drop 8 (jsonseq_encode ex_dumps ex_items "")]) as [E _].
  - repeat constructor; vm_compute; reflexivity.
  - vm_compute. reflexivity.
  - exact E.
Defined.

(** A repository at version 1 and a journal with two entries after its snapshot. *)
Definition ex4_cfg : configuration :=
  conf_of (VDict [("sources", VDict [("A", VDict [("keep_journal", VBool true);
    ("nrtm4_server_private_key", VStr "key")])])]).
Definition ex_snapshot_name : string := "nrtm-snapshot.s.1.0.json.gz".
Definition ex_old_status : NRTM4ServerDatabaseStatus := {|
  ns_session_id := Some "s"; ns_version := Some 1%Z; ns_last_update_notification_file_update := Some 0%Z;
  ns_last_snapshot_version := Some 1%Z; ns_last_snapshot_global_serial := Some 4%Z;
  ns_last_snapshot_filename := Some ex_snapshot_name; ns_last_snapshot_timestamp := Some 0%Z;
  ns_last_snapshot_hash := Some "snapshot"; ns_previous_deltas := [] |}.
Definition ex4_run (snapshot_lock : bool) (timestamp : Z) : server_run := {|
  run_status_lock := true; run_snapshot_lock := snapshot_lock; run_timestamp := timestamp; run_session_id := "t";
  run_delta_token := "1"; run_snapshot_token := "2" |}.
Definition ex_world (status : NRTM4ServerDatabaseStatus) (files : list (string * repo_file)) : world := {|
  w_files := files; w_handler := DatabaseHandler_init ex4_cfg false ex_db 100; w_status := status;
  w_original := status |}.
Definition ex_file (content : string) : repo_file := {| f_content := content; f_mtime := 0 |}.
Notation ex_server f := (f ex4_cfg (λ a b, bool_decide (a = b)) ex_uuid (λ _, "") ex_dumps id id
  (λ _, "unf") (λ payload key, payload +:+ "/" +:+ key) (λ _, None) id "A").
Notation ex_repo_ok := (repo_ok ex4_cfg ex_dumps id id "A").
Definition ex_before : world := ex_world ex_old_status [(ex_snapshot_name, ex_file "snapshot")].
Lemma ex_before_ok : ex_repo_ok (λ _, []) ex_before.
Proof.
  split; try done.
  - constructor.
  - intros d Hd. by apply elem_of_nil in Hd.
  - intros name [= <-]. split; [reflexivity|]. by exists (ex_file "snapshot").
Qed.
Lemma ex_publishes : ∃ w', ex_server publish_changes (ex4_run true 100) 6 ex_before = (w', Ok tt)
  ∧ (d_version <$> ns_previous_deltas (w_status w')) = [2%Z].
Proof.
  assert (∀ x : world * res unit,
    match x with (w', Ok tt) => bool_decide ((d_version <$> ns_previous_deltas (w_status w')) = [2%Z]) | _ => false end = true →
    ∃ w', x = (w', Ok tt) ∧ (d_version <$> ns_previous_deltas (w_status w')) = [2%Z]) as Hx.
  { intros [w' [[]|]] Hx; [|discriminate Hx]. exists w'. split; [reflexivity|]. by apply bool_decide_eq_true in Hx. }
  apply Hx. vm_compute. reflexivity.
Qed.
Lemma publish_keeps_repository_witness :
  ∃ w' entries' u, ex_repo_ok entries' w' ∧ unf_version u = 2%Z
    ∧ published ex4_cfg (λ _, "unf") (λ payload key, payload +:+ "/" +:+ key) (λ _, None) "A" (ex4_run true 100) w' u
    ∧ names_present id w' u ∧ unf_deltas u = delta_reference <$> ns_previous_deltas (w_status w').
Proof.
  destruct ex_publishes as (w' & Erun & Ed).
  destruct (publish_keeps_repository ex4_cfg (λ a b, bool_decide (a = b)) ex_uuid (λ _, "") ex_dumps id id
    (λ _, "unf") (λ payload key, payload +:+ "/" +:+ key) (λ _, None) id "A" (ex4_run true 100) (λ _, []) ex_before w' 6 5
    ex_before_ok) as (version & entries' & w1 & u & Hv & Hr & Hnext & Hd & Hp & Hn & Hu & Huv).
  - split; [|intros d Hd; by apply elem_of_nil in Hd]. intros sid v.
    change (dict_get (nrtm_file_name "nrtm-delta" sid v "1") [(ex_snapshot_name, ex_file "snapshot")] = None).
    cbn [dict_get]. rewrite decide_False; [done|]. unfold nrtm_file_name, ex_snapshot_name. cbn [String.append]. discriminate.
  - reflexivity.
  - reflexivity.
  - exact Erun.
  - exists w', entries', u. split; [exact Hr|]. split; [|done]. injection Hv as <-.
    assert (unf_version u = 1 + 1)%Z as E; [|exact E].
    destruct Hnext as [_ Es|d journal _ _ _ _ _ _ _ Ev]; [|rewrite Ev in Huv; by injection Huv].
    exfalso. rewrite Hd, Es in Ed. discriminate Ed.
Defined.

Lemma initialisation_needs_snapshot_lock_witness :
  ∃ w' e, ex_server run_locked (ex4_run false 100) 6 (ex_world server_status_none []) = (w', Raise e)
    ∧ dict_get UPDATE_NOTIFICATION_FILENAME (w_files w') = None.
Proof.
  destruct (initialisation_needs_snapshot_lock ex4_cfg (λ a b, bool_decide (a = b)) ex_uuid (λ _, "") ex_dumps id id
    (λ _, "unf") (λ payload key, payload +:+ "/" +:+ key) (λ _, None) id "A" (ex4_run false 100)
    (ex_world server_status_none []) 6) as (w' & e & Hrun & _ & Hf); [reflexivity..|].
  exists w', e. split; [exact Hrun|exact Hf].
Defined.

(** The deltas have expired, the journal has nothing new, and the snapshot is of an
    older version: the files of the deltas are removed, and nothing is published. *)
Definition ex_delta (journal : list journal_row) : delta_info := {|
  d_filename := "nrtm-delta.s.2.1.json.gz"; d_hash := delta_file ex4_cfg ex_dumps id "A" "s" 2 journal; d_timestamp := 0;
  d_version := 2; d_serial_global_start := 5; d_serial_global_end := 6 |}.
Definition ex_journal : list journal_row := [ex_row 5 add_or_update; ex_row 6 delete_op].
Definition ex_after_status : NRTM4ServerDatabaseStatus := add_delta (ex_delta ex_journal) ex_old_status.
Definition ex_after : world := ex_world ex_after_status
  [(ex_snapshot_name, ex_file "snapshot"); (d_filename (ex_delta ex_journal), ex_file (d_hash (ex_delta ex_journal)))].
Example expired_deltas_not_published :
  let '(w', r) := ex_server publish_changes (ex4_run true (HOURS_24 + 1)) 6 ex_after in
  r = Raise (ValidationError "Value error, Update Notification File version 2 should have version 1 based on Snapshot and Delta versions")
  ∧ (w_files w').*1 = [ex_snapshot_name].
Proof. split; vm_compute; reflexivity. Qed.

(** A client one version behind. *)
Definition ex_unf : NRTM4UpdateNotificationFile := {|
  unf_source := "A"; unf_session_id := "s"; unf_version := 2; unf_timestamp := 0;
  unf_snapshot := {| fr_version := 1; fr_url := ex_snapshot_name; fr_hash := "snapshot" |};
  unf_deltas := [delta_reference (ex_delta ex_journal)]; unf_next_signing_key := None |}.
Definition ex_client : NRTM4Client := {|
  nc_source := "A"; nc_rpki_aware := false;
  nc_notification_file_url := "https://nrtm.example.net/a/update-notification-file.jose"; nc_force_reload := false;
  nc_last_status := {| nc_session_id := Some "s"; nc_version := Some 1%Z; nc_current_key := Some "key"; nc_next_key := None;
    nc_previous_file_hashes := None |} |}.
Definition ex_retrieve (url : string) (hash : option string) : res string :=
  if String.eqb url "https://nrtm.example.net/a/nrtm-delta.s.2.1.json.gz" then Ok (d_hash (ex_delta ex_journal))
  else Raise (file_not_found url).
Definition ex_read_header (type : nrtm4_header_type) (v : pyval) : string + NRTM4Header :=
  match v with
  | VDict [(_, VInt 4); (_, VStr source); (_, VStr session_id); (_, VInt version); (_, VStr _)] =>
      inr {| hd_type := type; hd_source := source; hd_session_id := session_id; hd_version := version |}
  | _ => inl "header"
  end.
Lemma ex_after_ok : ex_repo_ok (λ _, ex_journal) ex_after.
Proof.
  split.
  - repeat constructor. by intros ?%elem_of_nil.
  - intros d Hd. apply list_elem_of_singleton in Hd as ->. exists (ex_file (d_hash (ex_delta ex_journal))), "s".
    split_and!; [reflexivity..|discriminate].
  - done.
  - by intros d [= <-].
  - intros name [= <-]. split; [reflexivity|]. by exists (ex_file "snapshot").
Qed.
Notation ex_load u := (load_changes ex4_cfg ex_uuid (λ _, "") (λ _, "") (λ _, ([], None)) (λ _, []) ex_retrieve ex_loads
  ex_read_header (λ _, "") ex_client u).
Definition ex_processed : M bool :=
  _ ← st_iter (_process_delta_item ex4_cfg ex_uuid (λ _, "") (λ _, ([], None)) (λ _, []) (λ _, "") ex_client
                 (get_object_class_filter_for_source ex4_cfg "A") (delta_header "A" "s" (ex_delta ex_journal)))
        (delta_entry ex4_cfg "A" <$> ex_journal);
  mret false.
Lemma client_follows_server_witness :
  ex_load ex_unf false (w_handler ex_after) = ex_processed (w_handler ex_after).
Proof.
  destruct (client_follows_server ex4_cfg ex_uuid (λ _, "") ex_dumps id id "A" (λ _, "") (λ _, ([], None)) (λ _, [])
    ex_retrieve ex_loads ex_read_header (λ _, "") id ex_client ex_unf (λ _, ex_journal) ex_after "s" 1 false
    (w_handler ex_after)) as [E _]; [exact ex_after_ok|reflexivity..| | |reflexivity|reflexivity| | |].
  - intros d f Hd Hg _. apply list_elem_of_singleton in Hd as ->. injection Hg as <-. vm_compute. reflexivity.
  - intros d Hd. apply list_elem_of_singleton in Hd as ->. split; [done|]. split; [|vm_compute; reflexivity].
    repeat constructor; vm_compute; reflexivity.
  - change (0 < 1 ≤ 2)%Z. lia.
  - change (2 ≤ 1 + 1)%Z. lia.
  - rewrite E. unfold ex_processed. cbn [ex_after ex_world w_status ex_after_status add_delta ns_previous_deltas].
    generalize (w_handler ex_after). intros h. cbn [List.filter ex_old_status ns_previous_deltas app].
    change (1 + 1 <=? d_version (ex_delta ex_journal))%Z with true. cbv iota. cbn [st_iter]. unfold mbind, st_bind.
    destruct (st_iter _ _ h) as [h' [[]|e]]; reflexivity.
Defined.

(** A client that missed the deltas and reads a notification file whose deltas have all
    expired stays as it is, yet will have recorded version 9. *)
Definition ex_unf_expired : NRTM4UpdateNotificationFile := {|
  unf_source := "A"; unf_session_id := "s"; unf_version := 9; unf_timestamp := 0;
  unf_snapshot := {| fr_version := 9; fr_url := ex_snapshot_name; fr_hash := "snapshot" |};
  unf_deltas := []; unf_next_signing_key := None |}.
Example expired_deltas_skipped h :
  check_version_consistency ex_unf_expired = []
  ∧ ex_load ex_unf_expired false h = (h, Ok false)
  ∧ nc_version (new_client_status ex_unf_expired "key" false []) = Some 9%Z.
Proof. split; [reflexivity|]. split; [|reflexivity]. by apply (no_deltas_loads_nothing) with 1%Z. Qed.
(** The address of a file loses the port of the notification file's address. *)
Example full_url_drops_port :
  full_url {| fr_version := 2; fr_url := "nrtm-delta.json.gz"; fr_hash := "" |}
    "https://nrtm.example.net:8443/a/update-notification-file.jose" = "https://nrtm.example.net/a/nrtm-delta.json.gz".
Proof. vm_compute. reflexivity. Qed.
End Nrtm4Examples.
