(* ===== verification/UpdateValidators.v ===== *)
(** * Validating updates ([irrd/updates/parser_state.py], [validators.py])

    References, authentication and other rules.  The tables of internal
    authentication ([irrd/storage/models.py]) are an argument, since updates only
    read them; password hashing is a parameter. *)
From S2P Require Import Prelude PyStr Conf Net Models Text Rpki ScopeFilter Fields RpslObjects RpslParser Queries RoutePref Database DatabaseHandler Nrtm.

(** ** States of a request ([parser_state.py]) *)

Inductive UpdateRequestType := CREATE | MODIFY | DELETE.
Inductive SuspensionRequestType := SUSPEND | REACTIVATE.
Inductive UpdateRequestStatus :=
| SAVED | PROCESSING | ERROR_UNKNOWN_CLASS | ERROR_PARSING | ERROR_AUTH | ERROR_RULES | ERROR_REFERENCE
| ERROR_PROTECTED_NAME | ERROR_ROA | ERROR_SCOPEFILTER | ERROR_NON_AUTHORITIVE | ERROR_OBJECT_FILTER.
Inductive RPSLSetAutnumAuthenticationMode := DISABLED | OPPORTUNISTIC | REQUIRED.
Inductive AuthMethod :=
| OVERRIDE_PASSWORD | OVERRIDE_INTERNAL_AUTH | MNTNER_PASSWORD | MNTNER_PGP_KEY | MNTNER_INTERNAL_AUTH
| MNTNER_API_KEY | MNTNER_IN_SAME_REQUEST | AUTH_NONE.
#[export] Instance UpdateRequestType_eq : EqDecision UpdateRequestType.
Proof. solve_decision. Defined.
#[export] Instance UpdateRequestStatus_eq : EqDecision UpdateRequestStatus.
Proof. solve_decision. Defined.
#[export] Instance AuthMethod_eq : EqDecision AuthMethod.
Proof. solve_decision. Defined.
(** [AuthMethod.__bool__]. *)
Definition auth_bool (m : AuthMethod) : bool := negb (bool_decide (m = AUTH_NONE)).
Definition used_override (m : AuthMethod) : bool := bool_decide (m ∈ [OVERRIDE_PASSWORD; OVERRIDE_INTERNAL_AUTH]).

(** [AuthoritativeChangeOrigin]. *)
Inductive AuthoritativeChangeOrigin := origin_webui | origin_webapi | origin_email | origin_other.
#[export] Instance AuthoritativeChangeOrigin_eq : EqDecision AuthoritativeChangeOrigin.
Proof. solve_decision. Defined.

(** ** Tables of internal authentication *)

Record AuthMntner := {
  am_pk : string;
  am_rpsl_mntner_pk : string;
  am_rpsl_mntner_source : string;
  am_migration_token : option string;
}.
Record AuthPermission := { ap_user_id : string; ap_mntner_id : string; ap_user_management : bool }.
Record AuthUser := { au_pk : string; au_email : string; au_override : bool }.
Record AuthApiToken := {
  tk_pk : string;
  tk_token : string;
  tk_mntner_id : string;
  tk_ip_restriction : option string;
  tk_enabled_webapi : bool;
  tk_enabled_email : bool;
}.
Record auth_tables := {
  at_mntners : list AuthMntner;
  at_permissions : list AuthPermission;
  at_tokens : list AuthApiToken;
}.

(** [AuthUser.mntners] and [AuthUser.mntners_user_management]. *)
Definition permitted_mntners (t : auth_tables) (p : AuthPermission → bool) (u : AuthUser) : list AuthMntner :=
  List.filter (λ m, bool_decide (am_migration_token m = None)
    && existsb (λ a, String.eqb (ap_user_id a) (au_pk u) && String.eqb (ap_mntner_id a) (am_pk m) && p a)
         (at_permissions t)) (at_mntners t).
Definition mntners (t : auth_tables) : AuthUser → list AuthMntner := permitted_mntners t (λ _, true).
Definition mntners_user_management (t : auth_tables) : AuthUser → list AuthMntner :=
  permitted_mntners t ap_user_management.

Section UpdateValidators.
Context `{IPyLib} `{Radix node_data} `{redis : Redis} (cfg : configuration).
Context (collate_lt : string → string → bool) (uuid : nat → string) (timestamp_text : Z → string).
Context (gpg_import_keys : string → list string * option string) (gpg_uids : string → list string).
(** passlib: [verify] of a scheme, with [None] for its [ValueError], and [bcrypt.hash]. *)
Context (hasher_verify : string → string → string → option bool) (bcrypt_hash : string → string).
Context (tables : auth_tables).

(** [AuthApiToken.valid_for]. *)
Fixpoint ip_permitted (remote_ip : option IP) (restrictions : list string) : res bool :=
  match restrictions with
  | [] => Ok false
  | s :: restrictions' =>
      match remote_ip with
      | None => ip_permitted remote_ip restrictions'
      | Some a =>
          match ip_of 0 s with
          | inl m => Raise (ValueError m)
          | inr net => if ip_contains a net then Ok true else ip_permitted remote_ip restrictions'
          end
      end
  end.
Definition valid_for (t : AuthApiToken) (origin : AuthoritativeChangeOrigin) (remote_ip : option IP) : res bool :=
  if (tk_enabled_webapi t && bool_decide (origin = origin_webapi))
     || (tk_enabled_email t && bool_decide (origin = origin_email))
  then
    match tk_ip_restriction t with
    | Some r => if String.eqb r "" then Ok true else ip_permitted remote_ip (split_on ","%char r)
    | None => Ok true
    end
  else Ok false.

(** ** Results *)

Record ValidatorResult := {
  error_messages : list string;
  info_messages : list string;
  mntners_notify : list RPSLObject;
  auth_method : AuthMethod;
  auth_through_mntner : option string;
  auth_through_internal_mntner : option AuthMntner;
  auth_through_api_key : option AuthApiToken;
  auth_through_internal_user : option AuthUser;
}.
Definition result_none : ValidatorResult := {|
  error_messages := []; info_messages := []; mntners_notify := []; auth_method := AUTH_NONE;
  auth_through_mntner := None; auth_through_internal_mntner := None; auth_through_api_key := None;
  auth_through_internal_user := None |}.
Definition result_valid (r : ValidatorResult) : bool := match error_messages r with [] => true | _ => false end.
Definition with_messages (errors infos : list string) (r : ValidatorResult) : ValidatorResult := {|
  error_messages := oset_update (error_messages r) errors; info_messages := oset_update (info_messages r) infos;
  mntners_notify := mntners_notify r; auth_method := auth_method r; auth_through_mntner := auth_through_mntner r;
  auth_through_internal_mntner := auth_through_internal_mntner r; auth_through_api_key := auth_through_api_key r;
  auth_through_internal_user := auth_through_internal_user r |}.
Definition with_notify (l : list RPSLObject) (r : ValidatorResult) : ValidatorResult := {|
  error_messages := error_messages r; info_messages := info_messages r;
  mntners_notify := l; auth_method := auth_method r; auth_through_mntner := auth_through_mntner r;
  auth_through_internal_mntner := auth_through_internal_mntner r; auth_through_api_key := auth_through_api_key r;
  auth_through_internal_user := auth_through_internal_user r |}.

Record MntnerCheckResult := {
  mc_valid : bool;
  mc_associated_mntners : list RPSLObject;
  mc_auth_method : AuthMethod;
  mc_mntner_pk : option string;
  mc_auth_mntner : option AuthMntner;
  mc_api_key : option AuthApiToken;
}.

(** A row of the change log; the texts are those before and after. *)
Record ChangeLog := {
  cl_auth_by_user_id : option string;
  cl_auth_by_user_email : option string;
  cl_auth_by_api_key_id : option string;
  cl_auth_through_mntner_id : option string;
  cl_auth_through_rpsl_mntner_pk : option string;
  cl_auth_by_rpsl_mntner_password : bool;
  cl_auth_by_rpsl_mntner_pgp_key : bool;
  cl_auth_by_override : bool;
  cl_from_ip : option string;
  cl_from_email : option string;
  cl_request_type : option UpdateRequestType;
  cl_target_pk : string;
  cl_target_source : string;
  cl_target_object_class : string;
  cl_text_old : option string;
  cl_text_new : option string;
}.
Definition to_change_log (r : ValidatorResult) (from_ip from_email : option string)
    (request_type : option UpdateRequestType) (target_pk target_source target_class : string)
    (text_old text_new : option string) : ChangeLog := {|
  cl_auth_by_user_id := au_pk <$> auth_through_internal_user r;
  cl_auth_by_user_email := au_email <$> auth_through_internal_user r;
  cl_auth_by_api_key_id := tk_pk <$> auth_through_api_key r;
  cl_auth_through_mntner_id := am_pk <$> auth_through_internal_mntner r;
  cl_auth_through_rpsl_mntner_pk := auth_through_mntner r;
  cl_auth_by_rpsl_mntner_password := bool_decide (auth_method r = MNTNER_PASSWORD);
  cl_auth_by_rpsl_mntner_pgp_key := bool_decide (auth_method r = MNTNER_PGP_KEY);
  cl_auth_by_override := used_override (auth_method r);
  cl_from_ip := from_ip; cl_from_email := from_email; cl_request_type := request_type;
  cl_target_pk := target_pk; cl_target_source := target_source; cl_target_object_class := target_class;
  cl_text_old := text_old; cl_text_new := text_new |}.

(** ** State of a submission *)

(** The key of an object in the reference validator: class, primary key, source. *)
Definition reference : Type := string * string * string.
Record ReferenceValidator := {
  rv_cache : list reference;
  rv_preloaded_new : list reference;
  rv_preloaded_deleted : list reference;
}.
(** Sets in insertion order. *)
Record AuthValidator := {
  av_passwords : list string;
  av_overrides : list string;
  av_api_keys : list string;
  av_keycert_obj_pk : option string;
  av_origin : AuthoritativeChangeOrigin;
  av_remote_ip : option IP;
  av_mntner_db_cache : list RPSLObject;
  av_pre_approved : list string;
  av_internal_authenticated_user : option AuthUser;
}.
Record submission := {
  sm_handler : handler;
  sm_auth : AuthValidator;
  sm_ref : ReferenceValidator;
  sm_change_log : list ChangeLog;
}.
Notation U := (st submission).
Definition ReferenceValidator_init : ReferenceValidator :=
  {| rv_cache := []; rv_preloaded_new := []; rv_preloaded_deleted := [] |}.
Definition AuthValidator_init (origin : AuthoritativeChangeOrigin) (keycert_obj_pk : option string)
    (user : option AuthUser) (remote_ip : option IP) : AuthValidator := {|
  av_passwords := []; av_overrides := []; av_api_keys := []; av_keycert_obj_pk := keycert_obj_pk;
  av_origin := origin; av_remote_ip := remote_ip; av_mntner_db_cache := []; av_pre_approved := [];
  av_internal_authenticated_user := user |}.

(** A call on the database handler. *)
Definition on_db {A} (m : M A) : U A := λ s,
  let '(h, r) := m (sm_handler s) in
  ({| sm_handler := h; sm_auth := sm_auth s; sm_ref := sm_ref s; sm_change_log := sm_change_log s |}, r).
Definition with_ref (f : ReferenceValidator → ReferenceValidator) (s : submission) : submission := {|
  sm_handler := sm_handler s; sm_auth := sm_auth s; sm_ref := f (sm_ref s); sm_change_log := sm_change_log s |}.
Definition with_auth (f : AuthValidator → AuthValidator) (s : submission) : submission := {|
  sm_handler := sm_handler s; sm_auth := f (sm_auth s); sm_ref := sm_ref s; sm_change_log := sm_change_log s |}.
Definition with_log (f : list ChangeLog → list ChangeLog) (s : submission) : submission := {|
  sm_handler := sm_handler s; sm_auth := sm_auth s; sm_ref := sm_ref s; sm_change_log := f (sm_change_log s) |}.
Definition query_objects (q : res query) : U (list rpsl_row) :=
  q ← st_lift q; on_db (execute_query_objects cfg collate_lt uuid q).
(** [RPSLDatabaseQuery().sources([source])]. *)
Definition in_source (source : string) : res query := sources (RPSLDatabaseQuery true true) [source].

(** ** ReferenceValidator *)

(** [preload]: the references of the requests to be saved and deleted. *)
Definition preload (new deleted : list reference) : U unit :=
  st_modify (with_ref (λ v, {| rv_cache := rv_cache v; rv_preloaded_new := new; rv_preloaded_deleted := deleted |})).

(** The verdict of the loop over the classes, when it gives one. *)
Fixpoint known_reference (v : ReferenceValidator) (object_classes : list string) (object_pk source : string)
  : option bool :=
  match object_classes with
  | [] => None
  | c :: classes' =>
      if bool_decide ((c, object_pk, source) ∈ rv_cache v) then Some true
      else if bool_decide ((c, object_pk, source) ∈ rv_preloaded_new v) then Some true
      else if bool_decide ((c, object_pk, source) ∈ rv_preloaded_deleted v) then Some false
      else known_reference v classes' object_pk source
  end.
Definition _check_reference_to_others (classes : list string) (object_pk source : string) : U bool :=
  s ← st_get;
  match known_reference (sm_ref s) classes object_pk source with
  | Some b => mret b
  | None =>
      results ← query_objects (q ← in_source source; q ← object_classes q classes; rpsl_pk q object_pk);
      _ ← st_modify (with_ref (λ v, {|
            rv_cache := oset_update (rv_cache v) ((λ r, (r_object_class r, object_pk, source)) <$> results);
            rv_preloaded_new := rv_preloaded_new v; rv_preloaded_deleted := rv_preloaded_deleted v |}));
      mret (match results with [] => false | _ => true end)
  end.
Definition missing_reference (field_name object_pk source : string) (referred : list string) : string :=
  "Object " +:+ object_pk +:+ " referenced in field " +:+ field_name +:+ " not found in database " +:+ source
  +:+ " - must reference "
  +:+ (match referred with _ :: _ :: _ => "one of " +:+ join ", " referred | _ => hd "" referred end) +:+ ".".
Fixpoint check_pks (field_name : string) (referred : list string) (source : string) (object_pks : list string)
    (result : ValidatorResult) : U ValidatorResult :=
  match object_pks with
  | [] => mret result
  | object_pk :: object_pks' =>
      ok ← _check_reference_to_others referred object_pk source;
      check_pks field_name referred source object_pks'
        (if ok : bool then result else with_messages [missing_reference field_name object_pk source referred] [] result)
  end.
Fixpoint check_fields (references : list (string * list string * pdata)) (source : string)
    (result : ValidatorResult) : U ValidatorResult :=
  match references with
  | [] => mret result
  | (field_name, referred, object_pks) :: references' =>
      result ← check_pks field_name referred source (pdata_list (Some object_pks)) result;
      check_fields references' source result
  end.
Definition check_references_to_others (o : RPSLObject) : U ValidatorResult :=
  src ← st_lift (source o);
  check_fields (referred_strong_objects o) src result_none.

(** The rows that refer to the object and are not to be deleted themselves. *)
Definition _check_references_from_others (o : RPSLObject) : U (list rpsl_row) :=
  match references_strong_inbound (o_class_name o) with
  | [] => mret []
  | inbound =>
      src ← st_lift (source o);
      results ← query_objects (q ← in_source src; lookup_attrs_in q inbound [Some (pk o)]);
      s ← st_get;
      mret (List.filter (λ r, negb (bool_decide ((r_object_class r, r_rpsl_pk r, r_source r)
                                                   ∈ rv_preloaded_deleted (sm_ref s)))) results)
  end.
Definition check_references_from_others_for_deletion (o : RPSLObject) (override : bool) : U ValidatorResult :=
  rows ← _check_references_from_others o;
  mret (if override && bool_decide (o_class_name o ∈ PROTECTED_NAME_OBJECT_CLASSES)
        then with_messages [] ((λ r, "NOTE: object " +:+ pk o +:+ " still referenced by " +:+ r_object_class r +:+ " "
               +:+ r_rpsl_pk r +:+ ". Delete permitted due to override. This creates a broken reference.") <$> rows)
               result_none
        else with_messages ((λ r, "Object " +:+ pk o +:+ " to be deleted, but still referenced by "
               +:+ r_object_class r +:+ " " +:+ r_rpsl_pk r) <$> rows) [] result_none).
Definition is_protected_name (o : RPSLObject) (src : string) (d : database) : bool :=
  existsb (λ p, String.eqb (prot_name p) (pk o) && String.eqb (prot_object_class p) (o_class_name o)
                && String.eqb (prot_source p) src) (db_protected d).
Definition check_protected_name (o : RPSLObject) (override : bool) : U ValidatorResult :=
  rows ← _check_references_from_others o;
  let from r := " from " +:+ r_object_class r +:+ " " +:+ r_rpsl_pk r in
  let result :=
    if override
    then with_messages [] ((λ r, "NOTE: existing references to " +:+ pk o +:+ " exist" +:+ from r
                                 +:+ ", permitted due to override") <$> rows) result_none
    else with_messages ((λ r, "Object " +:+ pk o +:+ " to be created, but existing references exist" +:+ from r) <$> rows)
           [] result_none in
  src ← st_lift (source o);
  is_protected ← on_db (query_database cfg uuid (is_protected_name o src));
  mret (if is_protected : bool then
          if override
          then with_messages [] ["NOTE: object " +:+ pk o +:+ " has a protected name, creation permitted due to override."] result
          else with_messages ["Object " +:+ pk o +:+ " has a protected name that can not be reused."
                 +:+ " Create the object under a different name."] [] result
        else result).

(** ** AuthValidator *)

Definition with_auth_cache (f : list RPSLObject → list RPSLObject) (v : AuthValidator) : AuthValidator := {|
  av_passwords := av_passwords v; av_overrides := av_overrides v; av_api_keys := av_api_keys v;
  av_keycert_obj_pk := av_keycert_obj_pk v; av_origin := av_origin v; av_remote_ip := av_remote_ip v;
  av_mntner_db_cache := f (av_mntner_db_cache v); av_pre_approved := av_pre_approved v;
  av_internal_authenticated_user := av_internal_authenticated_user v |}.
Definition with_pre_approved (l : list string) (v : AuthValidator) : AuthValidator := {|
  av_passwords := av_passwords v; av_overrides := av_overrides v; av_api_keys := av_api_keys v;
  av_keycert_obj_pk := av_keycert_obj_pk v; av_origin := av_origin v; av_remote_ip := av_remote_ip v;
  av_mntner_db_cache := av_mntner_db_cache v; av_pre_approved := l;
  av_internal_authenticated_user := av_internal_authenticated_user v |}.
Definition with_credentials (passwords overrides api_keys : list string) (v : AuthValidator) : AuthValidator := {|
  av_passwords := passwords; av_overrides := overrides; av_api_keys := api_keys;
  av_keycert_obj_pk := av_keycert_obj_pk v; av_origin := av_origin v; av_remote_ip := av_remote_ip v;
  av_mntner_db_cache := av_mntner_db_cache v; av_pre_approved := av_pre_approved v;
  av_internal_authenticated_user := av_internal_authenticated_user v |}.
Definition pre_approve (presumed_valid_new_mntners : list RPSLObject) : U unit :=
  st_modify (with_auth (with_pre_approved (oset_update [] (pk <$> presumed_valid_new_mntners)))).

(** One override password: bcrypt, or salted MD5 when the hash is not a bcrypt hash. *)
Definition override_matches (override_hash override : string) : bool :=
  match hasher_verify "BCRYPT-PW" override override_hash with
  | Some b => b
  | None => match hasher_verify "MD5-PW" override override_hash with Some b => b | None => false end
  end.
Definition check_override (v : AuthValidator) : AuthMethod :=
  match av_internal_authenticated_user v with
  | Some u => if au_override u then OVERRIDE_INTERNAL_AUTH else
      if truthy (get_setting cfg "auth.override_password")
         && existsb (override_matches (pyval_str (get_setting cfg "auth.override_password"))) (av_overrides v)
      then OVERRIDE_PASSWORD else AUTH_NONE
  | None =>
      if truthy (get_setting cfg "auth.override_password")
         && existsb (override_matches (pyval_str (get_setting cfg "auth.override_password"))) (av_overrides v)
      then OVERRIDE_PASSWORD else AUTH_NONE
  end.

(** [RPSLObject.__eq__]: class, key and parsed data. *)
Definition object_eqb (a b : RPSLObject) : bool :=
  String.eqb (o_class_name a) (o_class_name b) && String.eqb (pk a) (pk b)
  && bool_decide (o_parsed_data a = o_parsed_data b).
Definition cache_objects (l cache : list RPSLObject) : list RPSLObject :=
  foldl (λ c o, if existsb (object_eqb o) c then c else c ++ [o]) cache l.
(** The cached mntners with one of the keys in the source. *)
Fixpoint cached_mntners (pks : list string) (src : string) (cache : list RPSLObject) : res (list RPSLObject) :=
  match cache with
  | [] => Ok []
  | m :: cache' =>
      keep ← (if bool_decide (pk m ∈ pks) then s ← source m; Ok (String.eqb s src) else Ok false);
      rest ← cached_mntners pks src cache';
      Ok (if keep : bool then m :: rest else rest)
  end.
Definition parse_stored (text : string) : res RPSLObject :=
  rpsl_object_from_text cfg gpg_import_keys gpg_uids text false None.
(** The mntner objects with these keys, from the cache and the database. *)
Definition resolve_mntners (mntner_pk_list : list string) (src : string) : U (list RPSLObject) :=
  s ← st_get;
  cached ← st_lift (cached_mntners mntner_pk_list src (av_mntner_db_cache (sm_auth s)));
  match List.filter (λ p, negb (bool_decide (p ∈ pk <$> cached))) mntner_pk_list with
  | [] => mret cached
  | to_resolve =>
      results ← query_objects (q ← in_source src; q ← object_classes q ["mntner"]; rpsl_pks q to_resolve);
      retrieved ← st_lift (res_map (λ r, parse_stored (r_object_text r)) results);
      _ ← st_modify (with_auth (with_auth_cache (cache_objects retrieved)));
      mret (cached ++ retrieved)
  end.

Definition is_mntner (o : RPSLObject) : bool := String.eqb (o_class_name o) "mntner".
Definition _mntner_matches_internal_auth (v : AuthValidator) (o : RPSLObject) (rpsl_pk src : string)
  : res (option AuthMntner) :=
  match av_internal_authenticated_user v with
  | None => Ok None
  | Some u =>
      same ← (if String.eqb (pk o) rpsl_pk then s ← source o; Ok (String.eqb s src) else Ok false);
      Ok (List.find (λ m, String.eqb rpsl_pk (am_rpsl_mntner_pk m) && String.eqb src (am_rpsl_mntner_source m))
            (if same : bool then mntners_user_management tables u else mntners tables u))
  end.
Definition mntner_of_token (t : AuthApiToken) : option AuthMntner :=
  List.find (λ m, String.eqb (am_pk m) (tk_mntner_id t)) (at_mntners tables).
Fixpoint first_valid_token (v : AuthValidator) (tokens : list AuthApiToken) : res (option AuthApiToken) :=
  match tokens with
  | [] => Ok None
  | t :: tokens' =>
      ok ← valid_for t (av_origin v) (av_remote_ip v);
      if ok : bool then Ok (Some t) else first_valid_token v tokens'
  end.
Definition _api_key_match_for_mntner (v : AuthValidator) (o : RPSLObject) (rpsl_pk src : string)
  : res (option AuthApiToken) :=
  match av_api_keys v with
  | [] => Ok None
  | _ =>
      if is_mntner o then Ok None
      else first_valid_token v (List.filter (λ t,
             match mntner_of_token t with
             | Some m => String.eqb (am_rpsl_mntner_pk m) rpsl_pk && String.eqb (am_rpsl_mntner_source m) src
             | None => false
             end && bool_decide (tk_token t ∈ av_api_keys v)) (at_tokens tables))
  end.

Definition check_result (valid : bool) (associated : list RPSLObject) (m : AuthMethod) (mntner_pk : option string)
    (mntner : option AuthMntner) (key : option AuthApiToken) : MntnerCheckResult := {|
  mc_valid := valid; mc_associated_mntners := associated; mc_auth_method := m; mc_mntner_pk := mntner_pk;
  mc_auth_mntner := mntner; mc_api_key := key |}.
(** The loop over the names, then that over the objects. *)
Fixpoint match_names (v : AuthValidator) (o : RPSLObject) (src : string) (objs : list RPSLObject) (names : list string)
  : res (option MntnerCheckResult) :=
  match names with
  | [] => Ok None
  | name :: names' =>
      if bool_decide (name ∈ av_pre_approved v)
      then Ok (Some (check_result true objs MNTNER_IN_SAME_REQUEST (Some name) None None))
      else
        internal ← _mntner_matches_internal_auth v o name src;
        match internal with
        | Some m => Ok (Some (check_result true objs MNTNER_INTERNAL_AUTH (Some name) (Some m) None))
        | None =>
            key ← _api_key_match_for_mntner v o name src;
            match key with
            | Some t => Ok (Some (check_result true objs MNTNER_API_KEY (Some name) (mntner_of_token t) (Some t)))
            | None => match_names v o src objs names'
            end
        end
  end.
Definition mntner_verify (v : AuthValidator) (m : RPSLObject) : res (option string) :=
  verify_auth cfg hasher_verify m (av_passwords v) (av_keycert_obj_pk v).
Definition scheme_method (scheme : string) : AuthMethod :=
  if contains "PGPKEY" scheme then MNTNER_PGP_KEY else MNTNER_PASSWORD.
Fixpoint match_objects (v : AuthValidator) (all objs : list RPSLObject) : res MntnerCheckResult :=
  match objs with
  | [] => Ok (check_result false all AUTH_NONE None None None)
  | m :: objs' =>
      scheme ← mntner_verify v m;
      match scheme with
      | Some s => if String.eqb s "" then match_objects v all objs'
                  else Ok (check_result true all (scheme_method s) (Some (pk m)) None None)
      | None => match_objects v all objs'
      end
  end.
Definition _check_mntners (o : RPSLObject) (mntner_pk_list : list string) (src : string) : U MntnerCheckResult :=
  objs ← resolve_mntners mntner_pk_list src;
  s ← st_get;
  named ← st_lift (match_names (sm_auth s) o src objs mntner_pk_list);
  match named with
  | Some r => mret r
  | None => st_lift (match_objects (sm_auth s) objs objs)
  end.

Definition failure_message (failed_mntner_list : list string) (o : RPSLObject) (related : option (string * string))
  : string :=
  "Authorisation for " +:+ o_class_name o +:+ " " +:+ pk o +:+ " failed: must be authenticated by one of: "
  +:+ join ", " failed_mntner_list
  +:+ match related with
      | Some (cls, related_pk) =>
          if String.eqb cls "" || String.eqb related_pk "" then "" else " - from parent " +:+ cls +:+ " " +:+ related_pk
      | None => ""
      end.

(** ** Related objects *)

Definition _init_related_object_query (cls src : string) : res query :=
  q ← in_source src; q ← object_classes q [cls]; Ok (first_only q).
Definition first_row (l : list rpsl_row) : option rpsl_row := head l.
Definition inetnum_class (cls : string) : string := if String.eqb cls "route" then "inetnum" else "inet6num".
Definition _find_related_object_route (o : RPSLObject) : U (option rpsl_row) :=
  if negb (truthy (get_setting cfg "auth.authenticate_parents_route_creation")) then mret None
  else
    src ← st_lift (source o);
    match md_prefix (o_metadata o) with
    | None => st_raise AttributeError
    | Some prefix =>
        inetnums ← query_objects (q ← _init_related_object_query (inetnum_class (o_class_name o)) src; ip_exact q prefix);
        match inetnums with
        | r :: _ => mret (Some r)
        | [] =>
            inetnums ← query_objects (q ← _init_related_object_query (inetnum_class (o_class_name o)) src;
                                      ip_less_specific_one_level q prefix);
            match inetnums with
            | r :: _ => mret (Some r)
            | [] =>
                routes ← query_objects (q ← _init_related_object_query (o_class_name o) src;
                                        ip_less_specific_one_level q prefix);
                mret (first_row routes)
            end
        end
    end.
Definition for_set_name (set_name : string) : res RPSLSetAutnumAuthenticationMode :=
  let setting := get_setting cfg ("auth.set_creation." +:+ set_name +:+ ".autnum_authentication") in
  let setting := if truthy setting then setting
                 else get_setting cfg ("auth.set_creation." +:+ AUTH_SET_CREATION_COMMON_KEY +:+ ".autnum_authentication") in
  match setting with
  | VStr s =>
      if String.eqb (str_upper s) "DISABLED" then Ok DISABLED
      else if String.eqb (str_upper s) "OPPORTUNISTIC" then Ok OPPORTUNISTIC
      else if String.eqb (str_upper s) "REQUIRED" then Ok REQUIRED
      else Raise AttributeError
  | _ => Raise AttributeError
  end.
(** The aut-num, and the error of a missing one. *)
Definition _find_related_object_set (o : RPSLObject) : U (option rpsl_row * list string) :=
  match o_pk_asn_segment o with
  | None => mret (None, [])
  | Some segment =>
      if String.eqb segment "" then mret (None, [])
      else
        mode ← st_lift (for_set_name (o_class_name o));
        match mode with
        | DISABLED => mret (None, [])
        | _ =>
            src ← st_lift (source o);
            aut_nums ← query_objects (q ← _init_related_object_query "aut-num" src; rpsl_pk q segment);
            mret (match aut_nums, mode with
                  | r :: _, _ => (Some r, [])
                  | [], REQUIRED => (None, ["Creating this object requires an aut-num for " +:+ segment +:+ " to exist."])
                  | [], _ => (None, [])
                  end)
        end
  end.
Definition _find_related_mntners (o : RPSLObject) : U (option (string * string * list string) * list string) :=
  '(related, errors) ←
    (if bool_decide (o_class_name o ∈ ["route"; "route6"]) then r ← _find_related_object_route o; mret (r, [])
     else if c_is_set (o_class o) then _find_related_object_set o
     else mret (None, []));
  mret ((λ r, (r_object_class r, r_rpsl_pk r, pdata_list (r_parsed_data r !! "mnt-by"))) <$> related, errors).

(** ** process_auth *)

Definition mnt_by (o : RPSLObject) : res (list string) :=
  match o_parsed_data o !! "mnt-by" with Some v => Ok (pdata_list (Some v)) | None => Raise (KeyError "mnt-by") end.
Definition failure_if (r : MntnerCheckResult) (msg : string) : list string := if mc_valid r then [] else [msg].
(** The check of the current object, or of the related one. *)
Definition check_current (o current : RPSLObject) (src : string) (result : ValidatorResult)
  : U (MntnerCheckResult * ValidatorResult) :=
  mntners_current ← st_lift (mnt_by current);
  r ← _check_mntners o mntners_current src;
  mret (r, with_notify (mc_associated_mntners r)
             (with_messages (failure_if r (failure_message mntners_current o None)) [] result)).
Definition check_related (o : RPSLObject) (new_result : MntnerCheckResult) (src : string) (result : ValidatorResult)
  : U (option MntnerCheckResult * ValidatorResult) :=
  let result := with_notify (mc_associated_mntners new_result) result in
  '(related, errors) ← _find_related_mntners o;
  let result := with_messages errors [] result in
  match related with
  | None => mret (None, result)
  | Some (cls, related_pk, mntner_list) =>
      r ← _check_mntners o mntner_list src;
      mret (Some r, if mc_valid r then result
                    else with_notify (mc_associated_mntners r)
                           (with_messages [failure_message mntner_list o (Some (cls, related_pk))] [] result))
  end.
Definition dummy_replaced : string :=
  "As you submitted dummy hash values, all password hashes on this object were replaced with a new BCRYPT-PW hash of the password you provided for authentication.".
Definition dummy_refused : string :=
  "Object submitted with dummy hash values, but multiple or no passwords submitted. Either submit only full hashes, or a single password.".
(** A mntner must pass its own new authentication. *)
Definition check_new_mntner (v : AuthValidator) (o : RPSLObject) (src : string) (result : ValidatorResult)
  : res (RPSLObject * ValidatorResult) :=
  if has_dummy_auth_value o then
    match av_passwords v with
    | [password] => Ok (force_single_new_password bcrypt_hash o password, with_messages [] [dummy_replaced] result)
    | _ => Ok (o, with_messages [dummy_refused] [] result)
    end
  else
    scheme ← mntner_verify v o;
    internal ← _mntner_matches_internal_auth v o (pk o) src;
    Ok (o, match scheme, internal with
           | None, None | Some "", None =>
               with_messages ["Authorisation failed for the auth methods on this mntner object."] [] result
           | _, _ => result
           end).
Definition with_auth_details (v : AuthValidator) (r : MntnerCheckResult) (result : ValidatorResult) : ValidatorResult := {|
  error_messages := error_messages result; info_messages := info_messages result;
  mntners_notify := mntners_notify result; auth_method := mc_auth_method r; auth_through_mntner := mc_mntner_pk r;
  auth_through_internal_mntner := mc_auth_mntner r; auth_through_api_key := mc_api_key r;
  auth_through_internal_user := if bool_decide (mc_auth_method r = MNTNER_INTERNAL_AUTH)
                                then av_internal_authenticated_user v else auth_through_internal_user result |}.
Definition override_result (v : AuthValidator) (m : AuthMethod) : ValidatorResult := {|
  error_messages := []; info_messages := []; mntners_notify := []; auth_method := m; auth_through_mntner := None;
  auth_through_internal_mntner := None; auth_through_api_key := None;
  auth_through_internal_user := if bool_decide (m = OVERRIDE_INTERNAL_AUTH) then av_internal_authenticated_user v else None |}.
(** [process_auth]: the result, and the object, whose hashes may be replaced. *)
Definition process_auth (o : RPSLObject) (current : option RPSLObject) : U (ValidatorResult * RPSLObject) :=
  src ← st_lift (source o);
  s ← st_get;
  let override_method := check_override (sm_auth s) in
  if auth_bool override_method then mret (override_result (sm_auth s) override_method, o)
  else
    mntners_new ← st_lift (mnt_by o);
    new_result ← _check_mntners o mntners_new src;
    let result := with_messages (failure_if new_result (failure_message mntners_new o None)) [] result_none in
    '(checked, result) ←
      match current with
      | Some cur => '(r, result) ← check_current o cur src result; mret (Some r, result)
      | None => check_related o new_result src result
      end;
    s ← st_get;
    if is_mntner o then
      match current with
      | None => mret (with_messages ["New mntner objects must be added by an administrator."] [] result, o)
      | Some _ =>
          '(o, result) ← st_lift (check_new_mntner (sm_auth s) o src result);
          mret (with_auth_details (sm_auth s) (default new_result checked) result, o)
      end
    else mret (with_auth_details (sm_auth s) (default new_result checked) result, o).

(** ** RulesValidator *)

Definition BLOCKLIST_ROUTES : list string := ["0.0.0.0/0"; "0.0.0.0/32"; "::/0"; "::/128"].
Definition blocklisted (prefix : option IP) : bool :=
  match prefix with
  | Some p => existsb (λ s, match ip_of 0 s with inr b => bool_decide (b = p) | inl _ => false end) BLOCKLIST_ROUTES
  | None => false
  end.
Definition _check_suspended_mntner_with_same_pk (rpsl_pk src : string) : U bool :=
  on_db (query_database cfg uuid (λ d, existsb (λ r, String.eqb (sus_object_class r) "mntner"
    && String.eqb (sus_rpsl_pk r) (strip (str_upper rpsl_pk)) && String.eqb (sus_source r) (strip (str_upper src)))
    (db_suspended d))).
Definition _check_mntner_migrated (rpsl_pk src : string) : bool :=
  existsb (λ m, String.eqb (am_rpsl_mntner_pk m) rpsl_pk && String.eqb (am_rpsl_mntner_source m) src) (at_mntners tables).
Definition migration_errors (o : RPSLObject) (src : string) : list string :=
  match _check_mntner_migrated (pk o) src, has_internal_auth o with
  | true, false => ["This maintainer is migrated and must include the " +:+ RPSL_MNTNER_AUTH_INTERNAL +:+ " method."]
  | false, true => ["This maintainer is not migrated, and therefore can not use the " +:+ RPSL_MNTNER_AUTH_INTERNAL +:+ " method."]
  | _, _ => []
  end.
Definition rules_validate (o : RPSLObject) (request_type : UpdateRequestType) : U ValidatorResult :=
  let errors := if negb (bool_decide (request_type = DELETE)) && c_is_route (o_class o)
                   && blocklisted (md_prefix (o_metadata o))
                then ["Route(6) objects for " +:+ default "" (ip_str <$> md_prefix (o_metadata o)) +:+ " are not permitted."]
                else [] in
  if is_mntner o then
    src ← st_lift (source o);
    suspended ← (if bool_decide (request_type = CREATE) then _check_suspended_mntner_with_same_pk (pk o) src
                 else mret false);
    mret (with_messages (errors
            ++ (if suspended : bool
                then ["A suspended mntner with primary key " +:+ pk o +:+ " already exists for " +:+ src] else [])
            ++ migration_errors o src) [] result_none)
  else mret (with_messages errors [] result_none).
End UpdateValidators.
