(* ===== verification/UpdateRequests.v ===== *)
(** * Requests for updates ([irrd/updates/parser.py], [suspension.py])

    One request for a change or a suspension: how it is read, validated and
    saved, and the reports made of it.  [difflib.unified_diff] is a parameter. *)
From S2P Require Import Prelude PyStr Conf Net Models Text Rpki ScopeFilter Fields RpslObjects RpslParser Queries RoutePref Database DatabaseHandler Nrtm UpdateValidators.

(** [repr(rpsl_object)]. *)
Definition object_repr `{IPyLib} (o : RPSLObject) : string :=
  o_class_name o +:+ "/" +:+ pk o +:+ "/" +:+ pdata_str (o_parsed_data o !! "source").
Definition not_authoritative {A} (src : string) : res A := Raise (ValueError ("Not authoritative for source " +:+ src)).

Section UpdateRequests.
Context `{IPyLib} `{Radix node_data} `{redis : Redis} (cfg : configuration).
Context (collate_lt : string → string → bool) (uuid : nat → string) (timestamp_text : Z → string).
Context (gpg_import_keys : string → list string * option string) (gpg_uids : string → list string).
Context (hasher_verify : string → string → string → option bool) (bcrypt_hash : string → string).
Context (tables : auth_tables) (unified_diff : list string → list string → list string).
Notation U := (st submission).
Notation query_objects := (query_objects cfg collate_lt uuid).
Notation parse strict text := (rpsl_object_from_text cfg gpg_import_keys gpg_uids text strict None).

(** ** Suspension ([suspension.py]) *)

(** [mntner_active], with its cache: the last used first, 50 at most. *)
Definition mntner_active (src : string) (cache : list (string * bool)) (name : string)
  : U (list (string * bool) * bool) :=
  match dict_get name cache with
  | Some b => mret ((name, b) :: List.filter (λ x, negb (String.eqb x.1 name)) cache, b)
  | None =>
      rows ← query_objects (q ← in_source src; q ← rpsl_pk q name; q ← object_classes q ["mntner"]; Ok (first_only q));
      let b := match rows with [] => false | _ => true end in
      mret (take 50 ((name, b) :: cache), b)
  end.
Fixpoint active_mntners (src suspended : string) (cache : list (string * bool)) (names : list string)
  : U (list (string * bool) * list string) :=
  match names with
  | [] => mret (cache, [])
  | m :: names' =>
      if String.eqb m suspended then active_mntners src suspended cache names'
      else
        '(cache, b) ← mntner_active src cache m;
        '(cache, rest) ← active_mntners src suspended cache names';
        mret (cache, if b : bool then m :: rest else rest)
  end.
Fixpoint suspend_rows (src suspended : string) (cache : list (string * bool)) (done rows : list rpsl_row)
  : U (list rpsl_row) :=
  match rows with
  | [] => mret done
  | r :: rows' =>
      if bool_decide (r_pk r ∈ r_pk <$> done) then suspend_rows src suspended cache done rows'
      else
        match r_parsed_data r !! "mnt-by" with
        | None => st_raise (KeyError "mnt-by")
        | Some v =>
            '(cache, active) ← active_mntners src suspended cache (oset_update [] (pdata_list (Some v)));
            if negb (String.eqb (r_rpsl_pk r) suspended) && match active with [] => false | _ => true end
            then suspend_rows src suspended cache done rows'
            else
              _ ← on_db (suspend_rpsl_object cfg uuid (r_pk r));
              suspend_rows src suspended cache (done ++ [r]) rows'
        end
  end.
Definition suspend_for_mntner (suspended_mntner : RPSLObject) : U (list rpsl_row) :=
  src ← st_lift (source suspended_mntner);
  let name := pk suspended_mntner in
  if negb (truthy (source_setting cfg src "authoritative")) then st_lift (not_authoritative src)
  else
    result1 ← query_objects (q ← in_source src; lookup_attr q "mnt-by" (Some name));
    result2 ← query_objects (q ← in_source src; q ← rpsl_pk q name; object_classes q ["mntner"]);
    match result2 with
    | [] => st_raise (ValueError ("mntner " +:+ name +:+ " does not exist in " +:+ src +:+ " (or may already be suspended)"))
    | _ => suspend_rows src name [] [] (result1 ++ result2)
    end.

Fixpoint insert_timestamp (r : suspended_row) (l : list suspended_row) : list suspended_row :=
  match l with
  | [] => [r]
  | x :: l' => if (sus_timestamp r <=? sus_timestamp x)%Z then r :: l else x :: insert_timestamp r l'
  end.
(** [RPSLDatabaseSuspendedQuery().sources([source])] with one more condition. *)
Definition suspended_rows (src : string) (p : suspended_row → bool) (d : database) : list suspended_row :=
  foldr insert_timestamp []
    (List.filter (λ r, String.eqb (sus_source r) (strip (str_upper src)) && p r) (db_suspended d)).
Definition pk_exists (src name cls : string) : U bool :=
  rows ← query_objects (q ← in_source src; q ← rpsl_pk q name; object_classes q [cls]);
  mret (match rows with [] => false | _ => true end).
(** The statuses of a restored object. *)
Definition restored_rpki (src : string) (o : RPSLObject) : U RPKIStatus :=
  match md_prefix (o_metadata o), nonzero_asn o with
  | Some prefix, Some asn =>
      if truthy (get_setting cfg "rpki.roa_source") && c_is_route (o_class o)
      then on_db (query_database cfg uuid (λ d, single_validate_route cfg (db_roas d) prefix asn src))
      else mret rpki_not_found
  | _, _ => mret rpki_not_found
  end.
Definition scope_of (o : RPSLObject) : res (ScopeFilterStatus * string) :=
  filters ← load_filters cfg;
  src ← source o;
  validate_rpsl_object cfg filters src (o_class_name o) (md_prefix (o_metadata o)) (md_asn_first (o_metadata o)).
Fixpoint restore_rows (src : string) (pks : list string) (restored : list RPSLObject) (infos : list string)
    (rows : list suspended_row) : U (list string * list RPSLObject * list string) :=
  match rows with
  | [] => mret (pks, restored, infos)
  | r :: rows' =>
      if bool_decide (sus_pk r ∈ pks) then restore_rows src pks restored infos rows'
      else
        o ← st_lift (parse false (sus_object_text r));
        exists_ ← pk_exists src (pk o) (o_class_name o);
        if exists_ : bool
        then restore_rows src pks restored
               (infos ++ ["Skipping restore of object " +:+ object_repr o +:+ " - an object already exists with the same key"])
               rows'
        else
          '(scope, _) ← st_lift (scope_of o);
          rpki ← restored_rpki src o;
          _ ← on_db (upsert_rpsl_object cfg uuid timestamp_text
                {| so_object := o; so_rpki_status := rpki; so_scopefilter_status := scope;
                   so_route_preference_status := rp_visible |}
                jo_suspension false None (Some (sus_original_created r)));
          restore_rows src (oset_add pks (sus_pk r)) (restored ++ [o]) infos rows'
  end.
Definition reactivate_for_mntner (reactivated_mntner : RPSLObject) : U (list RPSLObject * list string) :=
  src ← st_lift (source reactivated_mntner);
  let name := pk reactivated_mntner in
  if negb (truthy (source_setting cfg src "authoritative")) then st_lift (not_authoritative src)
  else
    active ← pk_exists src name "mntner";
    if active : bool
    then st_raise (ValueError ("source " +:+ src +:+ " has a currently active mntner " +:+ name
                                 +:+ " - can not restore the suspended one"))
    else
      results ← on_db (query_database cfg uuid (suspended_rows src (λ r,
                  String.eqb (sus_rpsl_pk r) (strip (str_upper name)) && String.eqb (sus_object_class r) "mntner")));
      match results with
      | [] => st_raise (ValueError ("mntner " +:+ name +:+ " not found in suspended store for source " +:+ src))
      | _ =>
          more ← on_db (query_database cfg uuid (suspended_rows src (λ r, bool_decide (name ∈ sus_mntners r))));
          '(pks, restored, infos) ← restore_rows src [] [] [] (results ++ more);
          _ ← on_db (delete_suspended_rpsl_objects cfg uuid pks);
          mret (restored, infos)
      end.

(** ** ChangeRequest *)

Record ChangeRequest := {
  cr_rpsl_text_submitted : string;
  cr_rpsl_obj_new : option RPSLObject;
  cr_rpsl_obj_current : option RPSLObject;
  cr_status : UpdateRequestStatus;
  cr_request_type : option UpdateRequestType;
  cr_error_messages : list string;
  cr_info_messages : list string;
  cr_auth_result : option ValidatorResult;
  cr_cached_roa_validity : option bool;
  cr_non_strict_mode : bool;
  cr_request_meta : list (string * option string);
}.
Definition cr_is_valid (c : ChangeRequest) : bool := bool_decide (cr_status c ∈ [SAVED; PROCESSING]).
Definition cr_with (obj current : option RPSLObject) (status : UpdateRequestStatus)
    (request_type : option UpdateRequestType) (errors infos : list string) (c : ChangeRequest) : ChangeRequest := {|
  cr_rpsl_text_submitted := cr_rpsl_text_submitted c; cr_rpsl_obj_new := obj; cr_rpsl_obj_current := current;
  cr_status := status; cr_request_type := request_type; cr_error_messages := cr_error_messages c ++ errors;
  cr_info_messages := cr_info_messages c ++ infos; cr_auth_result := cr_auth_result c;
  cr_cached_roa_validity := cr_cached_roa_validity c; cr_non_strict_mode := cr_non_strict_mode c;
  cr_request_meta := cr_request_meta c |}.
(** Messages, a new status, a new object. *)
Definition cr_report (errors infos : list string) (c : ChangeRequest) : ChangeRequest :=
  cr_with (cr_rpsl_obj_new c) (cr_rpsl_obj_current c) (cr_status c) (cr_request_type c) errors infos c.
Definition cr_fail (status : UpdateRequestStatus) (errors : list string) (c : ChangeRequest) : ChangeRequest :=
  cr_with (cr_rpsl_obj_new c) (cr_rpsl_obj_current c) status (cr_request_type c) errors [] c.
(** The status of the first failure is kept. *)
Definition cr_fail_first (status : UpdateRequestStatus) (errors : list string) (c : ChangeRequest) : ChangeRequest :=
  cr_fail (if cr_is_valid c then status else cr_status c) errors c.
Definition cr_with_new (o : RPSLObject) (c : ChangeRequest) : ChangeRequest :=
  cr_with (Some o) (cr_rpsl_obj_current c) (cr_status c) (cr_request_type c) [] [] c.
Definition cr_with_auth (r : ValidatorResult) (c : ChangeRequest) : ChangeRequest := {|
  cr_rpsl_text_submitted := cr_rpsl_text_submitted c; cr_rpsl_obj_new := cr_rpsl_obj_new c;
  cr_rpsl_obj_current := cr_rpsl_obj_current c; cr_status := cr_status c; cr_request_type := cr_request_type c;
  cr_error_messages := cr_error_messages c; cr_info_messages := cr_info_messages c; cr_auth_result := Some r;
  cr_cached_roa_validity := cr_cached_roa_validity c; cr_non_strict_mode := cr_non_strict_mode c;
  cr_request_meta := cr_request_meta c |}.
Definition cr_with_roa (b : bool) (c : ChangeRequest) : ChangeRequest := {|
  cr_rpsl_text_submitted := cr_rpsl_text_submitted c; cr_rpsl_obj_new := cr_rpsl_obj_new c;
  cr_rpsl_obj_current := cr_rpsl_obj_current c; cr_status := cr_status c; cr_request_type := cr_request_type c;
  cr_error_messages := cr_error_messages c; cr_info_messages := cr_info_messages c; cr_auth_result := cr_auth_result c;
  cr_cached_roa_validity := Some b; cr_non_strict_mode := cr_non_strict_mode c;
  cr_request_meta := cr_request_meta c |}.

(** [_retrieve_existing_version]: the request with its type, and the current object. *)
Definition _retrieve_existing_version (o : RPSLObject) (c : ChangeRequest) : U ChangeRequest :=
  src ← st_lift (source o);
  results ← query_objects (q ← in_source src; q ← object_classes q [o_class_name o]; rpsl_pk q (pk o));
  let typed t := Some (default t (cr_request_type c)) in
  match results with
  | [] => mret (cr_with (cr_rpsl_obj_new c) None (cr_status c) (typed CREATE) [] [] c)
  | [r] =>
      current ← st_lift (parse false (r_object_text r));
      mret (cr_with (cr_rpsl_obj_new c) (Some current) (cr_status c) (typed MODIFY) [] [] c)
  | _ => st_raise (ValueError ("Attempted to retrieve current version of object " +:+ pk o +:+ "/" +:+ src
           +:+ ", but multiple objects were found, internal pks found: " +:+ join ", " (r_pk <$> results)))
  end.
(** The object in the mode it is read, and whether that mode is not strict. *)
Definition read_object (text : string) (request_type : option UpdateRequestType) : res (RPSLObject * bool) :=
  o ← parse true text;
  let non_strict := match source o with
                    | Ok src => truthy (get_setting_default cfg ("sources." +:+ src +:+ ".authoritative_non_strict_mode_dangerous")
                                          (VBool false))
                    | Raise _ => false
                    end in
  if non_strict || bool_decide (request_type = Some DELETE) then o ← parse false text; Ok (o, non_strict)
  else Ok (o, non_strict).
Definition new_request (text : string) (o : option RPSLObject) (status : UpdateRequestStatus)
    (request_type : option UpdateRequestType) (errors infos : list string) (non_strict : bool)
    (meta : list (string * option string)) : ChangeRequest := {|
  cr_rpsl_text_submitted := text; cr_rpsl_obj_new := o; cr_rpsl_obj_current := None; cr_status := status;
  cr_request_type := request_type; cr_error_messages := errors; cr_info_messages := infos; cr_auth_result := None;
  cr_cached_roa_validity := None; cr_non_strict_mode := non_strict; cr_request_meta := meta |}.
(** The last step: there must be something to delete. *)
Definition check_deletion (c : ChangeRequest) : ChangeRequest :=
  match cr_request_type c, cr_rpsl_obj_current c with
  | Some DELETE, None =>
      cr_fail ERROR_PARSING ["Can not delete object: no object found for this key in this database."] c
  | _, _ => c
  end.
Definition filtered_class (src : string) (o : RPSLObject) : bool :=
  match get_object_class_filter_for_source cfg src with
  | None | Some [] => false
  | Some l => negb (bool_decide (str_lower (o_class_name o) ∈ l))
  end.
Definition ChangeRequest_init (text : string) (delete_reason : option string) (meta : list (string * option string))
  : U ChangeRequest :=
  _ ← st_lift (load_filters cfg);
  let request_type := if given delete_reason then Some DELETE else None in
  match read_object text request_type with
  | Raise (UnknownRPSLObjectClassException m _) =>
      mret (new_request text None ERROR_UNKNOWN_CLASS None [m] [] false meta)
  | Raise e => st_raise e
  | Ok (o, non_strict) =>
      let c := new_request text (Some o) (if has_errors (o_messages o) then ERROR_PARSING else PROCESSING)
                 request_type (errors (o_messages o)) (infos (o_messages o)) non_strict meta in
      if cr_is_valid c then
        src ← st_lift (source o);
        if negb (truthy (source_setting cfg src "authoritative"))
        then mret (cr_fail ERROR_NON_AUTHORITIVE ["This instance is not authoritative for source " +:+ src] c)
        else if filtered_class src o
        then mret (cr_fail ERROR_OBJECT_FILTER ["Can not make changes to " +:+ str_lower (o_class_name o)
                                                  +:+ " objects in this database"] c)
        else c ← _retrieve_existing_version o c; mret (check_deletion c)
      else mret (check_deletion c)
  end.

(** ** Validating a change *)

Definition with_object {A} (c : ChangeRequest) (f : RPSLObject → U A) : U A :=
  match cr_rpsl_obj_new c with Some o => f o | None => st_raise AssertionError end.
Definition _check_auth (c : ChangeRequest) : U (ChangeRequest * bool) :=
  with_object c (λ o,
    '(result, o) ← process_auth cfg collate_lt uuid gpg_import_keys gpg_uids hasher_verify bcrypt_hash tables o
                     (cr_rpsl_obj_current c);
    let c := cr_report [] (info_messages result) (cr_with_auth result (cr_with_new o c)) in
    mret (if result_valid result then (c, true) else (cr_fail ERROR_AUTH (error_messages result) c, false))).
Definition override_used (c : ChangeRequest) : bool :=
  match cr_auth_result c with Some r => used_override (auth_method r) | None => false end.
(** What is added of a result, and whether it passed. *)
Definition apply_result (status : UpdateRequestStatus) (result : ValidatorResult) (c : ChangeRequest)
  : ChangeRequest * bool :=
  let c := cr_report [] (info_messages result) c in
  if result_valid result then (c, true) else (cr_fail_first status (error_messages result) c, false).
Definition _check_references (c : ChangeRequest) : U (ChangeRequest * bool) :=
  if cr_non_strict_mode c then mret (c, true)
  else with_object c (λ o,
    result ← match cr_request_type c, cr_rpsl_obj_current c with
             | Some DELETE, Some current =>
                 check_references_from_others_for_deletion cfg collate_lt uuid current (override_used c)
             | _, _ => check_references_to_others cfg collate_lt uuid o
             end;
    mret (apply_result ERROR_REFERENCE result c)).
Definition _check_protected_names (c : ChangeRequest) : U (ChangeRequest * bool) :=
  match cr_request_type c, cr_rpsl_obj_new c with
  | Some CREATE, Some o =>
      result ← check_protected_name cfg collate_lt uuid o (override_used c);
      mret (apply_result ERROR_PROTECTED_NAME result c)
  | _, _ => mret (c, true)
  end.
Definition roa_conflict_message : string :=
  "RPKI ROAs were found that conflict with this object. (This IRRd refreshes ROAs every "
  +:+ pyval_str (get_setting cfg "rpki.roa_import_timer") +:+ " seconds.)".
Definition _check_conflicting_roa (c : ChangeRequest) : U (ChangeRequest * bool) :=
  with_object c (λ o,
    match cr_cached_roa_validity c with
    | Some b => mret (c, b)
    | None =>
        if negb (truthy (get_setting cfg "rpki.roa_source")) || negb (c_is_route (o_class o)) then mret (c, true)
        else if bool_decide (cr_request_type c = Some DELETE) then mret (c, true)
        else
          match nonzero_asn o, md_prefix (o_metadata o) with
          | None, _ => st_raise AssertionError
          | Some _, None => st_raise AttributeError
          | Some asn, Some prefix =>
              src ← st_lift (source o);
              status ← on_db (query_database cfg uuid (λ d, single_validate_route cfg (db_roas d) prefix asn src));
              mret (if bool_decide (status = rpki_invalid)
                    then (cr_with_roa false (cr_fail_first ERROR_ROA [roa_conflict_message] c), false)
                    else (cr_with_roa true c, true))
          end
    end).
Definition _check_scopefilter (c : ChangeRequest) : U (ChangeRequest * bool) :=
  match cr_request_type c, cr_rpsl_obj_new c with
  | Some DELETE, _ | _, None => mret (c, true)
  | t, Some o =>
      '(status, comment) ← st_lift (scope_of o);
      let message := "Contains out of scope information: " +:+ comment in
      if bool_decide (status ∈ [out_scope_prefix; out_scope_as])
      then mret (match t with
                 | Some CREATE => (cr_fail_first ERROR_SCOPEFILTER [message] c, false)
                 | Some MODIFY => (cr_report [] [message] c, true)
                 | _ => (c, true)
                 end)
      else mret (c, true)
  end.
(** The set of a new object must be named after its AS number, if that is required. *)
Definition check_create (c : ChangeRequest) : ChangeRequest * bool :=
  match cr_rpsl_obj_new c, cr_request_type c with
  | Some o, Some CREATE =>
      let '(o, ok) := clean_for_create cfg o in
      let c := cr_with_new o c in
      if ok then (c, true) else (cr_fail ERROR_PARSING (errors (o_messages o)) c, false)
  | _, _ => (c, true)
  end.
Definition check_rules (c : ChangeRequest) : U (ChangeRequest * bool) :=
  match cr_rpsl_obj_new c, cr_request_type c with
  | Some o, Some CREATE | Some o, Some MODIFY =>
      result ← rules_validate cfg uuid tables o (default MODIFY (cr_request_type c));
      let c := cr_report (error_messages result) (info_messages result) c in
      mret (if result_valid result then (c, true) else (cr_fail ERROR_RULES [] c, false))
  | _, _ => mret (c, true)
  end.
Definition cr_validate (c : ChangeRequest) : U (ChangeRequest * bool) :=
  let '(c, created) := check_create c in
  if negb created then mret (c, false)
  else
    '(c, rules) ← check_rules c;
    if negb rules then mret (c, false)
    else
      '(c, auth_valid) ← _check_auth c;
      if negb auth_valid then mret (c, false)
      else
        '(c, references_valid) ← _check_references c;
        '(c, protected_name_valid) ← _check_protected_names c;
        '(c, roa_ok) ← _check_conflicting_roa c;
        '(c, scopefilter_valid) ← _check_scopefilter c;
        mret (c, references_valid && roa_ok && scopefilter_valid && protected_name_valid).

(** ** Saving a change *)

Definition DATETIME_SENTINEL : string := "1970-01-01T00:00:00".
Definition meta_get (key : string) (c : ChangeRequest) : option string :=
  match assoc key (cr_request_meta c) with Some v => v | None => None end.
Definition META_KEY_HTTP_CLIENT_IP : string := "HTTP-Client-IP".
Definition render_opt (o : option RPSLObject) : res (option string) :=
  match o with Some o => t ← render_rpsl_text cfg o None; Ok (Some t) | None => Ok None end.
Definition change_log_of (c : ChangeRequest) (o : RPSLObject) (r : ValidatorResult) : res ChangeLog :=
  src ← source o;
  text_old ← render_opt (cr_rpsl_obj_current c);
  text_new ← (if bool_decide (cr_request_type c = Some DELETE) then Ok None else render_opt (Some o));
  Ok (to_change_log r (meta_get META_KEY_HTTP_CLIENT_IP c) (meta_get "From" c) (cr_request_type c)
        (pk o) src (o_class_name o) text_old text_new).
Definition log_change (c : ChangeRequest) (o : RPSLObject) : U unit :=
  match cr_auth_result c with
  | Some r => l ← st_lift (change_log_of c o r); st_modify (with_log (λ log, log ++ [l]))
  | None => mret tt
  end.
Definition identical_to_current (c : ChangeRequest) (o : RPSLObject) : res bool :=
  match cr_rpsl_obj_current c with
  | Some current =>
      a ← render_rpsl_text cfg o (Some DATETIME_SENTINEL);
      b ← render_rpsl_text cfg current (Some DATETIME_SENTINEL);
      Ok (String.eqb a b)
  | None => Ok false
  end.
Definition cr_saved (infos : list string) (c : ChangeRequest) : ChangeRequest :=
  cr_with (cr_rpsl_obj_new c) (cr_rpsl_obj_current c) SAVED (cr_request_type c) [] infos c.
Definition default_statuses (o : RPSLObject) : stored_object := {|
  so_object := o; so_rpki_status := rpki_not_found; so_scopefilter_status := in_scope;
  so_route_preference_status := rp_visible |}.
Definition cr_save (c : ChangeRequest) : U ChangeRequest :=
  match cr_status c, cr_rpsl_obj_new c with
  | PROCESSING, Some o =>
      match cr_request_type c, cr_rpsl_obj_current c with
      | Some DELETE, Some current =>
          _ ← on_db (delete_rpsl_object_of cfg uuid jo_auth_change current None true);
          _ ← log_change c o;
          mret (cr_saved [] c)
      | _, _ =>
          same ← st_lift (identical_to_current c o);
          if same : bool
          then mret (cr_saved ["Submitted object was identical to current object, no change recorded."] c)
          else
            _ ← on_db (upsert_rpsl_object cfg uuid timestamp_text (default_statuses o) jo_auth_change false None None);
            _ ← log_change c o;
            mret (cr_saved [] c)
      end
  | _, _ => st_raise (ValueError "ChangeRequest can only be saved in status PROCESSING")
  end.

(** ** Reports of a change *)

Definition request_type_value (t : UpdateRequestType) : string :=
  match t with CREATE => "create" | MODIFY => "modify" | DELETE => "delete" end.
Definition request_type_str (c : ChangeRequest) : string :=
  match cr_request_type c with Some t => request_type_value t | None => "request" end.
Definition object_pk_str (o : option RPSLObject) : string :=
  match o with Some o => pk o | None => "(unreadable object key)" end.
Definition object_class_str (o : option RPSLObject) : string :=
  match o with Some o => o_class_name o | None => "(unreadable object class)" end.
Definition report_head (request_type : string) (valid : bool) (o : option RPSLObject) : string :=
  str_title request_type +:+ " " +:+ (if valid then "succeeded" else "FAILED") +:+ ": [" +:+ object_class_str o +:+ "] "
  +:+ object_pk_str o +:+ NL.
Definition report_messages (errors infos : list string) : string :=
  concat_str ((λ e, "ERROR: " +:+ e +:+ NL) <$> errors) +:+ concat_str ((λ e, "INFO: " +:+ e +:+ NL) <$> infos).
Definition submitter_report_human (c : ChangeRequest) : res string :=
  let head := report_head (request_type_str c) (cr_is_valid c) (cr_rpsl_obj_new c) in
  match cr_error_messages c, cr_info_messages c with
  | [], [] => Ok head
  | _, _ =>
      text ← match cr_rpsl_obj_new c, cr_error_messages c with
             | Some o, [] => render_rpsl_text cfg o None
             | _, _ => Ok (cr_rpsl_text_submitted c)
             end;
      Ok (head +:+ NL +:+ remove_auth_hashes text +:+ NL
          +:+ report_messages (cr_error_messages c) (cr_info_messages c))
  end.
Definition json_strings (l : list string) : pyval := VList (VStr <$> l).
Definition json_option (o : option string) : pyval := match o with Some s => VStr s | None => VNone end.
Definition submitter_report_json (c : ChangeRequest) : res pyval :=
  new_object_text ← match cr_rpsl_obj_new c, cr_error_messages c with
                    | Some o, [] => render_opt (Some o)
                    | _, _ => Ok None
                    end;
  Ok (VDict [("successful", VBool (cr_is_valid c));
             ("type", json_option (request_type_value <$> cr_request_type c));
             ("object_class", VStr (object_class_str (cr_rpsl_obj_new c)));
             ("rpsl_pk", VStr (object_pk_str (cr_rpsl_obj_new c)));
             ("info_messages", json_strings (cr_info_messages c));
             ("error_messages", json_strings (cr_error_messages c));
             ("new_object_text", json_option (remove_auth_hashes <$> new_object_text));
             ("submitted_object_text", VStr (remove_auth_hashes (cr_rpsl_text_submitted c)))]).
Definition required_text (o : option RPSLObject) : res string :=
  match o with Some o => render_rpsl_text cfg o None | None => Raise AttributeError end.
Definition modification_report (c : ChangeRequest) : res string :=
  current ← required_text (cr_rpsl_obj_current c);
  new ← required_text (cr_rpsl_obj_new c);
  Ok (join NL (drop 2 (unified_diff (splitline_unicodesafe current) (splitline_unicodesafe new))) +:+ NL +:+ NL
      +:+ (if bool_decide (cr_status c = ERROR_AUTH) then "*Rejected* new version of this object:"
           else "New version of this object:") +:+ NL +:+ NL).
Definition notification_target_report (c : ChangeRequest) : res string :=
  if negb (cr_is_valid c) && negb (bool_decide (cr_status c = ERROR_AUTH))
  then Raise (ValueError ("Notification reports can only be made for changes that are valid "
                            +:+ "or have failed authorisation."))
  else
    diff ← (if bool_decide (cr_request_type c = Some MODIFY) then modification_report c else Ok "");
    text ← required_text (if bool_decide (cr_request_type c = Some DELETE) then cr_rpsl_obj_current c
                          else cr_rpsl_obj_new c);
    Ok (remove_auth_hashes
          (str_title (request_type_str c) +:+ " " +:+ (if cr_is_valid c then "succeeded" else "FAILED AUTHORISATION")
           +:+ " for object below: [" +:+ object_class_str (cr_rpsl_obj_new c) +:+ "] "
           +:+ object_pk_str (cr_rpsl_obj_new c) +:+ ":" +:+ NL +:+ NL +:+ diff +:+ text)).
Definition parsed_list (attr : string) (o : RPSLObject) : list string := pdata_list (o_parsed_data o !! attr).
Definition notification_targets (c : ChangeRequest) : list string :=
  if override_used c || negb (cr_is_valid c || bool_decide (cr_status c = ERROR_AUTH)) then []
  else
    let mntner_attr := if bool_decide (cr_status c = ERROR_AUTH) then "upd-to" else "mnt-nfy" in
    oset_update [] (match cr_auth_result c with
                    | Some r => concat (parsed_list mntner_attr <$> mntners_notify r)
                    | None => []
                    end
                    ++ match cr_rpsl_obj_current c with Some o => parsed_list "notify" o | None => [] end).

(** ** SuspensionRequest *)

Record SuspensionRequest := {
  sr_rpsl_text_submitted : string;
  sr_rpsl_obj_new : option RPSLObject;
  sr_status : UpdateRequestStatus;
  sr_request_type : option SuspensionRequestType;
  sr_error_messages : list string;
  sr_info_messages : list string;
}.
Definition sr_with (status : UpdateRequestStatus) (errors infos : list string) (r : SuspensionRequest)
  : SuspensionRequest := {|
  sr_rpsl_text_submitted := sr_rpsl_text_submitted r; sr_rpsl_obj_new := sr_rpsl_obj_new r; sr_status := status;
  sr_request_type := sr_request_type r; sr_error_messages := sr_error_messages r ++ errors;
  sr_info_messages := sr_info_messages r ++ infos |}.
(** [getattr(SuspensionRequestType, suspension_state.upper())]. *)
Definition suspension_type (s : string) : option SuspensionRequestType :=
  if String.eqb (str_upper s) "SUSPEND" then Some SUSPEND
  else if String.eqb (str_upper s) "REACTIVATE" then Some REACTIVATE else None.
Definition SuspensionRequest_init (text suspension_state : string) : res SuspensionRequest :=
  let fresh o status t errors infos := {|
    sr_rpsl_text_submitted := text; sr_rpsl_obj_new := o; sr_status := status; sr_request_type := t;
    sr_error_messages := errors; sr_info_messages := infos |} in
  match suspension_type suspension_state with
  | None => Ok (fresh None ERROR_PARSING None ["Unknown suspension type: " +:+ suspension_state] [])
  | Some t =>
      match parse false text with
      | Raise (UnknownRPSLObjectClassException m _) => Ok (fresh None ERROR_UNKNOWN_CLASS (Some t) [m] [])
      | Raise e => Raise e
      | Ok o =>
          if has_errors (o_messages o)
          then Ok (fresh (Some o) ERROR_PARSING (Some t) (errors (o_messages o)) (infos (o_messages o)))
          else
            src ← source o;
            let r := fresh (Some o) PROCESSING (Some t) [] (infos (o_messages o)) in
            if negb (truthy (source_setting cfg src "suspension_enabled"))
            then Ok (sr_with ERROR_NON_AUTHORITIVE ["This instance is not authoritative for source " +:+ src
                                                      +:+ " or suspension is not enabled"] [] r)
            else if negb (is_mntner o)
            then Ok (sr_with ERROR_PARSING ["Suspensions/reactivations can only be done on mntner objects"] [] r)
            else Ok r
      end
  end.
Definition sr_validate (r : SuspensionRequest) : U (SuspensionRequest * bool) :=
  s ← st_get;
  mret (if auth_bool (check_override cfg hasher_verify (sm_auth s)) then (r, true)
        else (sr_with ERROR_AUTH ["Invalid authentication: override password invalid or missing"] [] r, false)).
(** [is_valid] validates the request each time that it is asked. *)
Definition sr_is_valid (r : SuspensionRequest) : U (SuspensionRequest * bool) :=
  '(r, _) ← sr_validate r;
  mret (r, bool_decide (sr_status r ∈ [SAVED; PROCESSING])).
Definition sr_save_body (o : RPSLObject) (r : SuspensionRequest) : U SuspensionRequest :=
  match sr_request_type r with
  | Some SUSPEND =>
      rows ← suspend_for_mntner o;
      mret (sr_with SAVED [] ((λ x, "Suspended " +:+ r_object_class x +:+ "/" +:+ r_rpsl_pk x +:+ "/" +:+ r_source x)
                                <$> rows) r)
  | Some REACTIVATE =>
      '(restored, infos) ← reactivate_for_mntner o;
      mret (sr_with SAVED [] (infos ++ ((λ x, "Restored " +:+ object_repr x) <$> restored)) r)
  | None => mret (sr_with SAVED [] [] r)
  end.
Definition sr_save (r : SuspensionRequest) : U SuspensionRequest := λ s,
  match sr_status r, sr_rpsl_obj_new r with
  | PROCESSING, Some o =>
      match sr_save_body o r s with
      | (s', Raise e) =>
          if is_ValueError e then (s', Ok (sr_with ERROR_PARSING [exn_str e] [] r)) else (s', Raise e)
      | x => x
      end
  | _, _ => (s, Raise (ValueError "SuspensionRequest can only be saved in status PROCESSING"))
  end.
Definition suspension_type_str (r : SuspensionRequest) : string :=
  match sr_request_type r with Some SUSPEND => "suspend" | Some REACTIVATE => "reactivate" | None => "request" end.
Definition suspension_report_human (r : SuspensionRequest) : U string :=
  '(r, valid) ← sr_is_valid r;
  let head := report_head (suspension_type_str r) valid (sr_rpsl_obj_new r) in
  mret match sr_error_messages r, sr_info_messages r with
       | [], [] => head
       | errors, infos =>
           head +:+ (match errors with [] => "" | _ => NL +:+ sr_rpsl_text_submitted r +:+ NL end)
           +:+ report_messages errors infos
       end.
Definition suspension_report_json (r : SuspensionRequest) : U pyval :=
  '(r, valid) ← sr_is_valid r;
  mret (VDict [("successful", VBool valid);
               ("type", match sr_request_type r with Some _ => VStr (suspension_type_str r) | None => VNone end);
               ("object_class", VStr (object_class_str (sr_rpsl_obj_new r)));
               ("rpsl_pk", VStr (object_pk_str (sr_rpsl_obj_new r)));
               ("info_messages", json_strings (sr_info_messages r));
               ("error_messages", json_strings (sr_error_messages r))]).

(** ** Requests of a text *)

Inductive request := Change (c : ChangeRequest) | Suspension (r : SuspensionRequest).
(** Credentials and the meta attributes of one object. *)
Record submitted := {
  sub_passwords : list string;
  sub_overrides : list string;
  sub_api_keys : list string;
  sub_rpsl_text : string;
  sub_delete_reason : option string;
  sub_suspension_state : option string;
}.
Definition meta_value (line : string) : string :=
  match split_once ":"%char line with Some (_, v) => strip v | None => "" end.
Definition read_line (u : submitted) (line : string) : submitted :=
  let mk p o a t d s := {| sub_passwords := p; sub_overrides := o; sub_api_keys := a; sub_rpsl_text := t;
                           sub_delete_reason := d; sub_suspension_state := s |} in
  let '(p, o, a) := (sub_passwords u, sub_overrides u, sub_api_keys u) in
  let '(t, d, s) := (sub_rpsl_text u, sub_delete_reason u, sub_suspension_state u) in
  if startswith "password:" line then mk (p ++ [meta_value line]) o a t d s
  else if startswith "override:" line then mk p (o ++ [meta_value line]) a t d s
  else if startswith "api-key:" line then mk p o (a ++ [meta_value line]) t d s
  else if startswith "delete:" line then mk p o a t (Some (meta_value line)) s
  else if startswith "suspension:" line then mk p o a t d (Some (meta_value line))
  else mk p o a (t +:+ line +:+ NL) d s.
Definition next_object (u : submitted) : submitted := {|
  sub_passwords := sub_passwords u; sub_overrides := sub_overrides u; sub_api_keys := sub_api_keys u;
  sub_rpsl_text := ""; sub_delete_reason := None; sub_suspension_state := None |}.
Fixpoint split_blank_fuel (fuel : nat) (cur s : string) : list string :=
  match fuel with
  | 0%nat => [cur]
  | S fuel =>
      if startswith (NL +:+ NL) s then cur :: split_blank_fuel fuel "" (str_drop 2 s)
      else match s with
           | "" => [cur]
           | String c s' => split_blank_fuel fuel (cur +:+ String c "") s'
           end
  end.
(** [text.split("\n\n")]. *)
Definition split_blank (s : string) : list string := split_blank_fuel (S (String.length s)) "" s.
Fixpoint parse_objects (meta : list (string * option string)) (u : submitted) (texts : list string)
  : U (submitted * list request) :=
  match texts with
  | [] => mret (u, [])
  | text :: texts' =>
      let text := strip text in
      if String.eqb text "" then parse_objects meta u texts'
      else
        let u := foldl read_line (next_object u) (splitline_unicodesafe text) in
        if String.eqb (sub_rpsl_text u) "" then parse_objects meta u texts'
        else
          r ← (if given (sub_suspension_state u)
               then r ← st_lift (SuspensionRequest_init (sub_rpsl_text u) (default "" (sub_suspension_state u)));
                    mret (Suspension r)
               else c ← ChangeRequest_init (sub_rpsl_text u) (sub_delete_reason u) meta; mret (Change c));
          '(u, rest) ← parse_objects meta u texts';
          mret (u, r :: rest)
  end.
Definition submitted_none : submitted := {|
  sub_passwords := []; sub_overrides := []; sub_api_keys := []; sub_rpsl_text := ""; sub_delete_reason := None;
  sub_suspension_state := None |}.
Definition parse_change_requests (requests_text : string) (meta : list (string * option string)) : U (list request) :=
  '(u, requests) ← parse_objects meta submitted_none (split_blank (replace_all (String "013" "") "" requests_text));
  _ ← st_modify (with_auth (with_credentials (sub_passwords u) (sub_overrides u) (sub_api_keys u)));
  mret requests.
End UpdateRequests.
