(* ===== verification/UpdateHandler.v ===== *)
(** * Handling a submission ([irrd/updates/handler.py])

    The requests of a submission are validated until the ones that are valid stay
    the same, and then saved in one transaction. *)
From S2P Require Import Prelude PyStr Conf Net Models Text Rpki ScopeFilter Fields RpslObjects RpslParser Queries RoutePref Database DatabaseHandler Nrtm UpdateValidators UpdateRequests.

#[export] Instance SuspensionRequestType_eq : EqDecision SuspensionRequestType.
Proof. solve_decision. Defined.

Section UpdateHandler.
Context `{IPyLib} `{Radix node_data} `{redis : Redis} (cfg : configuration).
Context (collate_lt : string → string → bool) (uuid : nat → string) (timestamp_text : Z → string).
Context (gpg_import_keys : string → list string * option string) (gpg_uids : string → list string).
Context (hasher_verify : string → string → string → option bool) (bcrypt_hash : string → string).
Context (tables : auth_tables) (unified_diff : list string → list string → list string).
Notation U := (st submission).
Notation validate_change := (cr_validate cfg collate_lt uuid gpg_import_keys gpg_uids hasher_verify bcrypt_hash tables).
Notation save_change := (cr_save cfg uuid timestamp_text).
Notation save_suspension := (sr_save cfg collate_lt uuid timestamp_text gpg_import_keys gpg_uids).

(** ** One request *)

Definition is_valid (r : request) : U (request * bool) :=
  match r with
  | Change c => mret (r, cr_is_valid c)
  | Suspension x => '(x, b) ← sr_is_valid cfg hasher_verify x; mret (Suspension x, b)
  end.
Definition validate (r : request) : U request :=
  match r with
  | Change c => '(c, _) ← validate_change c; mret (Change c)
  | Suspension x => '(x, _) ← sr_validate cfg hasher_verify x; mret (Suspension x)
  end.
Definition save (r : request) : U request :=
  match r with
  | Change c => c ← save_change c; mret (Change c)
  | Suspension x => x ← save_suspension x; mret (Suspension x)
  end.
Definition status_of_request (r : request) : UpdateRequestStatus :=
  match r with Change c => cr_status c | Suspension x => sr_status x end.

(** ** The resolver *)

(** [[r for r in change_requests if r.is_valid()]], as positions from [i]. *)
Fixpoint valid_positions (i : nat) (requests : list request) : U (list request * list nat) :=
  match requests with
  | [] => mret ([], [])
  | r :: requests' =>
      '(r, b) ← is_valid r;
      '(rest, l) ← valid_positions (S i) requests';
      mret (r :: rest, if b : bool then i :: l else l)
  end.
Fixpoint validate_positions (i : nat) (valid : list nat) (requests : list request) : U (list request) :=
  match requests with
  | [] => mret []
  | r :: requests' =>
      r ← (if bool_decide (i ∈ valid) then validate r else mret r);
      rest ← validate_positions (S i) valid requests';
      mret (r :: rest)
  end.
Fixpoint at_positions (i : nat) (valid : list nat) (requests : list request) : list request :=
  match requests with
  | [] => []
  | r :: requests' =>
      if bool_decide (i ∈ valid) then r :: at_positions (S i) valid requests' else at_positions (S i) valid requests'
  end.
(** The references that the requests add or delete. *)
Definition object_reference (o : RPSLObject) : res reference := src ← source o; Ok (o_class_name o, pk o, src).
Fixpoint references_of (p : option UpdateRequestType → bool) (requests : list request) : res (list reference) :=
  match requests with
  | [] => Ok []
  | Change c :: requests' =>
      match cr_rpsl_obj_new c with
      | None => Raise AssertionError
      | Some o =>
          if p (cr_request_type c) then k ← object_reference o; rest ← references_of p requests'; Ok (k :: rest)
          else references_of p requests'
      end
  | Suspension x :: requests' =>
      match sr_rpsl_obj_new x with None => Raise AssertionError | Some _ => references_of p requests' end
  end.
Definition adds (t : option UpdateRequestType) : bool := bool_decide (t ∈ [Some CREATE; Some MODIFY]).
Definition deletes (t : option UpdateRequestType) : bool := bool_decide (t = Some DELETE).
Definition preload_requests (requests : list request) : U unit :=
  new ← st_lift (references_of adds requests);
  deleted ← st_lift (references_of deletes requests);
  preload (oset_update [] new) (oset_update [] deleted).
Definition new_mntners (requests : list request) : list RPSLObject :=
  omap (λ r, match r with
             | Change c =>
                 match cr_request_type c, cr_rpsl_obj_new c with
                 | Some CREATE, Some o => if is_mntner o then Some o else None
                 | _, _ => None
                 end
             | Suspension _ => None
             end) requests.
(** The code appends the request metadata to this message; the exception is never raised
    (see [resolver_terminates]). *)
Definition excessive_loops : exn :=
  ValueError "Update validity resolver ran an excessive amount of loops, may be stuck, aborting processing.".
(** One pass over the valid requests. *)
Definition resolve_pass (requests : list request) (valid : list nat) : U (list request * list nat) :=
  _ ← preload_requests (at_positions 0 valid requests);
  _ ← pre_approve (new_mntners (at_positions 0 valid requests));
  requests ← validate_positions 0 valid requests;
  valid_positions 0 requests.
Fixpoint resolve (remaining : nat) (requests : list request) (valid previous : list nat) : U (list request) :=
  if bool_decide (valid = previous) then mret requests
  else
    '(requests, valid') ← resolve_pass requests valid;
    match remaining with
    | 0%nat => st_raise excessive_loops
    | S remaining => resolve remaining requests valid' valid
    end.
Fixpoint save_valid (requests : list request) : U (list request) :=
  match requests with
  | [] => mret []
  | r :: requests' =>
      '(r, b) ← is_valid r;
      r ← (if b : bool then save r else mret r);
      rest ← save_valid requests';
      mret (r :: rest)
  end.
Definition _handle_change_requests (requests : list request) : U (list request) :=
  '(requests, valid) ← valid_positions 0 requests;
  requests ← resolve (length requests + 10) requests valid [];
  save_valid requests.

(** ** Submissions *)

Definition key_id_of (clean_fingerprint : string) : string :=
  "PGPKEY-" +:+ str_drop (String.length clean_fingerprint - 8) clean_fingerprint.
Definition _resolve_pgp_key_id (pgp_fingerprint : string) : M (option string) :=
  let clean := replace_all " " "" pgp_fingerprint in
  q ← st_lift (q ← object_classes (RPSLDatabaseQuery true true) ["key-cert"]; rpsl_pk q (key_id_of clean));
  results ← execute_query_objects cfg collate_lt uuid q;
  mret (if existsb (λ r, String.eqb (replace_all " " "" (pdata_str (r_parsed_data r !! "fingerpr"))) clean) results
        then Some (key_id_of clean) else None).
Definition begin_submission (d : database) (now : Z) (v : AuthValidator) : submission := {|
  sm_handler := DatabaseHandler_init cfg false d now; sm_auth := v; sm_ref := ReferenceValidator_init;
  sm_change_log := [] |}.
Definition finish (requests : list request) : U (list request) :=
  requests ← _handle_change_requests requests;
  _ ← on_db (commit cfg collate_lt uuid);
  mret requests.
(** The requests of a text, with the credentials in it; and then their handling. *)
Definition read_text_blob (object_texts_blob : string) (origin : AuthoritativeChangeOrigin)
    (pgp_fingerprint : option string) (user : option AuthUser) (meta : list (string * option string))
  : U (list request) :=
  key_id ← (match pgp_fingerprint with
            | Some f => if String.eqb f "" then mret None else on_db (_resolve_pgp_key_id f)
            | None => mret None
            end);
  _ ← st_modify (with_auth (λ _, AuthValidator_init origin key_id user None));
  parse_change_requests cfg collate_lt uuid gpg_import_keys gpg_uids object_texts_blob meta.
Definition load_text_blob (object_texts_blob : string) (origin : AuthoritativeChangeOrigin)
    (pgp_fingerprint : option string) (user : option AuthUser) (meta : list (string * option string))
    (d : database) (now : Z) : submission * res (list request) :=
  (requests ← read_text_blob object_texts_blob origin pgp_fingerprint user meta; finish requests)
  (begin_submission d now (AuthValidator_init origin None user None)).

(** Submissions over HTTP ([irrd/utils/validators.py]). *)
Record RPSLChangeSubmissionObject := {
  so_object_text : option string;
  so_attributes : option (list (string * string));
}.
Record RPSLChangeSubmission := {
  cs_objects : list RPSLChangeSubmissionObject;
  cs_passwords : list string;
  cs_override : option string;
  cs_api_keys : list string;
  cs_delete_reason : string;
}.
(** [translate_list_to_str]. *)
Definition translate_list_to_str (value : string + list string) : string :=
  match value with inl s => s | inr l => join ", " l end.
Definition check_text_xor_attributes_present (text : option string) (attributes : option (list (string * string)))
  : res unit :=
  if Bool.eqb (given text) (match attributes with None | Some [] => false | _ => true end)
  then Raise (ValidationError ("You must describe each object with either object_text or attributes"))
  else Ok tt.
Definition submission_text (o : RPSLChangeSubmissionObject) : res string :=
  match so_attributes o with
  | None | Some [] =>
      match so_object_text o with
      | Some t => if String.eqb t "" then Raise AssertionError else Ok t
      | None => Raise AssertionError
      end
  | Some l => Ok (join NL ((λ a : string * string, a.1 +:+ ": " +:+ a.2) <$> l) +:+ NL)
  end.
Fixpoint read_objects (delete_reason : option string) (meta : list (string * option string))
    (objects : list RPSLChangeSubmissionObject) : U (list request) :=
  match objects with
  | [] => mret []
  | o :: objects' =>
      text ← st_lift (submission_text o);
      c ← ChangeRequest_init cfg collate_lt uuid gpg_import_keys gpg_uids text delete_reason meta;
      rest ← read_objects delete_reason meta objects';
      mret (Change c :: rest)
  end.
Definition override_list (o : option string) : list string :=
  match o with Some s => if String.eqb s "" then [] else [s] | None => [] end.
Definition load_change_submission (data : RPSLChangeSubmission) (origin : AuthoritativeChangeOrigin) (delete : bool)
    (meta : list (string * option string)) (remote_ip : option IP) (d : database) (now : Z)
  : submission * res (list request) :=
  (requests ← read_objects (if delete then Some (cs_delete_reason data) else None) meta (cs_objects data);
   finish requests)
  (begin_submission d now
     (with_credentials (cs_passwords data) (override_list (cs_override data)) (cs_api_keys data)
        (AuthValidator_init origin None None remote_ip))).

Record RPSLSuspensionSubmissionObject := {
  ss_mntner : string;
  ss_source : string;
  ss_request_type : SuspensionRequestType;
}.
Definition suspension_value (t : SuspensionRequestType) : string :=
  match t with SUSPEND => "suspend" | REACTIVATE => "reactivate" end.
Definition suspension_text (o : RPSLSuspensionSubmissionObject) : string :=
  "mntner: " +:+ ss_mntner o +:+ NL +:+ "source: " +:+ ss_source o +:+ NL.
Fixpoint read_suspensions (objects : list RPSLSuspensionSubmissionObject) : U (list request) :=
  match objects with
  | [] => mret []
  | o :: objects' =>
      r ← st_lift (SuspensionRequest_init cfg gpg_import_keys gpg_uids (suspension_text o)
                     (suspension_value (ss_request_type o)));
      rest ← read_suspensions objects';
      mret (Suspension r :: rest)
  end.
Definition load_suspension_submission (objects : list RPSLSuspensionSubmissionObject) (override : option string)
    (d : database) (now : Z) : submission * res (list request) :=
  (requests ← read_suspensions objects; finish requests)
  (begin_submission d now (with_credentials [] (override_list override) []
                             (AuthValidator_init origin_other None None None))).

(** ** Reports *)

Definition is_saved (r : request) : bool := bool_decide (status_of_request r = SAVED).
Definition has_type (t : UpdateRequestType) (r : request) : bool :=
  match r with Change c => bool_decide (cr_request_type c = Some t) | Suspension _ => false end.
Definition status (results : list request) : string := if forallb is_saved results then "SUCCESS" else "FAILED".
Definition count_where (p : request → bool) (results : list request) : nat := length (List.filter p results).
(** [f"{n:3}"]. *)
Definition width3 (n : nat) : string :=
  let s := str_of_Z (Z.of_nat n) in repeat_char (3 - String.length s) ch_space +:+ s.
Definition _request_meta_str (meta : list (string * option string)) : string :=
  let l := omap (λ x : string * option string,
                   if given x.2 then Some ("> " +:+ x.1 +:+ ": " +:+ default "" x.2) else None) meta in
  match l with [] => "" | _ => NL +:+ join NL l +:+ NL +:+ NL end.
Definition rule : string := repeat_char 52 "~".
Definition summary (results : list request) : string :=
  let successful := List.filter is_saved results in
  let failed := List.filter (λ r, negb (is_saved r)) results in
  let count t l := width3 (count_where (has_type t) l) in
  join NL
    [""; "SUMMARY OF UPDATE:"; "";
     "Number of objects found:                  " +:+ width3 (length results);
     "Number of objects processed successfully: " +:+ width3 (length successful);
     "    Create:      " +:+ count CREATE successful; "    Modify:      " +:+ count MODIFY successful;
     "    Delete:      " +:+ count DELETE successful;
     "Number of objects processed with errors:  " +:+ width3 (length failed);
     "    Create:      " +:+ count CREATE failed; "    Modify:      " +:+ count MODIFY failed;
     "    Delete:      " +:+ count DELETE failed; ""; "DETAILED EXPLANATION:"; ""; rule; ""].
Definition request_report_human (r : request) : U string :=
  match r with
  | Change c => st_lift (submitter_report_human cfg c)
  | Suspension x => suspension_report_human cfg hasher_verify x
  end.
Fixpoint report_all (results : list request) : U string :=
  match results with
  | [] => mret ""
  | r :: results' =>
      text ← request_report_human r;
      rest ← report_all results';
      mret ("---" +:+ NL +:+ text +:+ NL +:+ rest)
  end.
Definition submission_report_human (meta : list (string * option string)) (results : list request) : U string :=
  details ← report_all results;
  mret (_request_meta_str meta +:+ summary results +:+ details +:+ rule +:+ NL).
Definition request_report_json (r : request) : U pyval :=
  match r with
  | Change c => st_lift (submitter_report_json cfg c)
  | Suspension x => suspension_report_json cfg hasher_verify x
  end.
Fixpoint json_all (results : list request) : U (list pyval) :=
  match results with
  | [] => mret []
  | r :: results' => v ← request_report_json r; rest ← json_all results'; mret (v :: rest)
  end.
Definition submission_report_json (meta : list (string * option string)) (results : list request) : U pyval :=
  objects ← json_all results;
  let successful := List.filter is_saved results in
  let failed := List.filter (λ r, negb (is_saved r)) results in
  let count n := VInt (Z.of_nat n) in
  mret (VDict [("request_meta", VDict ((λ x : string * option string, (x.1, json_option x.2)) <$> meta));
    ("summary", VDict [("objects_found", count (length results)); ("successful", count (length successful));
       ("successful_create", count (count_where (has_type CREATE) successful));
       ("successful_modify", count (count_where (has_type MODIFY) successful));
       ("successful_delete", count (count_where (has_type DELETE) successful));
       ("failed", count (length failed));
       ("failed_create", count (count_where (has_type CREATE) failed));
       ("failed_modify", count (count_where (has_type MODIFY) failed));
       ("failed_delete", count (count_where (has_type DELETE) failed))]);
    ("objects", VList objects)]).

(** ** Notifications *)

Notation reports := (list (string * list (UpdateRequestStatus * list string))).
Definition add_report (target : string) (s : UpdateRequestStatus) (report : string) (l : reports) : reports :=
  let per_status := default [] (dict_get target l) in
  dict_set target (dict_set s (oset_add (default [] (dict_get s per_status)) report) per_status) l.
Fixpoint collect_reports (results : list request) (l : reports) (srcs : list string) : res (reports * list string) :=
  match results with
  | [] => Ok (l, srcs)
  | Suspension _ :: results' => collect_reports results' l srcs
  | Change c :: results' =>
      match notification_targets c with
      | [] => collect_reports results' l srcs
      | targets =>
          if bool_decide (cr_status c ∈ [SAVED; ERROR_AUTH]) then
            report ← notification_target_report cfg unified_diff c;
            src ← match cr_rpsl_obj_new c with Some o => source o | None => Raise AttributeError end;
            collect_reports results' (foldl (λ l t, add_report t (cr_status c) report l) l targets) (oset_add srcs src)
          else collect_reports results' l srcs
      end
  end.
Definition header_saved : string :=
  join NL [""; rule; "Some objects in which you are referenced have been created,"; "deleted or changed."; ""; ""].
Definition header_failed : string :=
  join NL [""; rule; "Some objects in which you are referenced were requested";
    "to be created, deleted or changed, but *failed* the "; "proper authorisation for any of the referenced maintainers.";
    ""; ""].
Definition report_section (header : string) (l : option (list string)) : string :=
  match l with
  | Some l => header +:+ concat_str ((λ r, "---" +:+ NL +:+ r +:+ NL) <$> l) +:+ rule +:+ NL +:+ NL
  | None => ""
  end.
Definition notification_header (sources_str : string) : res string :=
  match get_setting_default cfg "email.notification_header" (VStr "") with
  | VStr s => py_format [("sources_str", sources_str)] s
  | _ => Raise AttributeError
  end.
(** The messages: recipient, subject, text. *)
Definition notification_message (meta : list (string * option string)) (sources_str header : string)
    (x : string * list (UpdateRequestStatus * list string)) : string * string * string :=
  (x.1, "Notification of " +:+ sources_str +:+ " database changes",
   header +:+ NL +:+ "This message is auto-generated." +:+ NL
   +:+ "The request was made with the following details:" +:+ NL
   +:+ _request_meta_str meta +:+ report_section header_failed (dict_get ERROR_AUTH x.2)
   +:+ report_section header_saved (dict_get SAVED x.2)).
Definition send_notification_target_reports (meta : list (string * option string)) (results : list request)
  : res (list (string * string * string)) :=
  collected ← collect_reports results [] [];
  header ← notification_header (join "/" collected.2);
  Ok (List.map (notification_message meta (join "/" collected.2) header) collected.1).
End UpdateHandler.
