(* ===== verification/TransactionTheory.v ===== *)
(** * Transactions

    Only [commit] changes the database that other transactions see, and not when
    it raises. *)
From S2P Require Import Prelude PyStr Conf Net Models Rpki RpslObjects RpslParser Queries RoutePref Database DatabaseHandler StorageTheory Nrtm.

(** What is committed, and whether there is a journal. *)
Definition durable `{IPyLib} (h : handler) : database * bool := (h_committed h, h_journaling_enabled h).
#[export] Hint Extern 1 (fixes durable (modify _)) => (apply fixes_modify; reflexivity) : fixes.

Section Transactions.
Context `{IPyLib} `{Radix node_data} `{redis : Redis} (cfg : configuration).
Context (collate_lt : string → string → bool) (uuid : nat → string) (timestamp_text : Z → string).
Notation stays := (fixes durable).

Lemma write_permitted_durable : stays _check_write_permitted.
Proof using Type. intros h. unfold _check_write_permitted. by destruct (h_readonly h). Qed.
Lemma synchronised_durable src : stays (_is_serial_synchronised cfg src).
Proof using Type. done. Qed.
Lemma insert_journal_durable op rpsl_pk src class text origin serial :
  stays (insert_journal op rpsl_pk src class text origin serial).
Proof using Type. intros h. unfold insert_journal. by destruct (sql_insert_journal _ _ _ _ _ _ _ _ _) as [[d n]|]. Qed.
Lemma statement_durable f : stays (execute_statement f).
Proof using Type. intros h. unfold execute_statement. by destruct (f (h_db h)). Qed.
Lemma execute_flush_durable buffer guaranteed : stays (execute_flush uuid buffer guaranteed).
Proof using Type. intros h. unfold execute_flush. by destruct (flush_statement _ _ _ _). Qed.
Lemma delete_returning_durable p : stays (delete_returning p).
Proof using Type. intros h. unfold delete_returning. by destruct (sql_delete p (h_db h)). Qed.
Hint Resolve write_permitted_durable synchronised_durable insert_journal_durable statement_durable
  execute_flush_durable delete_returning_durable : fixes.
Lemma record_operation_durable op rpsl_pk src class text origin serial :
  stays (record_operation cfg op rpsl_pk src class text origin serial).
Proof using Type. unfold record_operation. fixes_tac. Qed.
Hint Resolve record_operation_durable : fixes.
Lemma flush_durable : stays (_flush_rpsl_object_writing_buffer cfg uuid).
Proof using Type. unfold _flush_rpsl_object_writing_buffer, journal_entry. fixes_tac. Qed.
Lemma flush_roas_durable : stays (_flush_roa_writing_buffer).
Proof using Type. unfold _flush_roa_writing_buffer. fixes_tac. Qed.
Hint Resolve flush_durable flush_roas_durable : fixes.
Lemma visibility_durable op o r : stays (visibility_changed cfg op o r).
Proof using Type. unfold visibility_changed, record_operation_from_rpsl_dict, object_modified_dict, object_modified. fixes_tac. Qed.
Lemma update_where_durable {A} `{EqDecision A} (key : rpsl_row → A) objs f : stays (update_where key objs f).
Proof using Type. unfold update_where. fixes_tac. Qed.
Hint Resolve visibility_durable update_where_durable : fixes.
Lemma pref_durable a b : stays (update_route_preference_status cfg a b).
Proof using Type. unfold update_route_preference_status, pref_changed, record_operation_from_rpsl_dict. fixes_tac. Qed.
Hint Resolve pref_durable : fixes.
Lemma query_durable q : stays (execute_query_objects cfg collate_lt uuid q).
Proof using Type. unfold execute_query_objects. fixes_tac. Qed.
Lemma query_database_durable {A} (f : database → A) : stays (query_database cfg uuid f).
Proof using Type. unfold query_database. fixes_tac. Qed.
Hint Resolve query_durable query_database_durable : fixes.

Lemma upsert_durable o origin guaranteed serial created :
  stays (upsert_rpsl_object cfg uuid timestamp_text o origin guaranteed serial created).
Proof using Type. unfold upsert_rpsl_object, upsert_rendered, flush_if_seen, append_row, object_modified. fixes_tac. Qed.
Lemma delete_of_durable origin o serial protect : stays (delete_rpsl_object_of cfg uuid origin o serial protect).
Proof using Type.
  unfold delete_rpsl_object_of, delete_rpsl_object, record_operation_from_rpsl_dict, object_modified_dict, object_modified. fixes_tac.
Qed.
Lemma suspend_durable pk_uuid : stays (suspend_rpsl_object cfg uuid pk_uuid).
Proof using Type. unfold suspend_rpsl_object, record_operation_from_rpsl_dict, object_modified_dict, object_modified. fixes_tac. Qed.
Lemma delete_suspended_durable pks : stays (delete_suspended_rpsl_objects cfg uuid pks).
Proof using Type. unfold delete_suspended_rpsl_objects. fixes_tac. Qed.
(** No call but that to commit. *)
Lemma run_call_durable c : c ≠ c_commit → stays (run_call cfg collate_lt uuid timestamp_text c).
Proof using Type.
  destruct c; simpl; intros Hc; try done.
  - apply upsert_durable.
  - unfold insert_roa_object. fixes_tac.
  - unfold update_rpki_status, rpki_now_visible, rpki_now_hidden. fixes_tac.
  - unfold update_scopefilter_status, scope_now_visible, scope_now_hidden. fixes_tac.
  - fixes_tac.
  - unfold delete_rpsl_object, record_operation_from_rpsl_dict, object_modified_dict, object_modified. fixes_tac.
  - apply suspend_durable.
  - apply delete_suspended_durable.
  - unfold delete_journal_entries_before_date. fixes_tac.
  - unfold delete_all_rpsl_objects_with_journal, all_object_classes_updated. fixes_tac.
  - unfold delete_all_roa_objects. fixes_tac.
  - unfold set_force_reload. fixes_tac.
  - unfold record_serial_newest_mirror. fixes_tac.
  - unfold record_serial_seen. fixes_tac.
  - unfold record_mirror_error. fixes_tac.
  - unfold record_serial_exported. fixes_tac.
  - unfold record_nrtm4_client_status. fixes_tac.
  - unfold record_nrtm4_server_status. fixes_tac.
Qed.
Lemma finalise_durable : stays (finalise_transaction cfg).
Proof using Type. unfold finalise_transaction, finalise_source. fixes_tac. Qed.
Lemma pre_commit_durable : stays (pre_commit cfg collate_lt).
Proof using Type. unfold pre_commit. fixes_tac. Qed.
(** Queries of a handler that has nothing to flush. *)
Lemma flush_quiet h : h_rpsl_upsert_buffer h = [] → _flush_rpsl_object_writing_buffer cfg uuid h = (h, Ok tt).
Proof using Type. intros Hb. unfold _flush_rpsl_object_writing_buffer, mbind, st_bind, st_get. by rewrite Hb. Qed.
Lemma query_database_quiet {A} (f : database → A) h :
  h_rpsl_upsert_buffer h = [] → query_database cfg uuid f h = (h, Ok (f (h_db h))).
Proof using Type.
  intros Hb. unfold query_database, mbind, st_bind, st_get. destruct (h_readonly h); [done|]. by rewrite flush_quiet.
Qed.
Lemma execute_query_quiet q h :
  h_rpsl_upsert_buffer h = [] →
  execute_query_objects cfg collate_lt uuid q h = (h, Ok (execute_query collate_lt q (db_objects (h_db h)))).
Proof using Type.
  intros Hb. unfold execute_query_objects, mbind, st_bind, st_get. destruct (h_readonly h); [done|]. by rewrite flush_quiet.
Qed.
Lemma bind_Raise {S A B} (m : st S A) (f : A → st S B) s s' e :
  (m ≫= f) s = (s', Raise e) → m s = (s', Raise e) ∨ ∃ s1 a, m s = (s1, Ok a) ∧ f a s1 = (s', Raise e).
Proof using Type.
  unfold mbind, st_bind. destruct (m s) as [s1 [a|e']]; [by right; exists s1, a|].
  intros Hr. injection Hr as <- <-. by left.
Qed.

(** *** Commit *)

Lemma or_rollback_bind m m' h : or_rollback (_ ← m; m') h = (_ ← or_rollback m; or_rollback m') h.
Proof using Type. unfold or_rollback, mbind, st_bind. by destruct (m h) as [h1 [[]|e]]. Qed.
(** [commit] as what ends with the commit of the transaction, and what follows. *)
Lemma commit_split h : commit cfg collate_lt uuid h = (_ ← commit_sql cfg collate_lt uuid; or_rollback after_commit) h.
Proof using Type.
  unfold commit, commit_sql, mbind, st_bind.
  destruct (_check_write_permitted h) as [h1 [[]|e]]; [|done].
  destruct (_flush_rpsl_object_writing_buffer cfg uuid h1) as [h2 [[]|e]]; [|done].
  destruct (_flush_roa_writing_buffer h2) as [h3 [[]|e]]; [|done].
  destruct (finalise_transaction cfg h3) as [h4 [[]|e]]; [|done]. apply or_rollback_bind.
Qed.
Lemma before_commit_raises h h' e :
  h_journaling_enabled h = true → or_rollback (before_commit cfg collate_lt) h = (h', Raise e) → h_committed h' = h_committed h.
Proof using Type.
  intros Hj. unfold or_rollback. destruct (before_commit _ _ h) as [h2 [[]|e']] eqn:Hb; [done|].
  intros Hr. injection Hr as <- <-. simpl. apply bind_Raise in Hb as [Hb|(h3 & h4 & Hget & Hb)]; [by injection Hb|].
  injection Hget as <- <-. rewrite Hj in Hb.
  apply bind_Raise in Hb as [Hb|(h3 & [] & Hret & Hb)]; [done|]. injection Hret as <-.
  apply bind_Raise in Hb as [Hb|(h3 & [] & _ & Hb)]; [|done].
  pose proof (pre_commit_durable h) as Hp. rewrite Hb in Hp. by injection Hp.
Qed.
(** A commit that raises before the transaction is committed, with a journal, commits nothing. *)
Lemma commit_sql_raises h h' e :
  h_journaling_enabled h = true → commit_sql cfg collate_lt uuid h = (h', Raise e) → h_committed h' = h_committed h.
Proof using Type.
  assert (∀ (m k : M unit) h1 h2, stays m →
    (∀ h3, h_journaling_enabled h3 = true → k h3 = (h2, Raise e) → h_committed h2 = h_committed h3) →
    h_journaling_enabled h1 = true → (_ ← m; k) h1 = (h2, Raise e) → h_committed h2 = h_committed h1) as Hstep.
  { intros m k h1 h2 Hm Hk Hj1 Hrun. specialize (Hm h1). apply bind_Raise in Hrun as [Hrun|(h3 & [] & H3 & Hrun)].
    - rewrite Hrun in Hm. by injection Hm.
    - rewrite H3 in Hm. injection Hm as <- Hj3. apply Hk; [by rewrite Hj3|done]. }
  revert h h'. intros h h'. unfold commit_sql. apply Hstep; [fixes_tac|]. intros h1. apply Hstep; [fixes_tac|].
  intros h2. apply Hstep; [fixes_tac|]. intros h3. apply Hstep; [apply finalise_durable|]. intros h4. apply before_commit_raises.
Qed.
(** What raises after it is Redis, and it changes nothing that is stored. *)
Definition refused (e : exn) : Prop := ∃ now signals published m, redis_publish now signals published m = Raise e.
Lemma announce_stays m : fixes (λ h, (h_db h, h_committed h)) (announce m).
Proof using Type. intros h. unfold announce. by destruct (redis_publish _ _ _ m), m. Qed.
Lemma announce_raises m h h' e : announce m h = (h', Raise e) → refused e.
Proof using Type.
  unfold announce. destruct (redis_publish _ _ _ m) eqn:E; [done|]. intros Hr. injection Hr as <- <-. by repeat eexists.
Qed.
Lemma after_commit_stays : fixes (λ h, (h_db h, h_committed h)) after_commit.
Proof using Type.
  unfold after_commit, tracker_commit, publish_event_stream, _start_transaction, modify.
  pose proof announce_stays. fixes_tac.
Qed.
Lemma after_commit_raises h h' e : after_commit h = (h', Raise e) → refused e.
Proof using Type.
  intros Hrun. apply bind_Raise in Hrun as [Hrun|(h1 & [] & _ & Hrun)].
  - apply bind_Raise in Hrun as [Hrun|(h2 & h3 & Hget & Hrun)]; [by injection Hrun|].
    apply bind_Raise in Hrun as [Hrun|(h4 & [] & _ & Hrun)]; [|done].
    destruct (ct_object_classes _); [done|]. by eapply announce_raises.
  - apply bind_Raise in Hrun as [Hrun|(h2 & [] & _ & Hrun)]; [|done].
    apply bind_Raise in Hrun as [Hrun|(h3 & h4 & _ & Hrun)]; [by injection Hrun|].
    revert Hrun. generalize h3. induction (t_new_serials_per_source (h_tracker h4)).*1 as [|src l IH]; intros h5; [done|].
    intros [Hrun|(h6 & [] & _ & Hrun)]%bind_Raise; [by eapply announce_raises|by eapply IH].
Qed.
(** So a commit that raises, in a transaction that keeps a journal, commits nothing,
    unless Redis refused a message, when it has committed everything. *)
Lemma commit_raises h h' e :
  h_journaling_enabled h = true → commit cfg collate_lt uuid h = (h', Raise e) →
  h_committed h' = h_committed h
  ∨ refused e ∧ ∃ h1, commit_sql cfg collate_lt uuid h = (h1, Ok tt) ∧ h_committed h' = h_committed h1.
Proof using Type.
  intros Hj. rewrite commit_split. intros [Hrun|(h1 & [] & H1 & Hrun)]%bind_Raise.
  - left. by eapply commit_sql_raises.
  - right. pose proof (after_commit_stays h1) as Hs. revert Hrun. unfold or_rollback.
    destruct (after_commit h1) as [h2 [[]|e']] eqn:E; [done|]. intros Hr. injection Hr as <- <-.
    split; [by eapply after_commit_raises|]. exists h1. split; [done|]. simpl in *. by injection Hs.
Qed.
End Transactions.
Arguments flush_quiet {_ _ _} _ _.
Arguments query_database_quiet {_ _ _ _} _ _ _.
Arguments execute_query_quiet {_ _ _ _} _ _ _.
#[export] Hint Resolve write_permitted_durable delete_returning_durable statement_durable update_where_durable visibility_durable pref_durable record_operation_durable flush_durable flush_roas_durable query_durable query_database_durable
  upsert_durable delete_of_durable suspend_durable delete_suspended_durable : fixes.
