(* ===== verification/UpdatesTheory.v ===== *)
(** * Correctness of updates

    While requests are validated nothing is written; the resolver stops, and what
    is saved was authorised and refers to objects that exist. *)
From S2P Require Import Prelude PyStr Conf Net Models Text Rpki ScopeFilter Fields RpslObjects RpslParser Queries QueriesTheory RoutePref Database DatabaseHandler StorageTheory JournalTheory Nrtm TransactionTheory UpdateValidators UpdateRequests UpdateHandler.

Section Positions.
Context `{IPyLib} `{Radix node_data} `{redis : Redis}.

(** The requests that would be saved, and their positions. *)
Definition request_ok (r : request) : bool := bool_decide (status_of_request r ∈ [SAVED; PROCESSING]).
Fixpoint ok_positions (i : nat) (l : list request) : list nat :=
  match l with
  | [] => []
  | r :: l' => if request_ok r then i :: ok_positions (S i) l' else ok_positions (S i) l'
  end.
Lemma ok_positions_elem i l j : j ∈ ok_positions i l ↔ ∃ k r, j = i + k ∧ l !! k = Some r ∧ request_ok r = true.
Proof.
  revert i. induction l as [|r l IH]; intros i; simpl.
  { split; [by intros ?%elem_of_nil|]. by intros (k & r & _ & Hk & _). }
  assert (j ∈ ok_positions (S i) l ↔ ∃ k r', j = i + S k ∧ l !! k = Some r' ∧ request_ok r' = true) as Hrest.
  { rewrite IH. by repeat (f_equiv; intros ?); rewrite Nat.add_succ_r. }
  assert (j ∈ (if request_ok r then i :: ok_positions (S i) l else ok_positions (S i) l)
          ↔ (j = i ∧ request_ok r = true) ∨ j ∈ ok_positions (S i) l) as ->.
  { destruct (request_ok r); rewrite ?elem_of_cons; naive_solver. }
  rewrite Hrest. split.
  - intros [[-> ?]|(k & r' & ? & ? & ?)]; [exists 0, r; split_and!; [lia|done|done]|by exists (S k), r'].
  - intros ([|k] & r' & -> & Hk & ?); [injection Hk as ->; left; split; [lia|done]|right; eauto].
Qed.
Lemma ok_positions_down l l' j :
  Forall2 (λ r r', request_ok r' = true → request_ok r = true) l l' → j ∈ ok_positions 0 l' → j ∈ ok_positions 0 l.
Proof.
  intros Hl (k & r' & -> & Hr' & Hok)%ok_positions_elem. destruct (Forall2_lookup_r _ _ _ _ _ Hl Hr') as (r & Hr & Hdown).
  apply ok_positions_elem. exists k, r. auto.
Qed.
(** When only requests that were valid are valid, either all still are or there are fewer. *)
Lemma ok_positions_shrink i l l' :
  Forall2 (λ r r', request_ok r' = true → request_ok r = true) l l' →
  ok_positions i l' = ok_positions i l ∨ length (ok_positions i l') < length (ok_positions i l).
Proof.
  intros Hl. revert i. induction Hl as [|r r' l l' Hr Hl IH]; intros i; simpl; [by left|].
  destruct (IH (S i)) as [E|E], (request_ok r) eqn:E1, (request_ok r') eqn:E2; simpl; rewrite ?E;
    try (by left); try (right; lia); by specialize (Hr eq_refl).
Qed.
Lemma ok_positions_length i l : length (ok_positions i l) ≤ length l.
Proof. revert i. induction l as [|r l IH]; intros i; simpl; [lia|]. specialize (IH (S i)). destruct (request_ok r); simpl; lia. Qed.
End Positions.

Section Updates.
Context `{IPyLib} `{Radix node_data} `{redis : Redis} (cfg : configuration).
Context (collate_lt : string → string → bool) (uuid : nat → string) (timestamp_text : Z → string).
Context (gpg_import_keys : string → list string * option string) (gpg_uids : string → list string).
Context (hasher_verify : string → string → string → option bool) (bcrypt_hash : string → string).
Context (tables : auth_tables).
Notation U := (st submission).
Notation parse text := (parse_stored cfg gpg_import_keys gpg_uids text).
Notation db s := (h_db (sm_handler s)).

(** ** Nothing is written while requests are validated *)

Definition quiet (s : submission) : Prop := h_rpsl_upsert_buffer (sm_handler s) = [].
Definition credentials (v : AuthValidator) :=
  (av_passwords v, av_overrides v, av_api_keys v, av_keycert_obj_pk v, av_origin v, av_remote_ip v,
   av_internal_authenticated_user v).
(** What the cache of maintainers holds is stored in the database; what that of
    references holds, too, and it is not to be deleted. *)
Definition cached_in (d : database) (v : AuthValidator) : Prop :=
  ∀ m, m ∈ av_mntner_db_cache v →
  ∃ r, r ∈ db_objects d ∧ r_object_class r = "mntner" ∧ parse (r_object_text r) = Ok m.
Definition stored_reference (d : database) (k : reference) : Prop :=
  ∃ r, r ∈ db_objects d ∧ r_object_class r = k.1.1 ∧ r_rpsl_pk r = strip (str_upper k.1.2)
       ∧ r_source r = strip (str_upper k.2).
Definition refs_in (d : database) (v : ReferenceValidator) : Prop :=
  ∀ k, k ∈ rv_cache v → stored_reference d k ∧ k ∉ rv_preloaded_deleted v.
(** The database and the credentials stay; the caches may grow. *)
Definition calm (s s' : submission) : Prop :=
  quiet s →
  sm_handler s' = sm_handler s ∧ sm_change_log s' = sm_change_log s
  ∧ credentials (sm_auth s') = credentials (sm_auth s)
  ∧ av_pre_approved (sm_auth s') = av_pre_approved (sm_auth s)
  ∧ rv_preloaded_new (sm_ref s') = rv_preloaded_new (sm_ref s)
  ∧ rv_preloaded_deleted (sm_ref s') = rv_preloaded_deleted (sm_ref s)
  ∧ (cached_in (db s) (sm_auth s) → cached_in (db s) (sm_auth s'))
  ∧ (refs_in (db s) (sm_ref s) → refs_in (db s) (sm_ref s')).
#[export] Instance calm_preorder : PreOrder calm.
Proof.
  split; [by intros s|]. intros s1 s2 s3 H12 H23 Hq. destruct (H12 Hq) as (E1 & E2 & E3 & E4 & E5 & E6 & E7 & E8).
  destruct H23 as (F1 & F2 & F3 & F4 & F5 & F6 & F7 & F8); [unfold quiet; by rewrite E1|].
  rewrite E1 in F7, F8. split_and!; [congruence..|auto|auto].
Qed.

Lemma on_db_quiet {A} (m : M A) a s :
  m (sm_handler s) = (sm_handler s, Ok a) → on_db m s = (s, Ok a).
Proof using Type. intros Hm. unfold on_db. rewrite Hm. by destruct s. Qed.
Lemma on_database_quiet {A} (f : database → A) s :
  quiet s → on_db (query_database cfg uuid f) s = (s, Ok (f (db s))).
Proof using Type. intros Hq. by apply on_db_quiet, query_database_quiet. Qed.
Lemma query_objects_quiet q s rows s' :
  quiet s → query_objects cfg collate_lt uuid q s = (s', Ok rows) →
  s' = s ∧ ∃ q', q = Ok q' ∧ rows = execute_query collate_lt q' (db_objects (db s)).
Proof using Type.
  intros Hq (s1 & q' & [-> Hq']%st_lift_Ok & Hrun)%st_bind_Ok.
  rewrite (on_db_quiet _ _ _ (execute_query_quiet _ _ Hq)) in Hrun. injection Hrun as <- <-. eauto.
Qed.
Lemma query_objects_calm q : keeps calm (query_objects cfg collate_lt uuid q).
Proof using Type. intros s s' rows Hrun Hq. destruct (query_objects_quiet _ _ _ _ Hq Hrun) as [-> _]. by split_and!. Qed.
Lemma query_database_calm {A} (f : database → A) : keeps calm (on_db (query_database cfg uuid f)).
Proof using Type. intros s s' a Hrun Hq. rewrite (on_database_quiet _ _ Hq) in Hrun. injection Hrun as <- _. by split_and!. Qed.
Hint Resolve query_objects_calm query_database_calm : keeps.

(** The objects that a query for maintainers finds. *)
Definition found_mntner (d : database) (src : string) (names : list string) (m : RPSLObject) : Prop :=
  ∃ r, r ∈ db_objects d ∧ r_object_class r = "mntner" ∧ parse (r_object_text r) = Ok m
       ∧ r_source r = strip (str_upper src) ∧ r_rpsl_pk r ∈ (λ p, strip (str_upper p)) <$> names.
Lemma mntner_rows d src names q r :
  (q ← in_source src; q ← object_classes q ["mntner"]; rpsl_pks q names) = Ok q →
  r ∈ execute_query collate_lt q (db_objects d) →
  r ∈ db_objects d ∧ r_object_class r = "mntner" ∧ r_source r = strip (str_upper src)
  ∧ r_rpsl_pk r ∈ (λ p, strip (str_upper p)) <$> names.
Proof using Type.
  intros Hq [Hin Hr]%execute_query_elem. split; [done|]. injection Hq as <-. unfold holds in Hr. simpl in Hr.
  rewrite !andb_true_iff, !bool_decide_eq_true, !list_elem_of_singleton in Hr. by destruct Hr as (? & ? & ? & _).
Qed.
Lemma res_map_elem {A B} (f : A → res B) l l' y : res_map f l = Ok l' → y ∈ l' → ∃ x, x ∈ l ∧ f x = Ok y.
Proof using Type.
  revert l'. induction l as [|x l IH]; intros l'; simpl; [intros [= <-]; by intros ?%elem_of_nil|].
  destruct (f x) as [y'|] eqn:Ef; [|done]. destruct (res_map f l) as [l''|]; [|done]. intros [= <-].
  intros [->|Hy]%elem_of_cons; [exists x; split; [by left|done]|].
  destruct (IH _ eq_refl Hy) as (z & ? & ?). exists z. split; [by right|done].
Qed.
Lemma cache_objects_elem l cache m : m ∈ cache_objects l cache → m ∈ l ∨ m ∈ cache.
Proof using Type.
  unfold cache_objects. revert cache. induction l as [|o l IH]; intros cache; simpl; [by right|].
  intros [?|Hm]%IH; [left; by right|]. destruct (existsb _ _); [by right|].
  apply elem_of_app in Hm as [?| ->%list_elem_of_singleton]; [by right|left; by left].
Qed.
Lemma cached_mntners_elem names src cache l m :
  cached_mntners names src cache = Ok l → m ∈ l → m ∈ cache ∧ pk m ∈ names ∧ source m = Ok src.
Proof using Type.
  revert l. induction cache as [|o cache IH]; intros l; simpl; [intros [= <-]; by intros ?%elem_of_nil|].
  intros Hl Hm. case_bool_decide as Hp.
  - destruct (source o) as [s|] eqn:Es; [|done]. simpl in Hl.
    destruct (cached_mntners names src cache) as [rest|]; [|done]. injection Hl as <-.
    destruct (String.eqb_spec s src) as [->|]; simpl in Hm.
    + apply elem_of_cons in Hm as [->|Hm]; [by repeat split; [left|..]|].
      destruct (IH _ eq_refl Hm) as [? ?]. split; [by right|done].
    + destruct (IH _ eq_refl Hm) as [? ?]. split; [by right|done].
  - simpl in Hl. destruct (cached_mntners names src cache) as [rest|]; [|done]. injection Hl as <-.
    destruct (IH _ eq_refl Hm) as [? ?]. split; [by right|done].
Qed.
(** A maintainer that is looked up is one of the names, and is stored. *)
Definition is_named (d : database) (src : string) (names : list string) (m : RPSLObject) : Prop :=
  ∃ r, r ∈ db_objects d ∧ r_object_class r = "mntner" ∧ parse (r_object_text r) = Ok m
       ∧ (r_source r = strip (str_upper src) ∧ r_rpsl_pk r ∈ (λ p, strip (str_upper p)) <$> names
          ∨ source m = Ok src ∧ pk m ∈ names).
Lemma resolve_mntners_Ok names src s s' objs :
  quiet s → resolve_mntners cfg collate_lt uuid gpg_import_keys gpg_uids names src s = (s', Ok objs) →
  calm s s' ∧ (cached_in (db s) (sm_auth s) → Forall (is_named (db s) src names) objs).
Proof using Type.
  intros Hq (s1 & x & Hx & Hrun)%st_bind_Ok. injection Hx as <- <-.
  apply st_bind_Ok in Hrun as (s1 & cached & [-> Hcached]%st_lift_Ok & Hrun).
  assert (cached_in (db s) (sm_auth s) → Forall (is_named (db s) src names) cached) as Hnamed.
  { intros Hc. apply Forall_forall. intros m Hm. destruct (cached_mntners_elem _ _ _ _ _ Hcached Hm) as (Hin & ? & ?).
    destruct (Hc m Hin) as (r & ? & ? & ?). exists r. eauto 10. }
  destruct (List.filter _ names) as [|p0 ps] eqn:Efilter; [injection Hrun as <- <-; by split|].
  apply st_bind_Ok in Hrun as (s1 & rows & (-> & q & Hquery & ->)%(query_objects_quiet _ _ _ _ Hq) & Hrun).
  apply st_bind_Ok in Hrun as (s1 & retrieved & [-> Hret]%st_lift_Ok & Hrun).
  apply st_bind_Ok in Hrun as (s1 & [] & Hmod & Hrun). injection Hmod as <-. injection Hrun as <- <-.
  assert (∀ m, m ∈ retrieved → found_mntner (db s) src names m) as Hfound.
  { intros m Hm. destruct (res_map_elem _ _ _ _ Hret Hm) as (r & Hr & Hparse).
    destruct (mntner_rows _ _ _ _ _ Hquery Hr) as (? & ? & ? & Hin). exists r. split_and!; try done.
    apply list_elem_of_fmap in Hin as (p & -> & Hp). apply list_elem_of_fmap. exists p. split; [done|].
    rewrite <- Efilter in Hp. by apply filter_elem in Hp as [? _]. }
  split.
  - intros _. split_and!; try done. intros Hc m [Hm|Hm]%cache_objects_elem; [|by apply Hc].
    destruct (Hfound m Hm) as (r & ? & ? & ? & _). eauto.
  - intros Hc. apply Forall_app. split; [by apply Hnamed|]. apply Forall_forall. intros m Hm.
    destruct (Hfound m Hm) as (r & ? & ? & ? & ? & ?). exists r. eauto 10.
Qed.
Lemma resolve_mntners_calm l src : keeps calm (resolve_mntners cfg collate_lt uuid gpg_import_keys gpg_uids l src).
Proof using Type. intros s s' objs Hrun Hq. by apply (resolve_mntners_Ok _ _ _ _ _ Hq Hrun). Qed.
Hint Resolve resolve_mntners_calm : keeps.
Lemma check_mntners_calm o l src :
  keeps calm (_check_mntners cfg collate_lt uuid gpg_import_keys gpg_uids hasher_verify tables o l src).
Proof using Type. unfold _check_mntners. keeps_tac. Qed.
Hint Resolve check_mntners_calm : keeps.
Lemma find_related_calm o : keeps calm (_find_related_mntners cfg collate_lt uuid o).
Proof using Type. unfold _find_related_mntners, _find_related_object_route, _find_related_object_set. keeps_tac. Qed.
Hint Resolve find_related_calm : keeps.
Lemma process_auth_calm o current :
  keeps calm (process_auth cfg collate_lt uuid gpg_import_keys gpg_uids hasher_verify bcrypt_hash tables o current).
Proof using Type. unfold process_auth, check_current, check_related. keeps_tac. Qed.
Hint Resolve process_auth_calm : keeps.
(** A reference that is found is to be added, or is stored and not to be deleted. *)
Definition reference_kept (d : database) (v : ReferenceValidator) (classes : list string) (object_pk src : string) : Prop :=
  ∃ c, c ∈ classes ∧ ((c, object_pk, src) ∈ rv_preloaded_new v
                      ∨ stored_reference d (c, object_pk, src) ∧ (c, object_pk, src) ∉ rv_preloaded_deleted v).
Lemma known_reference_true d v classes object_pk src :
  refs_in d v → known_reference v classes object_pk src = Some true → reference_kept d v classes object_pk src.
Proof using Type.
  intros Hin. induction classes as [|c classes IH]; simpl; [done|].
  assert (∀ P : Prop, (known_reference v classes object_pk src = Some true → reference_kept d v classes object_pk src) →
    known_reference v classes object_pk src = Some true → reference_kept d v (c :: classes) object_pk src) as Hrest.
  { intros _ IH' Hk. destruct (IH' Hk) as (c' & ? & ?). exists c'. split; [by right|done]. }
  repeat case_bool_decide; try done.
  - intros _. exists c. split; [by left|]. right. by apply Hin.
  - intros _. exists c. split; [by left|]. by left.
  - by apply (Hrest True).
Qed.
Lemma known_reference_None v classes object_pk src c :
  known_reference v classes object_pk src = None → c ∈ classes → (c, object_pk, src) ∉ rv_preloaded_deleted v.
Proof using Type.
  induction classes as [|c' classes IH]; simpl; [by intros _ ?%elem_of_nil|].
  repeat case_bool_decide; try done. intros Hk [->|Hc]%elem_of_cons; [done|by apply IH].
Qed.
Lemma reference_rows d classes object_pk src q r :
  (q ← in_source src; q ← object_classes q classes; rpsl_pk q object_pk) = Ok q →
  r ∈ execute_query collate_lt q (db_objects d) →
  r_object_class r ∈ classes ∧ stored_reference d (r_object_class r, object_pk, src).
Proof using Type.
  intros Hq [Hin Hr]%execute_query_elem. injection Hq as <-. unfold holds in Hr. simpl in Hr.
  rewrite !andb_true_iff, !bool_decide_eq_true, !list_elem_of_singleton in Hr.
  destruct Hr as (? & ? & ? & _). split; [done|]. by exists r.
Qed.
Lemma check_reference_Ok classes object_pk src s s' b :
  quiet s → _check_reference_to_others cfg collate_lt uuid classes object_pk src s = (s', Ok b) →
  calm s s' ∧ (refs_in (db s) (sm_ref s) → b = true → reference_kept (db s) (sm_ref s) classes object_pk src).
Proof using Type.
  intros Hq (s1 & x & Hx & Hrun)%st_bind_Ok. injection Hx as <- <-.
  destruct (known_reference _ _ _ _) as [b'|] eqn:Ek.
  { injection Hrun as <- <-. split; [done|]. intros Hin ->. by apply known_reference_true. }
  apply st_bind_Ok in Hrun as (s1 & rows & (-> & q & Hquery & ->)%(query_objects_quiet _ _ _ _ Hq) & Hrun).
  apply st_bind_Ok in Hrun as (s1 & [] & Hmod & Hrun). injection Hmod as <-. injection Hrun as <- <-.
  split.
  - intros _. split_and!; try done. intros Hin k [Hk|Hk]%oset_update_elem; [by apply Hin|].
    apply list_elem_of_fmap in Hk as (r & -> & Hr). destruct (reference_rows _ _ _ _ _ _ Hquery Hr) as [Hc ?].
    split; [done|]. by apply (known_reference_None _ _ _ _ _ Ek).
  - intros _ Hb. destruct (execute_query _ _ _) as [|r rows] eqn:Erows; [done|].
    destruct (reference_rows (db s) classes object_pk src q r Hquery) as [Hc ?]; [rewrite Erows; by left|].
    exists (r_object_class r). split; [done|]. right. split; [done|]. by apply (known_reference_None _ _ _ _ _ Ek).
Qed.
Lemma check_reference_calm classes object_pk src : keeps calm (_check_reference_to_others cfg collate_lt uuid classes object_pk src).
Proof using Type. intros s s' b Hrun Hq. by apply (check_reference_Ok _ _ _ _ _ _ Hq Hrun). Qed.
Hint Resolve check_reference_calm : keeps.
Lemma check_pks_calm field referred src pks result : keeps calm (check_pks cfg collate_lt uuid field referred src pks result).
Proof using Type. revert result. induction pks as [|p pks IH]; intros result; simpl; keeps_tac; apply IH. Qed.
Hint Resolve check_pks_calm : keeps.
Lemma check_fields_calm refs src result : keeps calm (check_fields cfg collate_lt uuid refs src result).
Proof using Type. revert result. induction refs as [|[[f r] p] refs IH]; intros result; simpl; keeps_tac; apply IH. Qed.
Hint Resolve check_fields_calm : keeps.
Lemma from_others_calm o : keeps calm (_check_references_from_others cfg collate_lt uuid o).
Proof using Type. unfold _check_references_from_others. keeps_tac. Qed.
Hint Resolve from_others_calm : keeps.
Lemma with_object_calm {A} c (f : RPSLObject → U A) : (∀ o, keeps calm (f o)) → keeps calm (with_object c f).
Proof using Type. intros Hf. unfold with_object. keeps_tac; apply Hf. Qed.
Lemma check_rules_calm c : keeps calm (check_rules cfg uuid tables c).
Proof using Type. unfold check_rules, rules_validate, _check_suspended_mntner_with_same_pk. keeps_tac. Qed.
Lemma check_auth_calm c :
  keeps calm (_check_auth cfg collate_lt uuid gpg_import_keys gpg_uids hasher_verify bcrypt_hash tables c).
Proof using Type. apply with_object_calm. intros o. cbv beta. keeps_tac. Qed.
Lemma check_references_calm c : keeps calm (_check_references cfg collate_lt uuid c).
Proof using Type.
  unfold _check_references. keeps_tac. apply with_object_calm. intros o. cbv beta.
  unfold check_references_from_others_for_deletion, check_references_to_others. keeps_tac.
Qed.
Lemma check_protected_calm c : keeps calm (_check_protected_names cfg collate_lt uuid c).
Proof using Type. unfold _check_protected_names, check_protected_name. keeps_tac. Qed.
Lemma check_roa_calm c : keeps calm (_check_conflicting_roa cfg uuid c).
Proof using Type. apply with_object_calm. intros o. cbv beta. keeps_tac. Qed.
Lemma check_scope_calm c : keeps calm (_check_scopefilter cfg c).
Proof using Type. unfold _check_scopefilter. keeps_tac. Qed.
Hint Resolve check_rules_calm check_auth_calm check_references_calm check_protected_calm check_roa_calm check_scope_calm : keeps.
Lemma cr_validate_calm c :
  keeps calm (cr_validate cfg collate_lt uuid gpg_import_keys gpg_uids hasher_verify bcrypt_hash tables c).
Proof using Type. unfold cr_validate. keeps_tac. Qed.
Hint Resolve cr_validate_calm : keeps.
Notation validate := (validate cfg collate_lt uuid gpg_import_keys gpg_uids hasher_verify bcrypt_hash tables).
Notation is_valid := (is_valid cfg hasher_verify).
Lemma is_valid_calm r : keeps calm (is_valid r).
Proof using Type. unfold UpdateHandler.is_valid, sr_is_valid, sr_validate. keeps_tac. Qed.
Lemma validate_calm r : keeps calm (validate r).
Proof using Type. unfold UpdateHandler.validate, sr_validate. keeps_tac. Qed.
Hint Resolve is_valid_calm validate_calm : keeps.
Lemma valid_positions_calm i l : keeps calm (valid_positions cfg hasher_verify i l).
Proof using Type. revert i. induction l as [|r l IH]; intros i; simpl; keeps_tac; apply IH. Qed.
Lemma validate_positions_calm i v l :
  keeps calm (validate_positions cfg collate_lt uuid gpg_import_keys gpg_uids hasher_verify bcrypt_hash tables i v l).
Proof using Type. revert i. induction l as [|r l IH]; intros i; simpl; keeps_tac; apply IH. Qed.
Notation valid_positions := (valid_positions cfg hasher_verify).
Notation validate_positions :=
  (validate_positions cfg collate_lt uuid gpg_import_keys gpg_uids hasher_verify bcrypt_hash tables).
Notation resolve_pass := (resolve_pass cfg collate_lt uuid gpg_import_keys gpg_uids hasher_verify bcrypt_hash tables).
Notation resolve := (resolve cfg collate_lt uuid gpg_import_keys gpg_uids hasher_verify bcrypt_hash tables).

(** ** The resolver stops *)

Lemma is_valid_Ok r s s' r' b :
  is_valid r s = (s', Ok (r', b)) → s' = s ∧ b = request_ok r' ∧ (request_ok r' = true → request_ok r = true).
Proof using Type.
  destruct r as [c|x]; [intros Hrun; injection Hrun as <- <- <-; by repeat split|].
  simpl. unfold sr_is_valid, sr_validate. intros (s1 & [x' ok] & Hx & Hrun)%st_bind_Ok. injection Hrun as <- <- <-.
  apply st_bind_Ok in Hx as (s2 & [x1 b1] & Hv & Hx). injection Hx as <- <- <-.
  apply st_bind_Ok in Hv as (s3 & s4 & Hs & Hv). injection Hs as <- <-. injection Hv as <- Hv.
  destruct (auth_bool _); injection Hv as <- <-; by repeat split.
Qed.
Lemma valid_positions_Ok i l s s' l' v :
  valid_positions i l s = (s', Ok (l', v)) →
  s' = s ∧ v = ok_positions i l' ∧ Forall2 (λ r r', is_valid r s = (s, Ok (r', request_ok r'))) l l'.
Proof using Type.
  revert i s s' l' v. induction l as [|r l IH]; intros i s s' l' v; simpl; [intros Hrun; by injection Hrun as <- <- <-|].
  intros (s1 & [r' b] & Hr & Hrun)%st_bind_Ok. pose proof (is_valid_Ok _ _ _ _ _ Hr) as (-> & -> & _).
  apply st_bind_Ok in Hrun as (s1 & [rest l1] & (-> & -> & Hl)%IH & Hrun). injection Hrun as <- <- <-.
  by repeat split; constructor.
Qed.
Lemma validate_positions_Ok i v l s s' l' :
  validate_positions i v l s = (s', Ok l') →
  length l' = length l ∧
  ∀ k r, l !! k = Some r → ∃ r', l' !! k = Some r' ∧
    if bool_decide (i + k ∈ v) then ∃ s1 s2, calm s s1 ∧ calm s2 s' ∧ validate r s1 = (s2, Ok r') else r' = r.
Proof using Type.
  revert i s s' l'. induction l as [|r l IH]; intros i s s' l'; simpl; [intros Hrun; by injection Hrun as <- <-|].
  intros (s1 & r1 & Hr & Hrun)%st_bind_Ok. apply st_bind_Ok in Hrun as (s2 & rest & Hrest & Hrun). injection Hrun as <- <-.
  pose proof (validate_positions_calm _ _ _ _ _ _ Hrest) as Hcalm. apply IH in Hrest as [Hlen Hrest].
  split; [simpl; by rewrite Hlen|]. intros [|k] r0 Hk; simpl in Hk.
  - injection Hk as <-. exists r1. split; [done|]. rewrite Nat.add_0_r.
    case_bool_decide; [by exists s, s1|]. by injection Hr.
  - destruct (Hrest k r0 Hk) as (r' & ? & Hr'). exists r'. split; [done|]. rewrite Nat.add_succ_r, <- Nat.add_succ_l.
    case_bool_decide; [|done]. destruct Hr' as (sa & sb & ? & ? & ?). exists sa, sb. split_and!; try done.
    transitivity s1; [|done]. case_bool_decide; [by apply (validate_calm _ _ _ _ Hr)|by injection Hr as <- _].
Qed.
(** What one pass leaves: the requests that were valid are read, validated and
    asked again, the other ones stay as they are. *)
Lemma resolve_pass_Ok requests v s s' requests' v' :
  resolve_pass requests v s = (s', Ok (requests', v')) →
  ∃ s1 s2 validated, preload_requests (at_positions 0 v requests) s = (s1, Ok tt)
    ∧ pre_approve (new_mntners (at_positions 0 v requests)) s1 = (s2, Ok tt)
    ∧ validate_positions 0 v requests s2 = (s', Ok validated)
    ∧ v' = ok_positions 0 requests'
    ∧ Forall2 (λ r r', is_valid r s' = (s', Ok (r', request_ok r'))) validated requests'.
Proof using Type.
  intros (s1 & [] & Hpre & Hrun)%st_bind_Ok. apply st_bind_Ok in Hrun as (s2 & [] & Happ & Hrun).
  apply st_bind_Ok in Hrun as (s3 & validated & Hval & (-> & -> & Hl)%valid_positions_Ok). by exists s1, s2, validated.
Qed.
Lemma resolve_pass_down requests v s s' requests' v' :
  v = ok_positions 0 requests → resolve_pass requests v s = (s', Ok (requests', v')) →
  v' = ok_positions 0 requests' ∧ Forall2 (λ r r', request_ok r' = true → request_ok r = true) requests requests'.
Proof using Type.
  intros Hv (s1 & s2 & validated & _ & _ & [Hlen Hval]%validate_positions_Ok & -> & Hl)%resolve_pass_Ok.
  split; [done|]. pose proof (Forall2_length _ _ _ Hl) as Hlen'. subst v.
  apply Forall2_same_length_lookup. split; [congruence|]. intros k r r' Hr Hr' Hok.
  destruct (Hval k r Hr) as (r1 & Hr1 & Hcase). pose proof (Forall2_lookup_lr _ _ _ _ _ _ Hl Hr1 Hr') as Hvalid.
  apply is_valid_Ok in Hvalid as (_ & _ & Hdown). case_bool_decide as Hin; [|subst r1; auto].
  apply ok_positions_elem in Hin as (k' & r0 & Hk & Hr0 & ?). simpl in Hk. subst k'.
  rewrite Hr0 in Hr. by injection Hr as <-.
Qed.

(** The loop of the resolver, without a limit to the number of passes. *)
Inductive resolution : list request → list nat → list nat → submission → submission → res (list request) → Prop :=
| resolution_stable requests v s : resolution requests v v s s (Ok requests)
| resolution_raises requests v previous s s' e :
    v ≠ previous → resolve_pass requests v s = (s', Raise e) →
    resolution requests v previous s s' (Raise e)
| resolution_pass requests v previous s s1 requests1 v1 s' r :
    v ≠ previous → resolve_pass requests v s = (s1, Ok (requests1, v1)) →
    resolution requests1 v1 v s1 s' r →
    resolution requests v previous s s' r.
Lemma resolve_resolution remaining requests v previous s s' r :
  v = ok_positions 0 requests → v = previous ∨ length v < remaining →
  resolve remaining requests v previous s = (s', r) → resolution requests v previous s s' r.
Proof using Type.
  revert requests v previous s. induction remaining as [|remaining IH]; intros requests v previous s Hv Hlen; simpl;
    (case_bool_decide as Hp; [intros Hrun; injection Hrun as <- <-; rewrite Hp; constructor|]);
    (destruct Hlen as [?|Hlen]; [done|]); [lia|].
  unfold mbind at 1, st_bind at 1.
  destruct (resolve_pass requests v s) as [s1 [[requests1 v1]|e]] eqn:Hpass.
  - intros Hrun. destruct (resolve_pass_down _ _ _ _ _ _ Hv Hpass) as (Hv1 & Hdown).
    assert (v1 = v ∨ length v1 < length v) as Hshrink by (rewrite Hv1, Hv; by apply ok_positions_shrink).
    apply (resolution_pass _ _ _ _ s1 requests1 v1); [done..|]. apply IH; [done| |done].
    destruct Hshrink; [by left|right; lia].
  - intros Hrun. injection Hrun as <- <-. by constructor.
Qed.
Lemma valid_positions_total i l s : ∃ l' v, valid_positions i l s = (s, Ok (l', v)).
Proof using Type.
  revert i s. induction l as [|r l IH]; intros i s; simpl; [by exists [], []|].
  unfold mbind, st_bind. destruct (is_valid r s) as [s1 [[r' b]|e]] eqn:Hr.
  - pose proof (is_valid_Ok _ _ _ _ _ Hr) as (-> & _). destruct (IH (S i) s) as (l' & v & ->). eauto.
  - exfalso. destruct r as [c|x]; [done|]. revert Hr. simpl.
    unfold sr_is_valid, sr_validate, mbind, st_bind, st_get. by destruct (auth_bool _).
Qed.
(** C5. The resolver of a submission always ends within its limit on the number
    of passes: the loop that has no limit ends, with the result (or the
    exception of a pass) that the code gives, so the error of an excessive
    number of loops is never raised. *)
Theorem resolver_terminates requests s :
  ∃ found v, valid_positions 0 requests s = (s, Ok (found, v)) ∧
  ∃ s' r, resolve (length found + 10) found v [] s = (s', r) ∧ resolution found v [] s s' r.
Proof using Type.
  destruct (valid_positions_total 0 requests s) as (found & v & Hfound). exists found, v. split; [done|].
  apply valid_positions_Ok in Hfound as (_ & -> & _).
  destruct (resolve (length found + 10) found (ok_positions 0 found) [] s) as [s' r] eqn:Hrun. exists s', r. split; [done|].
  apply (resolve_resolution (length found + 10)); [done| |done]. right. pose proof (ok_positions_length 0 found). lia.
Qed.
End Updates.
