(* ===== verification/UpdateAuthTheory.v ===== *)
(** * Authorisation of updates

    What is saved of a submission was authorised, for the object as it is stored
    and for the object that is submitted, by credentials of the submission. *)
From S2P Require Import Prelude PyStr Conf Net Models Text Rpki ScopeFilter Fields RpslObjects RpslParser Queries RoutePref Database DatabaseHandler StorageTheory JournalTheory Nrtm UpdateValidators UpdateRequests UpdateHandler TransactionTheory UpdatesTheory.

(** ** What a method returns *)

Definition returns {S A} (P : A → Prop) (m : st S A) : Prop := ∀ s s' a, m s = (s', Ok a) → P a.
Lemma returns_bind {S A B} (Q : A → Prop) (P : B → Prop) (m : st S A) (f : A → st S B) :
  returns Q m → (∀ a, Q a → returns P (f a)) → returns P (m ≫= f).
Proof. intros Hm Hf s s' b (s1 & a & Ha & Hb)%st_bind_Ok. eapply Hf; [by eapply Hm|done]. Qed.
Lemma returns_any {S A} (m : st S A) : returns (λ _, True) m.
Proof. done. Qed.
Lemma returns_ret {S A} (P : A → Prop) (a : A) : P a → returns P (mret (M := st S) a).
Proof. intros Ha s s' a' [= <- <-]. done. Qed.
Lemma returns_raise {S A} (P : A → Prop) e : returns P (st_raise (S := S) e).
Proof. by intros s s' a [=]. Qed.
(** By the structure of the method; what is called may return anything, unless
    the database [returns] says what. *)
Create HintDb returns.
Ltac returns_tac :=
  repeat match goal with
  | |- returns _ (_ ≫= _) =>
      first [eapply returns_bind; [solve [eauto with returns nocore]|intros ? ?]
            |apply (returns_bind (λ _, True)); [done|intros ? _]]
  | |- returns _ (mret _) => apply returns_ret
  | |- returns _ (st_raise _) => apply returns_raise
  | |- returns _ (match ?x with _ => _ end) => destruct x
  | |- returns _ (if ?b then _ else _) => destruct b
  | |- returns _ (let _ := _ in _) => cbv zeta
  end.

(** ** Objects and requests stay the same *)

Section Same.
Context `{IPyLib} `{Radix node_data} `{redis : Redis}.

Definition known_class (o : RPSLObject) : Prop := ∃ n, class_of n = Some (o_class o).
(** All that a change of password hashes leaves as it is. *)
Definition same_object (o o' : RPSLObject) : Prop :=
  o_class o' = o_class o ∧ o_metadata o' = o_metadata o
  ∧ ∀ k, k ≠ "auth" → o_parsed_data o' !! k = o_parsed_data o !! k.
#[export] Instance same_object_preorder : PreOrder same_object.
Proof.
  split; [by intros o|]. intros o1 o2 o3 (? & ? & H12) (? & ? & H23). split_and!; [congruence..|].
  intros k Hk. by rewrite H23, H12.
Qed.
Lemma class_of_elem n c : class_of n = Some c → (n, c) ∈ OBJECT_CLASS_MAPPING.
Proof.
  unfold class_of. generalize OBJECT_CLASS_MAPPING. intros l. induction l as [|[k c'] l IH]; simpl; [done|].
  case_decide as Hk; [intros [= ->]; subst; by left|right; auto].
Qed.
(** The hashes are no part of a key and refer to nothing. *)
Lemma auth_not_key n c : class_of n = Some c → "auth" ∉ pk_fields c ∧ "auth" ∉ (referring_strong_fields c).*1.
Proof.
  intros Hc%class_of_elem.
  assert (forallb (λ nc, negb (bool_decide ("auth" ∈ pk_fields nc.2))
                         && negb (bool_decide ("auth" ∈ (referring_strong_fields nc.2).*1))) OBJECT_CLASS_MAPPING = true) as Hall
    by (vm_compute; reflexivity).
  rewrite forallb_forall in Hall. specialize (Hall (n, c)). rewrite andb_true_iff, !negb_true_iff, !bool_decide_eq_false in Hall.
  by apply Hall, list_elem_of_In.
Qed.
Section SameObject.
Context (o o' : RPSLObject) (Hsame : same_object o o').
Lemma same_class_name : o_class_name o' = o_class_name o.
Proof using Hsame. destruct Hsame as (Hc & _). unfold o_class_name. by rewrite Hc. Qed.
Lemma same_source : source o' = source o.
Proof using Hsame. destruct Hsame as (_ & _ & Hd). unfold source. by rewrite Hd. Qed.
Lemma same_mnt_by : mnt_by o' = mnt_by o.
Proof using Hsame. destruct Hsame as (_ & _ & Hd). unfold mnt_by. by rewrite Hd. Qed.
Lemma same_pk : known_class o → pk o' = pk o.
Proof using Hsame.
  destruct Hsame as (Hc & _ & Hd). intros [n Hn]. apply auth_not_key in Hn as [Hpk _]. unfold pk. rewrite Hc.
  do 2 f_equal. apply list_fmap_ext. intros i f Hf%list_elem_of_lookup_2. rewrite Hd; [done|]. by intros ->.
Qed.
Lemma same_referred : known_class o → referred_strong_objects o' = referred_strong_objects o.
Proof using Hsame.
  destruct Hsame as (Hc & _ & Hd). intros [n Hn]. apply auth_not_key in Hn as [_ Href]. unfold referred_strong_objects.
  rewrite Hc. revert Href. generalize (referring_strong_fields (o_class o)). intros l.
  induction l as [|[f cls] l IH]; simpl; [done|]. intros Hnot. rewrite Hd; [|set_solver].
  destruct (o_parsed_data o !! f) as [[[]|[]|]|]; try (apply IH; set_solver); f_equal; apply IH; set_solver.
Qed.
Lemma same_known : known_class o → known_class o'.
Proof using Hsame. destruct Hsame as (Hc & _). unfold known_class. by rewrite Hc. Qed.
End SameObject.

(** What the handling of a request leaves as it is. *)
Definition same_change (c c' : ChangeRequest) : Prop :=
  cr_rpsl_obj_current c' = cr_rpsl_obj_current c ∧ cr_request_type c' = cr_request_type c
  ∧ cr_non_strict_mode c' = cr_non_strict_mode c
  ∧ option_Forall2 same_object (cr_rpsl_obj_new c) (cr_rpsl_obj_new c').
#[export] Instance same_change_preorder : PreOrder same_change.
Proof.
  split; [intros c; by repeat split|]. intros c1 c2 c3 (? & ? & ? & H12) (? & ? & ? & H23).
  split_and!; [congruence..|]. by transitivity (cr_rpsl_obj_new c2).
Qed.
Definition same_request (r r' : request) : Prop :=
  match r, r' with
  | Change c, Change c' => same_change c c'
  | Suspension _, Suspension _ => True
  | _, _ => False
  end.
#[export] Instance same_request_preorder : PreOrder same_request.
Proof.
  split; [by intros [c|x]; simpl|]. intros [c1|x1] [c2|x2] [c3|x3]; simpl; try done. by transitivity c2.
Qed.
End Same.

(** ** Methods that only read *)

Section Reads.
Context `{IPyLib} `{Radix node_data} `{redis : Redis}.
Notation U := (st submission).

(** What [m] returns depends on the database only, and nothing changes. *)
Definition reads {A} (m : U A) : Prop :=
  ∀ s, quiet s → (m s).1 = s ∧ ∀ s', sm_handler s' = sm_handler s → (m s').2 = (m s).2.
Lemma reads_ret {A} (a : A) : reads (mret a).
Proof. by intros s _. Qed.
Lemma reads_raise {A} e : reads (A := A) (st_raise e).
Proof. by intros s _. Qed.
Lemma reads_lift {A} (m : res A) : reads (st_lift m).
Proof. by intros s _. Qed.
Lemma reads_bind {A B} (m : U A) (f : A → U B) : reads m → (∀ a, reads (f a)) → reads (m ≫= f).
Proof.
  intros Hm Hf s Hq. destruct (Hm s Hq) as [E1 E2]. unfold mbind, st_bind.
  destruct (m s) as [s1 r] eqn:Es. simpl in E1. subst s1. split.
  - destruct r as [a|e]; [|done]. by apply Hf.
  - intros s' Hs'. assert (quiet s') as Hq' by (unfold quiet; by rewrite Hs').
    specialize (E2 s' Hs'). destruct (Hm s' Hq') as [E1' _]. destruct (m s') as [s1 r']. simpl in E1', E2. subst s1 r'.
    destruct r as [a|e]; [|done]. by apply (Hf a s Hq).
Qed.
Lemma reads_query cfg collate_lt uuid q : reads (query_objects cfg collate_lt uuid q).
Proof.
  intros s Hq. unfold query_objects, mbind, st_bind, st_lift. destruct q as [q|e]; [|done].
  rewrite (on_db_quiet _ _ _ (execute_query_quiet q _ Hq)). split; [done|]. intros s' Hs'.
  assert (quiet s') as Hq' by (unfold quiet; by rewrite Hs').
  rewrite (on_db_quiet _ _ _ (execute_query_quiet q _ Hq')). by rewrite Hs'.
Qed.
End Reads.
Ltac reads_tac :=
  repeat match goal with
  | |- reads (_ ≫= _) => apply reads_bind; [|intros]
  | |- reads (mret _) => apply reads_ret
  | |- reads (st_lift _) => apply reads_lift
  | |- reads (st_raise _) => apply reads_raise
  | |- reads (query_objects _ _ _ _) => apply reads_query
  | |- reads (match ?x with _ => _ end) => destruct x
  | |- reads (if ?b then _ else _) => destruct b
  | |- reads (let _ := _ in _) => cbv zeta
  end.
Section UpdateAuth.
Context `{IPyLib} `{Radix node_data} `{redis : Redis} (cfg : configuration).
Context (collate_lt : string → string → bool) (uuid : nat → string) (timestamp_text : Z → string).
Context (gpg_import_keys : string → list string * option string) (gpg_uids : string → list string).
Context (hasher_verify : string → string → string → option bool) (bcrypt_hash : string → string).
Context (tables : auth_tables).
Notation U := (st submission).
Notation parse text := (parse_stored cfg gpg_import_keys gpg_uids text).
Notation db s := (h_db (sm_handler s)).
Notation cr_validate := (cr_validate cfg collate_lt uuid gpg_import_keys gpg_uids hasher_verify bcrypt_hash tables).
Notation process_auth := (process_auth cfg collate_lt uuid gpg_import_keys gpg_uids hasher_verify bcrypt_hash tables).
Notation is_valid := (is_valid cfg hasher_verify).
Notation validate := (validate cfg collate_lt uuid gpg_import_keys gpg_uids hasher_verify bcrypt_hash tables).
Notation save := (save cfg collate_lt uuid timestamp_text gpg_import_keys gpg_uids).

(** ** Handling keeps the object of a request *)

Lemma clean_for_create_same o : same_object o (clean_for_create cfg o).1.
Proof using Type.
  unfold clean_for_create. destruct (negb _); [done|].
  destruct (parse_as_number _ _ _ _); [done|]. by destruct (_ || _).
Qed.
Lemma new_password_same o password : same_object o (force_single_new_password bcrypt_hash o password).
Proof using Type. split_and!; [done..|]. intros k Hk. unfold force_single_new_password. simpl. by rewrite lookup_insert_ne. Qed.
Lemma check_new_mntner_same v o src result :
  returns (S := submission) (λ x, same_object o x.1)
    (st_lift (check_new_mntner cfg hasher_verify bcrypt_hash tables v o src result)).
Proof using Type.
  intros s s' [o' result'] [_ Hr]%st_lift_Ok. simpl. revert Hr.
  unfold check_new_mntner. destruct (has_dummy_auth_value o).
  - destruct (av_passwords v) as [|password []]; intros Hr; injection Hr as <- _; try done. apply new_password_same.
  - simpl. destruct (mntner_verify _ _ _ _) as [scheme|]; [|done]. simpl.
    destruct (_mntner_matches_internal_auth _ _ _ _ _) as [i|]; [|done]. intros Hr. by injection Hr as <- _.
Qed.
Hint Resolve check_new_mntner_same : returns.
Lemma process_auth_same o current : returns (λ x, same_object o x.2) (process_auth o current).
Proof using Type.
  unfold UpdateValidators.process_auth. by returns_tac.
Qed.
Lemma same_change_new c o o' :
  cr_rpsl_obj_new c = Some o → same_object o o' → same_change c (cr_with_new o' c).
Proof using Type. intros Hc Ho. split_and!; try done. rewrite Hc. by constructor. Qed.
Lemma check_create_same c : same_change c (check_create cfg c).1.
Proof using Type.
  unfold check_create. destruct (cr_rpsl_obj_new c) as [o|] eqn:Eo; [|done].
  destruct (cr_request_type c) as [[]|] eqn:Et; try done. pose proof (clean_for_create_same o) as Hs.
  destruct (clean_for_create cfg o) as [o' ok]. simpl in Hs. by destruct ok; apply (same_change_new _ _ _ Eo) in Hs.
Qed.
(** Messages, statuses and results of checks are no part of it. *)
Ltac same_tac :=
  returns_tac; simpl; repeat case_match; simpl; try done; split_and!; simpl; reflexivity.
Notation same_result c := (λ x : ChangeRequest * bool, same_change c x.1).
Lemma check_rules_same c : returns (same_result c) (check_rules cfg uuid tables c).
Proof using Type. unfold check_rules. same_tac. Qed.
Lemma check_auth_same c :
  returns (same_result c) (_check_auth cfg collate_lt uuid gpg_import_keys gpg_uids hasher_verify bcrypt_hash tables c).
Proof using Type.
  unfold _check_auth, with_object. destruct (cr_rpsl_obj_new c) as [o|] eqn:Eo; [|apply returns_raise].
  cbv beta. eapply returns_bind; [apply process_auth_same|]. intros [result o'] Ho. simpl in Ho.
  apply returns_ret. apply (same_change_new _ _ _ Eo) in Ho. by destruct (result_valid result).
Qed.
Lemma apply_result_same status result c : same_change c (apply_result status result c).1.
Proof using Type. unfold apply_result. destruct (result_valid result); same_tac. Qed.
Lemma check_references_same c : returns (same_result c) (_check_references cfg collate_lt uuid c).
Proof using Type. unfold _check_references, with_object. returns_tac; try apply apply_result_same; same_tac. Qed.
Lemma check_protected_same c : returns (same_result c) (_check_protected_names cfg collate_lt uuid c).
Proof using Type. unfold _check_protected_names. returns_tac; try apply apply_result_same; same_tac. Qed.
Lemma check_roa_same c : returns (same_result c) (_check_conflicting_roa cfg uuid c).
Proof using Type. unfold _check_conflicting_roa, with_object. same_tac. Qed.
Lemma check_scope_same c : returns (same_result c) (_check_scopefilter cfg c).
Proof using Type. unfold _check_scopefilter. same_tac. Qed.
Lemma cr_validate_same c : returns (same_result c) (cr_validate c).
Proof using Type.
  unfold UpdateRequests.cr_validate. pose proof (check_create_same c) as Hc.
  destruct (check_create cfg c) as [c1 created]. simpl in Hc. destruct (negb created); [by apply returns_ret|].
  eapply returns_bind; [apply check_rules_same|]. intros [c2 rules] H2. destruct (negb rules); [apply returns_ret; by etrans|].
  eapply returns_bind; [apply check_auth_same|]. intros [c3 auth] H3. destruct (negb auth); [apply returns_ret; by do 2 (etrans; [done|])|].
  eapply returns_bind; [apply check_references_same|]. intros [c4 b4] H4.
  eapply returns_bind; [apply check_protected_same|]. intros [c5 b5] H5.
  eapply returns_bind; [apply check_roa_same|]. intros [c6 b6] H6.
  eapply returns_bind; [apply check_scope_same|]. intros [c7 b7] H7. apply returns_ret. simpl in *.
  by repeat (etrans; [done|]).
Qed.
Lemma validate_same r : returns (same_request r) (validate r).
Proof using Type.
  destruct r as [c|x]; simpl; [|by returns_tac].
  eapply returns_bind; [apply cr_validate_same|]. intros [c' b] Hc. by apply returns_ret.
Qed.
Lemma is_valid_same r : returns (λ x, same_request r x.1) (is_valid r).
Proof using Type. destruct r as [c|x]; simpl; by returns_tac. Qed.
Lemma save_same r : returns (same_request r) (save r).
Proof using Type.
  destruct r as [c|x]; simpl; [|by returns_tac].
  apply (returns_bind (same_change c)); [|intros c' Hc; by apply returns_ret].
  unfold cr_save. by returns_tac.
Qed.

(** ** Credentials *)

(** A credential of the submission is one of a maintainer that is named: of a
    user who is logged in, an API key, or an auth method of the stored object. *)
Inductive passes (d : database) (v : AuthValidator) (o : RPSLObject) (src : string) (names : list string)
  : AuthMethod → Prop :=
| passes_internal name u m :
    name ∈ names → av_internal_authenticated_user v = Some u → m ∈ mntners tables u →
    (pk o = name → m ∈ mntners_user_management tables u) →
    am_rpsl_mntner_pk m = name → am_rpsl_mntner_source m = src →
    passes d v o src names MNTNER_INTERNAL_AUTH
| passes_api_key name t m :
    name ∈ names → is_mntner o = false → t ∈ at_tokens tables → tk_token t ∈ av_api_keys v →
    valid_for t (av_origin v) (av_remote_ip v) = Ok true → mntner_of_token tables t = Some m →
    am_rpsl_mntner_pk m = name → am_rpsl_mntner_source m = src →
    passes d v o src names MNTNER_API_KEY
| passes_mntner m scheme :
    is_named cfg gpg_import_keys gpg_uids d src names m →
    mntner_verify cfg hasher_verify v m = Ok (Some scheme) → scheme ≠ "" →
    passes d v o src names (scheme_method scheme).
Definition overrides (v : AuthValidator) : bool := auth_bool (check_override cfg hasher_verify v).
Lemma credentials_passes d v v' o src names method :
  credentials v' = credentials v → passes d v o src names method → passes d v' o src names method.
Proof using Type.
  intros Hv. injection Hv as H1 H2 H3 H4 H5 H6 H7. intros [name u m|name t m|m scheme].
  - apply (passes_internal _ _ _ _ _ name u m); congruence || done.
  - apply (passes_api_key _ _ _ _ _ name t m); congruence || done.
  - apply (passes_mntner _ _ _ _ _ m); unfold mntner_verify in *; congruence || done.
Qed.
Lemma credentials_overrides v v' : credentials v' = credentials v → overrides v' = overrides v.
Proof using Type. intros Hv. injection Hv as _ H2 _ _ _ _ H7. unfold overrides, check_override. by rewrite H2, H7. Qed.
Lemma same_passes d v o o' src names method :
  known_class o → same_object o o' → passes d v o src names method → passes d v o' src names method.
Proof using Type.
  intros Hk Ho. pose proof (same_pk _ _ Ho Hk) as Hpk. pose proof (same_class_name _ _ Ho) as Hn.
  intros [name u m|name t m|m scheme].
  - apply (passes_internal _ _ _ _ _ name u m); try done. by rewrite Hpk.
  - apply (passes_api_key _ _ _ _ _ name t m); try done. unfold is_mntner in *. by rewrite Hn.
  - by apply (passes_mntner _ _ _ _ _ m).
Qed.

Lemma management_mntners u m : m ∈ mntners_user_management tables u → m ∈ mntners tables u.
Proof using Type.
  unfold mntners_user_management, mntners, permitted_mntners. rewrite !list_elem_of_In, !filter_In.
  rewrite !andb_true_iff, !existsb_exists. intros (? & ? & a & ? & Ha). split_and!; try done. exists a. split; [done|].
  apply andb_true_iff in Ha as [Ha _]. by rewrite Ha.
Qed.
Lemma internal_match_Ok v o name src m :
  source o = Ok src → _mntner_matches_internal_auth tables v o name src = Ok (Some m) →
  ∃ u, av_internal_authenticated_user v = Some u ∧ m ∈ mntners tables u
       ∧ (pk o = name → m ∈ mntners_user_management tables u)
       ∧ am_rpsl_mntner_pk m = name ∧ am_rpsl_mntner_source m = src.
Proof using Type.
  intros Hsrc. unfold _mntner_matches_internal_auth. rewrite Hsrc.
  destruct (av_internal_authenticated_user v) as [u|]; [|done]. simpl. intros Hm. exists u. split; [done|].
  destruct (String.eqb_spec (pk o) name) as [Hpk|Hpk]; simpl in Hm; rewrite ?String.eqb_refl in Hm;
    injection Hm as Hm; apply find_some in Hm as [Hin Hk];
    apply andb_true_iff in Hk as [<-%String.eqb_eq <-%String.eqb_eq]; apply list_elem_of_In in Hin.
  - split_and!; try done. by apply management_mntners.
  - by split_and!.
Qed.
Lemma first_valid_token_Ok v l t :
  first_valid_token v l = Ok (Some t) → t ∈ l ∧ valid_for t (av_origin v) (av_remote_ip v) = Ok true.
Proof using Type.
  induction l as [|t' l IH]; simpl; [done|]. destruct (valid_for t' _ _) as [[]|] eqn:Ev; simpl; [| |done].
  - intros Ht. injection Ht as <-. split; [by left|done].
  - intros Ht. apply IH in Ht as [? ?]. split; [by right|done].
Qed.
Lemma api_key_Ok v o name src t :
  _api_key_match_for_mntner tables v o name src = Ok (Some t) →
  is_mntner o = false ∧ t ∈ at_tokens tables ∧ tk_token t ∈ av_api_keys v
  ∧ valid_for t (av_origin v) (av_remote_ip v) = Ok true
  ∧ ∃ m, mntner_of_token tables t = Some m ∧ am_rpsl_mntner_pk m = name ∧ am_rpsl_mntner_source m = src.
Proof using Type.
  unfold _api_key_match_for_mntner. destruct (av_api_keys v) as [|k0 ks] eqn:Ekeys; [done|].
  destruct (is_mntner o); [done|]. intros [Hin Hvalid]%first_valid_token_Ok.
  apply filter_elem in Hin as [Hin Hp]. apply andb_true_iff in Hp as [Hm Ht%bool_decide_eq_true].
  destruct (mntner_of_token tables t) as [m|]; [|done]. apply andb_true_iff in Hm as [Hk%String.eqb_eq Hs%String.eqb_eq].
  split_and!; try done. by exists m.
Qed.
(** A name that is accepted without a credential. *)
Definition pre_approves (v : AuthValidator) (names : list string) : Prop :=
  ∃ name, name ∈ names ∧ name ∈ av_pre_approved v.
Lemma match_names_Ok d v o src objs names r :
  source o = Ok src → match_names tables v o src objs names = Ok (Some r) →
  pre_approves v names ∨ passes d v o src names (mc_auth_method r).
Proof using Type.
  intros Hsrc. assert (∀ names', names' ⊆ names → match_names tables v o src objs names' = Ok (Some r) →
    pre_approves v names ∨ passes d v o src names (mc_auth_method r)) as Hall; [|by apply Hall].
  induction names' as [|name names' IH]; simpl; [done|]. intros Hsub.
  assert (name ∈ names) as Hname by (apply Hsub; by left).
  case_bool_decide; [by intros _; left; exists name|].
  destruct (_mntner_matches_internal_auth _ _ _ _ _) as [[m|]|] eqn:Ei; simpl; [| |done].
  { intros Hr. injection Hr as <-. right. destruct (internal_match_Ok _ _ _ _ _ Hsrc Ei) as (u & ? & ? & ? & ? & ?).
    by apply (passes_internal _ _ _ _ _ name u m). }
  destruct (_api_key_match_for_mntner _ _ _ _ _) as [[t|]|] eqn:Ek; simpl; [| |done].
  { intros Hr. injection Hr as <-. right. apply api_key_Ok in Ek as (? & ? & ? & ? & m & ? & ? & ?).
    by apply (passes_api_key _ _ _ _ _ name t m). }
  apply IH. intros x Hx. apply Hsub. by right.
Qed.
Lemma match_objects_Ok d v o src names all objs r :
  Forall (is_named cfg gpg_import_keys gpg_uids d src names) objs →
  match_objects cfg hasher_verify v all objs = Ok r → mc_valid r = true → passes d v o src names (mc_auth_method r).
Proof using Type.
  induction 1 as [|m objs Hm Hobjs IH]; simpl; [intros Hr; by injection Hr as <-|].
  destruct (mntner_verify _ _ _ _) as [[scheme|]|] eqn:Ev; simpl; [|by apply IH|done].
  destruct (String.eqb_spec scheme "") as [_|Hs]; [by apply IH|].
  intros Hr _. injection Hr as <-. by apply (passes_mntner _ _ _ _ _ m).
Qed.
Notation check_mntners := (_check_mntners cfg collate_lt uuid gpg_import_keys gpg_uids hasher_verify tables).
Lemma check_mntners_Ok o src names s s' r :
  quiet s → cached_in cfg gpg_import_keys gpg_uids (db s) (sm_auth s) → source o = Ok src →
  check_mntners o names src s = (s', Ok r) → mc_valid r = true →
  pre_approves (sm_auth s) names ∨ passes (db s) (sm_auth s) o src names (mc_auth_method r).
Proof using Type.
  intros Hq Hc Hsrc (s1 & objs & Hobjs & Hrun)%st_bind_Ok Hvalid.
  destruct (resolve_mntners_Ok _ _ _ _ _ _ _ _ _ _ Hq Hobjs) as [Hcalm Hnamed]. specialize (Hnamed Hc).
  apply st_bind_Ok in Hrun as (s2 & s3 & Hget & Hrun). injection Hget as <- <-.
  apply st_bind_Ok in Hrun as (s2 & named & [-> Hn]%st_lift_Ok & Hrun).
  destruct (Hcalm Hq) as (E1 & _ & Ecred & Epre & _).
  assert (pre_approves (sm_auth s1) names ∨ passes (db s) (sm_auth s1) o src names (mc_auth_method r)) as Hcases.
  { destruct named as [r'|].
    - injection Hrun as _ <-. by eapply match_names_Ok.
    - apply st_lift_Ok in Hrun as [_ Hr]. right. by eapply match_objects_Ok. }
  destruct Hcases as [(name & ? & Hp)|Hp]; [left; exists name; by rewrite <- Epre|right].
  by apply (credentials_passes _ (sm_auth s1)).
Qed.

Notation find_related := (_find_related_mntners cfg collate_lt uuid).
Lemma find_related_reads o : reads (find_related o).
Proof using Type. unfold _find_related_mntners, _find_related_object_route, _find_related_object_set. reads_tac. Qed.

(** ** One object *)

Lemma with_messages_valid errors infos r :
  result_valid (with_messages errors infos r) = true → errors = [] ∧ result_valid r = true.
Proof using Type.
  unfold result_valid. simpl. destruct (oset_update (error_messages r) errors) as [|] eqn:E; [|done]. intros _.
  assert (∀ x, x ∉ error_messages r ∧ x ∉ errors) as Hno.
  { intros x. split; intros Hx; eapply (not_elem_of_nil x); rewrite <- E; apply oset_update_elem; auto. }
  split; [destruct errors as [|x l]; [done|]|destruct (error_messages r) as [|x l]; [done|]];
    destruct (Hno x) as [H1 H2]; exfalso; [apply H2|apply H1]; by left.
Qed.
Lemma with_notify_valid l r : result_valid (with_notify l r) = result_valid r.
Proof using Type. done. Qed.
Lemma with_details_valid v r result : result_valid (with_auth_details v r result) = result_valid result.
Proof using Type. done. Qed.
Lemma failure_if_valid r msg : failure_if r msg = [] → mc_valid r = true.
Proof using Type. unfold failure_if. by destruct (mc_valid r). Qed.
(** The names are accepted for the object. *)
Definition accepted (d : database) (v : AuthValidator) (o : RPSLObject) (src : string) (names : list string) : Prop :=
  pre_approves v names ∨ ∃ method, passes d v o src names method.
Definition accepted_current (s : submission) (o : RPSLObject) (src : string) (current : option RPSLObject) : Prop :=
  match current with
  | Some cur => ∃ names, mnt_by cur = Ok names ∧ accepted (db s) (sm_auth s) o src names
  | None =>
      is_mntner o = false ∧
      ∃ related, (find_related o s).2 = Ok (related, []) ∧
        match related with Some (_, _, names) => accepted (db s) (sm_auth s) o src names | None => True end
  end.
(** Checks after the first one are made in a state that differs in the caches only. *)
Lemma accepted_calm s s' o src names :
  quiet s → calm cfg gpg_import_keys gpg_uids s s' → accepted (db s') (sm_auth s') o src names →
  accepted (db s) (sm_auth s) o src names.
Proof using Type.
  intros Hq Hcalm. destruct (Hcalm Hq) as (E1 & _ & Ecred & Epre & _). rewrite E1.
  intros [(name & ? & Hp)|[method Hp]]; [left; exists name; by rewrite <- Epre|right; exists method].
  by apply (credentials_passes _ (sm_auth s')).
Qed.
Lemma check_mntners_accepted o src names s s' r :
  quiet s → cached_in cfg gpg_import_keys gpg_uids (db s) (sm_auth s) → source o = Ok src →
  check_mntners o names src s = (s', Ok r) → mc_valid r = true → accepted (db s) (sm_auth s) o src names.
Proof using Type.
  intros Hq Hc Hsrc Hr Hv. destruct (check_mntners_Ok _ _ _ _ _ _ Hq Hc Hsrc Hr Hv) as [?|?]; [by left|right; eauto].
Qed.
Lemma calm_ready s s' :
  calm cfg gpg_import_keys gpg_uids s s' → quiet s → cached_in cfg gpg_import_keys gpg_uids (db s) (sm_auth s) →
  quiet s' ∧ cached_in cfg gpg_import_keys gpg_uids (db s') (sm_auth s') ∧ sm_handler s' = sm_handler s.
Proof using Type.
  intros Hcalm Hq Hc. destruct (Hcalm Hq) as (E1 & _ & _ & _ & _ & _ & E7 & _). unfold quiet. rewrite E1. auto.
Qed.
Lemma check_current_Ok o cur src result s s' r result' :
  quiet s → cached_in cfg gpg_import_keys gpg_uids (db s) (sm_auth s) → source o = Ok src →
  check_current cfg collate_lt uuid gpg_import_keys gpg_uids hasher_verify tables o cur src result s = (s', Ok (r, result')) →
  result_valid result' = true →
  result_valid result = true ∧ ∃ names, mnt_by cur = Ok names ∧ accepted (db s) (sm_auth s) o src names.
Proof using Type.
  intros Hq Hc Hsrc (s1 & names & [-> Hnames]%st_lift_Ok & Hrun)%st_bind_Ok Hvalid.
  apply st_bind_Ok in Hrun as (s1 & r1 & Hr & Hrun). injection Hrun as <- <- <-.
  rewrite ?with_details_valid, ?with_notify_valid in Hvalid; apply with_messages_valid in Hvalid as [Hf%failure_if_valid Hvalid]. split; [done|]. exists names. split; [done|].
  by eapply check_mntners_accepted.
Qed.
Lemma check_related_Ok o new_result src result s s' r result' :
  quiet s → cached_in cfg gpg_import_keys gpg_uids (db s) (sm_auth s) → source o = Ok src →
  check_related cfg collate_lt uuid gpg_import_keys gpg_uids hasher_verify tables o new_result src result s
    = (s', Ok (r, result')) →
  result_valid result' = true →
  result_valid result = true ∧ ∃ related, (find_related o s).2 = Ok (related, []) ∧
    match related with Some (_, _, names) => accepted (db s) (sm_auth s) o src names | None => True end.
Proof using Type.
  intros Hq Hc Hsrc (s1 & [related errs] & Hrel & Hrun)%st_bind_Ok Hvalid.
  destruct (find_related_reads o s Hq) as [E1 _]. rewrite Hrel in E1. simpl in E1. subst s1. rewrite Hrel. simpl.
  destruct related as [[[cls related_pk] names]|].
  - apply st_bind_Ok in Hrun as (s1 & r1 & Hr & Hrun). injection Hrun as <- <- <-.
    destruct (mc_valid r1) eqn:Ev.
    + rewrite ?with_details_valid, ?with_notify_valid in Hvalid; apply with_messages_valid in Hvalid as [-> Hvalid]. split; [done|]. exists (Some (cls, related_pk, names)).
      split; [done|]. by eapply check_mntners_accepted.
    + rewrite ?with_details_valid, ?with_notify_valid in Hvalid; by apply with_messages_valid in Hvalid as [? _].
  - injection Hrun as <- <- <-. rewrite ?with_details_valid, ?with_notify_valid in Hvalid; apply with_messages_valid in Hvalid as [-> Hvalid]. split; [done|]. by exists None.
Qed.
Lemma process_auth_Ok o current s s' result o' :
  quiet s → cached_in cfg gpg_import_keys gpg_uids (db s) (sm_auth s) →
  process_auth o current s = (s', Ok (result, o')) → result_valid result = true →
  ∃ src, source o = Ok src ∧
    (overrides (sm_auth s) = true
     ∨ (∃ names, mnt_by o = Ok names ∧ accepted (db s) (sm_auth s) o src names)
       ∧ accepted_current s o src current ∧ (current = None → o' = o)).
Proof using Type.
  intros Hq Hc (s1 & src & [-> Hsrc]%st_lift_Ok & Hrun)%st_bind_Ok Hvalid. exists src. split; [done|].
  apply st_bind_Ok in Hrun as (s1 & s2 & Hget & Hrun). injection Hget as <- <-. cbv zeta in Hrun.
  unfold overrides. destruct (auth_bool _); [by left|right].
  apply st_bind_Ok in Hrun as (s1 & names & [-> Hnames]%st_lift_Ok & Hrun).
  apply st_bind_Ok in Hrun as (s1 & new_result & Hnew & Hrun).
  pose proof (check_mntners_calm _ _ _ _ _ _ _ _ _ _ _ _ _ Hnew) as Hcalm.
  destruct (calm_ready _ _ Hcalm Hq Hc) as (Hq1 & Hc1 & E1).
  apply st_bind_Ok in Hrun as (s2 & [checked result1] & Hchecked & Hrun).
  apply st_bind_Ok in Hrun as (s3 & s4 & Hget & Hrun). injection Hget as <- <-.
  assert (result_valid result1 = true ∧ (is_mntner o = true → current ≠ None) ∧ (current = None → o' = o)) as (Hvalid1 & Hm & Ho').
  { destruct (is_mntner o).
    - destruct current as [cur|]; [|injection Hrun as _ <- _; rewrite ?with_details_valid, ?with_notify_valid in Hvalid; by apply with_messages_valid in Hvalid as [? _]].
      apply st_bind_Ok in Hrun as (s3 & [o1 result2] & [-> Hcheck]%st_lift_Ok & Hrun). injection Hrun as _ <- <-.
      split_and!; try done. revert Hcheck. unfold check_new_mntner.
      destruct (has_dummy_auth_value o).
      + destruct (av_passwords _) as [|password []]; intros Hr; injection Hr as <- <-;
          rewrite ?with_details_valid, ?with_notify_valid in Hvalid; by apply with_messages_valid in Hvalid as [? ?].
      + destruct (mntner_verify _ _ _ _) as [scheme|]; [|done]. simpl.
        destruct (_mntner_matches_internal_auth _ _ _ _ _) as [i|]; [|done]. intros Hr. injection Hr as <- <-.
        destruct scheme as [[|]|], i; try done; rewrite ?with_details_valid, ?with_notify_valid in Hvalid; by apply with_messages_valid in Hvalid as [? ?].
    - injection Hrun as _ <- <-. by split_and!. }
  assert (result_valid (with_messages (failure_if new_result (failure_message names o None)) [] result_none) = true
          ∧ accepted_current s1 o src current) as [Hnew_valid Hcur].
  { destruct current as [cur|].
    - apply st_bind_Ok in Hchecked as (s3 & [r result2] & Hr & Hchecked). injection Hchecked as <- <- <-.
      destruct (check_current_Ok _ _ _ _ _ _ _ _ Hq1 Hc1 Hsrc Hr Hvalid1) as [? ?]. by split.
    - destruct (check_related_Ok _ _ _ _ _ _ _ _ Hq1 Hc1 Hsrc Hchecked Hvalid1) as [? ?]. split; [done|].
      split; [|done]. destruct (is_mntner o); [by destruct Hm|done]. }
  apply with_messages_valid in Hnew_valid as [Hf%failure_if_valid _]. split; [|split; [|done]].
  { exists names. split; [done|]. by eapply check_mntners_accepted. }
  destruct current as [cur|]; [destruct Hcur as (names' & ? & ?)|destruct Hcur as (Hno & related & Hrel & Hacc)].
  - exists names'. split; [done|]. by eapply accepted_calm.
  - split; [done|]. exists related. split; [by rewrite <- Hrel; symmetry; apply (find_related_reads o s Hq)|].
    destruct related as [[[? ?] ?]|]; [|done]. by eapply accepted_calm.
Qed.
End UpdateAuth.
