(* ===== verification/UpdatePassTheory.v ===== *)
(** * The passes of the resolver

    What is saved was accepted in one last pass, in which all the requests that
    are saved were validated against each other. *)
From S2P Require Import Prelude PyStr Conf Net Models Text Rpki ScopeFilter Fields RpslObjects RpslParser Queries RoutePref Database DatabaseHandler StorageTheory JournalTheory Nrtm UpdateValidators UpdateRequests UpdateHandler UpdatesTheory UpdateAuthTheory.

Lemma Forall2_both {A B} (P Q : A → B → Prop) l l' :
  Forall2 P l l' → Forall2 Q l l' → Forall2 (λ x y, P x y ∧ Q x y) l l'.
Proof. induction 1; inversion 1; subst; constructor; auto. Qed.
Section References.
Context `{IPyLib} `{Radix node_data} `{redis : Redis}.

(** The keys of the requests that a pass looks at. *)
Lemma at_positions_elem i v l r : r ∈ at_positions i v l ↔ ∃ k, l !! k = Some r ∧ i + k ∈ v.
Proof.
  revert i. induction l as [|x l IH]; intros i; simpl.
  { split; [by intros ?%elem_of_nil|]. by intros (k & Hk & _). }
  assert (r ∈ at_positions (S i) v l ↔ ∃ k, l !! k = Some r ∧ i + S k ∈ v) as Hrest.
  { rewrite IH. by repeat (f_equiv; intros ?); rewrite Nat.add_succ_r. }
  case_bool_decide as Hi; rewrite ?elem_of_cons, Hrest.
  - split; [intros [->|(k & ? & ?)]; [exists 0; by rewrite Nat.add_0_r|by exists (S k)]|].
    intros ([|k] & Hk & ?); [left; by injection Hk|right; by exists k].
  - split; [intros (k & ? & ?); by exists (S k)|].
    intros ([|k] & Hk & Hin); [by rewrite Nat.add_0_r in Hin|by exists k].
Qed.
(** The request is a change of the object with this key. *)
Definition changes_key (p : option UpdateRequestType → bool) (k : reference) (r : request) : Prop :=
  match r with
  | Change c => p (cr_request_type c) = true ∧ ∃ o, cr_rpsl_obj_new c = Some o ∧ object_reference o = Ok k
  | Suspension _ => False
  end.
Lemma references_of_elem p l ks k : references_of p l = Ok ks → k ∈ ks ↔ ∃ r, r ∈ l ∧ changes_key p k r.
Proof.
  revert ks. induction l as [|[c|x] l IH]; intros ks; simpl.
  - intros Hks. injection Hks as <-. split; [by intros ?%elem_of_nil|]. by intros (r & Hr%elem_of_nil & _).
  - destruct (cr_rpsl_obj_new c) as [o|] eqn:Eo; [|done]. destruct (p (cr_request_type c)) eqn:Ep.
    + destruct (object_reference o) as [k'|] eqn:Ek; [|done]. simpl.
      destruct (references_of p l) as [ks'|] eqn:Els; [|done]. intros Hks. injection Hks as <-.
      rewrite elem_of_cons, (IH ks' eq_refl). split.
      * intros [->|(r & ? & ?)]; [|exists r; split; [by right|done]].
        exists (Change c). split; [by left|]. split; [done|]. by exists o.
      * intros (r & Hr & Hk). apply elem_of_cons in Hr as [->|Hr]; [left|right; by exists r].
        destruct Hk as (_ & o' & Eo' & Ek'). congruence.
    + intros Hks. rewrite (IH ks Hks). split; [intros (r & ? & ?); exists r; split; [by right|done]|].
      intros (r & Hr & Hk). apply elem_of_cons in Hr as [->|Hr]; [destruct Hk as [Hp _]; congruence|by exists r].
  - destruct (sr_rpsl_obj_new x) as [o0|]; [|done]. intros Hks. rewrite (IH ks Hks).
    split; [intros (r & ? & ?); exists r; split; [by right|done]|].
    intros (r & Hr & Hk). apply elem_of_cons in Hr as [->|Hr]; [done|by exists r].
Qed.
Definition known_request (r : request) : Prop :=
  match r with Change c => ∀ o, cr_rpsl_obj_new c = Some o → known_class o | Suspension _ => True end.
(** The same request, which is valid only if it was before. *)
Definition continues (r r' : request) : Prop :=
  same_request r r' ∧ (request_ok r' = true → request_ok r = true).
#[export] Instance continues_preorder : PreOrder continues.
Proof. split; [by split|]. intros r1 r2 r3 [? ?] [? ?]. split; [by transitivity r2|auto]. Qed.
Lemma same_request_known r r' : same_request r r' → known_request r → known_request r'.
Proof.
  destruct r as [c|x], r' as [c'|x']; simpl; try done. intros (_ & _ & _ & Hnew) Hk o Ho. rewrite Ho in Hnew.
  inversion Hnew as [o0 ? Hsame E|]; subst. by eapply same_known, Hk.
Qed.
Lemma same_reference o o' : known_class o → same_object o o' → object_reference o' = object_reference o.
Proof.
  intros Hk Ho. unfold object_reference. by rewrite (same_source _ _ Ho), (same_class_name _ _ Ho), (same_pk _ _ Ho Hk).
Qed.
Lemma same_changes_key p k r r' : same_request r r' → known_request r → changes_key p k r' → changes_key p k r.
Proof.
  destruct r as [c|x], r' as [c'|x']; simpl; try done. intros (_ & -> & _ & Hnew) Hk (Hp & o & Ho & Hkey).
  split; [done|]. rewrite Ho in Hnew. inversion Hnew as [o0 ? Hsame E|]; subst. exists o0. split; [done|].
  rewrite <- Hkey. symmetry. apply same_reference; [by apply Hk|done].
Qed.
Lemma references_shrink p l l' v v' ks ks' :
  Forall2 same_request l l' → Forall known_request l → (∀ i, i ∈ v' → i ∈ v) →
  references_of p (at_positions 0 v l) = Ok ks → references_of p (at_positions 0 v' l') = Ok ks' →
  ∀ k, k ∈ ks' → k ∈ ks.
Proof.
  intros Hsame Hknown Hv Hks Hks' k. rewrite (references_of_elem _ _ _ _ Hks), (references_of_elem _ _ _ _ Hks').
  intros (r' & (i & Hr' & Hi)%at_positions_elem & Hk).
  destruct (Forall2_lookup_r _ _ _ _ _ Hsame Hr') as (r & Hr & Hrr). exists r. split.
  - apply at_positions_elem. exists i. auto.
  - eapply same_changes_key; [done| |done]. by eapply Forall_lookup_1.
Qed.
End References.

Section Pass.
Context `{IPyLib} `{Radix node_data} `{redis : Redis} (cfg : configuration).
Context (collate_lt : string → string → bool) (uuid : nat → string) (timestamp_text : Z → string).
Context (gpg_import_keys : string → list string * option string) (gpg_uids : string → list string).
Context (hasher_verify : string → string → string → option bool) (bcrypt_hash : string → string).
Context (tables : auth_tables).
Notation U := (st submission).
Notation parse text := (parse_stored cfg gpg_import_keys gpg_uids text).
Notation db s := (h_db (sm_handler s)).
Notation calm := (calm cfg gpg_import_keys gpg_uids).
Notation cr_validate := (cr_validate cfg collate_lt uuid gpg_import_keys gpg_uids hasher_verify bcrypt_hash tables).
Notation check_auth := (_check_auth cfg collate_lt uuid gpg_import_keys gpg_uids hasher_verify bcrypt_hash tables).
Notation is_valid := (is_valid cfg hasher_verify).
Notation validate := (validate cfg collate_lt uuid gpg_import_keys gpg_uids hasher_verify bcrypt_hash tables).
Notation resolve_pass := (resolve_pass cfg collate_lt uuid gpg_import_keys gpg_uids hasher_verify bcrypt_hash tables).
Notation resolve := (resolve cfg collate_lt uuid gpg_import_keys gpg_uids hasher_verify bcrypt_hash tables).
Notation resolution := (resolution cfg collate_lt uuid gpg_import_keys gpg_uids hasher_verify bcrypt_hash tables).

(** ** The checks of a change *)

(** A check keeps the object; a request that failed before does not pass. *)
Definition checked (c : ChangeRequest) (x : ChangeRequest * bool) : Prop :=
  cr_rpsl_obj_new x.1 = cr_rpsl_obj_new c ∧ cr_auth_result x.1 = cr_auth_result c
  ∧ (cr_is_valid x.1 = true → cr_is_valid c = true).
Lemma fail_first_checked status errors b c :
  status ∉ [SAVED; PROCESSING] → checked c (cr_fail_first status errors c, b) ∧ cr_is_valid (cr_fail_first status errors c) = false.
Proof using Type.
  intros Hs. assert (cr_is_valid (cr_fail_first status errors c) = false) as Hinv.
  { unfold cr_is_valid, cr_fail_first, cr_fail, cr_with. simpl. destruct (cr_is_valid c) eqn:Ec.
    - by apply bool_decide_eq_false.
    - exact Ec. }
  split; [|done]. split_and!; [done..|]. simpl. by rewrite Hinv.
Qed.
Lemma apply_result_checked status result c :
  status ∉ [SAVED; PROCESSING] →
  checked c (apply_result status result c)
  ∧ (cr_is_valid (apply_result status result c).1 = true → (apply_result status result c).2 = true).
Proof using Type.
  intros Hs. unfold apply_result. destruct (result_valid result); [done|].
  destruct (fail_first_checked status (error_messages result) false (cr_report [] (info_messages result) c) Hs) as [Hc Hinv].
  split; [|simpl; by rewrite Hinv]. exact Hc.
Qed.
Lemma references_checked c :
  returns (λ x, checked c x ∧ (cr_is_valid x.1 = true → x.2 = true)) (_check_references cfg collate_lt uuid c).
Proof using Type.
  unfold _check_references, with_object. returns_tac; try done; apply apply_result_checked; by apply (bool_decide_eq_false_1 _).
Qed.
Lemma protected_checked c : returns (checked c) (_check_protected_names cfg collate_lt uuid c).
Proof using Type.
  unfold _check_protected_names. returns_tac; try done; apply apply_result_checked; by apply (bool_decide_eq_false_1 _).
Qed.
Lemma roa_checked c : returns (checked c) (_check_conflicting_roa cfg uuid c).
Proof using Type.
  unfold _check_conflicting_roa, with_object. returns_tac; try done.
  case_bool_decide; [|done]. apply (fail_first_checked ERROR_ROA _ false). by apply (bool_decide_eq_false_1 _).
Qed.
Lemma scope_checked c : returns (checked c) (_check_scopefilter cfg c).
Proof using Type.
  unfold _check_scopefilter. returns_tac; try done. apply fail_first_checked. by apply (bool_decide_eq_false_1 _).
Qed.
Lemma rules_checked c :
  returns (λ x, cr_rpsl_obj_new x.1 = cr_rpsl_obj_new c ∧ (cr_is_valid x.1 = true → x.2 = true)) (check_rules cfg uuid tables c).
Proof using Type.
  assert (∀ n, n = cr_rpsl_obj_new c → returns (λ x, cr_rpsl_obj_new x.1 = n ∧ (cr_is_valid x.1 = true → x.2 = true))
                                         (check_rules cfg uuid tables c)) as Hall; [|by apply Hall].
  intros n Hn. unfold check_rules. destruct (cr_rpsl_obj_new c) eqn:En; [|apply returns_ret; split; [simpl; congruence|done]]. 
  destruct (cr_request_type c) as [[]|]; try (apply returns_ret; split; [simpl; congruence|done]);
    (apply (returns_bind (λ _, True)); [done|]); intros a _; apply returns_ret; destruct (result_valid a); (split; [simpl; congruence|done]).
Qed.
(** A change that is valid has passed every check, in this order. *)
Lemma cr_validate_Ok c s s' c' b :
  cr_validate c s = (s', Ok (c', b)) → cr_is_valid c' = true →
  ∃ c1 c2 s1 c3 s2 c4 s3,
    check_create cfg c = (c1, true) ∧ cr_rpsl_obj_new c2 = cr_rpsl_obj_new c1 ∧ same_change c c2
    ∧ calm s s1 ∧ check_auth c2 s1 = (s2, Ok (c3, true))
    ∧ _check_references cfg collate_lt uuid c3 s2 = (s3, Ok (c4, true))
    ∧ cr_rpsl_obj_new c' = cr_rpsl_obj_new c3 ∧ same_change c c3 ∧ calm s3 s'.
Proof using Type.
  intros Hrun Hvalid. revert Hrun. unfold UpdateRequests.cr_validate.
  pose proof (check_create_same cfg c) as H1. destruct (check_create cfg c) as [c1 created] eqn:E1. simpl in H1.
  destruct created; simpl.
  2:{ intros Hrun. injection Hrun as <- <- <-. revert E1. unfold check_create.
      destruct (cr_rpsl_obj_new c) as [o|]; [|done]. destruct (cr_request_type c) as [[]|]; try done.
      destruct (clean_for_create cfg o) as [o' []]; [done|]. intros E1. by injection E1 as <-. }
  intros (s1 & [c2 rules] & Hrules & Hrun)%st_bind_Ok. assert (calm s s1) as Hcalm1 by (eapply check_rules_calm; exact Hrules).
  pose proof (check_rules_same _ _ _ _ _ _ _ Hrules) as H2. simpl in H2.
  destruct (rules_checked _ _ _ _ Hrules) as [Hnew2 Hv2]. simpl in Hnew2, Hv2.
  destruct rules; simpl in Hrun.
  2:{ injection Hrun as <- <- <-. by specialize (Hv2 Hvalid). }
  apply st_bind_Ok in Hrun as (s2 & [c3 auth] & Hauth & Hrun).
  pose proof (check_auth_same _ _ _ _ _ _ _ _ _ _ _ _ Hauth) as H3. simpl in H3.
  destruct auth; simpl in Hrun.
  2:{ injection Hrun as <- <- <-. revert Hauth. unfold _check_auth, with_object. destruct (cr_rpsl_obj_new c2); [|done].
      intros (s3 & [result o'] & _ & Hrun)%st_bind_Ok. injection Hrun as _ Hrun. destruct (result_valid result); [done|].
      by injection Hrun as <-. }
  apply st_bind_Ok in Hrun as (s3 & [c4 references] & Hrefs & Hrun).
  apply st_bind_Ok in Hrun as (s4 & [c5 prot] & Hprot & Hrun).
  apply st_bind_Ok in Hrun as (s5 & [c6 roa] & Hroa & Hrun).
  apply st_bind_Ok in Hrun as (s6 & [c7 scope] & Hscope & Hrun). injection Hrun as <- <- <-.
  destruct (references_checked _ _ _ _ Hrefs) as [(N4 & _ & V4) R4]. destruct (protected_checked _ _ _ _ Hprot) as (N5 & _ & V5).
  destruct (roa_checked _ _ _ _ Hroa) as (N6 & _ & V6). destruct (scope_checked _ _ _ _ Hscope) as (N7 & _ & V7).
  simpl in *. assert (references = true) as -> by auto.
  exists c1, c2, s1, c3, s2, c4, s3. split_and!; try done; try congruence.
  - by etrans.
  - by do 2 (etrans; [done|]).
  - etrans; [by eapply check_protected_calm|]. etrans; [by eapply check_roa_calm|]. by eapply check_scope_calm.
Qed.

(** ** Authorisation of a change *)

Notation accepted := (accepted cfg gpg_import_keys gpg_uids hasher_verify tables).
Notation accepted_current := (accepted_current cfg collate_lt uuid gpg_import_keys gpg_uids hasher_verify tables).
Notation cached s := (cached_in cfg gpg_import_keys gpg_uids (db s) (sm_auth s)).
Notation overrides := (overrides cfg hasher_verify).
Definition accepted_change (s : submission) (c : ChangeRequest) : Prop :=
  ∃ o src, cr_rpsl_obj_new c = Some o ∧ source o = Ok src ∧
    (overrides (sm_auth s) = true
     ∨ (∃ names, mnt_by o = Ok names ∧ accepted (db s) (sm_auth s) o src names)
       ∧ accepted_current s o src (cr_rpsl_obj_current c)).
Lemma accepted_same d v o o' src names :
  known_class o → same_object o o' → accepted d v o src names → accepted d v o' src names.
Proof using Type.
  intros Hk Ho [?|[method Hp]]; [by left|right]. exists method. by apply (same_passes _ _ _ _ _ _ _ o).
Qed.
Lemma check_auth_Ok c s s' c' :
  check_auth c s = (s', Ok (c', true)) →
  ∃ o result o', cr_rpsl_obj_new c = Some o
    ∧ process_auth cfg collate_lt uuid gpg_import_keys gpg_uids hasher_verify bcrypt_hash tables o (cr_rpsl_obj_current c) s
        = (s', Ok (result, o'))
    ∧ result_valid result = true ∧ cr_rpsl_obj_new c' = Some o' ∧ same_object o o'.
Proof using Type.
  unfold _check_auth, with_object. destruct (cr_rpsl_obj_new c) as [o|]; [|done].
  intros (s1 & [result o'] & Hp & Hrun)%st_bind_Ok. exists o, result, o'. injection Hrun as <- Hrun.
  pose proof (process_auth_same _ _ _ _ _ _ _ _ _ _ _ _ _ Hp) as Ho. simpl in Ho.
  destruct (result_valid result) eqn:Ev; [|done]. by injection Hrun as <-.
Qed.
Lemma cr_validate_accepted c s s' c' b :
  quiet s → cached s → known_request (Change c) →
  cr_validate c s = (s', Ok (c', b)) → cr_is_valid c' = true → accepted_change s c'.
Proof using Type.
  intros Hq Hc Hk Hrun Hvalid. destruct (cr_validate_same _ _ _ _ _ _ _ _ _ _ _ _ Hrun) as (Ecur & _). simpl in Ecur.
  destruct (cr_validate_Ok _ _ _ _ _ Hrun Hvalid) as
    (c1 & c2 & s1 & c3 & s2 & c4 & s3 & Hcreate & Hnew2 & Hsame2 & Hcalm & Hauth & _ & Hnew & Hsame3 & _).
  destruct (calm_ready _ _ _ _ _ Hcalm Hq Hc) as (Hq1 & Hc1 & E1).
  destruct (check_auth_Ok _ _ _ _ Hauth) as (o & result & o' & Ho & Hp & Hr & Ho' & Hsame).
  assert (known_class o) as Hko.
  { assert (known_request (Change c2)) as Hk2 by (by apply (same_request_known (Change c))). by apply Hk2. }
  destruct (process_auth_Ok _ _ _ _ _ _ _ _ _ _ _ _ _ _ Hq1 Hc1 Hp Hr) as (src & Hsrc & Hacc).
  exists o', src. split; [congruence|]. split; [by rewrite (same_source _ _ Hsame)|].
  destruct (Hcalm Hq) as (_ & _ & Ecred & _). destruct Hsame2 as (Ecur2 & _). rewrite Ecur.
  destruct Hacc as [Hover|((names & Hnames & Hn) & Hcur & Heq)].
  { left. by rewrite <- (credentials_overrides _ _ (sm_auth s) _ Ecred). }
  right. split.
  - exists names. rewrite (same_mnt_by _ _ Hsame). split; [done|]. apply (accepted_same _ _ o); [done..|].
    by eapply accepted_calm.
  - rewrite Ecur2 in Hcur, Heq. destruct (cr_rpsl_obj_current c) as [cur|].
    + destruct Hcur as (names' & ? & ?). exists names'. split; [done|]. apply (accepted_same _ _ o); [done..|].
      by eapply accepted_calm.
    + rewrite (Heq eq_refl). destruct Hcur as (Hm & related & Hrel & Hacc). split; [done|]. exists related. split.
      * rewrite <- Hrel. symmetry. by apply (find_related_reads _ _ _ o s Hq).
      * destruct related as [[[? ?] ?]|]; [|done]. by eapply accepted_calm.
Qed.

(** ** What holds from pass to pass *)

(** The state of the submission and its requests before and after a pass. *)
Record pass_ready (h : handler) (v0 : AuthValidator) (requests0 requests : list request) (valid : list nat)
    (s : submission) : Prop := {
  pr_handler : sm_handler s = h;
  pr_quiet : quiet s;
  pr_credentials : credentials (sm_auth s) = credentials v0;
  pr_cached : cached s;
  pr_valid : valid = ok_positions 0 requests;
  pr_known : Forall known_request requests;
  pr_same : Forall2 continues requests0 requests;
  (** No reference in the cache is one to an object that is to be deleted. *)
  pr_refs : ∀ k, k ∈ rv_cache (sm_ref s) → stored_reference (db s) k ∧
    ∀ deleted, references_of deletes (at_positions 0 valid requests) = Ok deleted → k ∉ deleted;
}.
(** The state while the requests are validated. *)
Definition preloaded (requests : list request) (valid : list nat) (s : submission) : Prop :=
  ∃ new deleted, references_of adds (at_positions 0 valid requests) = Ok new
    ∧ references_of deletes (at_positions 0 valid requests) = Ok deleted
    ∧ rv_preloaded_new (sm_ref s) = oset_update [] new ∧ rv_preloaded_deleted (sm_ref s) = oset_update [] deleted
    ∧ av_pre_approved (sm_auth s) = oset_update [] (pk <$> new_mntners (at_positions 0 valid requests)).
Lemma preload_Ok requests valid s s1 s2 :
  preload_requests (at_positions 0 valid requests) s = (s1, Ok tt) →
  pre_approve (new_mntners (at_positions 0 valid requests)) s1 = (s2, Ok tt) →
  preloaded requests valid s2 ∧ sm_handler s2 = sm_handler s ∧ sm_change_log s2 = sm_change_log s
  ∧ credentials (sm_auth s2) = credentials (sm_auth s)
  ∧ av_mntner_db_cache (sm_auth s2) = av_mntner_db_cache (sm_auth s) ∧ rv_cache (sm_ref s2) = rv_cache (sm_ref s).
Proof using Type.
  intros (s3 & new & [-> Hnew]%st_lift_Ok & Hrun)%st_bind_Ok Happ.
  apply st_bind_Ok in Hrun as (s3 & deleted & [-> Hdel]%st_lift_Ok & Hrun). injection Hrun as <-. injection Happ as <-.
  split; [|done]. by exists new, deleted.
Qed.
Lemma same_validated requests valid s s' validated requests' :
  validate_positions cfg collate_lt uuid gpg_import_keys gpg_uids hasher_verify bcrypt_hash tables 0 valid requests s
    = (s', Ok validated) →
  Forall2 (λ r r', is_valid r s' = (s', Ok (r', request_ok r'))) validated requests' →
  Forall2 same_request requests requests'.
Proof using Type.
  intros [Hlen Hval]%validate_positions_Ok Hl. apply Forall2_same_length_lookup. split.
  { by rewrite <- Hlen, (Forall2_length _ _ _ Hl). }
  intros k r r' Hr Hr'. destruct (Hval k r Hr) as (r1 & Hr1 & Hcase).
  pose proof (Forall2_lookup_lr _ _ _ _ _ _ Hl Hr1 Hr') as Hvalid.
  transitivity r1; [|exact (is_valid_same _ _ _ _ _ _ Hvalid)].
  case_bool_decide; [|by subst]. destruct Hcase as (sa & sb & _ & _ & Hv). by eapply validate_same.
Qed.
Lemma pass_keeps h v0 requests0 requests valid s s' requests' valid' :
  pass_ready h v0 requests0 requests valid s → resolve_pass requests valid s = (s', Ok (requests', valid')) →
  pass_ready h v0 requests0 requests' valid' s'.
Proof using Type.
  intros [Hh Hq Hcred Hc Hv Hk Hsame Hrefs] Hpass. apply resolve_pass_down in Hpass as Hdown; [|exact Hv].
  destruct Hdown as [Hv' Hdown].
  destruct (resolve_pass_Ok _ _ _ _ _ _ _ _ _ _ _ _ _ _ Hpass) as (s1 & s2 & validated & Hpre & Happ & Hval & _ & Hl).
  destruct (preload_Ok _ _ _ _ _ Hpre Happ) as ((new & deleted & Hnew & Hdel & _ & Ed & _) & E1 & _ & Ecred & Ecache & Erefs).
  assert (calm s2 s') as Hcalm by (by eapply validate_positions_calm).
  assert (quiet s2) as Hq2 by (unfold quiet; by rewrite E1).
  destruct (Hcalm Hq2) as (F1 & _ & Fcred & _ & _ & Fdel & Fc & Fr).
  pose proof (same_validated _ _ _ _ _ _ Hval Hl) as Hsame'.
  split.
  - congruence.
  - unfold quiet. by rewrite F1.
  - congruence.
  - rewrite F1. apply Fc. rewrite E1. intros m. rewrite Ecache. apply Hc.
  - done.
  - apply Forall_forall. intros r' Hr'. apply list_elem_of_lookup_1 in Hr' as [i Hr'].
    destruct (Forall2_lookup_r _ _ _ _ _ Hsame' Hr') as (r & Hr & ?). eapply same_request_known; [done|].
    by eapply Forall_lookup_1.
  - transitivity requests; [done|]. by apply Forall2_both.
  - intros k Hcache. rewrite F1. destruct (Fr) with (k := k) as [Hst Hno]; [|done|].
    + intros k'. rewrite Erefs. intros Hk'. destruct (Hrefs k' Hk') as [? Hno]. rewrite E1. split; [done|].
      rewrite Ed, oset_update_elem. intros [?%elem_of_nil|Hin]; [done|]. by apply (Hno deleted).
    + split; [done|]. intros deleted' Hdel' Hin. apply Hno. rewrite Fdel, Ed, oset_update_elem. right.
      eapply (references_shrink deletes requests requests' valid valid'); [done|done| |done|done|done].
      intros i. rewrite Hv', Hv. by apply ok_positions_down.
Qed.

(** ** The last pass *)

Lemma resolution_last h v0 requests0 requests valid previous s s' results :
  pass_ready h v0 requests0 requests valid s → resolution requests valid previous s s' (Ok results) →
  (valid = previous ∧ results = requests ∧ s' = s)
  ∨ ∃ requests1 valid1 s1, pass_ready h v0 requests0 requests1 valid1 s1
      ∧ resolve_pass requests1 valid1 s1 = (s', Ok (results, valid1)).
Proof using Type.
  intros Hready Hres. remember (Ok results) as r eqn:Er. revert Hready Er.
  induction Hres as [requests v s|requests v p s s' e _ _|requests v p s s1 requests1 v1 s' r _ Hpass _ IH]; intros Hready Er.
  - injection Er as <-. by left.
  - done.
  - right. destruct (IH (pass_keeps _ _ _ _ _ _ _ _ _ Hready Hpass) Er) as [(-> & -> & ->)|?]; [|done].
    by exists requests, v, s.
Qed.
(** A valid change of the last pass was validated in it, next to all that are valid. *)
Lemma last_pass_change h v0 requests0 requests valid s s' results k c :
  pass_ready h v0 requests0 requests valid s → resolve_pass requests valid s = (s', Ok (results, valid)) →
  results !! k = Some (Change c) → k ∈ valid →
  ∃ c0 sa sb b, requests !! k = Some (Change c0) ∧ preloaded requests valid sa ∧ quiet sa ∧ sm_handler sa = h ∧ cached sa
    ∧ credentials (sm_auth sa) = credentials v0 ∧ refs_in (db sa) (sm_ref sa)
    ∧ cr_validate c0 sa = (sb, Ok (c, b)) ∧ cr_is_valid c = true.
Proof using Type.
  intros [Hh Hq Hcred Hc Hv Hk Hsame Hrefs] Hpass Hres Hin. apply resolve_pass_down in Hpass as Hdown; [|exact Hv].
  destruct Hdown as [Hv' _].
  destruct (resolve_pass_Ok _ _ _ _ _ _ _ _ _ _ _ _ _ _ Hpass) as (s1 & s2 & validated & Hpre & Happ & Hval & _ & Hl).
  destruct (preload_Ok _ _ _ _ _ Hpre Happ) as (Hloaded & E1 & _ & Ecred & Ecache & Erefs).
  apply validate_positions_Ok in Hval as [Hlen Hval].
  assert (is_Some (requests !! k)) as [r Hr].
  { apply lookup_lt_is_Some. rewrite <- Hlen, (Forall2_length _ _ _ Hl). apply lookup_lt_is_Some. eauto. }
  destruct (Hval k r Hr) as (r1 & Hr1 & Hcase). rewrite bool_decide_eq_true_2 in Hcase by done.
  destruct Hcase as (sa & sb & Hcalm & _ & Hvalidate).
  pose proof (Forall2_lookup_lr _ _ _ _ _ _ Hl Hr1 Hres) as Hvalid. simpl in Hvalid.
  assert (r1 = Change c) as ->.
  { destruct r1 as [c1|x1]; simpl in Hvalid; [by injection Hvalid as ->|].
    apply st_bind_Ok in Hvalid as (s3 & [x2 b2] & _ & Hx). by injection Hx. }
  destruct r as [c0|x0]; simpl in Hvalidate;
    [|apply st_bind_Ok in Hvalidate as (s3 & [x2 b2] & _ & Hx); by injection Hx].
  apply st_bind_Ok in Hvalidate as (s3 & [c1 b] & Hcr & Hx). injection Hx as <- <-.
  assert (quiet s2) as Hq2 by (unfold quiet; by rewrite E1).
  destruct (Hcalm Hq2) as (F1 & _ & Fcred & Fpre & Fnew & Fdel & Fc & Fr).
  exists c0, sa, s3, b. split_and!; try done.
  - destruct Hloaded as (new & deleted & ? & ? & ? & ? & ?). exists new, deleted. split_and!; congruence.
  - unfold quiet. by rewrite F1.
  - congruence.
  - rewrite F1. apply Fc. rewrite E1. intros m. rewrite Ecache. apply Hc.
  - congruence.
  - rewrite F1. apply Fr. intros k'. rewrite Erefs. intros Hk'. destruct (Hrefs k' Hk') as [? Hno]. rewrite E1. split; [done|].
    destruct Hloaded as (new & deleted & _ & Hdel & _ & -> & _). rewrite oset_update_elem.
    intros [?%elem_of_nil|?]; [done|]. by apply (Hno deleted).
  - rewrite Hv' in Hin. apply ok_positions_elem in Hin as (k' & r' & Hk' & Hr' & Hok). simpl in Hk'. subst k'.
    rewrite Hres in Hr'. injection Hr' as <-. exact Hok.
Qed.
(** The other way round: what was looked at is valid at the end. *)
Lemma last_pass_all h v0 requests0 requests valid s s' results r :
  pass_ready h v0 requests0 requests valid s → resolve_pass requests valid s = (s', Ok (results, valid)) →
  r ∈ at_positions 0 valid requests →
  ∃ k r', k ∈ valid ∧ results !! k = Some r' ∧ request_ok r' = true ∧ same_request r r' ∧ requests !! k = Some r.
Proof using Type.
  intros [Hh Hq Hcred Hc Hv Hk Hsame Hrefs] Hpass (k & Hr & Hin)%at_positions_elem. simpl in Hin.
  apply resolve_pass_down in Hpass as Hdown; [|exact Hv]. destruct Hdown as [Hv' _].
  destruct (resolve_pass_Ok _ _ _ _ _ _ _ _ _ _ _ _ _ _ Hpass) as (s1 & s2 & validated & _ & _ & Hval & _ & Hl).
  pose proof (same_validated _ _ _ _ _ _ Hval Hl) as Hsame'.
  destruct (Forall2_lookup_l _ _ _ _ _ Hsame' Hr) as (r' & Hr' & ?). exists k, r'. split_and!; try done.
  rewrite Hv' in Hin. apply ok_positions_elem in Hin as (k' & r1 & Hk' & Hr1 & Hok). simpl in Hk'. subst k'.
  rewrite Hr' in Hr1. by injection Hr1 as <-.
Qed.

(** ** Saving *)

(** How a request that was validated is saved. *)
Definition saved_as (r r' : request) : Prop :=
  match r, r' with
  | Change c, Change c' =>
      cr_rpsl_obj_new c' = cr_rpsl_obj_new c ∧ cr_rpsl_obj_current c' = cr_rpsl_obj_current c
      ∧ cr_request_type c' = cr_request_type c ∧ cr_non_strict_mode c' = cr_non_strict_mode c
      ∧ (cr_status c' = SAVED ↔ cr_is_valid c = true)
  | Suspension _, Suspension _ => True
  | _, _ => False
  end.
Lemma cr_save_Ok c s s' c' :
  cr_save cfg uuid timestamp_text c s = (s', Ok c') → cr_is_valid c = true → saved_as (Change c) (Change c').
Proof using Type.
  intros Hrun Hvalid. assert (returns (λ x, ∃ infos, x = cr_saved infos c) (cr_save cfg uuid timestamp_text c)) as Hret.
  { unfold cr_save. returns_tac; eauto. }
  destruct (Hret _ _ _ Hrun) as [infos ->]. by repeat split.
Qed.
Notation save_valid := (save_valid cfg collate_lt uuid timestamp_text gpg_import_keys gpg_uids hasher_verify).
Lemma save_valid_Ok l s s' l' : save_valid l s = (s', Ok l') → Forall2 saved_as l l'.
Proof using Type.
  revert s s' l'. induction l as [|r l IH]; intros s s' l'; simpl; [intros Hrun; by injection Hrun as <- <-|].
  intros (s1 & [r1 b] & Hr & Hrun)%st_bind_Ok. apply st_bind_Ok in Hrun as (s2 & r2 & Hsave & Hrun).
  apply st_bind_Ok in Hrun as (s3 & rest & Hrest & Hrun). injection Hrun as <- <-. constructor; [|by eapply IH].
  destruct r as [c|x]; simpl in Hr.
  - injection Hr as <- <- <-. destruct (cr_is_valid c) eqn:Ec.
    + apply st_bind_Ok in Hsave as (s4 & c' & Hc & Hx). injection Hx as <- <-. by eapply cr_save_Ok.
    + injection Hsave as <- <-. repeat split; [|by rewrite Ec]. intros Hs. unfold cr_is_valid in Ec.
      apply bool_decide_eq_false in Ec. destruct Ec. rewrite Hs. by left.
  - apply st_bind_Ok in Hr as (s4 & [x1 b1] & _ & Hx). injection Hx as <- <- <-.
    destruct b1; [|by injection Hsave as <- <-]. apply st_bind_Ok in Hsave as (s5 & x2 & _ & Hx). by injection Hx as <- <-.
Qed.
Notation handle := (_handle_change_requests cfg collate_lt uuid timestamp_text gpg_import_keys gpg_uids hasher_verify bcrypt_hash tables).
(** Saving uses the database only. *)
Lemma on_db_auth {A} (m : M A) : fixes sm_auth (on_db m).
Proof using Type. intros s. unfold on_db. by destruct (m (sm_handler s)). Qed.
Hint Resolve on_db_auth : fixes.
Lemma query_auth q : fixes sm_auth (query_objects cfg collate_lt uuid q).
Proof using Type. unfold query_objects. fixes_tac. Qed.
Hint Resolve query_auth : fixes.
Lemma cr_save_auth c : fixes sm_auth (cr_save cfg uuid timestamp_text c).
Proof using Type. unfold cr_save, log_change. fixes_tac. Qed.
Lemma active_auth src suspended cache names : fixes sm_auth (active_mntners cfg collate_lt uuid src suspended cache names).
Proof using Type.
  revert cache. induction names as [|m names IH]; intros cache; simpl; unfold mntner_active; fixes_tac; apply IH.
Qed.
Hint Resolve active_auth : fixes.
Lemma suspend_rows_auth src suspended cache done rows : fixes sm_auth (suspend_rows cfg collate_lt uuid src suspended cache done rows).
Proof using Type. revert cache done. induction rows as [|r rows IH]; intros cache done; simpl; fixes_tac; apply IH. Qed.
Lemma restore_rows_auth src pks restored infos rows :
  fixes sm_auth (restore_rows cfg collate_lt uuid timestamp_text gpg_import_keys gpg_uids src pks restored infos rows).
Proof using Type.
  revert pks restored infos. induction rows as [|r rows IH]; intros pks restored infos; simpl;
    unfold pk_exists, restored_rpki; fixes_tac; apply IH.
Qed.
Hint Resolve suspend_rows_auth restore_rows_auth : fixes.
Lemma sr_save_auth x : fixes sm_auth (sr_save cfg collate_lt uuid timestamp_text gpg_import_keys gpg_uids x).
Proof using Type.
  assert (∀ o, fixes sm_auth (sr_save_body cfg collate_lt uuid timestamp_text gpg_import_keys gpg_uids o x)) as Hbody.
  { intros o. unfold sr_save_body, suspend_for_mntner, reactivate_for_mntner, pk_exists. fixes_tac. }
  intros s. unfold sr_save. destruct (sr_status x), (sr_rpsl_obj_new x) as [o|]; try done. specialize (Hbody o s).
  destruct (sr_save_body _ _ _ _ _ _ o x s) as [s' [r|e]]; [done|]. by destruct (is_ValueError e).
Qed.
Hint Resolve cr_save_auth sr_save_auth : fixes.
Lemma save_valid_auth l : fixes sm_auth (save_valid l).
Proof using Type.
  induction l as [|r l IH]; simpl; unfold UpdateHandler.is_valid, UpdateHandler.save, sr_is_valid, sr_validate; fixes_tac; apply IH.
Qed.
(** What is saved at all was saved after a last pass that found it valid. *)
Lemma handle_Ok requests s s' results :
  quiet s → cached s → rv_cache (sm_ref s) = [] → Forall known_request requests →
  handle requests s = (s', Ok results) →
  (∀ c, Change c ∈ results → cr_status c ≠ SAVED)
  ∨ ∃ requests1 valid s1 s2 last, pass_ready (sm_handler s) (sm_auth s) requests requests1 valid s1
      ∧ resolve_pass requests1 valid s1 = (s2, Ok (last, valid)) ∧ Forall2 saved_as last results
      ∧ credentials (sm_auth s') = credentials (sm_auth s).
Proof using Type.
  intros Hq Hc Hrefs Hknown (s1 & [found valid] & Hfound & Hrun)%st_bind_Ok.
  apply valid_positions_Ok in Hfound as (-> & Hvalid & Hl).
  apply st_bind_Ok in Hrun as (s2 & last & Hres & Hsave). pose proof (save_valid_auth last s2) as Hauth.
  rewrite Hsave in Hauth. simpl in Hauth. apply save_valid_Ok in Hsave.
  assert (Forall2 continues requests found) as Hsame.
  { eapply Forall2_impl; [exact Hl|]. intros r r' Hr. split; [exact (is_valid_same _ _ _ _ _ _ Hr)|].
    by apply is_valid_Ok in Hr as (_ & _ & ?). }
  assert (pass_ready (sm_handler s) (sm_auth s) requests found valid s) as Hready.
  { split; try done.
    - apply Forall_forall. intros r' Hr'. apply list_elem_of_lookup_1 in Hr' as [i Hr'].
      destruct (Forall2_lookup_r _ _ _ _ _ Hsame Hr') as (r & Hr & [? _]). eapply same_request_known; [done|].
      by eapply Forall_lookup_1.
    - intros k. rewrite Hrefs. by intros ?%elem_of_nil. }
  apply resolve_resolution in Hres; [|done|right; rewrite Hvalid; pose proof (ok_positions_length 0 found); lia].
  destruct (resolution_last _ _ _ _ _ _ _ _ _ Hready Hres) as [(Hnil & -> & ->)|(requests1 & valid1 & sa & Hready1 & Hpass)].
  - left. intros c Hin Hst. apply list_elem_of_lookup_1 in Hin as [k Hk].
    destruct (Forall2_lookup_r _ _ _ _ _ Hsave Hk) as ([c0|x0] & Hc0 & Has); [|done].
    destruct Has as (_ & _ & _ & _ & Hv). apply Hv in Hst.
    assert (k ∈ valid) as Hin; [|rewrite Hnil in Hin; by apply elem_of_nil in Hin].
    rewrite Hvalid. apply ok_positions_elem. by exists k, (Change c0).
  - right. exists requests1, valid1, sa, s2, last. split_and!; try done. rewrite Hauth.
    by apply (pr_credentials _ _ _ _ _ _ (pass_keeps _ _ _ _ _ _ _ _ _ Hready1 Hpass)).
Qed.
End Pass.
