(* ===== verification/UpdateSafety.v ===== *)
(** * What a submission can change

    From the text of a submission to what is saved: every change is authorised
    against the database as it was, references stay sound, and a submission that
    fails commits nothing. *)
From S2P Require Import Prelude PyStr Conf Net Models Text Rpki ScopeFilter Fields RpslObjects RpslParser Queries QueriesTheory RoutePref Database DatabaseHandler StorageTheory JournalTheory Nrtm UpdateValidators UpdateRequests UpdateHandler TransactionTheory UpdatesTheory UpdateAuthTheory UpdatePassTheory.

(** ** The class of an object that is read *)

Section ReadClass.
Context `{IPyLib} (cfg : configuration).
Context (gpg_import_keys : string → list string * option string) (gpg_uids : string → list string).
Lemma clean_class o : o_class (clean gpg_import_keys gpg_uids o) = o_class o.
Proof using Type.
  unfold clean, mntner_clean, keycert_clean. repeat (case_match; try done).
Qed.
Lemma init_class c text strict default_source o :
  RPSLObject_init cfg gpg_import_keys gpg_uids c text strict default_source = Ok o → o_class o = c.
Proof using Type.
  unfold RPSLObject_init. destruct (_extract_attributes_values c text) as [ms data]. unfold _validate_object.
  set (o1 := if has_errors _ then _ else _). assert (o_class o1 = c) as H1 by (unfold o1; by case_match).
  destruct (_parse_attribute_data _ _ _) as [o2|] eqn:E2; [|done]. simpl. intros Ho. injection Ho as <-.
  assert (o_class o2 = c) as H2.
  { revert E2. unfold _parse_attribute_data.
    destruct (parse_attributes _ _ _ _ _) as [[[[ms' pd] md] data']|]; [|done]. intros E2. by injection E2 as <-. }
  case_match; [by rewrite clean_class|done].
Qed.
Lemma read_known_class text strict default_source o :
  rpsl_object_from_text cfg gpg_import_keys gpg_uids text strict default_source = Ok o → known_class o.
Proof using Type.
  unfold rpsl_object_from_text. destruct (class_of _) as [c|] eqn:Ec; [|done]. intros Ho%init_class.
  exists (strip (hd "" (split_on ":"%char text))). by rewrite Ho.
Qed.
End ReadClass.

Section UpdateSafety.
Context `{IPyLib} `{Radix node_data} `{redis : Redis} (cfg : configuration).
Context (collate_lt : string → string → bool) (uuid : nat → string) (timestamp_text : Z → string).
Context (gpg_import_keys : string → list string * option string) (gpg_uids : string → list string).
Context (hasher_verify : string → string → string → option bool) (bcrypt_hash : string → string).
Context (tables : auth_tables).
Notation U := (st submission).
Notation parse text := (parse_stored cfg gpg_import_keys gpg_uids text).
Notation db s := (h_db (sm_handler s)).
Notation cached s := (cached_in cfg gpg_import_keys gpg_uids (db s) (sm_auth s)).

(** ** Reading the requests *)

(** The stored version of an object. *)
Definition stored_version (o : RPSLObject) (src : string) (r : rpsl_row) : Prop :=
  r_object_class r = o_class_name o ∧ r_rpsl_pk r = strip (str_upper (pk o)) ∧ r_source r = strip (str_upper src).
Definition existing (d : database) (o : RPSLObject) (src : string) (current : option RPSLObject) : Prop :=
  match current with
  | Some cur => ∃ r, r ∈ db_objects d ∧ stored_version o src r ∧ parse (r_object_text r) = Ok cur
  | None => ∀ r, r ∈ db_objects d → ¬ stored_version o src r
  end.
Lemma same_stored_version o o' src r :
  known_class o → same_object o o' → stored_version o' src r ↔ stored_version o src r.
Proof using Type.
  intros Hk Ho. unfold stored_version. by rewrite (same_class_name _ _ Ho), (same_pk _ _ Ho Hk).
Qed.
Lemma same_existing d o o' src current :
  known_class o → same_object o o' → existing d o src current → existing d o' src current.
Proof using Type.
  intros Hk Ho. destruct current as [cur|]; simpl.
  - intros (r & ? & ? & ?). exists r. by rewrite (same_stored_version _ _ _ _ Hk Ho).
  - intros Hno r Hr. rewrite (same_stored_version _ _ _ _ Hk Ho). by apply Hno.
Qed.
(** A change that was read from the database [d]. *)
Definition read_change (d : database) (c : ChangeRequest) : Prop :=
  (∀ o, cr_rpsl_obj_new c = Some o → known_class o)
  ∧ (cr_request_type c = Some CREATE → cr_rpsl_obj_current c = None)
  ∧ (cr_request_type c = Some DELETE → cr_is_valid c = true → is_Some (cr_rpsl_obj_current c))
  ∧ (cr_is_valid c = true → ∃ o src, cr_rpsl_obj_new c = Some o ∧ source o = Ok src ∧ existing d o src (cr_rpsl_obj_current c)).
Definition read_request (d : database) (r : request) : Prop :=
  match r with Change c => read_change d c | Suspension _ => True end.
Notation ChangeRequest_init := (ChangeRequest_init cfg collate_lt uuid gpg_import_keys gpg_uids).

Lemma existing_reads o c : reads (_retrieve_existing_version cfg collate_lt uuid gpg_import_keys gpg_uids o c).
Proof using Type. unfold _retrieve_existing_version. reads_tac. Qed.
Lemma init_reads text delete_reason meta : reads (ChangeRequest_init text delete_reason meta).
Proof using Type. unfold UpdateRequests.ChangeRequest_init. reads_tac; apply existing_reads. Qed.
Lemma existing_rows d o src q r :
  (q ← in_source src; q ← object_classes q [o_class_name o]; rpsl_pk q (pk o)) = Ok q →
  r ∈ execute_query collate_lt q (db_objects d) ↔ r ∈ db_objects d ∧ stored_version o src r.
Proof using Type.
  intros Hq.
  assert (holds (q_where q) r = true ↔ stored_version o src r) as Hiff.
  { injection Hq as <-. unfold holds. simpl. unfold stored_version.
    rewrite !andb_true_iff, !bool_decide_eq_true, !list_elem_of_singleton.
    split; [intros (? & ? & ? & _)|intros (? & ? & ?)]; by split_and!. }
  rewrite <- Hiff. split; [apply execute_query_elem|]. intros [? ?]. injection Hq as <-.
  by apply execute_query_complete.
Qed.
Lemma retrieve_existing_Ok o c src s s' c' :
  quiet s → source o = Ok src → cr_rpsl_obj_new c = Some o → cr_rpsl_obj_current c = None →
  cr_request_type c ≠ Some CREATE →
  _retrieve_existing_version cfg collate_lt uuid gpg_import_keys gpg_uids o c s = (s', Ok c') →
  cr_rpsl_obj_new c' = Some o ∧ existing (db s) o src (cr_rpsl_obj_current c')
  ∧ (cr_request_type c' = Some CREATE → cr_rpsl_obj_current c' = None).
Proof using Type.
  intros Hq Hsrc Hnew Hnone Htype (s1 & src' & [-> Hs]%st_lift_Ok & Hrun)%st_bind_Ok. rewrite Hsrc in Hs. injection Hs as <-.
  apply st_bind_Ok in Hrun as (s1 & rows & (-> & q & Hquery & Hrows)%(query_objects_quiet _ _ _ _ _ _ _ Hq) & Hrun).
  assert (∀ r, r ∈ rows ↔ r ∈ db_objects (db s) ∧ stored_version o src r) as Hiff by (intros r; rewrite Hrows; by apply existing_rows).
  clear Hrows. destruct rows as [|r [|]]; [| |done].
  - injection Hrun as <- <-. split_and!; [done| |done]. intros r Hr Hst.
    eapply (not_elem_of_nil r), Hiff. by split.
  - apply st_bind_Ok in Hrun as (s1 & cur & [-> Hcur]%st_lift_Ok & Hrun). injection Hrun as <- <-. split_and!; [done| |].
    + simpl. exists r. destruct (proj1 (Hiff r)) as [? ?]; [by left|]. done.
    + simpl. by destruct (cr_request_type c) as [[]|].
Qed.
Lemma read_object_known text t o b :
  read_object cfg gpg_import_keys gpg_uids text t = Ok (o, b) → known_class o.
Proof using Type.
  unfold read_object. destruct (rpsl_object_from_text _ _ _ text true None) as [o1|] eqn:E1; [|done]. simpl.
  destruct (_ || _).
  - destruct (rpsl_object_from_text _ _ _ text false None) as [o2|] eqn:E2; [|done]. simpl. intros Ho. injection Ho as <- _.
    by eapply read_known_class.
  - intros Ho. injection Ho as <- _. by eapply read_known_class.
Qed.
Lemma init_Ok text delete_reason meta s s' c :
  quiet s → ChangeRequest_init text delete_reason meta s = (s', Ok c) → s' = s ∧ read_change (db s) c.
Proof using Type.
  intros Hq Hrun. split.
  { destruct (init_reads text delete_reason meta s Hq) as [E _]. by rewrite Hrun in E. }
  apply st_bind_Ok in Hrun as (s1 & filters & [-> _]%st_lift_Ok & Hrun). cbv zeta in Hrun.
  set (t := if given delete_reason then Some DELETE else None) in Hrun.
  assert (t ≠ Some CREATE) as Ht by (unfold t; by destruct (given delete_reason)).
  destruct (read_object _ _ _ _ _) as [[o non_strict]|e] eqn:Eo.
  2:{ destruct e; try done. injection Hrun as _ <-. by split_and!. }
  apply read_object_known in Eo.
  set (c0 := new_request _ _ _ _ _ _ _ _) in Hrun.
  assert (∀ c, cr_rpsl_obj_new c = Some o → cr_rpsl_obj_current c = None → cr_request_type c ≠ Some CREATE →
    cr_is_valid c = false → read_change (db s) c) as Hbad.
  { intros c1 Hnew Hcur Htype Hinv. split_and!; [|done|by rewrite Hinv..].
    intros o' Ho'. rewrite Hnew in Ho'. by injection Ho' as <-. }
  assert (∀ c1, cr_rpsl_obj_new c1 = Some o → cr_rpsl_obj_current c1 = None → cr_request_type c1 ≠ Some CREATE →
    cr_is_valid c1 = false → read_change (db s) (check_deletion c1)) as Hbad'.
  { intros c1 Hnew Hcur Htype Hinv. unfold check_deletion. destruct (cr_request_type c1) as [[]|] eqn:Et; try (by apply Hbad; rewrite ?Et).
    rewrite Hcur. apply Hbad; try done. simpl. by rewrite Et. }
  destruct (cr_is_valid c0) eqn:Evalid; [|injection Hrun as _ <-; by apply Hbad'].
  apply st_bind_Ok in Hrun as (s1 & src & [-> Hsrc]%st_lift_Ok & Hrun).
  destruct (negb _); [injection Hrun as _ <-; by apply Hbad|].
  destruct (filtered_class cfg src o); [injection Hrun as _ <-; by apply Hbad|].
  apply st_bind_Ok in Hrun as (s1 & c1 & Hex & Hrun). injection Hrun as _ <-.
  destruct (retrieve_existing_Ok o c0 src _ _ _ Hq Hsrc eq_refl eq_refl Ht Hex) as (Hnew & Hexist & Hcreate).
  assert (read_change (db s) (check_deletion c1)) as Hread; [|done].
  destruct (decide (cr_request_type c1 = Some DELETE ∧ cr_rpsl_obj_current c1 = None)) as [[Et Ecur]|Hno].
  - unfold check_deletion. rewrite Et, Ecur. apply Hbad; try done. simpl. by rewrite Et.
  - assert (check_deletion c1 = c1) as ->.
    { unfold check_deletion. destruct (cr_request_type c1) as [[]|], (cr_rpsl_obj_current c1); try done. by destruct Hno. }
    split_and!; [intros o' Ho'; rewrite Hnew in Ho'; by injection Ho' as <-|done| |intros _; by exists o, src].
    intros Et _. destruct (cr_rpsl_obj_current c1); [done|by destruct Hno].
Qed.
Notation parse_objects := (parse_objects cfg collate_lt uuid gpg_import_keys gpg_uids).
Lemma parse_objects_Ok meta u texts s s' u' requests :
  quiet s → parse_objects meta u texts s = (s', Ok (u', requests)) → s' = s ∧ Forall (read_request (db s)) requests.
Proof using Type.
  intros Hq. revert u u' requests s'. induction texts as [|text texts IH]; intros u u' requests s'; simpl.
  { intros Hrun. injection Hrun as <- _ <-. by split. }
  destruct (String.eqb _ ""); [apply IH|]. destruct (String.eqb (sub_rpsl_text _) ""); [apply IH|].
  intros (s1 & r & Hr & Hrun)%st_bind_Ok. apply st_bind_Ok in Hrun as (s2 & [u2 rest] & Hrest & Hrun).
  injection Hrun as <- <- <-.
  assert (s1 = s ∧ read_request (db s) r) as [-> Hread].
  { destruct (given _).
    - apply st_bind_Ok in Hr as (s3 & x & [-> _]%st_lift_Ok & Hr). by injection Hr as <- <-.
    - apply st_bind_Ok in Hr as (s3 & c & Hc & Hr). injection Hr as <- <-. by apply init_Ok in Hc. }
  apply IH in Hrest as [-> ?]. split; [done|]. by constructor.
Qed.

Lemma on_db_Ok {A} (m : M A) s s' a :
  on_db m s = (s', Ok a) → m (sm_handler s) = (sm_handler s', Ok a) ∧ (sm_handler s' = sm_handler s → s' = s).
Proof using Type.
  unfold on_db. destruct (m (sm_handler s)) as [h r]. intros E. injection E as <- ->. split; [done|]. simpl. intros ->. by destruct s.
Qed.
(** A state in which requests were read: nothing is cached yet. *)
Record just_read (d : database) (now : Z) (requests : list request) (s : submission) : Prop := {
  jr_handler : sm_handler s = DatabaseHandler_init cfg false d now;
  jr_mntners : av_mntner_db_cache (sm_auth s) = [];
  jr_refs : rv_cache (sm_ref s) = [];
  jr_requests : Forall (read_request d) requests;
}.
Lemma begin_quiet d now v : quiet (begin_submission cfg d now v).
Proof using Type. done. Qed.
Lemma read_text_Ok d now blob origin pgp user meta s requests :
  read_text_blob cfg collate_lt uuid gpg_import_keys gpg_uids blob origin pgp user meta
    (begin_submission cfg d now (AuthValidator_init origin None user None)) = (s, Ok requests) →
  just_read d now requests s.
Proof using Type.
  set (s0 := begin_submission _ _ _ _). assert (quiet s0) as Hq by done. assert (db s0 = d) as Hd by done.
  assert (sm_handler s0 = DatabaseHandler_init cfg false d now) as Hh by done. assert (rv_cache (sm_ref s0) = []) as Hr0 by done.
  clearbody s0. intros (s1 & key & Hkey & Hrun)%st_bind_Ok.
  assert (s1 = s0) as ->.
  { revert Hkey. destruct pgp as [f|]; [|intros E; by injection E as <-].
    destruct (String.eqb f ""); [intros E; by injection E as <-|].
    intros [Hkey Hsame]%on_db_Ok. apply Hsame. apply st_bind_Ok in Hkey as (h & q & [-> _]%st_lift_Ok & Hkey).
    apply st_bind_Ok in Hkey as (h & rows & Hrows & Hkey). injection Hkey as <- _.
    rewrite (execute_query_quiet q (sm_handler s0) Hq) in Hrows. by injection Hrows as <- _. }
  apply st_bind_Ok in Hrun as (s1 & [] & Hmod & Hrun). injection Hmod as <-.
  apply st_bind_Ok in Hrun as (s1 & [u rs] & Hparse & Hrun). apply parse_objects_Ok in Hparse as [-> Hread]; [|done].
  apply st_bind_Ok in Hrun as (s1 & [] & Hmod & Hrun). injection Hmod as <-. injection Hrun as <- <-.
  split; [done..|]. by rewrite <- Hd.
Qed.
Lemma read_objects_Ok delete_reason meta objects s s' requests :
  quiet s → read_objects cfg collate_lt uuid gpg_import_keys gpg_uids delete_reason meta objects s = (s', Ok requests) →
  s' = s ∧ Forall (read_request (db s)) requests.
Proof using Type.
  intros Hq. revert s' requests. induction objects as [|o objects IH]; intros s' requests; simpl.
  { intros Hrun. injection Hrun as <- <-. by split. }
  intros (s1 & text & [-> _]%st_lift_Ok & Hrun)%st_bind_Ok. apply st_bind_Ok in Hrun as (s1 & c & Hc & Hrun).
  apply init_Ok in Hc as [-> Hread]; [|done]. apply st_bind_Ok in Hrun as (s1 & rest & [-> Hrest]%IH & Hrun).
  injection Hrun as <- <-. split; [done|]. by constructor.
Qed.
Lemma read_suspensions_Ok objects (s s' : submission) requests :
  read_suspensions cfg gpg_import_keys gpg_uids objects s = (s', Ok requests) → s' = s ∧ Forall (read_request (db s)) requests.
Proof using Type.
  revert s' requests. induction objects as [|o objects IH]; intros s' requests; simpl.
  { intros Hrun. injection Hrun as <- <-. by split. }
  intros (s1 & r & [-> _]%st_lift_Ok & Hrun)%st_bind_Ok.
  apply st_bind_Ok in Hrun as (s1 & rest & [-> Hrest]%IH & Hrun). injection Hrun as <- <-. split; [done|]. by constructor.
Qed.

(** ** The entry points *)

(** A submission, by any of the ways to make one, on the database [d]. *)
Inductive handled (d : database) (now : Z) : submission → res (list request) → Prop :=
| handled_text blob origin pgp user meta s r :
    load_text_blob cfg collate_lt uuid timestamp_text gpg_import_keys gpg_uids hasher_verify bcrypt_hash tables
      blob origin pgp user meta d now = (s, r) → handled d now s r
| handled_changes data origin delete meta ip s r :
    load_change_submission cfg collate_lt uuid timestamp_text gpg_import_keys gpg_uids hasher_verify bcrypt_hash tables
      data origin delete meta ip d now = (s, r) → handled d now s r
| handled_suspensions objects override s r :
    load_suspension_submission cfg collate_lt uuid timestamp_text gpg_import_keys gpg_uids hasher_verify bcrypt_hash tables
      objects override d now = (s, r) → handled d now s r.
Notation handle := (_handle_change_requests cfg collate_lt uuid timestamp_text gpg_import_keys gpg_uids hasher_verify bcrypt_hash tables).
Notation finish := (finish cfg collate_lt uuid timestamp_text gpg_import_keys gpg_uids hasher_verify bcrypt_hash tables).
Lemma finish_Ok requests s s' results :
  finish requests s = (s', Ok results) → ∃ s1, handle requests s = (s1, Ok results) ∧ sm_auth s' = sm_auth s1.
Proof using Type.
  intros (s1 & rs & Hhandle & Hrun)%st_bind_Ok. apply st_bind_Ok in Hrun as (s2 & [] & Hcommit & Hrun).
  injection Hrun as <- <-. exists s1. split; [done|]. pose proof (on_db_auth (commit cfg collate_lt uuid) s1) as Ha.
  by rewrite Hcommit in Ha.
Qed.
Lemma handled_Ok d now s results :
  handled d now s (Ok results) →
  ∃ requests s0 s1, just_read d now requests s0 ∧ handle requests s0 = (s1, Ok results) ∧ sm_auth s = sm_auth s1.
Proof using Type.
  intros Hh. remember (Ok results) as r eqn:Er. revert Er.
  assert (∀ (read : U (list request)) v requests s0, just_read d now requests s0 →
    read (begin_submission cfg d now v) = (s0, Ok requests) → finish requests s0 = (s, Ok results) →
    ∃ requests s0 s1, just_read d now requests s0 ∧ handle requests s0 = (s1, Ok results) ∧ sm_auth s = sm_auth s1) as Hfin.
  { intros read v requests s0 Hread _ (s1 & ? & ?)%finish_Ok. by exists requests, s0, s1. }
  destruct Hh as [blob origin pgp user meta s r Hrun|data origin delete meta ip s r Hrun|objects override s r Hrun];
    intros ->; apply st_bind_Ok in Hrun as (s0 & requests & Hread & Hrun).
  - eapply Hfin; [by eapply read_text_Ok|exact Hread|done].
  - pose proof Hread as [-> Hrequests]%read_objects_Ok; [|done]. eapply Hfin; [|exact Hread|done]. by split.
  - pose proof Hread as [-> Hrequests]%read_suspensions_Ok. eapply Hfin; [|exact Hread|done]. by split.
Qed.

(** ** The last pass of a submission *)

Notation start d now := (DatabaseHandler_init cfg false d now).
Notation resolve_pass := (resolve_pass cfg collate_lt uuid gpg_import_keys gpg_uids hasher_verify bcrypt_hash tables).
Notation cr_validate := (cr_validate cfg collate_lt uuid gpg_import_keys gpg_uids hasher_verify bcrypt_hash tables).
Record last_pass (d : database) (now : Z) (v : AuthValidator) (results requests0 requests1 : list request)
    (valid : list nat) (s1 s2 : submission) (last : list request) : Prop := {
  lp_read : Forall (read_request d) requests0;
  lp_ready : pass_ready cfg gpg_import_keys gpg_uids (start d now) v requests0 requests1 valid s1;
  lp_pass : resolve_pass requests1 valid s1 = (s2, Ok (last, valid));
  lp_saved : Forall2 saved_as last results;
}.
Lemma read_known d r : read_request d r → known_request r.
Proof using Type. destruct r as [c|x]; [|done]. by intros [Hk _]. Qed.
Lemma handled_last d now s results :
  handled d now s (Ok results) →
  (∀ c, Change c ∈ results → cr_status c ≠ SAVED)
  ∨ ∃ v requests0 requests1 valid s1 s2 last, last_pass d now v results requests0 requests1 valid s1 s2 last
      ∧ credentials (sm_auth s) = credentials v.
Proof using Type.
  intros (requests0 & s0 & s' & [Hh Hm Hr Hread] & Hhandle & Hauth)%handled_Ok.
  assert (quiet s0) as Hq by (unfold quiet; by rewrite Hh).
  assert (cached s0) as Hc by (intros m; rewrite Hm; by intros ?%elem_of_nil).
  assert (Forall known_request requests0) as Hk by (eapply Forall_impl; [exact Hread|]; apply read_known).
  destruct (handle_Ok _ _ _ _ _ _ _ _ _ _ _ _ _ Hq Hc Hr Hk Hhandle) as [?|(requests1 & valid & s1 & s2 & last & Hready & Hpass & Hsaved & Hcred)];
    [by left|right].
  rewrite Hh in Hready. exists (sm_auth s0), requests0, requests1, valid, s1, s2, last. split; [done|]. by rewrite Hauth.
Qed.
Section LastPass.
Context (d : database) (now : Z) (v : AuthValidator) (results requests0 requests1 : list request).
Context (valid : list nat) (s1 s2 : submission) (last : list request).
Context (Hlast : last_pass d now v results requests0 requests1 valid s1 s2 last).

(** The state in which a change is validated. *)
Record validating (s : submission) : Prop := {
  vs_preloaded : preloaded requests1 valid s;
  vs_quiet : quiet s;
  vs_handler : sm_handler s = start d now;
  vs_cached : cached s;
  vs_credentials : credentials (sm_auth s) = credentials v;
  vs_refs : refs_in (db s) (sm_ref s);
}.
Lemma last_valid : valid = ok_positions 0 last.
Proof using Hlast. destruct Hlast as [_ Hready Hpass _]. by apply resolve_pass_down in Hpass as [? _]; [|apply (pr_valid _ _ _ _ _ _ _ _ _ Hready)]. Qed.
(** A change of the last pass, from what was submitted to what is saved. *)
Lemma last_change k cl :
  last !! k = Some (Change cl) → cr_is_valid cl = true →
  ∃ c0 c1 sa sb b, requests0 !! k = Some (Change c0) ∧ read_change d c0 ∧ cr_is_valid c0 = true
    ∧ requests1 !! k = Some (Change c1) ∧ same_change c0 c1
    ∧ validating sa ∧ cr_validate c1 sa = (sb, Ok (cl, b)) ∧ same_change c1 cl ∧ known_request (Change c1).
Proof using Hlast.
  intros Hl Hvalid. destruct Hlast as [Hread Hready Hpass Hsaved]. pose proof last_valid as Hv.
  assert (k ∈ valid) as Hk by (rewrite Hv; apply ok_positions_elem; by exists k, (Change cl)).
  destruct (last_pass_change _ _ _ _ _ _ _ _ _ _ _ _ _ _ _ _ _ _ Hready Hpass Hl Hk) as
    (c1 & sa & sb & b & Hreq1 & Hpre & Hq & Hh & Hc & Hcred & Hrefs & Hval & _).
  destruct (Forall2_lookup_r _ _ _ _ _ (pr_same _ _ _ _ _ _ _ _ _ Hready) Hreq1) as ([c0|x0] & Hreq0 & Hcont); [|by destruct Hcont].
  pose proof (cr_validate_same _ _ _ _ _ _ _ _ _ _ _ _ Hval) as Hsame. destruct Hcont as [Hsame0 Hok].
  assert (request_ok (Change c1) = true) as Hok1.
  { rewrite (pr_valid _ _ _ _ _ _ _ _ _ Hready) in Hk. apply ok_positions_elem in Hk as (k' & r & E & Hr & ?).
    simpl in E. subst k'. rewrite Hreq1 in Hr. by injection Hr as <-. }
  exists c0, c1, sa, sb, b. split_and!; try done.
  - by apply (Forall_lookup_1 _ _ _ _ Hread Hreq0).
  - by apply Hok.
  - by apply (Forall_lookup_1 _ _ _ _ (pr_known _ _ _ _ _ _ _ _ _ Hready) Hreq1).
Qed.
Lemma saved_change c :
  Change c ∈ results → cr_status c = SAVED →
  ∃ k cl, last !! k = Some (Change cl) ∧ cr_is_valid cl = true ∧ saved_as (Change cl) (Change c).
Proof using Hlast.
  intros Hin Hst. apply list_elem_of_lookup_1 in Hin as [k Hk].
  destruct (Forall2_lookup_r _ _ _ _ _ (lp_saved _ _ _ _ _ _ _ _ _ _ Hlast) Hk) as ([cl|x] & Hl & Hs); [|done].
  exists k, cl. split_and!; try done. by apply Hs.
Qed.
(** No name is approved in advance, unless an override lets everything pass. *)
Lemma none_pre_approved sa names :
  validating sa → overrides cfg hasher_verify v = false → ¬ pre_approves (sm_auth sa) names.
Proof using Hlast.
  intros Hsa Hover (name & _ & Hname). destruct (vs_preloaded _ Hsa) as (new & deleted & _ & _ & _ & _ & Happ).
  rewrite Happ, oset_update_elem in Hname. destruct Hname as [?%elem_of_nil|Hname]; [done|].
  apply list_elem_of_fmap in Hname as (o & _ & Ho). unfold new_mntners in Ho.
  apply list_elem_of_omap in Ho as (r & Hr & Ho). destruct r as [c|]; [|done].
  destruct (cr_request_type c) as [[]|] eqn:Et; try done. destruct (cr_rpsl_obj_new c) as [o'|] eqn:Eo; [|done].
  destruct (is_mntner o') eqn:Em; [|done]. injection Ho as ->.
  destruct Hlast as [Hread Hready Hpass Hsaved].
  destruct (last_pass_all _ _ _ _ _ _ _ _ _ _ _ _ _ _ _ _ _ Hready Hpass Hr) as (k & r' & Hk & Hl & Hok & Hsame & Hreq1).
  destruct r' as [cl|]; [|done].
  destruct (last_change k cl Hl Hok) as (c0 & c1 & sb & sc & b & Hreq0 & (_ & Hcreate & _) & _ & Hreq1' & Hs01 & Hsb & Hval & Hs1l & Hknown).
  rewrite Hreq1 in Hreq1'. injection Hreq1' as ->.
  destruct (cr_validate_accepted _ _ _ _ _ _ _ _ _ _ _ _ _ (vs_quiet _ Hsb) (vs_cached _ Hsb) Hknown Hval Hok) as
    (ol & src & Hol & _ & Hacc).
  destruct Hs01 as (Ec0 & Et0 & _). destruct Hs1l as (Ec1 & Et1 & _ & Hobj).
  assert (cr_rpsl_obj_current cl = None) as Hcur by (rewrite Ec1, Ec0; apply Hcreate; congruence).
  rewrite Hcur in Hacc. destruct Hacc as [Hov|(_ & Hm & _)].
  - rewrite (credentials_overrides _ _ v _ (vs_credentials _ Hsb)) in Hov. congruence.
  - rewrite Eo, Hol in Hobj. inversion Hobj as [? ? Hsame_o|]; subst. unfold is_mntner in *.
    rewrite (same_class_name _ _ Hsame_o) in Hm. congruence.
Qed.
End LastPass.

(** ** Authorisation *)

Notation passes := (passes cfg gpg_import_keys gpg_uids hasher_verify tables).
Notation overrides := (overrides cfg hasher_verify).
Notation find_related := (_find_related_mntners cfg collate_lt uuid).
(** A credential of one of the maintainers of the object. *)
Definition by_mntner (d : database) (v : AuthValidator) (o : RPSLObject) (src : string) (names : list string) : Prop :=
  ∃ method, passes d v o src names method.
(** The change is permitted by the credentials [v] on the database [d]: by an
    override; or for the object that is submitted, and for the one that is stored.
    A new object must pass for the object it is related to, and is no maintainer. *)
Definition authorised (d : database) (now : Z) (v : AuthValidator) (c : ChangeRequest) : Prop :=
  ∃ o src, cr_rpsl_obj_new c = Some o ∧ source o = Ok src ∧ existing d o src (cr_rpsl_obj_current c) ∧
    (overrides v = true
     ∨ (∃ names, mnt_by o = Ok names ∧ by_mntner d v o src names)
       ∧ match cr_rpsl_obj_current c with
         | Some cur => ∃ names, mnt_by cur = Ok names ∧ by_mntner d v o src names
         | None =>
             is_mntner o = false ∧
             ∃ related, (find_related o (begin_submission cfg d now (AuthValidator_init origin_other None None None))).2
                          = Ok (related, []) ∧
               match related with Some (_, _, names) => by_mntner d v o src names | None => True end
         end).
Lemma accepted_by_mntner d now v results requests0 requests1 valid s1 s2 last s sa o src names :
  last_pass d now v results requests0 requests1 valid s1 s2 last → validating d now v requests1 valid sa →
  credentials (sm_auth s) = credentials v → overrides v = false →
  accepted cfg gpg_import_keys gpg_uids hasher_verify tables (db sa) (sm_auth sa) o src names →
  by_mntner d (sm_auth s) o src names.
Proof using Type.
  intros Hlast Hsa Hcred Hover [Hpre|[method Hp]].
  - by eapply none_pre_approved in Hpre.
  - exists method. rewrite (vs_handler _ _ _ _ _ _ Hsa) in Hp. apply (credentials_passes _ _ _ _ _ _ (sm_auth sa)); [|done].
    by rewrite Hcred, (vs_credentials _ _ _ _ _ _ Hsa).
Qed.
(** C1. Whatever a submission holds, and however it is made: each change that it
    saves was authorised, by an override or by credentials of a maintainer of
    the submitted object and of a maintainer of the object that the database
    holds; a new object also by a maintainer of the object it is related to, and
    a new maintainer only by an override. *)
Theorem saved_changes_authorised d now s results c :
  handled d now s (Ok results) → Change c ∈ results → cr_status c = SAVED → authorised d now (sm_auth s) c.
Proof using Type.
  intros [Hno|(v & r0 & r1 & valid & s1 & s2 & last & Hlast & Hcred)]%handled_last Hin Hst; [by apply Hno in Hin|].
  destruct (saved_change _ _ _ _ _ _ _ _ _ _ Hlast c Hin Hst) as (k & cl & Hl & Hvalid & Hnew & Hcur & _ & _).
  destruct (last_change _ _ _ _ _ _ _ _ _ _ Hlast k cl Hl Hvalid) as
    (c0 & c1 & sa & sb & b & _ & (Hk0 & _ & _ & Hread) & Hv0 & _ & Hs01 & Hsa & Hval & Hs1l & Hk1).
  destruct (cr_validate_accepted _ _ _ _ _ _ _ _ _ _ _ _ _ (vs_quiet _ _ _ _ _ _ Hsa) (vs_cached _ _ _ _ _ _ Hsa) Hk1 Hval Hvalid)
    as (o & src & Ho & Hsrc & Hacc).
  destruct (Hread Hv0) as (o0 & src0 & Ho0 & Hsrc0 & Hexist).
  assert (same_change c0 cl) as (Ecur & _ & _ & Hobj) by (by transitivity c1).
  rewrite Ho0, Ho in Hobj. inversion Hobj as [? ? Hsame|]; subst.
  rewrite (same_source _ _ Hsame), Hsrc0 in Hsrc. injection Hsrc as ->.
  exists o, src. split; [congruence|]. split; [by rewrite (same_source _ _ Hsame)|]. rewrite Hcur.
  split; [rewrite Ecur; apply (same_existing _ o0); auto|].
  destruct (overrides v) eqn:Hover; [left; by rewrite (credentials_overrides _ _ v)|right].
  assert (∀ names, accepted cfg gpg_import_keys gpg_uids hasher_verify tables (db sa) (sm_auth sa) o src names →
    by_mntner d (sm_auth s) o src names) as Hby by (intros names; by eapply accepted_by_mntner).
  destruct Hacc as [Hov|[(names & Hnames & Hn) Hacc]];
    [by rewrite (credentials_overrides _ _ v), Hover in Hov; [|apply (vs_credentials _ _ _ _ _ _ Hsa)]|].
  split; [exists names; auto|]. destruct (cr_rpsl_obj_current cl) as [cur|].
  - destruct Hacc as (names' & ? & ?). exists names'. auto.
  - destruct Hacc as (Hm & related & Hrel & Hacc). split; [done|]. exists related. split.
    + rewrite <- Hrel. apply (find_related_reads _ _ _ o sa (vs_quiet _ _ _ _ _ _ Hsa)).
      by rewrite (vs_handler _ _ _ _ _ _ Hsa).
    + destruct related as [[[? ?] ?]|]; auto.
Qed.
End UpdateSafety.
