(* ===== verification/UpdateReferenceTheory.v ===== *)
(** * References after a submission

    What a submission saves refers to objects that exist, and what it deletes is
    not referred to by what stays. *)
From S2P Require Import Prelude PyStr Conf Net Models Text Rpki ScopeFilter Fields RpslObjects RpslParser Queries QueriesTheory RoutePref Database DatabaseHandler StorageTheory JournalTheory Nrtm UpdateValidators UpdateRequests UpdateHandler UpdatesTheory UpdateAuthTheory UpdatePassTheory UpdateSafety.

Section UpdateReferences.
Context `{IPyLib} `{Radix node_data} `{redis : Redis} (cfg : configuration).
Context (collate_lt : string → string → bool) (uuid : nat → string) (timestamp_text : Z → string).
Context (gpg_import_keys : string → list string * option string) (gpg_uids : string → list string).
Context (hasher_verify : string → string → string → option bool) (bcrypt_hash : string → string).
Context (tables : auth_tables).
Notation U := (st submission).
Notation db s := (h_db (sm_handler s)).
Notation calm := (calm cfg gpg_import_keys gpg_uids).
Notation overrides := (overrides cfg hasher_verify).
Notation handled := (handled cfg collate_lt uuid timestamp_text gpg_import_keys gpg_uids hasher_verify bcrypt_hash tables).
Notation last_pass := (last_pass cfg collate_lt uuid gpg_import_keys gpg_uids hasher_verify bcrypt_hash tables).
Notation validating := (validating cfg gpg_import_keys gpg_uids).

(** The condition that a search for attributes adds. *)
Lemma lookup_attrs_where q names value q' :
  lookup_attrs_in q names [value] = Ok q' → names ≠ [] →
  q_where q' = q_where q ++ [λ r, existsb (λ n, existsb (attr_matches r n) [value]) (str_lower <$> names)]
  ∧ q_limit q' = q_limit q ∧ q_one_level q' = q_one_level q.
Proof using Type.
  unfold lookup_attrs_in, _filter. destruct (List.find _ _); [done|]. destruct (_check_query_frozen q); [|done].
  destruct names as [|n names]; [done|]. intros Hq _. by injection Hq as <-.
Qed.

(** ** The checks of one object *)

Lemma calm_refs s s' :
  calm s s' → quiet s → refs_in (db s) (sm_ref s) → quiet s' ∧ refs_in (db s') (sm_ref s') ∧ sm_handler s' = sm_handler s.
Proof using Type.
  intros Hcalm Hq Hr. destruct (Hcalm Hq) as (E1 & _ & _ & _ & _ & _ & _ & E8). unfold quiet. rewrite E1. auto.
Qed.
Lemma kept_calm s s' classes p src :
  quiet s → calm s s' → reference_kept (db s') (sm_ref s') classes p src → reference_kept (db s) (sm_ref s) classes p src.
Proof using Type.
  intros Hq Hcalm. destruct (Hcalm Hq) as (E1 & _ & _ & _ & E5 & E6 & _). unfold reference_kept. by rewrite E1, E5, E6.
Qed.
Lemma check_pks_Ok field referred src pks result s s' result' :
  quiet s → refs_in (db s) (sm_ref s) →
  check_pks cfg collate_lt uuid field referred src pks result s = (s', Ok result') → result_valid result' = true →
  result_valid result = true ∧ ∀ p, p ∈ pks → reference_kept (db s) (sm_ref s) referred p src.
Proof using gpg_import_keys gpg_uids.
  revert s result. induction pks as [|p pks IH]; intros s result Hq Hr; simpl.
  { intros Hrun Hv. injection Hrun as <- <-. split; [done|]. by intros p ?%elem_of_nil. }
  intros (s1 & ok & Hok & Hrun)%st_bind_Ok Hv.
  destruct (check_reference_Ok _ _ _ gpg_import_keys gpg_uids _ _ _ _ _ _ Hq Hok) as [Hcalm Hkept].
  destruct (calm_refs _ _ Hcalm Hq Hr) as (Hq1 & Hr1 & _).
  destruct (IH _ _ Hq1 Hr1 Hrun Hv) as [Hv1 Hpks].
  destruct ok; [|by apply with_messages_valid in Hv1 as [? _]].
  split; [done|]. intros p' [->|Hp']%elem_of_cons; [by apply Hkept|]. apply (kept_calm s s1); auto.
Qed.
Lemma check_fields_Ok references src result s s' result' :
  quiet s → refs_in (db s) (sm_ref s) →
  check_fields cfg collate_lt uuid references src result s = (s', Ok result') → result_valid result' = true →
  result_valid result = true ∧ ∀ field classes pks p, (field, classes, pks) ∈ references → p ∈ pdata_list (Some pks) →
    reference_kept (db s) (sm_ref s) classes p src.
Proof using gpg_import_keys gpg_uids.
  revert s result. induction references as [|[[field referred] pks] references IH]; intros s result Hq Hr; simpl.
  { intros Hrun Hv. injection Hrun as <- <-. split; [done|]. by intros ? ? ? ? ?%elem_of_nil. }
  intros (s1 & result1 & Hpks & Hrun)%st_bind_Ok Hv.
  assert (calm s s1) as Hcalm by (eapply check_pks_calm; exact Hpks).
  destruct (calm_refs _ _ Hcalm Hq Hr) as (Hq1 & Hr1 & _). destruct (IH _ _ Hq1 Hr1 Hrun Hv) as [Hv1 Hrest].
  destruct (check_pks_Ok _ _ _ _ _ _ _ _ Hq Hr Hpks Hv1) as [Hv0 Hkept]. split; [done|].
  intros field' classes' pks' p [E|Hin]%elem_of_cons Hp; [injection E as -> -> ->; by apply Hkept|].
  apply (kept_calm s s1); [done..|]. by eapply Hrest.
Qed.
(** The rows of the source that refer to an object. *)
Definition refers_to (o : RPSLObject) (src : string) (r : rpsl_row) : Prop :=
  r_source r = strip (str_upper src)
  ∧ ∃ n, n ∈ references_strong_inbound (o_class_name o) ∧ attr_matches r (str_lower n) (Some (pk o)) = true.
Lemma from_others_Ok o src s s' rows r :
  quiet s → source o = Ok src → _check_references_from_others cfg collate_lt uuid o s = (s', Ok rows) →
  r ∈ db_objects (db s) → refers_to o src r →
  r ∈ rows ∨ (r_object_class r, r_rpsl_pk r, r_source r) ∈ rv_preloaded_deleted (sm_ref s).
Proof using Type.
  intros Hq Hsrc Hrun Hr (Hrs & n & Hn & Hm). unfold _check_references_from_others in Hrun.
  destruct (references_strong_inbound (o_class_name o)) as [|n0 ns] eqn:Einbound; [by apply elem_of_nil in Hn|].
  rewrite <- Einbound in *. clear Einbound.
  apply st_bind_Ok in Hrun as (s1 & src' & [-> Hs]%st_lift_Ok & Hrun). rewrite Hsrc in Hs. injection Hs as <-.
  apply st_bind_Ok in Hrun as (s1 & found & (-> & q & Hquery & ->)%(query_objects_quiet _ _ _ _ _ _ _ Hq) & Hrun).
  apply st_bind_Ok in Hrun as (s1 & s2 & Hget & Hrun). injection Hget as <- <-. injection Hrun as _ <-.
  destruct (decide ((r_object_class r, r_rpsl_pk r, r_source r) ∈ rv_preloaded_deleted (sm_ref s))) as [|Hno]; [by right|left].
  apply filter_elem. rewrite bool_decide_eq_false_2 by done. split; [|done].
  assert (q_limit q = None ∧ q_one_level q = None ∧ holds (q_where q) r = true) as (? & ? & ?); [|by apply execute_query_complete].
  unfold in_source in Hquery. cbn [mbind] in Hquery.
  apply res_bind_Ok in Hquery as (q0 & Hq0 & Hquery). injection Hq0 as <-.
  apply lookup_attrs_where in Hquery as (Hw & -> & ->); [|intros E; rewrite E in Hn; by apply elem_of_nil in Hn].
  split; [done|]. split; [done|]. rewrite Hw, holds_snoc, andb_true_iff. split.
  - unfold holds. simpl. rewrite bool_decide_eq_true_2; [done|]. rewrite Hrs. by left.
  - apply existsb_exists. exists (str_lower n). split; [apply list_elem_of_In, list_elem_of_fmap; by exists n|].
    simpl. by rewrite Hm.
Qed.

(** ** What the submission saves *)

(** A change of the object with this key is saved. *)
Definition saves (p : option UpdateRequestType → bool) (results : list request) (k : reference) : Prop :=
  ∃ c, Change c ∈ results ∧ cr_status c = SAVED ∧ changes_key p k (Change c).
Lemma changes_key_same p k r r' : same_request r r' → known_request r → changes_key p k r → changes_key p k r'.
Proof using Type.
  destruct r as [c|x], r' as [c'|x']; simpl; try done. intros (_ & -> & _ & Hnew) Hk (Hp & o & Ho & Hkey).
  split; [done|]. rewrite Ho in Hnew. inversion Hnew as [? o' Hsame E|]; subst. exists o'. split; [done|].
  rewrite <- Hkey. apply same_reference; [by apply Hk|done].
Qed.
Lemma changes_key_saved p k r r' : saved_as r r' → changes_key p k r ↔ changes_key p k r'.
Proof using Type.
  destruct r as [c|x], r' as [c'|x']; simpl; try done. by intros (-> & _ & -> & _).
Qed.
(** What was looked at in the last pass is what is saved. *)
Lemma saves_iff d now v results requests0 requests1 valid s1 s2 last p ks k :
  last_pass d now v results requests0 requests1 valid s1 s2 last →
  references_of p (at_positions 0 valid requests1) = Ok ks → k ∈ ks ↔ saves p results k.
Proof using Type.
  intros Hlast Hks. rewrite (references_of_elem _ _ _ _ Hks). split.
  - intros (r & Hr & Hk). pose proof Hlast as [_ Hready Hpass Hsaved].
    destruct (last_pass_all _ _ _ _ _ _ _ _ _ _ _ _ _ _ _ _ _ Hready Hpass Hr) as (i & r' & Hi & Hl & Hok & Hsame & Hr1).
    destruct (Forall2_lookup_l _ _ _ _ _ Hsaved Hl) as (r'' & Hres & Has).
    assert (known_request r) as Hknown by exact (Forall_lookup_1 _ _ _ _ (pr_known _ _ _ _ _ _ _ _ _ Hready) Hr1).
    apply (changes_key_same _ _ _ r') in Hk; [|done|done]. apply (changes_key_saved _ _ _ _ Has) in Hk.
    destruct r'' as [c|]; [|done]. destruct r' as [cl|]; [|done]. exists c. split; [by apply list_elem_of_lookup_2 in Hres|].
    split; [|done]. by apply Has.
  - intros (c & Hin & Hst & Hk).
    destruct (saved_change _ _ _ _ _ _ _ _ _ _ _ _ _ _ _ _ _ _ Hlast c Hin Hst) as (i & cl & Hl & Hvalid & Has).
    destruct (last_change _ _ _ _ _ _ _ _ _ _ _ _ _ _ _ _ _ _ Hlast i cl Hl Hvalid) as
      (c0 & c1 & sa & sb & b & _ & _ & _ & Hr1 & _ & _ & _ & Hsame & Hknown).
    exists (Change c1). split.
    + apply at_positions_elem. exists i. split; [done|]. rewrite (last_valid _ _ _ _ _ _ _ _ _ _ _ _ _ _ _ _ _ _ Hlast).
      apply ok_positions_elem. by exists i, (Change cl).
    + apply (changes_key_saved _ _ _ _ Has) in Hk. by apply (same_changes_key _ _ _ (Change cl)).
Qed.

(** ** References from what is saved *)

(** C2. A submission that does not save both an addition and a deletion of one
    object keeps references intact in strict mode: every object that it saves
    refers, in each of its fields with strong references, to objects of a permitted
    class that the submission saves or the database had, and that the submission
    does not delete. *)
Theorem saved_references_exist d now s results c o :
  handled d now s (Ok results) →
  (∀ k, saves adds results k → ¬ saves deletes results k) →
  Change c ∈ results → cr_status c = SAVED →
  cr_non_strict_mode c = false → cr_request_type c ≠ Some DELETE → cr_rpsl_obj_new c = Some o →
  ∃ src, source o = Ok src ∧
    ∀ field classes pks p, (field, classes, pks) ∈ referred_strong_objects o → p ∈ pdata_list (Some pks) →
    ∃ class, class ∈ classes ∧
      (saves adds results (class, p, src) ∨ stored_reference d (class, p, src))
      ∧ ¬ saves deletes results (class, p, src).
Proof using Type.
  intros [Hno|(v & r0 & r1 & valid & s1 & s2 & last & Hlast & Hcred)]%handled_last Honce Hin Hst Hstrict Htype Ho; [by apply Hno in Hin|].
  destruct (saved_change _ _ _ _ _ _ _ _ _ _ _ _ _ _ _ _ _ _ Hlast c Hin Hst) as (k & cl & Hl & Hvalid & Hnew & _ & Et & Em & _).
  destruct (last_change _ _ _ _ _ _ _ _ _ _ _ _ _ _ _ _ _ _ Hlast k cl Hl Hvalid) as
    (c0 & c1 & sa & sb & b & _ & _ & _ & _ & _ & Hsa & Hval & Hs1l & _).
  destruct (cr_validate_Ok _ _ _ _ _ _ _ _ _ _ _ _ _ Hval Hvalid) as
    (c2 & c3 & sc & c4 & sd & c5 & se & _ & _ & _ & Hcalm & Hauth & Hrefs & Hnewl & Hs14 & _).
  assert (calm sa sd) as Hcalm' by (transitivity sc; [done|by eapply check_auth_calm]).
  destruct (calm_refs _ _ Hcalm' (vs_quiet _ _ _ _ _ _ _ _ _ Hsa) (vs_refs _ _ _ _ _ _ _ _ _ Hsa)) as (Hq & Hr & Eh).
  destruct Hs1l as (_ & Et1 & Em1 & _). destruct Hs14 as (_ & Et4 & Em4 & _).
  assert (cr_rpsl_obj_new c4 = Some o) as Ho4 by congruence.
  revert Hrefs. unfold _check_references. replace (cr_non_strict_mode c4) with false by congruence.
  unfold with_object. rewrite Ho4. intros (sf & result & Hresult & Hrun)%st_bind_Ok. injection Hrun as _ Hrun.
  assert (result_valid result = true) as Hrv.
  { revert Hrun. unfold apply_result. by destruct (result_valid result). }
  assert (check_references_to_others cfg collate_lt uuid o sd = (sf, Ok result)) as Hothers.
  { assert (cr_request_type c4 ≠ Some DELETE) by congruence.
    destruct (cr_request_type c4) as [[]|], (cr_rpsl_obj_current c4); done. }
  apply st_bind_Ok in Hothers as (sg & src & [-> Hsrc]%st_lift_Ok & Hfields).
  exists src. split; [done|]. intros field classes pks p Hfield Hp.
  apply check_fields_Ok in Hfields as [_ Hall]; [|done..].
  destruct (Hall _ _ _ _ Hfield Hp) as (class & Hclass & Hkept). exists class. split; [done|].
  destruct (vs_preloaded _ _ _ _ _ _ _ _ _ Hsa) as (new & deleted & Hadd & Hdel & Enew & Edel & _).
  destruct (Hcalm' (vs_quiet _ _ _ _ _ _ _ _ _ Hsa)) as (_ & _ & _ & _ & Fnew & Fdel & _).
  rewrite Fnew, Fdel, Enew, Edel, !oset_update_elem, Eh, (vs_handler _ _ _ _ _ _ _ _ _ Hsa) in Hkept.
  destruct Hkept as [[?%elem_of_nil|Hk]|[Hk Hno]]; [done| |].
  - apply (saves_iff _ _ _ _ _ _ _ _ _ _ _ _ _ Hlast Hadd) in Hk. split; [by left|by apply Honce].
  - split; [by right|]. intros Hs. apply Hno. right. by apply (saves_iff _ _ _ _ _ _ _ _ _ _ _ _ _ Hlast Hdel).
Qed.

(** ** References to what is deleted *)

(** Without an override no method of an override is reported. *)
Lemma match_method_ordinary v o src objs names r :
  match_names tables v o src objs names = Ok (Some r) → used_override (mc_auth_method r) = false.
Proof using Type.
  induction names as [|name names IH]; simpl; [done|]. case_bool_decide; [intros E; by injection E as <-|].
  destruct (_mntner_matches_internal_auth _ _ _ _ _) as [[m|]|]; simpl; [intros E; by injection E as <-| |done].
  destruct (_api_key_match_for_mntner _ _ _ _ _) as [[t|]|]; simpl; [intros E; by injection E as <-|done|done].
Qed.
Lemma match_objects_ordinary v all objs r :
  match_objects cfg hasher_verify v all objs = Ok r → used_override (mc_auth_method r) = false.
Proof using Type.
  induction objs as [|m objs IH]; simpl; [intros E; by injection E as <-|].
  destruct (mntner_verify _ _ _ _) as [[scheme|]|]; simpl; [|done|done].
  destruct (String.eqb scheme ""); [done|]. intros E. injection E as <-. simpl. unfold scheme_method. by case_match.
Qed.
Notation ordinary := (λ r : MntnerCheckResult, used_override (mc_auth_method r) = false).
Lemma check_mntners_ordinary o names src :
  returns ordinary (_check_mntners cfg collate_lt uuid gpg_import_keys gpg_uids hasher_verify tables o names src).
Proof using Type.
  intros s s' r (s1 & objs & _ & Hrun)%st_bind_Ok. apply st_bind_Ok in Hrun as (s2 & s3 & _ & Hrun).
  apply st_bind_Ok in Hrun as (s4 & named & [_ Hn]%st_lift_Ok & Hrun). destruct named as [r'|].
  - injection Hrun as _ <-. by eapply match_method_ordinary.
  - apply st_lift_Ok in Hrun as [_ Hr]. by eapply match_objects_ordinary.
Qed.
Hint Resolve check_mntners_ordinary : returns.
Lemma check_current_ordinary o cur src result :
  returns (λ x, used_override (mc_auth_method x.1) = false)
    (check_current cfg collate_lt uuid gpg_import_keys gpg_uids hasher_verify tables o cur src result).
Proof using Type. unfold check_current. by returns_tac. Qed.
Lemma check_related_ordinary o new_result src result :
  returns (λ x, match x.1 with Some r => used_override (mc_auth_method r) = false | None => True end
                ∧ auth_method x.2 = auth_method result)
    (check_related cfg collate_lt uuid gpg_import_keys gpg_uids hasher_verify tables o new_result src result).
Proof using Type. unfold check_related. returns_tac; simpl; by repeat case_match. Qed.
Hint Resolve check_current_ordinary check_related_ordinary : returns.
Lemma process_auth_ordinary o current s s' result o' :
  process_auth cfg collate_lt uuid gpg_import_keys gpg_uids hasher_verify bcrypt_hash tables o current s = (s', Ok (result, o')) →
  overrides (sm_auth s) = false → used_override (auth_method result) = false.
Proof using Type.
  intros (s1 & src & [-> _]%st_lift_Ok & Hrun)%st_bind_Ok Hover. apply st_bind_Ok in Hrun as (s1 & s2 & Hget & Hrun).
  injection Hget as <- <-. cbv zeta in Hrun. unfold UpdateAuthTheory.overrides in Hover. rewrite Hover in Hrun.
  apply st_bind_Ok in Hrun as (s1 & names & _ & Hrun). apply st_bind_Ok in Hrun as (s2 & new_result & Hnew & Hrun).
  apply check_mntners_ordinary in Hnew. apply st_bind_Ok in Hrun as (s3 & [checked result1] & Hc & Hrun).
  assert (used_override (mc_auth_method (default new_result checked)) = false) as Hd.
  { destruct current as [cur|].
    - apply st_bind_Ok in Hc as (s4 & [r r1] & Hr & Hc). injection Hc as _ <- _. by apply check_current_ordinary in Hr.
    - apply check_related_ordinary in Hc as [Hc _]. by destruct checked. }
  apply st_bind_Ok in Hrun as (s4 & s5 & Hget & Hrun). injection Hget as <- <-.
  destruct (is_mntner o); [|by injection Hrun as _ <- _].
  destruct current as [cur|].
  - apply st_bind_Ok in Hrun as (s4 & [o1 r1] & _ & Hrun). by injection Hrun as _ <- _.
  - apply check_related_ordinary in Hc as [_ Hc]. injection Hrun as _ <- _. simpl. simpl in Hc. by rewrite Hc.
Qed.
Lemma override_unused d now v valid requests1 sa c1 sc c4 sd :
  overrides v = false → validating d now v requests1 valid sa → calm sa sc →
  _check_auth cfg collate_lt uuid gpg_import_keys gpg_uids hasher_verify bcrypt_hash tables c1 sc = (sd, Ok (c4, true)) →
  override_used c4 = false.
Proof using Type.
  intros Hover Hsa Hcalm. unfold _check_auth, with_object. destruct (cr_rpsl_obj_new c1) as [o|]; [|done].
  intros (se & [result o'] & Hp & Hrun)%st_bind_Ok. injection Hrun as _ Hrun.
  apply process_auth_ordinary in Hp.
  - destruct (result_valid result); [|done]. by injection Hrun as <-.
  - destruct (Hcalm (vs_quiet _ _ _ _ _ _ _ _ _ Hsa)) as (_ & _ & Ec & _).
    rewrite (credentials_overrides _ _ v); [done|]. by rewrite Ec, (vs_credentials _ _ _ _ _ _ _ _ _ Hsa).
Qed.
(** C3. Without an override, what a submission deletes in strict mode is not
    referred to by what stays: each object of the source that refers to it is
    deleted by the same submission. *)
Theorem deletions_leave_no_references d now s results c cur src r :
  handled d now s (Ok results) → Change c ∈ results → cr_status c = SAVED →
  cr_non_strict_mode c = false → cr_request_type c = Some DELETE → overrides (sm_auth s) = false →
  cr_rpsl_obj_current c = Some cur → source cur = Ok src →
  r ∈ db_objects d → refers_to cur src r →
  saves deletes results (r_object_class r, r_rpsl_pk r, r_source r).
Proof using Type.
  intros [Hno|(v & r0 & r1 & valid & s1 & s2 & last & Hlast & Hcred)]%handled_last Hin Hst Hstrict Htype Hover Hcur Hsrc Hr Hrefer;
    [by apply Hno in Hin|]. rewrite (credentials_overrides _ _ _ _ Hcred) in Hover.
  destruct (saved_change _ _ _ _ _ _ _ _ _ _ _ _ _ _ _ _ _ _ Hlast c Hin Hst) as (k & cl & Hl & Hvalid & Hnew & Ec & Et & Em & _).
  destruct (last_change _ _ _ _ _ _ _ _ _ _ _ _ _ _ _ _ _ _ Hlast k cl Hl Hvalid) as
    (c0 & c1 & sa & sb & b & _ & _ & _ & _ & _ & Hsa & Hval & Hs1l & _).
  destruct (cr_validate_Ok _ _ _ _ _ _ _ _ _ _ _ _ _ Hval Hvalid) as
    (c2 & c3 & sc & c4 & sd & c5 & se & _ & _ & _ & Hcalm & Hauth & Hrefs & Hnewl & Hs14 & _).
  pose proof (override_unused _ _ _ _ _ _ _ _ _ _ Hover Hsa Hcalm Hauth) as Hunused.
  assert (calm sa sd) as Hcalm' by (transitivity sc; [done|by eapply check_auth_calm]).
  destruct (calm_refs _ _ Hcalm' (vs_quiet _ _ _ _ _ _ _ _ _ Hsa) (vs_refs _ _ _ _ _ _ _ _ _ Hsa)) as (Hq & _ & Eh).
  destruct Hs1l as (Ec1 & Et1 & Em1 & _). destruct Hs14 as (Ec4 & Et4 & Em4 & _).
  revert Hrefs. unfold _check_references. replace (cr_non_strict_mode c4) with false by congruence.
  unfold with_object. destruct (cr_rpsl_obj_new c4); [|done]. intros (sf & result & Hresult & Hrun)%st_bind_Ok. injection Hrun as _ Hrun.
  assert (result_valid result = true) as Hrv.
  { revert Hrun. unfold apply_result. by destruct (result_valid result). }
  assert (cr_request_type c4 = Some DELETE) as Et' by congruence. assert (cr_rpsl_obj_current c4 = Some cur) as Ec' by congruence.
  rewrite Et', Ec', Hunused in Hresult. apply st_bind_Ok in Hresult as (sg & rows & Hrows & Hresult).
  injection Hresult as _ <-. simpl in Hrv. apply with_messages_valid in Hrv as [Hnil%fmap_nil_inv _].
  destruct (vs_preloaded _ _ _ _ _ _ _ _ _ Hsa) as (new & deleted & Hadd & Hdel & Enew & Edel & _).
  destruct (Hcalm' (vs_quiet _ _ _ _ _ _ _ _ _ Hsa)) as (_ & _ & _ & _ & _ & Fdel & _).
  assert (r ∈ db_objects (db sd)) as Hr' by by rewrite Eh, (vs_handler _ _ _ _ _ _ _ _ _ Hsa).
  destruct (from_others_Ok _ _ _ _ _ _ Hq Hsrc Hrows Hr' Hrefer) as [Hin'|Hin'].
  - rewrite Hnil in Hin'. by apply elem_of_nil in Hin'.
  - rewrite Fdel, Edel, oset_update_elem in Hin'. destruct Hin' as [?%elem_of_nil|Hk]; [done|].
    by apply (saves_iff _ _ _ _ _ _ _ _ _ _ _ _ _ Hlast Hdel).
Qed.
End UpdateReferences.
