(* ===== verification/UpdateAtomicTheory.v ===== *)
(** * A submission is one transaction

    When the handling of a submission raises, nothing of it is committed. *)
From S2P Require Import Prelude PyStr Conf Net Models Text Rpki ScopeFilter Fields RpslObjects RpslParser Queries RoutePref Database DatabaseHandler StorageTheory JournalTheory Nrtm TransactionTheory UpdateValidators UpdateRequests UpdateHandler UpdatesTheory UpdateAuthTheory UpdatePassTheory UpdateSafety.

Section UpdateAtomic.
Context `{IPyLib} `{Radix node_data} `{redis : Redis} (cfg : configuration).
Context (collate_lt : string → string → bool) (uuid : nat → string) (timestamp_text : Z → string).
Context (gpg_import_keys : string → list string * option string) (gpg_uids : string → list string).
Context (hasher_verify : string → string → string → option bool) (bcrypt_hash : string → string).
Context (tables : auth_tables).
Notation stays := (fixes (λ s : submission, durable (sm_handler s))).

Lemma on_db_stays {A} (m : M A) : fixes durable m → stays (on_db m).
Proof using Type. intros Hm s. specialize (Hm (sm_handler s)). unfold on_db. by destruct (m (sm_handler s)). Qed.
Hint Resolve on_db_stays : fixes.
Lemma query_stays q : stays (query_objects cfg collate_lt uuid q).
Proof using Type. unfold query_objects. fixes_tac. Qed.
Hint Resolve query_stays : fixes.

(** ** Reading and validating *)

Lemma init_stays text delete_reason meta :
  stays (ChangeRequest_init cfg collate_lt uuid gpg_import_keys gpg_uids text delete_reason meta).
Proof using Type. unfold ChangeRequest_init, _retrieve_existing_version. fixes_tac. Qed.
Hint Resolve init_stays : fixes.
Lemma parse_objects_stays meta u texts : stays (parse_objects cfg collate_lt uuid gpg_import_keys gpg_uids meta u texts).
Proof using Type. revert u. induction texts as [|text texts IH]; intros u; simpl; fixes_tac; apply IH. Qed.
Lemma read_objects_stays delete_reason meta objects :
  stays (read_objects cfg collate_lt uuid gpg_import_keys gpg_uids delete_reason meta objects).
Proof using Type. induction objects as [|o objects IH]; simpl; fixes_tac; apply IH. Qed.
Lemma read_suspensions_stays objects : stays (read_suspensions cfg gpg_import_keys gpg_uids objects).
Proof using Type. induction objects as [|o objects IH]; simpl; fixes_tac; apply IH. Qed.
Lemma check_mntners_stays o names src :
  stays (_check_mntners cfg collate_lt uuid gpg_import_keys gpg_uids hasher_verify tables o names src).
Proof using Type. unfold _check_mntners, resolve_mntners. fixes_tac. Qed.
Hint Resolve check_mntners_stays : fixes.
Lemma process_auth_stays o current :
  stays (process_auth cfg collate_lt uuid gpg_import_keys gpg_uids hasher_verify bcrypt_hash tables o current).
Proof using Type.
  unfold process_auth, check_current, check_related, _find_related_mntners, _find_related_object_route, _find_related_object_set.
  fixes_tac.
Qed.
Hint Resolve process_auth_stays : fixes.
Lemma check_pks_stays field referred src pks result : stays (check_pks cfg collate_lt uuid field referred src pks result).
Proof using Type.
  revert result. induction pks as [|p pks IH]; intros result; simpl; unfold _check_reference_to_others; fixes_tac; apply IH.
Qed.
Hint Resolve check_pks_stays : fixes.
Lemma check_fields_stays references src result : stays (check_fields cfg collate_lt uuid references src result).
Proof using Type. revert result. induction references as [|[[f r] p] references IH]; intros result; simpl; fixes_tac; apply IH. Qed.
Hint Resolve check_fields_stays : fixes.
Lemma cr_validate_stays c :
  stays (cr_validate cfg collate_lt uuid gpg_import_keys gpg_uids hasher_verify bcrypt_hash tables c).
Proof using Type.
  unfold cr_validate, check_rules, rules_validate, _check_suspended_mntner_with_same_pk, _check_auth, _check_references,
    check_references_from_others_for_deletion, check_references_to_others, _check_references_from_others,
    _check_protected_names, check_protected_name, _check_references_from_others, _check_conflicting_roa, _check_scopefilter, with_object.
  fixes_tac.
Qed.
Hint Resolve cr_validate_stays : fixes.
Lemma validate_stays r : stays (validate cfg collate_lt uuid gpg_import_keys gpg_uids hasher_verify bcrypt_hash tables r).
Proof using Type. unfold validate, sr_validate. fixes_tac. Qed.
Lemma is_valid_stays r : stays (is_valid cfg hasher_verify r).
Proof using Type. unfold is_valid, sr_is_valid, sr_validate. fixes_tac. Qed.
Hint Resolve validate_stays is_valid_stays : fixes.
Lemma valid_positions_stays i l : stays (valid_positions cfg hasher_verify i l).
Proof using Type. revert i. induction l as [|r l IH]; intros i; simpl; fixes_tac; apply IH. Qed.
Lemma validate_positions_stays i v l :
  stays (validate_positions cfg collate_lt uuid gpg_import_keys gpg_uids hasher_verify bcrypt_hash tables i v l).
Proof using Type. revert i. induction l as [|r l IH]; intros i; simpl; fixes_tac; apply IH. Qed.
Hint Resolve valid_positions_stays validate_positions_stays : fixes.
Lemma resolve_stays n requests v previous :
  stays (resolve cfg collate_lt uuid gpg_import_keys gpg_uids hasher_verify bcrypt_hash tables n requests v previous).
Proof using Type.
  revert requests v previous. induction n as [|n IH]; intros requests v previous; simpl;
    unfold resolve_pass, preload_requests, preload, pre_approve; fixes_tac; apply IH.
Qed.

(** ** Saving *)

Lemma cr_save_stays c : stays (cr_save cfg uuid timestamp_text c).
Proof using Type.
  unfold cr_save, log_change. fixes_tac.
Qed.
Lemma active_stays src suspended cache names : stays (active_mntners cfg collate_lt uuid src suspended cache names).
Proof using Type. revert cache. induction names as [|m names IH]; intros cache; simpl; unfold mntner_active; fixes_tac; apply IH. Qed.
Hint Resolve active_stays : fixes.
Lemma suspend_rows_stays src suspended cache done rows : stays (suspend_rows cfg collate_lt uuid src suspended cache done rows).
Proof using Type.
  revert cache done. induction rows as [|r rows IH]; intros cache done; simpl; fixes_tac; apply IH.
Qed.
Lemma restore_rows_stays src pks restored infos rows :
  stays (restore_rows cfg collate_lt uuid timestamp_text gpg_import_keys gpg_uids src pks restored infos rows).
Proof using Type.
  revert pks restored infos. induction rows as [|r rows IH]; intros pks restored infos; simpl;
    unfold pk_exists, restored_rpki; fixes_tac; apply IH.
Qed.
Hint Resolve suspend_rows_stays restore_rows_stays : fixes.
Lemma sr_save_stays x : stays (sr_save cfg collate_lt uuid timestamp_text gpg_import_keys gpg_uids x).
Proof using Type.
  assert (∀ o, stays (sr_save_body cfg collate_lt uuid timestamp_text gpg_import_keys gpg_uids o x)) as Hbody.
  { intros o. unfold sr_save_body, suspend_for_mntner, reactivate_for_mntner, pk_exists. fixes_tac. }
  intros s. unfold sr_save. destruct (sr_status x), (sr_rpsl_obj_new x) as [o|]; try done. specialize (Hbody o s).
  destruct (sr_save_body _ _ _ _ _ _ o x s) as [s' [r|e]]; [done|]. by destruct (is_ValueError e).
Qed.
Hint Resolve resolve_stays cr_save_stays sr_save_stays : fixes.
Lemma save_valid_stays l :
  stays (save_valid cfg collate_lt uuid timestamp_text gpg_import_keys gpg_uids hasher_verify l).
Proof using Type. induction l as [|r l IH]; simpl; unfold save; fixes_tac; apply IH. Qed.
Hint Resolve save_valid_stays : fixes.

Lemma handle_stays requests :
  stays (_handle_change_requests cfg collate_lt uuid timestamp_text gpg_import_keys gpg_uids hasher_verify bcrypt_hash tables requests).
Proof using Type. unfold _handle_change_requests. fixes_tac. Qed.
Lemma read_text_stays blob origin pgp user meta :
  stays (read_text_blob cfg collate_lt uuid gpg_import_keys gpg_uids blob origin pgp user meta).
Proof using Type.
  unfold read_text_blob, parse_change_requests. unfold _resolve_pgp_key_id. fixes_tac.
  - apply on_db_stays. fixes_tac.
  - apply parse_objects_stays.
Qed.

(** ** Submissions by any of the ways to make one *)

Inductive submission_data :=
| text_submission (blob : string) (origin : AuthoritativeChangeOrigin) (pgp : option string) (user : option AuthUser)
    (meta : list (string * option string))
| change_submission (data : RPSLChangeSubmission) (origin : AuthoritativeChangeOrigin) (delete : bool)
    (meta : list (string * option string)) (ip : option IP)
| suspension_submission (objects : list RPSLSuspensionSubmissionObject) (override : option string).
Definition submit_data (i : submission_data) (d : database) (now : Z) : submission * res (list request) :=
  match i with
  | text_submission blob origin pgp user meta =>
      load_text_blob cfg collate_lt uuid timestamp_text gpg_import_keys gpg_uids hasher_verify bcrypt_hash tables
        blob origin pgp user meta d now
  | change_submission data origin delete meta ip =>
      load_change_submission cfg collate_lt uuid timestamp_text gpg_import_keys gpg_uids hasher_verify bcrypt_hash tables
        data origin delete meta ip d now
  | suspension_submission objects override =>
      load_suspension_submission cfg collate_lt uuid timestamp_text gpg_import_keys gpg_uids hasher_verify bcrypt_hash tables
        objects override d now
  end.
End UpdateAtomic.

Section Failing.
Context `{IPyLib} `{Radix node_data} (cfg : configuration).
Context (collate_lt : string → string → bool) (uuid : nat → string) (timestamp_text : Z → string).
Context (gpg_import_keys : string → list string * option string) (gpg_uids : string → list string).
Context (hasher_verify : string → string → string → option bool) (bcrypt_hash : string → string) (tables : auth_tables).
Notation stays := (fixes (λ s : submission, durable (sm_handler s))).
Notation handle := (_handle_change_requests cfg collate_lt uuid timestamp_text gpg_import_keys gpg_uids hasher_verify bcrypt_hash tables).
Notation finish_at redis := (finish (redis := redis) cfg collate_lt uuid timestamp_text gpg_import_keys gpg_uids hasher_verify bcrypt_hash tables).
Notation submit_at redis := (submit_data (redis := redis) cfg collate_lt uuid timestamp_text gpg_import_keys gpg_uids hasher_verify bcrypt_hash tables).

(** The outcome of a submission that raises: nothing is committed, or Redis refused
    a message and what is committed is all that is when Redis is within reach. *)
Definition all_or_nothing {redis : Redis} (d : database) (s : submission) (e : exn)
    (reachable : submission * res (list request)) : Prop :=
  h_committed (sm_handler s) = d
  ∨ refused e ∧ ∃ s' results, reachable = (s', Ok results) ∧ h_committed (sm_handler s') = h_committed (sm_handler s).
Lemma reachable_commits h h1 : commit_sql cfg collate_lt uuid h = (h1, Ok tt) →
  ∃ h', commit (redis := ConcreteRedis.redis_up) cfg collate_lt uuid h = (h', Ok tt) ∧ h_committed h' = h_committed h1.
Proof using Type.
  intros Hsql. rewrite commit_split. unfold mbind, st_bind. rewrite Hsql. unfold or_rollback.
  pose proof (after_commit_stays (redis := ConcreteRedis.redis_up) h1) as Hs.
  destruct (after_commit (redis := ConcreteRedis.redis_up) h1) as [h2 [[]|e]] eqn:E.
  - exists h2. split; [done|]. by injection Hs.
  - apply after_commit_raises in E as (now & signals & published & m & Hm). discriminate Hm.
Qed.
Lemma finish_raises {redis : Redis} d requests s s' e :
  h_journaling_enabled (sm_handler s) = true → h_committed (sm_handler s) = d →
  finish_at redis requests s = (s', Raise e) → all_or_nothing d s' e (finish_at ConcreteRedis.redis_up requests s).
Proof using Type.
  intros Hj Hd Hrun. pose proof (handle_stays cfg collate_lt uuid timestamp_text gpg_import_keys gpg_uids hasher_verify
    bcrypt_hash tables requests) as Hh.
  specialize (Hh s). apply bind_Raise in Hrun as [Hrun|(s1 & rs & Hrun1 & Hrun)].
  { rewrite Hrun in Hh. left. injection Hh as Hh _. by rewrite Hh. }
  rewrite Hrun1 in Hh. injection Hh as Hc Hj1. apply bind_Raise in Hrun as [Hrun|(s2 & [] & _ & Hrun)]; [|done].
  unfold on_db in Hrun. destruct (commit cfg collate_lt uuid (sm_handler s1)) as [h r] eqn:Ecommit.
  injection Hrun as <- ->. simpl. rewrite Hj in Hj1.
  destruct (commit_raises _ _ _ _ _ _ Hj1 Ecommit) as [Hsame|(Hrefused & h1 & Hsql & Hsame)].
  - left. simpl. by rewrite Hsame, Hc.
  - right. split; [done|]. destruct (reachable_commits _ _ Hsql) as (h' & Hup & Hc').
    eexists _, rs. unfold finish, mbind, st_bind, on_db. rewrite Hrun1, Hup. split; [reflexivity|]. simpl. by rewrite Hc', Hsame.
Qed.
Lemma read_raises {redis : Redis} (read : st submission (list request)) d now v s e :
  stays read → (requests ← read; finish_at redis requests) (begin_submission cfg d now v) = (s, Raise e) →
  all_or_nothing d s e ((requests ← read; finish_at ConcreteRedis.redis_up requests) (begin_submission cfg d now v)).
Proof using Type.
  intros Hread Hrun. specialize (Hread (begin_submission cfg d now v)).
  apply bind_Raise in Hrun as [Hrun|(s1 & requests & Hrun1 & Hrun)].
  - rewrite Hrun in Hread. left. by injection Hread.
  - rewrite Hrun1 in Hread. injection Hread as Hc Hj. eapply finish_raises in Hrun; [|exact Hj|exact Hc].
    unfold mbind, st_bind. by rewrite Hrun1.
Qed.
(** C4. A submission is handled in one transaction: when it raises at any point,
    while it is read, validated, saved or committed, nothing of it is in the
    database that other transactions see.  Only when Redis refuses a message that
    [commit] sends after the transaction is committed, everything is: the database is
    the one that the same submission leaves when Redis is within reach. *)
Theorem failed_submission_commits_nothing {redis : Redis} i d now s e :
  submit_at redis i d now = (s, Raise e) →
  h_committed (sm_handler s) = d
  ∨ refused e ∧ ∃ s' results, submit_at ConcreteRedis.redis_up i d now = (s', Ok results)
                              ∧ h_committed (sm_handler s') = h_committed (sm_handler s).
Proof using Type.
  destruct i as [blob origin pgp user meta|data origin delete meta ip|objects override];
    intros Hrun; (eapply read_raises in Hrun; [exact Hrun|]).
  - apply read_text_stays.
  - apply read_objects_stays.
  - apply read_suspensions_stays.
Qed.
End Failing.
