(* ===== verification/UpdateExamples.v ===== *)
(** * Submissions to a small database

    The theorems on updates at concrete submissions, and what some submissions
    show of the code. *)
From S2P Require Import Prelude PyStr Conf Net Models Text Rpki ScopeFilter Fields RpslObjects RpslParser Queries QueriesTheory RoutePref RoutePrefTheory Database DatabaseHandler StorageTheory JournalTheory Nrtm TransactionTheory UpdateValidators UpdateRequests UpdateHandler UpdatesTheory UpdateAuthTheory UpdatePassTheory UpdateSafety UpdateReferenceTheory UpdateAtomicTheory.

Module UpdateExamples.
Import ConcreteIP ConcreteRadix ConcreteRedis.

Definition ex_uuid (n : nat) : string := str_of_Z (Z.of_nat n).
Definition ex_collate (s t : string) : bool := bool_decide (s = t).
Definition no_keys (_ : string) : list string * option string := ([], None).
Definition no_uids (_ : string) : list string := [].
(** A scheme whose hashes are the passwords. *)
Definition plain_verify (_ password hash : string) : option bool := Some (String.eqb password hash).
Definition no_tables : auth_tables := {| at_mntners := []; at_permissions := []; at_tokens := [] |}.
Definition cfg_with (settings : list (string * pyval)) : configuration :=
  conf_of (VDict (settings ++ [("sources", VDict [("TEST", VDict [("authoritative", VBool true); ("keep_journal", VBool true)])]);
                  ("auth", VDict [("override_password", VStr "admin"); ("password_hashers", VDict [("bcrypt-pw", VStr "enabled"); ("md5-pw", VStr "legacy"); ("crypt-pw", VStr "legacy")])])])).
Definition ex_cfg : configuration := cfg_with [].
Definition text_of (lines : list string) : string := concat_str ((λ l, l +:+ NL) <$> lines).
Definition mntner_text : string :=
  text_of ["mntner: M-MNT"; "descr: x"; "admin-c: JD-TEST"; "upd-to: a@example.com"; "auth: BCRYPT-PW secret";
           "mnt-by: M-MNT"; "source: TEST"].
Definition person_text (nic : string) (extra : list string) : string :=
  text_of (["person: J Doe"; "address: x"; "phone: +31"; "nic-hdl: " +:+ nic; "e-mail: a@example.com"; "mnt-by: M-MNT"] ++ extra ++ ["source: TEST"]).
Definition stored_row (n : string) (text : string) : option rpsl_row :=
  match rpsl_object_from_text ex_cfg no_keys no_uids text false None with
  | Ok o => Some {| r_pk := n; r_rpsl_pk := pk o; r_source := "TEST"; r_object_class := o_class_name o;
      r_parsed_data := o_parsed_data o; r_object_text := text; r_ip_version := None; r_ip_first := None;
      r_ip_last := None; r_ip_size := None; r_prefix := None; r_prefix_length := None; r_asn_first := None;
      r_asn_last := None; r_rpki_status := rpki_not_found; r_scopefilter_status := in_scope;
      r_route_preference_status := rp_visible; r_created := 0; r_updated := 0 |}
  | Raise _ => None
  end.
Definition role_text (nic admin_c : string) : string :=
  text_of ["role: Role"; "address: x"; "phone: +31"; "nic-hdl: " +:+ nic; "e-mail: a@example.com"; "admin-c: " +:+ admin_c;
           "mnt-by: M-MNT"; "source: TEST"].
(** A maintainer, its contact, and a role with a contact of its own. *)
Definition ex_db : database := {|
  db_objects := omap id [stored_row "a" mntner_text; stored_row "b" (person_text "JD-TEST" []);
                         stored_row "c" (person_text "AB-TEST" []); stored_row "d" (role_text "RO-TEST" "AB-TEST");
                         stored_row "e" (person_text "CD-TEST" [])];
  db_suspended := []; db_journal := []; db_status := []; db_roas := []; db_protected := []; db_next_uuid := 10; db_next_global := 1 |}.
Definition submit_in (cfg : configuration) (blob : string) : submission * res (list request) :=
  load_text_blob cfg ex_collate ex_uuid str_of_Z no_keys no_uids plain_verify id no_tables blob origin_email None None [] ex_db 100.
Definition submit : string → submission * res (list request) := submit_in ex_cfg.
Notation ex_handled := (handled ex_cfg ex_collate ex_uuid str_of_Z no_keys no_uids plain_verify id no_tables ex_db 100).
Lemma submit_handled blob s r : submit blob = (s, r) → ex_handled s r.
Proof. intros Hs. by eapply handled_text. Qed.
Notation ex_data blob := (text_submission blob origin_email None None []).
Notation ex_submit_data i := (submit_data ex_cfg ex_collate ex_uuid str_of_Z no_keys no_uids plain_verify id no_tables i ex_db 100).
Lemma submit_as_data blob : submit blob = ex_submit_data (ex_data blob).
Proof. reflexivity. Qed.
Definition messages_of_request (r : request) : list string :=
  match r with Change c => cr_error_messages c ++ cr_info_messages c | Suspension x => sr_error_messages x end.
(** The statuses and messages, or the exception. *)
Definition outcome (r : res (list request)) : list (UpdateRequestStatus * list string) + string :=
  match r with Ok l => inl (List.map (λ x, (status_of_request x, messages_of_request x)) l) | Raise e => inr (exn_str e) end.
Definition deletion (text : string) : string := text +:+ "delete: x" +:+ NL +:+ NL.
Definition password : string := "password: secret" +:+ NL.

(** ** The theorems at these submissions *)

Definition new_person : string := person_text "NN-TEST" [] +:+ password.
Definition all_saved (r : res (list request)) : bool := match r with Ok l => forallb is_saved l | Raise _ => false end.
Lemma all_saved_elem l r : forallb is_saved l = true → r ∈ l → status_of_request r = SAVED.
Proof. rewrite forallb_forall. intros Hall Hr%list_elem_of_In%Hall. by apply bool_decide_eq_true in Hr. Qed.
Lemma saved_changes_authorised_witness :
  match submit new_person with
  | (s, Ok results) => results ≠ [] ∧ ∀ c, Change c ∈ results → cr_status c = SAVED ∧
      authorised ex_cfg ex_collate ex_uuid no_keys no_uids plain_verify no_tables ex_db 100 (sm_auth s) c
  | _ => False
  end.
Proof.
  assert (match (submit new_person).2 with Ok ((_ :: _) as l) => forallb is_saved l | _ => false end = true) as Hsaved
    by (vm_compute; reflexivity).
  destruct (submit new_person) as [s r] eqn:Es. simpl in Hsaved. destruct r as [results|]; [|discriminate Hsaved].
  destruct results as [|r0 results]; [discriminate Hsaved|]. split; [done|]. intros c Hc.
  pose proof (all_saved_elem _ _ Hsaved Hc) as Hst. split; [exact Hst|].
  apply (saved_changes_authorised ex_cfg ex_collate ex_uuid str_of_Z no_keys no_uids plain_verify id no_tables
           ex_db 100 s (r0 :: results) c (submit_handled _ _ _ Es) Hc Hst).
Defined.
Definition strict_change (t : UpdateRequestType) (r : request) : bool :=
  match r with
  | Change c => is_saved r && negb (cr_non_strict_mode c) && bool_decide (cr_request_type c = Some t)
                && match cr_rpsl_obj_new c with Some o => true | None => false end
  | Suspension _ => false
  end.
Definition saves_nothing_deleted (r : request) : bool :=
  match r with Change c => negb (deletes (cr_request_type c)) | Suspension _ => true end.
(** The reference of the new person to its maintainer. *)
Lemma saved_references_exist_witness :
  match submit new_person with
  | (s, Ok ((Change c :: _) as results)) =>
      ∃ o src, cr_rpsl_obj_new c = Some o ∧ source o = Ok src ∧
        ∀ field classes pks p, (field, classes, pks) ∈ referred_strong_objects o → p ∈ pdata_list (Some pks) →
        ∃ class, class ∈ classes ∧
          (saves adds results (class, p, src) ∨ stored_reference ex_db (class, p, src)) ∧ ¬ saves deletes results (class, p, src)
  | _ => False
  end.
Proof.
  assert (match (submit new_person).2 with Ok (r :: _) => strict_change CREATE r | _ => false end = true) as Hc
    by (vm_compute; reflexivity).
  assert (match (submit new_person).2 with Ok l => forallb saves_nothing_deleted l | _ => false end = true) as Hnone
    by (vm_compute; reflexivity).
  destruct (submit new_person) as [s r] eqn:Es. simpl in Hc, Hnone. destruct r as [results|]; [|discriminate Hc].
  destruct results as [|[c|x] results]; [discriminate Hc| |discriminate Hc].
  assert (∀ k, saves adds (Change c :: results) k → ¬ saves deletes (Change c :: results) k) as Honce.
  { intros k _ (c' & Hin & _ & Hdel & _). rewrite forallb_forall in Hnone. apply list_elem_of_In, Hnone in Hin.
    simpl in Hin. by rewrite Hdel in Hin. }
  simpl in Hc. rewrite !andb_true_iff in Hc. destruct Hc as [[[Hst Hstrict] Ht] Ho].
  apply bool_decide_eq_true in Hst, Ht. apply negb_true_iff in Hstrict.
  destruct (cr_rpsl_obj_new c) as [o|] eqn:Eo; [|discriminate Ho]. exists o.
  assert (cr_request_type c ≠ Some DELETE) as Hno by (by rewrite Ht).
  destruct (saved_references_exist ex_cfg ex_collate ex_uuid str_of_Z no_keys no_uids plain_verify id no_tables
           ex_db 100 s (Change c :: results) c o (submit_handled _ _ _ Es) Honce ltac:(by left) Hst Hstrict Hno Eo) as (src & Hsrc & Hrefs).
  exists src. split; [exact eq_refl|]. split; [exact Hsrc|exact Hrefs].
Defined.
(** The person and the role that refers to it, both deleted. *)
Definition two_deletions : string :=
  deletion (person_text "AB-TEST" []) +:+ deletion (role_text "RO-TEST" "AB-TEST") +:+ password.
Definition deletes_person (r : request) : bool :=
  match r with
  | Change c => strict_change DELETE r
      && match cr_rpsl_obj_current c with
         | Some cur => String.eqb (o_class_name cur) "person" && String.eqb (pk cur) "AB-TEST"
                       && match source cur with Ok src => String.eqb src "TEST" | Raise _ => false end
         | None => false
         end
  | Suspension _ => false
  end.
Definition refers_row (r : rpsl_row) : bool :=
  String.eqb (r_source r) "TEST" && attr_matches r "admin-c" (Some "AB-TEST") && String.eqb (r_object_class r) "role"
  && String.eqb (r_rpsl_pk r) "RO-TEST".
Lemma deletions_leave_no_references_witness :
  match submit two_deletions with
  | (s, Ok results) => saves deletes results ("role", "RO-TEST", "TEST")
  | _ => False
  end.
Proof.
  assert (match submit two_deletions with
          | (s, Ok (r :: _)) => deletes_person r && negb (overrides ex_cfg plain_verify (sm_auth s))
          | _ => false
          end = true) as Hc by (vm_compute; reflexivity).
  assert (existsb refers_row (db_objects ex_db) = true) as Hrow by (vm_compute; reflexivity).
  destruct (submit two_deletions) as [s r] eqn:Es. destruct r as [results|]; [|discriminate Hc].
  destruct results as [|[c|x] results]; [discriminate Hc| |discriminate Hc]. apply andb_true_iff in Hc as [Hc Hover].
  apply negb_true_iff in Hover. unfold deletes_person, strict_change in Hc. rewrite !andb_true_iff in Hc.
  destruct Hc as [[[[Hst Hstrict] Ht] _] Hcur]. apply bool_decide_eq_true in Hst, Ht. apply negb_true_iff in Hstrict.
  destruct (cr_rpsl_obj_current c) as [cur|] eqn:Ecur; [|discriminate Hcur]. rewrite !andb_true_iff, !String.eqb_eq in Hcur.
  destruct Hcur as [[Hclass Hpk] Hsrc]. destruct (source cur) as [src|] eqn:Esrc; [|discriminate Hsrc]. apply String.eqb_eq in Hsrc as ->.
  apply existsb_exists in Hrow as (row & Hin%list_elem_of_In & Hrow). unfold refers_row in Hrow.
  rewrite !andb_true_iff, !String.eqb_eq in Hrow. destruct Hrow as [[[Hrs Hm] Hrc] Hrp].
  replace ("role", "RO-TEST", "TEST") with (r_object_class row, r_rpsl_pk row, r_source row)
    by (rewrite Hrs, Hrc, Hrp; reflexivity).
  apply (deletions_leave_no_references ex_cfg ex_collate ex_uuid str_of_Z no_keys no_uids plain_verify id no_tables
           ex_db 100 s (Change c :: results) c cur "TEST" row (submit_handled _ _ _ Es) ltac:(by left) Hst Hstrict Ht Hover
           Ecur Esrc Hin).
  split; [by rewrite Hrs|]. exists "admin-c". rewrite Hclass, Hpk. split; [|exact Hm].
  apply (bool_decide_unpack _). vm_compute. reflexivity.
Defined.
(** A deletion without maintainers raises. *)
Definition bare_deletion : string :=
  new_person +:+ NL +:+ deletion (text_of ["person: J Doe"; "nic-hdl: AB-TEST"; "source: TEST"]).
Lemma failed_submission_commits_nothing_witness :
  match submit bare_deletion with
  | (s, Raise _) => h_committed (sm_handler s) = ex_db
  | _ => False
  end.
Proof.
  assert (match (submit bare_deletion).2 with Raise _ => true | _ => false end = true) as Hr by (vm_compute; reflexivity).
  destruct (submit bare_deletion) as [s [r|e]] eqn:Es; [discriminate Hr|].
  destruct (failed_submission_commits_nothing ex_cfg ex_collate ex_uuid str_of_Z no_keys no_uids plain_verify id no_tables
           (ex_data bare_deletion) ex_db 100 s e (eq_trans (eq_sym (submit_as_data _)) Es)) as [Hd|[Hrefused _]]; [exact Hd|].
  destruct Hrefused as (now & signals & published & m & Hm). discriminate Hm.
Defined.

(** ** What some submissions show *)

(** Redis is told after the transaction is committed, and an error in that is an
    error of the submission: it raises although the new person is saved. *)
Definition redis_down : Redis := λ _ _ _ _, Raise (GenericException "ConnectionError").
Example saved_submission_raises :
  match submit_data (redis := redis_down) ex_cfg ex_collate ex_uuid str_of_Z no_keys no_uids plain_verify id no_tables
          (text_submission new_person origin_email None None []) ex_db 100 with
  | (s, Raise e) => e = GenericException "ConnectionError"
      ∧ length (db_objects (h_committed (sm_handler s))) = S (length (db_objects ex_db))
  | _ => False
  end.
Proof. vm_compute. done. Qed.

(** Deleting an object with a text that names no maintainer is not an error of
    that request: a [KeyError] ends the handling of the whole submission. *)
Example deletion_without_mntner_raises : outcome (submit bare_deletion).2 = inr "mnt-by".
Proof. vm_compute. reflexivity. Qed.
(** An object that is both modified and deleted counts as one to be saved: a new
    object may refer to it, and is saved with a reference to nothing. *)
Definition modified_and_deleted : string :=
  role_text "NR-TEST" "CD-TEST" +:+ NL +:+ person_text "CD-TEST" ["remarks: z"] +:+ NL
  +:+ deletion (person_text "CD-TEST" []) +:+ password.
Example broken_reference_saved :
  let '(s, r) := submit modified_and_deleted in
  all_saved r = true
  ∧ existsb (λ r, String.eqb (r_rpsl_pk r) "NR-TEST" && attr_matches r "admin-c" (Some "CD-TEST")) (db_objects (h_committed (sm_handler s))) = true
  ∧ existsb (λ r, String.eqb (r_rpsl_pk r) "CD-TEST") (db_objects (h_committed (sm_handler s))) = false.
Proof. vm_compute. repeat split. Qed.
(** Asking a suspension request whether it is valid validates it again: the
    status it had is lost, and the error is reported twice. *)
Example suspension_error_repeated :
  outcome (submit (text_of ["mntner: M-MNT"; "source: TEST"; "suspension: suspend"; "override: wrong"])).2
  = inl [(ERROR_AUTH, ["This instance is not authoritative for source TEST or suspension is not enabled";
                       "Invalid authentication: override password invalid or missing";
                       "Invalid authentication: override password invalid or missing"])].
Proof. vm_compute. reflexivity. Qed.
(** With RPKI validation a route of AS0 is not reported as an error: an
    assertion ends the handling of the whole submission. *)
Definition as0_route : string :=
  text_of ["route: 192.0.2.0/24"; "origin: AS0"; "mnt-by: M-MNT"; "source: TEST"] +:+ password.
Example as0_route_raises :
  (match (submit_in (cfg_with [("rpki", VDict [("roa_source", VStr "https://rpki.example.com/")])]) as0_route).2 with
   | Raise AssertionError => true | _ => false end) = true
  ∧ all_saved (submit as0_route).2 = true.
Proof. split; vm_compute; reflexivity. Qed.
End UpdateExamples.
