(* ===== verification/Preload.v ===== *)
(** * The preload store ([irrd/storage/preload.py])

    Prefixes by origin and members by set, computed from the database by
    [PreloadUpdater], kept in Redis as texts by [PreloadStoreManager], and read
    by [Preloader] into the memory of each worker.  Redis is modelled as the
    hashes that the code writes and reads; the threads of the manager, its lock
    and the messages between the processes are the steps at the end of the file. *)
From S2P Require Import Prelude PyStr Models Queries.

Definition SENTINEL_HASH_CREATED : string := "SENTINEL_HASH_CREATED".
Definition REDIS_PRELOAD_ALL_MESSAGE : string := "unknown-classes-changed-preload-all".
Definition REDIS_CONTENTS_LIST_SEPARATOR : string := ",".
Definition REDIS_KEY_PK_SOURCE_SEPARATOR : string := "_".
Definition separator_char : ascii := "_".

(** ** What is in Redis, and in the memory of a worker *)

Definition redis_hash : Type := list (string * string).
(** The four keys; [None] is a key that does not exist. *)
Record redis := {
  rd_origin_route4 : option redis_hash;
  rd_origin_route6 : option redis_hash;
  rd_as_set : option redis_hash;
  rd_route_set : option redis_hash;
}.
Definition set_routes (h4 h6 : redis_hash) (r : redis) : redis := {|
  rd_origin_route4 := Some h4; rd_origin_route6 := Some h6; rd_as_set := rd_as_set r;
  rd_route_set := rd_route_set r |}.
Definition set_as_sets (h : redis_hash) (r : redis) : redis := {|
  rd_origin_route4 := rd_origin_route4 r; rd_origin_route6 := rd_origin_route6 r; rd_as_set := Some h;
  rd_route_set := rd_route_set r |}.
Definition set_route_sets (h : redis_hash) (r : redis) : redis := {|
  rd_origin_route4 := rd_origin_route4 r; rd_origin_route6 := rd_origin_route6 r; rd_as_set := rd_as_set r;
  rd_route_set := Some h |}.
(** [_clear_existing_data]: the route-set key is not among those deleted. *)
Definition _clear_existing_data (r : redis) : redis := {|
  rd_origin_route4 := None; rd_origin_route6 := None; rd_as_set := None; rd_route_set := rd_route_set r |}.

(** Dictionaries of sources, each a dictionary of texts. *)
Definition nested : Type := list (string * list (string * string)).
Record memory := {
  _origin_route4_store : nested;
  _origin_route6_store : nested;
  _as_set_store : nested;
  _route_set_store : nested;
}.

(** A [defaultdict(set)]; the elements of a set are listed in the order they
    were added, which Python leaves open. *)
Definition set_store : Type := list (string * list string).
Definition store_add (key member : string) (store : set_store) : set_store :=
  dict_set key (oset_add (default [] (dict_get key store)) member) store.

(** [{k: ",".join(v) ...}], with the key that marks an empty hash. *)
Definition redis_mapping (store : set_store) : redis_hash :=
  dict_set SENTINEL_HASH_CREATED "1"
    ((λ x : string * list string, (x.1, join REDIS_CONTENTS_LIST_SEPARATOR x.2)) <$> store).
Definition update_route_store (new_origin_route4_store new_origin_route6_store : set_store) : redis → redis :=
  set_routes (redis_mapping new_origin_route4_store) (redis_mapping new_origin_route6_store).
Definition update_as_set_store (new_as_set_store : set_store) : redis → redis :=
  set_as_sets (redis_mapping new_as_set_store).
Definition update_route_set_store (new_route_set_store : set_store) : redis → redis :=
  set_route_sets (redis_mapping new_route_set_store).

(** ** [PreloadUpdater]: from the database *)

(** [str] of a column that may be [NULL]. *)
Definition column_text {A} (text : A → string) (o : option A) : string :=
  match o with Some a => text a | None => "None" end.
Definition source_key (source name : string) : string := source +:+ REDIS_KEY_PK_SOURCE_SEPARATOR +:+ name.
Definition origin_of (r : rpsl_row) : string := "AS" +:+ column_text str_of_Z (r_asn_first r).
Definition prefix_of (r : rpsl_row) : string :=
  column_text (λ s, s) (r_ip_first r) +:+ "/" +:+ column_text str_of_Z (r_prefix_length r).
Definition add_route (stores : set_store * set_store) (r : rpsl_row) : set_store * set_store :=
  let key := source_key (r_source r) (origin_of r) in
  let add version store := if bool_decide (r_ip_version r = Some version) then store_add key (prefix_of r) store else store in
  (add 4%Z stores.1, add 6%Z stores.2).

Section Preload.
Context (collate_lt : string → string → bool).

(** Column selections and the ordering that is switched off do not matter to
    the rows of a query. *)
Definition preload_query (classes : list string) (q : query) : res query :=
  q ← object_classes q classes; default_suppression q.
Definition _update_routes (table : list rpsl_row) : res (set_store * set_store) :=
  q ← preload_query ["route"; "route6"] (RPSLDatabaseQuery true false);
  Ok (foldl add_route ([], []) (execute_query collate_lt q table)).

(** The first query of [_update_set]: the members that the sets name, and the
    maintainers they accept members of. *)
Record set_rows := {
  member_store : set_store;
  mbrs_by_ref_per_set : list ((string * string) * list string);
}.
Definition add_set (s : set_rows) (r : rpsl_row) : set_rows := {|
  member_store := dict_set (source_key (r_source r) (r_rpsl_pk r))
    (oset_update [] (pdata_list (r_parsed_data r !! "members") ++ pdata_list (r_parsed_data r !! "mp-members")))
    (member_store s);
  mbrs_by_ref_per_set :=
    match oset_update [] (pdata_list (r_parsed_data r !! "mbrs-by-ref")) with
    | [] => mbrs_by_ref_per_set s
    | mbrs_by_ref => dict_set (r_source r, r_rpsl_pk r) mbrs_by_ref (mbrs_by_ref_per_set s)
    end |}.
Definition read_sets (set_class : string) (table : list rpsl_row) : res set_rows :=
  q ← preload_query [set_class] (RPSLDatabaseQuery true false);
  Ok (foldl add_set {| member_store := []; mbrs_by_ref_per_set := [] |} (execute_query collate_lt q table)).

(** The second query: members by reference. *)
Definition parsed_value (name : string) (r : rpsl_row) : res pdata :=
  match r_parsed_data r !! name with Some v => Ok v | None => Raise (KeyError name) end.
Definition accepted_member (expected_mntners : list string) (r : rpsl_row) : res bool :=
  if bool_decide ("ANY" ∈ expected_mntners) then Ok true
  else mntners ← parsed_value "mnt-by" r;
       Ok (existsb (λ m, bool_decide (m ∈ expected_mntners)) (pdata_list (Some mntners))).
Definition add_member_of (by_ref : list ((string * string) * list string)) (r : rpsl_row) (member_of : string)
    (store : set_store) : res set_store :=
  match dict_get (r_source r, member_of) by_ref with
  | None => Ok store
  | Some expected_mntners =>
      accepted ← accepted_member expected_mntners r;
      if accepted : bool then member ← parsed_value (r_object_class r) r;
                              Ok (store_add (source_key (r_source r) member_of) (pdata_str (Some member)) store)
      else Ok store
  end.
Fixpoint add_member_ofs by_ref (r : rpsl_row) (names : list string) (store : set_store) : res set_store :=
  match names with
  | [] => Ok store
  | name :: names' => store ← add_member_of by_ref r name store; add_member_ofs by_ref r names' store
  end.
Fixpoint add_members by_ref (rows : list rpsl_row) (store : set_store) : res set_store :=
  match rows with
  | [] => Ok store
  | r :: rows' =>
      store ← add_member_ofs by_ref r (pdata_list (r_parsed_data r !! "member-of")) store;
      add_members by_ref rows' store
  end.
Definition read_members (member_classes : list string) (s : set_rows) (table : list rpsl_row) : res set_store :=
  q ← lookup_attr (RPSLDatabaseQuery true false) "member-of" None;
  q ← preload_query member_classes q;
  add_members (mbrs_by_ref_per_set s) (execute_query collate_lt q table) (member_store s).
Definition _update_set (set_class : string) (member_classes : list string) (table : list rpsl_row) : res set_store :=
  s ← read_sets set_class table; read_members member_classes s table.

(** A whole update, as [update] runs it on a database that does not change. *)
Definition update (update_routes update_as_sets update_route_sets : bool) (table : list rpsl_row) (r : redis)
  : res redis :=
  r ← (if update_routes then '(s4, s6) ← _update_routes table; Ok (update_route_store s4 s6 r) else Ok r);
  r ← (if update_as_sets then s ← _update_set "as-set" ["aut-num"] table; Ok (update_as_set_store s r) else Ok r);
  (if update_route_sets then s ← _update_set "route-set" ["route"; "route6"] table; Ok (update_route_set_store s r)
   else Ok r).
End Preload.

(** ** [Preloader]: in memory *)

Definition ascii_decode (s : string) : res string :=
  if str_all (λ c, (N_of_ascii c <? 128)%N) s then Ok s else Raise (ValueError "'ascii' codec can't decode byte").
Definition load_entry (target : nested) (x : string * string) : res nested :=
  if String.eqb x.1 SENTINEL_HASH_CREATED then Ok target
  else
    key ← ascii_decode x.1;
    match split_once separator_char key with
    | None => Raise (ValueError "not enough values to unpack (expected 2, got 1)")
    | Some (source, name) =>
        text ← ascii_decode x.2;
        Ok (dict_set source (dict_set name text (default [] (dict_get source target))) target)
    end.
Fixpoint load_entries (l : redis_hash) (target : nested) : res nested :=
  match l with
  | [] => Ok target
  | x :: l' => target ← load_entry target x; load_entries l' target
  end.
Definition load_hash (h : option redis_hash) : res nested := load_entries (default [] h) [].
Definition _load_preload_data_into_memory (r : redis) : res memory :=
  r4 ← load_hash (rd_origin_route4 r);
  r6 ← load_hash (rd_origin_route6 r);
  as_set ← load_hash (rd_as_set r);
  route_set ← load_hash (rd_route_set r);
  Ok {| _origin_route4_store := r4; _origin_route6_store := r6; _as_set_store := as_set;
        _route_set_store := route_set |}.

Definition store_get (store : nested) (source name : string) : option string :=
  dict_get source store ≫= dict_get name.
Definition content (text : string) : list string := split_on ch_comma text.

Record SetMembers := { sm_members : list string; sm_object_class : string }.
(** The first source that has the set. *)
Definition members_in (store : nested) (cls set_pk : string) (sources : list string) : option SetMembers :=
  list_find_map (λ source, (λ text, {| sm_members := content text; sm_object_class := cls |})
                             <$> store_get store source set_pk) sources.
Definition class_asked (cls : string) (object_classes : list string) : bool :=
  match object_classes with [] => true | _ => bool_decide (cls ∈ object_classes) end.
(** Once the memory is loaded; [set_members] waits until it is. *)
Definition set_members (m : memory) (set_pk : string) (sources object_classes : list string) : option SetMembers :=
  let set_pk := str_upper set_pk in
  match (if class_asked "as-set" object_classes then members_in (_as_set_store m) "as-set" set_pk sources else None) with
  | Some s => Some s
  | None => if class_asked "route-set" object_classes then members_in (_route_set_store m) "route-set" set_pk sources else None
  end.

Definition version_asked (version : Z) (ip_version : option Z) : bool :=
  match ip_version with None => true | Some v => (v =? 0)%Z || (v =? version)%Z end.
Definition routes_of (m : memory) (ip_version : option Z) (source origin : string) : list string :=
  let part version store := if version_asked version ip_version
                            then match store_get store source origin with Some text => content text | None => [] end
                            else [] in
  part 4%Z (_origin_route4_store m) ++ part 6%Z (_origin_route6_store m).
Definition routes_for_origins (m : memory) (origins sources : list string) (ip_version : option Z) : res (list string) :=
  match ip_version with
  | Some v => if bool_decide (v ∈ [0; 4; 6]%Z) then Ok tt else Raise (ValueError ("Invalid IP version: " +:+ str_of_Z v))
  | None => Ok tt
  end ≫= λ _,
  Ok (oset_update [] (concat ((λ source, concat (routes_of m ip_version source <$> origins)) <$> sources))).
#[global] Arguments _update_routes : simpl never.
#[global] Arguments read_sets : simpl never.
#[global] Arguments read_members : simpl never.
#[global] Arguments _update_set : simpl never.
