(* ===== verification/PreloadTheory.v ===== *)
(** * Correctness of the preload store

    What the queries of [PreloadUpdater] select, that Redis and the memory of a
    worker keep it, and that the look-ups in memory agree with the database. *)
From S2P Require Import Prelude PyStr Models Queries QueriesTheory Database Preload.

(** ** Texts *)

Definition is_ascii (s : string) : bool := str_all (λ c, (N_of_ascii c <? 128)%N) s.
Definition plain (s : string) : bool := is_ascii s && negb (has_char ch_comma s).
(** A source name: what the separator of the keys and the sentinel leave. *)
Definition plain_source (s : string) : bool :=
  is_ascii s && negb (has_char separator_char s) && negb (String.eqb s "SENTINEL").

Lemma is_ascii_app a b : is_ascii (a +:+ b) = is_ascii a && is_ascii b.
Proof. apply str_all_app. Qed.
Lemma join_ascii l : Forall (λ m, plain m = true) l → is_ascii (join "," l) = true.
Proof.
  induction 1 as [|m l Hm Hl IH]; [done|]. apply andb_true_iff in Hm as [Hm _].
  destruct l as [|m' l]; [done|]. by rewrite join_cons, !is_ascii_app, Hm, IH.
Qed.
Lemma content_join l :
  Forall (λ m, plain m = true) l → content (join "," l) = match l with [] => [""] | _ => l end.
Proof.
  intros Hl. destruct l as [|m l]; [done|]. apply (split_on_join ch_comma); [done|].
  apply (Forall_impl _ _ _ Hl). intros x [_ Hx]%andb_true_iff. by apply negb_true_iff.
Qed.
Lemma split_source_key source name :
  plain_source source = true → split_once separator_char (source_key source name) = Some (source, name).
Proof.
  unfold plain_source, source_key. rewrite !andb_true_iff, !negb_true_iff. intros [[_ Hs] _].
  by apply (split_once_app separator_char).
Qed.
Lemma plain_key_inj s s' n n' :
  plain_source s = true → plain_source s' = true → source_key s n = source_key s' n' → s = s' ∧ n = n'.
Proof.
  intros Hs Hs' E. pose proof (split_source_key s n Hs) as H1. rewrite E, split_source_key in H1 by done.
  by injection H1 as <- <-.
Qed.
Lemma source_key_sentinel s n : plain_source s = true → source_key s n ≠ SENTINEL_HASH_CREATED.
Proof.
  intros Hs E. pose proof (split_source_key s n Hs) as H1. rewrite E in H1. vm_compute in H1.
  injection H1 as <- <-. by vm_compute in Hs.
Qed.

(** ** Stores *)

(** The keys are those of sources, and the members plain. *)
Definition good_store (store : set_store) : Prop :=
  NoDup store.*1 ∧ ∀ k l, dict_get k store = Some l →
    (∃ source name, k = source_key source name ∧ plain_source source = true ∧ is_ascii name = true)
    ∧ Forall (λ m, plain m = true) l.
Lemma good_store_set k l store :
  good_store store →
  (∃ source name, k = source_key source name ∧ plain_source source = true ∧ is_ascii name = true) →
  Forall (λ m, plain m = true) l → good_store (dict_set k l store).
Proof.
  intros [Hnd Hs] Hk Hl. split; [by apply dict_set_NoDup|]. intros k' l'. rewrite dict_set_get.
  case_decide as E; [|apply Hs]. intros [= <-]. by rewrite E.
Qed.
Definition members_of (store : set_store) (k : string) : list string := default [] (dict_get k store).
Lemma good_members store k : good_store store → Forall (λ m, plain m = true) (members_of store k).
Proof.
  intros [_ Hs]. unfold members_of. destruct (dict_get k store) as [l|] eqn:E; [|constructor]. by apply Hs in E as [_ ?].
Qed.
Lemma oset_add_Forall {A} `{EqDecision A} (P : A → Prop) l x : Forall P l → P x → Forall P (oset_add l x).
Proof. intros Hl Hx. unfold oset_add. case_decide; [done|]. apply Forall_app. auto. Qed.
Lemma good_store_add source name m store :
  good_store store → plain_source source = true → is_ascii name = true → plain m = true →
  good_store (store_add (source_key source name) m store).
Proof.
  intros Hs Hsrc Hn Hm. apply good_store_set; [done|eauto|]. apply oset_add_Forall; [by apply good_members|done].
Qed.
Lemma store_add_elem k m store k' x :
  x ∈ members_of (store_add k m store) k' ↔ x ∈ members_of store k' ∨ k' = k ∧ x = m.
Proof.
  unfold members_of, store_add. rewrite dict_set_get. case_decide as E; simpl; [|naive_solver].
  rewrite oset_add_elem, E. naive_solver.
Qed.
Lemma store_add_key k m store k' :
  is_Some (dict_get k' (store_add k m store)) ↔ is_Some (dict_get k' store) ∨ k' = k.
Proof.
  unfold store_add. rewrite dict_set_get. case_decide; [|naive_solver]. split; [naive_solver|]. by eexists.
Qed.
(** A key of a store that only grows by adding has a member. *)
Definition inhabited_store (store : set_store) : Prop := ∀ k, dict_get k store ≠ Some [].
Lemma oset_add_not_nil {A} `{EqDecision A} (l : list A) x : oset_add l x ≠ [].
Proof. unfold oset_add. destruct (decide (x ∈ l)) as [Hx|]; [intros ->; by apply elem_of_nil in Hx|by destruct l]. Qed.
Lemma inhabited_store_add k m store : inhabited_store store → inhabited_store (store_add k m store).
Proof.
  intros Hs k'. unfold store_add. rewrite dict_set_get. case_decide; [|apply Hs]. intros [= E]. by apply oset_add_not_nil in E.
Qed.

(** ** Redis keeps a store *)

Definition good_entry (x : string * string) : Prop :=
  x.1 = SENTINEL_HASH_CREATED ∨
  is_ascii x.2 = true ∧ ∃ source name, x.1 = source_key source name ∧ plain_source source = true ∧ is_ascii name = true.
Lemma load_entry_Ok target x :
  good_entry x →
  ∃ t, load_entry target x = Ok t
    ∧ (∀ source, plain_source source = false → dict_get source t = dict_get source target)
    ∧ ∀ source name, plain_source source = true →
      store_get t source name = (if decide (source_key source name = x.1) then Some x.2 else store_get target source name).
Proof.
  unfold load_entry. destruct x as [k v]. intros [Hx|(Hv & s & n & Hk & Hs & Hn)]; simpl in *.
  - rewrite Hx. simpl. exists target. split; [done|]. split; [done|]. intros source name Hs.
    rewrite decide_False; [done|]. by apply source_key_sentinel.
  - subst k. destruct (String.eqb_spec (source_key s n) SENTINEL_HASH_CREATED) as [E|_];
      [by apply source_key_sentinel in E|].
    assert (is_ascii (source_key s n) = true) as Hk.
    { unfold source_key. rewrite !is_ascii_app, Hn. unfold plain_source in Hs. by destruct (is_ascii s). }
    unfold ascii_decode. fold (is_ascii (source_key s n)) (is_ascii v). rewrite Hk, Hv. simpl.
    rewrite split_source_key by done. eexists. split; [done|]. split.
    { intros source Hsrc. rewrite dict_set_get, decide_False; [done|]. by intros ->; rewrite Hs in Hsrc. }
    intros source name Hsrc. unfold store_get. rewrite dict_set_get. destruct (decide (source = s)) as [->|Hne]; simpl.
    + rewrite dict_set_get. destruct (decide (name = n)) as [->|Hne'].
      * by rewrite decide_True.
      * rewrite decide_False; [by destruct (dict_get s target)|]. intros E. by apply plain_key_inj in E as [_ ?].
    + rewrite decide_False; [done|]. intros E. by apply plain_key_inj in E as [? _].
Qed.
Lemma load_entries_Ok l target :
  Forall good_entry l → NoDup l.*1 →
  ∃ t, load_entries l target = Ok t
    ∧ (∀ source, plain_source source = false → dict_get source t = dict_get source target)
    ∧ ∀ source name, plain_source source = true →
    store_get t source name = match dict_get (source_key source name) l with
                              | Some text => Some text
                              | None => store_get target source name
                              end.
Proof.
  intros Hl. revert target. induction Hl as [|[k v] l Hx Hl IH]; intros target Hnd; simpl; [eauto|].
  apply NoDup_cons in Hnd as [Hni Hnd]. destruct (load_entry_Ok target (k, v) Hx) as (t1 & -> & Hn1 & Ht1). simpl.
  destruct (IH t1 Hnd) as (t & -> & Hn & Ht). exists t. split; [done|].
  split; [intros source Hs; by rewrite Hn, Hn1|]. intros source name Hs.
  rewrite Ht, Ht1 by done. simpl. destruct (decide (source_key source name = k)) as [E|Hne]; [|done].
  destruct (dict_get _ l) eqn:Eg; [|done]. exfalso. apply Hni. apply dict_get_elem in Eg; [|done].
  rewrite <- E. by apply (list_elem_of_fmap_2 fst) in Eg.
Qed.
Lemma dict_get_fmap {V W} (f : V → W) (d : list (string * V)) k :
  dict_get k ((λ x : string * V, (x.1, f x.2)) <$> d) = f <$> dict_get k d.
Proof. induction d as [|[k' v] d IH]; csimpl; [done|]. by case_decide. Qed.
(** What the workers read is what was stored. *)
Lemma load_mapping store :
  good_store store →
  ∃ t, load_hash (Some (redis_mapping store)) = Ok t ∧ ∀ source name,
    store_get t source name = (if plain_source source then join "," <$> dict_get (source_key source name) store else None).
Proof.
  intros [Hnd Hs]. unfold load_hash, redis_mapping. simpl default.
  destruct (load_entries_Ok (dict_set SENTINEL_HASH_CREATED "1"
    ((λ x : string * list string, (x.1, join "," x.2)) <$> store)) []) as (t & Ht & Hno & Hget).
  - apply Forall_forall. intros [k v] Hin.
    apply dict_get_elem in Hin; [|apply dict_set_NoDup; by rewrite <- list_fmap_compose].
    rewrite dict_set_get in Hin. case_decide as E; [by left|]. right. rewrite dict_get_fmap in Hin.
    destruct (dict_get k store) as [l|] eqn:El; [|done]. injection Hin as <-. apply Hs in El as [? ?].
    split; [by apply join_ascii|done].
  - apply dict_set_NoDup. by rewrite <- list_fmap_compose.
  - exists t. split; [done|]. intros source name. destruct (plain_source source) eqn:Hsrc.
    2: { unfold store_get. by rewrite Hno. }
    rewrite Hget, dict_set_get, dict_get_fmap by done. rewrite decide_False by (by apply source_key_sentinel). by destruct (dict_get _ store).
Qed.

(** ** What the queries of the updater select *)

Section Updater.
Context (collate_lt : string → string → bool).

Definition selected_in (classes : list string) (r : rpsl_row) : bool :=
  bool_decide (r_object_class r ∈ classes) && row_visible r.
Lemma preload_query_rows classes q table :
  q_frozen q = false → q_limit q = None → q_one_level q = None → q_enable_ordering q = false →
  ∃ q', preload_query classes q = Ok q' ∧
    execute_query collate_lt q' table = List.filter (λ r, holds (q_where q) r && selected_in classes r) table.
Proof using Type.
  intros Hf Hl Ho He. unfold preload_query, object_classes. rewrite filter_Ok by done. simpl.
  destruct (default_suppression_Ok (with_filter {| q_where := q_where q; q_one_level := q_one_level q;
    q_frozen := q_frozen q; q_sources_list := q_sources_list q; q_object_classes := classes;
    q_ordered_by_sources := q_ordered_by_sources q; q_enable_ordering := q_enable_ordering q; q_limit := q_limit q |}
    (λ r, bool_decide (r_object_class r ∈ classes))) Hf) as (q' & Hq' & Hl' & Ho' & He' & Hr).
  exists q'. split; [done|]. apply execute_query_filter; [by rewrite Hl'|by rewrite Ho'|by rewrite He'|].
  intros r. rewrite Hr. simpl. rewrite holds_snoc. unfold selected_in. by rewrite andb_assoc.
Qed.

Definition route_rows (table : list rpsl_row) : list rpsl_row := List.filter (selected_in ["route"; "route6"]) table.
Lemma update_routes_eq table : _update_routes collate_lt table = Ok (foldl add_route ([], []) (route_rows table)).
Proof using Type.
  unfold _update_routes. destruct (preload_query_rows ["route"; "route6"] (RPSLDatabaseQuery true false) table)
    as (q' & -> & Hq'); [done..|]. simpl. by rewrite Hq'.
Qed.
Definition sets_of (set_class : string) (table : list rpsl_row) : list rpsl_row := List.filter (selected_in [set_class]) table.
Lemma read_sets_eq set_class table :
  read_sets collate_lt set_class table
  = Ok (foldl add_set {| member_store := []; mbrs_by_ref_per_set := [] |} (sets_of set_class table)).
Proof using Type.
  unfold read_sets. destruct (preload_query_rows [set_class] (RPSLDatabaseQuery true false) table)
    as (q' & -> & Hq'); [done..|]. simpl. by rewrite Hq'.
Qed.
Definition is_member_row (classes : list string) (r : rpsl_row) : bool :=
  bool_decide (is_Some (r_parsed_data r !! "member-of")) && selected_in classes r.
Definition member_rows (classes : list string) (table : list rpsl_row) : list rpsl_row := List.filter (is_member_row classes) table.
Definition has_member_of (r : rpsl_row) : bool := attr_matches r "member-of" None || false || false.
Lemma lookup_member_of : lookup_attr (RPSLDatabaseQuery true false) "member-of" None
  = Ok (with_filter (RPSLDatabaseQuery true false) has_member_of).
Proof using Type.
  unfold lookup_attr, lookup_attrs_in.
  assert (List.find (λ n, negb (bool_decide (n ∈ RpslObjects.lookup_field_names))) (str_lower <$> ["member-of"]) = None)
    as -> by (vm_compute; reflexivity). done.
Qed.
Lemma read_members_eq classes s table :
  read_members collate_lt classes s table = add_members (mbrs_by_ref_per_set s) (member_rows classes table) (member_store s).
Proof using Type.
  unfold read_members. rewrite lookup_member_of. cbn [mbind res_bind].
  destruct (preload_query_rows classes (with_filter (RPSLDatabaseQuery true false) has_member_of) table)
    as (q' & -> & Hq'); [done..|]. cbn [mbind res_bind]. rewrite Hq'. f_equal. apply filter_ext. intros r.
  unfold is_member_row, has_member_of, holds, attr_matches. simpl. rewrite !orb_false_r, andb_true_r.
  f_equal. by destruct (r_parsed_data r !! "member-of").
Qed.
End Updater.

(** ** Rows that the store can hold *)

Definition member_ready (r : rpsl_row) : bool :=
  match r_parsed_data r !! "member-of" with
  | None => true
  | Some _ => bool_decide (is_Some (r_parsed_data r !! "mnt-by"))
              && match r_parsed_data r !! r_object_class r with Some (PStr s) => plain s | _ => false end
  end.
Definition listed_members (r : rpsl_row) : list string :=
  pdata_list (r_parsed_data r !! "members") ++ pdata_list (r_parsed_data r !! "mp-members").
(** Sources that configuration admits, texts in ASCII, names without commas, and
    the maintainers of objects that claim membership. *)
Definition row_ready (r : rpsl_row) : bool :=
  plain_source (r_source r) && is_ascii (r_rpsl_pk r) && is_ascii (origin_of r) && plain (prefix_of r)
  && forallb plain (listed_members r) && member_ready r.
Definition table_ready (table : list rpsl_row) : bool := forallb row_ready table.
Record row_ready_spec (r : rpsl_row) : Prop := {
  rr_source : plain_source (r_source r) = true;
  rr_pk : is_ascii (r_rpsl_pk r) = true;
  rr_origin : is_ascii (origin_of r) = true;
  rr_prefix : plain (prefix_of r) = true;
  rr_members : Forall (λ m, plain m = true) (listed_members r);
  rr_member : member_ready r = true;
}.
Lemma row_readyP table r : table_ready table = true → r ∈ table → row_ready_spec r.
Proof.
  unfold table_ready. rewrite forallb_spec. intros Hall Hr. apply Hall in Hr. unfold row_ready in Hr. bool_solve.
  split; try done. apply Forall_forall. by apply forallb_spec.
Qed.

(** *** Routes *)

Definition has_version (v : Z) (r : rpsl_row) : Prop := r_ip_version r = Some v.
Lemma add_routes_spec l s4 s6 :
  good_store s4 → good_store s6 → inhabited_store s4 → inhabited_store s6 → (∀ r, r ∈ l → row_ready_spec r) →
  let '(t4, t6) := foldl add_route (s4, s6) l in
  (good_store t4 ∧ inhabited_store t4 ∧ good_store t6 ∧ inhabited_store t6) ∧
  ∀ k x,
    (x ∈ members_of t4 k ↔ x ∈ members_of s4 k ∨ ∃ r, r ∈ l ∧ has_version 4 r ∧ k = source_key (r_source r) (origin_of r) ∧ x = prefix_of r) ∧
    (x ∈ members_of t6 k ↔ x ∈ members_of s6 k ∨ ∃ r, r ∈ l ∧ has_version 6 r ∧ k = source_key (r_source r) (origin_of r) ∧ x = prefix_of r).
Proof.
  revert s4 s6. induction l as [|r l IH]; intros s4 s6 G4 G6 I4 I6 Hl; simpl.
  { split; [done|]. intros k x. split; (split; [by left|intros [?|(? & ?%elem_of_nil & _)]; done]). }
  assert (row_ready_spec r) as [Hs _ Ho Hp _ _] by (apply Hl; left).
  unfold add_route at 2. simpl.
  set (t4 := if bool_decide (r_ip_version r = Some 4%Z) then _ else s4).
  set (t6 := if bool_decide (r_ip_version r = Some 6%Z) then _ else s6).
  specialize (IH t4 t6). destruct (foldl add_route (t4, t6) l) as [u4 u6].
  destruct IH as [HG Hel]; [unfold t4, t6; repeat case_bool_decide; auto using good_store_add, inhabited_store_add..| |].
  { intros r' Hr'. apply Hl. by right. }
  split; [done|]. intros k x. specialize (Hel k x) as [-> ->].
  unfold t4, t6, has_version. repeat case_bool_decide; rewrite ?store_add_elem; setoid_rewrite elem_of_cons; naive_solver.
Qed.

(** *** Sets *)

Definition set_key (r : rpsl_row) : string := source_key (r_source r) (r_rpsl_pk r).
Definition accepted_mntners (r : rpsl_row) : list string := oset_update [] (pdata_list (r_parsed_data r !! "mbrs-by-ref")).
(** The dictionaries after the first query. *)
Lemma add_sets_spec l :
  (∀ r, r ∈ l → row_ready_spec r) → NoDup (set_key <$> l) →
  let s := foldl add_set {| member_store := []; mbrs_by_ref_per_set := [] |} l in
  good_store (member_store s) ∧
  (∀ k, is_Some (dict_get k (member_store s)) ↔ ∃ r, r ∈ l ∧ k = set_key r) ∧
  (∀ r, r ∈ l → members_of (member_store s) (set_key r) = oset_update [] (listed_members r)) ∧
  (∀ source name mntners, dict_get (source, name) (mbrs_by_ref_per_set s) = Some mntners ↔
     ∃ r, r ∈ l ∧ source = r_source r ∧ name = r_rpsl_pk r ∧ mntners = accepted_mntners r ∧ mntners ≠ []).
Proof.
  induction l as [|r l IH] using rev_ind; intros Hl Hnd; simpl.
  { split_and!; [split; [constructor|done]|split; [by intros [??]|intros (? & ?%elem_of_nil & _); done]|by intros ? ?%elem_of_nil|].
    intros. split; [done|intros (? & ?%elem_of_nil & _); done]. }
  rewrite foldl_snoc. set (s := foldl _ _ _) in *. rewrite fmap_app in Hnd.
  apply NoDup_app in Hnd as (Hnd & Hfresh & _).
  destruct IH as (HG & Hkeys & Hmem & Href); [intros; apply Hl, elem_of_app; by left|done|].
  assert (row_ready_spec r) as [Hs Hpk _ _ Hm _] by (apply Hl, elem_of_app; right; by left).
  assert (∀ r', r' ∈ l → set_key r' ≠ set_key r) as Hne.
  { intros r' Hr' E. apply (Hfresh (set_key r')); [by apply list_elem_of_fmap_2|rewrite E; by left]. }
  split_and!; simpl.
  - apply good_store_set; [done|unfold set_key; eauto|]. apply Forall_forall. intros m [?%elem_of_nil|Hin]%oset_update_elem; [done|].
    by apply (proj1 (Forall_forall _ _) Hm).
  - intros k. rewrite dict_set_get. setoid_rewrite elem_of_app. case_decide as E; [split; [|by eexists]|rewrite Hkeys].
    + intros _. exists r. split; [right; by left|done].
    + split; [naive_solver|]. intros (r' & [?|Hx%list_elem_of_singleton] & ->); [eauto|by subst].
  - intros r' [Hr'|Hx%list_elem_of_singleton]%elem_of_app; unfold members_of; rewrite dict_set_get.
    + rewrite decide_False by (by apply Hne). by apply Hmem.
    + subst r'. by rewrite decide_True.
  - intros source name mntners. setoid_rewrite elem_of_app.
    assert (∀ r', r' ∈ l → (r_source r', r_rpsl_pk r') ≠ (r_source r, r_rpsl_pk r)) as Hne'.
    { intros r' Hr' E. apply (Hne r' Hr'). unfold set_key. by injection E as -> ->. }
    fold (accepted_mntners r). destruct (accepted_mntners r) as [|m ms] eqn:Em; simpl.
    + rewrite Href. split; [naive_solver|].
      intros (r' & [?|Hx%list_elem_of_singleton] & Hs' & Hn' & Hms & Hnil); [eauto 6|]. congruence.
    + rewrite dict_set_get. case_decide as E.
      * injection E as -> ->. split; [intros [= <-]; exists r; rewrite Em; split; [right; by left|done]|].
        intros (r' & [Hr'|Hx%list_elem_of_singleton] & Hs' & Hn' & -> & _); [|by rewrite Hx, Em].
        exfalso. apply (Hne' r' Hr'). congruence.
      * rewrite Href. split; [naive_solver|].
        intros (r' & [?|Hx%list_elem_of_singleton] & Hs' & Hn' & Hms & Hnil); [eauto 6|]. by subst.
Qed.

(** A member by reference: the object claims it, and the set accepts it. *)
Definition accepts (expected : list string) (r : rpsl_row) : Prop :=
  "ANY" ∈ expected ∨ ∃ m, m ∈ pdata_list (r_parsed_data r !! "mnt-by") ∧ m ∈ expected.
Definition class_value (r : rpsl_row) : string := pdata_str (r_parsed_data r !! r_object_class r).
Definition adds_member (by_ref : list ((string * string) * list string)) (r : rpsl_row) (names : list string)
    (k x : string) : Prop :=
  ∃ name expected, name ∈ names ∧ dict_get (r_source r, name) by_ref = Some expected ∧ accepts expected r
    ∧ k = source_key (r_source r) name ∧ x = class_value r.
(** What a step of the second query keeps, and adds. *)
Record grows (by_ref : list ((string * string) * list string)) (store store' : set_store) (added : string → string → Prop)
  : Prop := {
  gr_good : (∀ s n e, dict_get (s, n) by_ref = Some e → is_ascii n = true) → good_store store → good_store store';
  gr_keys : (∀ s n e, dict_get (s, n) by_ref = Some e → is_Some (dict_get (source_key s n) store)) →
            ∀ k, is_Some (dict_get k store') ↔ is_Some (dict_get k store);
  gr_members : ∀ k x, x ∈ members_of store' k ↔ x ∈ members_of store k ∨ added k x;
}.
Lemma grows_refl by_ref store (added : string → string → Prop) : (∀ k x, ¬ added k x) → grows by_ref store store added.
Proof. intros Hno. split; [done|done|]. intros k x. split; [by left|]. intros [?|?%Hno]; done. Qed.
Lemma grows_trans by_ref s1 s2 s3 a1 a2 :
  grows by_ref s1 s2 a1 → grows by_ref s2 s3 a2 → grows by_ref s1 s3 (λ k x, a1 k x ∨ a2 k x).
Proof.
  intros [G1 K1 M1] [G2 K2 M2]. split; [auto| |].
  - intros Hb k. rewrite K2; [by apply K1|]. intros s n e He. apply K1; eauto.
  - intros k x. rewrite M2, M1. tauto.
Qed.
Lemma grows_ext by_ref s1 s2 (a1 a2 : string → string → Prop) : (∀ k x, a1 k x ↔ a2 k x) → grows by_ref s1 s2 a1 → grows by_ref s1 s2 a2.
Proof. intros Ha [G K M]. split; [done|done|]. intros k x. by rewrite M, Ha. Qed.

Lemma accepted_member_Ok expected r :
  is_Some (r_parsed_data r !! "mnt-by") → ∃ b, accepted_member expected r = Ok b ∧ (b = true ↔ accepts expected r).
Proof.
  intros [v Hv]. unfold accepted_member, accepts. case_bool_decide as Ha; [exists true; tauto|].
  unfold parsed_value. rewrite Hv. simpl. eexists. split; [done|]. rewrite existsb_spec.
  setoid_rewrite bool_decide_eq_true. split; [by right|]. by intros [?|?].
Qed.
Lemma add_member_of_Ok by_ref r name store :
  row_ready_spec r → is_Some (r_parsed_data r !! "member-of") →
  ∃ store', add_member_of by_ref r name store = Ok store' ∧ grows by_ref store store' (adds_member by_ref r [name]).
Proof.
  intros [Hs _ _ _ _ Hready] [mo Hmo]. unfold member_ready in Hready. rewrite Hmo in Hready.
  apply andb_true_iff in Hready as [Hmnt%bool_decide_eq_true Hval].
  unfold add_member_of. destruct (dict_get (r_source r, name) by_ref) as [expected|] eqn:Ee.
  2: { exists store. split; [done|]. apply grows_refl. intros k x (n & e & Hn%list_elem_of_singleton & ? & _). congruence. }
  destruct (accepted_member_Ok expected r Hmnt) as (b & -> & Hb). simpl. destruct b.
  - unfold parsed_value. destruct (r_parsed_data r !! r_object_class r) as [[s| |]|] eqn:Ev; try done. simpl.
    eexists. split; [done|]. split.
    + intros Hn HG. apply good_store_add; [done|done|by eapply Hn|done].
    + intros Hkeys k. rewrite store_add_key. split; [|by left]. intros [?| ->]; [done|]. by apply (Hkeys _ _ _ Ee).
    + intros k x. rewrite store_add_elem. apply or_iff_compat_l. unfold adds_member, class_value. rewrite Ev. simpl. split.
      * intros [-> ->]. exists name, expected. split; [by left|]. split; [done|]. split; [by apply Hb|done].
      * intros (n & e & Hn%list_elem_of_singleton & _ & _ & ? & ?). by subst n.
  - exists store. split; [done|]. apply grows_refl. intros k x (n & e & Hn%list_elem_of_singleton & He & Hacc & _).
    rewrite Hn, Ee in He. injection He as <-. by apply Hb in Hacc.
Qed.
Lemma add_member_ofs_Ok by_ref r names store :
  row_ready_spec r → is_Some (r_parsed_data r !! "member-of") →
  ∃ store', add_member_ofs by_ref r names store = Ok store' ∧ grows by_ref store store' (adds_member by_ref r names).
Proof.
  intros Hr Hmo. revert store. induction names as [|name names IH]; intros store; simpl.
  { exists store. split; [done|]. apply grows_refl. intros k x (n & e & ?%elem_of_nil & _). done. }
  destruct (add_member_of_Ok by_ref r name store Hr Hmo) as (s1 & -> & G1). simpl.
  destruct (IH s1) as (s2 & -> & G2). exists s2. split; [done|].
  eapply grows_ext; [|by eapply grows_trans]. intros k x. unfold adds_member. split.
  - intros [(n & e & Hn%list_elem_of_singleton & Ha)|(n & e & Hn & Ha)]; exists n, e; (split; [apply elem_of_cons; auto|done]).
  - intros (n & e & Hn & Ha). apply elem_of_cons in Hn as [->|Hn]; [left; exists name, e; split; [by left|done]|right; exists n, e; auto].
Qed.
Definition row_adds by_ref (rows : list rpsl_row) (k x : string) : Prop :=
  ∃ r, r ∈ rows ∧ adds_member by_ref r (pdata_list (r_parsed_data r !! "member-of")) k x.
Lemma add_members_Ok by_ref rows store :
  (∀ r, r ∈ rows → row_ready_spec r ∧ is_Some (r_parsed_data r !! "member-of")) →
  ∃ store', add_members by_ref rows store = Ok store' ∧ grows by_ref store store' (row_adds by_ref rows).
Proof.
  revert store. induction rows as [|r rows IH]; intros store Hrows; simpl.
  { exists store. split; [done|]. apply grows_refl. intros k x (r & ?%elem_of_nil & _). done. }
  destruct (Hrows r) as [Hr Hmo]; [by left|].
  destruct (add_member_ofs_Ok by_ref r (pdata_list (r_parsed_data r !! "member-of")) store Hr Hmo) as (s1 & -> & G1). simpl.
  destruct (IH s1) as (s2 & -> & G2); [intros; apply Hrows; by right|]. exists s2. split; [done|].
  eapply grows_ext; [|by eapply grows_trans]. intros k x. unfold row_adds. setoid_rewrite elem_of_cons. split.
  - intros [Ha|(r' & Hr' & Ha)]; eauto.
  - intros (r' & [->|Hr'] & Ha); eauto.
Qed.

(** Who is a member of the set [r], in a database. *)
Definition member_classes (set_class : string) : list string :=
  if String.eqb set_class "as-set" then ["aut-num"] else ["route"; "route6"].
Definition claims (table : list rpsl_row) (r r' : rpsl_row) : Prop :=
  r' ∈ table ∧ selected_in (member_classes (r_object_class r)) r' = true ∧ r_source r' = r_source r
  ∧ r_rpsl_pk r ∈ pdata_list (r_parsed_data r' !! "member-of") ∧ accepts (pdata_list (r_parsed_data r !! "mbrs-by-ref")) r'.
Definition set_member (table : list rpsl_row) (r : rpsl_row) (x : string) : Prop :=
  x ∈ listed_members r ∨ ∃ r', claims table r r' ∧ x = class_value r'.

Section Sets.
Context (collate_lt : string → string → bool).

Lemma sets_of_elem set_class table r :
  r ∈ sets_of set_class table ↔ r ∈ table ∧ r_object_class r = set_class ∧ row_visible r = true.
Proof using Type.
  unfold sets_of, selected_in. rewrite filter_elem, andb_true_iff, bool_decide_eq_true, list_elem_of_singleton. done.
Qed.
Lemma set_keys_NoDup set_class table :
  (∀ r, r ∈ table → row_ready_spec r) → NoDup (Database.row_key <$> table) → NoDup (set_key <$> sets_of set_class table).
Proof using Type.
  intros Hready. unfold sets_of. induction table as [|r table IH]; csimpl; [constructor|]. intros [Hr Hnd]%NoDup_cons.
  assert (NoDup (set_key <$> List.filter (selected_in [set_class]) table)) as IH' by (apply IH; [intros; apply Hready; by right|done]).
  destruct (selected_in [set_class] r) eqn:E; [|done]. csimpl. apply NoDup_cons. split; [|done].
  intros (r' & Ekey & [Hin Hsel]%filter_elem)%list_elem_of_fmap. apply Hr. apply list_elem_of_fmap. exists r'. split; [|done].
  apply plain_key_inj in Ekey as [E1 E2]; [|apply Hready; by left|apply Hready; by right].
  unfold selected_in in E, Hsel. apply andb_true_iff in E as [E%bool_decide_eq_true _].
  apply andb_true_iff in Hsel as [Hsel%bool_decide_eq_true _]. apply list_elem_of_singleton in E, Hsel.
  unfold Database.row_key. congruence.
Qed.
Lemma accepted_accepts r r' : accepts (accepted_mntners r) r' ↔ accepts (pdata_list (r_parsed_data r !! "mbrs-by-ref")) r'.
Proof using Type.
  unfold accepts, accepted_mntners. setoid_rewrite oset_update_elem. split.
  - intros [[?%elem_of_nil|?]|(m & ? & [?%elem_of_nil|?])]; [done|by left|done|right; eauto].
  - intros [?|(m & ? & ?)]; [left; by right|right; eauto].
Qed.
Lemma accepts_some r r' : accepts (accepted_mntners r) r' → accepted_mntners r ≠ [].
Proof using Type. intros [H|(m & _ & H)] E; rewrite E in H; by apply elem_of_nil in H. Qed.

(** A set store holds each visible set of the class, with exactly its members. *)
Lemma update_set_spec set_class table :
  set_class ∈ ["as-set"; "route-set"] →
  (∀ r, r ∈ table → row_ready_spec r) → NoDup (Database.row_key <$> table) →
  ∃ store, _update_set collate_lt set_class (member_classes set_class) table = Ok store ∧ good_store store ∧
    (∀ k, is_Some (dict_get k store) ↔ ∃ r, r ∈ sets_of set_class table ∧ k = set_key r) ∧
    (∀ r, r ∈ sets_of set_class table → ∀ x, x ∈ members_of store (set_key r) ↔ set_member table r x).
Proof using Type.
  intros Hclass Hready Hnd. unfold _update_set. rewrite read_sets_eq. cbn [mbind res_bind].
  assert (∀ r, r ∈ sets_of set_class table → row_ready_spec r) as Hsets by (intros r [? _]%sets_of_elem; auto).
  destruct (add_sets_spec (sets_of set_class table) Hsets (set_keys_NoDup _ _ Hready Hnd)) as (HG & Hkeys & Hmem & Href).
  set (s := foldl _ _ _) in *. rewrite read_members_eq.
  destruct (add_members_Ok (mbrs_by_ref_per_set s) (member_rows (member_classes set_class) table) (member_store s))
    as (store & -> & [Ggood Gkeys Gmem]).
  { intros r [Hin [Hmo%bool_decide_eq_true _]%andb_true_iff]%filter_elem. auto. }
  assert (∀ k, is_Some (dict_get k store) ↔ is_Some (dict_get k (member_store s))) as Hk.
  { apply Gkeys. intros source n e (r & Hr & -> & -> & _)%Href. apply Hkeys. by exists r. }
  exists store. split; [done|]. split_and!.
  - apply Ggood; [|done]. intros source n e (r & Hr & -> & -> & _)%Href. by apply Hsets in Hr as [].
  - intros k. by rewrite Hk.
  - intros r Hr x. rewrite Gmem, Hmem, oset_update_elem by done.
    pose proof (proj1 (sets_of_elem _ _ _) Hr) as (Hin & Hcls & Hvis). unfold set_member, claims. rewrite Hcls.
    assert (row_adds (mbrs_by_ref_per_set s) (member_rows (member_classes set_class) table) (set_key r) x ↔
      ∃ r', (r' ∈ table ∧ selected_in (member_classes set_class) r' = true ∧ r_source r' = r_source r
        ∧ r_rpsl_pk r ∈ pdata_list (r_parsed_data r' !! "member-of")
        ∧ accepts (pdata_list (r_parsed_data r !! "mbrs-by-ref")) r') ∧ x = class_value r') as ->.
    2: { split; [intros [[?%elem_of_nil|?]|?]; auto; done|intros [?|?]; auto]. }
    split.
    + intros (r' & [Hin' Hm]%filter_elem & name & e & Hname & He & Hacc & Hkey & Hx).
      apply Href in He as (r0 & Hr0 & Hs0 & Hn0 & -> & _). apply andb_true_iff in Hm as [_ Hsel].
      unfold set_key in Hkey. apply plain_key_inj in Hkey as [Es En]; [|apply Hready..]; [|done|done].
      assert (r0 = r) as ->.
      { eapply (NoDup_fmap_inj set_key); [by apply (set_keys_NoDup set_class table)|done..|]. unfold set_key. congruence. }
      exists r'. split; [|done]. split_and!; [done|done|done|congruence|by apply accepted_accepts].
    + intros (r' & (Hin' & Hsel & Es & Hname & Hacc%accepted_accepts) & Hx). exists r'. split.
      * apply filter_elem. split; [done|]. unfold is_member_row. rewrite Hsel, andb_true_r. apply bool_decide_eq_true.
        destruct (r_parsed_data r' !! "member-of"); [by eexists|by apply elem_of_nil in Hname].
      * exists (r_rpsl_pk r), (accepted_mntners r). split_and!; [done| |done| |done].
        -- apply Href. exists r. split_and!; [done|done|done|done|by eapply accepts_some].
        -- unfold set_key. by rewrite Es.
Qed.
End Sets.

(** ** The look-ups agree with the database *)

(** The prefixes that a table has for the origins. *)
Definition db_prefix (table : list rpsl_row) (origins sources : list string) (ip_version : option Z) (p : string) : Prop :=
  ∃ r v, r ∈ table ∧ selected_in ["route"; "route6"] r = true ∧ r_source r ∈ sources ∧ origin_of r ∈ origins
    ∧ r_ip_version r = Some v ∧ v ∈ [4; 6]%Z ∧ version_asked v ip_version = true ∧ p = prefix_of r.
(** The first source that has a visible set of the class, and that set. *)
Definition is_set (cls source pk : string) (r : rpsl_row) : bool :=
  String.eqb (r_object_class r) cls && row_visible r && String.eqb (r_source r) source && String.eqb (r_rpsl_pk r) pk.
Definition db_set_of (table : list rpsl_row) (cls pk : string) (sources : list string) : option rpsl_row :=
  list_find_map (λ source, List.find (is_set cls source pk) table) sources.
Definition db_set (table : list rpsl_row) (pk : string) (sources object_classes : list string) : option rpsl_row :=
  match (if class_asked "as-set" object_classes then db_set_of table "as-set" pk sources else None) with
  | Some r => Some r
  | None => if class_asked "route-set" object_classes then db_set_of table "route-set" pk sources else None
  end.
(** What the memory of a worker is, for a table.  A set without members has the
    empty text as its only member. *)
Definition is_content (table : list rpsl_row) (r : rpsl_row) (s : SetMembers) : Prop :=
  sm_object_class s = r_object_class r ∧
  ∀ x, x ∈ sm_members s ↔ set_member table r x ∨ (∀ y, ¬ set_member table r y) ∧ x = "".
Record memory_agrees (table : list rpsl_row) (m : memory) : Prop := {
  ma_routes : ∀ origins sources ip_version routes,
    routes_for_origins m origins sources ip_version = Ok routes →
    ∀ p, p ∈ routes ↔ db_prefix table origins sources ip_version p;
  ma_sets : ∀ pk sources object_classes,
    option_Forall2 (is_content table) (db_set table (str_upper pk) sources object_classes)
                   (set_members m pk sources object_classes);
}.

(** A route store in memory. *)
Definition routes_agree (table : list rpsl_row) (v : Z) (t : nested) : Prop :=
  ∀ source origin p,
    p ∈ match store_get t source origin with Some text => content text | None => [] end ↔
    ∃ r, r ∈ table ∧ selected_in ["route"; "route6"] r = true ∧ r_source r = source ∧ origin_of r = origin
      ∧ r_ip_version r = Some v ∧ p = prefix_of r.
Definition sets_agree (table : list rpsl_row) (cls : string) (t : nested) : Prop :=
  ∀ source pk, option_Forall2 (is_content table) (List.find (is_set cls source pk) table)
    ((λ text, {| sm_members := content text; sm_object_class := cls |}) <$> store_get t source pk).

Lemma load_routes table v store :
  (∀ r, r ∈ table → row_ready_spec r) → good_store store → inhabited_store store →
  (∀ k x, x ∈ members_of store k ↔ ∃ r, r ∈ route_rows table ∧ has_version v r ∧ k = source_key (r_source r) (origin_of r) ∧ x = prefix_of r) →
  ∃ t, load_hash (Some (redis_mapping store)) = Ok t ∧ routes_agree table v t.
Proof.
  intros Hready HG HI Hspec. destruct (load_mapping store HG) as (t & Ht & Hget). exists t. split; [done|].
  intros source origin p. rewrite Hget. destruct (plain_source source) eqn:Hsrc.
  2: { split; [by intros ?%elem_of_nil|]. intros (r & Hr & _ & <- & _). by rewrite (rr_source _ (Hready r Hr)) in Hsrc. }
  assert (p ∈ match join "," <$> dict_get (source_key source origin) store with Some text => content text | None => [] end
    ↔ p ∈ members_of store (source_key source origin)) as ->.
  { pose proof (good_members store (source_key source origin) HG) as Hplain. unfold members_of in *.
    pose proof (HI (source_key source origin)) as Hne. destruct (dict_get _ store) as [l|]; simpl in *; [|done].
    rewrite content_join by done. by destruct l. }
  rewrite Hspec. unfold route_rows, has_version. split.
  - intros (r & [Hin Hsel]%filter_elem & Hv & Hk & ->). apply plain_key_inj in Hk as [-> ->]; [|done|by apply Hready].
    exists r. done.
  - intros (r & Hin & Hsel & <- & <- & Hv & ->). exists r. split; [by apply filter_elem|done].
Qed.
Lemma is_set_elem cls source pk table r :
  List.find (is_set cls source pk) table = Some r →
  r ∈ sets_of cls table ∧ r_source r = source ∧ r_rpsl_pk r = pk ∧ r_object_class r = cls.
Proof.
  intros [Hin Hr]%find_some. apply list_elem_of_In in Hin. unfold is_set in Hr.
  rewrite !andb_true_iff, !String.eqb_eq in Hr. destruct Hr as [[[Hc Hv] Hs] Hp].
  split; [|done]. by apply sets_of_elem.
Qed.
Lemma load_sets table cls store :
  (∀ r, r ∈ table → row_ready_spec r) → good_store store →
  (∀ k, is_Some (dict_get k store) ↔ ∃ r, r ∈ sets_of cls table ∧ k = set_key r) →
  (∀ r, r ∈ sets_of cls table → ∀ x, x ∈ members_of store (set_key r) ↔ set_member table r x) →
  ∃ t, load_hash (Some (redis_mapping store)) = Ok t ∧ sets_agree table cls t.
Proof.
  intros Hready HG Hkeys Hmem. destruct (load_mapping store HG) as (t & Ht & Hget). exists t. split; [done|].
  intros source pk. rewrite Hget. destruct (List.find (is_set cls source pk) table) as [r|] eqn:Ef.
  - apply is_set_elem in Ef as (Hr & <- & <- & Hcls). pose proof (proj1 (sets_of_elem _ _ _) Hr) as (Hin & _ & _).
    rewrite (rr_source _ (Hready r Hin)). fold (set_key r).
    destruct (proj2 (Hkeys (set_key r))) as [l El]; [by exists r|]. rewrite El. simpl. constructor. split; [done|].
    intros x. simpl. pose proof (good_members store (set_key r) HG) as Hplain. pose proof (Hmem r Hr) as Hx.
    unfold members_of in *. rewrite El in *. simpl in *. rewrite content_join by done. destruct l as [|y l].
    + rewrite list_elem_of_singleton. split.
      * intros ->. right. split; [|done]. intros y Hy%Hx. by apply elem_of_nil in Hy.
      * intros [Hy%Hx|[_ ?]]; [by apply elem_of_nil in Hy|done].
    + rewrite Hx. split; [by left|]. intros [?|[Hno _]]; [done|]. destruct (Hno y). apply Hx. by left.
  - destruct (plain_source source) eqn:Hsrc; [|constructor].
    destruct (dict_get (source_key source pk) store) as [l|] eqn:El; [exfalso|constructor].
    destruct (proj1 (Hkeys (source_key source pk))) as (r & Hr & Hk); [by eexists|].
    pose proof (proj1 (sets_of_elem _ _ _) Hr) as (Hin & Hcls & Hvis).
    apply plain_key_inj in Hk as [-> ->]; [|done|by apply Hready].
    pose proof (find_none _ _ Ef r (proj1 (list_elem_of_In _ _) Hin)) as Hno.
    unfold is_set in Hno. by rewrite Hcls, Hvis, !String.eqb_refl in Hno.
Qed.

Lemma concat_elem {A} (ls : list (list A)) x : x ∈ concat ls ↔ ∃ l, l ∈ ls ∧ x ∈ l.
Proof.
  induction ls as [|l ls IH]; simpl; [split; [by intros ?%elem_of_nil|intros (? & ?%elem_of_nil & _); done]|].
  rewrite elem_of_app, IH. setoid_rewrite elem_of_cons. naive_solver.
Qed.
Lemma routes_of_elem m origins sources ip_version routes p :
  routes_for_origins m origins sources ip_version = Ok routes →
  p ∈ routes ↔ ∃ source origin, source ∈ sources ∧ origin ∈ origins ∧ p ∈ routes_of m ip_version source origin.
Proof.
  unfold routes_for_origins. intros (_ & _ & Hr)%res_bind_Ok. injection Hr as <-. rewrite oset_update_elem, concat_elem. split.
  - intros [?%elem_of_nil|(l & (source & -> & Hs)%list_elem_of_fmap & (l' & (origin & -> & Ho)%list_elem_of_fmap & Hp)%concat_elem)]; [done|].
    eauto 6.
  - intros (source & origin & Hs & Ho & Hp). right. eexists. split; [by apply list_elem_of_fmap_2|]. apply concat_elem.
    eexists. split; [by apply list_elem_of_fmap_2|done].
Qed.
Lemma routes_agree_all table m :
  routes_agree table 4 (_origin_route4_store m) → routes_agree table 6 (_origin_route6_store m) →
  ∀ origins sources ip_version routes, routes_for_origins m origins sources ip_version = Ok routes →
  ∀ p, p ∈ routes ↔ db_prefix table origins sources ip_version p.
Proof.
  intros H4 H6 origins sources ip_version routes Hr p. rewrite (routes_of_elem _ _ _ _ _ _ Hr). unfold routes_of, db_prefix.
  assert (∀ (b : bool) (l : list string), p ∈ (if b then l else []) ↔ b = true ∧ p ∈ l) as Hif.
  { intros [] l; [naive_solver|]. split; [by intros ?%elem_of_nil|naive_solver]. }
  setoid_rewrite elem_of_app. setoid_rewrite Hif. setoid_rewrite (H4 _ _). setoid_rewrite (H6 _ _). split.
  - intros (source & origin & Hs & Ho & [(Hv & r & Hin & Hsel & <- & <- & Hver & ->)|(Hv & r & Hin & Hsel & <- & <- & Hver & ->)]);
      [exists r, 4%Z|exists r, 6%Z]; (split_and!; [done..| |done|done]); set_solver.
  - intros (r & v & Hin & Hsel & Hs & Ho & Hver & Hv & Hask & ->). exists (r_source r), (origin_of r).
    split; [done|]. split; [done|]. apply elem_of_cons in Hv as [->|Hv%list_elem_of_singleton]; [left|subst v; right]; eauto 10.
Qed.
Lemma find_map_Forall2 {A B C} (P : B → C → Prop) (f : A → option B) (g : A → option C) l :
  (∀ x, option_Forall2 P (f x) (g x)) → option_Forall2 P (list_find_map f l) (list_find_map g l).
Proof. intros Hfg. induction l as [|x l IH]; simpl; [constructor|]. destruct (Hfg x); [by constructor|done]. Qed.
Lemma sets_agree_all table m :
  sets_agree table "as-set" (_as_set_store m) → sets_agree table "route-set" (_route_set_store m) →
  ∀ pk sources object_classes,
    option_Forall2 (is_content table) (db_set table (str_upper pk) sources object_classes) (set_members m pk sources object_classes).
Proof.
  intros Ha Hr pk sources classes. unfold db_set, set_members, db_set_of, members_in.
  assert (∀ b : bool, option_Forall2 (is_content table)
    (if b then list_find_map (λ source, List.find (is_set "as-set" source (str_upper pk)) table) sources else None)
    (if b then list_find_map (λ source, (λ text, {| sm_members := content text; sm_object_class := "as-set" |})
       <$> store_get (_as_set_store m) source (str_upper pk)) sources else None)) as H1.
  { intros []; [|constructor]. apply find_map_Forall2. intros source. apply Ha. }
  destruct (H1 (class_asked "as-set" classes)) as [r s Hs|]; [by constructor|].
  destruct (class_asked "route-set" classes); [|constructor]. apply find_map_Forall2. intros source. apply Hr.
Qed.

Lemma or_absurd (P Q : Prop) : ¬ P → P ∨ Q ↔ Q.
Proof. tauto. Qed.
(** The whole way: database, Redis, memory. *)
Section Whole.
Context (collate_lt : string → string → bool).

Lemma preload_agrees table r0 :
  table_ready table = true → NoDup (row_key <$> table) →
  ∃ rd m, update collate_lt true true true table r0 = Ok rd ∧ _load_preload_data_into_memory rd = Ok m ∧ memory_agrees table m.
Proof using Type.
  intros Hready Hnd. assert (∀ r, r ∈ table → row_ready_spec r) as Hrows by (intros r; by apply row_readyP).
  unfold update. rewrite update_routes_eq. cbn [mbind res_bind].
  pose proof (add_routes_spec (route_rows table) [] []) as Hroutes.
  change (foldl add_route ([], []) (route_rows table)) with (foldl add_route (([] : set_store), ([] : set_store)) (route_rows table)) in *.
  destruct (foldl add_route _ (route_rows table)) as [s4 s6].
  assert (good_store []) as G0 by (split; [constructor|done]). assert (inhabited_store []) as I0 by done.
  destruct Hroutes as [(G4 & I4 & G6 & I6) Hroutes]; [done..|intros r [Hin _]%filter_elem; auto|].
  destruct (update_set_spec collate_lt "as-set" table) as (sa & Ea & Ga & Ka & Ma); [by left|done..|].
  destruct (update_set_spec collate_lt "route-set" table) as (sr & Er & Gr & Kr & Mr); [right; by left|done..|].
  change (member_classes "as-set") with ["aut-num"] in Ea. change (member_classes "route-set") with ["route"; "route6"] in Er.
  rewrite Ea. cbn [mbind res_bind]. rewrite Er. cbn [mbind res_bind].
  destruct (load_routes table 4 s4 Hrows G4 I4) as (t4 & L4 & A4);
    [intros k x; etransitivity; [apply (Hroutes k x)|apply or_absurd, not_elem_of_nil]|].
  destruct (load_routes table 6 s6 Hrows G6 I6) as (t6 & L6 & A6);
    [intros k x; etransitivity; [apply (Hroutes k x)|apply or_absurd, not_elem_of_nil]|].
  destruct (load_sets table "as-set" sa) as (ta & La & Aa); [assumption..|].
  destruct (load_sets table "route-set" sr) as (tr & Lr & Ar); [assumption..|].
  eexists. eexists. split; [reflexivity|]. split.
  { unfold _load_preload_data_into_memory. simpl. rewrite L4. simpl. rewrite L6. simpl. rewrite La. simpl. rewrite Lr. reflexivity. }
  split; [apply routes_agree_all; assumption|apply sets_agree_all; assumption].
Qed.
End Whole.
