(* ===== verification/PreloadManager.v ===== *)
(** * Reloading the preload store ([irrd/storage/preload.py])

    The processes that keep the store up to date, as steps: commits of the
    database that publish a reload message, [PreloadStoreManager] that receives
    the messages and starts [PreloadUpdater] threads, the threads with their
    lock, and a worker that loads the store into memory when an update is
    completed.  Errors of Redis and waiting times are not modelled; the manager
    is taken to be subscribed before the first commit. *)
From S2P Require Import Prelude PyStr Models Queries Preload.

(** ** Threads *)

(** The three parts of the store, in the order in which they are updated. *)
Inductive set_part := AsSets | RouteSets.
Inductive part := Routes | Sets (k : set_part).
#[export] Instance set_part_eq : EqDecision set_part.
Proof. solve_decision. Defined.
#[export] Instance part_eq : EqDecision part.
Proof. solve_decision. Defined.
Inductive update_data :=
| RoutesData (new_origin_route4_store new_origin_route6_store : set_store)
| SetsData (k : set_part) (new_store : set_store).
Definition part_of (d : update_data) : part := match d with RoutesData _ _ => Routes | SetsData k _ => Sets k end.
Definition write_data (d : update_data) : redis → redis :=
  match d with
  | RoutesData s4 s6 => update_route_store s4 s6
  | SetsData AsSets s => update_as_set_store s
  | SetsData RouteSets s => update_route_set_store s
  end.

(** Where a thread is: it waits for the lock; it is about to query the database
    for a part, is between the two queries of [_update_set], or is about to
    write what it read; it is about to signal that it is done, or an exception
    ended the update; it has released the lock but is still alive; it is dead. *)
Inductive phase :=
| Waiting
| Reading (p : part)
| Half (k : set_part) (s : set_rows)
| Writing (d : update_data)
| Completed
| Failed
| Released
| Dead.
Record PreloadUpdater := {
  update_routes : bool;
  update_as_sets : bool;
  update_route_sets : bool;
  th_phase : phase;
}.
Definition with_phase (p : phase) (t : PreloadUpdater) : PreloadUpdater := {|
  update_routes := update_routes t; update_as_sets := update_as_sets t; update_route_sets := update_route_sets t;
  th_phase := p |}.
Definition updates (t : PreloadUpdater) (p : part) : bool :=
  match p with Routes => update_routes t | Sets AsSets => update_as_sets t | Sets RouteSets => update_route_sets t end.
Definition is_alive (t : PreloadUpdater) : bool := match th_phase t with Dead => false | _ => true end.
Definition holds_lock (t : PreloadUpdater) : bool :=
  match th_phase t with Waiting | Released | Dead => false | _ => true end.
Definition after (p : part) : phase :=
  match p with Routes => Reading (Sets AsSets) | Sets AsSets => Reading (Sets RouteSets) | Sets RouteSets => Completed end.

Section PreloadManager.
Context (collate_lt : string → string → bool).

Definition set_class_of (k : set_part) : string := match k with AsSets => "as-set" | RouteSets => "route-set" end.
Definition member_classes_of (k : set_part) : list string :=
  match k with AsSets => ["aut-num"] | RouteSets => ["route"; "route6"] end.
(** The next phase of a thread that holds the lock: one query, or one write. *)
Definition read_part (p : part) (table : list rpsl_row) : phase :=
  match p with
  | Routes => match _update_routes collate_lt table with Ok (s4, s6) => Writing (RoutesData s4 s6) | Raise _ => Failed end
  | Sets k => match read_sets collate_lt (set_class_of k) table with Ok s => Half k s | Raise _ => Failed end
  end.
Definition advance (table : list rpsl_row) (t : PreloadUpdater) : phase :=
  match th_phase t with
  | Reading p => if updates t p then read_part p table else after p
  | Half k s => match read_members collate_lt (member_classes_of k) s table with
                | Ok store => Writing (SetsData k store)
                | Raise _ => Failed
                end
  | Writing d => after (part_of d)
  | p => p
  end.
Definition written (t : PreloadUpdater) (r : redis) : redis :=
  match th_phase t with Writing d => write_data d r | _ => r end.

(** ** The manager *)

(** [signal_reload] with the classes that changed. *)
Definition signal_message (object_classes_changed : list string) : string :=
  match object_classes_changed with [] => REDIS_PRELOAD_ALL_MESSAGE | _ => join REDIS_CONTENTS_LIST_SEPARATOR object_classes_changed end.
Definition relevant_classes (p : part) : list string :=
  match p with
  | Routes => ["route"; "route6"]
  | Sets AsSets => ["as-set"; "aut-num"]
  | Sets RouteSets => ["route-set"; "route"; "route6"]
  end.
Definition asks (message : string) (p : part) : bool :=
  String.eqb message REDIS_PRELOAD_ALL_MESSAGE
  || existsb (λ c, bool_decide (c ∈ relevant_classes p)) (split_on ch_comma message).
(** [_remove_dead_threads]: the list is changed while it is iterated, so the
    thread after a dead one is not looked at. *)
Fixpoint _remove_dead_threads (threads : list PreloadUpdater) : list PreloadUpdater :=
  match threads with
  | [] => []
  | t :: threads' =>
      if is_alive t then t :: _remove_dead_threads threads'
      else match threads' with [] => [] | t' :: threads'' => t' :: _remove_dead_threads threads'' end
  end.
Definition add_flags (message : string) (t : PreloadUpdater) : PreloadUpdater := {|
  update_routes := update_routes t || asks message Routes;
  update_as_sets := update_as_sets t || asks message (Sets AsSets);
  update_route_sets := update_route_sets t || asks message (Sets RouteSets);
  th_phase := th_phase t |}.
Definition new_thread (message : string) : PreloadUpdater := {|
  update_routes := asks message Routes; update_as_sets := asks message (Sets AsSets);
  update_route_sets := asks message (Sets RouteSets); th_phase := Waiting |}.
Definition perform_reload (message : string) (threads : list PreloadUpdater) : list PreloadUpdater :=
  if asks message Routes || asks message (Sets AsSets) || asks message (Sets RouteSets) then
    let threads := _remove_dead_threads (add_flags message <$> threads) in
    if Nat.ltb 1 (length threads) then threads else threads ++ [new_thread message]
  else threads.

(** ** Steps *)

Record system := {
  sy_table : list rpsl_row;            (* committed in the database *)
  sy_messages : list string;           (* published and not yet received *)
  sy_redis : redis;
  sy_threads : list PreloadUpdater;
  sy_completions : nat;                (* completion messages on their way to the worker *)
  sy_memory : option memory;
}.
Definition with_threads (threads : list PreloadUpdater) (s : system) : system := {|
  sy_table := sy_table s; sy_messages := sy_messages s; sy_redis := sy_redis s; sy_threads := threads;
  sy_completions := sy_completions s; sy_memory := sy_memory s |}.
Definition start (table : list rpsl_row) (r : redis) : system := {|
  sy_table := table; sy_messages := []; sy_redis := _clear_existing_data r;
  sy_threads := perform_reload REDIS_PRELOAD_ALL_MESSAGE []; sy_completions := 0; sy_memory := None |}.

(** A commit of changes to rows of the given classes, and its message. *)
Inductive commit_step : system → system → Prop :=
| do_commit s table classes :
    classes ≠ [] → Forall (λ c, has_char ch_comma c = false) classes →
    List.filter (λ r, negb (bool_decide (r_object_class r ∈ classes))) table
    = List.filter (λ r, negb (bool_decide (r_object_class r ∈ classes))) (sy_table s) →
    commit_step s {|
      sy_table := table; sy_messages := sy_messages s ++ [signal_message classes]; sy_redis := sy_redis s;
      sy_threads := sy_threads s; sy_completions := sy_completions s; sy_memory := sy_memory s |}.

(** [perform_reload], called for a message or by a thread whose update failed. *)
Inductive request_step (s : system) : string → system → Prop :=
| do_receive message messages :
    sy_messages s = message :: messages →
    request_step s message {|
      sy_table := sy_table s; sy_messages := messages; sy_redis := sy_redis s;
      sy_threads := perform_reload message (sy_threads s);
      sy_completions := sy_completions s; sy_memory := sy_memory s |}
| do_retry before t later :
    sy_threads s = before ++ t :: later → th_phase t = Failed →
    request_step s REDIS_PRELOAD_ALL_MESSAGE
      (with_threads (perform_reload REDIS_PRELOAD_ALL_MESSAGE (before ++ with_phase Released t :: later)) s).

Inductive thread_step : system → system → Prop :=
| do_acquire s before t later :
    sy_threads s = before ++ t :: later → th_phase t = Waiting → forallb (λ t, negb (holds_lock t)) (sy_threads s) = true →
    thread_step s (with_threads (before ++ with_phase (Reading Routes) t :: later) s)
| do_advance s before t later :
    sy_threads s = before ++ t :: later → holds_lock t = true → th_phase t ≠ Completed → th_phase t ≠ Failed →
    thread_step s {|
      sy_table := sy_table s; sy_messages := sy_messages s; sy_redis := written t (sy_redis s);
      sy_threads := before ++ with_phase (advance (sy_table s) t) t :: later;
      sy_completions := sy_completions s; sy_memory := sy_memory s |}
| do_complete s before t later :
    sy_threads s = before ++ t :: later → th_phase t = Completed →
    thread_step s {|
      sy_table := sy_table s; sy_messages := sy_messages s; sy_redis := sy_redis s;
      sy_threads := before ++ with_phase Released t :: later;
      sy_completions := S (sy_completions s); sy_memory := sy_memory s |}
| do_die s before t later :
    sy_threads s = before ++ t :: later → th_phase t = Released →
    thread_step s (with_threads (before ++ with_phase Dead t :: later) s)
| do_load s n :
    sy_completions s = S n → is_Some (rd_origin_route4 (sy_redis s)) →
    thread_step s {|
      sy_table := sy_table s; sy_messages := sy_messages s; sy_redis := sy_redis s; sy_threads := sy_threads s;
      sy_completions := n;
      sy_memory := match _load_preload_data_into_memory (sy_redis s) with Ok m => Some m | Raise _ => sy_memory s end |}.

(** What runs do with requests.  [perform_reload] counts a thread that has released
    the lock but has not ended yet as one that is still working, and the other one,
    which may have queried the database already, as the one that waits: a request
    that leaves no thread waiting is dropped.  Next to the system, a run records the
    parts whose last request was dropped. *)
Definition waits (t : PreloadUpdater) : bool := match th_phase t with Waiting => true | _ => false end.
Definition dropped (message : string) (s' : system) (lost : part → bool) (p : part) : bool :=
  if asks message p then negb (existsb waits (sy_threads s')) else lost p.
(** A step other than a commit. *)
Inductive work_step : system * (part → bool) → system * (part → bool) → Prop :=
| work_thread s s' lost : thread_step s s' → work_step (s, lost) (s', lost)
| work_request s message s' lost : request_step s message s' → work_step (s, lost) (s', dropped message s' lost).
Inductive reachable : system → (part → bool) → Prop :=
| reachable_start table r : reachable (start table r) (λ _, false)
| reachable_work s lost s' lost' : reachable s lost → work_step (s, lost) (s', lost') → reachable s' lost'
| reachable_commit s lost s' : reachable s lost → commit_step s s' → reachable s' lost.
(** No thread and no message is left, and in the end no completion either. *)
Definition quiet (s : system) : Prop := sy_messages s = [] ∧ ∀ t, t ∈ sy_threads s → th_phase t = Dead.
Definition settled (s : system) : Prop := quiet s ∧ sy_completions s = 0%nat.
End PreloadManager.
