(* ===== verification/PreloadManagerTheory.v ===== *)
(** * The preload store settles on the database

    Whatever the order of commits, messages and threads, no change is lost unless
    its request was dropped; and once commits stop, the store and the memory of the
    worker reach the state of the database. *)
From S2P Require Import Prelude PyStr Models Queries Database Preload PreloadTheory PreloadManager.

(** ** The state of one part of the store *)

Definition index (p : part) : nat := match p with Routes => 0 | Sets AsSets => 1 | Sets RouteSets => 2 end.
Lemma index_inj p q : index p = index q → p = q.
Proof. by destruct p as [|[]], q as [|[]]. Qed.
(** The thread will still query the database for [p]. *)
Definition will_read (p : part) (t : PreloadUpdater) : bool :=
  updates t p && match th_phase t with
                 | Waiting => true
                 | Reading q => Nat.leb (index q) (index p)
                 | Half k _ => Nat.ltb (index (Sets k)) (index p)
                 | Writing d => Nat.ltb (index (part_of d)) (index p)
                 | _ => false
                 end.
(** It has queried for [p], and not written yet. *)
Definition flies (p : part) (t : PreloadUpdater) : bool :=
  match th_phase t with
  | Half k _ => bool_decide (Sets k = p)
  | Writing d => bool_decide (part_of d = p)
  | _ => false
  end.
Definition has_failed (t : PreloadUpdater) : bool := match th_phase t with Failed => true | _ => false end.
Definition is_stored (d : update_data) (r : redis) : Prop :=
  match d with
  | RoutesData s4 s6 => rd_origin_route4 r = Some (redis_mapping s4) ∧ rd_origin_route6 r = Some (redis_mapping s6)
  | SetsData AsSets s => rd_as_set r = Some (redis_mapping s)
  | SetsData RouteSets s => rd_route_set r = Some (redis_mapping s)
  end.
Lemma write_data_stored d r : is_stored d (write_data d r).
Proof. by destruct d as [|[]]. Qed.
Lemma write_data_other d d' r : part_of d ≠ part_of d' → is_stored d' r → is_stored d' (write_data d r).
Proof. by destruct d as [|[]], d' as [|[]]. Qed.

Lemma flies_holds p t : flies p t = true → holds_lock t = true.
Proof. unfold flies, holds_lock. by destruct (th_phase t). Qed.
Lemma will_read_alive p t : will_read p t = true → is_alive t = true.
Proof. unfold will_read, is_alive. destruct (th_phase t); rewrite ?andb_false_r; done. Qed.
Lemma failed_not_flies p t : has_failed t = true → flies p t = false.
Proof. unfold has_failed, flies. by destruct (th_phase t). Qed.
Lemma holds_alive t : holds_lock t = true → is_alive t = true.
Proof. unfold holds_lock, is_alive. by destruct (th_phase t). Qed.

(** The queries are not to be evaluated in proofs. *)
#[local] Opaque _update_routes read_sets read_members.

Section PreloadSettles.
Context (collate_lt : string → string → bool).

(** What a part is for a table. *)
Definition compute (p : part) (table : list rpsl_row) : res update_data :=
  match p with
  | Routes => '(s4, s6) ← _update_routes collate_lt table; Ok (RoutesData s4 s6)
  | Sets k => store ← _update_set collate_lt (set_class_of k) (member_classes_of k) table; Ok (SetsData k store)
  end.
Lemma compute_part p table d : compute p table = Ok d → part_of d = p.
Proof using Type.
  destruct p as [|k]; unfold compute.
  - intros ([s4 s6] & _ & H)%res_bind_Ok. by injection H as <-.
  - intros (s & _ & H)%res_bind_Ok. by injection H as <-.
Qed.
Definition fresh (p : part) (table : list rpsl_row) (t : PreloadUpdater) : Prop :=
  match th_phase t with
  | Half k s => read_sets collate_lt (set_class_of k) table = Ok s
  | Writing d => compute p table = Ok d
  | _ => False
  end.
Definition current (p : part) (s : system) : Prop := ∃ d, compute p (sy_table s) = Ok d ∧ is_stored d (sy_redis s).
(** The part is up to date, or something is on its way that will make it so. *)
Definition covered (p : part) (s : system) : Prop :=
  (∃ m, m ∈ sy_messages s ∧ asks m p = true)
  ∨ (∃ t, t ∈ sy_threads s ∧ (will_read p t || has_failed t) = true)
  ∨ (∃ t, t ∈ sy_threads s ∧ flies p t = true ∧ fresh p (sy_table s) t)
  ∨ (∀ t, t ∈ sy_threads s → flies p t = false) ∧ current p s.
Definition will_complete (t : PreloadUpdater) : bool :=
  match th_phase t with Released | Dead => false | _ => true end.
Definition memory_covered (s : system) : Prop :=
  (0 < sy_completions s)%nat
  ∨ (∃ t, t ∈ sy_threads s ∧ will_complete t = true)
  ∨ (∀ m, _load_preload_data_into_memory (sy_redis s) = Ok m → sy_memory s = Some m).
Definition one_holder (threads : list PreloadUpdater) : Prop := (length (List.filter holds_lock threads) ≤ 1)%nat.
Definition nothing_lost (lost : part → bool) : Prop := ∀ p, lost p = false.
Record good_system (s : system) (lost : part → bool) : Prop := {
  gs_length : (length (sy_threads s) ≤ 2)%nat;
  gs_lock : one_holder (sy_threads s);
  gs_covered : ∀ p, lost p = false → covered p s;
  gs_memory : nothing_lost lost → memory_covered s;
}.

(** *** Commits *)

Lemma signal_asks classes p :
  classes ≠ [] → Forall (λ c, has_char ch_comma c = false) classes →
  asks (signal_message classes) p = false → ∀ c, c ∈ classes → c ∉ relevant_classes p.
Proof using Type.
  intros Hne Hc. unfold asks, signal_message. destruct classes as [|c0 classes]; [done|].
  intros [_ Hno]%orb_false_iff c Hin Hr. rewrite existsb_false in Hno. specialize (Hno c).
  change REDIS_CONTENTS_LIST_SEPARATOR with (String ch_comma "") in Hno.
  rewrite (split_on_join ch_comma (c0 :: classes)) in Hno by done. apply Hno in Hin.
  by rewrite bool_decide_eq_true_2 in Hin.
Qed.
Lemma filter_classes (classes wanted : list string) (table table' : list rpsl_row) (p : rpsl_row → bool) :
  List.filter (λ r, negb (bool_decide (r_object_class r ∈ classes))) table
  = List.filter (λ r, negb (bool_decide (r_object_class r ∈ classes))) table' →
  (∀ c, c ∈ classes → c ∉ wanted) → (∀ r, p r = true → r_object_class r ∈ wanted) →
  List.filter p table = List.filter p table'.
Proof using Type.
  intros Hf Hdis Hp.
  assert (∀ l, List.filter p l = List.filter p (List.filter (λ r, negb (bool_decide (r_object_class r ∈ classes))) l)) as Hl.
  { intros l. induction l as [|r l IH]; [done|]. simpl. case_bool_decide as Hin; simpl.
    - destruct (p r) eqn:Er; [|done]. exfalso. by apply (Hdis _ Hin), Hp.
    - by rewrite IH. }
  by rewrite (Hl table), (Hl table'), Hf.
Qed.
Lemma selected_in_class classes r : selected_in classes r = true → r_object_class r ∈ classes.
Proof using Type. unfold selected_in. by intros [?%bool_decide_eq_true _]%andb_true_iff. Qed.
(** What is read for a part that a message does not ask for has not changed. *)
Lemma unchanged_reads (classes : list string) p table table' :
  List.filter (λ r, negb (bool_decide (r_object_class r ∈ classes))) table
  = List.filter (λ r, negb (bool_decide (r_object_class r ∈ classes))) table' →
  (∀ c, c ∈ classes → c ∉ relevant_classes p) →
  compute p table = compute p table' ∧
  ∀ k, p = Sets k → read_sets collate_lt (set_class_of k) table = read_sets collate_lt (set_class_of k) table'.
Proof using Type.
  intros Hf Hdis.
  assert (∀ k, p = Sets k → read_sets collate_lt (set_class_of k) table = read_sets collate_lt (set_class_of k) table') as Hsets.
  { intros k ->. rewrite !read_sets_eq. unfold sets_of.
    rewrite (filter_classes classes (relevant_classes (Sets k)) table table' (selected_in [set_class_of k]) Hf Hdis); [done|].
    intros r ->%selected_in_class%list_elem_of_singleton. destruct k; by left. }
  split; [|done]. destruct p as [|k]; unfold compute.
  - rewrite !update_routes_eq. unfold route_rows.
    by rewrite (filter_classes classes (relevant_classes Routes) table table' (selected_in ["route"; "route6"]) Hf Hdis);
      [|intros r; apply selected_in_class].
  - unfold _update_set. rewrite (Hsets k eq_refl). destruct (read_sets _ _ table') as [s|e]; [|done]. cbn [mbind res_bind].
    rewrite !read_members_eq. unfold member_rows.
    rewrite (filter_classes classes (relevant_classes (Sets k)) table table' (is_member_row (member_classes_of k)) Hf Hdis); [done|].
    intros r [_ Hr%selected_in_class]%andb_true_iff. destruct k; simpl in *; set_solver.
Qed.
Lemma commit_good s s' lost : commit_step s s' → good_system s lost → good_system s' lost.
Proof using Type.
  intros [s0 table classes Hne Hcomma Hf] [Hlen Hlock Hcov Hmem]. split; [done|done| |done].
  intros p Hl. destruct (asks (signal_message classes) p) eqn:Ea.
  { left. exists (signal_message classes). split; [|done]. simpl. apply elem_of_app. right. by left. }
  destruct (unchanged_reads classes p table (sy_table s0) Hf (signal_asks _ _ Hne Hcomma Ea)) as [Hc Hs].
  unfold covered, current. simpl. rewrite Hc. destruct (Hcov p Hl) as [(m & Hm & Ha)|[Hr|[(t & Ht & Hfly & Hfresh)|Hcur]]].
  - left. exists m. split; [apply elem_of_app; by left|done].
  - by right; left.
  - right; right; left. exists t. split; [done|]. split; [done|]. revert Hfly Hfresh. unfold flies, fresh.
    destruct (th_phase t) as [| |k x|d| | | |]; try done; [|by rewrite Hc].
    intros E%bool_decide_eq_true. by rewrite (Hs k).
  - by right; right; right.
Qed.

(** *** Requests *)

Lemma one_holder_app before t later :
  one_holder (before ++ t :: later) ↔
  (length (List.filter holds_lock before) + (if holds_lock t then 1 else 0) + length (List.filter holds_lock later) ≤ 1)%nat.
Proof using Type.
  unfold one_holder. rewrite List.filter_app, length_app. simpl. destruct (holds_lock t); simpl; lia.
Qed.
Lemma filter_none (l : list PreloadUpdater) : (length (List.filter holds_lock l) < 1)%nat → ∀ t, t ∈ l → holds_lock t = false.
Proof using Type.
  intros Hl t Ht. destruct (holds_lock t) eqn:E; [|done]. exfalso.
  assert (t ∈ List.filter holds_lock l) as Hin by (by apply filter_elem).
  destruct (List.filter holds_lock l); [by apply elem_of_nil in Hin|simpl in Hl; lia].
Qed.
Lemma other_holders before t later t' :
  one_holder (before ++ t :: later) → holds_lock t = true → t' ∈ before ∨ t' ∈ later → holds_lock t' = false.
Proof using Type.
  intros H%one_holder_app Ht. rewrite Ht in H. intros [Hin|Hin]; (eapply filter_none; [|exact Hin]); lia.
Qed.
Record reloaded (message : string) (threads l : list PreloadUpdater) : Prop := {
  rl_length : (length l ≤ 2)%nat;
  rl_lock : one_holder l;
  rl_kept : ∀ t, t ∈ threads → is_alive t = true → add_flags message t ∈ l;
  rl_flags : ∀ t, t ∈ l → ∀ p, asks message p = true → updates t p = true;
  rl_phases : ∀ t, t ∈ l → th_phase t = Waiting ∨ ∃ t0, t0 ∈ threads ∧ th_phase t = th_phase t0;
}.
Lemma add_flags_updates message t p : asks message p = true → updates (add_flags message t) p = true.
Proof using Type. intros H. destruct p as [|[]]; simpl; rewrite H; apply orb_true_r. Qed.
Lemma new_thread_updates message p : asks message p = true → updates (new_thread message) p = true.
Proof using Type. by destruct p as [|[]]. Qed.
Lemma one_holder_new l message : one_holder l → one_holder (l ++ [new_thread message]).
Proof using Type. unfold one_holder. rewrite List.filter_app, length_app. simpl. lia. Qed.
(** Of at most two threads, the dead ones are removed unless both are dead. *)
Lemma remove_dead_spec l :
  (length l ≤ 2)%nat →
  (∀ t, t ∈ l → is_alive t = true → t ∈ _remove_dead_threads l) ∧ (∀ t, t ∈ _remove_dead_threads l → t ∈ l)
  ∧ (one_holder l → one_holder (_remove_dead_threads l)) ∧ (length (_remove_dead_threads l) ≤ 2)%nat
  ∧ ((1 < length (_remove_dead_threads l))%nat → ∃ t1 t2, l = [t1; t2] ∧ _remove_dead_threads l = l
       ∧ is_alive t1 = true ∧ is_alive t2 = true).
Proof using Type.
  intros Hl. destruct l as [|t1 [|t2 [|t3 l]]]; [| | |simpl in Hl; lia]; simpl.
  - split_and!; [done|done|done|lia|lia].
  - destruct (is_alive t1) eqn:E1; simpl.
    + split_and!; [done|done|done|lia|lia].
    + split_and!; [|by intros t ?%elem_of_nil|unfold one_holder; simpl; lia|lia|lia].
      intros t ->%list_elem_of_singleton. by rewrite E1.
  - assert (∀ t, t ∈ [t1; t2] → t = t1 ∨ t = t2) as Hin by (intros t [?|?%list_elem_of_singleton]%elem_of_cons; auto).
    unfold one_holder. destruct (is_alive t1) eqn:E1, (is_alive t2) eqn:E2; simpl.
    + split_and!; [done|done|done|lia|]. intros _. by exists t1, t2.
    + split_and!; [|intros t ->%list_elem_of_singleton; by left|destruct (holds_lock t1), (holds_lock t2); simpl; lia|lia|lia].
      intros t [->| ->]%Hin; [by left|by rewrite E2].
    + split_and!; [|intros t ->%list_elem_of_singleton; right; by left|destruct (holds_lock t1), (holds_lock t2); simpl; lia|lia|lia].
      intros t [->| ->]%Hin; [by rewrite E1|by left].
    + split_and!; [|intros t ->%list_elem_of_singleton; right; by left|destruct (holds_lock t1), (holds_lock t2); simpl; lia|lia|lia].
      intros t [->| ->]%Hin; [by rewrite E1|by left].
Qed.
Lemma add_flags_holders message l : one_holder l → one_holder (add_flags message <$> l).
Proof using Type.
  unfold one_holder. assert (length (List.filter holds_lock (add_flags message <$> l)) = length (List.filter holds_lock l)) as ->; [|done].
  induction l as [|t l IH]; csimpl; [done|]. change (holds_lock (add_flags message t)) with (holds_lock t).
  destruct (holds_lock t); simpl; by rewrite IH.
Qed.
Lemma perform_reload_spec message threads :
  (length threads ≤ 2)%nat → one_holder threads → (∃ p, asks message p = true) →
  reloaded message threads (perform_reload message threads).
Proof using Type.
  intros Hlen Hlock [p Hp]. unfold perform_reload.
  replace (asks message Routes || asks message (Sets AsSets) || asks message (Sets RouteSets)) with true
    by (destruct p as [|[]]; rewrite Hp; by rewrite ?orb_true_r).
  destruct (remove_dead_spec (add_flags message <$> threads)) as (Hkept & Hfrom & Hone & Hr & _); [by rewrite length_fmap|].
  specialize (Hone (add_flags_holders message threads Hlock)).
  assert (∀ t, t ∈ _remove_dead_threads (add_flags message <$> threads) →
    ∃ t0, t0 ∈ threads ∧ t = add_flags message t0) as Hold.
  { intros t (t0 & -> & Ht0)%Hfrom%list_elem_of_fmap. by exists t0. }
  assert (∀ t, t ∈ threads → is_alive t = true → add_flags message t ∈ _remove_dead_threads (add_flags message <$> threads)) as Hkept'.
  { intros t Ht Ha. apply Hkept; [by apply list_elem_of_fmap_2|done]. }
  set (l := _remove_dead_threads _) in *. destruct (Nat.ltb_spec 1 (length l)) as [H1|H1].
  - split; [done|done|done| |].
    + intros t (t0 & _ & ->)%Hold q Hq. by apply add_flags_updates.
    + intros t (t0 & Ht0 & ->)%Hold. right. by exists t0.
  - split; [rewrite length_app; simpl; lia|by apply one_holder_new| | |].
    + intros t Ht Ha. apply elem_of_app. left. auto.
    + intros t [(t0 & _ & ->)%Hold| ->%list_elem_of_singleton]%elem_of_app q Hq; [by apply add_flags_updates|by apply new_thread_updates].
    + intros t [(t0 & Ht0 & ->)%Hold| ->%list_elem_of_singleton]%elem_of_app; [right; by exists t0|by left].
Qed.

(** After a request everything it asks for is on its way. *)
Lemma asks_all p : asks REDIS_PRELOAD_ALL_MESSAGE p = true.
Proof using Type. done. Qed.
Lemma waiting_reads p t : th_phase t = Waiting → updates t p = true → will_read p t = true.
Proof using Type. unfold will_read. by intros -> ->. Qed.
(** A request that is not dropped leaves a thread waiting. *)
Lemma waits_reads message threads l p :
  reloaded message threads l → asks message p = true → existsb waits l = true →
  ∃ t, t ∈ l ∧ (will_read p t || has_failed t) = true.
Proof using Type.
  intros Hl Ha (w & Hw & Hwait)%existsb_spec. exists w. split; [done|]. apply orb_true_iff. left.
  apply waiting_reads; [by unfold waits in Hwait; destruct (th_phase w)|by apply (rl_flags _ _ _ Hl)].
Qed.
Lemma waits_completes l : existsb waits l = true → ∃ t, t ∈ l ∧ will_complete t = true.
Proof using Type.
  intros (w & Hw & Hwait)%existsb_spec. exists w. split; [done|]. unfold waits, will_complete in *. by destruct (th_phase w).
Qed.
(** What was not asked for stays as it was. *)
Lemma reloaded_covered message threads l p s s' :
  reloaded message threads l → sy_threads s = threads → sy_threads s' = l → sy_table s' = sy_table s → sy_redis s' = sy_redis s →
  (∀ m, m ∈ sy_messages s → asks m p = true → m ∈ sy_messages s') → covered p s → covered p s'.
Proof using Type.
  intros [Rlen Rlock Rkept Rflags Rph] <- <- Htab Hred Hmsg. unfold covered, fresh, current. rewrite Htab, Hred.
  intros [(m & Hin & Hask)|[(t & Ht & Hr)|[(t & Ht & Hfly & Hfresh)|[Hno Hcur]]]].
  - left. exists m. split; auto.
  - right; left. exists (add_flags message t). split.
    + apply Rkept; [done|]. apply orb_true_iff in Hr as [Hr%will_read_alive|Hr]; [done|].
      unfold has_failed, is_alive in *. by destruct (th_phase t).
    + apply orb_true_iff in Hr as [Hr|Hr]; [apply orb_true_iff; left|by apply orb_true_iff; right].
      unfold will_read in *. apply andb_true_iff in Hr as [Hu Hph]. apply andb_true_iff. split; [|done].
      destruct p as [|[]]; simpl in *; by rewrite Hu.
  - right; right; left. exists (add_flags message t). split; [|done].
    apply Rkept; [done|]. by eapply holds_alive, flies_holds.
  - right; right; right. split; [|done]. intros t Ht. destruct (Rph t Ht) as [E|(t0 & Ht0 & E)]; unfold flies; rewrite E; [done|].
    by apply Hno in Ht0.
Qed.
Lemma asks_none message : asks message Routes || asks message (Sets AsSets) || asks message (Sets RouteSets) = false → ∀ p, asks message p = false.
Proof using Type. intros [[Ha1 Ha2]%orb_false_iff Ha3]%orb_false_iff [|[]]; done. Qed.
Lemma asks_some message : asks message Routes || asks message (Sets AsSets) || asks message (Sets RouteSets) = true → ∃ p, asks message p = true.
Proof using Type. rewrite !orb_true_iff. intros [[?|?]|?]; eauto. Qed.
Lemma request_good s message s' lost : request_step s message s' → good_system s lost → good_system s' (dropped message s' lost).
Proof using Type.
  intros Hstep [Hlen Hlock Hcov Hmem]. unfold dropped. destruct Hstep as [message messages Hm|before t later Ht Hfail].
  - destruct (asks message Routes || asks message (Sets AsSets) || asks message (Sets RouteSets)) eqn:Ha.
    2: { pose proof (asks_none _ Ha) as Hnone. unfold perform_reload, dropped. rewrite Ha. cbn [sy_threads].
         split; [done|done| |intros Hl; apply Hmem; intros p; specialize (Hl p); cbn beta in Hl; by rewrite Hnone in Hl].
         intros p. rewrite Hnone. intros Hl. destruct (Hcov p Hl) as [(m & Hin & Hask)|Hrest]; [left|by right]. exists m. split; [|done].
         simpl. rewrite Hm in Hin. apply elem_of_cons in Hin as [->|Hin]; [by rewrite Hnone in Hask|done]. }
    pose proof (perform_reload_spec message (sy_threads s) Hlen Hlock (asks_some _ Ha)) as Hl.
    split; [exact (rl_length _ _ _ Hl)|exact (rl_lock _ _ _ Hl)| |].
    + intros p. simpl. destruct (asks message p) eqn:Eask.
      * intros Hw%negb_false_iff. right; left. by eapply waits_reads.
      * intros Hlost. eapply reloaded_covered; [exact Hl|done..| |by apply Hcov]. intros m Hin Hask. simpl.
        rewrite Hm in Hin. apply elem_of_cons in Hin as [->|Hin]; [congruence|done].
    + intros Hnone. destruct (asks_some _ Ha) as [p Hp]. specialize (Hnone p). cbn beta in Hnone. rewrite Hp in Hnone.
      apply negb_false_iff in Hnone. right; left. by apply waits_completes.
  - rewrite Ht in *. assert (holds_lock t = true) as Hhold by (unfold holds_lock; by rewrite Hfail).
    assert (one_holder (before ++ with_phase Released t :: later)) as Hlock'.
    { apply one_holder_app in Hlock. apply one_holder_app. rewrite Hhold in Hlock. simpl. lia. }
    pose proof (perform_reload_spec REDIS_PRELOAD_ALL_MESSAGE (before ++ with_phase Released t :: later)
      ltac:(by rewrite length_app in Hlen |- *) Hlock' ltac:(by exists Routes)) as Hl.
    split; [exact (rl_length _ _ _ Hl)|exact (rl_lock _ _ _ Hl)| |].
    + intros p. rewrite asks_all. intros Hw%negb_false_iff. right; left. exact (waits_reads _ _ _ p Hl (asks_all p) Hw).
    + intros Hnone. specialize (Hnone Routes). cbn beta in Hnone. rewrite asks_all in Hnone. apply negb_false_iff in Hnone.
      right; left. by apply waits_completes.
Qed.

(** *** Steps of a thread *)

Lemma sets_fresh k s store table :
  read_sets collate_lt (set_class_of k) table = Ok s →
  read_members collate_lt (member_classes_of k) s table = Ok store → compute (Sets k) table = Ok (SetsData k store).
Proof using Type. intros Hs Hm. unfold compute, _update_set. rewrite Hs. cbn [mbind res_bind]. rewrite Hm. done. Qed.
Lemma index_after p q t : updates t q = true → (index p < index q)%nat → will_read q (with_phase (after p) t) = true.
Proof using Type.
  intros Hu Hlt. unfold will_read, updates in *. destruct p as [|[]], q as [|[]]; simpl in *; try lia; by rewrite Hu.
Qed.
(** A thread that queries for [p], or has passed it. *)
Lemma read_part_spec q table t :
  let t' := with_phase (read_part collate_lt q table) t in
  has_failed t' = true
  ∨ (∀ p, flies p t' = bool_decide (q = p)) ∧ fresh q table t'
    ∧ (∀ p, updates t p = true → (index q < index p)%nat → will_read p t' = true).
Proof using Type.
  intros t'. unfold t', read_part, flies, fresh, will_read. destruct q as [|k]; cbn [th_phase with_phase].
  - destruct (_update_routes collate_lt table) as [[s4 s6]|e] eqn:E; cbn [th_phase with_phase]; [right|by left].
    split; [done|]. split; [unfold compute; by rewrite E|]. intros p Hp Hlt. apply andb_true_iff. split; [done|by apply Nat.ltb_lt].
  - destruct (read_sets collate_lt (set_class_of k) table) as [s|e] eqn:E; cbn [th_phase with_phase]; [right|by left].
    split; [done|]. split; [done|]. intros p Hp Hlt. apply andb_true_iff. split; [done|by apply Nat.ltb_lt].
Qed.
(** What one step of a thread that holds the lock does for a part. *)
Record advances (p : part) (table : list rpsl_row) (t t' : PreloadUpdater) (write : redis → redis) : Prop := {
  ad_read : will_read p t = true → (will_read p t' || has_failed t') = true ∨ flies p t' = true ∧ fresh p table t';
  ad_fresh : flies p t = true → fresh p table t →
    has_failed t' = true ∨ flies p t' = true ∧ fresh p table t'
    ∨ flies p t' = false ∧ ∃ d, compute p table = Ok d ∧ ∀ r, is_stored d (write r);
  ad_kept : flies p t = false → ∀ d r, compute p table = Ok d → is_stored d r → is_stored d (write r);
  ad_flies : flies p t = false → flies p t' = true → fresh p table t';
}.
Lemma advance_spec p table t :
  holds_lock t = true → th_phase t ≠ Completed → th_phase t ≠ Failed →
  advances p table t (with_phase (advance collate_lt table t) t) (written t).
Proof using Type.
  unfold holds_lock, advance, written. destruct (th_phase t) as [|q|k rows|d| | | |] eqn:Eph; intros Hh Hnc Hnf;
    [discriminate Hh| | | |destruct (Hnc eq_refl)|destruct (Hnf eq_refl)|discriminate Hh|discriminate Hh]; clear Hh Hnc Hnf.
  - assert (flies p t = false) as Hno by (unfold flies; by rewrite Eph).
    destruct (updates t q) eqn:Eu.
    + destruct (read_part_spec q table t) as [Hf|(Hfly & Hfresh & Hlater)].
      * split; [intros _; left; by rewrite Hf, orb_true_r|by rewrite Hno|done|].
        intros _ H1. by rewrite (failed_not_flies p _ Hf) in H1.
      * split; [|by rewrite Hno|done|].
        -- unfold will_read at 1. rewrite Eph. intros [Hp Hle%Nat.leb_le]%andb_true_iff.
           destruct (decide (q = p)) as [->|Hne]; [right; rewrite Hfly; split; [by apply bool_decide_eq_true|done]|left].
           rewrite Hlater; [done|done|]. assert (index q ≠ index p) by (intros ?%index_inj; done). lia.
        -- intros _ H1. rewrite Hfly in H1. by apply bool_decide_eq_true in H1 as <-.
    + split; [|by rewrite Hno|done|].
      * unfold will_read at 1. rewrite Eph. intros [Hp Hle%Nat.leb_le]%andb_true_iff. left.
        assert (index q ≠ index p) by (intros ->%index_inj; congruence). rewrite index_after; [done|done|lia].
      * intros _ H1. exfalso. revert H1. unfold flies. simpl. by destruct q as [|[]].
  - destruct (read_members collate_lt (member_classes_of k) rows table) as [store|e] eqn:Em.
    + pose proof (λ Hs, sets_fresh k rows store table Hs Em) as Hc. clear Em. split.
      * unfold will_read at 1. rewrite Eph. intros [Hp Hlt]%andb_true_iff. left. apply orb_true_iff. left.
        unfold will_read. apply andb_true_iff. split; [exact Hp|exact Hlt].
      * unfold flies at 1, fresh at 1. rewrite Eph. intros Hk%bool_decide_eq_true Hs. right; left. split; [unfold flies; simpl; by apply bool_decide_eq_true|].
        unfold fresh. simpl. subst p. by apply Hc.
      * done.
      * unfold flies. rewrite Eph. simpl. congruence.
    + clear Em. split; [intros _; left; by rewrite orb_true_r|by left|done|by unfold flies].
  - assert (flies p (with_phase (after (part_of d)) t) = false) as Hno by (unfold flies; simpl; by destruct (part_of d) as [|[]]).
    split.
    + unfold will_read at 1. rewrite Eph. intros [Hp Hlt%Nat.ltb_lt]%andb_true_iff. left. by rewrite index_after.
    + unfold flies at 1, fresh at 1. rewrite Eph. intros _ Hc. right; right. split; [done|]. exists d. split; [done|].
      intros r. apply write_data_stored.
    + unfold flies. rewrite Eph. intros Hp%bool_decide_eq_false d' r Hd'%compute_part. apply write_data_other. congruence.
    + by rewrite Hno.
Qed.
Lemma covered_replace p (s s' : system) before t t' later (write : redis → redis) :
  sy_table s' = sy_table s → sy_messages s' = sy_messages s → sy_redis s' = write (sy_redis s) →
  sy_threads s = before ++ t :: later → sy_threads s' = before ++ t' :: later →
  (has_failed t = true → has_failed t' = true) →
  one_holder (before ++ t :: later) → advances p (sy_table s) t t' write → covered p s → covered p s'.
Proof using Type.
  intros Htab Hmsg Hred Ht Ht' Hfail Hone [Aread Afresh Akept Aflies] Hc. unfold covered, current. rewrite Htab, Hmsg, Hred, Ht'.
  assert (∀ (P : PreloadUpdater → Prop), P t' → ∃ u, u ∈ before ++ t' :: later ∧ P u) as Hnew.
  { intros P HP. exists t'. split; [apply elem_of_app; right; by left|done]. }
  assert (∀ u, u ∈ before ++ t :: later → u = t ∨ (u ∈ before ∨ u ∈ later)) as Hcase.
  { intros u [?|[?|?]%elem_of_cons]%elem_of_app; auto. }
  assert (∀ u, u ∈ before ∨ u ∈ later → u ∈ before ++ t' :: later) as Hother.
  { intros u [?|?]; apply elem_of_app; [by left|right; by right]. }
  assert (holds_lock t = true → ∀ u, u ∈ before ∨ u ∈ later → flies p u = false) as Hnone.
  { intros Hh u Hu. apply not_true_iff_false. intros Hf%flies_holds. by rewrite (other_holders _ _ _ _ Hone Hh Hu) in Hf. }
  destruct Hc as [Hm|[(u & Hu & Hr)|[(u & Hu & Hfly & Hfresh)|[Hno (d & Hd & Hst)]]]]; [by left| | |].
  - rewrite Ht in Hu. destruct (Hcase u Hu) as [->|Ho]; [|right; left; by exists u; auto].
    apply orb_true_iff in Hr as [Hr|Hr]; [|right; left; apply Hnew; by rewrite Hfail, orb_true_r].
    destruct (Aread Hr) as [?|?]; [right; left|right; right; left]; by apply Hnew.
  - rewrite Ht in Hu. destruct (Hcase u Hu) as [->|Ho]; [|right; right; left; by exists u; auto].
    pose proof (flies_holds _ _ Hfly) as Hh.
    destruct (Afresh Hfly Hfresh) as [Hf|[?|(Hnf & d & Hd & Hst)]].
    + right; left. apply Hnew. by rewrite Hf, orb_true_r.
    + right; right; left. by apply Hnew.
    + right; right; right. split; [|by exists d; auto].
      intros v [?|[->|?]%elem_of_cons]%elem_of_app; [apply Hnone; auto|done|apply Hnone; auto].
  - rewrite Ht in Hno. assert (flies p t = false) as Hft by (apply Hno, elem_of_app; right; by left).
    destruct (flies p t') eqn:Eft; [right; right; left; apply Hnew; auto|].
    right; right; right. split; [|exists d; split; [done|by apply Akept]].
    intros v [?|[->|?]%elem_of_cons]%elem_of_app; [apply Hno, elem_of_app; auto|done|apply Hno, elem_of_app; right; by right].
Qed.

(** A step that touches no part. *)
Lemma idle_advances p table t t' :
  (will_read p t = true → will_read p t' = true) → flies p t = false → flies p t' = false → advances p table t t' (λ r, r).
Proof using Type. intros Hr Hf Hf'. split; [intros H; left; by rewrite Hr|by rewrite Hf|done|by rewrite Hf']. Qed.
Lemma replace_lock before t t' later :
  one_holder (before ++ t :: later) → (holds_lock t' = true → holds_lock t = true) → one_holder (before ++ t' :: later).
Proof using Type.
  rewrite !one_holder_app. intros H1 H2. destruct (holds_lock t'); [rewrite H2 in H1 by done|]; lia.
Qed.
Lemma other_completes before t t' later :
  will_complete t = false → (∃ u, u ∈ before ++ t :: later ∧ will_complete u = true) →
  ∃ u, u ∈ before ++ t' :: later ∧ will_complete u = true.
Proof using Type.
  intros Ht (u & Hu & Hw). exists u. split; [|done]. apply elem_of_app in Hu as [?|[->|?]%elem_of_cons].
  - apply elem_of_app. by left.
  - congruence.
  - apply elem_of_app. right. by right.
Qed.
Lemma middle {A} (before : list A) t later : t ∈ before ++ t :: later.
Proof using Type. apply elem_of_app. right. by left. Qed.
Lemma thread_good s s' lost : thread_step collate_lt s s' → good_system s lost → good_system s' lost.
Proof using Type.
  intros Hstep [Hlen Hlock Hcov Hmem].
  destruct Hstep as [s before t later Ht Hw Hfree|s before t later Ht Hh Hnc Hnf|s before t later Ht Hp|s before t later Ht Hp|s n Hn Hr].
  - rewrite Ht in Hlen, Hlock. split.
    + simpl. rewrite length_app in *. done.
    + simpl. apply one_holder_app. rewrite forallb_spec in Hfree. rewrite Ht in Hfree.
      assert (∀ l, (∀ u, u ∈ l → negb (holds_lock u) = true) → length (List.filter holds_lock l) = 0%nat) as Hnone.
      { intros l Hl. destruct (List.filter holds_lock l) as [|u l'] eqn:El; [done|].
        assert (u ∈ List.filter holds_lock l) as [Hu Hhu]%filter_elem by (rewrite El; by left). apply Hl in Hu. by rewrite Hhu in Hu. }
      rewrite !Hnone; [simpl; lia|intros u Hu; apply Hfree, elem_of_app; right; by right|intros u Hu; apply Hfree, elem_of_app; by left].
    + intros p Hl. specialize (Hcov p Hl). eapply (covered_replace p s _ before t (with_phase (Reading Routes) t) later (λ r, r)); [done..| |done| |done].
      * unfold has_failed. by rewrite Hw.
      * apply idle_advances; [|unfold flies; by rewrite Hw|done]. unfold will_read at 1. rewrite Hw.
        intros [Hu _]%andb_true_iff. unfold will_read. apply andb_true_iff. split; [exact Hu|by destruct p as [|[]]].
    + intros _. right; left. exists (with_phase (Reading Routes) t). split; [apply middle|done].
  - rewrite Ht in Hlen, Hlock. split.
    + simpl. rewrite length_app in *. done.
    + by eapply replace_lock.
    + intros p Hl. specialize (Hcov p Hl). eapply (covered_replace p s _ before t _ later (written t)); [done..| |done|by apply advance_spec|done].
      unfold has_failed. by destruct (th_phase t).
    + intros _. right; left. eexists. split; [apply middle|]. unfold will_complete, advance. simpl. unfold holds_lock in Hh.
      destruct (th_phase t) as [|q|k x|d| | | |]; try done.
      * destruct (updates t q); [|by destruct q as [|[]]]. unfold read_part. destruct q as [|k].
        -- by destruct (_update_routes _ _) as [[]|].
        -- by destruct (read_sets _ _ _).
      * by destruct (read_members _ _ _ _).
      * by destruct (part_of d) as [|[]].
  - rewrite Ht in Hlen, Hlock. split.
    + simpl. rewrite length_app in *. done.
    + by eapply replace_lock.
    + intros p Hl. specialize (Hcov p Hl). eapply (covered_replace p s _ before t (with_phase Released t) later (λ r, r)); [done..| |done| |done].
      * unfold has_failed. by rewrite Hp.
      * apply idle_advances; [unfold will_read at 1; rewrite Hp, andb_false_r; done|unfold flies; by rewrite Hp|done].
    + intros _. left. simpl. lia.
  - rewrite Ht in Hlen, Hlock. split.
    + simpl. rewrite length_app in *. done.
    + by eapply replace_lock.
    + intros p Hl. specialize (Hcov p Hl). eapply (covered_replace p s _ before t (with_phase Dead t) later (λ r, r)); [done..| |done| |done].
      * unfold has_failed. by rewrite Hp.
      * apply idle_advances; [unfold will_read at 1; rewrite Hp, andb_false_r; done|unfold flies; by rewrite Hp|done].
    + intros Hl. destruct (Hmem Hl) as [?|[Hex|?]]; [by left| |by right; right]. right; left. rewrite Ht in Hex. simpl.
      eapply other_completes; [|exact Hex]. unfold will_complete. by rewrite Hp.
  - split; [done|done|done|]. intros _. right; right. simpl. intros m Hm. by rewrite Hm.
Qed.
Lemma start_good table r : good_system (start table r) (λ _, false).
Proof using Type.
  split; simpl.
  - lia.
  - unfold one_holder. simpl. lia.
  - intros p _. right; left. exists (new_thread REDIS_PRELOAD_ALL_MESSAGE). split; [by left|]. by destruct p as [|[]].
  - intros _. right; left. exists (new_thread REDIS_PRELOAD_ALL_MESSAGE). split; [by left|done].
Qed.
Lemma work_good s lost s' lost' : work_step collate_lt (s, lost) (s', lost') → good_system s lost → good_system s' lost'.
Proof using Type. inversion 1; subst; [by apply thread_good|by apply request_good]. Qed.
Lemma reachable_good s lost : reachable collate_lt s lost → good_system s lost.
Proof using Type.
  induction 1 as [|s lost s' lost' _ IH Hs|s lost s' _ IH Hs]; [apply start_good|by eapply work_good|by eapply commit_good].
Qed.

(** ** Progress *)

Definition phase_work (p : phase) : nat :=
  match p with
  | Waiting => 12
  | Reading Routes => 11 | Reading (Sets AsSets) => 9 | Reading (Sets RouteSets) => 6
  | Half AsSets _ => 8 | Half RouteSets _ => 5
  | Writing (RoutesData _ _) => 10 | Writing (SetsData AsSets _) => 7 | Writing (SetsData RouteSets _) => 4
  | Completed => 3
  | Failed => 14
  | Released => 1
  | Dead => 0
  end.
Definition threads_work : list PreloadUpdater → nat := sum_list_with (λ t, phase_work (th_phase t)).
Definition work (s : system) : nat := (13 * length (sy_messages s) + threads_work (sy_threads s) + sy_completions s)%nat.
Lemma threads_work_app l l' : threads_work (l ++ l') = (threads_work l + threads_work l')%nat.
Proof using Type. apply sum_list_with_app. Qed.
Lemma remove_dead_work l : (threads_work (_remove_dead_threads l) ≤ threads_work l)%nat.
Proof using Type.
  remember (length l) as n eqn:Hn. revert l Hn. induction (lt_wf n) as [n _ IH]. intros l ->.
  destruct l as [|t1 l]; simpl; [lia|]. destruct (is_alive t1); simpl.
  - pose proof (IH (length l) ltac:(simpl; lia) l eq_refl). unfold threads_work in *. simpl. lia.
  - destruct l as [|t2 l]; simpl; [lia|]. pose proof (IH (length l) ltac:(simpl; lia) l eq_refl). unfold threads_work in *. simpl. lia.
Qed.
Lemma reload_work message threads : (threads_work (perform_reload message threads) ≤ threads_work threads + 12)%nat.
Proof using Type.
  unfold perform_reload. destruct (_ || _ || _); [|lia].
  assert (threads_work (add_flags message <$> threads) = threads_work threads) as Hs.
  { induction threads as [|t threads IH]; [done|]. unfold threads_work in *. csimpl. by rewrite IH. }
  pose proof (remove_dead_work (add_flags message <$> threads)) as Hr.
  destruct (Nat.ltb _ _); [lia|]. rewrite threads_work_app. simpl. lia.
Qed.
Lemma replace_work before t t' later :
  (phase_work (th_phase t') < phase_work (th_phase t))%nat →
  (threads_work (before ++ t' :: later) < threads_work (before ++ t :: later))%nat.
Proof using Type. intros H. rewrite !threads_work_app. unfold threads_work. simpl. lia. Qed.
(** No query of a thread fails on rows that the store can hold. *)
Lemma advance_work table t :
  table_ready table = true → holds_lock t = true → th_phase t ≠ Completed → th_phase t ≠ Failed →
  (phase_work (advance collate_lt table t) < phase_work (th_phase t))%nat.
Proof using Type.
  intros Hready. unfold holds_lock, advance.
  destruct (th_phase t) as [|q|k x|d| | | |]; intros Hh Hnc Hnf;
    [discriminate Hh| | | |destruct (Hnc eq_refl)|destruct (Hnf eq_refl)|discriminate Hh|discriminate Hh].
  - destruct (updates t q); [|destruct q as [|[]]; simpl; lia]. unfold read_part. destruct q as [|k].
    + rewrite update_routes_eq. destruct (foldl _ _ _) as [s4 s6]. simpl. lia.
    + rewrite read_sets_eq. destruct k; simpl; lia.
  - rewrite read_members_eq. destruct (add_members_Ok (mbrs_by_ref_per_set x) (member_rows (member_classes_of k) table) (member_store x))
      as (store & -> & _).
    + intros r [Hin [Hmo%bool_decide_eq_true _]%andb_true_iff]%filter_elem. split; [by eapply row_readyP|done].
    + destruct k; simpl; lia.
  - destruct d as [s4 s6|[] x]; simpl; lia.
Qed.
Lemma step_work s lost s' lost' :
  table_ready (sy_table s) = true → work_step collate_lt (s, lost) (s', lost') → sy_table s' = sy_table s ∧ (work s' < work s)%nat.
Proof using Type.
  intros Hready. unfold work. inversion 1 as [? ? ? Hs|? message ? ? Hs]; subst.
  - revert Hready. destruct Hs as [s before t later Ht Hw Hfree|s before t later Ht Hh Hnc Hnf|s before t later Ht Hp|s before t later Ht Hp|s n Hn Hr];
      intros Hready; (split; [done|]); simpl; rewrite ?Ht.
    + pose proof (replace_work before t (with_phase (Reading Routes) t) later ltac:(rewrite Hw; simpl; lia)). lia.
    + pose proof (replace_work before t (with_phase (advance collate_lt (sy_table s) t) t) later (advance_work (sy_table s) t Hready Hh Hnc Hnf)). lia.
    + rewrite !threads_work_app. unfold threads_work. simpl. rewrite Hp. simpl. lia.
    + pose proof (replace_work before t (with_phase Dead t) later ltac:(rewrite Hp; simpl; lia)). lia.
    + lia.
  - destruct Hs as [message messages Hm|before t later Ht Hf]; (split; [done|]); simpl.
    + rewrite Hm. pose proof (reload_work message (sy_threads s)). simpl. lia.
    + pose proof (reload_work REDIS_PRELOAD_ALL_MESSAGE (before ++ with_phase Released t :: later)) as Hw.
      rewrite Ht. rewrite !threads_work_app in *. unfold threads_work in *. simpl in *. rewrite Hf. simpl. lia.
Qed.

Lemma find_thread (p : PreloadUpdater → bool) threads :
  existsb p threads = true → ∃ before t later, threads = before ++ t :: later ∧ p t = true.
Proof using Type.
  intros (t & Ht & Hp)%existsb_spec. apply list_elem_of_split in Ht as (before & later & ->). by exists before, t, later.
Qed.
Lemma quiet_current s lost p : good_system s lost → quiet s → lost p = false → current p s.
Proof using Type.
  intros Hg [Hm Hdead] Hl. destruct (gs_covered _ _ Hg p Hl) as [(m & Hin & _)|[(t & Ht & Hr)|[(t & Ht & Hf & _)|[_ Hc]]]]; [..|done].
  - rewrite Hm in Hin. by apply elem_of_nil in Hin.
  - apply Hdead in Ht. unfold will_read, has_failed in Hr. by rewrite Ht, andb_false_r in Hr.
  - apply Hdead in Ht. unfold flies in Hf. by rewrite Ht in Hf.
Qed.
Lemma progress s lost : quiet s ∨ ∃ x, work_step collate_lt (s, lost) x.
Proof using Type.
  destruct (existsb (λ t, match th_phase t with Released => true | _ => false end) (sy_threads s)) eqn:El.
  { right. apply find_thread in El as (before & t & later & Ht & Hp). eexists. apply work_thread. eapply do_die; [exact Ht|].
    by destruct (th_phase t). }
  destruct (existsb holds_lock (sy_threads s)) eqn:Eh.
  { right. apply find_thread in Eh as (before & t & later & Ht & Hp). destruct (th_phase t) as [|q|k x|d| | | |] eqn:Eph;
      [unfold holds_lock in Hp; by rewrite Eph in Hp| | | | | |unfold holds_lock in Hp; by rewrite Eph in Hp..].
    1-3: eexists; apply work_thread, (do_advance _ s before t later Ht Hp); by rewrite Eph.
    - eexists. apply work_thread. by apply (do_complete _ s before t later).
    - eexists. eapply work_request. by apply (do_retry s before t later). }
  destruct (existsb waits (sy_threads s)) eqn:Ew.
  { right. apply find_thread in Ew as (before & t & later & Ht & Hp). eexists. apply work_thread, (do_acquire _ s before t later Ht).
    - unfold waits in Hp. by destruct (th_phase t).
    - apply forallb_spec. intros u Hu. rewrite existsb_false in Eh. by rewrite Eh. }
  rewrite existsb_false in El, Eh, Ew. destruct (sy_messages s) as [|m messages] eqn:Em.
  2: { right. eexists. eapply work_request. by apply (do_receive s m messages). }
  left. split; [done|]. intros t Ht. specialize (El t Ht). specialize (Eh t Ht). specialize (Ew t Ht). unfold holds_lock, waits in *.
  by destruct (th_phase t).
Qed.
(** When nothing is lost, the worker can load the store. *)
Lemma quiet_progress s lost : good_system s lost → nothing_lost lost → quiet s → settled s ∨ ∃ x, work_step collate_lt (s, lost) x.
Proof using Type.
  intros Hg Hl Hq. destruct (sy_completions s) as [|n] eqn:Ec; [by left|]. right. eexists. apply work_thread, (do_load _ s n Ec).
  destruct (quiet_current s lost Routes Hg Hq (Hl _)) as (d & Hd%compute_part & Hst). destruct d as [s4 s6|k x]; [|discriminate Hd].
  destruct Hst as [-> _]. by eexists.
Qed.
Lemma current_update s r0 : (∀ p, current p s) → update collate_lt true true true (sy_table s) r0 = Ok (sy_redis s).
Proof using Type.
  intros Hc. destruct (Hc Routes) as (d1 & H1 & S1), (Hc (Sets AsSets)) as (d2 & H2 & S2), (Hc (Sets RouteSets)) as (d3 & H3 & S3).
  unfold update. apply res_bind_Ok in H1 as ([s4 s6] & -> & H1). injection H1 as <-.
  apply res_bind_Ok in H2 as (sa & H2 & E2). injection E2 as <-. apply res_bind_Ok in H3 as (sr & H3 & E3). injection E3 as <-.
  simpl set_class_of in H2, H3. simpl member_classes_of in H2, H3. cbn [mbind res_bind]. rewrite H2. cbn [mbind res_bind].
  rewrite H3. cbn [mbind res_bind]. f_equal. destruct (sy_redis s) as [r4 r6 ra rr]. simpl in *. destruct S1 as [-> ->].
  rewrite S2, S3. reflexivity.
Qed.
Lemma settled_agrees s lost :
  good_system s lost → nothing_lost lost → settled s → table_ready (sy_table s) = true → NoDup (row_key <$> sy_table s) →
  ∃ m, sy_memory s = Some m ∧ memory_agrees (sy_table s) m.
Proof using Type.
  intros Hg Hl [Hq Hc] Hready Hnd.
  pose proof (current_update s (sy_redis s) (λ p, quiet_current s lost p Hg Hq (Hl p))) as Hu.
  destruct (preload_agrees collate_lt (sy_table s) (sy_redis s) Hready Hnd) as (rd & m & Hrd & Hload & Hagree).
  rewrite Hu in Hrd. injection Hrd as <-. exists m. split; [|exact Hagree].
  destruct (gs_memory _ _ Hg Hl) as [Hpos|[(t & Ht & Hw)|Hmem]]; [lia| |by apply Hmem].
  apply Hq in Ht. unfold will_complete in Hw. by rewrite Ht in Hw.
Qed.

End PreloadSettles.
