(* ===== verification/PreloadExamples.v ===== *)
(** * Runs of the preload store

    The steps as a function, to follow runs; a database that the store can hold,
    and two that show what goes wrong otherwise. *)
From S2P Require Import Prelude PyStr Models Queries Database Preload PreloadTheory PreloadManager PreloadManagerTheory.

Module PreloadExamples.

Inductive choice := Receive | Acquire (i : nat) | Advance (i : nat) | Complete (i : nat) | Die (i : nat) | LoadMemory.
Definition replace_thread (i : nat) (t : PreloadUpdater) (s : system) : list PreloadUpdater :=
  take i (sy_threads s) ++ t :: drop (S i) (sy_threads s).
Definition code_point (a b : string) : bool := String.ltb a b.
Definition exec (c : choice) (s : system) : option system :=
  match c with
  | Receive => match sy_messages s with
               | m :: ms => Some {| sy_table := sy_table s; sy_messages := ms; sy_redis := sy_redis s;
                                    sy_threads := perform_reload m (sy_threads s);
                                    sy_completions := sy_completions s; sy_memory := sy_memory s |}
               | [] => None
               end
  | Acquire i => t ← sy_threads s !! i;
      match th_phase t with
      | Waiting => if forallb (λ t, negb (holds_lock t)) (sy_threads s)
                   then Some (with_threads (replace_thread i (with_phase (Reading Routes) t) s) s) else None
      | _ => None
      end
  | Advance i => t ← sy_threads s !! i;
      match th_phase t with
      | Reading _ | Half _ _ | Writing _ =>
          Some {| sy_table := sy_table s; sy_messages := sy_messages s; sy_redis := written t (sy_redis s);
                  sy_threads := replace_thread i (with_phase (advance code_point (sy_table s) t) t) s;
                  sy_completions := sy_completions s; sy_memory := sy_memory s |}
      | _ => None
      end
  | Complete i => t ← sy_threads s !! i;
      match th_phase t with
      | Completed =>
          Some {| sy_table := sy_table s; sy_messages := sy_messages s; sy_redis := sy_redis s;
                  sy_threads := replace_thread i (with_phase Released t) s;
                  sy_completions := S (sy_completions s); sy_memory := sy_memory s |}
      | _ => None
      end
  | Die i => t ← sy_threads s !! i;
      match th_phase t with Released => Some (with_threads (replace_thread i (with_phase Dead t) s) s) | _ => None end
  | LoadMemory => match sy_completions s, rd_origin_route4 (sy_redis s) with
                  | S n, Some _ =>
                      Some {| sy_table := sy_table s; sy_messages := sy_messages s; sy_redis := sy_redis s;
                              sy_threads := sy_threads s; sy_completions := n;
                              sy_memory := match _load_preload_data_into_memory (sy_redis s) with
                                           | Ok m => Some m | Raise _ => sy_memory s end |}
                  | _, _ => None
                  end
  end.
(** The step, with the parts whose last request is dropped. *)
Definition track (c : choice) (x : system * (part → bool)) : option (system * (part → bool)) :=
  s' ← exec c x.1;
  Some (s', match c, sy_messages x.1 with Receive, m :: _ => dropped m s' x.2 | _, _ => x.2 end).
Lemma track_step c x x' : track c x = Some x' → work_step code_point x x'.
Proof.
  assert (∀ i t s, sy_threads s !! i = Some t → sy_threads s = take i (sy_threads s) ++ t :: drop (S i) (sy_threads s)) as Hsplit.
  { intros i t s Ht. symmetry. by apply take_drop_middle. }
  destruct x as [s lost]. unfold track. destruct c as [|i|i|i|i|]; simpl.
  - destruct (sy_messages s) as [|m ms] eqn:E; [done|]. intros [= <-]. apply work_request. by apply do_receive.
  - destruct (sy_threads s !! i) as [t|] eqn:Et; [|done]. simpl. destruct (th_phase t) eqn:Ep; try done.
    destruct (forallb _ _) eqn:Ef; [|done]. intros [= <-]. apply work_thread. by apply (do_acquire _ s); auto.
  - destruct (sy_threads s !! i) as [t|] eqn:Et; [|done]. simpl.
    destruct (th_phase t) eqn:Ep; try done; intros [= <-]; apply work_thread;
      (apply (do_advance _ s); [by auto|unfold holds_lock; by rewrite Ep|by rewrite Ep|by rewrite Ep]).
  - destruct (sy_threads s !! i) as [t|] eqn:Et; [|done]. simpl. destruct (th_phase t) eqn:Ep; try done.
    intros [= <-]. apply work_thread. by apply (do_complete _ s); auto.
  - destruct (sy_threads s !! i) as [t|] eqn:Et; [|done]. simpl. destruct (th_phase t) eqn:Ep; try done.
    intros [= <-]. apply work_thread. by apply (do_die _ s); auto.
  - destruct (sy_completions s) as [|n] eqn:Ec; [done|]. destruct (rd_origin_route4 (sy_redis s)) eqn:Er; [|done].
    intros [= <-]. apply work_thread. apply (do_load _ s n); [done|by eexists].
Qed.
Fixpoint exec_all (cs : list choice) (x : system * (part → bool)) : option (system * (part → bool)) :=
  match cs with [] => Some x | c :: cs' => x' ← track c x; exec_all cs' x' end.
Notation reached x := (reachable code_point x.1 x.2).
Lemma exec_all_reachable cs x x' : reached x → exec_all cs x = Some x' → reached x'.
Proof.
  revert x. induction cs as [|c cs IH]; intros x Hx; simpl; [by intros [= <-]|].
  destruct (track c x) as [x1|] eqn:E; [|done]. simpl. apply IH. apply track_step in E.
  destruct x as [s lost], x1 as [s1 lost1]. by eapply reachable_work.
Qed.

(** ** A database *)

Definition object_row (cls source pk : string) (parsed : list (string * pdata)) (asn : option Z) (prefix : option (string * Z))
  : rpsl_row := {|
  r_pk := pk; r_rpsl_pk := pk; r_source := source; r_object_class := cls; r_parsed_data := list_to_map parsed;
  r_object_text := ""; r_ip_version := (λ _, 4%Z) <$> prefix; r_ip_first := fst <$> prefix; r_ip_last := None;
  r_ip_size := None; r_prefix := None; r_prefix_length := snd <$> prefix; r_asn_first := asn; r_asn_last := asn;
  r_rpki_status := rpki_not_found; r_scopefilter_status := in_scope; r_route_preference_status := rp_visible;
  r_created := 0; r_updated := 0 |}.
Definition route_of (prefix : string) (len asn : Z) : rpsl_row :=
  object_row "route" "TEST" (prefix +:+ "/" +:+ str_of_Z len +:+ "AS" +:+ str_of_Z asn)
    [("route", PStr (prefix +:+ "/" +:+ str_of_Z len)); ("mnt-by", PList ["M-MNT"])] (Some asn) (Some (prefix, len)).
Definition as_set_of (pk : string) (members : list string) (mbrs_by_ref : list string) : rpsl_row :=
  object_row "as-set" "TEST" pk
    [("as-set", PStr pk); ("members", PList members); ("mbrs-by-ref", PList mbrs_by_ref); ("mnt-by", PList ["M-MNT"])] None None.
Definition aut_num_of (asn : Z) (member_of mnt_by : list string) : rpsl_row :=
  object_row "aut-num" "TEST" ("AS" +:+ str_of_Z asn)
    ([("aut-num", PStr ("AS" +:+ str_of_Z asn)); ("member-of", PList member_of)]
     ++ match mnt_by with [] => [] | _ => [("mnt-by", PList mnt_by)] end) (Some asn) None.
Definition table0 : list rpsl_row :=
  [as_set_of "AS-ALL" ["AS-SUB"; "AS1"] []; as_set_of "AS-SUB" [] ["M-MNT"]; aut_num_of 2 ["AS-SUB"] ["M-MNT"];
   route_of "192.0.2.0" 24 1; route_of "198.51.100.0" 24 2].
Definition table1 : list rpsl_row := table0 ++ [route_of "203.0.113.0" 24 2].
Definition empty_redis : redis := {|
  rd_origin_route4 := None; rd_origin_route6 := None; rd_as_set := None; rd_route_set := None |}.

(** The state after a commit that adds a route. *)
Definition after_commit (table : list rpsl_row) (s : system) : system := {|
  sy_table := table; sy_messages := sy_messages s ++ [signal_message ["route"]]; sy_redis := sy_redis s;
  sy_threads := sy_threads s; sy_completions := sy_completions s; sy_memory := sy_memory s |}.
Lemma add_route_commit table s r :
  sy_table s = table → r_object_class r = "route" → commit_step s (after_commit (table ++ [r]) s).
Proof.
  intros <- Hr. apply do_commit; [done|by repeat constructor|]. rewrite List.filter_app. simpl. rewrite Hr.
  rewrite bool_decide_eq_true_2 by (by left). simpl. by rewrite app_nil_r.
Qed.

(** ** What runs show *)

(** A request that meets the first thread between its release of the lock and
    its end takes it for one that is still working, and the second, which has
    already queried the routes, for one that waits: the change is lost. *)
Definition table2 : list rpsl_row := table1 ++ [route_of "10.0.0.0" 8 1].
Definition advances_of (i n : nat) : list choice := repeat (Advance i) n.
Definition commit_to (table : list rpsl_row) (x : system * (part → bool)) : system * (part → bool) := (after_commit table x.1, x.2).
Notation run := (option (system * (part → bool))).
Definition run1 : run := exec_all (Acquire 0 :: advances_of 0 8) (start table0 empty_redis, λ _, false).
Definition run2 : run := x ← run1; exec_all ([Receive; Complete 0; Acquire 1] ++ advances_of 1 2) (commit_to table1 x).
Definition run3 : run :=
  x ← run2; exec_all ([Receive] ++ advances_of 1 4 ++ [Complete 1; Die 0; Die 1; LoadMemory; LoadMemory]) (commit_to table2 x).
(** A later request for the same part makes up for it. *)
Definition run4 : run :=
  x ← run3; exec_all ([Receive; Acquire 1] ++ advances_of 1 6 ++ [Complete 1; Die 1; LoadMemory]) (commit_to (table2 ++ [route_of "10.0.0.0" 24 3]) x).
Definition served (x : run) (origin : string) : option (list string) :=
  x ← x; m ← sy_memory x.1; res_option (routes_for_origins m [origin] ["TEST"] None).
Definition at_rest (x : run) : bool :=
  match x with
  | Some (s, _) =>
      match sy_messages s, sy_completions s with [], O => forallb (λ t, negb (is_alive t)) (sy_threads s) | _, _ => false end
  | None => false
  end.
Definition lost_parts (x : run) : option (list bool) := (λ x, x.2 <$> [Routes; Sets AsSets; Sets RouteSets]) <$> x.
Example requests_lost :
  (at_rest run3, lost_parts run3, served run3 "AS1") = (true, Some [true; false; true], Some ["192.0.2.0/24"])
  ∧ (at_rest run4, lost_parts run4, served run4 "AS1") = (true, Some [false; false; false], Some ["192.0.2.0/24"; "10.0.0.0/8"]).
Proof. split; vm_compute; reflexivity. Qed.
Lemma exec_table c s s' : exec c s = Some s' → sy_table s' = sy_table s.
Proof.
  intros H. destruct c as [|i|i|i|i|]; simpl in H; try (destruct (sy_threads s !! i) as [t|]; simpl in H; [|discriminate]);
    repeat (case_match; try discriminate); injection H as <-; reflexivity.
Qed.
Lemma exec_all_table cs x x' : exec_all cs x = Some x' → sy_table x'.1 = sy_table x.1.
Proof.
  revert x. induction cs as [|c cs IH]; intros x; simpl; [by intros [= <-]|]. unfold track.
  destruct (exec c x.1) as [s1|] eqn:E; [|done]. simpl. intros H. by rewrite (IH _ H), <- (exec_table _ _ _ E).
Qed.
Lemma commit_reachable table x r :
  reached x → sy_table x.1 = table → r_object_class r = "route" → reached (commit_to (table ++ [r]) x).
Proof. intros Hs Ht Hr. eapply reachable_commit; [exact Hs|]. by apply add_route_commit. Qed.
Lemma run3_reachable x : run3 = Some x → reached x ∧ sy_table x.1 = table2.
Proof.
  unfold run3, run2, run1. destruct (exec_all _ (start table0 empty_redis, _)) as [x1|] eqn:E1; [|done]. cbn [mbind option_bind].
  destruct (exec_all _ (commit_to table1 x1)) as [x2|] eqn:E2; [|done]. cbn [mbind option_bind]. intros E3.
  pose proof (exec_all_table _ _ _ E1) as T1. pose proof (exec_all_table _ _ _ E2) as T2. pose proof (exec_all_table _ _ _ E3) as T3.
  split; [|exact T3]. eapply exec_all_reachable; [|exact E3]. apply commit_reachable; [|exact T2|reflexivity].
  eapply exec_all_reachable; [|exact E2]. apply commit_reachable; [|exact T1|reflexivity].
  eapply exec_all_reachable; [|exact E1]. apply reachable_start.
Qed.
Example reload_lost :
  ∃ s lost m, reachable code_point s lost ∧ settled s ∧ sy_memory s = Some m ∧ ¬ memory_agrees (sy_table s) m.
Proof.
  assert (at_rest run3 = true) as Hrest by (vm_compute; reflexivity).
  assert (served run3 "AS1" = Some ["192.0.2.0/24"]) as Hserved by (vm_compute; reflexivity).
  destruct run3 as [[s lost]|] eqn:E; [|discriminate Hrest]. apply run3_reachable in E as [Hs Ht]. simpl in Hs, Ht.
  unfold served in Hserved. cbn [mbind option_bind fst] in Hserved.
  destruct (sy_memory s) as [m|] eqn:Em; [|discriminate Hserved]. cbn [mbind option_bind] in Hserved.
  exists s, lost, m. split; [exact Hs|]. split; [|split; [exact Em|]].
  - unfold at_rest in Hrest. destruct (sy_messages s) eqn:E1; [|done]. destruct (sy_completions s) eqn:E2; [|done].
    split; [|done]. split; [done|]. intros t Hd. rewrite forallb_spec in Hrest. apply Hrest in Hd. unfold is_alive in Hd.
    by destruct (th_phase t).
  - intros [Hroutes _]. destruct (routes_for_origins m ["AS1"] ["TEST"] None) as [routes|] eqn:Er; [|discriminate Hserved].
    injection Hserved as ->. specialize (Hroutes _ _ _ _ Er "10.0.0.0/8"). rewrite Ht in Hroutes.
    assert ("10.0.0.0/8" ∈ ["192.0.2.0/24"]) as Hin; [|by apply list_elem_of_singleton in Hin].
    apply Hroutes. exists (route_of "10.0.0.0" 8 1), 4%Z. split; [apply elem_of_app; right; by left|].
    repeat split; try done; by left.
Qed.

(** A set without members has one member, the empty text. *)
Definition load_of (table : list rpsl_row) : res memory :=
  r ← update code_point true true true table empty_redis; _load_preload_data_into_memory r.
Example empty_set_member :
  (m ← load_of [as_set_of "AS-EMPTY" [] []]; Ok (sm_members <$> set_members m "AS-EMPTY" ["TEST"] []))
  = Ok (Some [""]).
Proof. vm_compute. reflexivity. Qed.
(** One object that claims membership and has no maintainer, as objects from
    mirrors may, ends every update of the sets of all sources. *)
Example missing_mntner_stops_update :
  load_of [as_set_of "AS-SUB" [] ["M-MNT"]; aut_num_of 2 ["AS-SUB"] []] = Raise (KeyError "mnt-by").
Proof. vm_compute. reflexivity. Qed.
(** What a restart clears leaves the route-sets of the previous run. *)
Example route_sets_not_cleared r h : rd_route_set r = Some h → rd_route_set (_clear_existing_data r) = Some h.
Proof. done. Qed.
End PreloadExamples.
