(* ===== verification/QueryResolver.v ===== *)
(** * Resolving queries ([irrd/server/query_resolver.py])

    The state of a query session — its sources and filters — and the look-ups
    made with it: of RPSL objects in the database, and of the members of sets
    and the prefixes of origins in the preload store, which may be recursive.
    The database and the memory of the preloader do not change during a query.
    Python's limit on recursion is a parameter. *)
From stdpp Require Import sorting.
From S2P Require Import Prelude PyStr Conf Net Models Text Fields RpslObjects Database DatabaseHandler Queries Preload.

Inductive RouteLookupType := EXACT | LESS_SPECIFIC_ONE_LEVEL | LESS_SPECIFIC_WITH_EXACT | MORE_SPECIFIC_WITHOUT_EXACT.

(** ** Sources *)

Record QuerySourceManager := {
  all_valid_real_sources : list string;
  all_valid_aliases : list (string * pyval);
  all_valid_sources : list string;
  sources_default : list string;
  sm_sources : list string;
}.

Section QueryResolver.
Context `{IPyLib} (cfg : configuration) (collate_lt : string → string → bool).
(** SQLAlchemy's text of a statement, for traces. *)
Context (query_repr : query → string) (status_query_repr : list string → string).
(** Times of the status table as text, and its column [updated]. *)
Context (isoformat : Z → string) (status_updated : status_row → Z).
(** How often a method may call itself. *)
Context (recursion_limit : nat).
(** What the queries are answered from. *)
Context (preloader : memory) (d : database).

Definition default_or (default l : list string) : list string := match default with [] => l | _ => default end.
Definition QuerySourceManager_init : QuerySourceManager :=
  let real := sources_keys cfg ++ (if truthy (get_setting cfg "rpki.roa_source") then [RPKI_IRR_PSEUDO_SOURCE] else []) in
  let aliases := pyval_items (get_setting_default cfg "source_aliases" (VDict [])) in
  let valid := real ++ aliases.*1 in
  let default := pyval_strs (get_setting_default cfg "sources_default" (VList [])) in
  {| all_valid_real_sources := real; all_valid_aliases := aliases; all_valid_sources := valid;
     sources_default := default; sm_sources := default_or default valid |}.
Definition with_sources (sources : list string) (q : QuerySourceManager) : QuerySourceManager := {|
  all_valid_real_sources := all_valid_real_sources q; all_valid_aliases := all_valid_aliases q;
  all_valid_sources := all_valid_sources q; sources_default := sources_default q; sm_sources := sources |}.
Definition set_query_sources_of (sources : option (list string)) (q : QuerySourceManager) : res QuerySourceManager :=
  match sources with
  | None => Ok (with_sources (default_or (sources_default q) (all_valid_sources q)) q)
  | Some sources =>
      if forallb (λ s, bool_decide (s ∈ all_valid_sources q)) sources then Ok (with_sources sources q)
      else Raise (InvalidQueryException "One or more selected sources are unavailable.")
  end.
Definition resolve_source (q : QuerySourceManager) (sources : list string) (source : string) : list string :=
  let sources := if bool_decide (source ∈ all_valid_real_sources q) then oset_add sources source else sources in
  if bool_decide (source ∈ (pyval_items (get_setting_default cfg "source_aliases" (VDict []))).*1)
  then oset_update sources (pyval_strs (get_setting cfg ("source_aliases." +:+ source))) else sources.
Definition sources_resolved (q : QuerySourceManager) : list string := foldl (resolve_source q) [] (sm_sources q).

(** ** The session *)

Record resolver := {
  source_manager : QuerySourceManager;
  object_class_filter : list string;
  rpki_aware : bool;
  rpki_invalid_filter_enabled : bool;
  out_scope_filter_enabled : bool;
  route_preference_filter_enabled : bool;
  user_agent : option string;
  sql_queries : list string;
  sql_trace : bool;
  (** The set being resolved: the class of the root, sets not to enter, levels left. *)
  _current_set_root_object_class : option string;
  _current_excluded_sets : list string;
  _current_set_maximum_depth : Z;
}.
Definition QueryResolver_init : resolver :=
  let rpki_aware := truthy (get_setting cfg "rpki.roa_source") in {|
  source_manager := QuerySourceManager_init; object_class_filter := []; rpki_aware := rpki_aware;
  rpki_invalid_filter_enabled := rpki_aware; out_scope_filter_enabled := true;
  route_preference_filter_enabled := true; user_agent := None; sql_queries := []; sql_trace := false;
  _current_set_root_object_class := None; _current_excluded_sets := []; _current_set_maximum_depth := 0 |}.

(** Assignments to the attributes. *)
Definition with_filters (manager : QuerySourceManager) (classes : list string) (rpki scope preference : bool)
    (agent : option string) (r : resolver) : resolver := {|
  source_manager := manager; object_class_filter := classes; rpki_aware := rpki_aware r;
  rpki_invalid_filter_enabled := rpki; out_scope_filter_enabled := scope; route_preference_filter_enabled := preference;
  user_agent := agent; sql_queries := sql_queries r; sql_trace := sql_trace r;
  _current_set_root_object_class := _current_set_root_object_class r;
  _current_excluded_sets := _current_excluded_sets r; _current_set_maximum_depth := _current_set_maximum_depth r |}.
Definition with_trace (queries : list string) (trace : bool) (r : resolver) : resolver := {|
  source_manager := source_manager r; object_class_filter := object_class_filter r; rpki_aware := rpki_aware r;
  rpki_invalid_filter_enabled := rpki_invalid_filter_enabled r; out_scope_filter_enabled := out_scope_filter_enabled r;
  route_preference_filter_enabled := route_preference_filter_enabled r; user_agent := user_agent r;
  sql_queries := queries; sql_trace := trace;
  _current_set_root_object_class := _current_set_root_object_class r;
  _current_excluded_sets := _current_excluded_sets r; _current_set_maximum_depth := _current_set_maximum_depth r |}.
Definition with_set (root_class : option string) (excluded : list string) (depth : Z) (r : resolver) : resolver := {|
  source_manager := source_manager r; object_class_filter := object_class_filter r; rpki_aware := rpki_aware r;
  rpki_invalid_filter_enabled := rpki_invalid_filter_enabled r; out_scope_filter_enabled := out_scope_filter_enabled r;
  route_preference_filter_enabled := route_preference_filter_enabled r; user_agent := user_agent r;
  sql_queries := sql_queries r; sql_trace := sql_trace r;
  _current_set_root_object_class := root_class; _current_excluded_sets := excluded; _current_set_maximum_depth := depth |}.

Notation Q := (st resolver).
Definition set_query_sources (sources : option (list string)) : Q unit :=
  r ← st_get;
  manager ← st_lift (set_query_sources_of sources (source_manager r));
  st_modify (λ r, with_filters manager (object_class_filter r) (rpki_invalid_filter_enabled r)
                    (out_scope_filter_enabled r) (route_preference_filter_enabled r) (user_agent r) r).
Definition disable_rpki_filter : Q unit :=
  st_modify (λ r, with_filters (source_manager r) (object_class_filter r) false
                    (out_scope_filter_enabled r) (route_preference_filter_enabled r) (user_agent r) r).
Definition disable_out_of_scope_filter : Q unit :=
  st_modify (λ r, with_filters (source_manager r) (object_class_filter r) (rpki_invalid_filter_enabled r)
                    false (route_preference_filter_enabled r) (user_agent r) r).
Definition disable_route_preference_filter : Q unit :=
  st_modify (λ r, with_filters (source_manager r) (object_class_filter r) (rpki_invalid_filter_enabled r)
                    (out_scope_filter_enabled r) false (user_agent r) r).
Definition set_object_class_filter_next_query (object_classes : list string) : Q unit :=
  st_modify (λ r, with_filters (source_manager r) object_classes (rpki_invalid_filter_enabled r)
                    (out_scope_filter_enabled r) (route_preference_filter_enabled r) (user_agent r) r).
Definition set_user_agent (agent : string) : Q unit :=
  st_modify (λ r, with_filters (source_manager r) (object_class_filter r) (rpki_invalid_filter_enabled r)
                    (out_scope_filter_enabled r) (route_preference_filter_enabled r) (Some agent) r).
Definition enable_sql_trace : Q unit := st_modify (λ r, with_trace (sql_queries r) true r).
Definition retrieve_sql_trace : Q (list string) :=
  r ← st_get; _ ← st_modify (with_trace [] false); mret (sql_queries r).

(** ** Queries of the database *)

Definition when (b : bool) (f : query → res query) (q : query) : res query := if b then f q else Ok q.
Definition prepared (r : resolver) (ordered_by_sources : bool) : res query :=
  let resolved := sources_resolved (source_manager r) in
  q ← when (match resolved with [] => false | _ => true end) (λ q, sources q resolved)
        (RPSLDatabaseQuery ordered_by_sources true);
  q ← when (match object_class_filter r with [] => false | _ => true end) (λ q, object_classes q (object_class_filter r)) q;
  q ← when (rpki_invalid_filter_enabled r) (λ q, rpki_status q [rpki_not_found; rpki_valid]) q;
  q ← when (out_scope_filter_enabled r) (λ q, scopefilter_status q [in_scope]) q;
  when (route_preference_filter_enabled r) (λ q, route_preference_status q [rp_visible]) q.
Definition _prepare_query (ordered_by_sources : bool) : Q query :=
  r ← st_get;
  q ← st_lift (prepared r ordered_by_sources);
  _ ← set_object_class_filter_next_query [];
  mret q.
Definition trace_sql (text : string) : Q unit :=
  r ← st_get;
  if sql_trace r then st_modify (with_trace (sql_queries r ++ [text]) true) else mret tt.
Definition _execute_query (q : query) : Q (list rpsl_row) :=
  _ ← trace_sql (query_repr q);
  mret (execute_query collate_lt q (db_objects d)).

Definition key_lookup (object_class rpsl_key : string) : Q (list rpsl_row) :=
  q ← _prepare_query true;
  q ← st_lift (q ← object_classes q [object_class]; q ← rpsl_pk q rpsl_key; Ok (first_only q));
  _execute_query q.
Definition rpsl_text_search (value : string) : Q (list rpsl_row) :=
  q ← _prepare_query false;
  q ← st_lift (text_search cfg q value true);
  _execute_query q.
Definition lookup_query (t : RouteLookupType) (q : query) (address : IP) : res query :=
  match t with
  | EXACT => ip_exact q address
  | LESS_SPECIFIC_ONE_LEVEL => ip_less_specific_one_level q address
  | LESS_SPECIFIC_WITH_EXACT => ip_less_specific cfg q address
  | MORE_SPECIFIC_WITHOUT_EXACT => ip_more_specific cfg q address
  end.
Definition route_search (address : IP) (lookup_type : RouteLookupType) : Q (list rpsl_row) :=
  q ← _prepare_query false;
  q ← st_lift (q ← object_classes q ["route"; "route6"]; lookup_query lookup_type q address);
  _execute_query q.
Definition rpsl_attribute_search (attribute value : string) : Q (list rpsl_row) :=
  if bool_decide (attribute ∈ lookup_field_names) then
    q ← _prepare_query false;
    q ← st_lift (lookup_attr q attribute (Some value));
    _execute_query q
  else st_raise (InvalidQueryException ("Inverse attribute search not supported for " +:+ attribute
         +:+ ",only supported for attributes: " +:+ join ", " lookup_field_names)).
(** ** Sets and origins *)

Definition resolved_sources (r : resolver) : list string := sources_resolved (source_manager r).
Definition routes_for_origin (origin : string) (version : option Z) : Q (list string) :=
  r ← st_get; st_lift (routes_for_origins preloader [origin] (resolved_sources r) version).

(** Which classes are looked in, given the class of the root. *)
Definition member_set_classes (root_class : option string) : list string :=
  if bool_decide (root_class = Some "as-set") then ["as-set"] else ["route-set"; "as-set"].
Definition note_root_class (object_class : string) : Q unit :=
  st_modify (λ r, match _current_set_root_object_class r with
                  | Some _ => r
                  | None => with_set (Some object_class) (_current_excluded_sets r) (_current_set_maximum_depth r) r
                  end).
Fixpoint find_members (sources classes set_names members leaf_members : list string) : Q (list string * list string) :=
  match set_names with
  | [] => mret (members, leaf_members)
  | set_name :: set_names' =>
      match set_members preloader set_name sources classes with
      | None => find_members sources classes set_names' members (oset_add leaf_members set_name)
      | Some found =>
          _ ← note_root_class (sm_object_class found);
          find_members sources classes set_names' (oset_update members (sm_members found)) leaf_members
      end
  end.
Definition limited_sources (limit_source : option string) (r : resolver) : list string :=
  match limit_source with
  | Some source => if String.eqb source "" then resolved_sources r else [source]
  | None => resolved_sources r
  end.
Definition _find_set_members (set_names : list string) (limit_source : option string) : Q (list string * list string) :=
  r ← st_get;
  find_members (limited_sources limit_source r) (member_set_classes (_current_set_root_object_class r)) set_names [] [].

(** What becomes of a member: it is kept, or replaced by the prefixes of an AS
    number, or left to be resolved.  The pair holds [set_members] and
    [resolved_as_members]. *)
Definition is_prefix_member (member : string) : bool :=
  match ip_of 0 (hd "" (split_on "^"%char member)) with inr _ => true | inl _ => false end.
Definition holds_prefixes (root_class : option string) : bool :=
  match root_class with None => true | Some c => String.eqb c "route-set" end.
Definition add_sub_member (r : resolver) (found : list string * list string) (sub_member : string)
  : res (list string * list string) :=
  let root_class := _current_set_root_object_class r in
  if holds_prefixes root_class && is_prefix_member sub_member then Ok (oset_add found.1 sub_member, found.2)
  else match parse_as_number cfg (inl sub_member) false false with
       | Ok (as_number_formatted, _) =>
           if bool_decide (root_class = Some "route-set") then
             prefixes ← routes_for_origins preloader [as_number_formatted] (resolved_sources r) None;
             Ok (oset_update found.1 prefixes, oset_add found.2 sub_member)
           else Ok (oset_add found.1 sub_member, found.2)
       | Raise e => if is_ValueError e then Ok found else Raise e
       end.
Fixpoint add_sub_members (r : resolver) (sub_members : list string) (found : list string * list string)
  : res (list string * list string) :=
  match sub_members with
  | [] => Ok found
  | sub_member :: sub_members' => found ← add_sub_member r found sub_member; add_sub_members r sub_members' found
  end.
Definition none_of (excluded l : list string) : list string := List.filter (λ x, negb (bool_decide (x ∈ excluded))) l.
Definition one_level_less : Q unit :=
  st_modify (λ r, with_set (_current_set_root_object_class r) (_current_excluded_sets r)
                    (_current_set_maximum_depth r - 1) r).
(** [sets_seen] is shared by the calls, but only used on the way down. *)
Fixpoint _recursive_set_resolve (calls : nat) (members sets_seen : list string) (root_source : option string)
  : Q (list string) :=
  match calls with
  | 0%nat => st_raise (RuntimeError "maximum recursion depth exceeded")
  | S calls =>
      if forallb (λ member, bool_decide (member ∈ sets_seen)) members then mret []
      else
        let sets_seen := oset_update sets_seen members in
        '(sub_members, leaf_members) ← _find_set_members members root_source;
        r ← st_get;
        '(set_members, resolved_as_members) ← st_lift (add_sub_members r sub_members ([], []));
        _ ← one_level_less;
        r ← st_get;
        if (_current_set_maximum_depth r =? 0)%Z
        then mret (oset_update (oset_update set_members sub_members) leaf_members)
        else
          new_members ← _recursive_set_resolve calls
            (none_of (_current_excluded_sets r) (none_of resolved_as_members (none_of sets_seen (none_of set_members sub_members))))
            sets_seen None;
          mret (oset_update set_members new_members)
  end.

Definition start_set (root_class : option string) (exclude_sets : list string) (depth : Z) : Q unit :=
  st_modify (with_set root_class exclude_sets depth).
Definition routes_for_as_set (set_name : string) (version : option Z) (exclude_sets : list string) : Q (list string) :=
  _ ← start_set (Some "as-set") exclude_sets 0;
  members ← _recursive_set_resolve recursion_limit [set_name] [] None;
  r ← st_get;
  st_lift (routes_for_origins preloader members (resolved_sources r) version).

(** [compatibility.ipv4_only_route_set_members]. *)
Definition is_valid_ip (version : Z) (member : string) : bool :=
  match ip_of version member with inr _ => true | inl _ => false end.
Definition ipv4_only (members : list string) : list string :=
  List.filter (λ member, negb (is_valid_ip 0 member) || is_valid_ip 4 member) members.
(** [sorted]: by code points. *)
Definition sorted_members : list string → list string := merge_sort (λ a b, Is_true (String.leb a b)).
Definition members_for_set (parameter : string) (exclude_sets : list string) (depth : Z) (recursive : bool)
    (root_source : option string) : Q (list string) :=
  _ ← start_set None exclude_sets depth;
  members ← (if recursive then _recursive_set_resolve recursion_limit [parameter] [] root_source
             else '(members, leaf_members) ← _find_set_members [parameter] root_source;
                  mret (oset_update members leaf_members));
  let members := none_of [parameter] members in
  mret (sorted_members (if truthy (get_setting cfg "compatibility.ipv4_only_route_set_members")
                        then ipv4_only members else members)).
Fixpoint members_per_source (parameter : string) (exclude_sets : list string) (depth : Z) (recursive : bool)
    (set_sources : list string) (result : list (string * list string)) : Q (list (string * list string)) :=
  match set_sources with
  | [] => mret result
  | source :: set_sources' =>
      members ← members_for_set parameter exclude_sets depth recursive (Some source);
      members_per_source parameter exclude_sets depth recursive set_sources' (dict_set source members result)
  end.
Definition members_for_set_per_source (parameter : string) (exclude_sets : list string) (depth : Z) (recursive : bool)
  : Q (list (string * list string)) :=
  q ← _prepare_query true;
  q ← st_lift (q ← object_classes q ["as-set"; "route-set"]; rpsl_pk q parameter);
  rows ← _execute_query q;
  members_per_source parameter exclude_sets depth recursive (r_source <$> rows) [].

(** ** The status of the sources *)

(** [DatabaseStatusQuery.sources]: the rows, in the order of the sources asked
    for; without any, all rows by source. *)
Definition source_position (sources : list string) (s : status_row) : nat :=
  match list_find (λ source, source = s_source s) sources with Some (i, _) => i | None => 100000%nat end.
Definition status_before (sources : list string) (a b : status_row) : Prop :=
  (source_position sources a < source_position sources b)%nat
  ∨ source_position sources a = source_position sources b ∧ collate_lt (s_source b) (s_source a) = false.
#[local] Instance status_before_dec sources a b : Decision (status_before sources a b).
Proof. unfold status_before. apply _. Defined.
Definition status_rows (sources : list string) : list status_row :=
  let sources := str_upper <$> sources in
  merge_sort (status_before sources)
    (match sources with [] => db_status d | _ => List.filter (λ s, bool_decide (s_source s ∈ sources)) (db_status d) end).
Definition opt_int (o : option Z) : pyval := match o with Some z => VInt z | None => VNone end.
Definition opt_str (o : option string) : pyval := match o with Some s => VStr s | None => VNone end.
Definition status_entries (s : status_row) : list (string * pyval) :=
  let source := str_upper (s_source s) in
  let rov := truthy (get_setting cfg "rpki.roa_source") && negb (truthy (source_setting cfg source "rpki_excluded")) in
  let scope := truthy (get_setting cfg "scopefilter") && negb (truthy (source_setting cfg source "scopefilter_excluded")) in
  [("source_type", VStr "regular");
   ("authoritative", get_setting_default cfg ("sources." +:+ source +:+ ".authoritative") (VBool false));
   ("object_class_filter", match get_object_class_filter_for_source cfg source with
                           | Some l => VList (VStr <$> l) | None => VNone end);
   ("rpki_rov_filter", VBool rov);
   ("scopefilter_enabled", VBool scope);
   ("route_preference", source_setting cfg source "route_object_preference");
   ("local_journal_kept", get_setting_default cfg ("sources." +:+ source +:+ ".keep_journal") (VBool false));
   ("serial_oldest_journal", opt_int (serial_oldest_journal (s_serials s)));
   ("serial_newest_journal", opt_int (serial_newest_journal (s_serials s)));
   ("serial_last_export", opt_int (serial_last_export (s_serials s)));
   ("serial_newest_mirror", opt_int (serial_newest_mirror (s_serials s)));
   ("nrtm4_client_session_id", opt_str (nc_session_id (s_nrtm4_client s)));
   ("nrtm4_client_version", opt_int (nc_version (s_nrtm4_client s)));
   ("nrtm4_server_session_id", opt_str (ns_session_id (s_nrtm4_server s)));
   ("nrtm4_server_version", opt_int (ns_version (s_nrtm4_server s)));
   ("nrtm4_server_last_update_notification_file_update",
    opt_str (isoformat <$> ns_last_update_notification_file_update (s_nrtm4_server s)));
   ("nrtm4_server_last_snapshot_version", opt_int (ns_last_snapshot_version (s_nrtm4_server s)));
   ("rpsl_data_updated", VStr (isoformat (s_rpsl_data_updated s)));
   ("last_update", VStr (isoformat (status_updated s)));
   ("synchronised_serials", VBool (is_serial_synchronised cfg d source false))].
Definition dict_update {V} (new old : list (string * V)) : list (string * V) :=
  foldl (λ acc kv, dict_set kv.1 kv.2 acc) old new.
Definition alias_entries (aliases : list (string * pyval)) (source : string) : option (string * list (string * pyval)) :=
  value ← dict_get source aliases;
  Some (source, [("source_type", VStr "alias"); ("aliased_sources", VList (VStr <$> pyval_strs value))]).
Definition database_status (sources : option (list string)) : Q (list (string * list (string * pyval))) :=
  r ← st_get;
  let valid := all_valid_sources (source_manager r) in
  let sources := default valid sources in
  _ ← trace_sql (status_query_repr sources);
  let regular := foldl (λ acc s, dict_set (str_upper (s_source s)) (status_entries s) acc) [] (status_rows sources) in
  let results := dict_update (omap (alias_entries (all_valid_aliases (source_manager r))) sources) regular in
  mret (foldl (λ acc source, dict_set (str_upper source) [("error", VStr "Unknown source")] acc) results
          (none_of valid sources)).

(** ** Templates *)

(** [RPSLObject.generate_template]. *)
Definition template_metadata (f : field) : list string :=
  (if f_primary_key f && f_lookup_key f then ["primary/look-up key"]
   else if f_primary_key f then ["primary key"]
   else if f_lookup_key f then ["look-up key"] else [])
  ++ match referring_of (f_kind f) with
     | [] => []
     | referring => [(if strong_of (f_kind f) then "strong" else "weak") +:+ " references " +:+ join "/" referring]
     end.
Definition template_line (max_name_width : nat) (nf : string * field) : string :=
  let '(name, f) := nf in
  name +:+ ": " +:+ repeat_char (max_name_width - String.length name) " "%char +:+ "  "
  +:+ (if f_optional f then "[optional] " else "[mandatory]") +:+ "  "
  +:+ (if f_multiple f then "[multiple]" else "[single]  ") +:+ "  ["
  +:+ join ", " (template_metadata f) +:+ "]" +:+ NL.
Definition generate_template (c : rpsl_class) : string :=
  let max_name_width := foldr Nat.max 0%nat ((λ nf : string * field, String.length nf.1) <$> c_fields c) in
  concat_str (template_line max_name_width <$> c_fields c).
Definition rpsl_object_template (object_class : string) : res string :=
  match class_of object_class with
  | Some c => Ok (generate_template c)
  | None => Raise (InvalidQueryException ("Unknown object class: " +:+ object_class))
  end.
End QueryResolver.
