(* ===== verification/QueryResolverTheory.v ===== *)
(** * Correctness of the query resolver

    Recursive resolving of as-sets ends when the names that can be reached are
    fewer than the calls Python allows, and finds exactly what is reachable;
    with the preload store, the prefixes are those of the database. *)
From S2P Require Import Prelude PyStr Conf Net Models Text Database Queries QueriesTheory Preload PreloadTheory PreloadExamples QueryResolver.

Lemma st_bind_run {S A B} (m : st S A) (f : A → st S B) s s' a : m s = (s', Ok a) → (m ≫= f) s = f a s'.
Proof. unfold mbind, st_bind. by intros ->. Qed.

Section Resolving.
Context `{IPyLib} (cfg : configuration) (preloader : memory).

Definition is_as_number (member : string) : bool := is_Ok (parse_as_number cfg (inl member) false false).
Lemma parse_as_number_raises value plain asdot e : parse_as_number cfg (inl value) plain asdot = Raise e → is_ValueError e = true.
Proof using Type.
  unfold parse_as_number, as_number_part, check_as_range. intros He.
  repeat (first [ progress simpl in He | case_match ]; try discriminate He; try (injection He as <-; reflexivity)).
Qed.

(** ** One level *)

Definition member_found (sources classes : list string) (name x : string) : Prop :=
  ∃ found, set_members preloader name sources classes = Some found ∧ x ∈ sm_members found.
Lemma find_members_Ok (sources classes set_names members leaf_members : list string) r :
  is_Some (_current_set_root_object_class r) →
  ∃ ms leaves, find_members preloader sources classes set_names members leaf_members r = (r, Ok (ms, leaves)) ∧
    ∀ x, x ∈ ms ↔ x ∈ members ∨ ∃ name, name ∈ set_names ∧ member_found sources classes name x.
Proof using Type.
  intros [c Hc]. revert members leaf_members. induction set_names as [|name names IH]; intros members leaf_members; simpl.
  { eexists _, _. split; [reflexivity|]. intros x. split; [by left|]. intros [?|(? & ?%elem_of_nil & _)]; done. }
  destruct (set_members preloader name sources classes) as [found|] eqn:E.
  - unfold mbind, st_bind, note_root_class, st_modify at 1. rewrite Hc.
    destruct (IH (oset_update members (sm_members found)) leaf_members) as (ms & leaves & -> & Hms).
    exists ms, leaves. split; [done|]. intros x. rewrite Hms, oset_update_elem. setoid_rewrite elem_of_cons.
    unfold member_found. split.
    + intros [[?|?]|(n & ? & ?)]; [by left|right; exists name; eauto|right; eauto].
    + intros [?|(n & [-> | ?] & Hn)]; [tauto| |eauto]. destruct Hn as (f & Hf & ?). rewrite E in Hf. injection Hf as <-. tauto.
  - destruct (IH members (oset_add leaf_members name)) as (ms & leaves & -> & Hms). exists ms, leaves.
    split; [done|]. intros x. rewrite Hms. setoid_rewrite elem_of_cons. unfold member_found. split.
    + intros [?|(n & ? & ?)]; [by left|right; eauto].
    + intros [?|(n & [-> | ?] & Hn)]; [by left| |eauto]. destruct Hn as (f & Hf & ?). by rewrite E in Hf.
Qed.

Lemma add_sub_members_Ok r subs found :
  _current_set_root_object_class r = Some "as-set" →
  ∃ ms, add_sub_members cfg preloader r subs found = Ok (ms, found.2) ∧
    ∀ x, x ∈ ms ↔ x ∈ found.1 ∨ x ∈ subs ∧ is_as_number x = true.
Proof using Type.
  intros Hc. revert found. induction subs as [|sub subs IH]; intros [ms res]; simpl.
  { exists ms. split; [done|]. intros x. split; [by left|]. intros [?|[?%elem_of_nil _]]; done. }
  unfold add_sub_member. rewrite Hc. cbn [holds_prefixes]. rewrite (bool_decide_eq_false_2 (Some "as-set" = Some "route-set")) by done.
  simpl (String.eqb _ _). cbn [andb fst snd]. setoid_rewrite elem_of_cons.
  destruct (parse_as_number cfg (inl sub) false false) as [[text n]|e] eqn:E.
  - cbn [mbind res_bind]. destruct (IH (oset_add ms sub, res)) as (ms' & -> & Hms). exists ms'. split; [done|]. intros x.
    rewrite Hms. simpl. rewrite oset_add_elem. split; [|intros [?|[[-> | ?] ?]]; tauto].
    intros [[?|Hx]|?]; [by left| |tauto]. right. split; [by left|]. unfold is_as_number. by rewrite Hx, E.
  - rewrite (parse_as_number_raises _ _ _ _ E). simpl. destruct (IH (ms, res)) as (ms' & -> & Hms). exists ms'.
    split; [done|]. intros x. rewrite Hms. simpl. split; [tauto|]. intros [?|[[-> | ?] Hx]]; [tauto| |tauto]. unfold is_as_number in Hx. by rewrite E in Hx.
Qed.

(** ** All levels *)

(** The names of sets entered from [start] when those in [seen] are not entered
    any more; members come from any relation [found]. *)
Inductive entered (found : string → string → Prop) (excluded seen start : list string) : string → Prop :=
| entered_start s : s ∈ start → s ∉ seen → entered found excluded seen start s
| entered_member s x :
    entered found excluded seen start s → found s x → is_as_number x = false → x ∉ excluded → x ∉ seen →
    entered found excluded seen start x.
Lemma entered_not_seen found excluded (seen start : list string) s : entered found excluded seen start s → s ∉ seen.
Proof using Type. by induction 1. Qed.
(** Taking one level away from the front. *)
Lemma entered_level found excluded (seen start seen' next : list string) s :
  (∀ x, x ∈ seen' ↔ x ∈ seen ∨ x ∈ start) → (∀ x, x ∈ start → x ∉ seen) →
  (∀ x, x ∈ next ↔ (∃ n, n ∈ start ∧ found n x) ∧ is_as_number x = false ∧ x ∉ excluded ∧ x ∉ seen') →
  entered found excluded seen start s ↔ s ∈ start ∨ entered found excluded seen' next s.
Proof using Type.
  intros Hseen Hdisj Hnext. split.
  - induction 1 as [s Hs _|s x _ IH Hf Has Hex Hx]; [by left|].
    destruct (decide (x ∈ start)) as [|Hns]; [by left|]. right.
    assert (x ∉ seen') as Hx' by (rewrite Hseen; tauto).
    destruct IH as [Hs|Hs]; [|by apply (entered_member _ _ _ _ s)]. apply entered_start; [|done]. apply Hnext. eauto 6.
  - intros [Hs|Hs]; [apply entered_start; auto|]. induction Hs as [s Hs Hns|s x _ IH Hf Has Hex Hx].
    + apply Hnext in Hs as ((n & Hn & Hf) & Has & Hex & Hs). rewrite Hseen in Hs.
      apply (entered_member _ _ _ _ n); [|done..|tauto]. apply entered_start; auto.
    + rewrite Hseen in Hx. apply (entered_member _ _ _ _ s); tauto.
Qed.
Lemma none_of_elem excluded l (x : string) : x ∈ none_of excluded l ↔ x ∈ l ∧ x ∉ excluded.
Proof using Type. unfold none_of. by rewrite filter_elem, negb_true_iff, bool_decide_eq_false. Qed.
Lemma none_of_shorter (x : string) l : x ∈ l → (length (none_of [x] l) < length l)%nat.
Proof using Type.
  unfold none_of. induction l as [|y l IH]; intros Hx; [by apply elem_of_nil in Hx|]. simpl.
  pose proof (filter_length_le (λ y, negb (bool_decide (y ∈ [x]))) l) as Hle.
  apply elem_of_cons in Hx as [-> |Hx]; [rewrite bool_decide_eq_true_2 by (by left); simpl; lia|].
  apply IH in Hx. case_bool_decide; simpl; lia.
Qed.

Definition in_as_sets (r : resolver) : string → string → Prop := member_found (resolved_sources cfg r) ["as-set"].
Record same_session (r r' : resolver) : Prop := {
  ss_manager : source_manager r' = source_manager r;
  ss_excluded : _current_excluded_sets r' = _current_excluded_sets r;
}.

(** With fewer names to enter than calls left, resolving returns the AS numbers
    among the members of the sets entered. *)
Lemma recursive_as_set_resolve calls names members seen r :
  _current_set_root_object_class r = Some "as-set" → (_current_set_maximum_depth r ≤ 0)%Z →
  (∀ x, x ∈ members → x ∉ seen) →
  (∀ s, entered (in_as_sets r) (_current_excluded_sets r) seen members s → s ∈ names) → (length names < calls)%nat →
  ∃ r' ms, _recursive_set_resolve cfg preloader calls members seen None r = (r', Ok ms) ∧ same_session r r' ∧
    ∀ x, x ∈ ms ↔ is_as_number x = true ∧ ∃ s, entered (in_as_sets r) (_current_excluded_sets r) seen members s ∧ in_as_sets r s x.
Proof using Type.
  revert names members seen r. induction calls as [|calls IH]; intros names members seen r Hc Hd Hdisj Hnames Hlen; [lia|].
  simpl. destruct (forallb _ members) eqn:Hall.
  { exists r, []. rewrite forallb_spec in Hall. split; [done|]. split; [done|]. intros x. split; [by intros ?%elem_of_nil|].
    intros (_ & s & Hs & _). exfalso. assert (∀ m, m ∉ members) as Hno.
    { intros m Hm. apply (Hdisj m Hm). apply Hall in Hm. by apply bool_decide_eq_true in Hm. }
    induction Hs as [s Hs|s x' _ IHs]; [by apply (Hno s)|done]. }
  destruct members as [|m0 members0]; [done|]. set (members := m0 :: members0) in *.
  destruct (find_members_Ok (resolved_sources cfg r) ["as-set"] members [] [] r) as (subs & leaves & Hfind & Hsubs); [by rewrite Hc|].
  rewrite (st_bind_run _ _ r r (subs, leaves)) by (unfold _find_set_members; rewrite (st_bind_run _ _ r r r) by done; by rewrite Hc).
  rewrite (st_bind_run _ _ r r r) by done.
  destruct (add_sub_members_Ok r subs ([], []) Hc) as (ms & Hadd & Hms). simpl in Hms.
  rewrite (st_bind_run _ _ r r (ms, [])) by (unfold st_lift; by rewrite Hadd).
  set (r1 := with_set (Some "as-set") (_current_excluded_sets r) (_current_set_maximum_depth r - 1) r).
  rewrite (st_bind_run _ _ r r1 tt) by (unfold one_level_less, st_modify; by rewrite Hc).
  rewrite (st_bind_run _ _ r1 r1 r1) by done. assert ((_current_set_maximum_depth r1 =? 0)%Z = false) as ->.
  { simpl. apply Z.eqb_neq. lia. }
  set (seen' := oset_update seen members). set (next := none_of _ _).
  assert (∀ x, x ∈ seen' ↔ x ∈ seen ∨ x ∈ members) as Hseen' by apply oset_update_elem.
  assert (∀ x, x ∈ next ↔ (∃ n, n ∈ members ∧ in_as_sets r n x) ∧ is_as_number x = false ∧ x ∉ _current_excluded_sets r ∧ x ∉ seen')
    as Hnext.
  { intros x. unfold next. rewrite !none_of_elem, Hms, Hsubs. simpl _current_excluded_sets. rewrite !elem_of_nil.
    unfold in_as_sets. rewrite <- not_true_iff_false. tauto. }
  assert (∀ s, entered (in_as_sets r) (_current_excluded_sets r) seen members s ↔
    s ∈ members ∨ entered (in_as_sets r) (_current_excluded_sets r) seen' next s) as Hlevel
    by (intros s; by apply entered_level).
  destruct (IH (none_of [m0] names) next seen' r1) as (r' & new & Heq & [Hm He] & Hnew); [done|simpl; lia|..].
  { intros x Hx. by apply Hnext in Hx as (_ & _ & _ & ?). }
  { intros s Hs. apply none_of_elem. split; [apply Hnames, Hlevel; by right|].
    apply entered_not_seen in Hs. rewrite Hseen' in Hs. intros ->%list_elem_of_singleton. apply Hs. right. by left. }
  { assert (m0 ∈ names) as Hm0 by (apply Hnames, Hlevel; left; by left). apply none_of_shorter in Hm0. lia. }
  rewrite (st_bind_run _ _ _ _ _ Heq). exists r', (oset_update ms new). split; [done|]. split; [by split|].
  intros x. rewrite oset_update_elem, Hms, Hnew, Hsubs. setoid_rewrite Hlevel. rewrite !elem_of_nil.
  change (in_as_sets r1) with (in_as_sets r). change (_current_excluded_sets r1) with (_current_excluded_sets r).
  unfold in_as_sets. clear. naive_solver.
Qed.
End Resolving.

(** ** From the database *)

(** Visible objects have names. *)
Definition named (table : list rpsl_row) : bool := forallb (λ r, negb (String.eqb (r_rpsl_pk r) "")) table.
(** The members of the as-set of a name that queries of these sources see. *)
Definition as_set_member (table : list rpsl_row) (sources : list string) (name x : string) : Prop :=
  ∃ r, db_set table (str_upper name) sources ["as-set"] = Some r ∧ set_member table r x.
Definition version_known (version : option Z) : bool :=
  match version with Some v => bool_decide (v ∈ [0; 4; 6]%Z) | None => true end.

Section Prefixes.
Context `{IPyLib} (cfg : configuration) (preloader : memory) (table : list rpsl_row).
Context (Hagrees : memory_agrees table preloader) (Hnamed : named table = true).

Lemma empty_not_as : is_as_number cfg "" = false.
Proof using Type. unfold is_as_number, parse_as_number. by rewrite andb_comm. Qed.
Lemma unnamed_set sources classes : db_set table "" sources classes = None.
Proof using Hnamed.
  assert (∀ cls, db_set_of table cls "" sources = None) as Hno.
  { intros cls. unfold db_set_of. induction sources as [|source sources IH]; [done|]. simpl.
    destruct (List.find _ _) as [r|] eqn:E; [|done]. apply is_set_elem in E as ([Hin _]%sets_of_elem & _ & Hpk & _).
    unfold named in Hnamed. rewrite forallb_spec in Hnamed. apply Hnamed in Hin. by rewrite Hpk in Hin. }
  unfold db_set. by rewrite !Hno; repeat case_match.
Qed.
(** A set without members is stored with the empty text. *)
Lemma member_found_iff sources name x :
  member_found preloader sources ["as-set"] name x ↔
  as_set_member table sources name x ∨
  x = "" ∧ ∃ r, db_set table (str_upper name) sources ["as-set"] = Some r ∧ ∀ y, ¬ set_member table r y.
Proof using Hagrees.
  unfold member_found, as_set_member. destruct (ma_sets _ _ Hagrees name sources ["as-set"]) as [r s [_ Hs]|].
  - split.
    + intros (s' & [= <-] & Hx). apply Hs in Hx as [?|[? ->]]; [left|right]; eauto.
    + intros [(r' & [= <-] & Hx)|(-> & r' & [= <-] & Hx)]; exists s; split; [done| |done|]; apply Hs; eauto.
  - split; [intros (? & ? & _)|intros [(? & ? & _)|(_ & ? & ? & _)]]; done.
Qed.

Definition as_set_entered (sources excluded : list string) (set_name : string) : string → Prop :=
  entered cfg (as_set_member table sources) excluded [] [set_name].
Lemma found_entered sources excluded set_name s :
  entered cfg (member_found preloader sources ["as-set"]) excluded [] [set_name] s →
  as_set_entered sources excluded set_name s ∨ s = "".
Proof using Hagrees Hnamed.
  induction 1 as [s Hs Hn|s x _ IH Hf Has Hex Hx]; [left; by apply entered_start|].
  apply member_found_iff in Hf as [Hf|[-> _]]; [|by right]. destruct IH as [Hs| ->].
  - left. by apply (entered_member _ _ _ _ _ s).
  - destruct Hf as (r & Hr & _). simpl in Hr. by rewrite unnamed_set in Hr.
Qed.
Lemma entered_found sources excluded set_name s :
  as_set_entered sources excluded set_name s → entered cfg (member_found preloader sources ["as-set"]) excluded [] [set_name] s.
Proof using Hagrees.
  induction 1 as [s Hs Hn|s x _ IH Hf Has Hex Hx]; [by apply entered_start|].
  apply (entered_member _ _ _ _ _ s); [done| |done..]. apply member_found_iff. by left.
Qed.
Lemma as_numbers_found sources excluded set_name x : is_as_number cfg x = true →
  (∃ s, entered cfg (member_found preloader sources ["as-set"]) excluded [] [set_name] s ∧ member_found preloader sources ["as-set"] s x)
  ↔ ∃ s, as_set_entered sources excluded set_name s ∧ as_set_member table sources s x.
Proof using Hagrees Hnamed.
  intros Hx. split; intros (s & Hs & Hm).
  - apply member_found_iff in Hm as [Hm|[-> _]]; [|by rewrite empty_not_as in Hx].
    apply found_entered in Hs as [Hs| ->]; [eauto|]. destruct Hm as (r & Hr & _). simpl in Hr. by rewrite unnamed_set in Hr.
  - exists s. split; [by apply entered_found|]. apply member_found_iff. by left.
Qed.
Lemma routes_for_origins_Ok origins sources version :
  version_known version = true → ∃ routes, routes_for_origins preloader origins sources version = Ok routes.
Proof using Type.
  unfold routes_for_origins. destruct version as [v|]; cbn [version_known]; [intros ->|]; by eexists.
Qed.

(** C7. The prefixes of an as-set: those of the visible routes whose origin is an
    AS number among the members of a set reached from it, where sets are reached
    through members that are not excluded, and in each set the first selected
    source that has it counts.  Sets may refer to each other in cycles; the
    number of sets that are reached is limited by Python's recursion. *)
Theorem as_set_prefixes_exact recursion_limit r set_name version excluded names :
  version_known version = true →
  (∀ s, as_set_entered (resolved_sources cfg r) excluded set_name s → s ∈ names) →
  (S (length names) < recursion_limit)%nat →
  ∃ r' prefixes, routes_for_as_set cfg recursion_limit preloader set_name version excluded r = (r', Ok prefixes) ∧
    source_manager r' = source_manager r ∧
    ∀ p, p ∈ prefixes ↔ ∃ s origin,
      as_set_entered (resolved_sources cfg r) excluded set_name s ∧ as_set_member table (resolved_sources cfg r) s origin ∧
      is_as_number cfg origin = true ∧ db_prefix table [origin] (resolved_sources cfg r) version p.
Proof using Hagrees Hnamed.
  intros Hv Hnames Hlimit. set (r1 := with_set (Some "as-set") excluded 0 r).
  destruct (recursive_as_set_resolve cfg preloader recursion_limit ("" :: names) [set_name] [] r1)
    as (r' & ms & Heq & [Hm _] & Hms); [done|done|by intros x _ ?%elem_of_nil| |done|].
  { intros s [Hs| ->]%found_entered; [right; by apply Hnames|by left]. }
  destruct (routes_for_origins_Ok ms (resolved_sources cfg r) version Hv) as (prefixes & Hp).
  exists r', prefixes. split; [|split; [done|]].
  - unfold routes_for_as_set. rewrite (st_bind_run _ _ r r1 tt) by done. rewrite (st_bind_run _ _ r1 r' ms) by done.
    rewrite (st_bind_run _ _ r' r' r') by done. unfold st_lift, resolved_sources.
    change (source_manager r1) with (source_manager r) in Hm. unfold resolved_sources in Hp. by rewrite Hm, Hp.
  - intros p. rewrite (ma_routes _ _ Hagrees _ _ _ _ Hp). split.
    + intros (row & v & Hin & Hsel & Hsrc & Ho & Hrest). apply Hms in Ho as [Has Ho].
      apply as_numbers_found in Ho as (s & Hs & Hso); [|done]. exists s, (origin_of row).
      split; [done|]. split; [done|]. split; [done|]. exists row, v. repeat split; try done; try tauto. by left.
    + intros (s & o & Hs & Hso & Has & (row & v & Hin & Hsel & Hsrc & Ho & Hrest)). apply list_elem_of_singleton in Ho. subst o.
      exists row, v. repeat split; try tauto. apply Hms. split; [done|]. apply as_numbers_found; [done|eauto].
Qed.
End Prefixes.

Module ResolverExamples.
Import ConcreteIP PreloadExamples.

Definition cfg0 : configuration := conf_of (VDict [("sources", VDict [("TEST", VDict [])])]).
Definition session0 : resolver := QueryResolver_init cfg0.
Lemma session_sources : resolved_sources cfg0 session0 = ["TEST"].
Proof. vm_compute. reflexivity. Qed.

(** The names reached in the example: the sub-set, and nothing else. *)
Lemma table1_member r x : r_object_class r = "as-set" → set_member table1 r x → x ∈ listed_members r ∨ x = "AS2".
Proof.
  intros Hc [?|(r' & (Hin & Hsel & _) & ->)]; [by left|]. right. rewrite Hc in Hsel. unfold table1, table0 in Hin.
  repeat (apply elem_of_cons in Hin as [-> |Hin]; [solve [discriminate Hsel|reflexivity]|]). by apply elem_of_nil in Hin.
Qed.
Lemma table1_entered s : as_set_entered cfg0 table1 ["TEST"] [] "AS-ALL" s → s ∈ ["AS-ALL"; "AS-SUB"].
Proof.
  induction 1 as [s Hs _|s x _ IH (r & Hr & Hm) Has _ _]; [apply list_elem_of_singleton in Hs as ->; by left|].
  assert (r_object_class r = "as-set" ∧ ∀ y, y ∈ listed_members r → y ∈ ["AS-SUB"; "AS1"]) as [Hc Hl].
  { repeat (apply elem_of_cons in IH as [-> |IH]); [..|by apply elem_of_nil in IH]; vm_compute in Hr; injection Hr as <-;
      (split; [reflexivity|intros y Hy; vm_compute in Hy; set_solver]). }
  destruct (table1_member r x Hc Hm) as [Hx| ->]; [|discriminate Has].
  apply Hl in Hx. repeat (apply elem_of_cons in Hx as [-> |Hx]); [by right; left|discriminate Has|by apply elem_of_nil in Hx].
Qed.
Lemma table1_memory : ∃ m, memory_agrees table1 m.
Proof.
  destruct (preload_agrees code_point table1 empty_redis) as (_ & m & _ & _ & Hm); [vm_compute; reflexivity| |eauto].
  apply (bool_decide_unpack _). vm_compute. exact I.
Qed.
Lemma as_set_prefixes_exact_witness :
  ∃ m, memory_agrees table1 m ∧ ∃ r' prefixes,
    routes_for_as_set cfg0 4 m "AS-ALL" None [] session0 = (r', Ok prefixes) ∧ source_manager r' = source_manager session0 ∧
    ∀ p, p ∈ prefixes ↔ ∃ s origin,
      as_set_entered cfg0 table1 (resolved_sources cfg0 session0) [] "AS-ALL" s
      ∧ as_set_member table1 (resolved_sources cfg0 session0) s origin ∧ is_as_number cfg0 origin = true
      ∧ db_prefix table1 [origin] (resolved_sources cfg0 session0) None p.
Proof.
  destruct table1_memory as [m Hm]. exists m. split; [exact Hm|].
  apply (as_set_prefixes_exact cfg0 m table1 Hm eq_refl 4 session0 "AS-ALL" None [] ["AS-ALL"; "AS-SUB"]); [reflexivity| |simpl; lia].
  intros s Hs. rewrite session_sources in Hs. by apply table1_entered.
Defined.

(** Sets that refer to each other, resolved on the memory of the processes. *)
Definition cycle : list rpsl_row :=
  [as_set_of "AS-ALL" ["AS-SUB"; "AS1"] []; as_set_of "AS-SUB" ["AS-ALL"; "AS2"; "AS-LEAF"] [];
   route_of "192.0.2.0" 24 1; route_of "198.51.100.0" 24 2].
Definition with_memory {A} (table : list rpsl_row) (f : memory → st resolver A) : res A :=
  m ← load_of table; snd (f m session0).
Example cycle_resolved :
  with_memory cycle (λ m, routes_for_as_set cfg0 5 m "AS-ALL" (Some 4%Z) []) = Ok ["192.0.2.0/24"; "198.51.100.0/24"].
Proof. vm_compute. reflexivity. Qed.
(** The list of a set without members has the empty text as a member. *)
Example empty_set_listed :
  with_memory [as_set_of "AS-EMPTY" [] []] (λ m, members_for_set cfg0 5 m "AS-EMPTY" [] 0 false None) = Ok [""].
Proof. vm_compute. reflexivity. Qed.
End ResolverExamples.
