(* ===== verification/Whois.v ===== *)
(** * Whois queries ([irrd/server/whois], [irrd/server/access_check.py])

    The parser of IRRD- and RIPE-style queries with the state it keeps in a
    session, the rendering of responses, and the loop of a worker over the
    lines of a connection.  The version and access checks are those of a
    process that is not a test; the JSON coder is a parameter, timeouts and
    logging are not modelled. *)
From S2P Require Import Prelude PyStr Conf Net Models Text RpslObjects Database DatabaseHandler Nrtm Queries Preload QueryResolver.

(** ** Access lists *)

Definition STARLETTE_TEST_CLIENT_HOST : string := "testclient".
Section Access.
Context `{IPyLib} (cfg : configuration).

Definition unmapped (client_ip : IP) : IP :=
  if (ip_version client_ip =? 6)%Z then default client_ip (ip_v46map client_ip) else client_ip.
Definition in_allowed (client_ip : IP) (allowed : string) : res bool :=
  match ip_of 0 allowed with inr net => Ok (ip_contains client_ip net) | inl msg => Raise (ValueError msg) end.
Definition is_client_permitted (ip access_list_setting : string) (default_deny : bool) : res bool :=
  if String.eqb ip STARLETTE_TEST_CLIENT_HOST then Raise AttributeError
  else match ip_of 0 ip with
       | inl _ => Ok false
       | inr client_ip =>
           let access_list_name := get_setting cfg access_list_setting in
           let access_list := get_setting cfg ("access_lists." +:+ pyval_str access_list_name) in
           if negb (truthy access_list_name) || negb (truthy access_list) then Ok (negb default_deny)
           else found ← res_map (in_allowed (unmapped client_ip)) (pyval_strs access_list);
                Ok (existsb (λ b, b) found)
       end.
End Access.

(** ** Responses *)

Inductive WhoisQueryResponseType := SUCCESS | ERROR_INTERNAL | ERROR_USER | KEY_NOT_FOUND | NO_RESPONSE.
Inductive WhoisQueryResponseMode := IRRD | RIPE.
Record WhoisQueryResponse := {
  response_type : WhoisQueryResponseType;
  mode : WhoisQueryResponseMode;
  result : option string;
  remove_hashes : bool;
}.
Definition truthy_text (o : option string) : bool := match o with Some s => negb (String.eqb s "") | None => false end.
Definition result_text (o : option string) : string := match o with Some s => s | None => "None" end.
Definition clean_response (r : WhoisQueryResponse) : option string :=
  if remove_hashes r then remove_auth_hashes <$> result r else result r.
Definition _generate_response_irrd (t : WhoisQueryResponseType) (o : option string) : option string :=
  match t with
  | SUCCESS =>
      Some (if truthy_text o
            then let result_bytes := utf8_encode (result_text o) in
                 "A" +:+ str_of_Z (Z.of_nat (String.length result_bytes) + 1) +:+ NL +:+ result_bytes +:+ NL +:+ "C" +:+ NL
            else "C" +:+ NL)
  | KEY_NOT_FOUND => Some ("D" +:+ NL)
  | ERROR_INTERNAL | ERROR_USER => Some (utf8_encode ("F " +:+ result_text o +:+ NL))
  | NO_RESPONSE => Some ""
  end.
Definition no_entries : string := "%  No entries found for the selected source(s)." +:+ NL +:+ NL +:+ NL.
Definition _generate_response_ripe (t : WhoisQueryResponseType) (o : option string) : option string :=
  match t with
  | SUCCESS => Some (if truthy_text o then utf8_encode (result_text o +:+ NL +:+ NL +:+ NL) else no_entries)
  | KEY_NOT_FOUND => Some no_entries
  | ERROR_INTERNAL | ERROR_USER => Some (utf8_encode ("%% ERROR: " +:+ result_text o +:+ NL +:+ NL +:+ NL))
  | NO_RESPONSE => None
  end.
Definition type_name (t : WhoisQueryResponseType) : string :=
  "WhoisQueryResponseType." +:+ match t with
    | SUCCESS => "SUCCESS" | ERROR_INTERNAL => "ERROR_INTERNAL" | ERROR_USER => "ERROR_USER"
    | KEY_NOT_FOUND => "KEY_NOT_FOUND" | NO_RESPONSE => "NO_RESPONSE" end.
Definition mode_name (m : WhoisQueryResponseMode) : string :=
  "WhoisQueryResponseMode." +:+ match m with IRRD => "IRRD" | RIPE => "RIPE" end.
Definition generate_response (r : WhoisQueryResponse) : res string :=
  match (match mode r with IRRD => _generate_response_irrd | RIPE => _generate_response_ripe end)
          (response_type r) (clean_response r) with
  | Some response => Ok response
  | None => Raise (RuntimeError ("Unable to formulate response for " +:+ type_name (response_type r) +:+ " / "
                           +:+ mode_name (mode r) +:+ ": " +:+ result_text (clean_response r)))
  end.

(** ** The parser *)

Definition __version__ : string := "4.6-dev".
Record WhoisQueryParser := {
  multiple_command_mode : bool;
  timeout : Z;
  key_fields_only : bool;
  excluded_sets : list string;
  query_resolver : resolver;
}.
Definition with_resolver (r : resolver) (p : WhoisQueryParser) : WhoisQueryParser := {|
  multiple_command_mode := multiple_command_mode p; timeout := timeout p; key_fields_only := key_fields_only p;
  excluded_sets := excluded_sets p; query_resolver := r |}.
Definition with_mode (multiple : bool) (p : WhoisQueryParser) : WhoisQueryParser := {|
  multiple_command_mode := multiple; timeout := timeout p; key_fields_only := key_fields_only p;
  excluded_sets := excluded_sets p; query_resolver := query_resolver p |}.
Definition with_timeout (t : Z) (p : WhoisQueryParser) : WhoisQueryParser := {|
  multiple_command_mode := multiple_command_mode p; timeout := t; key_fields_only := key_fields_only p;
  excluded_sets := excluded_sets p; query_resolver := query_resolver p |}.
Definition with_key_fields (b : bool) (p : WhoisQueryParser) : WhoisQueryParser := {|
  multiple_command_mode := multiple_command_mode p; timeout := timeout p; key_fields_only := b;
  excluded_sets := excluded_sets p; query_resolver := query_resolver p |}.
Definition with_excluded (sets : list string) (p : WhoisQueryParser) : WhoisQueryParser := {|
  multiple_command_mode := multiple_command_mode p; timeout := timeout p; key_fields_only := key_fields_only p;
  excluded_sets := sets; query_resolver := query_resolver p |}.

Notation P := (st WhoisQueryParser).
Definition invalid {A} (message : string) : P A := st_raise (InvalidQueryException message).
(** A call of the resolver. *)
Definition on_resolver {A} (m : st resolver A) : P A := λ p,
  match m (query_resolver p) with (r, a) => (with_resolver r p, a) end.
Definition handle_user_agent (user_agent : string) : P unit := on_resolver (set_user_agent user_agent).

Section Whois.
Context `{IPyLib} (cfg : configuration) (collate_lt : string → string → bool) (uuid : nat → string) (now : Z).
Context (query_repr : query → string) (status_query_repr : list string → string).
Context (isoformat : Z → string) (status_updated : status_row → Z) (recursion_limit : nat).
(** [ujson.dumps(results, indent=4)]. *)
Context (json_dumps : list (string * list (string * pyval)) → string).
Context (client_ip : string) (preloader : memory) (d : database).

Notation manager p := (source_manager (query_resolver p)).
Definition is_empty (s : string) : bool := String.eqb s "".

(** *** Objects as text *)

Definition field_lines (name : string) (o : option pdata) : list string :=
  match o with
  | None => []
  | Some (PStr s) => if is_empty s then [] else [name +:+ ": " +:+ s +:+ NL]
  | Some (PList l) => (λ item, name +:+ ": " +:+ item +:+ NL) <$> l
  | Some (PInt n) => if (n =? 0)%Z then [] else [name +:+ ": " +:+ str_of_Z n +:+ NL]
  end.
Definition key_fields (r : rpsl_row) : res string :=
  match class_of (r_object_class r) with
  | None => Raise (KeyError (r_object_class r))
  | Some c => Ok (concat_str (concat ((λ name, field_lines name (r_parsed_data r !! name))
                                        <$> (pk_fields c ++ ["members"; "mp-members"]))))
  end.
Definition _filter_key_fields (rows : list rpsl_row) : res string :=
  results ← res_map key_fields rows; Ok (join NL (oset_update [] results)).
Definition rpki_name (s : RPKIStatus) : string :=
  match s with rpki_valid => "valid" | rpki_invalid => "invalid" | rpki_not_found => "not_found" end.
Definition object_with_state (rpki_aware : bool) (r : rpsl_row) : string :=
  r_object_text r
  +:+ (if rpki_aware && negb (String.eqb (r_source r) RPKI_IRR_PSEUDO_SOURCE)
          && bool_decide (r_object_class r ∈ RPKI_RELEVANT_OBJECT_CLASSES)
       then "rpki-ov-state:  " +:+ rpki_name (r_rpki_status r)
            +:+ (if decide (r_rpki_status r = rpki_not_found)
                 then " # No ROAs found, or RPKI validation not enabled for source" else "") +:+ NL
       else "")
  +:+ NL.
Definition _flatten_query_output (rows : list rpsl_row) : P string :=
  p ← st_get;
  text ← st_lift (if key_fields_only p then _filter_key_fields rows
                  else Ok (concat_str (object_with_state (rpki_aware (query_resolver p)) <$> rows)));
  mret (strip_chars (NL +:+ CR) text).

(** *** IRRD-style queries *)

Definition handle_irrd_timeout_update (text : string) : P unit :=
  match py_int text with
  | Some value => if (0 <? value)%Z && (value <=? 1000)%Z then st_modify (with_timeout value)
                  else invalid ("Invalid value for timeout: " +:+ text)
  | None => invalid ("Invalid value for timeout: " +:+ text)
  end.
Definition cleaned_origin (origin : string) : P string :=
  match parse_as_number cfg (inl origin) false true with
  | Ok (origin_formatted, _) => mret origin_formatted
  | Raise (ValidationError message) => invalid message
  | Raise e => st_raise e
  end.
Definition _routes_for_origin (origin : string) (version : option Z) : P string :=
  origin_formatted ← cleaned_origin origin;
  prefixes ← on_resolver (routes_for_origin cfg preloader origin_formatted version);
  mret (join " " prefixes).
Definition set_and_version (set_name : string) : string * option Z :=
  if startswith "4" set_name then (str_drop 1 set_name, Some 4%Z)
  else if startswith "6" set_name then (str_drop 1 set_name, Some 6%Z) else (set_name, None).
Definition handle_irrd_routes_for_as_set (parameter : string) : P string :=
  let '(set_name, version) := set_and_version parameter in
  if is_empty set_name then invalid "Missing required set name for A query"
  else
    p ← st_get;
    prefixes ← on_resolver (routes_for_as_set cfg recursion_limit preloader set_name version (excluded_sets p));
    mret (join " " prefixes).
Definition handle_irrd_set_members (parameter : string) : P string :=
  let recursive := endswith ",1" parameter in
  let parameter := if recursive then str_take (String.length parameter - 2) parameter else parameter in
  p ← st_get;
  members ← on_resolver (members_for_set cfg recursion_limit preloader parameter (excluded_sets p) 0 recursive None);
  mret (join " " members).

Definition nonzero (o : option Z) : bool := match o with Some n => negb (n =? 0)%Z | None => false end.
Definition int_text (o : option Z) : string := match o with Some n => str_of_Z n | None => "None" end.
Definition serial_range_line (s : status_row) : string :=
  let source := str_upper (s_source s) in
  let newest := serial_newest_mirror (s_serials s) in
  let exported := serial_last_export (s_serials s) in
  join ":" ([source; (if truthy (source_setting cfg source "keep_journal") then "Y" else "N");
             (if nonzero newest then "0-" +:+ int_text newest else "-")]
            ++ (if nonzero exported then [int_text exported] else [])) +:+ NL.
Definition handle_irrd_database_serial_range (parameter : string) : P string :=
  p ← st_get;
  let valid := all_valid_real_sources (manager p) in
  let sources := if String.eqb parameter "-*" then valid else str_upper <$> split_on ch_comma parameter in
  mret (strip (concat_str (serial_range_line <$> status_rows collate_lt d sources)
               +:+ concat_str ((λ s, str_upper s +:+ ":X:Database unknown" +:+ NL) <$> none_of valid sources))).
Definition handle_irrd_database_status (parameter : string) : P string :=
  let sources := if String.eqb parameter "-*" then None else Some (str_upper <$> split_on ch_comma parameter) in
  results ← on_resolver (database_status cfg collate_lt status_query_repr isoformat status_updated d sources);
  mret (json_dumps results).
Definition handle_irrd_exact_key (parameter : string) : P string :=
  match split_once ch_comma parameter with
  | None => invalid ("Invalid argument for object lookup: " +:+ parameter)
  | Some (object_class, rpsl_pk) =>
      let rpsl_pk := if bool_decide (object_class ∈ ["route"; "route6"])
                     then replace_char "-"%char "" (replace_char ch_space "" (str_upper rpsl_pk)) else rpsl_pk in
      rows ← on_resolver (key_lookup cfg collate_lt query_repr d object_class rpsl_pk);
      _flatten_query_output rows
  end.

Definition address_and_option (parameter : string) : res (string * option string) :=
  match split_on ch_comma parameter with
  | [address] => Ok (address, None)
  | [address; opt] => Ok (address, Some opt)
  | _ => Raise (ValueError "too many values to unpack (expected 2)")
  end.
Definition route_lookup (opt : option string) : option RouteLookupType :=
  match opt with
  | None => Some EXACT
  | Some o => if String.eqb o "o" then Some EXACT else if String.eqb o "l" then Some LESS_SPECIFIC_ONE_LEVEL
              else if String.eqb o "L" then Some LESS_SPECIFIC_WITH_EXACT
              else if String.eqb o "M" then Some MORE_SPECIFIC_WITHOUT_EXACT else None
  end.
Definition origin_text (r : rpsl_row) : res string :=
  match r_parsed_data r !! "origin" with Some v => Ok (pdata_str (Some v)) | None => Raise (KeyError "origin") end.
Definition handle_irrd_route_search (parameter : string) : P string :=
  '(text, opt) ← st_lift (address_and_option parameter);
  match ip_of 0 text with
  | inl _ => invalid ("Invalid input for route search: " +:+ parameter)
  | inr address =>
      match route_lookup opt with
      | None => invalid ("Invalid route search option: " +:+ result_text opt)
      | Some lookup_type =>
          rows ← on_resolver (route_search cfg collate_lt query_repr d address lookup_type);
          if bool_decide (opt = Some "o") then origins ← st_lift (res_map origin_text rows); mret (join " " origins)
          else _flatten_query_output rows
      end
  end.
Definition handle_irrd_sources_list (parameter : string) : P (option string) :=
  if String.eqb parameter "-*" then mret None
  else if String.eqb parameter "-lc" then p ← st_get; mret (Some (join "," (sm_sources (manager p))))
  else _ ← on_resolver (set_query_sources (Some (split_on ch_comma (str_upper parameter)))); mret None.
Definition handle_irrd_set_exclusion (parameter : string) : P (option string) :=
  if String.eqb parameter "-lc" then p ← st_get; mret (Some (join "," (excluded_sets p)))
  else _ ← st_modify (with_excluded (if is_empty parameter then [] else split_on ch_comma (str_upper parameter))); mret None.
Definition handle_irrd_version : string := "IRRd -- version " +:+ __version__.
Definition handle_inverse_attr_search (attribute value : string) : P string :=
  rows ← on_resolver (rpsl_attribute_search cfg collate_lt query_repr d attribute value);
  _flatten_query_output rows.

Definition irrd_response (t : WhoisQueryResponseType) (o : option string) : WhoisQueryResponse :=
  {| response_type := t; mode := IRRD; result := o; remove_hashes := true |}.
(** An answer that is not found when it is empty. *)
Definition searched (m : P string) : P WhoisQueryResponse :=
  text ← m; mret (irrd_response (if is_empty text then KEY_NOT_FOUND else SUCCESS) (Some text)).
Definition answered (m : P (option string)) : P WhoisQueryResponse := o ← m; mret (irrd_response SUCCESS o).
Definition filter_message (what : string) : string :=
  what +:+ " queries for the rest of this connection.".
Definition handle_irrd_command (full_command : string) : P WhoisQueryResponse :=
  match full_command with
  | "" => invalid "Missing IRRD command"
  | String command parameter =>
      let given c := Ascii.eqb command c in
      if has_char command "tg6ijmnors" && is_empty parameter
      then invalid ("Missing parameter for " +:+ String command " query")
      else if given "!"%char then _ ← st_modify (with_mode true); mret (irrd_response NO_RESPONSE None)
      else if String.eqb (str_upper full_command) "FNO-RPKI-FILTER" then
        answered (_ ← on_resolver disable_rpki_filter;
          mret (Some (filter_message "Filtering out RPKI invalids is disabled for !r and RIPE style")))
      else if String.eqb (str_upper full_command) "FNO-SCOPE-FILTER" then
        answered (_ ← on_resolver disable_out_of_scope_filter;
          mret (Some (filter_message "Filtering out out-of-scope objects is disabled for !r and RIPE style")))
      else if String.eqb (str_upper full_command) "FNO-ROUTE-PREFERENCE-FILTER" then
        answered (_ ← on_resolver disable_route_preference_filter;
          mret (Some (filter_message "Filtering out objects suppressed due to route preference is disabled for !r and RIPE style")))
      else if given "v"%char then answered (mret (Some handle_irrd_version))
      else if given "t"%char then answered (_ ← handle_irrd_timeout_update parameter; mret None)
      else if given "g"%char then searched (_routes_for_origin parameter (Some 4%Z))
      else if given "6"%char then searched (_routes_for_origin parameter (Some 6%Z))
      else if given "a"%char then searched (handle_irrd_routes_for_as_set parameter)
      else if given "i"%char then searched (handle_irrd_set_members parameter)
      else if given "j"%char then answered (text ← handle_irrd_database_serial_range parameter; mret (Some text))
      else if given "J"%char then answered (text ← handle_irrd_database_status parameter; mret (Some text))
      else if given "m"%char then searched (handle_irrd_exact_key parameter)
      else if given "n"%char then answered (_ ← handle_user_agent parameter; mret None)
      else if given "o"%char then searched (handle_inverse_attr_search "mnt-by" parameter)
      else if given "r"%char then searched (handle_irrd_route_search parameter)
      else if given "s"%char then answered (handle_irrd_sources_list parameter)
      else if given "e"%char then answered (handle_irrd_set_exclusion parameter)
      else invalid ("Unrecognised command: " +:+ String command "")
  end.

(** *** RIPE-style queries *)

Definition ripe_lookup (command : string) : RouteLookupType :=
  if String.eqb command "x" then EXACT else if String.eqb command "l" then LESS_SPECIFIC_ONE_LEVEL
  else if String.eqb command "L" then LESS_SPECIFIC_WITH_EXACT else MORE_SPECIFIC_WITHOUT_EXACT.
Definition handle_ripe_route_search (command parameter : string) : P string :=
  match ip_of 0 parameter with
  | inl _ => invalid ("Invalid input for route search: " +:+ parameter)
  | inr address =>
      rows ← on_resolver (route_search cfg collate_lt query_repr d address (ripe_lookup command));
      _flatten_query_output rows
  end.
Definition handle_ripe_sources_list (sources_list : option string) : P unit :=
  on_resolver (set_query_sources (match sources_list with
    | Some l => if is_empty l then None else Some (split_on ch_comma (str_upper l))
    | None => None
    end)).
Definition handle_ripe_restrict_object_class (classes : string) : P unit :=
  on_resolver (set_object_class_filter_next_query (split_on ch_comma classes)).
Definition handle_ripe_request_object_template (object_class : string) : P string :=
  st_lift (rpsl_object_template object_class).
Definition handle_ripe_text_search (value : string) : P string :=
  rows ← on_resolver (rpsl_text_search cfg collate_lt query_repr d value);
  _flatten_query_output rows.

(** *** NRTM *)

Definition nrtm_access (source : string) : res (bool * bool) :=
  in_access_list ← is_client_permitted cfg client_ip ("sources." +:+ source +:+ ".nrtm_access_list") true;
  in_unfiltered ← is_client_permitted cfg client_ip ("sources." +:+ source +:+ ".nrtm_access_list_unfiltered") true;
  Ok (in_access_list, in_unfiltered).
Definition nrtm_information_line (s : status_row) : res string :=
  let source := str_upper (s_source s) in
  '(in_access_list, in_unfiltered) ← nrtm_access source;
  let oldest := serial_oldest_journal (s_serials s) in
  let newest := serial_newest_journal (s_serials s) in
  Ok (join ":" [source; "3"; (if negb in_access_list && negb in_unfiltered then "N" else "X");
                (if nonzero newest && nonzero oldest then int_text oldest +:+ "-" +:+ int_text newest else "Unknown")] +:+ NL).
Definition handle_nrtm_information_query (param : string) : P string :=
  if String.eqb param "sources" then
    lines ← st_lift (res_map nrtm_information_line (status_rows collate_lt d (sources_keys cfg)));
    mret (strip (concat_str lines))
  else invalid ("Unrecognised parameter: " +:+ param).
(** The serials of a range; the end is open for [LAST]. *)
Definition parse_serial_range (serial_range : string) : option (Z * option Z) :=
  match split_on "-"%char serial_range with
  | [serial_start; serial_end] =>
      match py_int serial_start with
      | None => None
      | Some first => if String.eqb serial_end "LAST" then Some (first, None)
                      else match py_int serial_end with Some last => Some (first, Some last) | None => None end
      end
  | _ => None
  end.
Definition generated (m : res string) : P string :=
  match m with
  | Ok text => mret text
  | Raise (NRTMGeneratorException message) => invalid message
  | Raise e => st_raise e
  end.
Definition handle_nrtm_request (param : string) : P string :=
  match split_on ch_colon param with
  | [source; version; serial_range] =>
      match parse_serial_range serial_range with
      | None => invalid ("Invalid serial range: " +:+ serial_range)
      | Some (serial_start, serial_end) =>
          if negb (bool_decide (version ∈ ["1"; "3"])) then invalid ("Invalid NRTM version: " +:+ version)
          else
            let source := str_upper source in
            p ← st_get;
            if negb (bool_decide (source ∈ all_valid_real_sources (manager p))) then invalid ("Unknown source: " +:+ source)
            else
              '(in_access_list, in_unfiltered) ← st_lift (nrtm_access source);
              if negb in_access_list && negb in_unfiltered then invalid "Access denied"
              else generated (snd (generate cfg uuid source version serial_start serial_end (negb in_unfiltered) in_unfiltered
                                     (DatabaseHandler_init cfg true d now)))
      end
  | _ => invalid "Invalid parameter: must contain three elements"
  end.

(** *** Flags and searches of a query *)

Definition ripe_response (t : WhoisQueryResponseType) (o : option string) (hashes_removed : bool) : WhoisQueryResponse :=
  {| response_type := t; mode := RIPE; result := o; remove_hashes := hashes_removed |}.
Definition missing {A} (command : string) : P A := invalid ("Missing argument for flag/search: " +:+ command).
(** [except IndexError]. *)
Definition catch_missing {A} (command : string) (m : P A) : P A := λ p,
  match m p with
  | (p', Raise IndexError) => missing command p'
  | other => other
  end.
(** The search that ends a query. *)
Definition last_search (hashes_removed : bool) (text : string) : WhoisQueryResponse :=
  ripe_response (if is_empty text then KEY_NOT_FOUND else SUCCESS) (Some text) hashes_removed.
(** The loop over the components, with the result so far and
    [remove_auth_hashes]. *)
Fixpoint ripe_components (components : list string) (so_far : option string) (hashes_removed : bool) : P WhoisQueryResponse :=
  match components with
  | [] => mret (ripe_response SUCCESS so_far hashes_removed)
  | component :: rest =>
      if negb (startswith "-" component) then
        text ← handle_ripe_text_search component; ripe_components rest (Some text) hashes_removed
      else
        let command := str_drop 1 component in
        let given := String.eqb command in
        if given "k" then _ ← st_modify (with_mode true); ripe_components rest so_far hashes_removed
        else if bool_decide (command ∈ ["l"; "L"; "M"; "x"]) then
          match rest with
          | [] => missing command
          | parameter :: _ => text ← catch_missing command (handle_ripe_route_search command parameter);
                              mret (last_search hashes_removed text)
          end
        else if given "i" then
          match rest with
          | attribute :: value :: _ => text ← catch_missing command (handle_inverse_attr_search attribute value);
                                       mret (last_search hashes_removed text)
          | _ => missing command
          end
        else if given "s" then
          match rest with
          | [] => missing command
          | sources_list :: rest' => _ ← catch_missing command (handle_ripe_sources_list (Some sources_list));
                                     ripe_components rest' so_far hashes_removed
          end
        else if given "a" then _ ← catch_missing command (handle_ripe_sources_list None); ripe_components rest so_far hashes_removed
        else if given "T" then
          match rest with
          | [] => missing command
          | classes :: rest' => _ ← handle_ripe_restrict_object_class classes; ripe_components rest' so_far hashes_removed
          end
        else if given "t" then
          match rest with
          | [] => missing command
          | object_class :: _ => text ← catch_missing command (handle_ripe_request_object_template object_class);
                                 mret (ripe_response SUCCESS (Some text) hashes_removed)
          end
        else if given "K" then _ ← st_modify (with_key_fields true); ripe_components rest so_far hashes_removed
        else if given "V" then
          match rest with
          | [] => missing command
          | user_agent :: rest' => _ ← handle_user_agent user_agent; ripe_components rest' so_far hashes_removed
          end
        else if given "q" then
          match rest with
          | [] => missing command
          | param :: rest' => text ← catch_missing command (handle_nrtm_information_query param);
                              ripe_components rest' (Some text) hashes_removed
          end
        else if given "g" then
          match rest with
          | [] => missing command
          | param :: rest' => text ← catch_missing command (handle_nrtm_request param);
                              ripe_components rest' (Some text) false
          end
        else if bool_decide (command ∈ ["F"; "r"]) then ripe_components rest so_far hashes_removed
        else invalid ("Unrecognised flag/search: " +:+ command)
  end.
(** [re.sub(" +", " ", ...)]. *)
Fixpoint collapse_spaces (s : string) : string :=
  match s with
  | String c ((String c' _) as s') =>
      if Ascii.eqb c ch_space && Ascii.eqb c' ch_space then collapse_spaces s' else String c (collapse_spaces s')
  | _ => s
  end.
Definition handle_ripe_command (full_query : string) : P WhoisQueryResponse :=
  ripe_components (split_on ch_space (strip (collapse_spaces full_query))) None true.

(** *** A query *)

Definition error_response (m : WhoisQueryResponseMode) (t : WhoisQueryResponseType) (text : string) : WhoisQueryResponse :=
  {| response_type := t; mode := m; result := Some text; remove_hashes := true |}.
Definition internal_error : string := "An internal error occurred while processing this query.".
(** Exceptions become responses; what was done before them stays. *)
Definition respond (m : WhoisQueryResponseMode) (handler : P WhoisQueryResponse) (p : WhoisQueryParser)
  : WhoisQueryParser * WhoisQueryResponse :=
  match handler p with
  | (p', Ok r) => (p', r)
  | (p', Raise (InvalidQueryException message)) => (p', error_response m ERROR_USER message)
  | (p', Raise _) => (p', error_response m ERROR_INTERNAL internal_error)
  end.
Definition null : ascii := "000".
(** [-V agent] before an IRRD-style query. *)
Definition leading_user_agent (query : string) : option (string * string) :=
  if startswith "-V " query then
    match split_once ch_space query with
    | Some (_, rest) =>
        match split_once ch_space rest with
        | Some (user_agent, remainder) => if startswith "!" remainder then Some (user_agent, remainder) else None
        | None => None
        end
    | None => None
    end
  else None.
Definition handle_query (query : string) (p : WhoisQueryParser) : WhoisQueryParser * WhoisQueryResponse :=
  let p := with_key_fields false p in
  if has_char null query then (p, error_response IRRD ERROR_USER "Queries may not contain null bytes")
  else
    let '(query, p) := match leading_user_agent query with
                       | Some (user_agent, remainder) => (remainder, fst (handle_user_agent user_agent p))
                       | None => (query, p)
                       end in
    if startswith "!" query then respond IRRD (handle_irrd_command (str_drop 1 query)) p
    else respond RIPE (handle_ripe_command query) p.

(** ** A connection *)

Definition WhoisQueryParser_init : WhoisQueryParser := {|
  multiple_command_mode := false; timeout := SOCKET_DEFAULT_TIMEOUT; key_fields_only := false; excluded_sets := [];
  query_resolver := QueryResolver_init cfg |}.
(** The lines of a client; what is written, up to the end of the connection or an
    exception that ends it. *)
Fixpoint handle_lines (lines : list string) (p : WhoisQueryParser) : string * res unit :=
  match lines with
  | [] => ("", Ok tt)
  | line :: lines' =>
      let query := strip (utf8_decode line) in
      if is_empty query then handle_lines lines' p
      else if String.eqb (str_upper query) "!Q" then ("", Ok tt)
      else
        let '(p', response) := handle_query query p in
        match generate_response response with
        | Raise e => ("", Raise e)
        | Ok text => if multiple_command_mode p' then let '(later, e) := handle_lines lines' p' in (text +:+ later, e)
                     else (text, Ok tt)
        end
  end.
Definition handle_connection (lines : list string) : string * res unit :=
  match is_client_permitted cfg client_ip "server.whois.access_list" false with
  | Raise e => ("", Raise e)
  | Ok false => ("%% Access denied", Ok tt)
  | Ok true => handle_lines lines WhoisQueryParser_init
  end.
End Whois.
