(* ===== verification/WhoisTheory.v ===== *)
(** * Correctness of the whois server

    Responses have a framing that a client can read: whatever IRRD-style queries
    are sent on a connection, the client reads back the answers, one for each
    query, in order.  Responses keep password hashes only for clients with
    access to NRTM. *)
From S2P Require Import Prelude PyStr Conf Net Models Text TextTheory RpslObjects Database DatabaseHandler Nrtm Queries Preload QueryResolver QueryResolverTheory Whois.

(** ** Text of one line *)

Definition one_line (s : string) : bool := negb (has_char ch_nl s).
Lemma one_line_app a b : one_line (a +:+ b) = one_line a && one_line b.
Proof. unfold one_line. rewrite has_char_app. by destruct (has_char ch_nl a), (has_char ch_nl b). Qed.
Lemma one_line_upper s : one_line (str_upper s) = one_line s.
Proof.
  unfold one_line. f_equal. unfold str_upper. induction s as [|c s IH]; [done|]. simpl. rewrite !has_char_cons, IH. f_equal.
  destruct c as [[] [] [] [] [] [] [] []]; reflexivity.
Qed.
Lemma one_line_pieces c s : one_line s = true → Forall (λ w, one_line w = true) (split_on c s).
Proof.
  intros Hs. rewrite <- (join_split_on c s) in Hs. induction (split_on c s) as [|w ws IH]; [constructor|].
  destruct ws as [|w' ws]; [by constructor|]. rewrite join_cons, !one_line_app, !andb_true_iff in Hs.
  destruct Hs as (Hw & _ & Hws). by constructor; [|apply IH].
Qed.
Lemma one_line_split_once c s a b : split_once c s = Some (a, b) → one_line s = true → one_line a = true ∧ one_line b = true.
Proof.
  intros [-> _]%split_once_Some. rewrite one_line_app. change (String c b) with (String c "" +:+ b).
  rewrite one_line_app, !andb_true_iff. tauto.
Qed.
Lemma one_line_take n s : one_line s = true → one_line (str_take n s) = true.
Proof.
  unfold one_line, str_take. rewrite !negb_true_iff. revert n. induction s as [|c s IH]; intros [|n] Hs; try done. simpl.
  rewrite has_char_cons, orb_false_iff in *. destruct Hs. split; [done|by apply IH].
Qed.
Lemma one_line_drop n s : one_line s = true → one_line (str_drop n s) = true.
Proof.
  unfold one_line. rewrite !negb_true_iff. revert n. induction s as [|c s IH]; intros n Hs; [by destruct n|].
  destruct n as [|n]; [by rewrite str_drop_0|]. rewrite has_char_cons, orb_false_iff in Hs. destruct Hs.
  rewrite str_drop_S. by apply IH.
Qed.
Lemma one_line_cons c s : one_line (String c s) = one_line (String c "") && one_line s.
Proof. exact (one_line_app (String c "") s). Qed.

(** Removing hashes does not break a line. *)
Lemma sub_passwords_line m s : one_line s = true → one_line (sub_passwords m s) = true.
Proof.
  revert m. induction s as [|c s IH]; intros m; [done|]. rewrite one_line_cons, andb_true_iff. intros [Hc Hs]. cbn [sub_passwords].
  destruct m as [|[|k]|].
  - destruct (scheme_at _); rewrite one_line_cons, Hc; by apply IH.
  - rewrite one_line_app, IH by done. reflexivity.
  - rewrite one_line_cons, Hc. by apply IH.
  - case_bool_decide; [rewrite one_line_cons, Hc|]; by apply IH.
Qed.
Lemma remove_auth_hashes_line s : one_line s = true → one_line (remove_auth_hashes s) = true.
Proof. unfold remove_auth_hashes. intros Hs. repeat case_match; try done. by apply sub_passwords_line. Qed.

(** ** Reading responses *)

Inductive answer := Data (text : string) | Acknowledged | NotFound | Failed (message : string).
(** What a client is told by a response. *)
Definition view (r : WhoisQueryResponse) : option answer :=
  match response_type r with
  | SUCCESS => Some (if truthy_text (clean_response r) then Data (result_text (clean_response r)) else Acknowledged)
  | KEY_NOT_FOUND => Some NotFound
  | ERROR_INTERNAL | ERROR_USER => Some (Failed (result_text (clean_response r)))
  | NO_RESPONSE => None
  end.
(** A client of the IRRD protocol. *)
Definition read_data (s : string) : option (answer * string) :=
  '(digits, rest) ← split_once ch_nl s;
  n ← py_int digits;
  let n := Z.to_nat n in
  match str_drop n rest with
  | String "C" (String nl rest') => if Ascii.eqb nl ch_nl then Some (Data (utf8_decode (str_take (n - 1) rest)), rest') else None
  | _ => None
  end.
Definition read_answer (s : string) : option (answer * string) :=
  match s with
  | String "A" rest => read_data rest
  | String "C" (String nl rest) => if Ascii.eqb nl ch_nl then Some (Acknowledged, rest) else None
  | String "D" (String nl rest) => if Ascii.eqb nl ch_nl then Some (NotFound, rest) else None
  | String "F" (String " " rest) => '(message, rest) ← split_once ch_nl rest; Some (Failed (utf8_decode message), rest)
  | _ => None
  end.
Fixpoint read_answers (fuel : nat) (s : string) : option (list answer) :=
  match s, fuel with
  | "", _ => Some []
  | _, S fuel => '(a, rest) ← read_answer s; l ← read_answers fuel rest; Some (a :: l)
  | _, 0%nat => None
  end.
Definition read_all (s : string) : option (list answer) := read_answers (String.length s) s.

Definition is_error (t : WhoisQueryResponseType) : bool := match t with ERROR_USER | ERROR_INTERNAL => true | _ => false end.
Definition framed (r : WhoisQueryResponse) : Prop :=
  mode r = IRRD ∧ (is_error (response_type r) = true → one_line (result_text (result r)) = true).
Lemma clean_line r : one_line (result_text (result r)) = true → one_line (result_text (clean_response r)) = true.
Proof.
  unfold clean_response. destruct (remove_hashes r); [|done]. destruct (result r) as [s|]; [|done]. apply remove_auth_hashes_line.
Qed.
Lemma substring_app a b : str_take (String.length a) (a +:+ b) = a.
Proof. unfold str_take. induction a as [|c a IH]; simpl; [by destruct b|]. by rewrite IH. Qed.

Lemma split_first_line a b : one_line a = true → split_once ch_nl (a +:+ NL +:+ b) = Some (a, b).
Proof. intros Ha%negb_true_iff. by apply (split_once_app ch_nl). Qed.
Lemma read_data_response text rest :
  let bytes := utf8_encode text in
  read_data (str_of_Z (Z.of_nat (String.length bytes) + 1) +:+ NL +:+ bytes +:+ NL +:+ "C" +:+ NL +:+ rest) = Some (Data text, rest).
Proof.
  intros bytes. assert (utf8_decode bytes = text) as Hdec by apply utf8_decode_encode. generalize dependent bytes. intros bytes Hdec.
  unfold read_data. rewrite split_first_line by (apply negb_true_iff, str_of_Z_no_char; [lia|done]). cbn [mbind option_bind].
  rewrite py_int_str_of_Z by lia. cbn [mbind option_bind].
  replace (Z.to_nat (Z.of_nat (String.length bytes) + 1)) with (String.length (bytes +:+ NL))
    by (rewrite str_length_app; simpl; lia).
  rewrite <- (str_app_assoc bytes NL), str_drop_app. simpl. rewrite str_length_app, str_app_assoc. simpl.
  replace (String.length bytes + 1 - 1)%nat with (String.length bytes) by lia. by rewrite substring_app, Hdec.
Qed.
Lemma one_line_encode m : one_line (utf8_encode m) = one_line m.
Proof. unfold one_line. by rewrite utf8_encode_char. Qed.
Lemma read_failed m rest :
  one_line m = true → read_answer (utf8_encode ("F " +:+ m +:+ NL) +:+ rest) = Some (Failed m, rest).
Proof.
  intros Hm. rewrite !utf8_encode_app, !str_app_assoc.
  change (('(message, rest) ← split_once ch_nl (utf8_encode m +:+ NL +:+ rest); Some (Failed (utf8_decode message), rest))
          = Some (Failed m, rest)).
  rewrite split_first_line by by rewrite one_line_encode. cbn [mbind option_bind]. by rewrite utf8_decode_encode.
Qed.
(** Reading what was rendered. *)
Lemma read_response r : framed r →
  ∃ text, generate_response r = Ok text ∧
    match view r with
    | Some a => text ≠ "" ∧ ∀ rest, read_answer (text +:+ rest) = Some (a, rest)
    | None => text = ""
    end.
Proof.
  intros [Hmode Herr]. unfold generate_response, view. rewrite Hmode.
  assert (is_error (response_type r) = true → ∀ rest,
    read_answer (utf8_encode ("F " +:+ result_text (clean_response r) +:+ NL) +:+ rest)
    = Some (Failed (result_text (clean_response r)), rest)) as Hfail.
  { intros He rest. by apply read_failed, clean_line, Herr. }
  destruct (response_type r); cbn [_generate_response_irrd].
  - eexists. split; [reflexivity|]. destruct (truthy_text (clean_response r)); [|done].
    split; [done|]. intros rest. cbv zeta. rewrite !str_app_assoc. exact (read_data_response _ rest).
  - eexists. split; [reflexivity|]. split; [done|]. by apply Hfail.
  - eexists. split; [reflexivity|]. split; [done|]. by apply Hfail.
  - eexists. split; [reflexivity|]. by split.
  - eexists. by split; [reflexivity|].
Qed.

(** ** Messages of one line *)

Definition good_error (e : exn) : Prop := match e with InvalidQueryException m => one_line m = true | _ => True end.
Definition one_line_errors {S A} (m : st S A) : Prop :=
  ∀ s, match snd (m s) with Raise e => good_error e | Ok _ => True end.
Definition good_res {A} (m : res A) : Prop := match m with Raise e => good_error e | Ok _ => True end.

Lemma errors_ret {S A} (a : A) : one_line_errors (S := S) (mret a).
Proof. by intros s. Qed.
Lemma errors_bind {S A B} (m : st S A) (f : A → st S B) :
  one_line_errors m → (∀ a, one_line_errors (f a)) → one_line_errors (m ≫= f).
Proof.
  intros Hm Hf s. specialize (Hm s). unfold mbind, st_bind. destruct (m s) as [s' [a|e]]; [apply Hf|done].
Qed.
Lemma errors_raise {S A} e : good_error e → one_line_errors (S := S) (A := A) (st_raise e).
Proof. by intros He s. Qed.
Lemma errors_invalid {A} m : one_line m = true → one_line_errors (A := A) (invalid m).
Proof. by intros Hm s. Qed.
Lemma errors_get {S} : one_line_errors (S := S) st_get.
Proof. by intros s. Qed.
Lemma errors_modify {S} (f : S → S) : one_line_errors (st_modify f).
Proof. by intros s. Qed.
Lemma errors_lift {S A} (m : res A) : good_res m → one_line_errors (S := S) (st_lift m).
Proof. by intros Hm s. Qed.
Lemma errors_lift_bind {S A B} (m : res A) (f : A → st S B) :
  good_res m → (∀ a, m = Ok a → one_line_errors (f a)) → one_line_errors (st_lift m ≫= f).
Proof. intros Hm Hf s. unfold mbind, st_bind, st_lift. destruct m as [a|e]; [by apply Hf|done]. Qed.
Lemma errors_resolver {A} (m : st resolver A) : one_line_errors m → one_line_errors (on_resolver m).
Proof. intros Hm p. specialize (Hm (query_resolver p)). unfold on_resolver. by destruct (m (query_resolver p)) as [r a]. Qed.
Lemma good_bind {A B} (m : res A) (f : A → res B) : good_res m → (∀ a, good_res (f a)) → good_res (m ≫= f).
Proof. intros Hm Hf. destruct m as [a|e]; [apply Hf|done]. Qed.
Lemma good_res_map {A B} (f : A → res B) l : (∀ x, good_res (f x)) → good_res (res_map f l).
Proof. intros Hf. induction l as [|x l IH]; simpl; [done|]. apply good_bind; [done|]. intros. by apply good_bind. Qed.

(** Steps through binds and case distinctions. *)
Ltac quiet := repeat lazymatch goal with
  | |- ∀ _, _ => intros ?
  | |- True => exact I
  | |- one_line_errors (mret _) => apply errors_ret
  | |- one_line_errors st_get => apply errors_get
  | |- one_line_errors (st_modify _) => apply errors_modify
  | |- one_line_errors (_ ≫= _) => apply errors_bind
  | |- one_line_errors (on_resolver _) => apply errors_resolver
  | |- one_line_errors (st_lift _) => apply errors_lift
  | |- one_line_errors (invalid _) => apply errors_invalid
  | |- one_line_errors (st_raise _) => apply errors_raise
  | |- one_line_errors (match ?x with _ => _ end) => destruct x
  | |- good_res (Ok _) => exact I
  | |- good_res (mret _) => exact I
  | |- good_res (Raise _) => cbn [good_res good_error]
  | |- good_res (_ ≫= _) => apply good_bind
  | |- good_res (res_map _ _) => apply good_res_map
  | |- good_res (match ?x with _ => _ end) => destruct x
  | |- good_error _ => cbn [good_error]
  end.
#[local] Opaque lookup_field_names.

Section Quiet.
Context `{IPyLib} (cfg : configuration) (collate_lt : string → string → bool) (uuid : nat → string) (now : Z).
Context (query_repr : query → string) (status_query_repr : list string → string).
Context (isoformat : Z → string) (status_updated : status_row → Z) (recursion_limit : nat).
Context (json_dumps : list (string * list (string * pyval)) → string).
Context (client_ip : string) (preloader : memory) (d : database).

(** The query builders raise only [ValueError]. *)
Lemma filter_good q f : good_res (_filter q f).
Proof using Type. unfold _filter, _check_query_frozen. quiet. Qed.
Lemma object_classes_good q l : good_res (object_classes q l).
Proof using Type. apply filter_good. Qed.
Lemma sources_good q l : good_res (sources q l).
Proof using Type. apply filter_good. Qed.
Lemma lookup_attr_good q n v : good_res (lookup_attr q n v).
Proof using Type. unfold lookup_attr, lookup_attrs_in, _check_query_frozen. quiet; apply filter_good. Qed.
Lemma ip_searches_good q ip :
  good_res (ip_exact q ip) ∧ good_res (ip_less_specific cfg q ip) ∧ good_res (ip_more_specific cfg q ip)
  ∧ good_res (ip_less_specific_one_level q ip).
Proof using Type.
  split_and!; [apply filter_good|apply filter_good|apply filter_good|].
  unfold ip_less_specific_one_level, _check_query_frozen. quiet.
Qed.
Lemma first_good q : good_res (Ok (first_only q)).
Proof using Type. done. Qed.

(** Sessions with the resolver. *)
Lemma prepare_errors b : one_line_errors (_prepare_query cfg b).
Proof using Type.
  unfold _prepare_query, prepared, when, set_object_class_filter_next_query. quiet; apply filter_good.
Qed.
Lemma execute_errors q : one_line_errors (_execute_query collate_lt query_repr d q).
Proof using Type. unfold _execute_query, trace_sql. quiet. Qed.
Lemma key_lookup_errors c k : one_line_errors (key_lookup cfg collate_lt query_repr d c k).
Proof using Type. unfold key_lookup. quiet; solve [apply prepare_errors|apply execute_errors|apply filter_good]. Qed.
Lemma route_search_errors ip t : one_line_errors (route_search cfg collate_lt query_repr d ip t).
Proof using Type.
  unfold route_search, lookup_query. destruct (ip_searches_good) with (q := RPSLDatabaseQuery true true) (ip := ip) as [_ _].
  apply errors_bind; [apply prepare_errors|intros q]. apply errors_bind; [|intros; apply execute_errors].
  apply errors_lift, good_bind; [apply filter_good|intros q']. destruct (ip_searches_good q' ip) as (? & ? & ? & ?). by destruct t.
Qed.
Lemma attribute_search_errors a v :
  one_line a = true → one_line_errors (rpsl_attribute_search cfg collate_lt query_repr d a v).
Proof using Type.
  intros Ha. unfold rpsl_attribute_search. case_bool_decide.
  - apply errors_bind; [apply prepare_errors|intros q]. apply errors_bind; [|intros; apply execute_errors].
    apply errors_lift, lookup_attr_good.
  - apply errors_raise. cbn [good_error]. rewrite !one_line_app, Ha. Transparent lookup_field_names. vm_compute. reflexivity.
Qed.
Lemma routes_good origins srcs v : good_res (routes_for_origins preloader origins srcs v).
Proof using Type. unfold routes_for_origins. quiet. Qed.
Lemma find_members_errors srcs classes names members leaves :
  one_line_errors (find_members preloader srcs classes names members leaves).
Proof using Type.
  revert members leaves. induction names as [|n names IH]; intros members leaves; cbn [find_members]; [apply errors_ret|].
  destruct (set_members _ _ _ _); [|apply IH]. apply errors_bind; [unfold note_root_class; quiet|intros; apply IH].
Qed.
Lemma add_sub_members_good r subs found : good_res (add_sub_members cfg preloader r subs found).
Proof using Type.
  revert found. induction subs as [|sub subs IH]; intros found; cbn [add_sub_members]; [exact I|].
  apply good_bind; [|intros; apply IH]. unfold add_sub_member. destruct (_ && _); [exact I|].
  destruct (parse_as_number cfg (inl sub) false false) as [[? ?]|e] eqn:E; [quiet; apply routes_good|].
  by rewrite (parse_as_number_raises _ _ _ _ _ E).
Qed.
Lemma find_set_errors names limit : one_line_errors (_find_set_members cfg preloader names limit).
Proof using Type. unfold _find_set_members. quiet. apply find_members_errors. Qed.
Lemma recursive_errors calls members seen root : one_line_errors (_recursive_set_resolve cfg preloader calls members seen root).
Proof using Type.
  revert members seen root. induction calls as [|calls IH]; intros members seen root; cbn [_recursive_set_resolve];
    [by apply errors_raise|]. unfold one_level_less.
  quiet; solve [apply find_set_errors|apply add_sub_members_good|apply IH].
Qed.
Lemma as_set_errors name v excluded : one_line_errors (routes_for_as_set cfg recursion_limit preloader name v excluded).
Proof using Type. unfold routes_for_as_set, start_set. quiet; solve [apply recursive_errors|apply routes_good]. Qed.
Lemma members_errors name excluded depth recursive root :
  one_line_errors (members_for_set cfg recursion_limit preloader name excluded depth recursive root).
Proof using Type. unfold members_for_set, start_set. quiet; solve [apply recursive_errors|apply find_set_errors]. Qed.
Lemma status_errors srcs :
  one_line_errors (database_status cfg collate_lt status_query_repr isoformat status_updated d srcs).
Proof using Type. unfold database_status, trace_sql. quiet. Qed.
Lemma set_sources_errors srcs : one_line_errors (set_query_sources srcs).
Proof using Type. unfold set_query_sources, set_query_sources_of. quiet. reflexivity. Qed.

Lemma flatten_errors rows : one_line_errors (_flatten_query_output rows).
Proof using Type.
  unfold _flatten_query_output, _filter_key_fields. quiet. unfold key_fields. quiet.
Qed.

(** The commands. *)
Lemma as_error_line v why : one_line v = true → one_line why = true → one_line (exn_str (as_error v why)) = true.
Proof using Type. intros Hv Hw. unfold as_error. cbn [exn_str]. by rewrite !one_line_app, Hv, Hw. Qed.
Lemma parse_as_number_line v plain asdot e :
  one_line v = true → parse_as_number cfg (inl v) plain asdot = Raise e → one_line (exn_str e) = true.
Proof using Type.
  intros Hv. rewrite <- one_line_upper in Hv. unfold parse_as_number, as_number_part, check_as_range.
  assert (∀ why, one_line why = true → one_line (exn_str (as_error (str_upper v) why)) = true) as Herr by (intros; by apply as_error_line).
  destruct (negb plain && _); [intros [= <-]; by apply (Herr (_ +:+ _))|].
  intros He. repeat (first [progress cbn [mbind res_bind] in He | case_match]; try discriminate He;
    try (injection He as <-; solve [by apply Herr])).
Qed.
Lemma origin_errors origin v : one_line origin = true → one_line_errors (_routes_for_origin cfg preloader origin v).
Proof using Type.
  intros Ho. unfold _routes_for_origin, cleaned_origin. apply errors_bind.
  - destruct (parse_as_number cfg (inl origin) false true) as [[? ?]|e] eqn:E; [apply errors_ret|].
    apply parse_as_number_line in E; [|done]. destruct e; by apply errors_raise.
  - intros text. unfold routes_for_origin. quiet. apply routes_good.
Qed.
Lemma option_line parameter text opt :
  one_line parameter = true → address_and_option parameter = Ok (text, opt) → one_line (result_text opt) = true.
Proof using Type.
  intros Hp%(one_line_pieces ch_comma). unfold address_and_option.
  destruct (split_on ch_comma parameter) as [|a [|b [|c l]]]; try discriminate; intros [= <- <-]; [done|].
  apply Forall_cons in Hp as [_ Hp]. by apply Forall_cons in Hp as [Hb _].
Qed.
Lemma route_search_line parameter :
  one_line parameter = true → one_line_errors (handle_irrd_route_search cfg collate_lt query_repr d parameter).
Proof using Type.
  intros Hp. unfold handle_irrd_route_search. apply errors_lift_bind; [unfold address_and_option; quiet|].
  intros [text opt] Ho. apply option_line in Ho; [|done].
  destruct (ip_of 0 text); [apply errors_invalid; by rewrite one_line_app, Hp|].
  destruct (route_lookup opt); [|apply errors_invalid; by rewrite one_line_app, Ho].
  quiet; solve [apply route_search_errors|unfold origin_text; quiet|apply flatten_errors].
Qed.
Lemma message_line what text : one_line what = true → one_line text = true → one_line (what +:+ text) = true.
Proof using Type. intros Hw Ht. by rewrite one_line_app, Hw, Ht. Qed.
Lemma timeout_errors text : one_line text = true → one_line_errors (handle_irrd_timeout_update text).
Proof using Type. intros Ht. unfold handle_irrd_timeout_update. quiet; by apply message_line. Qed.
Lemma as_set_command_errors text :
  one_line_errors (handle_irrd_routes_for_as_set cfg recursion_limit preloader text).
Proof using Type.
  unfold handle_irrd_routes_for_as_set. destruct (set_and_version text) as [name v]. quiet; [reflexivity|apply as_set_errors].
Qed.
Lemma set_members_errors text : one_line_errors (handle_irrd_set_members cfg recursion_limit preloader text).
Proof using Type. unfold handle_irrd_set_members. quiet. apply members_errors. Qed.
Lemma exact_key_errors text :
  one_line text = true → one_line_errors (handle_irrd_exact_key cfg collate_lt query_repr d text).
Proof using Type.
  intros Ht. unfold handle_irrd_exact_key. quiet; [apply key_lookup_errors|apply flatten_errors|by apply message_line].
Qed.
Lemma sources_list_errors text : one_line_errors (handle_irrd_sources_list text).
Proof using Type. unfold handle_irrd_sources_list. quiet. apply set_sources_errors. Qed.
Lemma irrd_command_errors command :
  one_line command = true →
  one_line_errors (handle_irrd_command cfg collate_lt query_repr status_query_repr isoformat status_updated recursion_limit
                     json_dumps preloader d command).
Proof using Type.
  destruct command as [|c parameter]; [by intros; apply errors_invalid|]. rewrite one_line_cons, andb_true_iff.
  intros [Hc Hp]. unfold handle_irrd_command. cbv zeta. unfold searched, answered.
  destruct (_ && _); [apply errors_invalid, message_line; [done|by rewrite one_line_cons, Hc]|].
  repeat match goal with |- one_line_errors (if ?b then _ else _) => destruct b; [quiet|] end.
  - apply errors_modify.
  - apply errors_modify.
  - apply errors_modify.
  - by apply timeout_errors.
  - by apply origin_errors.
  - by apply origin_errors.
  - apply as_set_command_errors.
  - apply set_members_errors.
  - unfold handle_irrd_database_serial_range. quiet.
  - unfold handle_irrd_database_status. quiet. apply status_errors.
  - by apply exact_key_errors.
  - apply errors_resolver, errors_modify.
  - unfold handle_inverse_attr_search. quiet; [by apply attribute_search_errors|apply flatten_errors].
  - by apply route_search_line.
  - apply sources_list_errors.
  - unfold handle_irrd_set_exclusion. quiet.
  - apply errors_invalid, message_line; done.
Qed.

(** ** Queries *)

Notation handle := (handle_query cfg collate_lt uuid now query_repr status_query_repr isoformat status_updated recursion_limit
                      json_dumps client_ip preloader d).
Definition command_response (m : st WhoisQueryParser WhoisQueryResponse) (ok : WhoisQueryResponse → Prop) : Prop :=
  ∀ p, match snd (m p) with Ok r => ok r | Raise _ => True end.
Lemma response_ret r (ok : WhoisQueryResponse → Prop) : ok r → command_response (mret r) ok.
Proof using Type. by intros Hr p. Qed.
Lemma response_bind {A} (m : st WhoisQueryParser A) f ok : (∀ a, command_response (f a) ok) → command_response (m ≫= f) ok.
Proof using Type. intros Hf p. unfold mbind, st_bind. destruct (m p) as [p' [a|e]]; [apply Hf|done]. Qed.
Lemma response_raise e ok : command_response (st_raise e) ok.
Proof using Type. by intros p. Qed.
(** A client that may not mirror is refused NRTM. *)

Definition hashes_removed (r : WhoisQueryResponse) : Prop := remove_hashes r = true.
Definition no_nrtm_access : Prop :=
  ∀ source in_access_list in_unfiltered,
    nrtm_access cfg client_ip source = Ok (in_access_list, in_unfiltered) → in_access_list = false ∧ in_unfiltered = false.
Definition never_returns {A} (m : st WhoisQueryParser A) : Prop := ∀ p, ∃ e, snd (m p) = Raise e.
Lemma nrtm_request_denied param :
  no_nrtm_access → never_returns (handle_nrtm_request cfg uuid now client_ip d param).
Proof using Type.
  intros Hno p. unfold handle_nrtm_request.
  destruct (split_on ch_colon param) as [|source [|version [|range [|]]]]; try by eexists.
  destruct (parse_serial_range range) as [[first last]|]; [|by eexists]. destruct (negb _); [by eexists|].
  rewrite (st_bind_run _ _ p p p) by done. destruct (negb _); [by eexists|]. unfold mbind, st_bind, st_lift.
  destruct (nrtm_access cfg client_ip _) as [[b1 b2]|e] eqn:Ea; [|by eexists]. apply Hno in Ea as [-> ->]. by eexists.
Qed.
Lemma response_denied {A} (m : st WhoisQueryParser A) f command ok :
  never_returns m → command_response (catch_missing command m ≫= f) ok.
Proof using Type.
  intros Hm p. destruct (Hm p) as [e He]. unfold mbind, st_bind, catch_missing.
  destruct (m p) as [p' [a|e']]; [discriminate He|]. by destruct e'.
Qed.
Ltac response := repeat lazymatch goal with
  | |- ∀ _, _ => intros ?
  | |- command_response (mret _) _ => apply response_ret
  | Hno : no_nrtm_access |- command_response (catch_missing _ (handle_nrtm_request _ _ _ _ _ _) ≫= _) _ =>
      by apply response_denied, nrtm_request_denied
  | |- command_response (_ ≫= _) _ => apply response_bind
  | |- command_response (invalid _) _ => apply response_raise
  | |- command_response (missing _) _ => apply response_raise
  | |- command_response (st_raise _) _ => apply response_raise
  | |- command_response (match ?x with _ => _ end) _ => destruct x
  end.
Definition irrd_answer (r : WhoisQueryResponse) : Prop := mode r = IRRD ∧ is_error (response_type r) = false.
Lemma irrd_command_response command :
  command_response (handle_irrd_command cfg collate_lt query_repr status_query_repr isoformat status_updated recursion_limit
                     json_dumps preloader d command) irrd_answer.
Proof using Type.
  unfold handle_irrd_command, searched, answered. destruct command as [|c parameter]; [apply response_raise|]. cbv zeta.
  response; (split; [reflexivity|]); cbn; try case_match; reflexivity.
Qed.
Definition ripe_answer (r : WhoisQueryResponse) : Prop := mode r = RIPE ∧ response_type r ≠ NO_RESPONSE.
Lemma ripe_command_response query :
  command_response (handle_ripe_command cfg collate_lt uuid now query_repr client_ip d query) ripe_answer.
Proof using Type.
  unfold handle_ripe_command. generalize (split_on ch_space (strip (collapse_spaces query))) (@None string) true.
  assert (∀ n components so_far b, (length components ≤ n)%nat →
    command_response (ripe_components cfg collate_lt uuid now query_repr client_ip d components so_far b) ripe_answer) as Hall;
    [|by intros; eapply Hall].
  induction n as [|n IH]; intros components so_far b Hn; (destruct components as [|component rest]; [by apply response_ret|]).
  { simpl in Hn. lia. }
  cbn [ripe_components]. simpl in Hn. response.
  all: try (apply IH; simpl in Hn; lia).
  all: split; [reflexivity|]; cbn; try case_match; discriminate.
Qed.
Lemma respond_irrd rest p :
  one_line rest = true → framed (snd (respond IRRD
    (handle_irrd_command cfg collate_lt query_repr status_query_repr isoformat status_updated recursion_limit json_dumps
       preloader d rest) p)).
Proof using Type.
  intros Hr. pose proof (irrd_command_response rest p) as Hresp. pose proof (irrd_command_errors rest Hr p) as Herr.
  unfold respond. destruct (handle_irrd_command _ _ _ _ _ _ _ _ _ _ _ _) as [p'' [r|e]]; cbn [snd] in *.
  - destruct Hresp as [Hm He]. split; [done|]. by rewrite He.
  - destruct e; split; try done; by intros _.
Qed.
Lemma respond_ripe query p :
  ripe_answer (snd (respond RIPE (handle_ripe_command cfg collate_lt uuid now query_repr client_ip d query) p)).
Proof using Type.
  pose proof (ripe_command_response query p) as Hresp. unfold respond.
  destruct (handle_ripe_command _ _ _ _ _ _ _ _) as [p'' [r|e]]; cbn [snd] in *; [done|]. by destruct e.
Qed.
Lemma leading_user_agent_line query agent remainder :
  leading_user_agent query = Some (agent, remainder) →
  startswith "!" remainder = true ∧ (one_line query = true → one_line remainder = true).
Proof using Type.
  unfold leading_user_agent. intros Hl. repeat (case_match; try discriminate Hl). injection Hl as <- <-.
  split; [done|]. intros Hq. eapply one_line_split_once in Hq as [_ Hq]; [|done]. by eapply one_line_split_once in Hq as [_ Hq].
Qed.
(** Queries that are answered in IRRD style. *)
Definition irrd_query (query : string) : bool := startswith "!" query || bool_decide (is_Some (leading_user_agent query)).
Lemma handle_query_irrd query p : one_line query = true → irrd_query query = true → framed (snd (handle query p)).
Proof using Type.
  intros Hq Hirrd. unfold handle_query. destruct (has_char null query); [done|].
  destruct (leading_user_agent query) as [[agent remainder]|] eqn:El.
  - apply leading_user_agent_line in El as [Hs Hl]. rewrite Hs. apply respond_irrd, one_line_drop. by apply Hl.
  - unfold irrd_query in Hirrd. rewrite El, orb_false_r in Hirrd. rewrite Hirrd. by apply respond_irrd, one_line_drop.
Qed.
Lemma handle_query_renders query p : ∃ text, generate_response (snd (handle query p)) = Ok text.
Proof using Type.
  assert (∀ r, mode r = IRRD ∨ ripe_answer r → ∃ text, generate_response r = Ok text) as Hall.
  { intros r [Hm|[Hm Ht]]; unfold generate_response; rewrite Hm; destruct (response_type r); simpl; eauto; done. }
  apply Hall. unfold handle_query. destruct (has_char null query); [by left|].
  assert (∀ rest p', mode (snd (respond IRRD (handle_irrd_command cfg collate_lt query_repr status_query_repr isoformat
    status_updated recursion_limit json_dumps preloader d rest) p')) = IRRD) as Hirrd.
  { intros rest p'. pose proof (irrd_command_response rest p') as Hresp. unfold respond.
    destruct (handle_irrd_command _ _ _ _ _ _ _ _ _ _ _ _) as [p'' [r|e]]; cbn [snd] in *; [apply Hresp|by destruct e]. }
  destruct (leading_user_agent query) as [[agent remainder]|];
    (destruct (startswith "!" _); [left; apply Hirrd|right; apply respond_ripe]).
Qed.

(** ** Connections *)

(** The responses of a connection, in order. *)
Definition query_of (line : string) : string := strip (utf8_decode line).
Fixpoint responses (lines : list string) (p : WhoisQueryParser) : list WhoisQueryResponse :=
  match lines with
  | [] => []
  | line :: lines' =>
      let query := query_of line in
      if is_empty query then responses lines' p
      else if String.eqb (str_upper query) "!Q" then []
      else let '(p', r) := handle query p in r :: (if multiple_command_mode p' then responses lines' p' else [])
  end.
Definition irrd_line (line : string) : bool := is_empty (query_of line) || irrd_query (query_of line).
Lemma read_answers_cons text rest a fuel l :
  text ≠ "" → (∀ rest, read_answer (text +:+ rest) = Some (a, rest)) → read_answers fuel rest = Some l →
  read_answers (S fuel) (text +:+ rest) = Some (a :: l).
Proof using Type.
  intros Hne Hread Hl. destruct text as [|c text]; [done|]. simpl. specialize (Hread rest). simpl in Hread. rewrite Hread. simpl. by rewrite Hl.
Qed.
(** C12. Whatever lines a client sends, the connection answers without an
    exception; when they are queries in IRRD style, the client reads back
    exactly the responses, each with the data, the acknowledgement or the error
    it stands for, in the order of the queries. *)
Theorem answers_read_back lines p :
  Forall (λ line, one_line (query_of line) = true) lines →
  let '(written, e) := handle_lines cfg collate_lt uuid now query_repr status_query_repr isoformat status_updated recursion_limit
                         json_dumps client_ip preloader d lines p in
  e = Ok tt ∧ (Forall (λ line, irrd_line line = true) lines → read_all written = Some (omap view (responses lines p))).
Proof using Type.
  intros Hlines. cut (∃ written, handle_lines cfg collate_lt uuid now query_repr status_query_repr isoformat status_updated
    recursion_limit json_dumps client_ip preloader d lines p = (written, Ok tt)
    ∧ (Forall (λ line, irrd_line line = true) lines →
       ∀ fuel, (String.length written ≤ fuel)%nat → read_answers fuel written = Some (omap view (responses lines p)))).
  { intros (written & -> & Hread). split; [done|]. intros Hirrd. by apply Hread. }
  revert p. induction Hlines as [|line lines Hline Hlines IH]; intros p; cbn [handle_lines responses].
  { exists "". split; [done|]. by intros _ [|fuel]. }
  change (strip (utf8_decode line)) with (query_of line). destruct (is_empty (query_of line)) eqn:He.
  { destruct (IH p) as (written & Heq & Hread). exists written. split; [done|]. intros [_ Hirrd]%Forall_cons. by apply Hread. }
  destruct (String.eqb _ "!Q").
  { exists "". split; [done|]. by intros _ [|fuel]. }
  destruct (handle (query_of line) p) as [p' r] eqn:Er. pose proof (handle_query_renders (query_of line) p) as (text & Ht).
  rewrite Er in Ht. cbn [snd] in Ht. rewrite Ht.
  assert (irrd_line line = true → match view r with
    | Some a => text ≠ "" ∧ ∀ rest, read_answer (text +:+ rest) = Some (a, rest) | None => text = "" end) as Hview.
  { unfold irrd_line. rewrite He. intros Hi. pose proof (handle_query_irrd _ p Hline Hi) as Hf. rewrite Er in Hf.
    destruct (read_response r Hf) as (text' & Ht' & Hv). cbn [snd] in *. rewrite Ht in Ht'. by injection Ht' as <-. }
  assert (∃ later, (if multiple_command_mode p' then let '(later, e) := handle_lines cfg collate_lt uuid now query_repr
      status_query_repr isoformat status_updated recursion_limit json_dumps client_ip preloader d lines p' in (text +:+ later, e)
      else (text, Ok tt)) = (text +:+ later, Ok tt)
    ∧ (Forall (λ line, irrd_line line = true) lines → ∀ fuel, (String.length later ≤ fuel)%nat →
        read_answers fuel later = Some (omap view (if multiple_command_mode p' then responses lines p' else [])))) as (later & -> & Hlater).
  { destruct (multiple_command_mode p'); [destruct (IH p') as (later & Hl & Hread); exists later; rewrite Hl; by split|].
    exists "". rewrite str_app_nil_r. split; [done|]. by intros _ [|fuel]. }
  exists (text +:+ later). split; [done|]. intros [Hi Hirrd]%Forall_cons fuel Hfuel. specialize (Hview Hi). csimpl.
  rewrite str_length_app in Hfuel. destruct (view r) as [a|]; [|subst text; by apply Hlater].
  destruct Hview as [Hne Hread]. destruct fuel as [|fuel]; [destruct text; [done|simpl in Hfuel; lia]|].
  apply read_answers_cons; [done|done|]. apply Hlater; [done|]. destruct text; [done|simpl in Hfuel; lia].
Qed.

Lemma ripe_hashes_removed query :
  no_nrtm_access → command_response (handle_ripe_command cfg collate_lt uuid now query_repr client_ip d query) hashes_removed.
Proof using Type.
  intros Hno. unfold handle_ripe_command. generalize (split_on ch_space (strip (collapse_spaces query))) (@None string).
  assert (∀ n components so_far, (length components ≤ n)%nat →
    command_response (ripe_components cfg collate_lt uuid now query_repr client_ip d components so_far true) hashes_removed) as Hall;
    [|by intros; eapply Hall].
  induction n as [|n IH]; intros components so_far Hn; (destruct components as [|component rest]; [by apply response_ret|]).
  { simpl in Hn. lia. }
  cbn [ripe_components]. simpl in Hn. response.
  all: first [reflexivity|apply IH; simpl in Hn; lia].
Qed.
Lemma irrd_hashes_removed command :
  command_response (handle_irrd_command cfg collate_lt query_repr status_query_repr isoformat status_updated recursion_limit
                     json_dumps preloader d command) hashes_removed.
Proof using Type.
  unfold handle_irrd_command, searched, answered. destruct command as [|c parameter]; [apply response_raise|]. cbv zeta.
  response; reflexivity.
Qed.
Lemma respond_hashes m handler p : command_response handler hashes_removed → hashes_removed (snd (respond m handler p)).
Proof using Type. intros Hh. specialize (Hh p). unfold respond. destruct (handler p) as [p' [r|e]]; [done|by destruct e]. Qed.
(** C13. Every response to a client that has no access to NRTM has the password
    hashes removed from it, whatever the session and the queries. *)
Theorem hashes_only_for_mirrors lines p :
  no_nrtm_access →
  Forall (λ r, clean_response r = remove_auth_hashes <$> result r) (responses lines p).
Proof using Type.
  intros Hno. assert (∀ query p, hashes_removed (snd (handle query p))) as Hall.
  { intros query p'. unfold handle_query. destruct (has_char null query); [done|].
    destruct (leading_user_agent query) as [[agent remainder]|];
      (destruct (startswith "!" _); apply respond_hashes; [apply irrd_hashes_removed|by apply ripe_hashes_removed]). }
  revert p. induction lines as [|line lines IH]; intros p; cbn [responses]; [constructor|].
  destruct (is_empty _); [apply IH|]. destruct (String.eqb _ _); [constructor|].
  pose proof (Hall (query_of line) p) as Hr. destruct (handle (query_of line) p) as [p' r]. constructor.
  - unfold clean_response. by rewrite Hr.
  - destruct (multiple_command_mode p'); [apply IH|constructor].
Qed.
End Quiet.
