(* ===== verification/WhoisClient.v ===== *)
(** * The whois client ([irrd/utils/whois_client.py])

    What the client makes of the bytes it receives, in the pieces in which the
    socket delivers them.  Connecting and sending are not modelled; a connection
    that was made is the list of what its [recv] calls return. *)
From S2P Require Import Prelude PyStr Conf Net Text Fields.

(** One call of [recv]; after the list the peer has closed. *)
Inductive received := Chunk (data : string) | TimedOut | Broken (message : string).

(** ** Up to an end marking *)

Fixpoint read_until (end_markings : list string) (buffer : string) (events : list received) : res string :=
  if existsb (λ mark, contains mark buffer) end_markings then Ok buffer
  else match events with
       | [] | TimedOut :: _ => Ok buffer
       | Broken message :: _ => Raise (OSError message)
       | Chunk data :: events' =>
           if String.eqb data "" then Ok buffer else read_until end_markings (buffer +:+ data) events'
       end.
Definition whois_query (end_markings : list string) (events : list received) : res string :=
  buffer ← read_until (utf8_encode <$> end_markings) "" events; Ok (utf8_decode buffer).

(** ** IRRD-style responses *)

Record irrd_response := {
  ir_buffer : string;
  expected_data_length : option Z;
  data_offset : option Z;
  ir_error : option string;
}.
Definition truthy_int (o : option Z) : bool := match o with Some n => negb (n =? 0)%Z | None => false end.
Definition with_data (data : string) (r : irrd_response) : irrd_response := {|
  ir_buffer := ir_buffer r +:+ data; expected_data_length := expected_data_length r; data_offset := data_offset r;
  ir_error := ir_error r |}.
(** The first line, once it is there: the state and whether reading ends. *)
Definition read_length_line (r : irrd_response) : res (irrd_response * bool) :=
  let decoded_buffer := utf8_decode (ir_buffer r) in
  if has_char ch_nl decoded_buffer then
    let length_line := hd "" (splitlines decoded_buffer) in
    if startswith "A" length_line then
      match py_int (str_drop 1 length_line) with
      | Some n => Ok ({| ir_buffer := ir_buffer r; expected_data_length := Some n;
                         data_offset := Some (Z.of_nat (String.length length_line) + 1)%Z; ir_error := ir_error r |}, false)
      | None => Raise (ValueError "invalid literal for int() with base 10")
      end
    else if bool_decide (length_line ∈ ["C"; "D"]) then Ok (r, true)
    else if startswith "F" length_line then
      Ok ({| ir_buffer := ir_buffer r; expected_data_length := expected_data_length r; data_offset := data_offset r;
             ir_error := Some (str_drop 2 length_line) |}, true)
    else Ok (r, false)
  else Ok (r, false).
Definition all_received (r : irrd_response) : bool :=
  truthy_int (expected_data_length r) && truthy_int (data_offset r)
  && (default 0 (expected_data_length r) + default 0 (data_offset r) <? Z.of_nat (String.length (ir_buffer r)))%Z.
Fixpoint read_irrd (r : irrd_response) (events : list received) : res irrd_response :=
  match events with
  | [] | TimedOut :: _ | Broken _ :: _ => Ok r
  | Chunk data :: events' =>
      if String.eqb data "" then Ok r
      else
        let r := with_data data r in
        '(r, ended) ← (if truthy_int (expected_data_length r) then Ok (r, false) else read_length_line r);
        if (ended : bool) || all_received r then Ok r else read_irrd r events'
  end.
Definition substring (s : string) (first last : Z) : string :=
  str_take (Z.to_nat (last - first)) (str_drop (Z.to_nat first) s).
Definition irrd_result (query : string) (r : irrd_response) : res (option string) :=
  let length_known := truthy_int (expected_data_length r) in
  let expected := default 0%Z (expected_data_length r) in
  let offset := default 0%Z (data_offset r) in
  if match ir_error r with Some e => negb (String.eqb e "") | None => false end
  then Raise (WhoisQueryError (default "" (ir_error r)))
  else if negb length_known && bool_decide (ir_buffer r ∈ ["C" +:+ NL; "D" +:+ NL]) then Ok None
  else if negb length_known || negb (truthy_int (data_offset r)) then
    Raise (ValueError ("Data receiving ended without a valid IRRD-format response, query " +:+ query +:+ ",received: "
                         +:+ str_filter (λ c, (N_of_ascii c <? 128)%N) (ir_buffer r)))
  else if (Z.of_nat (String.length (ir_buffer r)) <? expected + offset)%Z then
    Raise (ValueError ("Unable to receive all expected " +:+ str_of_Z expected +:+ " bytes"))
  else Ok (Some (utf8_decode (substring (ir_buffer r) offset (expected + offset - 1)))).
Definition whois_query_irrd (query : string) (events : list received) : res (option string) :=
  let query := strip query +:+ NL in
  r ← read_irrd {| ir_buffer := ""; expected_data_length := None; data_offset := None; ir_error := None |} events;
  irrd_result query r.

(** ** The status of a source on another server *)

Definition serials_of (text : string) : res (Z * Z) :=
  match split_on "-"%char text with
  | [oldest; newest] =>
      match py_int oldest, py_int newest with
      | Some o, Some n => Ok (o, n)
      | _, _ => Raise (ValueError "invalid literal for int() with base 10")
      end
  | _ => Raise (ValueError "values to unpack (expected 2)")
  end.
(** An [IndexError] for a missing field; an empty optional field is no number. *)
Definition source_status_fields (source remote_status : string) : res (option bool * Z * Z * option Z) :=
  let fields := split_on ch_colon remote_status in
  let match_source := str_upper (hd "" fields) in
  if negb (String.eqb match_source (str_upper source)) then
    Raise (ValueError ("Received invalid source " +:+ match_source +:+ ", expecting " +:+ source +:+ ", in status: " +:+ remote_status))
  else match fields with
       | _ :: mirrorable :: serials :: rest =>
           let mirrorable := if String.eqb (str_upper mirrorable) "Y" then Some true
                             else if String.eqb (str_upper mirrorable) "N" then Some false else None in
           match split_on "-"%char serials with
           | [serial_oldest; serial_newest] =>
               export_serial ← match rest with
                               | [] => Ok None
                               | e :: _ => match py_int e with Some n => Ok (Some n)
                                           | None => Raise (ValueError "invalid literal for int() with base 10") end
                               end;
               '(oldest, newest) ← serials_of serials;
               Ok (mirrorable, oldest, newest, export_serial)
           | _ => Raise (ValueError "values to unpack (expected 2)")
           end
       | _ => Raise IndexError
       end.
Definition whois_query_source_status (source : string) (events : list received) : res (option bool * Z * Z * option Z) :=
  remote_status ← whois_query_irrd ("!j" +:+ source) events;
  match remote_status with
  | None | Some "" => Raise (ValueError "Source status query failed: empty response")
  | Some text => source_status_fields source text
  end.
