(* ===== verification/WhoisClientTheory.v ===== *)
(** * The whois client reads what the server writes

    However the bytes of a response are cut into pieces, the client of
    [whois_client.py] makes of them what the response of [query_response.py]
    stands for. *)
From S2P Require Import Prelude PyStr Conf Net Models Text Database Queries Preload QueryResolver Whois WhoisTheory WhoisClient.

(** ** Prefixes of a text *)

Lemma str_app_split a b c d : a +:+ b = c +:+ d →
  (∃ w, c = a +:+ w ∧ b = w +:+ d) ∨ (∃ w, a = c +:+ w ∧ d = w +:+ b).
Proof.
  revert c. induction a as [|x a IH]; intros c; simpl; [by left; exists c|].
  destruct c as [|y c]; simpl; [intros <-; right; by exists (String x a)|].
  intros [= -> Heq]. destruct (IH c Heq) as [(w & -> & ->)|(w & -> & ->)]; [left|right]; by exists w.
Qed.
(** What has arrived of a text that starts with a line. *)
Lemma arrived line tail buffer rest : buffer +:+ rest = line +:+ NL +:+ tail →
  (∃ w, line = buffer +:+ w) ∨ ∃ w, buffer = line +:+ NL +:+ w ∧ tail = w +:+ rest.
Proof.
  intros [(w & -> & _)|(w & -> & Hw)]%str_app_split; [left; by exists w|]. destruct w as [|x w]; [left; exists ""; by rewrite !str_app_nil_r|].
  injection Hw as <- ->. right. by exists w.
Qed.
Lemma one_line_prefix a b : one_line (a +:+ b) = true → one_line a = true.
Proof. rewrite one_line_app, andb_true_iff. by intros [? _]. Qed.
Lemma decode_no_newline s : one_line s = true → one_line (utf8_decode s) = true.
Proof.
  assert (∀ n s, (String.length s ≤ n)%nat → one_line s = true → one_line (utf8_decode s) = true) as Hall; [|by apply (Hall (String.length s))].
  assert (∀ c, N_of_ascii c <? 128 = false → one_line (byte_escape c) = true)%N as Hesc
    by (intros [[] [] [] [] [] [] [] []]; intros; try discriminate; reflexivity).
  assert (∀ c d x, two_bytes c d = Some x → one_line (String x "") = true) as Htwo.
  { intros c d x. unfold two_bytes. destruct c as [[] [] [] [] [] [] [] []]; try discriminate;
      destruct d as [[] [] [] [] [] [] [] []]; try discriminate; intros [= <-]; reflexivity. }
  clear s. induction n as [|n IH]; intros s Hn Hs; (destruct s as [|c s]; [done|simpl in Hn; try lia]).
  cbn [utf8_decode]. rewrite one_line_cons, andb_true_iff in Hs. destruct Hs as [Hc Hs].
  destruct (N_of_ascii c <? 128)%N eqn:Ec; [rewrite one_line_cons, Hc; apply IH; [lia|done]|].
  destruct s as [|d s]; [by apply Hesc|]. simpl in Hn. destruct (two_bytes c d) as [x|] eqn:Ex.
  - rewrite one_line_cons, (Htwo _ _ _ Ex). apply IH; [lia|].
    rewrite one_line_cons, andb_true_iff in Hs. by destruct Hs.
  - rewrite one_line_app, (Hesc c Ec). apply IH; [simpl; lia|done].
Qed.

(** The first line of a text. *)
Definition no_breaks (s : string) : bool := negb (str_any is_linebreak s).
Lemma no_breaks_cons c s : no_breaks (String c s) = true → is_linebreak c = false ∧ no_breaks s = true.
Proof. unfold no_breaks. cbn [str_any]. rewrite negb_orb, andb_true_iff, !negb_true_iff. done. Qed.
Lemma splitlines_first line rest : no_breaks line = true → hd "" (splitlines (line +:+ NL +:+ rest)) = line.
Proof.
  intros Hl. unfold splitlines. assert (∃ e l, splitlines_ends (line +:+ NL +:+ rest) = (line, e) :: l) as (e & l & ->); [|done].
  induction line as [|c line IH].
  { cbn [String.append NL splitlines_ends]. destruct rest as [|d rest]; [by eexists _, _|].
    rewrite bool_decide_eq_false_2 by (intros [? _]; discriminate). by eexists _, _. }
  apply no_breaks_cons in Hl as [Hc Hl]. destruct (IH Hl) as (e & l & He). exists e, l.
  cbn [String.append splitlines_ends]. rewrite Hc, He. done.
Qed.

(** ** Reading a response of one line *)

Definition start_reading : irrd_response :=
  {| ir_buffer := ""; expected_data_length := None; data_offset := None; ir_error := None |}.
Definition unread (buffer : string) : irrd_response :=
  {| ir_buffer := buffer; expected_data_length := None; data_offset := None; ir_error := None |}.
Definition chunks_of (chunks : list string) : list received := Chunk <$> chunks.
Lemma not_yet buffer : one_line buffer = true → read_length_line (unread buffer) = Ok (unread buffer, false).
Proof. intros Hb%decode_no_newline%negb_true_iff. unfold read_length_line. cbn [ir_buffer unread]. by rewrite Hb. Qed.
(** Pieces of a line are collected; [ending] is the state the whole line leads to. *)
Lemma read_one_line line ending chunks buffer :
  one_line line = true → read_length_line (unread (line +:+ NL)) = Ok (ending, true) →
  Forall (λ data, data ≠ "") chunks → buffer +:+ concat_str chunks = line +:+ NL → one_line buffer = true →
  read_irrd (unread buffer) (chunks_of chunks) = Ok ending.
Proof.
  intros Hline Hend Hne. revert buffer. induction Hne as [|data chunks Hdata _ IH]; intros buffer Htext Hbuf.
  { cbn [concat_str foldr] in Htext. rewrite str_app_nil_r in Htext. subst buffer. rewrite one_line_app, Hline in Hbuf. discriminate Hbuf. }
  cbn [chunks_of fmap list_fmap read_irrd]. apply String.eqb_neq in Hdata as ->.
  change (with_data data (unread buffer)) with (unread (buffer +:+ data)). cbn [truthy_int expected_data_length unread].
  change (concat_str (data :: chunks)) with (data +:+ concat_str chunks) in Htext. rewrite <- str_app_assoc in Htext.
  destruct (arrived line "" (buffer +:+ data) (concat_str chunks)) as [(w & Hw)|(w & Hw & Ht)]; [by rewrite str_app_nil_r| |].
  - assert (one_line (buffer +:+ data) = true) as Hb by (rewrite Hw in Hline; by apply one_line_prefix in Hline).
    change {| ir_buffer := buffer +:+ data; expected_data_length := None; data_offset := None; ir_error := None |}
      with (unread (buffer +:+ data)). rewrite not_yet by done. cbn [mbind res_bind orb]. by apply IH.
  - destruct w; [|discriminate Ht]. rewrite str_app_nil_r in Hw. rewrite Hw.
    change {| ir_buffer := line +:+ NL; expected_data_length := None; data_offset := None; ir_error := None |}
      with (unread (line +:+ NL)). rewrite Hend. done.
Qed.

(** ** Reading a response with data *)

Section Data.
Context (digits bytes : string) (n : Z).
Context (Hdigits : py_int digits = Some n) (Hascii : str_all is_ascii_char digits = true) (Hbreaks : no_breaks digits = true)
  (Hn : n = (Z.of_nat (String.length bytes) + 1)%Z).
Let line : string := "A" +:+ digits.
Let tail : string := bytes +:+ NL +:+ "C" +:+ NL.
Definition length_read (buffer : string) : irrd_response := {|
  ir_buffer := buffer; expected_data_length := Some n; data_offset := Some (Z.of_nat (String.length line) + 1)%Z; ir_error := None |}.
Lemma one_line_breaks s : no_breaks s = true → one_line s = true.
Proof using Type.
  unfold one_line. induction s as [|c s IH]; [done|]. intros [Hc Hs]%no_breaks_cons. rewrite has_char_cons, negb_orb, IH by done.
  rewrite andb_true_r. apply negb_true_iff, bool_decide_eq_false. by intros <-.
Qed.
Lemma length_line_read w : read_length_line (unread (line +:+ NL +:+ w)) = Ok (length_read (line +:+ NL +:+ w), false).
Proof using Hdigits Hascii Hbreaks.
  unfold read_length_line. cbn [ir_buffer unread]. rewrite utf8_decode_ascii by exact Hascii. change (utf8_decode (NL +:+ w)) with (NL +:+ utf8_decode w).
  assert (has_char ch_nl (line +:+ NL +:+ utf8_decode w) = true) as -> by (rewrite !has_char_app; by rewrite orb_true_r).
  rewrite splitlines_first by exact Hbreaks.
  rewrite (prefix_app "A" digits : startswith "A" line = true).
  rewrite (str_drop_app "A" digits : str_drop 1 line = digits), Hdigits. reflexivity.
Qed.
Lemma line_length_positive : truthy_int (Some n) = true ∧ truthy_int (Some (Z.of_nat (String.length line) + 1)%Z) = true.
Proof using Hn. unfold truthy_int. split; apply negb_true_iff, Z.eqb_neq; lia. Qed.
Lemma all_received_iff buffer :
  all_received (length_read buffer) = true ↔ (String.length line + 1 + String.length bytes + 1 < String.length buffer)%nat.
Proof using Hn.
  unfold all_received. cbn [expected_data_length data_offset length_read]. destruct line_length_positive as [-> ->].
  cbn [default andb]. rewrite Z.ltb_lt, Hn. simpl. split; lia.
Qed.
Definition data_there (buffer : string) : Prop := ∃ v, buffer = line +:+ NL +:+ bytes +:+ NL +:+ v.
(** The line has arrived: reading goes on until the data has. *)
Lemma read_after_line chunks w :
  Forall (λ data, data ≠ "") chunks → w +:+ concat_str chunks = tail →
  ∃ buffer, (if all_received (length_read (line +:+ NL +:+ w)) then Ok (length_read (line +:+ NL +:+ w))
             else read_irrd (length_read (line +:+ NL +:+ w)) (chunks_of chunks)) = Ok (length_read buffer) ∧ data_there buffer.
Proof using Hn.
  intros Hne. revert w. induction Hne as [|data chunks Hdata _ IH]; intros w Htext.
  { cbn [concat_str foldr] in Htext. rewrite str_app_nil_r in Htext. subst w. exists (line +:+ NL +:+ tail).
    split; [by destruct (all_received _)|]. by exists ("C" +:+ NL). }
  destruct (all_received (length_read (line +:+ NL +:+ w))) eqn:Eall.
  - exists (line +:+ NL +:+ w). split; [done|]. apply all_received_iff in Eall. rewrite !str_length_app in Eall. simpl in Eall.
    unfold tail in Htext. rewrite <- (str_app_assoc bytes NL) in Htext.
    apply str_app_split in Htext as [(u & Hu & _)|(u & -> & _)]; [|exists u; by rewrite !str_app_assoc].
    apply (f_equal String.length) in Hu. rewrite !str_length_app in Hu. simpl in Hu. lia.
  - cbn [chunks_of fmap list_fmap read_irrd]. apply String.eqb_neq in Hdata as ->.
    cbn [expected_data_length with_data length_read]. destruct line_length_positive as [-> _]. cbn [mbind res_bind orb].
    change (with_data data (length_read (line +:+ NL +:+ w))) with (length_read ((line +:+ NL +:+ w) +:+ data)).
    rewrite !str_app_assoc. apply IH. by rewrite str_app_assoc.
Qed.
Lemma read_data_chunks chunks buffer :
  Forall (λ data, data ≠ "") chunks → buffer +:+ concat_str chunks = line +:+ NL +:+ tail → (∃ w, line = buffer +:+ w) →
  ∃ buffer', read_irrd (unread buffer) (chunks_of chunks) = Ok (length_read buffer') ∧ data_there buffer'.
Proof using Hn Hdigits Hascii Hbreaks.
  intros Hne. revert buffer. induction Hne as [|data chunks Hdata Hne IH]; intros buffer Htext [u Hu].
  { cbn [concat_str foldr] in Htext. rewrite str_app_nil_r in Htext.
    pose proof (f_equal String.length Htext) as L1. pose proof (f_equal String.length Hu) as L2.
    rewrite str_length_app in L1, L2. rewrite str_length_app in L1. change (String.length NL) with 1%nat in L1. lia. }
  cbn [chunks_of fmap list_fmap read_irrd]. apply String.eqb_neq in Hdata as ->.
  change (with_data data (unread buffer)) with (unread (buffer +:+ data)). cbn [truthy_int expected_data_length unread].
  change {| ir_buffer := buffer +:+ data; expected_data_length := None; data_offset := None; ir_error := None |}
    with (unread (buffer +:+ data)).
  change (concat_str (data :: chunks)) with (data +:+ concat_str chunks) in Htext. rewrite <- str_app_assoc in Htext.
  destruct (arrived line tail (buffer +:+ data) (concat_str chunks) Htext) as [[v Hv]|(w & -> & Hw)].
  - rewrite not_yet by (apply one_line_prefix with v; rewrite <- Hv; apply one_line_breaks; exact Hbreaks).
    cbn [mbind res_bind orb]. apply IH; [done|by exists v].
  - rewrite length_line_read. cbn [mbind res_bind orb]. apply read_after_line; [done|by symmetry].
Qed.
Lemma data_result query buffer : data_there buffer → irrd_result query (length_read buffer) = Ok (Some (utf8_decode bytes)).
Proof using Hn.
  intros [v ->]. unfold irrd_result. cbn [ir_error expected_data_length data_offset ir_buffer length_read].
  destruct line_length_positive as [-> ->]. cbn [negb orb andb default]. unfold id.
  assert ((Z.of_nat (String.length (line +:+ NL +:+ bytes +:+ NL +:+ v)) <? n + (Z.of_nat (String.length line) + 1))%Z = false) as ->.
  { apply Z.ltb_ge. rewrite !str_length_app. simpl. lia. }
  do 3 f_equal. unfold substring. rewrite <- (str_app_assoc line NL).
  replace (Z.to_nat (Z.of_nat (String.length line) + 1)) with (String.length (line +:+ NL)) by (rewrite str_length_app; simpl; lia).
  rewrite str_drop_app.
  replace (Z.to_nat _) with (String.length bytes) by lia. apply substring_app.
Qed.
End Data.

(** ** Responses *)

(** What the client makes of an answer. *)
Definition client_result (a : answer) : res (option string) :=
  match a with
  | Data text => Ok (Some text)
  | Acknowledged | NotFound => Ok None
  | Failed message => Raise (WhoisQueryError message)
  end.
Lemma digits_ascii n : (0 ≤ n)%Z → str_all is_ascii_char (str_of_Z n) = true ∧ no_breaks (str_of_Z n) = true.
Proof.
  intros Hn%str_of_Z_digits. split; [|unfold no_breaks; rewrite str_any_all, negb_involutive]; revert Hn;
    apply str_all_mono; intros [[] [] [] [] [] [] [] []]; intros; try discriminate; reflexivity.
Qed.
Lemma read_data query text chunks :
  Forall (λ data, data ≠ "") chunks →
  concat_str chunks = "A" +:+ str_of_Z (Z.of_nat (String.length (utf8_encode text)) + 1) +:+ NL +:+ utf8_encode text +:+ NL +:+ "C" +:+ NL →
  whois_query_irrd query (chunks_of chunks) = Ok (Some text).
Proof.
  intros Hne Htext. set (n := (Z.of_nat (String.length (utf8_encode text)) + 1)%Z) in Htext.
  destruct (digits_ascii n) as [Hascii Hbreaks]; [lia|].
  destruct (read_data_chunks (str_of_Z n) (utf8_encode text) n) with (chunks := chunks) (buffer := "") as (buffer & Hread & Hthere);
    [apply py_int_str_of_Z; lia|done|done|done|done|by rewrite !str_app_assoc|by eexists|].
  unfold whois_query_irrd. change {| ir_buffer := ""; expected_data_length := None; data_offset := None; ir_error := None |} with (unread "").
  rewrite Hread. cbn [mbind res_bind]. rewrite data_result with (bytes := utf8_encode text); [by rewrite utf8_decode_encode|done|done].
Qed.
Lemma read_line_result query line ending chunks :
  one_line line = true → read_length_line (unread (line +:+ NL)) = Ok (ending, true) →
  Forall (λ data, data ≠ "") chunks → concat_str chunks = line +:+ NL →
  whois_query_irrd query (chunks_of chunks) = irrd_result (strip query +:+ NL) ending.
Proof.
  intros Hl Hend Hne Htext. unfold whois_query_irrd.
  change {| ir_buffer := ""; expected_data_length := None; data_offset := None; ir_error := None |} with (unread "").
  by rewrite (read_one_line line ending).
Qed.
Lemma failed_line m : one_line m = true → no_breaks m = true →
  read_length_line (unread (utf8_encode ("F " +:+ m +:+ NL)))
  = Ok ({| ir_buffer := utf8_encode ("F " +:+ m +:+ NL); expected_data_length := None; data_offset := None; ir_error := Some m |}, true).
Proof.
  intros Hl Hb. unfold read_length_line. cbn [ir_buffer unread expected_data_length data_offset]. rewrite utf8_decode_encode.
  assert (has_char ch_nl ("F " +:+ m +:+ NL) = true) as -> by (rewrite !has_char_app; by rewrite !orb_true_r).
  assert (hd "" (splitlines ("F " +:+ m +:+ NL)) = "F " +:+ m) as ->.
  { rewrite <- (str_app_assoc "F " m). rewrite <- (str_app_nil_r NL). by apply (splitlines_first ("F " +:+ m) ""). }
  assert (str_drop 2 ("F " +:+ m) = m) as Hd by exact (str_drop_app "F " m).
  change (startswith "A" ("F " +:+ m)) with false. cbv iota. rewrite bool_decide_eq_false_2.
  - rewrite Hd. reflexivity.
  - intros [E|[E|[]%elem_of_nil]%elem_of_cons]%elem_of_cons; discriminate E.
Qed.
(** The client understands a response as what it stands for. *)
Lemma client_reads_response r a query chunks :
  framed r → view r = Some a → (∀ m, a = Failed m → m ≠ "" ∧ no_breaks m = true) →
  Forall (λ data, data ≠ "") chunks → generate_response r = Ok (concat_str chunks) →
  whois_query_irrd query (chunks_of chunks) = client_result a.
Proof.
  intros [Hmode Herr] Hview Hfailed Hne. unfold generate_response, view in *. rewrite Hmode.
  assert (is_error (response_type r) = true → a = Failed (result_text (clean_response r)) →
    concat_str chunks = utf8_encode ("F " +:+ result_text (clean_response r) +:+ NL) →
    whois_query_irrd query (chunks_of chunks) = client_result a) as Hfail.
  { intros He -> Htext. destruct (Hfailed _ eq_refl) as [Hm Hb]. assert (one_line (result_text (clean_response r)) = true) as Hl by auto using clean_line.
    pose proof (failed_line _ Hl Hb) as Hend. rewrite utf8_encode_app, utf8_encode_app in Hend, Htext.
    rewrite <- (str_app_assoc (utf8_encode "F ")) in Hend, Htext.
    rewrite (read_line_result query _ _ chunks) with (2 := Hend) (4 := Htext); [|by rewrite one_line_app, !one_line_encode, Hl|done].
    unfold irrd_result. cbn [ir_error default]. apply String.eqb_neq in Hm. by rewrite Hm. }
  destruct (response_type r); cbn [_generate_response_irrd].
  - destruct (truthy_text (clean_response r)); injection Hview as <-; intros [= Htext].
    + apply read_data; [done|]. rewrite <- Htext. reflexivity.
    + rewrite (read_line_result query "C" (unread ("C" +:+ NL))); done.
  - injection Hview as <-. intros [= Htext]. by apply Hfail.
  - injection Hview as <-. intros [= Htext]. by apply Hfail.
  - injection Hview as <-. intros [= Htext]. rewrite (read_line_result query "D" (unread ("D" +:+ NL))); done.
  - discriminate Hview.
Qed.

Section Composition.
Context `{IPyLib} (cfg : configuration) (collate_lt : string → string → bool) (uuid : nat → string) (now : Z).
Context (query_repr : query → string) (status_query_repr : list string → string).
Context (isoformat : Z → string) (status_updated : status_row → Z) (recursion_limit : nat).
Context (json_dumps : list (string * list (string * pyval)) → string).
Context (client_ip : string) (preloader : memory) (d : database).

(** C11. Client and server together: whatever the session and the IRRD-style query,
    and whatever pieces the network makes of the bytes that the server writes,
    the client returns the data of the server's response, nothing when there is
    none, or raises its error message. *)
Theorem client_understands_server query p a chunks :
  one_line query = true → irrd_query query = true →
  let r := snd (handle_query cfg collate_lt uuid now query_repr status_query_repr isoformat status_updated recursion_limit
                  json_dumps client_ip preloader d query p) in
  view r = Some a → (∀ m, a = Failed m → m ≠ "" ∧ no_breaks m = true) →
  Forall (λ data, data ≠ "") chunks → generate_response r = Ok (concat_str chunks) →
  whois_query_irrd query (chunks_of chunks) = client_result a.
Proof using Type.
  intros Hq Hirrd r Hview Hfailed Hne Htext. apply (client_reads_response r); [|done..]. by apply handle_query_irrd.
Qed.
End Composition.
