(* ===== verification/WhoisExamples.v ===== *)
(** * Whois sessions on a concrete database *)
From S2P Require Import Prelude PyStr Conf Net Models Text Database DatabaseHandler Queries Preload PreloadExamples QueryResolver Whois WhoisTheory WhoisClient WhoisClientTheory.

Module WhoisExamples.
Import ConcreteIP PreloadExamples.

(** A source with a journal, that clients of [192.0.2.0/24] may mirror, with
    password hashes removed. *)
Definition whois_conf : configuration :=
  conf_of (VDict [("sources", VDict [("TEST", VDict [("keep_journal", VBool true); ("nrtm_access_list", VStr "mirrors")])]);
                  ("access_lists", VDict [("mirrors", VList [VStr "192.0.2.0/24"])])]).
Definition maintainer : rpsl_row := {|
  r_pk := "1"; r_rpsl_pk := "M-MNT"; r_source := "TEST"; r_object_class := "mntner";
  r_parsed_data := list_to_map [("mntner", PStr "M-MNT"); ("mnt-by", PList ["M-MNT"])];
  r_object_text := "mntner:         M-MNT" +:+ NL +:+ "auth:           MD5-PW $1$secret" +:+ NL;
  r_ip_version := None; r_ip_first := None; r_ip_last := None; r_ip_size := None; r_prefix := None;
  r_prefix_length := None; r_asn_first := None; r_asn_last := None; r_rpki_status := rpki_not_found;
  r_scopefilter_status := in_scope; r_route_preference_status := rp_visible; r_created := 0; r_updated := 0 |}.
Definition whois_db : database := {|
  db_objects := [maintainer]; db_suspended := []; db_journal := [];
  db_status := [{| s_source := "TEST";
    s_serials := {| serial_oldest_seen := Some 5%Z; serial_newest_seen := Some 6%Z; serial_oldest_journal := Some 5%Z;
                    serial_newest_journal := Some 6%Z; serial_last_export := None; serial_newest_mirror := None |};
    s_nrtm4_client := client_status_none; s_nrtm4_server := server_status_none; s_force_reload := false;
    s_synchronised_serials := false; s_last_error := None; s_last_error_timestamp := None; s_rpsl_data_updated := 0 |}];
  db_roas := []; db_protected := []; db_next_uuid := 10; db_next_global := 7 |}.
Definition whois_memory : memory := {|
  _origin_route4_store := [("TEST", [("AS1", "192.0.2.0/24,198.51.100.0/24")])]; _origin_route6_store := [];
  _as_set_store := []; _route_set_store := [] |}.
Definition no_repr {A} (_ : A) : string := "".
Definition lines_from (client_ip : string) (lines : list string) : string * res unit :=
  handle_lines whois_conf code_point (λ n, str_of_Z (Z.of_nat n)) 0 no_repr no_repr no_repr (λ _, 0%Z) 100 no_repr client_ip
    whois_memory whois_db lines (WhoisQueryParser_init whois_conf).
Definition responses_to (client_ip : string) (lines : list string) : list WhoisQueryResponse :=
  responses whois_conf code_point (λ n, str_of_Z (Z.of_nat n)) 0 no_repr no_repr no_repr (λ _, 0%Z) 100 no_repr client_ip
    whois_memory whois_db lines (WhoisQueryParser_init whois_conf).

Definition irrd_session : list string :=
  ["!!" +:+ NL; "!gAS1" +:+ NL; "!t5" +:+ NL; "!gAS2" +:+ NL; "!xyz" +:+ NL; "!mmntner,M-MNT" +:+ NL; "!q" +:+ NL; "!v"].
Lemma answers_read_back_witness :
  Forall (λ line, one_line (query_of line) = true) irrd_session ∧ Forall (λ line, irrd_line line = true) irrd_session ∧
  (let '(written, e) := lines_from "198.51.100.1" irrd_session in
   e = Ok tt ∧ (Forall (λ line, irrd_line line = true) irrd_session →
                read_all written = Some (omap view (responses_to "198.51.100.1" irrd_session)))).
Proof.
  assert (Forall (λ line, one_line (query_of line) = true) irrd_session) as Hlines by (repeat constructor).
  split; [exact Hlines|]. split; [repeat constructor|].
  exact (answers_read_back whois_conf code_point (λ n, str_of_Z (Z.of_nat n)) 0 no_repr no_repr no_repr (λ _, 0%Z) 100 no_repr
    "198.51.100.1" whois_memory whois_db irrd_session (WhoisQueryParser_init whois_conf) Hlines).
Defined.
Example irrd_session_answers :
  omap view (responses_to "198.51.100.1" irrd_session)
  = [Data "192.0.2.0/24 198.51.100.0/24"; Acknowledged; NotFound; Failed "Unrecognised command: x";
     Data ("mntner:         M-MNT" +:+ NL +:+ "auth:           MD5-PW DummyValue  # Filtered for security")].
Proof. vm_compute. reflexivity. Qed.

Definition response_to (query : string) : WhoisQueryResponse :=
  snd (handle_query whois_conf code_point (λ n, str_of_Z (Z.of_nat n)) 0 no_repr no_repr no_repr (λ _, 0%Z) 100 no_repr
         "198.51.100.1" whois_memory whois_db query (WhoisQueryParser_init whois_conf)).
(** An answer cut within its length line and within its data. *)
Lemma client_understands_server_witness :
  let chunks := ["A"; "29" +:+ NL +:+ "192.0.2.0/2"; "4 198.51.100.0/24" +:+ NL; "C" +:+ NL] in
  generate_response (response_to "!gAS1") = Ok (concat_str chunks) ∧
  whois_query_irrd "!gAS1" (chunks_of chunks) = Ok (Some "192.0.2.0/24 198.51.100.0/24").
Proof.
  intros chunks. assert (generate_response (response_to "!gAS1") = Ok (concat_str chunks)) as Htext by (vm_compute; reflexivity).
  split; [exact Htext|].
  refine (client_understands_server whois_conf code_point (λ n, str_of_Z (Z.of_nat n)) 0 no_repr no_repr no_repr (λ _, 0%Z) 100
    no_repr "198.51.100.1" whois_memory whois_db "!gAS1" (WhoisQueryParser_init whois_conf)
    (Data "192.0.2.0/24 198.51.100.0/24") chunks eq_refl eq_refl _ _ _ Htext).
  - vm_compute. reflexivity.
  - discriminate.
  - repeat constructor; discriminate.
Defined.
(** The status of a source without serials, as the server writes it, is no status
    to the client. *)
Example status_without_serials :
  view (response_to "!jTEST") = Some (Data "TEST:Y:-") ∧
  whois_query_source_status "TEST" [Chunk ("A9" +:+ NL +:+ "TEST:Y:-" +:+ NL +:+ "C" +:+ NL)]
  = Raise (ValueError "invalid literal for int() with base 10").
Proof. split; vm_compute; reflexivity. Qed.

(** Without settings nobody may mirror. *)
Lemma no_settings name : get_setting (conf_of VNone) name = VNone.
Proof.
  unfold get_setting, setting_value. simpl. unfold dotted_get.
  destruct (split_on "."%char name) as [|k l] eqn:E; [by apply split_on_nonempty in E|done].
Qed.
Lemma nobody_mirrors client_ip : no_nrtm_access (conf_of VNone) client_ip.
Proof.
  intros source a b. unfold nrtm_access, is_client_permitted. destruct (String.eqb client_ip _); [discriminate|].
  destruct (ip_of 0 client_ip); [by intros [= <- <-]|]. rewrite !no_settings. by intros [= <- <-].
Qed.
Lemma hashes_only_for_mirrors_witness :
  Forall (λ r, clean_response r = remove_auth_hashes <$> result r)
    (responses (conf_of VNone) code_point (λ n, str_of_Z (Z.of_nat n)) 0 no_repr no_repr no_repr (λ _, 0%Z) 100 no_repr
       "198.51.100.1" whois_memory whois_db ["M-MNT"] (WhoisQueryParser_init (conf_of VNone))).
Proof.
  exact (hashes_only_for_mirrors (conf_of VNone) code_point (λ n, str_of_Z (Z.of_nat n)) 0 no_repr no_repr no_repr (λ _, 0%Z) 100
    no_repr "198.51.100.1" whois_memory whois_db ["M-MNT"] (WhoisQueryParser_init (conf_of VNone)) (nobody_mirrors _)).
Defined.

(** ** What sessions show *)

(** [-g] does not end a query, and switches the removal of hashes off for all of
    it: a client that may mirror without hashes reads them with a search. *)
Example nrtm_search_shows_hashes :
  nrtm_access whois_conf "192.0.2.1" "TEST" = Ok (true, false) ∧
  lines_from "192.0.2.1" ["M-MNT"]
  = ("mntner:         M-MNT" +:+ NL +:+ "auth:           MD5-PW DummyValue  # Filtered for security" +:+ NL +:+ NL +:+ NL, Ok tt) ∧
  lines_from "192.0.2.1" ["-g TEST:3:7-LAST M-MNT"]
  = ("mntner:         M-MNT" +:+ NL +:+ "auth:           MD5-PW $1$secret" +:+ NL +:+ NL +:+ NL, Ok tt).
Proof. split_and!; vm_compute; reflexivity. Qed.
(** Two options of a route search end in an internal error. *)
Example route_options_unpacked :
  lines_from "198.51.100.1" ["!r192.0.2.0/24,o,l"] = ("F " +:+ internal_error +:+ NL, Ok tt).
Proof. vm_compute. reflexivity. Qed.
(** The classes of [-T] stay in force after a query that fails before it
    searches, and restrict the next one. *)
Example class_filter_outlives_query :
  omap view (responses_to "198.51.100.1" ["!!"; "!mmntner,M-MNT"]) ≠ [NotFound] ∧
  omap view (responses_to "198.51.100.1" ["!!"; "-T route -x invalid"; "!mmntner,M-MNT"])
  = [Failed "Invalid input for route search: invalid"; NotFound].
Proof. split; [vm_compute; discriminate|vm_compute; reflexivity]. Qed.
End WhoisExamples.
