(* ===== verification/MirrorRuns.v ===== *)
(** * Mirror runs ([irrd/mirroring/mirror_runners_import.py])

    One run of each importing runner, on a new database handler, as the scheduler
    starts them: from configuration, retrieval and the mirrored server to the
    commit, the messages published after it, and what becomes of an exception.
    The transports, Redis and the mailer are parameters. *)
From S2P Require Import Prelude PyStr Conf Net Models Text Rpki ScopeFilter Fields RpslObjects RpslParser Queries RoutePref Database DatabaseHandler Nrtm Importers RoaImport Retrieval Nrtm4 Nrtm4Client WhoisClient.

(** ** Reading a file as text *)

(** The universal newlines of [open]: every line break is a line feed. *)
Fixpoint universal_newlines (s : string) : string :=
  match s with
  | "" => ""
  | String c s' =>
      if bool_decide (c = ch_cr) then
        match s' with
        | String d s'' => if bool_decide (d = ch_nl) then String ch_nl (universal_newlines s'') else String ch_nl (universal_newlines s')
        | "" => String ch_nl ""
        end
      else String c (universal_newlines s')
  end.
(** The lines that iterating over the file gives, with their line feeds. *)
Fixpoint lines_of (s : string) : list string :=
  match s with
  | "" => []
  | String c s' =>
      if bool_decide (c = ch_nl) then NL :: lines_of s'
      else match lines_of s' with
           | line :: lines => if bool_decide (s' = "") then [String c ""] else String c line :: lines
           | [] => [String c ""]
           end
  end.
(** [open(filename, encoding="utf-8", errors="backslashreplace")] on the bytes of the file. *)
Definition file_lines (data : string) : list string := lines_of (universal_newlines (utf8_decode data)).

Section MirrorRuns.
Context `{IPyLib} `{Radix node_data} `{redis : Redis} `{Datrie (list roa_tuple)} `{!IPSetLib} (cfg : configuration).
Context (cidr_text : cidr → string) (collate_lt : string → string → bool).
Context (uuid : nat → string) (timestamp_text : Z → string).
Context (gpg_import_keys : string → list string * option string) (gpg_uids : string → list string).
(** [retrieve_file], for contents and for the bytes of a file ([Retrieval.v]). *)
Context (retrieve_text : string → res string) (retrieve_data : string → option string → res string).
(** What a connection to the host and port receives after sending the query, or
    the exception of connecting and sending. *)
Context (connect : string → Z → string → res (list received)).
(** [publish_rpsl_full_reload] for a source. *)
Context (publish_rpsl_full_reload : string → res unit).
(** The parameters of the NRTMv4 client ([Nrtm4Client.v]). *)
Context (json_loads : string → string + pyval) (repr : pyval → string).
Context (read_unf : string → string + NRTM4UpdateNotificationFile).
Context (read_header : nrtm4_header_type → pyval → string + NRTM4Header).
Context (eckey_error : string → option string) (jws_deserialize : string → string → string + string).
(** The order in which Python iterates over sets. *)
Context (set_order : list string → list string) (obj_order : list RPSLObject → list RPSLObject).

(** ** The stream of updates *)

Definition DEFAULT_SOURCE_NRTM_PORT : string := "43".
Definition DEFAULT_SOURCE_NRTM3_CLIENT_TIMEOUT : Z := 15.
Definition source_setting_default (source key : string) (default : pyval) : pyval :=
  get_setting_default cfg ("sources." +:+ source +:+ "." +:+ key) default.
Definition end_markings (source : string) : list string :=
  [ NL +:+ "%END " +:+ source +:+ NL; NL +:+ "% END " +:+ source +:+ NL; NL +:+ "%ERROR"; NL +:+ "% ERROR";
    NL +:+ "% Warning: there are no newer updates available";
    NL +:+ "% Warning (1): there are no newer updates available" ].
Definition nrtm_query (source : string) (serial_start : Z) : string :=
  "-g " +:+ source +:+ ":3:" +:+ str_of_Z serial_start +:+ "-LAST".
(** [NRTMImportUpdateStreamRunner.run]. *)
Definition stream_run (source : string) (serial_newest_mirror : Z) : M unit :=
  let nrtm_host := source_setting cfg source "nrtm_host" in
  nrtm_port ← st_lift (int_py (source_setting_default source "nrtm_port" (VStr DEFAULT_SOURCE_NRTM_PORT)));
  if negb (truthy nrtm_host) then mret tt
  else
    _ ← st_lift (int_py (source_setting_default source "nrtm3_client_timeout" (VInt DEFAULT_SOURCE_NRTM3_CLIENT_TIMEOUT)));
    events ← st_lift (connect (pyval_str nrtm_host) nrtm_port (nrtm_query source (serial_newest_mirror + 1)));
    response ← st_lift (whois_query (end_markings source) events);
    update_stream_run cfg uuid timestamp_text gpg_import_keys gpg_uids source response.

(** ** The full import *)

Definition import_sources_of (source : string) : list string :=
  match source_setting cfg source "import_source" with VStr s => [s] | v => pyval_strs v end.
Definition bulk_validator_from_db : M (option BulkRouteROAValidator) :=
  if truthy (get_setting cfg "rpki.roa_source") then
    b ← query_database cfg uuid (λ d, BulkRouteROAValidator_init cidr_text cfg (db_roas d) None);
    b ← st_lift b; mret (Some b)
  else mret None.
(** One [MirrorFileImportParser] for each file. *)
Definition import_file (source : string) (roa_validator : option BulkRouteROAValidator) (data : string) : M unit :=
  p ← st_lift (import_parser_init cfg source false roa_validator);
  _ ← run_import cfg uuid timestamp_text gpg_import_keys gpg_uids p None (file_lines data);
  mret tt.
Definition full_import_body (source : string) (import_serial : option Z) : M unit :=
  _ ← delete_all_rpsl_objects_with_journal cfg uuid source false;
  import_data ← st_lift (res_map (λ url, retrieve_data url None) (import_sources_of source));
  roa_validator ← bulk_validator_from_db;
  _ ← disable_journaling;
  _ ← st_iter (import_file source roa_validator) import_data;
  match import_serial with
  | Some n => if (n =? 0)%Z then mret tt else record_serial_newest_mirror source n
  | None => mret tt
  end.
(** [RPSLMirrorFullImportRunner.run]. *)
Definition full_import_run (source : string) (serial_newest_mirror : option Z) (force_reload : bool) : M unit :=
  match import_sources_of source with
  | [] => mret tt
  | _ =>
      let import_serial_source := source_setting cfg source "import_serial_source" in
      if truthy import_serial_source then
        text ← st_lift (retrieve_text (pyval_str import_serial_source));
        import_serial ← st_lift (int_py (VStr text));
        if negb force_reload && match serial_newest_mirror with Some n => (import_serial <=? n)%Z | None => false end
        then mret tt
        else full_import_body source (Some import_serial)
      else full_import_body source None
  end.

(** ** The run for one source *)

Definition _status (source : string) : M (option Z * bool) :=
  status ← query_database cfg uuid (status_of (str_upper source));
  mret match status with
       | Some s => (serial_newest_mirror (s_serials s), s_force_reload s)
       | None => (None, false)
       end.
(** Whether everything was loaded again. *)
Definition run_full_or_nrtm3_import (source : string) : M bool :=
  '(serial_newest_mirror, force_reload) ← _status source;
  let nrtm_enabled := truthy (source_setting cfg source "nrtm_host") in
  match serial_newest_mirror with
  | Some n =>
      if force_reload || (n =? 0)%Z || negb nrtm_enabled
      then _ ← full_import_run source serial_newest_mirror force_reload; mret true
      else _ ← stream_run source n; mret false
  | None => _ ← full_import_run source None force_reload; mret true
  end.
Definition nrtm4_client_run (source : string) : M bool :=
  c ← NRTM4Client_init cfg uuid source;
  run_client cfg uuid timestamp_text cidr_text gpg_import_keys gpg_uids retrieve_text retrieve_data
    json_loads read_unf read_header eckey_error jws_deserialize repr c false.
Definition import_body (source : string) : M bool :=
  if truthy (source_setting cfg source "nrtm4_client_notification_file_url")
  then nrtm4_client_run source else run_full_or_nrtm3_import source.

(** What is logged at the end of a run. *)
Inductive run_log := run_done | nrtm4_client_error (msg : string) | io_error (msg : string) | run_error (e : exn).
Definition failure_log (e : exn) : run_log :=
  match e with OSError msg => io_error msg | e => run_error e end.
(** A run: the handler when it is closed, which rolls back what is not
    committed; the result, if there is one; and the log. *)
Definition run_result {A} (m : M A) (h : handler) : handler * option A * run_log :=
  match m h with
  | (h', Ok a) => (h', Some a, run_done)
  | (h', Raise e) => (h', None, failure_log e)
  end.
(** The body in its [try], up to the messages published. *)
Definition mirror_attempt (source : string) : M (list string) :=
  full_reload ← import_body source;
  _ ← commit cfg collate_lt uuid;
  if full_reload : bool then _ ← st_lift (publish_rpsl_full_reload source); mret [source] else mret [].
(** [RPSLMirrorImportUpdateRunner.run]. *)
Definition mirror_run (source : string) (h : handler) : handler * option (list string) * run_log :=
  match mirror_attempt source h with
  | (h', Raise (NRTM4ClientError msg)) =>
      ((record_mirror_error source msg h').1, None, nrtm4_client_error msg)
  | _ => run_result (mirror_attempt source) h
  end.

(** ** The other runners *)

Definition roa_attempt : M (list email_message) :=
  _ ← disable_journaling;
  roa_objs ← _import_roas cfg uuid json_loads repr (λ url, retrieve_data url None);
  _ ← commit cfg collate_lt uuid;
  _ ← enable_journaling;
  validator ← query_database cfg uuid (λ d, BulkRouteROAValidator_init cidr_text cfg (db_roas d) (Some roa_objs));
  validator ← st_lift validator;
  changes ← query_database cfg uuid (λ d, validate_all_routes validator (db_objects d) None);
  '(now_valid, now_invalid, now_not_found) ← st_lift changes;
  _ ← update_rpki_status cfg now_valid now_invalid now_not_found;
  _ ← commit cfg collate_lt uuid;
  notify_rpki_invalid_owners cfg collate_lt uuid gpg_import_keys gpg_uids set_order obj_order now_invalid.
(** [ROAImportRunner.run], with the messages for the mailer. *)
Definition roa_run : handler → handler * option (list email_message) * run_log := run_result roa_attempt.

Definition scopefilter_attempt : M unit :=
  validator ← st_lift (load_filters cfg);
  status ← query_database cfg uuid (λ d, validate_all_rpsl_objects cfg validator (db_objects d));
  '(now_in_scope, now_out_as, now_out_prefix) ← st_lift status;
  _ ← update_scopefilter_status cfg now_in_scope now_out_as now_out_prefix;
  commit cfg collate_lt uuid.
(** [ScopeFilterUpdateRunner.run]. *)
Definition scopefilter_run : handler → handler * option unit * run_log := run_result scopefilter_attempt.

Definition routepref_attempt : M unit :=
  changes ← query_database cfg uuid (λ d, RoutePref.update_route_preference_status cfg collate_lt (db_objects d) []);
  '(now_visible, now_suppressed) ← st_lift changes;
  _ ← (if any_source_preference cfg then update_route_preference_status cfg now_visible now_suppressed else mret tt);
  commit cfg collate_lt uuid.
(** [RoutePreferenceUpdateRunner.run]. *)
Definition routepref_run : handler → handler * option unit * run_log := run_result routepref_attempt.
End MirrorRuns.
