(* ===== verification/MirrorRunsTheory.v ===== *)
(** * What mirror runs leave behind

    Until its first commit a run changes nothing that others see, whatever
    retrieval, the mirrored server and the data do; a run that keeps a journal
    and fails has changed nothing at all. *)
From S2P Require Import Prelude PyStr Conf Net Models Text Rpki ScopeFilter Fields RpslObjects RpslParser Queries RoutePref Database DatabaseHandler StorageTheory JournalTheory RpkiTheory RoutePrefTheory Nrtm TransactionTheory Importers RoaImport Retrieval Nrtm4 Nrtm4Client WhoisClient MirrorRuns.

(** A step that never commits. *)
Lemma durable_committed `{IPyLib} {A} (m : M A) : fixes durable m → fixes h_committed m.
Proof. intros Hm h. exact (f_equal fst (Hm h)). Qed.
#[export] Hint Extern 3 (fixes h_committed _) => (apply durable_committed; solve [auto with fixes]) : fixes.
#[export] Hint Extern 1 (fixes h_committed (modify _)) => (apply fixes_modify; reflexivity) : fixes.

Section MirrorRuns.
Context `{IPyLib} `{Radix node_data} `{redis : Redis} `{Datrie (list roa_tuple)} `{!IPSetLib} (cfg : configuration).
Context (cidr_text : cidr → string) (collate_lt : string → string → bool).
Context (uuid : nat → string) (timestamp_text : Z → string).
Context (gpg_import_keys : string → list string * option string) (gpg_uids : string → list string).
Context (retrieve_text : string → res string) (retrieve_data : string → option string → res string).
Context (connect : string → Z → string → res (list received)).
Context (publish_rpsl_full_reload : string → res unit).
Context (json_loads : string → string + pyval) (repr : pyval → string).
Context (read_unf : string → string + NRTM4UpdateNotificationFile).
Context (read_header : nrtm4_header_type → pyval → string + NRTM4Header).
Context (eckey_error : string → option string) (jws_deserialize : string → string → string + string).
Context (set_order : list string → list string) (obj_order : list RPSLObject → list RPSLObject).
Notation stays := (fixes durable).
Notation uncommitted := (fixes h_committed).

(** ** The parts of a run *)

Lemma newest_mirror_stays src n : stays (record_serial_newest_mirror src n).
Proof using Type. unfold record_serial_newest_mirror. fixes_tac. Qed.
Lemma serial_seen_stays src n : stays (record_serial_seen src n).
Proof using Type. unfold record_serial_seen. fixes_tac. Qed.
Lemma client_status_stays src s : stays (record_nrtm4_client_status src s).
Proof using Type. unfold record_nrtm4_client_status. fixes_tac. Qed.
Lemma mirror_error_stays src msg : stays (record_mirror_error src msg).
Proof using Type. unfold record_mirror_error. fixes_tac. Qed.
Lemma journaling_uncommitted b : uncommitted (set_journaling b).
Proof using Type. unfold set_journaling. fixes_tac. Qed.
Lemma delete_all_stays src b : stays (delete_all_rpsl_objects_with_journal cfg uuid src b).
Proof using Type. unfold delete_all_rpsl_objects_with_journal, all_object_classes_updated. fixes_tac. Qed.
Lemma delete_stays jo pk src cls serial p : stays (delete_rpsl_object cfg uuid jo pk src cls serial p).
Proof using Type. unfold delete_rpsl_object, record_operation_from_rpsl_dict, object_modified_dict, object_modified. fixes_tac. Qed.
Hint Resolve newest_mirror_stays serial_seen_stays client_status_stays mirror_error_stays journaling_uncommitted delete_all_stays delete_stays : fixes.

Lemma add_object_stays op o : stays (add_object cfg uuid timestamp_text op o).
Proof using Type. unfold add_object, operation_rpki_status, operation_scope_status. fixes_tac. Qed.
Hint Resolve add_object_stays : fixes.
Lemma save_stays op : stays (save cfg uuid timestamp_text gpg_import_keys gpg_uids op).
Proof using Type. unfold save, save_object, save_by_pk. fixes_tac. Qed.
Hint Resolve save_stays : fixes.
Lemma start_line_stays src line p : stays (_handle_possible_start_line src line p).
Proof using Type. unfold _handle_possible_start_line, stream_error. fixes_tac. Qed.
Lemma handle_operation_stays src cur next p : stays (_handle_operation cfg src cur next p).
Proof using Type. unfold _handle_operation, operation_serial, stream_error. fixes_tac. Qed.
Hint Resolve start_line_stays handle_operation_stays : fixes.
Lemma split_loop_stays src ps last p : stays (split_loop cfg src ps last p).
Proof using Type.
  remember (length ps) as n eqn:Hn. assert (length ps ≤ n) as Hle by lia. clear Hn.
  revert ps last p Hle. induction n as [|n IH]; intros [|x ps] last p Hle; simpl in *; try lia; fixes_tac.
  all: try (apply IH; simpl in *; lia).
Qed.
Hint Resolve split_loop_stays : fixes.
Lemma update_stream_stays src response :
  stays (update_stream_run cfg uuid timestamp_text gpg_import_keys gpg_uids src response).
Proof using Type. unfold update_stream_run, _split_stream, stream_error. fixes_tac. Qed.
Hint Resolve update_stream_stays : fixes.

Lemma parse_object_stays p c text : stays (parse_object cfg gpg_import_keys gpg_uids p c text).
Proof using Type. unfold parse_object, accept_object, refuse. fixes_tac. Qed.
Hint Resolve parse_object_stays : fixes.
Lemma import_message_stays {A} (m : M A) : stays m → stays (import_message m).
Proof using Type. intros Hm h. specialize (Hm h). unfold import_message. by destruct (m h) as [h' [a|[]]]. Qed.
Hint Resolve import_message_stays : fixes.
Lemma import_paragraphs_stays p c ps :
  stays (import_paragraphs cfg uuid timestamp_text gpg_import_keys gpg_uids p c ps).
Proof using Type. revert c. induction ps as [|x ps IH]; intros c; simpl; fixes_tac. Qed.
Hint Resolve import_paragraphs_stays : fixes.
Lemma run_import_stays p serial lines :
  stays (run_import cfg uuid timestamp_text gpg_import_keys gpg_uids p serial lines).
Proof using Type. unfold run_import. fixes_tac. Qed.
Hint Resolve run_import_stays : fixes.

Lemma items_stay {A} (f : A → M unit) items e : (∀ x, stays (f x)) → stays (for_items f items e).
Proof using Type. intros Hf. induction items as [|v items IH]; simpl; fixes_tac. Qed.
Lemma catch_key_error_stays c hd item m : stays m → stays (catch_key_error repr c hd item m).
Proof using Type.
  intros Hm h. specialize (Hm h). unfold catch_key_error. by destruct (m h) as [h' [a|[]]].
Qed.
Lemma load_deltas_stay c u next :
  stays (load_deltas_from cfg uuid timestamp_text gpg_import_keys gpg_uids retrieve_data json_loads read_header repr
           c u next).
Proof using Type.
  unfold load_deltas_from, _load_deltas, load_delta. fixes_tac.
  all: apply items_stay; intros item; apply catch_key_error_stays; fixes_tac.
Qed.
Lemma snapshot_items_stay p counts items e :
  stays (load_snapshot_items cfg uuid timestamp_text gpg_import_keys gpg_uids p counts items e).
Proof using Type. revert counts. induction items as [|v items IH]; intros counts; simpl; fixes_tac. Qed.
Hint Resolve load_deltas_stay snapshot_items_stay : fixes.
Lemma load_snapshot_uncommitted c u :
  uncommitted (_load_snapshot cfg uuid timestamp_text cidr_text gpg_import_keys gpg_uids retrieve_data json_loads
                 read_header c u).
Proof using Type. unfold _load_snapshot, disable_journaling, enable_journaling. fixes_tac. Qed.
Lemma roa_validator_stays : stays (bulk_validator_from_db cfg cidr_text uuid).
Proof using Type. unfold bulk_validator_from_db. fixes_tac. Qed.
Hint Resolve load_snapshot_uncommitted roa_validator_stays : fixes.
Lemma full_import_uncommitted src serial force :
  uncommitted (full_import_run cfg cidr_text uuid timestamp_text gpg_import_keys gpg_uids retrieve_text retrieve_data
                 src serial force).
Proof using Type. unfold full_import_run, full_import_body, import_file, disable_journaling. fixes_tac. Qed.
Hint Resolve full_import_uncommitted : fixes.
Lemma status_stays src : stays (MirrorRuns._status cfg uuid src).
Proof using Type. unfold MirrorRuns._status. fixes_tac. Qed.
Lemma stream_run_stays src n :
  stays (stream_run cfg uuid timestamp_text gpg_import_keys gpg_uids connect src n).
Proof using Type. unfold stream_run. fixes_tac. Qed.
Lemma client_init_stays src : stays (NRTM4Client_init cfg uuid src).
Proof using Type. unfold NRTM4Client_init, _current_db_status. fixes_tac. Qed.
Hint Resolve status_stays stream_run_stays client_init_stays : fixes.
Notation load_changes' :=
  (load_changes cfg uuid timestamp_text cidr_text gpg_import_keys gpg_uids retrieve_data json_loads read_header repr).
Notation client' :=
  (run_client cfg uuid timestamp_text cidr_text gpg_import_keys gpg_uids retrieve_text retrieve_data json_loads
     read_unf read_header eckey_error jws_deserialize repr).
Notation import_body' :=
  (import_body cfg cidr_text uuid timestamp_text gpg_import_keys gpg_uids retrieve_text retrieve_data connect
     json_loads repr read_unf read_header eckey_error jws_deserialize).
Lemma load_changes_uncommitted c u b : uncommitted (load_changes' c u b).
Proof using Type. unfold load_changes. fixes_tac. Qed.
Hint Resolve load_changes_uncommitted : fixes.
Lemma client_uncommitted c b : uncommitted (client' c b).
Proof using Type.
  assert (uncommitted (_run_client cfg uuid timestamp_text cidr_text gpg_import_keys gpg_uids retrieve_text retrieve_data
            json_loads read_unf read_header eckey_error jws_deserialize repr c b)) as Hrun
    by (unfold _run_client; fixes_tac).
  intros h. specialize (Hrun h). unfold run_client. by destruct (_run_client _ _ _ _ _ _ _ _ _ _ _ _ _ _ _ _ h) as [h' [|]].
Qed.
Hint Resolve client_uncommitted : fixes.
Lemma import_body_uncommitted src : uncommitted (import_body' src).
Proof using Type. unfold import_body, nrtm4_client_run, run_full_or_nrtm3_import. fixes_tac. Qed.

(** A run that did not load everything again kept its journal. *)
Definition incremental (m : M bool) : Prop := ∀ h h1, m h = (h1, Ok false) → durable h1 = durable h.
Lemma incremental_bind {A} (m : M A) f : stays m → (∀ a, incremental (f a)) → incremental (m ≫= f).
Proof using Type.
  intros Hm Hf h h2. unfold mbind, st_bind. specialize (Hm h). destruct (m h) as [h1 [a|]]; [|done].
  intros Hr. by rewrite (Hf a _ _ Hr).
Qed.
Lemma incremental_stays m : stays m → incremental m.
Proof using Type. intros Hm h h1 Hr. specialize (Hm h). by rewrite Hr in Hm. Qed.
Lemma incremental_then {A} (m : M A) : incremental (m ≫= λ _, mret true).
Proof using Type. intros h h1. unfold mbind, st_bind. by destruct (m h) as [? [|]]. Qed.
Lemma load_changes_incremental c u b : incremental (load_changes' c u b).
Proof using Type.
  unfold load_changes. apply incremental_bind; [fixes_tac|]. intros [next|].
  - apply incremental_stays. fixes_tac.
  - intros h h1 (? & counts & _ & (? & next & _ & (? & [] & _ & [=])%st_bind_Ok)%st_bind_Ok)%st_bind_Ok.
Qed.
Lemma client_incremental c b : incremental (client' c b).
Proof using Type.
  intros h h1. unfold run_client. destruct (_run_client _ _ _ _ _ _ _ _ _ _ _ _ _ _ _ _ h) as [h' [full|]] eqn:Hrun; [|done].
  intros [= <- ->]. revert Hrun. unfold _run_client.
  intros (? & hh & [= <- <-] & Hrun)%st_bind_Ok.
  apply st_bind_Ok in Hrun as (h0 & [u key] & [-> _]%st_lift_Ok & (h2 & full & Hload & Hrest)%st_bind_Ok).
  apply st_bind_Ok in Hrest as (h3 & hashes & [-> _]%st_lift_Ok & (h4 & [] & Hstatus & [= <- ->])%st_bind_Ok).
  apply load_changes_incremental in Hload. rewrite <- Hload.
  pose proof (client_status_stays (nc_source c) (new_client_status u key (false && negb b) hashes) h2) as Hst.
  by rewrite Hstatus in Hst.
Qed.
Lemma import_body_incremental src : incremental (import_body' src).
Proof using Type.
  unfold import_body, nrtm4_client_run, run_full_or_nrtm3_import.
  destruct (truthy _); (apply incremental_bind; [fixes_tac|]).
  - intros c. apply client_incremental.
  - intros [[n|] force]; [destruct (_ || _)|]; try apply incremental_then. apply incremental_stays. fixes_tac.
Qed.

(** ** Runs that fail *)

Notation run := (mirror_run cfg cidr_text collate_lt uuid timestamp_text gpg_import_keys gpg_uids retrieve_text
  retrieve_data connect publish_rpsl_full_reload json_loads repr read_unf read_header eckey_error jws_deserialize).

(** C21. Whatever a mirror run meets, a missing file, an unreachable server,
    invalid data or a failing commit: when it ends without a result, the database
    that others see is as it was before, with two exceptions.  A complete reload had
    been loaded, and its commit or its announcement failed; or the changes of an
    incremental run were committed, and Redis refused a message that is sent
    after that. *)
Theorem failed_mirror_run_commits_nothing src h h' log :
  h_journaling_enabled h = true → run src h = (h', None, log) →
  h_committed h' = h_committed h
  ∨ (∃ h1, import_body' src h = (h1, Ok true))
  ∨ ∃ h1 h2 e, import_body' src h = (h1, Ok false) ∧ commit_sql cfg collate_lt uuid h1 = (h2, Ok tt)
               ∧ refused e ∧ h_committed h' = h_committed h2.
Proof using Type.
  intros Hj Hrun.
  assert (∀ h2 e, mirror_attempt cfg cidr_text collate_lt uuid timestamp_text gpg_import_keys gpg_uids retrieve_text
    retrieve_data connect publish_rpsl_full_reload json_loads repr read_unf read_header eckey_error jws_deserialize src h
      = (h2, Raise e) →
    h_committed h2 = h_committed h ∨ (∃ h1, import_body' src h = (h1, Ok true))
    ∨ ∃ h1 h3 e, import_body' src h = (h1, Ok false) ∧ commit_sql cfg collate_lt uuid h1 = (h3, Ok tt)
                 ∧ refused e ∧ h_committed h2 = h_committed h3) as Hfail.
  { intros h2 e [Hbody|(h1 & full & Hbody & Hrest)]%bind_Raise.
    { left. pose proof (import_body_uncommitted src h) as Hu. by rewrite Hbody in Hu. }
    destruct full; [by right; left; exists h1|].
    pose proof (import_body_incremental src h h1 Hbody) as Hinc. injection Hinc as Hc Hj1. rewrite Hj in Hj1.
    apply bind_Raise in Hrest as [Hcommit|(h3 & [] & _ & [=])].
    destruct (commit_raises _ _ _ _ _ _ Hj1 Hcommit) as [Hsame|(Hrefused & h3 & Hsql & Hsame)].
    - left. by rewrite Hsame.
    - right; right. by exists h1, h3, e. }
  revert Hrun. unfold run, run_result.
  destruct (mirror_attempt _ _ _ _ _ _ _ _ _ _ _ _ _ _ _ _ _ src h) as [h2 [published|e]] eqn:Hattempt; [done|].
  specialize (Hfail h2 e eq_refl).
  assert (∀ msg, h_committed (record_mirror_error src msg h2).1 = h_committed h2) as Herr
    by (intros msg; apply (durable_committed _ (mirror_error_stays src msg))).
  destruct e; intros [= <- <-]; try done. by rewrite Herr.
Qed.
End MirrorRuns.

(** ** Examples *)

Module MirrorExamples.
Import ConcreteIP ConcreteRadix ConcreteRedis ConcreteTrie.
Definition ex_cfg : configuration :=
  conf_of (VDict [("sources", VDict [("RR", VDict [("import_source", VList [VStr "ftp://h/a"; VStr "ftp://h/b"])])])]).
Definition ex_row : rpsl_row := {|
  r_pk := "1"; r_rpsl_pk := "JD-A"; r_source := "RR"; r_object_class := "person"; r_parsed_data := ∅;
  r_object_text := "person: J Doe" +:+ NL; r_ip_version := None; r_ip_first := None; r_ip_last := None;
  r_ip_size := None; r_prefix := None; r_prefix_length := None; r_asn_first := None; r_asn_last := None;
  r_rpki_status := rpki_not_found; r_scopefilter_status := in_scope; r_route_preference_status := rp_visible;
  r_created := 0; r_updated := 0 |}.
Definition ex_db : database := {|
  db_objects := [ex_row]; db_suspended := []; db_journal := []; db_status := []; db_roas := [];
  db_protected := []; db_next_uuid := 10; db_next_global := 1 |}.
(** The second file of the export cannot be retrieved: the objects of the source
    are deleted before that is known. *)
Definition ex_retrieve (url : string) (_ : option string) : res string :=
  if String.eqb url "ftp://h/a" then Ok "" else Raise (OSError "timed out").
Definition ex_start : handler := DatabaseHandler_init ex_cfg false ex_db 100.
Definition ex_collate (a b : string) : bool := bool_decide (a = b).
Definition ex_uuid (n : nat) : string := str_of_Z (Z.of_nat n).
Definition ex_run : handler * option (list string) * run_log :=
  mirror_run ex_cfg (λ _, "") ex_collate ex_uuid str_of_Z (λ _, ([], None)) (λ _, []) Ok ex_retrieve
    (λ _ _ _, Ok []) (λ _, Ok tt) (λ _, inl "") (λ _, "") (λ _, inl "") (λ _ _, inl "") (λ _, None) (λ _ _, inl "") "RR" ex_start.
Lemma failed_mirror_run_commits_nothing_witness :
  ex_run.1.2 = None ∧ ex_run.2 = io_error "timed out"
  ∧ db_objects (h_db ex_run.1.1) = [] ∧ db_objects (h_committed ex_run.1.1) = [ex_row].
Proof.
  assert (ex_run.1.2 = None) as E1 by (vm_compute; reflexivity).
  assert (ex_run.2 = io_error "timed out") as E2 by (vm_compute; reflexivity).
  assert (db_objects (h_db ex_run.1.1) = []) as E3 by (vm_compute; reflexivity).
  split_and!; [exact E1|exact E2|exact E3|].
  destruct ex_run as [[h' r] log] eqn:Hrun. simpl in E1, E2 |- *. subst r log. unfold ex_run in Hrun.
  apply failed_mirror_run_commits_nothing in Hrun as [-> | [(h1 & Hbody)|(h1 & h2 & e & Hbody & _)]]; [reflexivity| | |reflexivity];
    exfalso; apply (f_equal (λ x, match x.2 with Ok _ => true | Raise _ => false end)) in Hbody;
    vm_compute in Hbody; discriminate.
Defined.

(** An NRTMv4 client whose notification file has no valid signature: the error is
    recorded in the transaction that is then rolled back. *)
Definition ex4_cfg : configuration :=
  conf_of (VDict [("sources", VDict [("RR", VDict [("nrtm4_client_notification_file_url", VStr "https://h/unf");
                                                   ("nrtm4_client_initial_public_key", VStr "key")])])]).
Definition ex_status : status_row := {|
  s_source := "RR"; s_serials := serials_none; s_nrtm4_client := client_status_none; s_nrtm4_server := server_status_none;
  s_force_reload := false; s_synchronised_serials := false; s_last_error := None; s_last_error_timestamp := None;
  s_rpsl_data_updated := 0 |}.
Definition ex4_run : handler * option (list string) * run_log :=
  mirror_run ex4_cfg (λ _, "") ex_collate ex_uuid str_of_Z (λ _, ([], None)) (λ _, []) Ok ex_retrieve
    (λ _ _ _, Ok []) (λ _, Ok tt) (λ _, inl "") (λ _, "") (λ _, inl "") (λ _ _, inl "") (λ _, None) (λ _ _, inl "bad signature") "RR"
    (DatabaseHandler_init ex4_cfg false (set_status [ex_status] ex_db) 100).
Example mirror_error_lost :
  (∃ msg, ex4_run.2 = nrtm4_client_error msg) ∧ (t_mirroring_error (h_tracker ex4_run.1.1)).*1 = ["RR"]
  ∧ s_last_error <$> db_status (h_committed ex4_run.1.1) = [None].
Proof. split_and!; [eexists|..]; vm_compute; reflexivity. Qed.
End MirrorExamples.
