(* ===== verification/MirrorExport.v ===== *)
(** * Exports of a source ([irrd/mirroring/mirror_runners_export.py])

    One run of [SourceExportRunner]: the text of the export from the rows of the
    source, the files it leaves, and the serial it records.  Gzip is a parameter.
    The temporary file is not modelled, and the file system does what it is asked. *)
From S2P Require Import Prelude PyStr Conf Net Models Text Rpki Queries RoutePref Database DatabaseHandler Nrtm MirrorRuns.

(** Files by directory and name. *)
Notation files := (gmap (string * string) string).
Definition write_file (dir name data : string) (fs : files) : files := <[(dir, name) := data]> fs.
Definition unlink (dir name : string) (fs : files) : files := delete (dir, name) fs.

Section MirrorExport.
Context `{IPyLib} `{Radix node_data} `{redis : Redis} (cfg : configuration).
Context (collate_lt : string → string → bool) (uuid : nat → string).
Context (gzip : string → string).

(** A run works on the database handler and on the files. *)
Notation E := (st (handler * files)).
Definition on_handler {A} (m : M A) : E A := λ s, let '(h, r) := m s.1 in ((h, s.2), r).
Definition on_files (f : files → files) : E unit := st_modify (λ s, (s.1, f s.2)).

(** ** The text *)

Definition exported_text (source : string) (remove_hashes dummify : bool) (r : rpsl_row) : string :=
  let text := if remove_hashes then remove_auth_hashes (r_object_text r) else r_object_text r in
  if dummify then dummify_object_text cfg text (r_object_class r) source (r_rpsl_pk r) else text.
Definition export_line (text : string) : string := utf8_encode text +:+ NL.
Definition export_data (texts : list string) : string :=
  concat_str (export_line <$> texts) +:+ "# EOF" +:+ NL.

(** ** The run *)

Definition filename_export (source : string) : string := str_lower source +:+ ".db.gz".
Definition filename_serial (source : string) : string := str_upper source +:+ ".CURRENTSERIAL".
Definition export_rows (source : string) : M (list rpsl_row) :=
  q ← st_lift (sources (RPSLDatabaseQuery true true) [source]);
  q ← st_lift (default_suppression q);
  execute_query_objects cfg collate_lt uuid q.
Definition newest_serial (status : option status_row) : option Z :=
  match status with Some s => serial_newest_seen (s_serials s) | None => None end.
Definition _export (source destination : string) (remove_hashes dummify : bool) : E unit :=
  status ← on_handler (query_database cfg uuid (status_of (str_upper source)));
  let serial := newest_serial status in
  rows ← on_handler (export_rows source);
  _ ← on_files (unlink destination (filename_export source));
  _ ← on_files (unlink destination (filename_serial source));
  _ ← on_files (write_file destination (filename_export source)
                  (gzip (export_data (exported_text source remove_hashes dummify <$> rows))));
  _ ← (match serial with
       | Some n => on_files (write_file destination (filename_serial source) (str_of_Z n))
       | None => mret tt
       end);
  on_handler (record_serial_exported source serial).
Definition export_if (source key : string) (filtered : bool) : E unit :=
  let destination := source_setting cfg source key in
  if truthy destination then _export source (pyval_str destination) filtered filtered else mret tt.
Definition export_attempt (source : string) : E unit :=
  _ ← export_if source "export_destination" true;
  _ ← export_if source "export_destination_unfiltered" false;
  on_handler (commit cfg collate_lt uuid).
(** [SourceExportRunner.run], with what it logs. *)
Definition export_run (source : string) (s : handler * files) : (handler * files) * run_log :=
  match export_attempt source s with
  | (s', Ok _) => (s', run_done)
  | (s', Raise e) => (s', run_error e)
  end.
End MirrorExport.
