(* ===== verification/MirrorExportTheory.v ===== *)
(** * What a mirror reads from an export

    The file an export leaves is read back, by the readers that file imports use,
    as exactly the texts of the visible objects of the source. *)
From S2P Require Import Prelude PyStr Conf Net Models Text TextTheory Rpki Queries QueriesTheory RoutePref RoutePrefTheory Database DatabaseHandler StorageTheory JournalTheory Nrtm TransactionTheory MirrorRuns MirrorExport.

(** ** Reading a file *)

Lemma universal_newlines_id s : has_char ch_cr s = false → universal_newlines s = s.
Proof.
  induction s as [|c s IH]; [done|]. rewrite has_char_cons, orb_false_iff, bool_decide_eq_false.
  intros [Hc Hs]. cbn [universal_newlines]. rewrite bool_decide_eq_false_2 by congruence. by rewrite IH.
Qed.
Lemma lines_of_line l s : has_char ch_nl l = false → lines_of (l +:+ NL +:+ s) = (l +:+ NL) :: lines_of s.
Proof.
  induction l as [|c l IH]; [done|]. rewrite has_char_cons, orb_false_iff, bool_decide_eq_false.
  intros [Hc Hl]. change (String c l +:+ NL +:+ s) with (String c (l +:+ NL +:+ s)). cbn [lines_of].
  rewrite bool_decide_eq_false_2 by congruence. rewrite IH by done.
  rewrite bool_decide_eq_false_2; [done|]. by destruct l.
Qed.
Lemma lines_of_text ls : Forall (λ l, has_char ch_nl l = false) ls → lines_of (para_text ls) = (λ l, l +:+ NL) <$> ls.
Proof.
  induction 1 as [|l ls Hl Hls IH]; [done|]. rewrite para_text_cons, lines_of_line by done. csimpl. by rewrite IH.
Qed.
Lemma strip_if_line p l t : str_all (λ c, negb (p c)) l = true → str_all p t = true → strip_if p (l +:+ t) = l.
Proof.
  intros Hl Ht. unfold strip_if. destruct l as [|c l].
  - simpl. rewrite <- (str_app_nil_r t), lstrip_if_app by done. done.
  - pose proof Hl as Hl'. simpl in Hl'. apply andb_true_iff in Hl' as [Hc%negb_true_iff _].
    cbn [lstrip_if String.append]. rewrite Hc. change (String c (l +:+ t)) with (String c l +:+ t).
    rewrite rstrip_if_app by done. by apply rstrip_id.
Qed.
(** The line feed at the end of a line does not matter. *)
Lemma loop_line_feeds sc cur ls :
  Forall (λ l, has_char ch_nl l = false ∧ has_char ch_cr l = false) ls →
  paragraphs_loop sc cur ((λ l, l +:+ NL) <$> ls) = paragraphs_loop sc cur ls.
Proof.
  intros Hls. revert cur. induction Hls as [|l ls [Hn Hc] Hls IH]; intros cur; [done|]. rewrite fmap_cons. cbn [paragraphs_loop].
  assert (strip_chars (CR +:+ NL) (l +:+ NL) = l ∧ strip_chars (CR +:+ NL) l = l) as [-> ->].
  { assert (str_all (λ c, negb (has_char c (CR +:+ NL))) l = true) as Hall by (by apply no_chars_all).
    split; [by apply strip_if_line|by apply strip_chars_line]. }
  by rewrite !IH.
Qed.

(** ** The text of an export *)

Definition export_lines (paras : list (list string)) : list string :=
  concat ((λ p, p ++ [""]) <$> paras) ++ ["# EOF"].
Lemma export_text_app a b : para_text (a ++ b) = para_text a +:+ para_text b.
Proof. induction a as [|l a IH]; [done|]. rewrite <- app_comm_cons, !para_text_cons, IH. by rewrite !str_app_assoc. Qed.
Lemma export_data_lines paras : export_data (para_text <$> paras) = utf8_encode (para_text (export_lines paras)).
Proof.
  unfold export_data, export_lines. rewrite export_text_app, utf8_encode_app. f_equal.
  induction paras as [|p paras IH]; [done|]. csimpl. rewrite IH, export_text_app, export_text_app, !utf8_encode_app.
  unfold export_line. rewrite !str_app_assoc. done.
Qed.
Lemma loop_export sc paras :
  Forall (para_ok sc) paras → paragraphs_loop sc "" (export_lines paras) = para_text <$> paras.
Proof.
  unfold export_lines. induction 1 as [|p paras [Hp Hs] Hparas IH]; [by destruct sc|]. csimpl.
  rewrite <- !app_assoc, loop_para by done. simpl ("" +:+ _).
  assert (∀ cur rest, paragraphs_loop sc cur ([""] ++ rest)
    = (if String.eqb cur "" then [] else [cur]) ++ paragraphs_loop sc "" rest) as ->
    by (intros; simpl; by rewrite andb_false_r).
  rewrite (proj2 (String.eqb_neq _ "")) by (by apply para_text_nonempty). csimpl. f_equal. exact IH.
Qed.
Lemma export_lines_clean sc paras :
  Forall (para_ok sc) paras → Forall (λ l, has_char ch_nl l = false ∧ has_char ch_cr l = false) (export_lines paras).
Proof.
  intros Hp. apply Forall_app. split; [|by repeat constructor].
  induction Hp as [|p paras [Hp _] Hparas IH]; [constructor|]. csimpl. rewrite !Forall_app. split_and!; try done.
  - eapply Forall_impl; [exact Hp|]. by intros l (_ & ? & ? & _).
  - by repeat constructor.
Qed.
Lemma no_char_text c ls : c ≠ ch_nl → Forall (λ l, has_char c l = false) ls → has_char c (para_text ls) = false.
Proof.
  intros Hc. induction 1 as [|l ls Hl Hls IH]; [done|]. rewrite para_text_cons, !has_char_app, Hl, IH.
  change NL with (String ch_nl ""). by rewrite has_char_one.
Qed.
Lemma export_split sc paras :
  Forall (para_ok sc) paras →
  split_paragraphs_rpsl (inr (file_lines (export_data (para_text <$> paras)))) sc = para_text <$> paras.
Proof.
  intros Hp. pose proof (export_lines_clean sc paras Hp) as Hclean.
  assert (file_lines (export_data (para_text <$> paras)) = (λ l, l +:+ NL) <$> export_lines paras) as ->.
  { unfold file_lines. rewrite export_data_lines, utf8_decode_encode, universal_newlines_id.
    - apply lines_of_text. eapply Forall_impl; [exact Hclean|]. by intros l [? _].
    - apply no_char_text; [done|]. eapply Forall_impl; [exact Hclean|]. by intros l [_ ?]. }
  unfold split_paragraphs_rpsl. rewrite loop_line_feeds by done. by apply loop_export.
Qed.

(** ** The names of the files *)

Fixpoint last_char (s : string) : option ascii :=
  match s with "" => None | String c "" => Some c | String _ s' => last_char s' end.
Lemma last_char_app a c b : last_char (a +:+ String c b) = last_char (String c b).
Proof. induction a as [|d a IH]; [done|]. rewrite <- IH. simpl. by destruct a. Qed.
Lemma filenames_differ source : filename_export source ≠ filename_serial source.
Proof.
  unfold filename_export, filename_serial. intros E%(f_equal last_char). by rewrite !last_char_app in E.
Qed.

(** ** The run *)

Section MirrorExport.
Context `{IPyLib} `{Radix node_data} `{redis : Redis} (cfg : configuration).
Context (collate_lt : string → string → bool) (uuid : nat → string).
(** The objects an export is of. *)
Definition exported (source : string) (r : rpsl_row) : bool :=
  bool_decide (r_source r = strip (str_upper source)) && row_visible r.
Definition exported_rows (source : string) (d : database) : list rpsl_row :=
  match sources (RPSLDatabaseQuery true true) [source] ≫= default_suppression with
  | Ok q => execute_query collate_lt q (db_objects d)
  | Raise _ => []
  end.
Lemma exported_rows_perm source d : exported_rows source d ≡ₚ List.filter (exported source) (db_objects d).
Proof using Type.
  unfold exported_rows, sources. rewrite filter_Ok by done. cbn [mbind res_bind].
  edestruct default_suppression_Ok as (q & Hq & Hlimit & Hlevel & _ & Hholds); [|rewrite Hq; cbn iota]; [done|].
  apply execute_query_perm; [done..|]. intros r. rewrite Hholds. unfold with_filter, exported. simpl.
  rewrite andb_true_r. f_equal. apply bool_decide_ext. by rewrite list_elem_of_singleton.
Qed.
Lemma export_rows_run source h :
  h_rpsl_upsert_buffer h = [] → export_rows cfg collate_lt uuid source h = (h, Ok (exported_rows source (h_db h))).
Proof using Type.
  intros Hb. unfold export_rows, exported_rows, mbind, st_bind, st_lift, sources. rewrite filter_Ok by done.
  cbn [res_bind]. edestruct default_suppression_Ok as (q & Hq & _); [|rewrite Hq]; [done|].
  by rewrite execute_query_quiet.
Qed.

Context (gzip : string → string).
Notation export' := (_export cfg collate_lt uuid gzip).
Notation run := (export_run cfg collate_lt uuid gzip).

Definition serial_of (source : string) (d : database) : option Z :=
  newest_serial (status_of (str_upper source) d).
Definition export_files (source dest : string) (filtered : bool) (d : database) (fs : files) : files :=
  let fs := delete (dest, filename_serial source) (delete (dest, filename_export source) fs) in
  let fs := <[(dest, filename_export source) := gzip (export_data
              (exported_text cfg source filtered filtered <$> exported_rows source d))]> fs in
  match serial_of source d with
  | Some n => <[(dest, filename_serial source) := str_of_Z n]> fs
  | None => fs
  end.
Lemma export_run_files source dest filtered h fs :
  h_rpsl_upsert_buffer h = [] → h_readonly h = false →
  export' source dest filtered filtered (h, fs)
  = (((record_serial_exported source (serial_of source (h_db h)) h).1, export_files source dest filtered (h_db h) fs), Ok tt).
Proof using Type.
  intros Hb Hro. unfold _export, mbind, st_bind, on_handler. cbn [fst snd].
  rewrite (query_database_quiet _ _ Hb). cbn [fst snd]. rewrite export_rows_run by done. cbn [fst snd].
  assert (∀ src n h', h_readonly h' = false → (record_serial_exported src n h').2 = Ok tt) as Hrec.
  { intros src n h' Hh. unfold record_serial_exported, mbind, st_bind, _check_write_permitted. by rewrite Hh. }
  unfold on_files, st_modify, export_files, serial_of, write_file, unlink. cbn [fst snd].
  pose proof (Hrec source (newest_serial (status_of (str_upper source) (h_db h))) h Hro) as Hr. revert Hr.
  generalize (newest_serial (status_of (str_upper source) (h_db h))). intros serial Hr. clear Hrec.
  destruct serial as [n|]; cbn [fst snd mret st_ret]; destruct (record_serial_exported source _ h) as [h' r];
    simpl in Hr; by subst r.
Qed.
Lemma export_files_other source dest dest' filtered d fs name :
  dest' ≠ dest → export_files source dest filtered d fs !! (dest', name) = fs !! (dest', name).
Proof using Type.
  intros Hne. unfold export_files. cbv zeta. destruct (serial_of source d); rewrite !lookup_insert_ne, !lookup_delete_ne; congruence.
Qed.
Lemma export_files_serial source dest filtered d fs :
  export_files source dest filtered d fs !! (dest, filename_serial source) = str_of_Z <$> serial_of source d.
Proof using Type.
  pose proof (filenames_differ source) as Hne. unfold export_files. cbv zeta. destruct (serial_of source d).
  - by rewrite lookup_insert_eq.
  - rewrite lookup_insert_ne by congruence. by rewrite lookup_delete_eq.
Qed.
Lemma export_files_text source dest filtered d fs :
  export_files source dest filtered d fs !! (dest, filename_export source)
  = Some (gzip (export_data (exported_text cfg source filtered filtered <$> exported_rows source d))).
Proof using Type.
  pose proof (filenames_differ source) as Hne. unfold export_files. cbv zeta. destruct (serial_of source d).
  - rewrite lookup_insert_ne by congruence. by rewrite lookup_insert_eq.
  - by rewrite lookup_insert_eq.
Qed.
(** Recording the serial leaves the database and the buffer alone. *)
Lemma record_exported_steady source n h :
  h_readonly h = false → ∃ t, (record_serial_exported source n h).1 = with_tracker t h.
Proof using Type.
  intros Hro. unfold record_serial_exported, mbind, st_bind, _check_write_permitted. rewrite Hro. eexists. reflexivity.
Qed.
End MirrorExport.

(** C22. After a successful export the directory holds a file from which the
    readers of file imports get exactly the texts of the visible objects of the
    source, and a serial file with the newest serial of the source, or none. *)
Theorem export_read_back `{IPyLib} `{Radix node_data} `{redis : Redis} cfg collate_lt uuid gzip (gunzip : string → res string)
    source d now fs s' :
  (∀ data, gunzip (gzip data) = Ok data) →
  truthy (get_setting cfg "readonly_standby") = false →
  truthy (source_setting cfg source "export_destination") = true →
  pyval_str (source_setting cfg source "export_destination_unfiltered")
    ≠ pyval_str (source_setting cfg source "export_destination") →
  (∀ r, r ∈ db_objects d → exported source r = true →
     ∃ p, para_ok true p ∧ exported_text cfg source true true r = para_text p) →
  export_run cfg collate_lt uuid gzip source (DatabaseHandler_init cfg false d now, fs) = (s', run_done) →
  let dest := pyval_str (source_setting cfg source "export_destination") in
  (∃ data bytes rows, s'.2 !! (dest, filename_export source) = Some data ∧ gunzip data = Ok bytes
     ∧ split_paragraphs_rpsl (inr (file_lines bytes)) true = exported_text cfg source true true <$> rows
     ∧ rows ≡ₚ List.filter (exported source) (db_objects d))
  ∧ s'.2 !! (dest, filename_serial source) = str_of_Z <$> serial_of source d.
Proof.
  intros Hgz Hstandby Hdest Hne Htext Hrun dest.
  set (h := DatabaseHandler_init cfg false d now) in *.
  assert (h_readonly h = false) as Hro by (by unfold h; simpl; rewrite Hstandby).
  set (fs1 := export_files cfg collate_lt gzip source dest true d fs).
  assert (∀ name, s'.2 !! (dest, name) = fs1 !! (dest, name)) as Hfs.
  { revert Hrun. unfold export_run. destruct (export_attempt _ _ _ _ _ _) as [s1 [[]|]] eqn:Hattempt; [|done].
    intros [= <-]. revert Hattempt. unfold export_attempt, export_if. rewrite Hdest. fold dest.
    unfold mbind at 1, st_bind at 1. rewrite export_run_files by done. fold fs1.
    destruct (record_exported_steady source (serial_of source (h_db h)) h Hro) as [t ->].
    intros (s2 & [] & Hun & Hcommit)%st_bind_Ok name.
    assert (s1.2 = s2.2) as ->.
    { revert Hcommit. unfold on_handler. destruct (commit _ _ _ _) as [h2 r]. by intros [= <- _]. }
    destruct (truthy (source_setting cfg source "export_destination_unfiltered")).
    - rewrite export_run_files in Hun by done. injection Hun as <-. cbn [snd]. by apply export_files_other.
    - by injection Hun as <-. }
  rewrite !Hfs. split; [|apply export_files_serial].
  set (rows := exported_rows collate_lt source d).
  exists (gzip (export_data (exported_text cfg source true true <$> rows))),
    (export_data (exported_text cfg source true true <$> rows)), rows.
  split_and!; [apply export_files_text|apply Hgz| |apply exported_rows_perm].
  assert (∃ paras, Forall (para_ok true) paras ∧ exported_text cfg source true true <$> rows = para_text <$> paras)
    as (paras & Hparas & ->).
  { assert (Forall (λ r, r ∈ db_objects d ∧ exported source r = true) rows) as Hall
      by (apply Forall_forall; intros r; unfold rows; by rewrite exported_rows_perm, filter_elem).
    clear -Hall Htext. induction Hall as [|r rows [Hr Hex] Hrows (paras & Hp & E)]; [by exists []|].
    destruct (Htext r Hr Hex) as (p & Hok & Er). exists (p :: paras). split; [by constructor|]. rewrite !fmap_cons, E. by f_equal. }
  by apply export_split.
Qed.

(** ** Examples *)

Module ExportExamples.
Import ConcreteIP ConcreteRadix ConcreteRedis.
Definition ex_cfg : configuration :=
  conf_of (VDict [("sources", VDict [("RR", VDict [("export_destination", VStr "/export")])])]).
Definition ex_route : list string := ["route: 192.0.2.0/24"; "origin: AS65537"; "source: RR"].
Definition ex_row (pk : string) (rpki : RPKIStatus) : rpsl_row := {|
  r_pk := pk; r_rpsl_pk := "192.0.2.0/24AS65537"; r_source := "RR"; r_object_class := "route";
  r_parsed_data := ∅; r_object_text := para_text ex_route; r_ip_version := Some 4%Z; r_ip_first := Some "192.0.2.0";
  r_ip_last := Some "192.0.2.255"; r_ip_size := Some 256%Z; r_prefix := Some "192.0.2.0/24"; r_prefix_length := Some 24%Z;
  r_asn_first := Some 65537%Z; r_asn_last := Some 65537%Z; r_rpki_status := rpki;
  r_scopefilter_status := in_scope; r_route_preference_status := rp_visible; r_created := 0; r_updated := 0 |}.
Definition ex_db : database := {|
  db_objects := [ex_row "1" rpki_valid; ex_row "2" rpki_invalid]; db_suspended := []; db_journal := [];
  db_status := []; db_roas := []; db_protected := []; db_next_uuid := 10; db_next_global := 1 |}.
Notation ex_run := (export_run ex_cfg (λ a b, bool_decide (a = b)) (λ n, str_of_Z (Z.of_nat n)) id "RR" (DatabaseHandler_init ex_cfg false ex_db 100, ∅)).

Lemma ex_lines : para_ok true ex_route.
Proof. split; [repeat constructor; done|done]. Qed.
Lemma ex_done : ex_run.2 = run_done.
Proof. vm_compute. reflexivity. Qed.
Lemma ex_texts r : r ∈ db_objects ex_db → exported "RR" r = true →
  ∃ p, para_ok true p ∧ exported_text ex_cfg "RR" true true r = para_text p.
Proof.
  intros Hr Hvisible. exists ex_route. split; [exact ex_lines|].
  apply elem_of_cons in Hr as [->|[->|[]%elem_of_nil]%elem_of_cons]; [vm_compute; reflexivity|].
  assert (exported "RR" (ex_row "2" rpki_invalid) = false) as E by (vm_compute; reflexivity). congruence.
Qed.
Lemma ex_settings :
  truthy (get_setting ex_cfg "readonly_standby") = false
  ∧ truthy (source_setting ex_cfg "RR" "export_destination") = true
  ∧ pyval_str (source_setting ex_cfg "RR" "export_destination_unfiltered") = "None"
  ∧ pyval_str (source_setting ex_cfg "RR" "export_destination") = "/export".
Proof. split_and!; vm_compute; reflexivity. Qed.
Lemma ex_visible : List.filter (exported "RR") (db_objects ex_db) = [ex_row "1" rpki_valid].
Proof. vm_compute. reflexivity. Qed.
Lemma ex_exported : exported_text ex_cfg "RR" true true (ex_row "1" rpki_valid) = para_text ex_route.
Proof. vm_compute. reflexivity. Qed.
Lemma ex_run_final : ex_run = (ex_run.1, run_done).
Proof. rewrite <- ex_done. apply surjective_pairing. Qed.
Lemma ex_differ : pyval_str (source_setting ex_cfg "RR" "export_destination_unfiltered")
  ≠ pyval_str (source_setting ex_cfg "RR" "export_destination").
Proof. destruct ex_settings as (_ & _ & -> & ->). discriminate. Qed.
(** The second route is invalid and not exported. *)
Lemma export_read_back_witness :
  ∃ data, ex_run.1.2 !! ("/export", filename_export "RR") = Some data
    ∧ split_paragraphs_rpsl (inr (file_lines data)) true = [para_text ex_route].
Proof.
  destruct (export_read_back ex_cfg (λ a b, bool_decide (a = b)) (λ n, str_of_Z (Z.of_nat n)) id Ok "RR" ex_db 100 ∅ ex_run.1
    (λ _, eq_refl) (proj1 ex_settings) (proj1 (proj2 ex_settings)) ex_differ ex_texts ex_run_final)
    as [(data & bytes & rows & Hdata & Hbytes & Hsplit & Hrows) _].
  rewrite (proj2 (proj2 (proj2 ex_settings))) in Hdata. exists data. split; [exact Hdata|].
  injection Hbytes as ->. rewrite Hsplit.
  rewrite ex_visible in Hrows. symmetry in Hrows. apply Permutation_length_1_inv in Hrows as ->.
  cbn [fmap list_fmap]. by rewrite ex_exported.
Defined.
End ExportExamples.
