(* ===== verification/MirrorScheduler.v ===== *)
(** * The scheduler of periodic processes ([irrd/mirroring/scheduler.py])

    What one call of [MirrorScheduler.run] starts, and the reaping of processes
    that have ended.  The processes themselves are their names; time is an input. *)
From S2P Require Import Prelude PyStr Conf Net Models Text Rpki ScopeFilter.

(** The runner classes. *)
Inductive runner_class :=
| ROAImportRunner | RoutePreferenceUpdateRunner | ScopeFilterUpdateRunner | RPSLMirrorImportUpdateRunner
| SourceExportRunner | NRTM4Server.
Definition runner_name (c : runner_class) : string :=
  match c with
  | ROAImportRunner => "ROAImportRunner"
  | RoutePreferenceUpdateRunner => "RoutePreferenceUpdateRunner"
  | ScopeFilterUpdateRunner => "ScopeFilterUpdateRunner"
  | RPSLMirrorImportUpdateRunner => "RPSLMirrorImportUpdateRunner"
  | SourceExportRunner => "SourceExportRunner"
  | NRTM4Server => "NRTM4Server"
  end.
(** A process: its name, and a number that tells it from other processes. *)
Record process := { proc_id : nat; proc_name : string }.
#[export] Instance process_eq : EqDecision process.
Proof. solve_decision. Defined.

Definition MAX_SIMULTANEOUS_RUNS : nat := 1.
Definition DEFAULT_SOURCE_IMPORT_TIMER : Z := 300.
Definition DEFAULT_SOURCE_IMPORT_TIMER_NRTM4 : Z := 60.
Definition DEFAULT_SOURCE_EXPORT_TIMER : Z := 3600.
Definition DEFAULT_SOURCE_EXPORT_TIMER_NRTM4 : Z := 60.

(** Python's [==] on settings. *)
Fixpoint pyval_eqb (v w : pyval) : bool :=
  match v, w with
  | VNone, VNone => true
  | VBool a, VBool b => Bool.eqb a b
  | VBool a, VInt n | VInt n, VBool a => (n =? if a then 1 else 0)%Z
  | VInt m, VInt n => (m =? n)%Z
  | VStr a, VStr b => String.eqb a b
  | VList l, VList l' =>
      (fix eq_list (l l' : list pyval) : bool :=
         match l, l' with
         | [], [] => true
         | v :: l, w :: l' => pyval_eqb v w && eq_list l l'
         | _, _ => false
         end) l l'
  | VDict d, VDict d' =>
      Nat.eqb (length d) (length d') &&
      (fix eq_items (d : list (string * pyval)) : bool :=
         match d with
         | [] => true
         | (k, v) :: d => match assoc k d' with Some w => pyval_eqb v w | None => false end && eq_items d
         end) d
  | _, _ => false
  end.
Definition same_setting (previous : option (list pyval)) (current : list pyval) : bool :=
  match previous with Some l => pyval_eqb (VList l) (VList current) | None => false end.

(** ** The state *)

Record MirrorScheduler := {
  sc_processes : list (string * process);
  last_started_time : list (string * Z);
  previous_scopefilter_prefixes : option (list pyval);
  previous_scopefilter_asns : option (list pyval);
  previous_scopefilter_excluded : option (gset string);
  (** The last transaction seen by the signaller of a standby. *)
  signaller_last_time : option Z;
  (** Every process started, the last one first. *)
  sc_started : list process;
}.
Definition scheduler_init : MirrorScheduler := {|
  sc_processes := []; last_started_time := []; previous_scopefilter_prefixes := None;
  previous_scopefilter_asns := None; previous_scopefilter_excluded := None; signaller_last_time := None;
  sc_started := [] |}.
Definition with_processes (ps : list (string * process)) (s : MirrorScheduler) : MirrorScheduler := {|
  sc_processes := ps; last_started_time := last_started_time s;
  previous_scopefilter_prefixes := previous_scopefilter_prefixes s;
  previous_scopefilter_asns := previous_scopefilter_asns s;
  previous_scopefilter_excluded := previous_scopefilter_excluded s;
  signaller_last_time := signaller_last_time s; sc_started := sc_started s |}.
Definition with_started (p : process) (seconds : Z) (s : MirrorScheduler) : MirrorScheduler := {|
  sc_processes := dict_set (proc_name p) p (sc_processes s);
  last_started_time := dict_set (proc_name p) seconds (last_started_time s);
  previous_scopefilter_prefixes := previous_scopefilter_prefixes s;
  previous_scopefilter_asns := previous_scopefilter_asns s;
  previous_scopefilter_excluded := previous_scopefilter_excluded s;
  signaller_last_time := signaller_last_time s; sc_started := p :: sc_started s |}.
Definition with_scopefilter (prefixes asns : list pyval) (excluded : gset string) (s : MirrorScheduler)
  : MirrorScheduler := {|
  sc_processes := sc_processes s; last_started_time := last_started_time s;
  previous_scopefilter_prefixes := Some prefixes; previous_scopefilter_asns := Some asns;
  previous_scopefilter_excluded := Some excluded; signaller_last_time := signaller_last_time s;
  sc_started := sc_started s |}.
Definition with_last_time (t : Z) (s : MirrorScheduler) : MirrorScheduler := {|
  sc_processes := sc_processes s; last_started_time := last_started_time s;
  previous_scopefilter_prefixes := previous_scopefilter_prefixes s;
  previous_scopefilter_asns := previous_scopefilter_asns s;
  previous_scopefilter_excluded := previous_scopefilter_excluded s;
  signaller_last_time := Some t; sc_started := sc_started s |}.

(** ** The signaller of a standby ([irrd/mirroring/jobs.py]) *)

(** [TransactionTimePreloadSignaller.run]: with the time of the last transaction,
    or the exception of asking for it, and what the first and the second attempt
    to signal do; the number of signals sent. *)
Definition signaller_run (current_time : res Z) (first second : res unit) (s : MirrorScheduler)
  : MirrorScheduler * nat :=
  let retry := match second with Ok _ => 1 | Raise _ => 0 end in
  match current_time with
  | Raise _ => (s, retry)
  | Ok t =>
      if bool_decide (signaller_last_time s = Some t) then (s, 0)
      else match first with
           | Ok _ => (with_last_time t s, 1)
           | Raise _ => (s, retry)
           end
  end.

(** ** Starting processes *)

Section Scheduler.
Context (cfg : configuration).
Notation S := (st MirrorScheduler).

Definition process_name (source : option string) (c : runner_class) : string :=
  match source with
  | Some s => if String.eqb s "" then runner_name c else runner_name c +:+ "-" +:+ s
  | None => runner_name c
  end.
(** The time is in microseconds; the last start is recorded in whole seconds. *)
Definition has_expired (last timer now : Z) : bool := ((last + timer) * 1000000 <? now)%Z.
Definition run_if_relevant (now : Z) (source : option string) (c : runner_class) (timer : Z) (allow_multiple : bool)
  : S bool :=
  s ← st_get;
  let name := process_name source c in
  let last := default 0%Z (dict_get name (last_started_time s)) in
  if negb (has_expired last timer now)
     || (bool_decide (is_Some (dict_get name (sc_processes s))) && negb allow_multiple)
  then mret false
  else
    _ ← st_modify (with_started {| proc_id := length (sc_started s); proc_name := name |} (now / 1000000));
    mret true.

Definition excluded_sources : gset string :=
  list_to_set ((List.filter (λ x : string * pyval, truthy (settings_get x.2 "scopefilter_excluded")) (sources_items cfg)).*1).
Definition _check_scopefilter_change : S bool :=
  if negb (truthy (get_setting cfg "scopefilter")) then mret false
  else
    current_prefixes ← st_lift (iter_of (get_setting_default cfg "scopefilter.prefixes" (VList [])));
    current_asns ← st_lift (iter_of (get_setting_default cfg "scopefilter.asns" (VList [])));
    s ← st_get;
    if same_setting (previous_scopefilter_prefixes s) current_prefixes
       && same_setting (previous_scopefilter_asns s) current_asns
       && bool_decide (previous_scopefilter_excluded s = Some excluded_sources)
    then mret false
    else _ ← st_modify (with_scopefilter current_prefixes current_asns excluded_sources); mret true.

Definition setting_of (source key : string) (default : pyval) : pyval :=
  get_setting_default cfg ("sources." +:+ source +:+ "." +:+ key) default.
Definition is_mirror (source : string) : bool :=
  truthy (source_setting cfg source "import_source") || truthy (source_setting cfg source "nrtm_host")
  || truthy (source_setting cfg source "nrtm4_client_notification_file_url").
Definition default_import_timer (source : string) : Z :=
  if truthy (source_setting cfg source "nrtm4_client_initial_public_key")
  then DEFAULT_SOURCE_IMPORT_TIMER_NRTM4 else DEFAULT_SOURCE_IMPORT_TIMER.
Definition runs_rpsl_export (source : string) : bool :=
  truthy (source_setting cfg source "export_destination")
  || truthy (source_setting cfg source "export_destination_unfiltered").
(** The body of the loop: whether the source counts as started. *)
Definition run_source (now : Z) (source : string) : S bool :=
  import_timer ← st_lift (int_py (setting_of source "import_timer" (VInt (default_import_timer source))));
  started_import ← (if is_mirror source
                    then run_if_relevant now (Some source) RPSLMirrorImportUpdateRunner import_timer false
                    else mret false);
  export_timer ← st_lift (int_py (setting_of source "export_timer" (VInt DEFAULT_SOURCE_EXPORT_TIMER)));
  started_export ← (if runs_rpsl_export source
                    then run_if_relevant now (Some source) SourceExportRunner export_timer false
                    else mret false);
  started_export ← (if truthy (source_setting cfg source "nrtm4_server_private_key")
                    then run_if_relevant now (Some source) NRTM4Server DEFAULT_SOURCE_EXPORT_TIMER_NRTM4 true
                    else mret started_export);
  mret (started_import || started_export).
Fixpoint run_sources (now : Z) (sources : list string) (sources_started : nat) : S unit :=
  match sources with
  | [] => mret tt
  | source :: sources' =>
      if MAX_SIMULTANEOUS_RUNS <=? sources_started then mret tt
      else
        started ← run_source now source;
        run_sources now sources' (if started : bool then Datatypes.S sources_started else sources_started)
  end.
Definition run_roa_import (now : Z) : S unit :=
  if truthy (get_setting cfg "rpki.roa_source") then
    import_timer ← st_lift (int_py (get_setting cfg "rpki.roa_import_timer"));
    _ ← run_if_relevant now None ROAImportRunner import_timer false; mret tt
  else mret tt.
Definition run_route_preference (now : Z) : S unit :=
  if existsb (λ x : string * pyval, truthy (settings_get x.2 "route_object_preference")) (sources_items cfg) then
    import_timer ← st_lift (int_py (get_setting cfg "route_object_preference.update_timer"));
    _ ← run_if_relevant now None RoutePreferenceUpdateRunner import_timer false; mret tt
  else mret tt.
Definition run_scopefilter (now : Z) : S unit :=
  changed ← _check_scopefilter_change;
  if changed : bool then _ ← run_if_relevant now None ScopeFilterUpdateRunner 0 false; mret tt else mret tt.
(** [MirrorScheduler.run] of an instance that is not a standby. *)
Definition scheduler_run (now : Z) : S unit :=
  _ ← run_roa_import now;
  _ ← run_route_preference now;
  _ ← run_scopefilter now;
  run_sources now (sources_items cfg).*1 0.
End Scheduler.

(** ** Reaping *)

(** [update_process_state], with the processes that are alive. *)
Definition update_process_state (alive : list process) (s : MirrorScheduler) : MirrorScheduler :=
  with_processes (List.filter (λ x : string * process, bool_decide (x.2 ∈ alive)) (sc_processes s)) s.

(** ** The scheduler and its processes *)

(** The processes that are alive go with the scheduler. *)
Definition started_since (s s' : MirrorScheduler) : list process :=
  take (length (sc_started s') - length (sc_started s)) (sc_started s').
Inductive scheduler_step : MirrorScheduler * list process → MirrorScheduler * list process → Prop :=
| step_run cfg now s alive s' r :
    truthy (get_setting cfg "readonly_standby") = false → scheduler_run cfg now s = (s', r) →
    scheduler_step (s, alive) (s', started_since s s' ++ alive)
| step_standby current_time first second s alive :
    scheduler_step (s, alive) ((signaller_run current_time first second s).1, alive)
| step_exit s p alive :
    scheduler_step (s, alive) (s, List.filter (λ q, negb (bool_decide (q = p))) alive)
| step_reap s alive :
    scheduler_step (s, alive) (update_process_state alive s, alive).
