(* ===== verification/MirrorSchedulerTheory.v ===== *)
(** * The scheduler starts no process twice

    However its runs, the processes that end and the reaping interleave, and
    whatever the configuration is at each run. *)
From S2P Require Import Prelude PyStr Conf Net Models Text Rpki ScopeFilter MirrorScheduler.

(** ** Invariants of methods, also when they raise *)

Section Preserves.
Context {S : Type} (I : S → Prop).
Definition preserves {A} (m : st S A) : Prop := ∀ s, I s → I (m s).1.
Lemma preserves_ret {A} (a : A) : preserves (mret a).
Proof. by intros s. Qed.
Lemma preserves_lift {A} (m : res A) : preserves (st_lift m).
Proof. by intros s. Qed.
Lemma preserves_get : preserves st_get.
Proof. by intros s. Qed.
Lemma preserves_bind {A B} (m : st S A) (f : A → st S B) :
  preserves m → (∀ a, preserves (f a)) → preserves (m ≫= f).
Proof.
  intros Hm Hf s Hs. unfold mbind, st_bind. specialize (Hm s Hs). destruct (m s) as [s1 [a|e]]; [|done]. by apply Hf.
Qed.
Lemma preserves_modify f : (∀ s, I s → I (f s)) → preserves (st_modify f).
Proof. intros Hf s Hs. by apply Hf. Qed.
Lemma preserves_if {A} (b : bool) (m n : st S A) : preserves m → preserves n → preserves (if b then m else n).
Proof. by destruct b. Qed.
End Preserves.
Create HintDb preserves.
Ltac preserves_tac :=
  repeat match goal with
  | |- preserves _ (_ ≫= _) => apply preserves_bind; [|intros]
  | |- preserves _ (mret _) => apply preserves_ret
  | |- preserves _ (st_lift _) => apply preserves_lift
  | |- preserves _ st_get => apply preserves_get
  | |- preserves _ (if _ then _ else _) => apply preserves_if
  | |- preserves _ (let _ := _ in _) => cbv zeta
  | |- preserves _ _ => solve [auto with preserves]
  end.

(** ** Processes by name *)

(** Only the NRTMv4 server may run more than once. *)
Definition may_repeat (name : string) : bool := startswith "NRTM4Server" name.

(** The scheduler knows every process that is alive, apart from replaced ones of
    NRTMv4 servers, by its name. *)
Record registered (s : MirrorScheduler) (alive : list process) : Prop := {
  reg_alive : ∀ p, p ∈ alive → may_repeat (proc_name p) = false → dict_get (proc_name p) (sc_processes s) = Some p;
  reg_started : ∀ p, p ∈ alive → p ∈ sc_started s;
  reg_names : ∀ n p, (n, p) ∈ sc_processes s → proc_name p = n ∧ p ∈ sc_started s;
  reg_keys : NoDup (sc_processes s).*1;
  reg_ids : ∀ p, p ∈ sc_started s → proc_id p < length (sc_started s);
  reg_once : NoDup alive;
}.

Lemma started_since_cons s0 p n s :
  length (sc_started s0) ≤ length (sc_started s) →
  started_since s0 (with_started p n s) = p :: started_since s0 s.
Proof.
  intros Hle. unfold started_since. simpl. by replace (Datatypes.S (length (sc_started s)) - length (sc_started s0))
    with (Datatypes.S (length (sc_started s) - length (sc_started s0))) by lia.
Qed.

Section Run.
Context (cfg : configuration) (s0 : MirrorScheduler) (alive0 : list process).
(** During a run: what it has started so far is alive too. *)
Definition in_run (s : MirrorScheduler) : Prop :=
  length (sc_started s0) ≤ length (sc_started s) ∧ registered s (started_since s0 s ++ alive0).

Lemma start_registered name n s :
  (dict_get name (sc_processes s) = None ∨ may_repeat name = true) → in_run s →
  in_run (with_started {| proc_id := length (sc_started s); proc_name := name |} n s).
Proof using Type.
  set (p := {| proc_id := length (sc_started s); proc_name := name |}).
  intros Hname [Hle Hreg]. split; [simpl; lia|]. rewrite started_since_cons by done.
  assert (p ∉ sc_started s) as Hfresh.
  { intros Hp. apply (reg_ids _ _ Hreg) in Hp. simpl in Hp. lia. }
  constructor; simpl.
  - intros q Hq Hrep. rewrite dict_set_get. apply elem_of_cons in Hq as [->|Hq]; [by rewrite decide_True|].
    pose proof (reg_alive _ _ Hreg q Hq Hrep) as Hget. destruct (decide (proc_name q = name)) as [E|]; [|done].
    rewrite E in Hrep, Hget. destruct Hname; congruence.
  - intros q Hq. apply elem_of_cons in Hq as [->|Hq]; [by left|right; by apply (reg_started _ _ Hreg)].
  - intros m q Hq. apply dict_get_elem in Hq; [|by apply dict_set_NoDup, (reg_keys _ _ Hreg)].
    rewrite dict_set_get in Hq. destruct (decide (m = name)) as [->|].
    + injection Hq as <-. split; [done|by left].
    + apply dict_get_elem in Hq; [|by apply (reg_keys _ _ Hreg)].
      apply (reg_names _ _ Hreg) in Hq as [? ?]. split; [done|by right].
  - apply dict_set_NoDup, (reg_keys _ _ Hreg).
  - intros q Hq. apply elem_of_cons in Hq as [->|Hq]; [simpl; lia|]. apply (reg_ids _ _ Hreg) in Hq. lia.
  - apply NoDup_cons. split; [|by apply (reg_once _ _ Hreg)]. intros Hp. by apply Hfresh, (reg_started _ _ Hreg).
Qed.

Lemma run_if_relevant_ok now source c timer b :
  (b = false ∨ c = NRTM4Server) → preserves in_run (run_if_relevant now source c timer b).
Proof using Type.
  intros Hb s Hs. unfold run_if_relevant, mbind, st_bind, st_get.
  destruct (negb _ || _) eqn:Hskip; [done|]. simpl. apply start_registered; [|done].
  apply orb_false_iff in Hskip as [_ Hskip]. destruct Hb as [->| ->].
  - left. rewrite andb_true_r in Hskip. apply bool_decide_eq_false in Hskip.
    destruct (dict_get _ _); [|done]. destruct Hskip. eauto.
  - right. unfold process_name, may_repeat. destruct source as [src|]; [destruct (String.eqb src "")|]; done.
Qed.
End Run.

Section RunOk.
Context (s0 : MirrorScheduler) (alive0 : list process).
Notation stays_ok := (preserves (in_run s0 alive0)).

Lemma run_single now source c timer : stays_ok (run_if_relevant now source c timer false).
Proof using Type. apply run_if_relevant_ok. by left. Qed.
Lemma run_server now source timer : stays_ok (run_if_relevant now source NRTM4Server timer true).
Proof using Type. apply run_if_relevant_ok. by right. Qed.
Hint Resolve run_single run_server : preserves.
Lemma check_scopefilter_ok cfg : stays_ok (_check_scopefilter_change cfg).
Proof using Type.
  unfold _check_scopefilter_change. preserves_tac. apply preserves_modify. by intros s [Hle [????]].
Qed.
Hint Resolve check_scopefilter_ok : preserves.
Lemma run_sources_ok cfg now sources n : stays_ok (run_sources cfg now sources n).
Proof using Type.
  revert n. induction sources as [|source sources IH]; intros n; simpl; unfold run_source; preserves_tac.
Qed.
Hint Resolve run_sources_ok : preserves.
Lemma scheduler_run_ok cfg now : stays_ok (scheduler_run cfg now).
Proof using Type. unfold scheduler_run, run_roa_import, run_route_preference, run_scopefilter. preserves_tac. Qed.
End RunOk.

(** ** The steps *)

Lemma started_since_same s : started_since s s = [].
Proof. unfold started_since. by rewrite Nat.sub_diag. Qed.
Lemma fst_filter_NoDup {A B} (p : A * B → bool) (l : list (A * B)) : NoDup l.*1 → NoDup (List.filter p l).*1.
Proof.
  induction l as [|[a b] l IH]; simpl; [done|]. intros [Ha Hl]%NoDup_cons.
  destruct (p (a, b)); [|by apply IH]. simpl. apply NoDup_cons. split; [|by apply IH].
  intros ([? y] & -> & Hy%filter_elem)%list_elem_of_fmap. apply Ha. destruct Hy as [Hy _].
  by apply (list_elem_of_fmap_2 fst) in Hy.
Qed.
Lemma exit_registered s alive p :
  registered s alive → registered s (List.filter (λ q, negb (bool_decide (q = p))) alive).
Proof.
  intros Hreg. destruct Hreg as [H1 H2 H3 H4 H5 H6].
  constructor; try done; try (intros q [Hq _]%filter_elem; auto).
  by apply NoDup_ListNoDup, List.NoDup_filter, NoDup_ListNoDup.
Qed.
Lemma reap_registered s alive : registered s alive → registered (update_process_state alive s) alive.
Proof.
  intros [H1 H2 H3 H4 H5 H6]. constructor; simpl; try done.
  - intros p Hp Hrep. apply dict_get_elem; [by apply fst_filter_NoDup|]. apply filter_elem. simpl.
    rewrite bool_decide_eq_true. split; [|done]. apply dict_get_elem; auto.
  - intros n p [Hp _]%filter_elem. by apply H3.
  - by apply fst_filter_NoDup.
Qed.
Lemma step_registered s alive s' alive' :
  scheduler_step (s, alive) (s', alive') → registered s alive → registered s' alive'.
Proof.
  intros Hstep Hreg. inversion Hstep as [cfg now ? ? s1 r _ Hrun| t f1 f2 ? ?| ? p ?| ]; subst.
  - pose proof (scheduler_run_ok s alive cfg now s) as Hok. rewrite Hrun in Hok. apply Hok.
    split; [done|]. by rewrite started_since_same.
  - unfold signaller_run. destruct t as [t|]; [|done]. case_bool_decide; [done|]. destruct f1; [|done].
    by destruct Hreg.
  - by apply exit_registered.
  - by apply reap_registered.
Qed.
Lemma reachable_registered x y : rtc scheduler_step x y → registered x.1 x.2 → registered y.1 y.2.
Proof.
  induction 1 as [|[s1 a1] [s2 a2] z Hstep _ IH]; [done|]. intros Hreg. apply IH. simpl. by eapply step_registered.
Qed.
Lemma init_registered : registered scheduler_init [].
Proof. split; simpl; try apply NoDup_nil_2; intros *; by intros ?%elem_of_nil. Qed.

(** C23. However the runs of the scheduler, processes that end and the reaping
    interleave, and whatever the configuration says at each run, at most one
    process of each import, export or status update is alive at any time; only
    the NRTMv4 server may run more than once. *)
Theorem one_process_per_name s alive name :
  rtc scheduler_step (scheduler_init, []) (s, alive) → may_repeat name = false →
  length (List.filter (λ p, String.eqb (proc_name p) name) alive) ≤ 1.
Proof.
  intros Hrun Hrep. pose proof (reachable_registered _ _ Hrun init_registered) as [H1 _ _ _ _ Hnd]. simpl in *.
  apply NoDup_ListNoDup in Hnd. apply (List.NoDup_filter (λ p, String.eqb (proc_name p) name)) in Hnd.
  assert (∀ p, p ∈ List.filter (λ p, String.eqb (proc_name p) name) alive → dict_get name (sc_processes s) = Some p) as Hall.
  { intros p [Hp Hn]%filter_elem. apply String.eqb_eq in Hn as <-. by apply H1. }
  destruct (List.filter _ alive) as [|p [|q l]]; simpl; [lia..|].
  assert (p = q) as -> by (assert (Some p = Some q); [|congruence]; rewrite <- !Hall by (rewrite !elem_of_cons; tauto); done).
  apply NoDup_ListNoDup in Hnd. apply NoDup_cons in Hnd as [Hnd _]. destruct Hnd. by left.
Qed.

(** ** Examples *)

Module SchedulerExamples.
Definition ex_conf (sources : list (string * pyval)) (rest : list (string * pyval)) : configuration :=
  conf_of (VDict (("sources", VDict sources) :: rest)).
Definition second (n : Z) : Z := (n * 1000000 + 1)%Z.
Definition started (m : st MirrorScheduler unit) (s : MirrorScheduler) : list string :=
  proc_name <$> sc_started (m s).1.

(** A mirror that is also exported. *)
Definition mirror_cfg : configuration :=
  ex_conf [("RR", VDict [("nrtm_host", VStr "h"); ("import_timer", VInt 60); ("export_destination", VStr "/e")])] [].
Definition first_run : MirrorScheduler := (scheduler_run mirror_cfg (second 10000) scheduler_init).1.
Definition second_run : MirrorScheduler := (scheduler_run mirror_cfg (second 20000) first_run).1.
(** The import of the first run is still alive at the second one. *)
Lemma one_process_per_name_witness :
  proc_name <$> sc_started second_run = ["SourceExportRunner-RR"; "RPSLMirrorImportUpdateRunner-RR"]
  ∧ length (List.filter (λ p, String.eqb (proc_name p) "RPSLMirrorImportUpdateRunner-RR") (sc_started second_run)) ≤ 1.
Proof.
  split; [by vm_compute|].
  assert (truthy (get_setting mirror_cfg "readonly_standby") = false) as Hstandby by (by vm_compute).
  apply (one_process_per_name second_run (started_since first_run second_run ++ (started_since scheduler_init first_run ++ []))
           "RPSLMirrorImportUpdateRunner-RR"); [|by vm_compute].
  eapply rtc_l; [by apply (step_run mirror_cfg (second 10000) _ _ _ _ Hstandby (surjective_pairing _))|].
  eapply rtc_l; [by apply (step_run mirror_cfg (second 20000) _ _ _ _ Hstandby (surjective_pairing _))|].
  apply rtc_refl.
Defined.

(** Source [AA] is exported every 30 seconds and has an NRTMv4 server: when its
    export has started and its server has not, the source does not count as
    started, so source [BB] is started in the same run as well. *)
Definition busy_cfg : configuration :=
  ex_conf [("AA", VDict [("export_destination", VStr "/e"); ("export_timer", VInt 30);
                         ("nrtm4_server_private_key", VStr "k")]);
           ("BB", VDict [("export_destination", VStr "/e"); ("export_timer", VInt 30)])] [].
Definition all_exited (s : MirrorScheduler) : MirrorScheduler := update_process_state [] s.
Example export_start_forgotten :
  started (λ s, scheduler_run busy_cfg (second 10000) s) scheduler_init = ["NRTM4Server-AA"; "SourceExportRunner-AA"]
  ∧ started (λ s, scheduler_run busy_cfg (second 10040) s)
      (all_exited (scheduler_run busy_cfg (second 10000) scheduler_init).1)
    = ["SourceExportRunner-BB"; "SourceExportRunner-AA"; "NRTM4Server-AA"; "SourceExportRunner-AA"].
Proof. split; vm_compute; reflexivity. Qed.

(** The scope filter changes while the update for its previous state runs: no
    update is started then, nor when that one has ended. *)
Definition scope_cfg (asn : Z) : configuration := ex_conf [] [("scopefilter", VDict [("asns", VList [VInt asn])])].
Definition scope_running : MirrorScheduler := (scheduler_run (scope_cfg 65000) (second 10000) scheduler_init).1.
Definition scope_changed : MirrorScheduler := (scheduler_run (scope_cfg 65001) (second 10015) scope_running).1.
Example scopefilter_change_lost :
  proc_name <$> sc_started scope_running = ["ScopeFilterUpdateRunner"]
  ∧ started (λ s, scheduler_run (scope_cfg 65001) (second 20000) s) (all_exited scope_changed) = ["ScopeFilterUpdateRunner"]
  ∧ started (λ s, scheduler_run (scope_cfg 65001) (second 20000) s) (all_exited scope_running)
    = ["ScopeFilterUpdateRunner"; "ScopeFilterUpdateRunner"].
Proof. split_and!; vm_compute; reflexivity. Qed.
End SchedulerExamples.
