(* ===== verification/ConfCheck.v ===== *)
(** * Checking and reloading the configuration ([irrd/conf/__init__.py],
    [irrd/conf/known_keys.py])

    The checks made on a configuration before it is used, with the messages they
    give and the exceptions they let through, and the staging and reloading of
    configurations.  The file system, rate limits and keys are parameters. *)
From stdpp Require Import sorting.
From S2P Require Import Prelude PyStr Conf Net Models Text Rpki ScopeFilter Fields RpslObjects RpslParser Queries RoutePref Database DatabaseHandler Nrtm Retrieval.

(** ** The known settings *)

Definition leaves (keys : list string) : pyval := VDict ((λ k, (k, VDict [])) <$> keys).
Definition SET_CLASSES : list string := rpsl_object_class <$> List.filter c_is_set OBJECT_CLASS_MAPPING.*2.
Definition KNOWN_CONFIG_KEYS : pyval := VDict [
  ("database_url", VDict []); ("readonly_standby", VDict []); ("redis_url", VDict []); ("piddir", VDict []);
  ("user", VDict []); ("group", VDict []); ("download_timeout", VDict []);
  ("server", VDict [
    ("http", leaves ["interface"; "port"; "status_access_list"; "event_stream_access_list"; "workers";
                     "forwarded_allowed_ips"; "url"]);
    ("whois", leaves ["interface"; "port"; "access_list"; "max_connections"])]);
  ("route_object_preference", leaves ["update_timer"]);
  ("email", leaves ["from"; "footer"; "smtp"; "recipient_override"; "notification_header"]);
  ("auth", VDict [
    ("override_password", VDict []); ("authenticate_parents_route_creation", VDict []); ("gnupg_keyring", VDict []);
    ("irrd_internal_migration_enabled", VDict []); ("webui_auth_failure_rate_limit", VDict []);
    ("set_creation", VDict ((λ c, (c, leaves ["prefix_required"; "autnum_authentication"]))
                              <$> SET_CLASSES ++ [AUTH_SET_CREATION_COMMON_KEY]));
    ("password_hashers", leaves (str_lower <$> PASSWORD_HASHERS_ALL))]);
  ("rpki", leaves ["roa_source"; "roa_import_timer"; "slurm_source"; "pseudo_irr_remarks"; "notify_invalid_enabled";
                   "notify_invalid_subject"; "notify_invalid_header"]);
  ("scopefilter", leaves ["prefixes"; "asns"]);
  ("log", leaves ["logfile_path"; "level"; "logging_config_path"]);
  ("sources_default", VDict []);
  ("compatibility", leaves ["inetnum_search_disabled"; "ipv4_only_route_set_members"; "asdot_queries"])].
Definition KNOWN_FLEXIBLE_KEYS : list string := ["access_lists"; "source_aliases"].
Definition KNOWN_SOURCES_KEYS : list string := [
  "authoritative"; "authoritative_non_strict_mode_dangerous"; "keep_journal"; "nrtm_host"; "nrtm_port";
  "import_source"; "import_serial_source"; "import_timer"; "object_class_filter"; "export_destination";
  "export_destination_unfiltered"; "export_timer"; "nrtm_access_list"; "nrtm_access_list_unfiltered";
  "nrtm_query_serial_days_limit"; "nrtm_query_serial_range_limit"; "nrtm_response_header";
  "nrtm_dummified_attributes"; "nrtm_dummified_object_classes"; "nrtm_dummified_remarks";
  "nrtm4_client_notification_file_url"; "nrtm4_client_initial_public_key"; "nrtm4_server_private_key";
  "nrtm4_server_private_key_next"; "nrtm4_server_local_path"; "nrtm4_server_snapshot_frequency";
  "strict_import_keycert_objects"; "rpki_excluded"; "scopefilter_excluded"; "suspension_enabled";
  "route_object_preference"; "authoritative_retain_last_modified"; "nrtm3_client_timeout"].

(** ** Looking up settings under check *)

(** [config.get(key, default)] on nested dicts; a list on the way raises. *)
Fixpoint config_walk (path : list string) (v default : pyval) : res pyval :=
  match path with
  | [] => Ok v
  | k :: path' =>
      match v with
      | VDict d => match assoc k d with Some w => config_walk path' w default | None => Ok default end
      | VList _ => Raise IndexError
      | _ => Ok default
      end
  end.
Definition config_get (config : pyval) (key : string) (default : pyval) : res pyval :=
  config_walk (split_on "."%char key) config default.
(** [v.items()] and [v.lower()]. *)
Definition items_of (v : pyval) : res (list (string * pyval)) :=
  match v with VDict d => Ok d | _ => Raise AttributeError end.
Definition lower_of (v : pyval) : res string := match v with VStr s => Ok (str_lower s) | _ => Raise AttributeError end.
Definition str_if (v : pyval) : string := match v with VStr s => s | _ => "" end.
Definition is_str (v : pyval) : bool := match v with VStr _ => true | _ => false end.
Definition is_bool (v : pyval) : bool := match v with VBool _ => true | _ => false end.
(** [str(v).isnumeric()]: the digits of ASCII, and the superscripts and
    fractions of Latin 1. *)
Definition is_numeric_char (c : ascii) : bool :=
  let n := N_of_ascii c in
  ((48 <=? n) && (n <=? 57) || (n =? 178) || (n =? 179) || (n =? 185) || (n =? 188) || (n =? 189) || (n =? 190))%N.
Definition is_numeric (v : pyval) : bool :=
  match v with
  | VInt n => (0 <=? n)%Z
  | VStr s => negb (String.eqb s "") && str_all is_numeric_char s
  | _ => false
  end.
(** [urlparse(v)], which takes [None] for an empty URL. *)
Definition no_url : url_parts := {| url_scheme_ := ""; url_netloc := ""; url_path := "" |}.
Definition urlparse (v : pyval) : res url_parts :=
  match v with
  | VStr s =>
      let u := urlsplit s in
      if xorb (has_char "["%char (url_netloc u)) (has_char "]"%char (url_netloc u))
      then Raise (ValueError "Invalid IPv6 URL") else Ok u
  | v => if truthy v then Raise AttributeError else Ok no_url
  end.
(** [SOURCE_NAME_RE.match(name)]; [$] also matches before a last line feed. *)
Definition is_source_char (c : ascii) : bool :=
  let n := N_of_ascii c in ((65 <=? n) && (n <=? 90) || (48 <=? n) && (n <=? 57))%N.
Definition is_source_first (c : ascii) : bool := let n := N_of_ascii c in ((65 <=? n) && (n <=? 90))%N.
Fixpoint source_rest (s : string) : bool :=
  match s with
  | "" => false
  | String c "" => is_source_char c
  | String c s' => (is_source_char c || bool_decide (c = "-"%char)) && (source_rest s' || is_source_char c && String.eqb s' NL)
  end.
Definition SOURCE_NAME_RE (name : string) : bool :=
  match name with String c s => is_source_first c && source_rest s | "" => false end.

(** The errors of a check, which may raise; checks are made in order. *)
Notation check := (res (list string)).
Definition error_if (b : bool) (msg : string) : list string := if b then [msg] else [].
Fixpoint all_checks (checks : list check) : check :=
  match checks with
  | [] => Ok []
  | c :: checks' => l ← c; l' ← all_checks checks'; Ok (l ++ l')
  end.

Section ConfCheck.
Context `{IPyLib}.
(** [os.path.isdir], [limits.parse] and [eckey_from_str] with the message of its [ValueError]. *)
Context (isdir : pyval → bool) (limits_parse : pyval → res unit) (eckey_from_str : pyval → bool → res unit).
(** The order in which Python iterates over a set of strings. *)
Context (set_order : list string → list string).

(** A [try] that turns a [ValueError] into a message. *)
Definition value_error {A} (m : res A) (msg : string → string) : check :=
  match m with
  | Ok _ => Ok []
  | Raise e => if is_ValueError e then Ok [msg (exn_str e)] else Raise e
  end.

(** ** Unknown keys *)

Definition unknown_key (key : string) : list string :=
  error_if (match dotted_get key KNOWN_CONFIG_KEYS with Some _ => false | None => true end) ("Unknown setting key: " +:+ key).
Fixpoint _validate_subconfig (key : string) (value : pyval) : list string :=
  match value with
  | VDict d =>
      (fix items (l : list (string * pyval)) : list string :=
         match l with
         | [] => []
         | (key2, value2) :: l' =>
             let subkey := key +:+ "." +:+ key2 in
             unknown_key subkey ++ _validate_subconfig subkey value2 ++ items l'
         end) d
  | _ => []
  end.
Definition check_known_keys (config : pyval) : check :=
  items ← items_of config;
  Ok (concat ((λ x : string * pyval,
    if bool_decide (x.1 ∈ "sources" :: KNOWN_FLEXIBLE_KEYS) then []
    else unknown_key x.1 ++ _validate_subconfig x.1 x.2) <$> items)).

(** ** General settings *)

Definition _check_is_str (config : pyval) (key : string) (required : bool) : res bool :=
  v ← config_get config key VNone;
  Ok (if required then truthy v && is_str v else is_none v || is_str v).
Definition check_str (config : pyval) (key : string) (required : bool) (msg : string) : check :=
  b ← _check_is_str config key required; Ok (error_if (negb b) msg).
Definition check_piddir (config : pyval) : check :=
  b ← _check_is_str config "piddir" true;
  v ← config_get config "piddir" VNone;
  Ok (error_if (negb b || negb (isdir v)) "Setting piddir is required and must point to an existing directory.").
Definition check_number (config : pyval) (key msg : string) : check :=
  v ← config_get config key (VStr "0"); Ok (error_if (negb (is_numeric v)) msg).
Definition check_email (config : pyval) : check :=
  b ← _check_is_str config "email.from" true;
  v ← config_get config "email.from" (VStr "");
  Ok (error_if (negb b || negb (has_char "@"%char (str_if v))) "Setting email.from is required and must be an email address.").
Definition check_email_override (config : pyval) : check :=
  b ← _check_is_str config "email.recipient_override" false;
  if negb b then Ok ["Setting email.recipient_override must be an email address if set."]
  else
    v ← config_get config "email.recipient_override" (VStr "@");
    match v with
    | VStr s => Ok (error_if (negb (has_char "@"%char s)) "Setting email.recipient_override must be an email address if set.")
    | _ => Raise config_type_error
    end.
Definition check_http_url (config : pyval) : check :=
  v ← config_get config "server.http.url" VNone;
  u ← urlparse v;
  Ok (error_if (String.eqb (url_scheme_ u) "" || String.eqb (url_netloc u) "") "Setting server.http.url is missing or invalid.").
Definition string_not_required : list string :=
  ["email.footer"; "server.whois.access_list"; "server.http.status_access_list"; "rpki.notify_invalid_subject";
   "rpki.notify_invalid_header"; "rpki.slurm_source"; "user"; "group"].
Definition check_user_group (config : pyval) : check :=
  user ← config_get config "user" VNone;
  group ← config_get config "group" VNone;
  Ok (error_if (xorb (truthy user) (truthy group)) "Settings user and group must both be defined, or neither.").
Definition check_migration (config : pyval) : check :=
  v ← config_get config "auth.irrd_internal_migration_enabled" (VBool false);
  Ok (error_if (negb (is_bool v)) "Setting auth.irrd_internal_migration_enabled must be a bool.").
Definition check_rate_limit (config : pyval) : check :=
  v ← config_get config "auth.webui_auth_failure_rate_limit" VNone;
  if truthy v
  then value_error (limits_parse v) (λ _, "Setting auth.webui_auth_failure_rate_limit is missing or invalid.")
  else Ok [].

(** ** Authentication and filters *)

Definition valid_auth : list string := ["disabled"; "opportunistic"; "required"].
Definition valid_hasher_availability : list string := ["enabled"; "legacy"; "disabled"].
Definition check_set_creation_item (x : string * pyval) : check :=
  let '(set_name, params) := x in
  params ← items_of params;
  let prefix_required := default (VBool false) (assoc "prefix_required" params) in
  let autnum_authentication := default VNone (assoc "autnum_authentication" params) in
  l ← (if truthy autnum_authentication then
         s ← lower_of autnum_authentication;
         Ok (error_if (negb (bool_decide (s ∈ valid_auth)))
               ("Setting auth.set_creation." +:+ set_name +:+ ".autnum_authentication must be one of "
                  +:+ list_repr valid_auth +:+ " if set"))
       else Ok []);
  Ok (error_if (negb (is_bool prefix_required)) ("Setting auth.set_creation." +:+ set_name +:+ ".prefix_required must be a bool") ++ l).
Definition check_set_creation (config : pyval) : check :=
  v ← config_get config "auth.set_creation" (VDict []);
  items ← items_of v;
  all_checks (check_set_creation_item <$> items).
Definition check_hasher_item (x : string * pyval) : check :=
  s ← lower_of x.2;
  Ok (error_if (negb (bool_decide (s ∈ valid_hasher_availability)))
        ("Setting auth.password_hashers." +:+ x.1 +:+ " must be one of " +:+ list_repr valid_hasher_availability)).
Definition check_hashers (config : pyval) : check :=
  v ← config_get config "auth.password_hashers" (VDict []);
  items ← items_of v;
  all_checks (check_hasher_item <$> items).
Definition check_access_list (x : string * pyval) : check :=
  items ← iter_of x.2;
  all_checks ((λ item, value_error (IP_py item)
    (λ ve, "Invalid item in access list " +:+ x.1 +:+ ": " +:+ ve +:+ ".")) <$> items).
Definition check_access_lists (config : pyval) : check :=
  v ← config_get config "access_lists" (VDict []);
  items ← items_of v;
  all_checks (check_access_list <$> items).
Definition check_scope_prefixes (config : pyval) : check :=
  v ← config_get config "scopefilter.prefixes" (VList []);
  items ← iter_of v;
  all_checks ((λ prefix, value_error (IP_py prefix)
    (λ ve, "Invalid item in prefix scopefilter: " +:+ pyval_str prefix +:+ ": " +:+ ve +:+ ".")) <$> items).
(** [int] of one item, which for other values than numbers and text is no
    [ValueError]; the [AttributeError] of a list with a dash in its text is not told apart. *)
Definition check_scope_asn (asn : pyval) : check :=
  match asn with
  | VStr _ | VInt _ | VBool _ =>
      value_error (load_asn_filter asn) (λ _, "Invalid item in asn scopefilter: " +:+ pyval_str asn +:+ ".")
  | _ => Raise config_type_error
  end.
Definition check_scope_asns (config : pyval) : check :=
  v ← config_get config "scopefilter.asns" (VList []);
  items ← iter_of v;
  all_checks (check_scope_asn <$> items).

(** ** Sources *)

(** [details.get(key)]. *)
Definition detail (details : list (string * pyval)) (key : string) : pyval := default VNone (assoc key details).
Definition has (details : list (string * pyval)) (key : string) : bool := truthy (detail details key).
Definition check_source_keys (name : string) (d : list (string * pyval)) : check :=
  let unknown_keys := List.filter (λ k, negb (bool_decide (k ∈ KNOWN_SOURCES_KEYS))) d.*1 in
  Ok (error_if (negb (bool_decide (unknown_keys = [])))
        ("Unknown key(s) under source " +:+ name +:+ ": " +:+ join ", " (set_order unknown_keys))).
Definition check_source_name (config : pyval) (name : string) : check :=
  roa_source ← config_get config "rpki.roa_source" VNone;
  Ok (error_if (truthy roa_source && String.eqb name RPKI_IRR_PSEUDO_SOURCE)
        ("Setting sources contains reserved source name: " +:+ RPKI_IRR_PSEUDO_SOURCE)
      ++ error_if (negb (SOURCE_NAME_RE name)) ("Invalid source name: " +:+ name)).
Definition check_suspension (name : string) (d : list (string * pyval)) : check :=
  Ok (error_if (has d "suspension_enabled" && negb (has d "authoritative"))
    ("Setting suspension_enabled for source " +:+ name +:+ " can not be enabled without enabling authoritative.")).
Definition unf_url_valid (u : url_parts) : bool :=
  String.eqb (url_scheme_ u) "https" && negb (String.eqb (url_netloc u) "")
  || String.eqb (url_scheme_ u) "file" && negb (String.eqb (url_path u) "").
Definition check_unf_url (name : string) (d : list (string * pyval)) : check :=
  u ← urlparse (detail d "nrtm4_client_notification_file_url");
  Ok (error_if (has d "nrtm4_client_notification_file_url" && negb (unf_url_valid u))
    ("Setting nrtm4_client_notification_file_url for source " +:+ name +:+ " is not a valid https or file URL.")).
Definition check_mirror_settings (name : string) (d : list (string * pyval)) : check :=
  let unf := has d "nrtm4_client_notification_file_url" in
  Ok (error_if (has d "keep_journal"
        && negb (has d "nrtm_host" && has d "import_serial_source" || unf || has d "authoritative"))
        ("Setting keep_journal for source " +:+ name +:+ " can not be enabled unless either authoritative is enabled, or all "
           +:+ "three of nrtm_host/nrtm_port/import_serial_source, or nrtm4_client_notification_file_url.")
      ++ error_if (has d "nrtm_host" && negb (has d "import_serial_source"))
        ("Setting nrtm_host for source " +:+ name +:+ " can not be enabled without setting import_serial_source.")
      ++ error_if (unf && negb (has d "nrtm4_client_initial_public_key"))
        ("Setting nrtm4_client_notification_file_url for source " +:+ name
           +:+ " must be set together with nrtm4_client_initial_public_key.")).
(** A key that is set is a valid one. *)
Definition check_key (name key : string) (require_private : bool) (d : list (string * pyval)) : check :=
  if has d key
  then value_error (eckey_from_str (detail d key) require_private)
         (λ ve, "Invalid value for setting " +:+ key +:+ " for source " +:+ name +:+ ": " +:+ ve)
  else Ok [].
Definition check_exclusive_settings (name : string) (d : list (string * pyval)) : check :=
  let unf := has d "nrtm4_client_notification_file_url" in
  Ok (error_if (unf && (has d "nrtm_host" || has d "import_serial_source"))
        ("Settings nrtm_host/import_serial_source for " +:+ name
           +:+ " can not both be set together with nrtm4_client_notification_file_url.")
      ++ error_if (has d "authoritative" && (unf || has d "nrtm_host" || has d "import_source"))
        ("Setting authoritative for source " +:+ name +:+ " can not be enabled when either nrtm_host, import_source, or "
           +:+ "nrtm4_client_notification_file_url are set.")).
Definition nrtm4_server_enabled (d : list (string * pyval)) : bool :=
  has d "nrtm4_server_private_key" || has d "nrtm4_server_local_path".
Definition check_nrtm4_server (name : string) (d : list (string * pyval)) : check :=
  Ok (error_if ((nrtm4_server_enabled d || has d "nrtm4_server_private_key_next")
        && negb (has d "nrtm4_server_private_key" && has d "nrtm4_server_local_path"))
        ("When setting any nrtm4_server setting, all of nrtm4_server_private_key/nrtm4_server_local_path must be set for source "
           +:+ name +:+ ".")
      ++ error_if (nrtm4_server_enabled d && negb (has d "keep_journal"))
        "NRTMv4 server requires keep_journal to be set for for source {name}.").
Definition check_local_path (name : string) (d : list (string * pyval)) : check :=
  match detail d "nrtm4_server_local_path" with
  | VList (_ :: _) | VDict (_ :: _) => Raise config_type_error
  | _ => Ok tt
  end;;
  Ok (error_if (has d "nrtm4_server_local_path" && negb (isdir (detail d "nrtm4_server_local_path")))
    ("Setting nrtm4_server_local_path for source " +:+ name +:+ " is required and must point to an existing directory.")).
(** A number that is compared with numbers. *)
Definition number_of (v : pyval) : res Z :=
  match v with VInt n => Ok n | VBool b => Ok (if b then 1 else 0)%Z | _ => Raise config_type_error end.
Definition check_snapshot_frequency (name : string) (d : list (string * pyval)) : check :=
  n ← number_of (default (VInt 14400) (assoc "nrtm4_server_snapshot_frequency" d));
  Ok (error_if (negb ((3600 <=? n)%Z && (n <=? 86400)%Z))
    ("nrtm4_server_snapshot_frequency for source " +:+ name +:+ " must be between 1 and 24 hours of 86400 seconds")).
Definition writes_source (d : list (string * pyval)) : bool :=
  has d "authoritative" || has d "nrtm_host" || has d "import_source" || has d "export_destination"
  || has d "export_destination_unfiltered" || has d "nrtm4_client_notification_file_url" || nrtm4_server_enabled d.
Definition check_standby (config : pyval) (name : string) (d : list (string * pyval)) : check :=
  standby ← config_get config "readonly_standby" VNone;
  Ok (error_if (truthy standby && writes_source d)
    ("Source " +:+ name +:+ " can not have authoritative, import_source, nrtm_host, or NRTMv4 client or server set when "
       +:+ "readonly_standby is enabled.")).
Definition number_fields : list string :=
  ["nrtm_port"; "import_timer"; "export_timer"; "route_object_preference"; "nrtm_query_serial_range_limit";
   "nrtm_query_serial_days_limit"; "nrtm4_server_snapshot_frequency"; "nrtm3_client_timeout"].
Definition check_numbers (name : string) (d : list (string * pyval)) : check :=
  Ok (concat ((λ f, error_if (negb (is_numeric (default (VInt 0) (assoc f d))))
                      ("Setting " +:+ f +:+ " for source " +:+ name +:+ " must be a number.")) <$> number_fields)).
Definition check_source (config : pyval) (x : string * pyval) : check :=
  let name := x.1 in
  d ← items_of x.2;
  all_checks [check_source_keys name d; check_source_name config name; check_suspension name d; check_unf_url name d;
    check_mirror_settings name d; check_key name "nrtm4_client_initial_public_key" false d; check_exclusive_settings name d;
    check_nrtm4_server name d; check_key name "nrtm4_server_private_key" true d;
    check_key name "nrtm4_server_private_key_next" true d; check_local_path name d; check_snapshot_frequency name d;
    check_standby config name d; check_numbers name d].
Definition sources_of (config : pyval) : res (list (string * pyval)) :=
  v ← config_get config "sources" (VDict []); items_of v.
Definition check_sources (config : pyval) : check :=
  items ← sources_of config; all_checks (check_source config <$> items).

(** ** References between settings *)

(** [Counter(values)], whose keys are hashed: the texts that occur more than
    once, in the order of their first occurrence; joining other values raises. *)
Definition hashable (v : pyval) : bool := match v with VDict _ => false | _ => true end.
Definition as_number (v : pyval) : option Z :=
  match v with VInt n => Some n | VBool b => Some (if b then 1 else 0)%Z | _ => None end.
Definition occurs_twice (l : list Z) : bool :=
  existsb (λ n, negb (n =? 0)%Z && (1 <? count_occ Z.eq_dec l n)%nat) l.
Definition duplicates (values : list pyval) : res (list string) :=
  if negb (forallb hashable values) || occurs_twice (omap as_number values) then Raise config_type_error
  else
    let strs := omap (λ v, match v with VStr s => Some s | _ => None end) values in
    Ok (List.filter (λ s, negb (String.eqb s "") && (1 <? count_occ String.string_dec strs s)%nat) (oset_update [] strs)).
Definition check_local_paths (config : pyval) : check :=
  items ← sources_of config;
  l ← duplicates ((λ x : string * pyval, settings_get x.2 "nrtm4_server_local_path") <$> items);
  Ok (error_if (negb (bool_decide (l = [])))
    ("Duplicate value(s) " +:+ join "," l +:+ " for source setting nrtm4_server_local_path.")).
Definition has_authoritative_sources (items : list (string * pyval)) : bool :=
  existsb (λ x : string * pyval, truthy (settings_get x.2 "authoritative")) items.
Definition rpki_aware (config : pyval) : res bool :=
  v ← config_get config "rpki.roa_source" (VStr "https://rpki.gin.ntt.net/api/export.json"); Ok (truthy v).
Definition check_notify_invalid (config : pyval) : check :=
  items ← sources_of config;
  rpki ← rpki_aware config;
  enabled ← config_get config "rpki.notify_invalid_enabled" VNone;
  Ok (error_if (rpki && has_authoritative_sources items && is_none enabled)
    ("RPKI-aware mode is enabled and authoritative sources are configured, but rpki.notify_invalid_enabled is not set. "
       +:+ "Set to true or false.DANGER: care is required with this setting in testing setups with live data, as it may send "
       +:+ "bulk emails to real resource contacts unless email.recipient_override is also set. Read documentation carefully.")).
Definition known_sources (config : pyval) : res (list string) :=
  items ← sources_of config;
  rpki ← rpki_aware config;
  Ok (items.*1 ++ if rpki : bool then [RPKI_IRR_PSEUDO_SOURCE] else []).
Definition check_alias (known : list string) (x : string * pyval) : check :=
  let '(alias_name, aliased_sources) := x in
  aliased ← iter_of aliased_sources;
  if negb (forallb hashable aliased) then Raise config_type_error
  else Ok (error_if (negb (SOURCE_NAME_RE alias_name)) ("Invalid source alias name: " +:+ alias_name)
      ++ error_if (bool_decide (alias_name ∈ known))
           ("Source alias name " +:+ alias_name +:+ " conflicts with an already configured real source.")
      ++ concat ((λ s, error_if (negb (is_str s && bool_decide (str_if s ∈ known)))
           ("Source alias " +:+ alias_name +:+ " contains reference to unknown source " +:+ pyval_str s +:+ ".")) <$> aliased)).
Definition aliases_of (config : pyval) : res (list (string * pyval)) :=
  v ← config_get config "source_aliases" (VDict []); items_of v.
Definition check_aliases (config : pyval) : check :=
  known ← known_sources config;
  aliases ← aliases_of config;
  all_checks (check_alias known <$> aliases).
Definition check_default_sources (config : pyval) : check :=
  known ← known_sources config;
  aliases ← aliases_of config;
  v ← config_get config "sources_default" (VList []);
  defaults ← iter_of v;
  let unknown := List.filter (λ s, negb (is_str s && bool_decide (str_if s ∈ known ++ aliases.*1))) defaults in
  if negb (forallb is_str unknown) then Raise config_type_error
  else Ok (error_if (negb (bool_decide (length unknown = 0)))
    ("Setting sources_default contains unknown sources: " +:+ join ", " (set_order (oset_update [] (str_if <$> unknown))))).

(** ** Logging and access lists *)

Definition log_levels : list string := ["DEBUG"; "INFO"; "WARNING"; "ERROR"; "CRITICAL"].
Definition check_log (config : pyval) : check :=
  level ← config_get config "log.level" VNone;
  path ← config_get config "log.logging_config_path" VNone;
  logfile ← config_get config "log.logfile_path" VNone;
  Ok (error_if (truthy level && negb (is_str level && bool_decide (str_if level ∈ log_levels)))
        ("Invalid log.level: " +:+ pyval_str level
           +:+ ". Valid settings for log.level are `DEBUG`, `INFO`, `WARNING`, `ERROR`, `CRITICAL`.")
      ++ error_if (truthy path && (truthy logfile || truthy level))
        "Setting log.logging_config_path can not be combined withlog.logfile_path or log.level").
(** The names of access lists that settings refer to. *)
Definition expected_access_lists (config : pyval) : res (list string) :=
  whois ← config_get config "server.whois.access_list" VNone;
  status ← config_get config "server.http.status_access_list" VNone;
  items ← sources_of config;
  let of_sources := List.filter truthy
    (concat ((λ x : string * pyval, [settings_get x.2 "nrtm_access_list"; settings_get x.2 "nrtm_access_list_unfiltered"]) <$> items)) in
  if negb (forallb hashable ([whois; status] ++ of_sources)) then Raise config_type_error
  else Ok (List.filter (λ s, negb (String.eqb s "")) (str_if <$> [whois; status] ++ of_sources)).
Definition check_expected_access_lists (config : pyval) : check :=
  expected ← expected_access_lists config;
  v ← config_get config "access_lists" (VDict []);
  items ← items_of v;
  let unresolved := merge_sort (λ a b, Is_true (String.leb a b))
                      (List.filter (λ s, negb (bool_decide (s ∈ items.*1))) (oset_update [] expected)) in
  Ok (error_if (negb (bool_decide (unresolved = [])))
    ("Access lists " +:+ join ", " unresolved +:+ " referenced in settings, but not defined.")).

(** ** The check *)

(** [_check_staging_config]. *)
Definition _check_staging_config (config : pyval) : check :=
  all_checks ([check_known_keys config;
    check_str config "database_url" true "Setting database_url is required.";
    check_str config "redis_url" true "Setting redis_url is required.";
    check_piddir config;
    check_number config "route_object_preference.update_timer" "Setting route_object_preference.update_timer must be a number.";
    check_number config "download_timeout" "Setting download_timeout must be a number.";
    check_email config;
    check_str config "email.smtp" true "Setting email.smtp is required.";
    check_email_override config; check_http_url config]
    ++ ((λ setting, check_str config setting false ("Setting " +:+ setting +:+ " must be a string, if defined.")) <$> string_not_required)
    ++ [check_user_group config;
    check_str config "auth.gnupg_keyring" true "Setting auth.gnupg_keyring is required.";
    check_migration config; check_rate_limit config; check_set_creation config; check_hashers config;
    check_access_lists config; check_scope_prefixes config; check_scope_asns config; check_sources config;
    check_local_paths config; check_notify_invalid config; check_aliases config; check_default_sources config;
    check_number config "rpki.roa_import_timer" "Setting rpki.roa_import_timer must be set to a number.";
    check_log config; check_expected_access_lists config]).

(** ** Staging and reloading *)

(** An unescaped dot. *)
Fixpoint is_dotted_key_from (escaped : bool) (key : string) : bool :=
  match key with
  | "" => false
  | String c key' => negb escaped && bool_decide (c = "."%char) || is_dotted_key_from (bool_decide (c = "092"%char)) key'
  end.
Definition is_dotted_key : string → bool := is_dotted_key_from false.
(** [_validate_initial]: no key with a dot at any depth. *)
Definition validate_key (key : string) : res unit :=
  if is_dotted_key key then Raise (ValueError (key +:+ " is not a valid key inside a DottedCollection!")) else Ok tt.
Fixpoint _validate_initial (v : pyval) : res unit :=
  match v with
  | VList l => (fix elements (l : list pyval) : res unit :=
                  match l with [] => Ok tt | v :: l' => _validate_initial v;; elements l' end) l
  | VDict d =>
      (fix items (d : list (string * pyval)) : res unit :=
         match d with [] => Ok tt | (k, v) :: d' => validate_key k;; _validate_initial v;; items d' end) d
  | _ => Ok tt
  end.
(** [dict(v)] with text for keys: of a dict, or of a sequence of pairs. *)
Definition pair_of (v : pyval) : res (string * pyval) :=
  l ← iter_of v;
  match l with
  | [VStr k; w] => Ok (k, w)
  | [_; _] => Raise config_type_error
  | _ => Raise (ValueError "dictionary update sequence element has the wrong length; 2 is required")
  end.
Definition dict_of (v : pyval) : res (list (string * pyval)) :=
  match v with
  | VDict d => Ok d
  | v => l ← iter_of v; pairs ← res_map pair_of l; Ok (fold_left (λ d x, dict_set x.1 x.2 d) pairs [])
  end.
(** [DottedDict(v)]. *)
Definition DottedDict (v : pyval) : res pyval :=
  d ← (match v with VNone => Ok [] | v => dict_of v end);
  _validate_initial (VDict d);;
  Ok (VDict d).

(** What opening and parsing the file gives. *)
Inductive config_file := file_error (message : string) | yaml_error (message : string) | yaml_document (v : pyval).
Record Configuration := {
  user_config_path : string;
  user_config_staging : pyval;
  live_config : pyval;
}.
Definition with_staging (v : pyval) (c : Configuration) : Configuration := {|
  user_config_path := user_config_path c; user_config_staging := v; live_config := live_config c |}.
Definition commit_staging (c : Configuration) : Configuration := {|
  user_config_path := user_config_path c; user_config_staging := user_config_staging c;
  live_config := user_config_staging c |}.
Definition _staging_reload_check (f : config_file) : st Configuration (list string) :=
  c ← st_get;
  match f with
  | file_error oe => mret ["Error opening config file " +:+ user_config_path c +:+ ": " +:+ oe]
  | yaml_error ye => mret ["Error parsing YAML file: " +:+ ye]
  | yaml_document v =>
      match (match v with VDict d => assoc "irrd" d | _ => None end) with
      | None => mret ["Could not find root item " +:+ quoted "irrd" +:+ " in config file " +:+ user_config_path c]
      | Some user =>
          user ← st_lift (DottedDict user);
          _ ← st_modify (with_staging user);
          st_lift (_check_staging_config user)
      end
  end.
(** [reload]: whether the configuration was used. *)
Definition reload (f : config_file) : st Configuration bool :=
  errors ← _staging_reload_check f;
  match errors with
  | [] => _ ← st_modify commit_staging; mret true
  | _ => mret false
  end.
(** [Configuration.__init__]; without [commit] the configuration is only checked. *)
Definition Configuration_init (path : string) (f : config_file) (commit : bool) : res Configuration :=
  match _staging_reload_check f {| user_config_path := path; user_config_staging := VDict []; live_config := VDict [] |} with
  | (c, Ok []) => Ok (if commit then commit_staging c else c)
  | (_, Ok errors) =>
      Raise (ValueError ("Errors found in configuration, unable to start: " +:+ list_repr errors))
  | (_, Raise e) => Raise e
  end.
(** SIGHUP while the process runs: an exception of the check leaves the handler. *)
Definition sighup (f : config_file) (c : Configuration) : Configuration := (reload f c).1.
End ConfCheck.

(** ** The settings in use *)

(** The defaults in [default_config.yaml]. *)
Definition DEFAULT_CONFIG : pyval := VDict [
  ("database_url", VNone); ("download_timeout", VInt 10);
  ("route_object_preference", VDict [("update_timer", VInt 3600)]);
  ("rpki", VDict [("roa_source", VStr "https://rpki.gin.ntt.net/api/export.json"); ("roa_import_timer", VInt 3600);
    ("pseudo_irr_remarks", VStr (join NL ["This AS{asn} route object represents routing data retrieved";
      "from the RPKI. This route object is the result of an automated";
      "RPKI-to-IRR conversion process performed by IRRd.";
      ""]));
    ("notify_invalid_subject", VStr "route(6) objects in {sources_str} marked RPKI invalid");
    ("notify_invalid_header", VStr (join NL ["This is to notify that {object_count} route(6) objects for which you are a";
      "contact have been marked as RPKI invalid. This concerns";
      "objects in the {sources_str} database.";
      "";
      "You have received this message because your e-mail address is";
      "listed in one or more of the tech-c or admin-c contacts, on";
      "the maintainer(s) for these route objects.";
      "";
      "The {object_count} route(6) objects listed below have been validated using";
      "RPKI origin validation, and found to be invalid. This means that";
      "these objects are no longer visible on the IRRd instance that";
      "sent this e-mail.";
      "";
      "This may affect routing filters based on queries to this IRRd";
      "instance. It is also no longer possible to modify these objects.";
      "";
      "To resolve this situation, create or modify ROA objects that";
      "result in these route(6) being valid, or not_found. If this";
      "happens, the route(6) objects will return to being visible.";
      "You may also delete these objects if they are no longer";
      "relevant.";
      ""]))]);
  ("server", VDict [
    ("http", VDict [("interface", VStr "127.0.0.1"); ("port", VInt 8000); ("workers", VInt 4);
      ("forwarded_allowed_ips", VStr "127.0.0.1,::ffff:127.0.0.1,::1")]);
    ("whois", VDict [("interface", VStr "::0"); ("port", VInt 43); ("max_connections", VInt 10)])]);
  ("auth", VDict [("gnupg_keyring", VNone); ("authenticate_parents_route_creation", VBool true);
    ("irrd_internal_migration_enabled", VBool false); ("webui_auth_failure_rate_limit", VStr "30/hour");
    ("set_creation", VDict [("COMMON", VDict [("prefix_required", VBool true); ("autnum_authentication", VStr "opportunistic")])]);
    ("password_hashers", VDict [("crypt-pw", VStr "legacy"); ("md5-pw", VStr "enabled"); ("bcrypt-pw", VStr "enabled")])]);
  ("email", VDict [("footer", VStr ""); ("notification_header", VStr (join NL ["This is to notify you of changes in the {sources_str} database";
      "or object authorisation failures.";
      "";
      "You may receive this message because you are listed in";
      "the notify attribute on the changed object(s), because";
      "you are listed in the mnt-nfy or upd-to attribute on a maintainer";
      "of the object(s), or the upd-to attribute on the maintainer of a";
      "parent of newly created object(s).";
      ""]));
    ("from", VNone); ("smtp", VNone)])].
(** The configuration that [get_setting] reads. *)
Definition settings_of (environment : list (string * string)) (user : pyval) : configuration := {|
  environ := environment; testing_overrides := VNone; user_config_live := user; default_config := DEFAULT_CONFIG;
  known_config_keys := KNOWN_CONFIG_KEYS; known_sources_keys := KNOWN_SOURCES_KEYS;
  known_flexible_keys := KNOWN_FLEXIBLE_KEYS |}.
