(* ===== verification/ConfCheckTheory.v ===== *)
(** * What an accepted configuration guarantees

    Reloading never puts a configuration in use that the checks refuse, and one
    that they accept suits the components that read it: the scheduler and the
    scope filter do not raise on it, and its sources have one role each. *)
From S2P Require Import Prelude PyStr Conf Net Models Text Rpki ScopeFilter Fields RpslObjects RpslParser Queries RoutePref Database DatabaseHandler StorageTheory JournalTheory Nrtm Retrieval MirrorScheduler MirrorSchedulerTheory ConfCheck.

(** ** Checks that find nothing *)

Lemma all_checks_Ok (checks : list check) : all_checks checks = Ok [] ↔ Forall (λ c, c = Ok []) checks.
Proof.
  induction checks as [|c checks IH]; [by split|]. rewrite Forall_cons, <- IH. cbn [all_checks].
  split.
  - intros (l & Hl & (l' & Hl' & [= E])%res_bind_Ok)%res_bind_Ok. apply app_nil in E as [-> ->]. done.
  - intros [-> ->]. done.
Qed.
Lemma error_if_nil b msg : error_if b msg = [] ↔ b = false.
Proof. by destruct b. Qed.
Lemma Ok_nil (l : list string) : Ok l = Ok [] ↔ l = [].
Proof. split; [by intros [= ->]|by intros ->]. Qed.
Lemma value_error_Ok {A} (m : res A) msg : value_error m msg = Ok [] → ∃ a, m = Ok a.
Proof. unfold value_error. destruct m as [a|e]; [eauto|]. by destruct (is_ValueError e). Qed.
(** ** Numbers *)

Lemma numeric_digits s : is_numeric (VStr s) = true → str_all is_ascii_char s = true → str_all is_digit s = true.
Proof.
  simpl. intros [_ Hs]%andb_true_iff. revert Hs. induction s as [|c s IH]; [done|]. simpl.
  intros [Hc Hs]%andb_true_iff [Ha Has]%andb_true_iff. rewrite (IH Hs Has), andb_true_r. clear IH Hs Has.
  unfold is_numeric_char in Hc. unfold is_ascii_char in Ha. unfold is_digit.
  apply N.ltb_lt in Ha. rewrite !orb_true_iff, andb_true_iff, !N.leb_le, !N.eqb_eq in Hc.
  rewrite ?andb_true_iff, ?N.leb_le. lia.
Qed.
Lemma parse_digits_total s a : s ≠ "" → str_all is_digit s = true → ∃ n, parse_digits a false s = Some n.
Proof.
  intros Hne Hs. assert (∀ b a, (s = "" → b = true) → ∃ n, parse_digits a b s = Some n) as H; [|by apply H].
  clear Hne a. induction s as [|c s IH]; intros b a Hb; [rewrite Hb by done; by exists a|].
  simpl in Hs |- *. apply andb_true_iff in Hs as [-> Hs]. by apply IH.
Qed.
(** A number under check, when it is written with ASCII digits, is a number for [int]. *)
Definition ascii_text (v : pyval) : Prop := match v with VStr s => str_all is_ascii_char s = true | _ => True end.
Lemma numeric_int v : is_numeric v = true → ascii_text v → ∃ n, int_py v = Ok n.
Proof.
  intros Hv Ha. destruct v as [| |n|s| |]; try done; [by exists n|].
  destruct (parse_digits_total s 0) as [n Hn]; [by destruct s|by apply numeric_digits|].
  exists n. unfold int_py, pyval_int. by rewrite (py_int_digits s n (numeric_digits s Hv Ha) Hn).
Qed.

(** ** Settings in use *)

Lemma config_walk_dotted path u v dflt : dotted_walk path u = Some v → config_walk path u dflt = Ok v.
Proof.
  revert u. induction path as [|k path IH]; intros u; simpl; [by intros [= ->]|].
  destruct u as [| | | | |d]; try done. destruct (assoc k d); [apply IH|done].
Qed.
Lemma config_walk_missing path u v dflt :
  dotted_walk path u = None → config_walk path u dflt = Ok v → v = dflt.
Proof.
  revert u. induction path as [|k path IH]; intros u; simpl; [done|].
  destruct u as [| | | | |d]; try (by intros _ [= ->]). destruct (assoc k d); [apply IH|]. by intros _ [= ->].
Qed.
(** The value of a setting is the one under check, or the default one. *)
Lemma setting_checked u key dflt v :
  config_get u key dflt = Ok v →
  setting_value (settings_of [] u) key dflt = v ∨
    v = dflt ∧ dotted_get key u = None ∧ setting_value (settings_of [] u) key dflt = default dflt (dotted_get key DEFAULT_CONFIG).
Proof.
  unfold config_get, setting_value, settings_of. cbn [environ testing_overrides user_config_live default_config assoc truthy].
  intros Hv. destruct (dotted_get key u) as [w|] eqn:E.
  - left. unfold dotted_get in E. rewrite (config_walk_dotted _ _ _ dflt E) in Hv. by injection Hv as ->.
  - right. split; [by eapply config_walk_missing|]. split; [done|]. by destruct (dotted_get key DEFAULT_CONFIG).
Qed.

(** ** Methods that never raise *)

Section Returns.
Context {S : Type}.
Definition returns {A} (m : st S A) : Prop := ∀ s, ∃ s' a, m s = (s', Ok a).
Lemma st_returns_ret {A} (a : A) : returns (mret a).
Proof. intros s. by exists s, a. Qed.
Lemma returns_get : returns st_get.
Proof. intros s. by exists s, s. Qed.
Lemma returns_modify f : returns (st_modify f).
Proof. intros s. by exists (f s), tt. Qed.
Lemma returns_lift {A} (m : res A) : (∃ a, m = Ok a) → returns (st_lift m).
Proof. intros [a ->] s. by exists s, a. Qed.
Lemma st_returns_bind {A B} (m : st S A) (f : A → st S B) : returns m → (∀ a, returns (f a)) → returns (m ≫= f).
Proof. intros Hm Hf s. destruct (Hm s) as (s1 & a & E). unfold mbind, st_bind. rewrite E. apply Hf. Qed.
Lemma returns_if {A} (b : bool) (m n : st S A) : returns m → returns n → returns (if b then m else n).
Proof. by destruct b. Qed.
End Returns.
Create HintDb returns.
Ltac returns_tac :=
  repeat match goal with
  | |- returns (_ ≫= _) => apply st_returns_bind; [|intros]
  | |- returns (mret _) => apply st_returns_ret
  | |- returns st_get => apply returns_get
  | |- returns (st_modify _) => apply returns_modify
  | |- returns (if _ then _ else _) => apply returns_if
  | |- returns (let _ := _ in _) => cbv zeta
  | |- returns _ => solve [auto with returns]
  end.

Section Accepted.
Context `{IPyLib} (isdir : pyval → bool) (limits_parse : pyval → res unit) (eckey_from_str : pyval → bool → res unit).
Context (set_order : list string → list string).
Notation accepts u := (_check_staging_config isdir limits_parse eckey_from_str set_order u = Ok []).

(** ** The parts of the check *)

Lemma accepts_check u c :
  accepts u → In c (
    [check_scope_prefixes u; check_scope_asns u; check_sources isdir eckey_from_str set_order u;
     check_aliases u; check_default_sources set_order u;
     check_number u "rpki.roa_import_timer" "Setting rpki.roa_import_timer must be set to a number.";
     check_number u "route_object_preference.update_timer" "Setting route_object_preference.update_timer must be a number."]) →
  c = Ok [].
Proof using Type.
  unfold _check_staging_config. intros Hall%all_checks_Ok Hc. rewrite Forall_forall in Hall. apply Hall.
  rewrite !elem_of_app, list_elem_of_In. simpl in Hc |- *. rewrite !list_elem_of_In. simpl. tauto.
Qed.
Lemma accepts_sources u : accepts u → ∃ items, sources_of u = Ok items
  ∧ ∀ x, x ∈ items → check_source isdir eckey_from_str set_order u x = Ok [].
Proof using Type.
  intros Hu. assert (check_sources isdir eckey_from_str set_order u = Ok []) as Hs.
  { eapply accepts_check; [exact Hu|]. simpl. tauto. }
  revert Hs. unfold check_sources. intros (items & Hitems & Hall)%res_bind_Ok. exists items. split; [done|].
  intros x Hx. apply all_checks_Ok in Hall. rewrite Forall_fmap, Forall_forall in Hall. by apply Hall.
Qed.
(** The sources that [get_setting] iterates over are those under check. *)
Lemma sources_in_use u items : sources_of u = Ok items → sources_items (settings_of [] u) = items.
Proof using Type.
  unfold sources_of. intros (v & Hv & Hitems)%res_bind_Ok. unfold sources_items, get_setting_default.
  destruct (setting_checked _ _ _ _ Hv) as [->|(-> & _ & ->)].
  - by destruct v; try done; injection Hitems as <-.
  - by injection Hitems as <-.
Qed.
Lemma dotted_source u source key :
  has_char "."%char source = false → has_char "."%char key = false →
  dotted_get ("sources." +:+ source +:+ "." +:+ key) u = dotted_walk ["sources"; source; key] u.
Proof using Type.
  intros Hs Hk. unfold dotted_get. f_equal.
  change ("sources." +:+ source +:+ "." +:+ key) with ("sources" +:+ String "." (source +:+ String "." key)).
  rewrite split_on_app by done. rewrite split_on_app by done. by rewrite (split_on_none _ key).
Qed.
(** A setting of a source is the one in the dict that was checked. *)
Lemma source_in_use u items source key dflt :
  sources_of u = Ok items → has_char "."%char source = false → has_char "."%char key = false →
  setting_of (settings_of [] u) source key dflt
  = match assoc source items with Some (VDict d) => default dflt (assoc key d) | _ => dflt end.
Proof using Type.
  intros Hitems Hs Hk. unfold setting_of, get_setting_default, setting_value, settings_of.
  cbn [environ testing_overrides user_config_live default_config assoc truthy].
  rewrite !dotted_source by done. cbn [dotted_walk DEFAULT_CONFIG assoc]. cbn.
  revert Hitems. unfold sources_of, config_get. change (split_on "."%char "sources") with ["sources"].
  intros (v & Hv & Hitems)%res_bind_Ok.
  assert (VDict [] = v → items = []) as Hempty by (by intros <-; injection Hitems as <-).
  destruct u as [| | | | |d]; try (injection Hv as Hv; by rewrite (Hempty Hv)); [done|].
  cbn in Hv |- *. destruct (assoc "sources" d) as [w|]; [|injection Hv as Hv; by rewrite (Hempty Hv)].
  injection Hv as ->. destruct v; try done. injection Hitems as ->. destruct (assoc source items) as [w|]; [|done].
  destruct w; try done. by destruct (assoc key d0).
Qed.

(** ** One source *)

Lemma checked_source u items name w :
  accepts u → sources_of u = Ok items → (name, w) ∈ items →
  ∃ d, w = VDict d ∧ SOURCE_NAME_RE name = true
    ∧ (∀ f, f ∈ number_fields → is_numeric (default (VInt 0) (assoc f d)) = true)
    ∧ check_exclusive_settings name d = Ok [] ∧ check_nrtm4_server name d = Ok [] ∧ check_standby u name d = Ok [].
Proof using Type.
  intros Hu Hitems Hin. destruct (accepts_sources u Hu) as (items' & Hitems' & Hall).
  rewrite Hitems in Hitems'. injection Hitems' as <-. specialize (Hall _ Hin). unfold check_source in Hall. cbn [fst snd] in Hall.
  apply res_bind_Ok in Hall as (d & Hd & Hall). destruct w; try done. injection Hd as ->. exists d. split; [done|].
  apply all_checks_Ok in Hall. rewrite Forall_forall in Hall.
  assert (∀ c, c ∈ [check_source_name u name; check_exclusive_settings name d; check_nrtm4_server name d;
    check_standby u name d; check_numbers name d] → c = Ok []) as Hsome.
  { intros c Hc. apply Hall. rewrite !list_elem_of_In in *. simpl in *. tauto. }
  clear Hall. repeat setoid_rewrite elem_of_cons in Hsome.
  split_and!; try (apply Hsome; tauto).
  - assert (check_source_name u name = Ok []) as Hn by (apply Hsome; tauto). revert Hn. unfold check_source_name.
    intros (roa & _ & Hn)%res_bind_Ok. apply Ok_nil, app_nil in Hn as [_ Hn]. apply error_if_nil, negb_false_iff in Hn. done.
  - intros f Hf. assert (check_numbers name d = Ok []) as Hn by (apply Hsome; tauto). apply Ok_nil in Hn.
    apply (proj1 (concat_nil _ _) Hn) in Hf. apply error_if_nil, negb_false_iff in Hf. done.
Qed.
Lemma source_rest_no_dot s : source_rest s = true → has_char "."%char s = false.
Proof using Type.
  assert (∀ c, is_source_char c || bool_decide (c = "-"%char) = true → bool_decide ("."%char = c) = false) as Hc.
  { intros c Hc. apply bool_decide_eq_false. intros <-. vm_compute in Hc. discriminate. }
  induction s as [|c s IH]; [done|]. intros Hs. rewrite has_char_cons, orb_false_iff.
  destruct s as [|d s]; [split; [apply Hc; cbn in Hs; by rewrite Hs|done]|].
  cbn [source_rest] in Hs. apply andb_true_iff in Hs as [H1 Hs]. split; [by apply Hc|].
  apply orb_true_iff in Hs as [Hs|[_ ->%String.eqb_eq]%andb_true_iff]; [by apply IH|done].
Qed.
Lemma source_name_no_dot name : SOURCE_NAME_RE name = true → has_char "."%char name = false.
Proof using Type.
  destruct name as [|c s]; [done|]. simpl. intros [Hc Hs]%andb_true_iff.
  rewrite has_char_cons, orb_false_iff. split; [|by apply source_rest_no_dot].
  apply bool_decide_eq_false. intros <-. vm_compute in Hc. discriminate.
Qed.
(** The settings of a source that is in use, as they were checked. *)
Lemma source_in_settings u name :
  accepts u → name ∈ sources_keys (settings_of [] u) →
  ∃ items d, sources_of u = Ok items ∧ assoc name items = Some (VDict d) ∧ (name, VDict d) ∈ items
    ∧ has_char "."%char name = false.
Proof using Type.
  intros Hu Hname. destruct (accepts_sources u Hu) as (items & Hitems & _). exists items.
  unfold sources_keys in Hname. rewrite (sources_in_use u items Hitems) in Hname.
  apply list_elem_of_fmap in Hname as ([name' w'] & -> & Hin). simpl.
  assert (∃ w, assoc name' items = Some w) as [w Hw].
  { clear -Hin. induction items as [|[k v] items IH]; [by apply elem_of_nil in Hin|]. simpl. case_decide; [eauto|].
    apply IH. by apply elem_of_cons in Hin as [[= -> ->]|Hin]. }
  pose proof (assoc_elem _ _ _ Hw) as Hin'. destruct (checked_source u items name' w Hu Hitems Hin') as (d & -> & Hre & _).
  exists d. split_and!; try done. by apply source_name_no_dot.
Qed.

(** The numbers of the configuration are written with ASCII digits. *)
Definition ascii_numbers (u : pyval) : Prop :=
  (∀ items name d f v, sources_of u = Ok items → (name, VDict d) ∈ items → f ∈ number_fields →
     assoc f d = Some v → ascii_text v)
  ∧ (∀ key v, key ∈ ["rpki.roa_import_timer"; "route_object_preference.update_timer"] → dotted_get key u = Some v → ascii_text v).
Lemma source_number u name f dflt :
  accepts u → ascii_numbers u → name ∈ sources_keys (settings_of [] u) → f ∈ number_fields → (∃ n, int_py dflt = Ok n) →
  ∃ n, int_py (setting_of (settings_of [] u) name f dflt) = Ok n.
Proof using Type.
  intros Hu [Hascii _] Hname Hf Hdflt. destruct (source_in_settings u name Hu Hname) as (items & d & Hitems & Hd & Hin & Hdot).
  assert (has_char "."%char f = false) as Hfdot.
  { unfold number_fields in Hf. rewrite !elem_of_cons in Hf. by destruct_or? Hf; subst; try (by apply elem_of_nil in Hf). }
  rewrite (source_in_use u items) by done. rewrite Hd.
  destruct (assoc f d) as [v|] eqn:Ev; [|done]. simpl.
  destruct (checked_source u items name (VDict d) Hu Hitems Hin) as (d' & [= <-] & _ & Hnum & _).
  specialize (Hnum f Hf). rewrite Ev in Hnum. apply numeric_int; [done|]. by eapply Hascii.
Qed.
Lemma timer_number u key msg :
  accepts u → ascii_numbers u → key ∈ ["rpki.roa_import_timer"; "route_object_preference.update_timer"] →
  check_number u key msg = Ok [] → (∃ n, int_py (default VNone (dotted_get key DEFAULT_CONFIG)) = Ok n) →
  ∃ n, int_py (get_setting (settings_of [] u) key) = Ok n.
Proof using Type.
  intros Hu [_ Hascii] Hkey Hcheck Hdflt. unfold get_setting, setting_value, settings_of.
  cbn [environ testing_overrides user_config_live default_config assoc truthy].
  revert Hcheck. unfold check_number. intros (v & Hv & Hnum)%res_bind_Ok.
  apply Ok_nil, error_if_nil, negb_false_iff in Hnum.
  destruct (dotted_get key u) as [w|] eqn:E; [|by destruct (dotted_get key DEFAULT_CONFIG)].
  unfold config_get in Hv. rewrite (config_walk_dotted _ _ _ _ E) in Hv. injection Hv as ->.
  apply numeric_int; [done|]. by eapply Hascii.
Qed.
Lemma res_map_total {A B} (f : A → res B) l : (∀ x, x ∈ l → ∃ y, f x = Ok y) → ∃ ys, res_map f l = Ok ys.
Proof using Type.
  induction l as [|x l IH]; intros Hf; [by exists []|]. destruct (Hf x) as [y Hy]; [by left|].
  destruct IH as [ys Hys]; [intros z Hz; apply Hf; by right|]. exists (y :: ys). simpl. by rewrite Hy, Hys.
Qed.
(** The items of a list setting are the ones that were checked. *)
Lemma items_in_use u key (m : pyval → check) :
  (v ← config_get u key (VList []); items ← iter_of v; all_checks (m <$> items)) = Ok [] →
  dotted_get key DEFAULT_CONFIG = None →
  ∃ items, iter_of (get_setting_default (settings_of [] u) key (VList [])) = Ok items ∧ ∀ x, x ∈ items → m x = Ok [].
Proof using Type.
  intros (v & Hv & (items & Hitems & Hall)%res_bind_Ok)%res_bind_Ok Hdflt. unfold get_setting_default.
  destruct (setting_checked _ _ _ _ Hv) as [E|(_ & _ & E)].
  - rewrite E. exists items. split; [done|]. apply all_checks_Ok in Hall. rewrite Forall_fmap, Forall_forall in Hall. exact Hall.
  - rewrite E, Hdflt. exists []. split; [done|]. by intros x ?%elem_of_nil.
Qed.
Lemma scope_prefixes_in_use u : accepts u →
  ∃ items, iter_of (get_setting_default (settings_of [] u) "scopefilter.prefixes" (VList [])) = Ok items
    ∧ ∀ x, x ∈ items → ∃ y, IP_py x = Ok y.
Proof using Type.
  intros Hu. destruct (items_in_use u "scopefilter.prefixes" (λ prefix, value_error (IP_py prefix)
      (λ ve, "Invalid item in prefix scopefilter: " +:+ pyval_str prefix +:+ ": " +:+ ve +:+ "."))) as (items & E & Hitems);
    [eapply accepts_check; [exact Hu|]; by left|done|]. exists items. split; [exact E|].
  intros x Hx. specialize (Hitems x Hx). by apply value_error_Ok in Hitems.
Qed.
Lemma scope_asns_in_use u : accepts u →
  ∃ items, iter_of (get_setting_default (settings_of [] u) "scopefilter.asns" (VList [])) = Ok items
    ∧ ∀ x, x ∈ items → ∃ y, load_asn_filter x = Ok y.
Proof using Type.
  intros Hu. destruct (items_in_use u "scopefilter.asns" check_scope_asn) as (items & E & Hitems);
    [eapply accepts_check; [exact Hu|]; simpl; tauto|done|]. exists items. split; [exact E|].
  intros x Hx. specialize (Hitems x Hx). destruct x; try done; by apply value_error_Ok in Hitems.
Qed.
Lemma load_filters_returns u : accepts u → ∃ v, load_filters (settings_of [] u) = Ok v.
Proof using Type.
  intros Hu. unfold load_filters. destruct (scope_prefixes_in_use u Hu) as (prefixes & -> & Hp), (scope_asns_in_use u Hu) as (asns & Ea & Ha).
  cbn [mbind res_bind]. destruct (res_map_total IP_py prefixes Hp) as [ps ->]. cbn [mbind res_bind]. rewrite Ea. cbn [mbind res_bind].
  destruct (res_map_total load_asn_filter asns Ha) as [fs ->]. by eexists.
Qed.

Lemma run_if_relevant_returns now source c timer b : returns (run_if_relevant now source c timer b).
Proof using Type. unfold run_if_relevant. returns_tac. Qed.
Lemma check_scopefilter_returns u : accepts u → returns (_check_scopefilter_change (settings_of [] u)).
Proof using Type.
  intros Hu. unfold _check_scopefilter_change. apply returns_if; [apply st_returns_ret|].
  destruct (scope_prefixes_in_use u Hu) as (prefixes & Ep & _), (scope_asns_in_use u Hu) as (asns & Ea & _).
  apply st_returns_bind; [apply returns_lift; eauto|intros ?]. apply st_returns_bind; [apply returns_lift; eauto|intros ?]. returns_tac.
Qed.
Hint Resolve run_if_relevant_returns check_scopefilter_returns : returns.
Lemma scheduler_returns u : accepts u → ascii_numbers u → ∀ now, returns (scheduler_run (settings_of [] u) now).
Proof using Type.
  intros Hu Hascii now. set (cfg := settings_of [] u).
  assert (∀ name, name ∈ sources_keys cfg → returns (run_source cfg now name)) as Hsource.
  { intros name Hname. unfold run_source. apply st_returns_bind; [|intros timer].
    { apply returns_lift, source_number; try done; [|eexists; reflexivity]. unfold number_fields. set_solver. }
    apply st_returns_bind; [returns_tac|intros started]. apply st_returns_bind; [|intros timer'; returns_tac].
    apply returns_lift, source_number; try done; [|eexists; reflexivity]. unfold number_fields. set_solver. }
  assert (∀ names n, (∀ name, name ∈ names → name ∈ sources_keys cfg) → returns (run_sources cfg now names n)) as Hsources.
  { induction names as [|name names IH]; intros n Hnames; simpl; [apply st_returns_ret|]. apply returns_if; [apply st_returns_ret|].
    apply st_returns_bind; [apply Hsource, Hnames; by left|intros started]. apply IH. intros x Hx. apply Hnames. by right. }
  unfold scheduler_run, run_roa_import, run_route_preference, run_scopefilter.
  apply st_returns_bind; [|intros _; apply st_returns_bind; [|intros _; apply st_returns_bind; [apply st_returns_bind; [by apply check_scopefilter_returns|intros ?; returns_tac]|intros _; by apply Hsources]]].
  - apply returns_if; [|apply st_returns_ret]. apply st_returns_bind; [|intros; returns_tac].
    apply returns_lift. eapply (timer_number u "rpki.roa_import_timer"); [done|done|by left| |by eexists].
    eapply accepts_check; [exact Hu|]. simpl. tauto.
  - apply returns_if; [|apply st_returns_ret]. apply st_returns_bind; [|intros; returns_tac].
    apply returns_lift. eapply (timer_number u "route_object_preference.update_timer"); [done|done|by right; left| |by eexists].
    eapply accepts_check; [exact Hu|]. simpl. tauto.
Qed.
(** ** Reloading *)

Notation reload_check := (_staging_reload_check isdir limits_parse eckey_from_str set_order).
Notation reload := (reload isdir limits_parse eckey_from_str set_order).
(** The configuration of a process that started, after some signals. *)
Definition running (path : string) (f : config_file) (signals : list config_file) (c : Configuration) : Prop :=
  ∃ c0, Configuration_init isdir limits_parse eckey_from_str set_order path f true = Ok c0
    ∧ c = fold_left (λ c f, sighup isdir limits_parse eckey_from_str set_order f c) signals c0.

(** A check without errors was one of what is staged, which is accepted. *)
Lemma reload_check_accepts f c c' : reload_check f c = (c', Ok []) → accepts (user_config_staging c').
Proof using Type.
  unfold _staging_reload_check, mbind, st_bind, st_get. destruct f as [oe|ye|v]; [discriminate..|].
  destruct v as [| | | | |d]; try discriminate. destruct (assoc "irrd" d) as [w|]; [|discriminate].
  destruct (DottedDict w) as [u|e]; [|discriminate]. unfold st_lift, st_modify. intros [= <- Hu]. exact Hu.
Qed.
Lemma reload_check_live f c : live_config (reload_check f c).1 = live_config c.
Proof using Type.
  unfold _staging_reload_check, mbind, st_bind, st_get. destruct f as [oe|ye|v]; [done|done|].
  destruct v as [| | | | |d]; try done. destruct (assoc "irrd" d) as [w|]; [|done]. by destruct (DottedDict w).
Qed.
Lemma reload_accepts f c : accepts (live_config c) → accepts (live_config (reload f c).1).
Proof using Type.
  intros Hc. unfold ConfCheck.reload, mbind, st_bind. pose proof (reload_check_live f c) as Hl.
  destruct (reload_check f c) as [c' [[|e es]|e]] eqn:E; simpl in *; [exact (reload_check_accepts _ _ _ E)|rewrite Hl; exact Hc|rewrite Hl; exact Hc].
Qed.
Lemma running_accepts path f signals c : running path f signals c → accepts (live_config c).
Proof using Type.
  intros (c0 & Hinit & ->). assert (accepts (live_config c0)) as H0.
  { unfold Configuration_init in Hinit.
    destruct (reload_check f _) as [c' [[|e es]|e]] eqn:E; try discriminate. injection Hinit as <-. exact (reload_check_accepts _ _ _ E). }
  clear Hinit. revert c0 H0. induction signals as [|g signals IH]; intros c0 H0; [exact H0|]. apply IH, reload_accepts, H0.
Qed.

(** C24. Whatever files a running process is told to reload, the configuration in use
    is one on which the scheduler and the loading of the scope filter do not
    raise, if its numbers are written with ASCII digits. *)
Theorem reloads_keep_running path f signals c :
  running path f signals c → ascii_numbers (live_config c) →
  (∀ now s, ∃ s', scheduler_run (settings_of [] (live_config c)) now s = (s', Ok tt))
  ∧ ∃ filters, load_filters (settings_of [] (live_config c)) = Ok filters.
Proof using Type.
  intros Hu%running_accepts Hascii. split; [|exact (load_filters_returns _ Hu)].
  intros now s. destruct (scheduler_returns _ Hu Hascii now s) as (s' & [] & Hs). by exists s'.
Qed.

(** ** Roles of sources *)

(** A setting of a source. *)
Lemma has_setting u items name d key :
  sources_of u = Ok items → assoc name items = Some (VDict d) →
  has_char "."%char name = false → has_char "."%char key = false →
  truthy (setting_of (settings_of [] u) name key VNone) = has d key.
Proof using Type. intros Hitems Hd Hn Hk. rewrite (source_in_use u items) by done. by rewrite Hd. Qed.
Lemma source_roles u name :
  accepts u → name ∈ sources_keys (settings_of [] u) →
  ∃ d, (∀ key, has_char "."%char key = false → truthy (source_setting (settings_of [] u) name key) = has d key)
    ∧ check_exclusive_settings name d = Ok [] ∧ check_nrtm4_server name d = Ok [] ∧ check_standby u name d = Ok [].
Proof using Type.
  intros Hu Hname. destruct (source_in_settings u name Hu Hname) as (items & d & Hitems & Hd & Hin & Hdot).
  exists d. split; [intros key Hkey; by eapply has_setting|].
  destruct (checked_source u items name (VDict d) Hu Hitems Hin) as (d' & [= <-] & _ & _ & Hchecks). exact Hchecks.
Qed.

(** C25. An accepted source has one role: what is authoritative is not mirrored, an
    NRTMv4 server has a journal and a directory to publish in, and a standby
    neither accepts, imports nor exports. *)
Theorem accepted_roles u name :
  accepts u → name ∈ sources_keys (settings_of [] u) →
  let cfg := settings_of [] u in
  let setting key := truthy (source_setting cfg name key) in
  (setting "authoritative" = true → is_mirror cfg name = false)
  ∧ (setting "nrtm4_server_private_key" = true → setting "keep_journal" = true ∧ setting "nrtm4_server_local_path" = true)
  ∧ (truthy (get_setting cfg "readonly_standby") = true →
       setting "authoritative" = false ∧ is_mirror cfg name = false ∧ runs_rpsl_export cfg name = false
       ∧ setting "nrtm4_server_private_key" = false).
Proof using Type.
  intros Hu Hname cfg setting. destruct (source_roles u name Hu Hname) as (d & Hset & Hexcl & Hserver & Hstandby).
  unfold is_mirror, runs_rpsl_export, setting, cfg. rewrite !Hset by reflexivity. clear setting cfg Hset.
  apply Ok_nil, app_nil in Hexcl as [_ Hauth%error_if_nil]. apply Ok_nil, app_nil in Hserver as [Hboth%error_if_nil Hjournal%error_if_nil].
  split_and!.
  - intros Ha. rewrite Ha in Hauth. simpl in Hauth. destruct (has d "import_source"), (has d "nrtm_host"), (has d "nrtm4_client_notification_file_url"); done.
  - intros Hk. unfold nrtm4_server_enabled in *. rewrite Hk in *. simpl in *.
    destruct (has d "keep_journal"), (has d "nrtm4_server_local_path"); done.
  - intros Hs. assert (writes_source d = false) as Hw; [|].
    { revert Hstandby. unfold check_standby. intros (v & Hv & Hn)%res_bind_Ok. apply Ok_nil, error_if_nil in Hn.
      destruct (setting_checked _ _ _ _ Hv) as [E|(_ & _ & E)]; unfold get_setting in Hs; rewrite E in Hs;
        [by rewrite Hs in Hn|by vm_compute in Hs]. }
    unfold writes_source, nrtm4_server_enabled in Hw. rewrite !orb_false_iff in Hw.
    destruct Hw as [[[[[[-> ->] ->] ->] ->] ->] [-> _]]. done.
Qed.
End Accepted.

(** ** Examples *)

Module ConfCheckExamples.
Import ConcreteIP.

Definition ex_check (u : pyval) : res (list string) := _check_staging_config (λ _, true) (λ _, Ok tt) (λ _ _, Ok tt) id u.
(** A small configuration, with some more general settings and with these sources. *)
Definition ex_config (extra sources : list (string * pyval)) : pyval := VDict ([
  ("database_url", VStr "postgresql:///irrd"); ("redis_url", VStr "redis://localhost"); ("piddir", VStr "/var/run");
  ("email", VDict [("from", VStr "irrd@example.com"); ("smtp", VStr "localhost")]);
  ("server", VDict [("http", VDict [("url", VStr "https://irrd.example.com/")])]);
  ("auth", VDict [("gnupg_keyring", VStr "/keyring")])] ++ extra ++ [("sources", VDict sources)]).
Definition rpki_setting (roa_source : pyval) : string * pyval :=
  ("rpki", VDict [("roa_source", roa_source); ("notify_invalid_enabled", VBool false)]).
Definition ex_accepted : pyval :=
  ex_config [rpki_setting (VStr "https://example.com/roa"); ("scopefilter", VDict [("prefixes", VList [VStr "10.0.0.0/8"]); ("asns", VList [VInt 23456; VStr "64496-64511"])])]
    [("TEST", VDict [("authoritative", VBool true); ("keep_journal", VBool true); ("export_timer", VStr "120");
                     ("nrtm4_server_private_key", VStr "k"); ("nrtm4_server_local_path", VStr "/nrtm4")]);
     ("MIRROR", VDict [("nrtm_host", VStr "nrtm.example.net"); ("import_serial_source", VStr "ftp://example.net/serial")])].
Example ex_accepted_ok : ex_check ex_accepted = Ok [].
Proof. vm_compute. reflexivity. Qed.
(** Text that is not a number, and a source name in lower case. *)
Definition ex_refused : pyval :=
  ex_config [rpki_setting (VStr ""); ("scopefilter", VDict [("asns", VList [VStr "AS64496"])])]
    [("test", VDict [("import_timer", VStr "5m"); ("authoritative", VBool true); ("nrtm_host", VStr "h")])].
Example ex_refused_errors : ex_check ex_refused = Ok [
  "Invalid item in asn scopefilter: AS64496.";
  "Invalid source name: test";
  "Setting nrtm_host for source test can not be enabled without setting import_serial_source.";
  "Setting authoritative for source test can not be enabled when either nrtm_host, import_source, or nrtm4_client_notification_file_url are set.";
  "Setting import_timer for source test must be a number."].
Proof. vm_compute. reflexivity. Qed.

Definition file_of (u : pyval) : config_file := yaml_document (VDict [("irrd", u)]).
Definition ex_started : Configuration :=
  {| user_config_path := "/etc/irrd.yaml"; user_config_staging := ex_accepted; live_config := ex_accepted |}.
(** A refused file, one that is no YAML, and one that makes the check raise. *)
Definition ex_signals : list config_file :=
  [file_of ex_refused; yaml_error "bad indentation"; file_of (ex_config [("scopefilter", VDict [("asns", VList [VNone])])] [])].
Definition ex_reloaded : Configuration :=
  fold_left (λ c f, sighup (λ _, true) (λ _, Ok tt) (λ _ _, Ok tt) id f c) ex_signals ex_started.
Lemma ex_reloaded_live : live_config ex_reloaded = ex_accepted.
Proof. vm_compute. reflexivity. Qed.
Lemma ex_running : running (λ _, true) (λ _, Ok tt) (λ _ _, Ok tt) id "/etc/irrd.yaml" (file_of ex_accepted) ex_signals ex_reloaded.
Proof. exists ex_started. split; [vm_compute; reflexivity|reflexivity]. Qed.
Lemma ex_ascii : ascii_numbers ex_accepted.
Proof.
  split.
  - intros items name d f v Hitems Hin Hf Hv. vm_compute in Hitems. injection Hitems as <-.
    rewrite !elem_of_cons in Hin. destruct Hin as [[= -> ->]|[[= -> ->]|?%elem_of_nil]]; [| |done];
      unfold number_fields in Hf; rewrite !elem_of_cons in Hf; destruct_or! Hf; subst; try done; try by apply elem_of_nil in Hf.
    all: vm_compute in Hv; try discriminate; injection Hv as <-; reflexivity.
  - intros key v Hkey Hv. rewrite !elem_of_cons in Hkey. destruct Hkey as [->|[->|?%elem_of_nil]]; vm_compute in Hv; done.
Qed.
Lemma reloads_keep_running_witness :
  live_config ex_reloaded = ex_accepted
  ∧ ∃ filters, load_filters (settings_of [] (live_config ex_reloaded)) = Ok filters.
Proof.
  split; [exact ex_reloaded_live|].
  apply (reloads_keep_running (λ _, true) (λ _, Ok tt) (λ _ _, Ok tt) id "/etc/irrd.yaml" (file_of ex_accepted) ex_signals ex_reloaded).
  - exact ex_running.
  - rewrite ex_reloaded_live. exact ex_ascii.
Defined.
Lemma ex_test_in_use : "TEST" ∈ sources_keys (settings_of [] ex_accepted).
Proof. replace (sources_keys (settings_of [] ex_accepted)) with ["TEST"; "MIRROR"] by (by vm_compute). by left. Qed.
Lemma ex_authoritative : truthy (source_setting (settings_of [] ex_accepted) "TEST" "authoritative") = true.
Proof. by vm_compute. Qed.
Lemma accepted_roles_witness :
  truthy (source_setting (settings_of [] ex_accepted) "TEST" "authoritative") = true
  ∧ is_mirror (settings_of [] ex_accepted) "TEST" = false.
Proof.
  split; [exact ex_authoritative|].
  destruct (accepted_roles (λ _, true) (λ _, Ok tt) (λ _ _, Ok tt) id ex_accepted "TEST" ex_accepted_ok ex_test_in_use) as [H _].
  exact (H ex_authoritative).
Defined.

(** *** What the checks let through *)

(** A superscript digit is numeric, but no number for [int]: the scheduler raises
    on a configuration that was accepted. *)
Definition superscript_two : string := String (ascii_of_N 178) "".
Example superscript_timer :
  let u := ex_config [rpki_setting (VStr "")] [("TEST", VDict [("import_timer", VStr superscript_two)])] in
  ex_check u = Ok [] ∧ ∃ e, (scheduler_run (settings_of [] u) 0 scheduler_init).2 = Raise e.
Proof. split; [vm_compute; reflexivity|]. eexists. vm_compute. reflexivity. Qed.
(** When [rpki.roa_source] has its default value, a source may be named RPKI. *)
Example reserved_name_accepted :
  let u := ex_config [] [("RPKI", VDict [])] in
  ex_check u = Ok [] ∧ truthy (get_setting (settings_of [] u) "rpki.roa_source") = true.
Proof. split; vm_compute; reflexivity. Qed.
(** A snapshot frequency in text, and a negative AS number, make the check raise:
    no message is logged, and SIGHUP ends in an exception. *)
Example snapshot_frequency_text :
  ex_check (ex_config [] [("TEST", VDict [("nrtm4_server_snapshot_frequency", VStr "7200")])]) = Raise config_type_error.
Proof. vm_compute. reflexivity. Qed.
Example negative_scope_asn :
  ex_check (ex_config [("scopefilter", VDict [("asns", VList [VInt (-1)])])] []) = Raise AttributeError.
Proof. vm_compute. reflexivity. Qed.
(** The access list of the event stream need not exist. *)
Example event_stream_list_unchecked :
  ex_check (VDict [("database_url", VStr "d"); ("redis_url", VStr "r"); ("piddir", VStr "/p");
    ("email", VDict [("from", VStr "a@b"); ("smtp", VStr "s")]); ("auth", VDict [("gnupg_keyring", VStr "/k")]);
    ("server", VDict [("http", VDict [("url", VStr "https://h/"); ("event_stream_access_list", VStr "missing")])])]) = Ok [].
Proof. vm_compute. reflexivity. Qed.
(** The error about a missing journal does not name the source. *)
Example journal_message :
  ex_check (ex_config [rpki_setting (VStr "")] [("TEST", VDict [("nrtm4_server_private_key", VStr "k"); ("nrtm4_server_local_path", VStr "/p")])])
  = Ok ["NRTMv4 server requires keep_journal to be set for for source {name}."].
Proof. vm_compute. reflexivity. Qed.
End ConfCheckExamples.
