(* ===== verification/Web.v ===== *)
(** * Users, maintainers and requests of the web interface ([irrd/webui])

    The tables of users and internal authentication ([irrd/storage/models.py]),
    one HTTP request with its session and database transaction
    ([irrd/storage/orm_provider.py], [irrd/webui/helpers.py],
    [irrd/webui/auth/decorators.py], [irrd/webui/auth/users.py]).  Each request is
    one transaction; Starlette, imia, WTForms, passlib, the rate limiter and the
    mail server are parameters, or their results are part of a request. *)
From S2P Require Import Prelude PyStr Conf Net Models Text Rpki ScopeFilter Fields RpslObjects RpslParser Queries RoutePref Database DatabaseHandler Nrtm UpdateValidators.

(** ** Tables *)

Record web_user := {
  wu_pk : string;
  wu_email : string;
  wu_name : string;
  wu_password : string;
  wu_totp_secret : option string;
  wu_totp_last_used : option string;
  wu_override : bool;
  wu_updated : string;
}.
Record web_authn := {
  wa_pk : string;
  wa_user_id : string;
  wa_name : string;
  wa_credential_id : string;
  wa_credential_public_key : string;
  wa_credential_sign_count : Z;
}.
Record web_mntner := {
  wm_pk : string;
  wm_rpsl_mntner_pk : string;
  wm_rpsl_mntner_obj_id : string;
  wm_rpsl_mntner_source : string;
  wm_migration_token : option string;
}.
Record web_permission := {
  wp_pk : string;
  wp_user_id : string;
  wp_mntner_id : string;
  wp_user_management : bool;
}.
Record web_token := {
  wt_pk : string;
  wt_token : string;
  wt_name : string;
  wt_creator_id : string;
  wt_mntner_id : string;
  wt_ip_restriction : option string;
  wt_enabled_webapi : bool;
  wt_enabled_email : bool;
}.
Record web_change_log := {
  wl_by_user_id : string;
  wl_by_user_email : string;
  wl_through_mntner_id : string;
  wl_through_rpsl_mntner_pk : string;
  wl_from_ip : option string;
  wl_descr : string;
  wl_affected_user_id : option string;
  wl_affected_mntner_id : string;
}.
Record web_tables := {
  w_users : list web_user;
  w_authns : list web_authn;
  w_mntners : list web_mntner;
  w_permissions : list web_permission;
  w_tokens : list web_token;
  w_log : list web_change_log;
  w_secret_key : option string;
  (** The number of keys generated by [gen_random_uuid()]. *)
  w_next : nat;
}.
#[export] Instance web_permission_eq : EqDecision web_permission.
Proof. solve_decision. Defined.
#[export] Instance web_mntner_eq : EqDecision web_mntner.
Proof. solve_decision. Defined.
#[export] Instance web_token_eq : EqDecision web_token.
Proof. solve_decision. Defined.

Definition set_users (l : list web_user) (t : web_tables) : web_tables := {|
  w_users := l; w_authns := w_authns t; w_mntners := w_mntners t; w_permissions := w_permissions t;
  w_tokens := w_tokens t; w_log := w_log t; w_secret_key := w_secret_key t; w_next := w_next t |}.
Definition set_authns (l : list web_authn) (t : web_tables) : web_tables := {|
  w_users := w_users t; w_authns := l; w_mntners := w_mntners t; w_permissions := w_permissions t;
  w_tokens := w_tokens t; w_log := w_log t; w_secret_key := w_secret_key t; w_next := w_next t |}.
Definition set_mntners (l : list web_mntner) (t : web_tables) : web_tables := {|
  w_users := w_users t; w_authns := w_authns t; w_mntners := l; w_permissions := w_permissions t;
  w_tokens := w_tokens t; w_log := w_log t; w_secret_key := w_secret_key t; w_next := w_next t |}.
Definition set_permissions (l : list web_permission) (t : web_tables) : web_tables := {|
  w_users := w_users t; w_authns := w_authns t; w_mntners := w_mntners t; w_permissions := l;
  w_tokens := w_tokens t; w_log := w_log t; w_secret_key := w_secret_key t; w_next := w_next t |}.
Definition set_tokens (l : list web_token) (t : web_tables) : web_tables := {|
  w_users := w_users t; w_authns := w_authns t; w_mntners := w_mntners t; w_permissions := w_permissions t;
  w_tokens := l; w_log := w_log t; w_secret_key := w_secret_key t; w_next := w_next t |}.
Definition add_log (e : web_change_log) (t : web_tables) : web_tables := {|
  w_users := w_users t; w_authns := w_authns t; w_mntners := w_mntners t; w_permissions := w_permissions t;
  w_tokens := w_tokens t; w_log := w_log t ++ [e]; w_secret_key := w_secret_key t; w_next := w_next t |}.
Definition set_secret_key (k : option string) (t : web_tables) : web_tables := {|
  w_users := w_users t; w_authns := w_authns t; w_mntners := w_mntners t; w_permissions := w_permissions t;
  w_tokens := w_tokens t; w_log := w_log t; w_secret_key := k; w_next := w_next t |}.
Definition set_next (n : nat) (t : web_tables) : web_tables := {|
  w_users := w_users t; w_authns := w_authns t; w_mntners := w_mntners t; w_permissions := w_permissions t;
  w_tokens := w_tokens t; w_log := w_log t; w_secret_key := w_secret_key t; w_next := n |}.

(** The tables as the validators of updates read them. *)
Definition view_user (u : web_user) : AuthUser := {|
  au_pk := wu_pk u; au_email := wu_email u; au_override := wu_override u |}.
Definition view_mntner (m : web_mntner) : AuthMntner := {|
  am_pk := wm_pk m; am_rpsl_mntner_pk := wm_rpsl_mntner_pk m; am_rpsl_mntner_source := wm_rpsl_mntner_source m;
  am_migration_token := wm_migration_token m |}.
Definition view_permission (p : web_permission) : AuthPermission := {|
  ap_user_id := wp_user_id p; ap_mntner_id := wp_mntner_id p; ap_user_management := wp_user_management p |}.
Definition view_token (k : web_token) : AuthApiToken := {|
  tk_pk := wt_pk k; tk_token := wt_token k; tk_mntner_id := wt_mntner_id k; tk_ip_restriction := wt_ip_restriction k;
  tk_enabled_webapi := wt_enabled_webapi k; tk_enabled_email := wt_enabled_email k |}.
Definition view_tables (t : web_tables) : auth_tables := {|
  at_mntners := view_mntner <$> w_mntners t; at_permissions := view_permission <$> w_permissions t;
  at_tokens := view_token <$> w_tokens t |}.

(** ** Queries *)

(** [session_provider.run(query.one)]: [None] for no result; several are an
    error of SQLAlchemy, also after reconnecting. *)
Definition query_one {A} (l : list A) : res (option A) :=
  match l with
  | [] => Ok None
  | [x] => Ok (Some x)
  | _ => Raise (GenericException "MultipleResultsFound")
  end.
Definition same (a b : string) : bool := String.eqb a b.
Definition user_by_pk (pk : string) (t : web_tables) : option web_user :=
  List.find (λ u, same (wu_pk u) pk) (w_users t).
Definition mntner_by_pk (pk : string) (t : web_tables) : option web_mntner :=
  List.find (λ m, same (wm_pk m) pk) (w_mntners t).
(** The attributes [mntner] and [user] of a row, which are used as objects. *)
Definition mntner_of (pk : string) (t : web_tables) : res web_mntner :=
  match mntner_by_pk pk t with Some m => Ok m | None => Raise AttributeError end.
Definition user_of (pk : string) (t : web_tables) : res web_user :=
  match user_by_pk pk t with Some u => Ok u | None => Raise AttributeError end.
Definition migration_complete (m : web_mntner) : bool := bool_decide (wm_migration_token m = None).
(** [AuthMntner] joined with the permissions of a user that satisfy [p]. *)
Definition joined_mntners (t : web_tables) (user_id : string) (p : web_permission → bool) (q : web_mntner → bool)
  : list web_mntner :=
  concat ((λ m, (λ _, m) <$> List.filter (λ x, same (wp_mntner_id x) (wm_pk m) && same (wp_user_id x) user_id && p x)
                               (w_permissions t)) <$> List.filter q (w_mntners t)).

(** ** A request *)

(** The session of a client, which Starlette keeps in a signed cookie. *)
Record session := {
  ss_user : option string;
  ss_hash : option string;
  ss_mfa_complete : bool;
  ss_challenge : option string;
  ss_totp_secret : option string;
  ss_messages : list string;
}.
Definition session_empty : session := {|
  ss_user := None; ss_hash := None; ss_mfa_complete := false; ss_challenge := None; ss_totp_secret := None;
  ss_messages := [] |}.
(** [request.auth.user], with what was loaded of it when the request came in. *)
Record loaded_user := {
  lu_user : web_user;
  lu_permissions : list web_permission;
  lu_mntners : list web_mntner;
  lu_mntners_user_management : list web_mntner;
  lu_webauthns : list web_authn;
}.
(** A route for GET also answers HEAD. *)
Inductive http_method := GET | HEAD | POST.
#[export] Instance http_method_eq : EqDecision http_method.
Proof. solve_decision. Defined.
Record request := {
  rq_method : http_method;
  rq_host : option string;
  (** Whether the CSRF token is right, and whether the rate limiter permits. *)
  rq_csrf : bool;
  rq_permitted : bool;
  rq_user : option loaded_user;
}.
(** [form.is_submitted()], and the requests that are counted and need the CSRF token. *)
Definition rq_post (rq : request) : bool := bool_decide (rq_method rq = POST).
(** Responses: of the pages only the template is kept, with the errors of its form. *)
Inductive response :=
| redirect (where_to : string)
| not_found
| forbidden
| page (template : string) (errors : list (string * string))
| json (b : bool).
Definition status_200 (r : response) : bool := match r with page _ _ | json _ => true | _ => false end.

(** A transaction: tables, database handler, session, and the mails sent. *)
Section Web.
Context `{IPyLib} `{Radix node_data} `{redis : Redis} (cfg : configuration).
Context (collate_lt : string → string → bool) (uuid : nat → string) (timestamp_text : Z → string).
(** The mail server, and the text that is added to each mail. *)
Context (smtp : string * string * string → res unit) (mail_footer : string).
(** passlib's [verify]; [None] stands for its [ValueError]. *)
Context (password_verify : string → string → option bool).

Record transaction := {
  tx_web : web_tables;
  tx_handler : handler;
  tx_session : session;
  tx_mails : list (string * string * string);
}.
Notation W := (st transaction).
Definition set_web (f : web_tables → web_tables) (x : transaction) : transaction := {|
  tx_web := f (tx_web x); tx_handler := tx_handler x; tx_session := tx_session x; tx_mails := tx_mails x |}.
Definition set_handler (h : handler) (x : transaction) : transaction := {|
  tx_web := tx_web x; tx_handler := h; tx_session := tx_session x; tx_mails := tx_mails x |}.
Definition set_session (f : session → session) (x : transaction) : transaction := {|
  tx_web := tx_web x; tx_handler := tx_handler x; tx_session := f (tx_session x); tx_mails := tx_mails x |}.
Definition set_mails (l : list (string * string * string)) (x : transaction) : transaction := {|
  tx_web := tx_web x; tx_handler := tx_handler x; tx_session := tx_session x; tx_mails := l |}.
Definition web : W web_tables := x ← st_get; mret (tx_web x).
Definition modify_web (f : web_tables → web_tables) : W unit := st_modify (set_web f).
(** A method of the database handler. *)
Definition with_handler {A} (m : st handler A) : W A := λ x,
  let '(h, r) := m (tx_handler x) in (set_handler h x, r).
Definition find_one {A} (l : list A) : W (option A) := st_lift (query_one l).
(** [gen_random_uuid()]. *)
Definition new_pk : W string :=
  t ← web; _ ← modify_web (set_next (S (w_next t))); mret (uuid (w_next t)).

(** ** Helpers ([helpers.py], [utils/email.py]) *)

(** [message(request, text)]. *)
Definition message (text : string) : W unit :=
  st_modify (set_session (λ s, {|
    ss_user := ss_user s; ss_hash := ss_hash s; ss_mfa_complete := ss_mfa_complete s; ss_challenge := ss_challenge s;
    ss_totp_secret := ss_totp_secret s; ss_messages := ss_messages s ++ [text] |})).
(** [send_email]: the recipient may be overridden by the configuration. *)
Definition send_email (recipient subject body : string) : W unit :=
  let override := get_setting cfg "email.recipient_override" in
  let mail := (if truthy override then pyval_str override else recipient, subject,
               body +:+ NL +:+ pyval_str (get_setting cfg "email.footer") +:+ mail_footer) in
  if truthy (get_setting cfg "email.from") then
    _ ← st_lift (smtp mail);
    x ← st_get; st_modify (set_mails (tx_mails x ++ [mail]))
  else st_raise AssertionError.
Definition client_ip (rq : request) : option string :=
  match rq_host rq with
  | Some host => if same host "testclient" then Some "127.0.0.1" else Some host
  | None => Some "127.0.0.1"
  end.
(** [filter_auth_hash_non_mntner]: whether hashes are hidden, and the text. *)
Definition filter_auth_hash_non_mntner (user : option loaded_user) (r : rpsl_row) : bool * string :=
  let shown := match user with
    | Some u => negb (same (wu_email (lu_user u)) "")
        && (negb (same (r_object_class r) "mntner")
            || existsb (λ m, same (wm_rpsl_mntner_pk m) (r_rpsl_pk r) && same (wm_rpsl_mntner_source m) (r_source r))
                 (lu_mntners_user_management u))
    | None => false
    end in
  if shown then (false, r_object_text r) else (true, remove_auth_hashes (r_object_text r)).
(** [textwrap.dedent]. *)
Definition is_blank_char (c : ascii) : bool := bool_decide (c = " "%char) || bool_decide (c = ch_tab).
Fixpoint common_prefix (a b : string) : string :=
  match a, b with
  | String c a', String d b' => if bool_decide (c = d) then String c (common_prefix a' b') else ""
  | _, _ => ""
  end.
Definition margin_of (lines : list string) : string :=
  match (λ l, (span_if is_blank_char l).1) <$> List.filter (λ l, negb (str_all is_blank_char l)) lines with
  | [] => ""
  | m :: margins => fold_left common_prefix margins m
  end.
Definition dedent (text : string) : string :=
  let lines := (λ l, if str_all is_blank_char l then "" else l) <$> split_on ch_nl text in
  let margin := String.length (margin_of lines) in
  join NL ((λ l, if same l "" then "" else str_drop margin l) <$> lines).

(** ** Users ([auth/users.py]) *)

(** [AuthProvider.find_by_id]: the user with everything that is related to it. *)
Definition permitted (t : web_tables) (u : web_user) (p : web_permission → bool) : list web_mntner :=
  List.filter (λ m, migration_complete m
    && existsb (λ x, same (wp_user_id x) (wu_pk u) && same (wp_mntner_id x) (wm_pk m) && p x) (w_permissions t))
    (w_mntners t).
Definition load_user (t : web_tables) (u : web_user) : loaded_user := {|
  lu_user := u;
  lu_permissions := List.filter (λ x, same (wp_user_id x) (wu_pk u)) (w_permissions t);
  lu_mntners := permitted t u (λ _, true);
  lu_mntners_user_management := permitted t u wp_user_management;
  lu_webauthns := List.filter (λ x, same (wa_user_id x) (wu_pk u)) (w_authns t) |}.
Definition find_by_id (t : web_tables) (identifier : string) : res (option loaded_user) :=
  u ← query_one (List.filter (λ u, same (wu_email u) identifier) (w_users t)); Ok (load_user t <$> u : option loaded_user).
(** [PasswordHandler.verify], and [verify_password]. *)
Definition PasswordHandler_verify (plain hashed : string) : bool := default false (password_verify plain hashed).
Definition verify_password (u : loaded_user) (plain : string) : bool :=
  PasswordHandler_verify plain (wu_password (lu_user u)).

(** *** Forms: the errors of the fields, in order *)

Definition required_message : string := "This field is required.".
(** [DataRequired]. *)
Definition data_required (field : string) (data : option string) : list (string * string) :=
  if match data with Some s => same (strip s) "" | None => true end then [(field, required_message)] else [].
Definition bool_required (field : string) (data : bool) : list (string * string) :=
  if data then [] else [(field, required_message)].
(** [CurrentPasswordForm.validate], after the validators of the fields. *)
Definition current_password_errors (fields : list (string * string)) (current_password : option string) (u : loaded_user)
  : list (string * string) :=
  match fields ++ data_required "current_password" current_password with
  | [] => if verify_password u (default "" current_password) then [] else [("current_password", "Incorrect password.")]
  | errors => errors
  end.

(** ** Endpoints *)

(** The decorator [authentication_required]. *)
Definition authentication_required (mfa_check : bool) (rq : request) (f : loaded_user → W response) : W response :=
  match rq_user rq with
  | None => mret (redirect "ui:auth:login")
  | Some u =>
      x ← st_get;
      if mfa_check && negb (ss_mfa_complete (tx_session x)) then mret (redirect "ui:auth:mfa_authenticate") else f u
  end.

(** What requests share: the tables and the database as committed, and the mails sent. *)
Record web_state := {
  we_web : web_tables;
  we_db : database;
  we_mails : list (string * string * string);
}.
(** The decorator [session_provider_manager] on one request: a transaction that is
    committed when the endpoint returns.  The commit is in its two parts (see
    [TransactionTheory.commit_split]), as what it sends to Redis after the
    transaction is committed may raise.  The session is sent with the response. *)
Definition session_provider_manager (now : Z) (s : session) (f : W response) (e : web_state)
  : web_state * session * res response :=
  match (r ← f; _ ← with_handler (commit_sql cfg collate_lt uuid); mret r)
          {| tx_web := we_web e; tx_handler := DatabaseHandler_init cfg false (we_db e) now; tx_session := s;
             tx_mails := we_mails e |} with
  | (x, Ok r) =>
      ({| we_web := tx_web x; we_db := h_committed (tx_handler x); we_mails := tx_mails x |},
       if or_rollback after_commit (tx_handler x) is (_, Raise _) then s else tx_session x,
       if or_rollback after_commit (tx_handler x) is (_, Raise ex) then Raise ex else Ok r)
  | (x, Raise ex) => ({| we_web := we_web e; we_db := h_committed (tx_handler x); we_mails := tx_mails x |}, s, Raise ex)
  end.
(** The decorators [rate_limit_post] and [csrf_protect] around an endpoint. *)
Definition rate_limit_post {A} (rq : request) (denied : A) (f : A) : A :=
  if rq_post rq && negb (rq_permitted rq) then denied else f.
Definition csrf_protect {A} (rq : request) (denied : A) (f : A) : A :=
  if rq_post rq && negb (rq_csrf rq) then denied else f.
Definition denied (s : session) (e : web_state) : web_state * session * res response := (e, s, Ok forbidden).
(** [authentication_required] around an endpoint that starts its own transaction. *)
Definition authentication_before (mfa_check : bool) (rq : request) (s : session) (e : web_state)
    (f : loaded_user → web_state * session * res response) : web_state * session * res response :=
  match rq_user rq with
  | None => (e, s, Ok (redirect "ui:auth:login"))
  | Some u =>
      if mfa_check && negb (ss_mfa_complete s) then (e, s, Ok (redirect "ui:auth:mfa_authenticate")) else f u
  end.
(** Whether the rate limiter counts the request. *)
Definition counted (rq : request) (any_response_code : bool) (r : response) : bool :=
  rq_post rq && rq_permitted rq && (any_response_code || status_200 r).
End Web.
Arguments transaction {_}.
