(* ===== verification/WebMntners.v ===== *)
(** * Maintainers, permissions and API tokens in the web interface
    ([irrd/webui/endpoints_mntners.py])

    The endpoints on one request each.  The data of a form is what WTForms gives;
    the template of the migration mail and random tokens are parameters. *)
From S2P Require Import Prelude PyStr Conf Net Models Text Rpki ScopeFilter Fields RpslObjects RpslParser Queries RoutePref Database DatabaseHandler Nrtm UpdateValidators Web.

Definition dquote (s : string) : string := String "034" s +:+ String "034" "".
(** The queries of the ORM on the table of objects. *)
Definition objects_where (p : rpsl_row → bool) (d : database) : list rpsl_row := List.filter p (db_objects d).

Section WebMntners.
Context `{IPyLib} `{Radix node_data} `{redis : Redis} (cfg : configuration).
Context (collate_lt : string → string → bool) (uuid : nat → string) (timestamp_text : Z → string).
Context (gpg_import_keys : string → list string * option string) (gpg_uids : string → list string).
Context (hasher_verify : string → string → string → option bool).
Context (smtp : string * string * string → res unit) (mail_footer : string).
Context (password_verify : string → string → option bool).
(** The mail that starts a migration, as its template renders it, and the order
    in which Python iterates over a set. *)
Context (migrate_mail : web_mntner → web_user → string * string) (set_order : list string → list string).
Notation W := (st transaction).
Notation send_email := (send_email cfg smtp mail_footer).

(** ** Logging and notifying *)

Definition log_change (rq : request) (u : loaded_user) (m : web_mntner) (descr : string) (affected_user : option string)
  : W unit :=
  modify_web (add_log {|
    wl_by_user_id := wu_pk (lu_user u); wl_by_user_email := wu_email (lu_user u); wl_through_mntner_id := wm_pk m;
    wl_through_rpsl_mntner_pk := wm_rpsl_mntner_pk m; wl_from_ip := client_ip rq; wl_descr := descr;
    wl_affected_user_id := affected_user; wl_affected_mntner_id := wm_pk m |}).
Definition notify_body (u : web_user) (m : web_mntner) (header explanation : string) : string :=
  header
  +:+ dedent (join NL ["";
        "        This message is auto-generated.";
        "        ~~~~~~~~~~~~~~~~~~~~~~~~~~~~~~~~~~~~~~~~~~~~~~~~~~~~";
        "        Internal authentication was changed for";
        "        mntner " +:+ wm_rpsl_mntner_pk m +:+ " in source " +:+ wm_rpsl_mntner_source m;
        "        by user " +:+ wu_name u +:+ " (" +:+ wu_email u +:+ ").";
        "    "])
  +:+ NL +:+ strip explanation +:+ NL
  +:+ dedent (join NL ["";
        "        Note that this change is not visible in the RPSL object,";
        "        as these authentication settings are stored internally in IRRD.";
        "    "]).
Definition notification_header (sources_str : string) : res string :=
  match get_setting_default cfg "email.notification_header" (VStr "") with
  | VStr s => py_format [("sources_str", sources_str)] s
  | _ => Raise AttributeError
  end.
(** [notify_mntner]. *)
Definition notify_mntner (u : web_user) (m : web_mntner) (explanation : string) : W unit :=
  x ← st_get;
  rpsl_mntner ← find_one (objects_where (λ r, same (r_pk r) (wm_rpsl_mntner_obj_id m)) (h_db (tx_handler x)));
  match rpsl_mntner with
  | None => st_raise AttributeError
  | Some r =>
      let recipients := oset_update [] (pdata_list (r_parsed_data r !! "mnt-nfy") ++ pdata_list (r_parsed_data r !! "notify")) in
      let subject := "Notification of " +:+ wm_rpsl_mntner_source m +:+ " database changes" in
      header ← st_lift (notification_header (wm_rpsl_mntner_source m));
      st_iter (λ recipient, send_email recipient subject (notify_body u m header explanation)) (set_order recipients)
  end.

(** ** API tokens *)

Record ApiTokenForm := {
  tf_name : option string;
  tf_ip_restriction : option string;
  tf_enabled_webapi : bool;
  tf_enabled_email : bool;
}.
Fixpoint parse_ips (l : list string) : string + list string :=
  match l with
  | [] => inr []
  | s :: l' =>
      match ip_of 0 s with
      | inl m => inl m
      | inr a => match parse_ips l' with inl m => inl m | inr ips => inr (ip_str a :: ips) end
      end
  end.
(** [validate_ip_restriction]: the error, or the data of the field. *)
Definition validate_ip_restriction (data : option string) : string + option string :=
  match data with
  | None | Some "" => inr None
  | Some s =>
      match parse_ips (split_on ","%char s) with
      | inl m => inl ("Invalid IP or CIDR ranges: " +:+ clean_ip_value_error m)
      | inr ips => inr (Some (join "," ips))
      end
  end.
(** [ApiTokenForm.validate]: the errors, or the name and the restriction. *)
Definition ApiTokenForm_validate (f : ApiTokenForm) : list (string * string) + (string * option string) :=
  match data_required "name" (tf_name f), validate_ip_restriction (tf_ip_restriction f) with
  | [], inr ip =>
      if tf_enabled_email f && match ip with Some s => negb (same s "") | None => false end
      then inl [("enabled_email", "Email submissions can not be combined with an IP restriction.")]
      else inr (default "" (tf_name f), ip)
  | errors, inl m => inl (errors ++ [("ip_restriction", m)])
  | errors, inr _ => inl errors
  end.

Definition api_token_add (rq : request) (mntner : string) (f : ApiTokenForm) (u : loaded_user) : W response :=
  t ← web;
  m ← find_one (joined_mntners t (wu_pk (lu_user u)) (λ _, true) (λ m, same (wm_pk m) mntner));
  match m with
  | None => mret not_found
  | Some m =>
      if negb (migration_complete m) then mret not_found
      else if negb (rq_post rq) then mret (page "api_token_form.html" [])
      else
        match ApiTokenForm_validate f with
        | inl errors => mret (page "api_token_form.html" errors)
        | inr (name, ip) =>
            pk ← new_pk uuid; token ← new_pk uuid;
            _ ← modify_web (λ t, set_tokens (w_tokens t ++ [{|
                  wt_pk := pk; wt_token := token; wt_name := name; wt_creator_id := wu_pk (lu_user u); wt_mntner_id := wm_pk m;
                  wt_ip_restriction := ip; wt_enabled_webapi := tf_enabled_webapi f; wt_enabled_email := tf_enabled_email f |}]) t);
            let text := "An API key for '" +:+ name +:+ "' on " +:+ wm_rpsl_mntner_pk m +:+ " has been added." in
            _ ← message text;
            _ ← notify_mntner (lu_user u) m text;
            _ ← log_change rq u m ("added API token " +:+ dquote name +:+ " (" +:+ pk +:+ ")") None;
            mret (redirect "ui:user_permissions")
        end
  end.
(** The tokens with this key on the maintainers of the permissions of the user. *)
Definition tokens_of (t : web_tables) (u : loaded_user) (token_pk : string) : list web_token :=
  List.filter (λ k, same (wt_pk k) token_pk && bool_decide (wt_mntner_id k ∈ wp_mntner_id <$> lu_permissions u)) (w_tokens t).
Definition edit_token (token_pk name : string) (ip : option string) (f : ApiTokenForm) (k : web_token) : web_token :=
  if same (wt_pk k) token_pk then {|
    wt_pk := wt_pk k; wt_token := wt_token k; wt_name := name; wt_creator_id := wt_creator_id k;
    wt_mntner_id := wt_mntner_id k; wt_ip_restriction := ip; wt_enabled_webapi := tf_enabled_webapi f;
    wt_enabled_email := tf_enabled_email f |}
  else k.
Definition api_token_edit (rq : request) (token_pk : string) (f : ApiTokenForm) (u : loaded_user) : W response :=
  t ← web;
  k ← find_one (tokens_of t u token_pk);
  match k with
  | None => mret not_found
  | Some k =>
      if negb (rq_post rq) then mret (page "api_token_form.html" [])
      else
        match ApiTokenForm_validate f with
        | inl errors => mret (page "api_token_form.html" errors)
        | inr (name, ip) =>
            _ ← modify_web (λ t, set_tokens (edit_token token_pk name ip f <$> w_tokens t) t);
            m ← st_lift (mntner_of (wt_mntner_id k) t);
            _ ← message ("The API key for '" +:+ name +:+ "' on " +:+ wm_rpsl_mntner_pk m +:+ " was modified.");
            _ ← log_change rq u m ("modified API token " +:+ dquote name +:+ " (" +:+ wt_pk k +:+ ")") None;
            mret (redirect "ui:user_permissions")
        end
  end.
(** Any request that is not a GET deletes the token. *)
Definition api_token_delete (rq : request) (token_pk : string) (u : loaded_user) : W response :=
  t ← web;
  k ← find_one (tokens_of t u token_pk);
  match k with
  | None => mret not_found
  | Some k =>
      if bool_decide (rq_method rq = GET) then mret (page "api_token_delete.html" [])
      else
        _ ← modify_web (λ t, set_tokens (List.filter (λ k, negb (same (wt_pk k) token_pk)) (w_tokens t)) t);
        m ← st_lift (mntner_of (wt_mntner_id k) t);
        let text := "The API token named '" +:+ wt_name k +:+ "' on " +:+ wm_rpsl_mntner_pk m +:+ " has been deleted." in
        _ ← message text;
        _ ← notify_mntner (lu_user u) m text;
        _ ← log_change rq u m ("removed API token " +:+ dquote (wt_name k) +:+ " (" +:+ wt_pk k +:+ ")") None;
        mret (redirect "ui:user_permissions")
  end.

(** ** Permissions *)

Record PermissionAddForm := {
  pf_new_user_email : option string;
  pf_confirm : bool;
  pf_user_management : bool;
  pf_current_password : option string;
}.
(** The permissions of a user on a maintainer. *)
Definition permissions_of (t : web_tables) (user_id mntner_id : string) : list web_permission :=
  List.filter (λ x, same (wp_user_id x) user_id && same (wp_mntner_id x) mntner_id) (w_permissions t).
(** [PermissionAddForm.validate]: the errors, or the new user. *)
Definition PermissionAddForm_validate (t : web_tables) (u : loaded_user) (m : web_mntner) (f : PermissionAddForm)
  : res (list (string * string) + web_user) :=
  match current_password_errors password_verify
          (data_required "new_user_email" (pf_new_user_email f) ++ bool_required "confirm" (pf_confirm f))
          (pf_current_password f) u with
  | [] =>
      new_user ← query_one (List.filter (λ x, same (wu_email x) (default "" (pf_new_user_email f))) (w_users t));
      match new_user with
      | None => Ok (inl [("new_user_email", "Unknown user account.")])
      | Some x =>
          if negb (bool_decide (permissions_of t (wu_pk x) (wm_pk m) = []))
          then Ok (inl [("new_user_email", "This user already has permissions on this mntner.")])
          else Ok (inr x)
      end
  | errors => Ok (inl errors)
  end.
(** Adding a permission, which must be unique for a user and a maintainer. *)
Definition insert_permission (user_id mntner_id : string) (user_management : bool) : W web_permission :=
  t ← web;
  if negb (bool_decide (permissions_of t user_id mntner_id = [])) then st_raise (GenericException "IntegrityError")
  else
    pk ← new_pk uuid;
    let p := {| wp_pk := pk; wp_user_id := user_id; wp_mntner_id := mntner_id; wp_user_management := user_management |} in
    _ ← modify_web (λ t, set_permissions (w_permissions t ++ [p]) t);
    mret p.
Definition permission_add (rq : request) (mntner : string) (f : PermissionAddForm) (u : loaded_user) : W response :=
  t ← web;
  m ← find_one (joined_mntners t (wu_pk (lu_user u)) wp_user_management (λ m, same (wm_pk m) mntner));
  match m with
  | None => mret not_found
  | Some m =>
      if negb (migration_complete m) then mret not_found
      else if negb (rq_post rq) then mret (page "permission_form.html" [])
      else
        v ← st_lift (PermissionAddForm_validate t u m f);
        match v with
        | inl errors => mret (page "permission_form.html" errors)
        | inr x =>
            p ← insert_permission (wu_pk x) (wm_pk m) (pf_user_management f);
            let text := "A permission for " +:+ wu_name x +:+ " (" +:+ wu_email x +:+ ") on " +:+ wm_rpsl_mntner_pk m
                          +:+ " has been added." in
            _ ← message text;
            _ ← notify_mntner (lu_user u) m text;
            _ ← log_change rq u m ("added permission for " +:+ wu_email x +:+ ", "
                  +:+ (if wp_user_management p then "with" else "without") +:+ " user management") (Some (wu_pk x));
            mret (redirect "ui:user_permissions")
        end
  end.

Record PermissionDeleteForm := {
  df_confirm : bool;
  df_confirm_self_delete : bool;
  df_current_password : option string;
}.
Definition PermissionDeleteForm_validate (u : loaded_user) (own : bool) (f : PermissionDeleteForm) : list (string * string) :=
  current_password_errors password_verify
    (bool_required "confirm" (df_confirm f)
       ++ (if own then bool_required "confirm_self_delete" (df_confirm_self_delete f) else []))
    (df_current_password f) u.
Definition managed_permissions (t : web_tables) (u : loaded_user) (permission : string) : list web_permission :=
  List.filter (λ x, same (wp_pk x) permission
    && bool_decide (wp_mntner_id x ∈ wp_mntner_id <$> List.filter wp_user_management (lu_permissions u))) (w_permissions t).
Definition permission_delete (rq : request) (permission : string) (f : PermissionDeleteForm) (u : loaded_user) : W response :=
  t ← web;
  p ← find_one (managed_permissions t u permission);
  match p with
  | None => mret not_found
  | Some p =>
      m ← st_lift (mntner_of (wp_mntner_id p) t);
      if negb (migration_complete m) then mret not_found
      else if bool_decide (length (List.filter (λ x, same (wp_mntner_id x) (wm_pk m)) (w_permissions t)) = 1)
      then mret (page "permission_delete.html" [("", "refused_last_permission")])
      else
        x ← st_lift (user_of (wp_user_id p) t);
        if negb (rq_post rq) then mret (page "permission_delete.html" [])
        else
          match PermissionDeleteForm_validate u (same (wu_pk (lu_user u)) (wu_pk x)) f with
          | [] =>
              let text := "The permission for " +:+ wu_name x +:+ " (" +:+ wu_email x +:+ ") on " +:+ wm_rpsl_mntner_pk m
                            +:+ " has been deleted." in
              _ ← notify_mntner (lu_user u) m text;
              _ ← modify_web (λ t, set_permissions (List.filter (λ x, negb (same (wp_pk x) permission)) (w_permissions t)) t);
              _ ← message text;
              _ ← log_change rq u m ("deleted permission for " +:+ wu_email x +:+ " "
                    +:+ (if wp_user_management p then "with" else "without") +:+ " user management") (Some (wu_pk x));
              mret (redirect "ui:user_permissions")
          | errors => mret (page "permission_delete.html" errors)
          end
  end.

(** ** Migration *)

(** [RPSLMntner(text, strict_validation=False)]. *)
Definition RPSLMntner (text : string) : res RPSLObject :=
  match class_of "mntner" with
  | Some c => RPSLObject_init cfg gpg_import_keys gpg_uids c text false None
  | None => Raise (KeyError "mntner")
  end.
Record MntnerMigrateInitiateForm := {
  mf_mntner_key : option string;
  mf_mntner_source : option string;
  mf_mntner_password : option string;
  mf_confirm : bool;
}.
Definition mntner_source_choices : list string :=
  (λ x : string * pyval, x.1) <$> List.filter (λ x : string * pyval, truthy (settings_get x.2 "authoritative")) (sources_items cfg).
Definition select_errors (field : string) (choices : list string) (data : option string) : list (string * string) :=
  match data_required field data with
  | [] => if bool_decide (default "" data ∈ choices) then [] else [(field, "Not a valid choice.")]
  | errors => errors
  end.
Definition invalid_mntner_password : list (string * string) :=
  [("mntner_password", "Invalid password for the methods on this mntner object.")].
(** The check of a password of the maintainer. *)
Definition mntner_password_valid (o : RPSLObject) (password : option string) : res bool :=
  scheme ← verify_auth cfg hasher_verify o [default "" password] None; Ok (bool_decide (is_Some scheme)).
(** [MntnerMigrateInitiateForm.validate]: the errors, or the row and the object. *)
Definition MntnerMigrateInitiateForm_validate (t : web_tables) (d : database) (f : MntnerMigrateInitiateForm)
  : res (list (string * string) + rpsl_row * RPSLObject) :=
  let key := str_upper <$> mf_mntner_key f in
  match data_required "mntner_key" key ++ select_errors "mntner_source" mntner_source_choices (mf_mntner_source f)
        ++ data_required "mntner_password" (mf_mntner_password f) ++ bool_required "confirm" (mf_confirm f) with
  | [] =>
      r ← query_one (objects_where (λ r, same (r_rpsl_pk r) (default "" key)
            && same (r_source r) (default "" (mf_mntner_source f)) && same (r_object_class r) "mntner") d);
      match r with
      | None => Ok (inl [("mntner_key", "Unable to find this mntner object.")])
      | Some r =>
          if existsb (λ m, same (wm_rpsl_mntner_obj_id m) (r_pk r)) (w_mntners t)
          then Ok (inl [("mntner_key", "This maintainer was already migrated or a migration is in progress.")])
          else
            o ← RPSLMntner (r_object_text r);
            valid ← mntner_password_valid o (mf_mntner_password f);
            Ok (if valid : bool then inr (r, o) else inl invalid_mntner_password)
      end
  | errors => Ok (inl errors)
  end.
(** [send_mntner_migrate_initiate_mail]. *)
Definition send_mntner_migrate_initiate_mail (u : web_user) (m : web_mntner) (o : RPSLObject) : W unit :=
  match o_parsed_data o !! "admin-c" with
  | None => st_raise (KeyError "admin-c")
  | Some admin_cs =>
      src ← st_lift (source o);
      x ← st_get;
      let contacts := objects_where (λ r, bool_decide (r_rpsl_pk r ∈ pdata_list (Some admin_cs)) && same (r_source r) src)
                        (h_db (tx_handler x)) in
      let recipients := oset_update [] (concat ((λ r, pdata_list (r_parsed_data r !! "e-mail")) <$> contacts)) in
      st_iter (λ recipient, send_email recipient (migrate_mail m u).1 (migrate_mail m u).2) (set_order recipients)
  end.
(** [secrets.token_urlsafe] is the argument [secret]. *)
Definition mntner_migrate_initiate (rq : request) (secret : string) (f : MntnerMigrateInitiateForm) (u : loaded_user)
  : W response :=
  if negb (truthy (get_setting cfg "auth.irrd_internal_migration_enabled")) then mret (page "mntner_migrate_initiate.html" [])
  else if negb (rq_post rq) then mret (page "mntner_migrate_initiate.html" [])
  else
    x ← st_get;
    v ← st_lift (MntnerMigrateInitiateForm_validate (tx_web x) (h_db (tx_handler x)) f);
    match v with
    | inl errors => mret (page "mntner_migrate_initiate.html" errors)
    | inr (r, o) =>
        mntner_pk ← new_pk uuid;
        let m := {| wm_pk := mntner_pk; wm_rpsl_mntner_pk := pk o; wm_rpsl_mntner_obj_id := r_pk r;
                    wm_rpsl_mntner_source := default "" (mf_mntner_source f); wm_migration_token := Some secret |} in
        _ ← modify_web (λ t, set_mntners (w_mntners t ++ [m]) t);
        _ ← insert_permission (wu_pk (lu_user u)) mntner_pk true;
        _ ← send_mntner_migrate_initiate_mail (lu_user u) m o;
        _ ← message "The mntner's admin-c's have been sent a confirmation email to complete the migration.";
        _ ← log_change rq u m "maintainer migration initiated" None;
        mret (redirect "ui:user_permissions")
    end.

Record MntnerMigrateCompleteForm := { cf_mntner_password : option string; cf_confirm : bool }.
(** The row of the object of a maintainer. *)
Definition mntner_row (d : database) (m : web_mntner) : res rpsl_row :=
  match objects_where (λ r, same (r_pk r) (wm_rpsl_mntner_obj_id m)) d with
  | r :: _ => Ok r
  | [] => Raise AttributeError
  end.
Definition MntnerMigrateCompleteForm_validate (d : database) (m : web_mntner) (f : MntnerMigrateCompleteForm)
  : res (list (string * string) + RPSLObject) :=
  match data_required "mntner_password" (cf_mntner_password f) ++ bool_required "confirm" (cf_confirm f) with
  | [] =>
      r ← mntner_row d m;
      o ← RPSLMntner (r_object_text r);
      valid ← mntner_password_valid o (cf_mntner_password f);
      Ok (if valid : bool then inr o else inl invalid_mntner_password)
  | errors => Ok (inl errors)
  end.
(** The statuses that a new object has. *)
Definition with_default_statuses (o : RPSLObject) : stored_object := {|
  so_object := o; so_rpki_status := rpki_not_found; so_scopefilter_status := in_scope;
  so_route_preference_status := rp_visible |}.
Definition clear_token (mntner_pk : string) (m : web_mntner) : web_mntner :=
  if same (wm_pk m) mntner_pk then {|
    wm_pk := wm_pk m; wm_rpsl_mntner_pk := wm_rpsl_mntner_pk m; wm_rpsl_mntner_obj_id := wm_rpsl_mntner_obj_id m;
    wm_rpsl_mntner_source := wm_rpsl_mntner_source m; wm_migration_token := None |}
  else m.
Definition migrated_text : string :=
  join NL [""; "The maintainer has been migrated to IRRD internal authentication.";
           "Existing authentication methods have been kept. "; ""].
Definition mntner_migrate_complete (rq : request) (mntner_pk token : string) (f : MntnerMigrateCompleteForm) (u : loaded_user)
  : W response :=
  x ← st_get;
  m ← find_one (joined_mntners (tx_web x) (wu_pk (lu_user u)) wp_user_management
                  (λ m, same (wm_pk m) mntner_pk && bool_decide (wm_migration_token m = Some token)));
  match m with
  | None => mret not_found
  | Some m =>
      if negb (rq_post rq) then mret (page "mntner_migrate_complete.html" [])
      else
        v ← st_lift (MntnerMigrateCompleteForm_validate (h_db (tx_handler x)) m f);
        match v with
        | inl errors => mret (page "mntner_migrate_complete.html" errors)
        | inr o =>
            _ ← modify_web (λ t, set_mntners (clear_token mntner_pk <$> w_mntners t) t);
            _ ← with_handler (upsert_rpsl_object cfg uuid timestamp_text (with_default_statuses (add_irrd_internal_auth o))
                                jo_unknown false None None);
            _ ← notify_mntner (lu_user u) m migrated_text;
            _ ← message ("The mntner " +:+ wm_rpsl_mntner_pk m +:+ " has been migrated.");
            _ ← log_change rq u m "maintainer migration completed" None;
            mret (redirect "ui:user_permissions")
        end
  end.

(** ** One request *)

Inductive endpoint :=
| ep_api_token_add (mntner : string) (f : ApiTokenForm)
| ep_api_token_edit (token_pk : string) (f : ApiTokenForm)
| ep_api_token_delete (token_pk : string)
| ep_permission_add (mntner : string) (f : PermissionAddForm)
| ep_permission_delete (permission : string) (f : PermissionDeleteForm)
| ep_mntner_migrate_initiate (secret : string) (f : MntnerMigrateInitiateForm)
| ep_mntner_migrate_complete (mntner_pk token : string) (f : MntnerMigrateCompleteForm).
Definition run_endpoint (rq : request) (ep : endpoint) : loaded_user → W response :=
  match ep with
  | ep_api_token_add m f => api_token_add rq m f
  | ep_api_token_edit k f => api_token_edit rq k f
  | ep_api_token_delete k => api_token_delete rq k
  | ep_permission_add m f => permission_add rq m f
  | ep_permission_delete p f => permission_delete rq p f
  | ep_mntner_migrate_initiate secret f => mntner_migrate_initiate rq secret f
  | ep_mntner_migrate_complete m k f => mntner_migrate_complete rq m k f
  end.
Definition rate_limited (ep : endpoint) : bool :=
  match ep with ep_api_token_add _ _ | ep_api_token_edit _ _ | ep_api_token_delete _ => false | _ => true end.
(** The decorated endpoint. *)
Definition handle_request (now : Z) (rq : request) (s : session) (ep : endpoint) (e : web_state)
  : web_state * session * res response :=
  let body := csrf_protect rq (denied s e)
                (session_provider_manager cfg collate_lt uuid now s
                   (authentication_required true rq (run_endpoint rq ep)) e) in
  if rate_limited ep then rate_limit_post rq (denied s e) body else body.
End WebMntners.
