(* ===== verification/WebMntnersTheory.v ===== *)
(** * Who can change what in the web interface

    A request of the web interface is one of a few changes of the tables, each
    made by a user with the permission for it, or changes nothing of them. *)
From S2P Require Import Prelude PyStr Conf Net Models Text Rpki ScopeFilter Fields RpslObjects RpslParser Queries RoutePref Database DatabaseHandler Nrtm UpdateValidators Web WebMntners.

(** ** Effects of endpoints on a transaction *)

(** What decides about access: users, maintainers, permissions, tokens and keys. *)
Definition auth_part (t : web_tables) := (w_users t, w_mntners t, w_permissions t, w_tokens t, w_next t).
Section Preserves.
Context `{IPyLib} {X : Type} (f : transaction → X).
Definition preserves {A} (m : st transaction A) : Prop := ∀ x, f (m x).1 = f x.
Lemma web_preserves_ret {A} (a : A) : preserves (mret a).
Proof. done. Qed.
Lemma web_preserves_raise {A} e : preserves (A := A) (st_raise e).
Proof. done. Qed.
Lemma web_preserves_lift {A} (r : res A) : preserves (st_lift r).
Proof. done. Qed.
Lemma web_preserves_get : preserves st_get.
Proof. done. Qed.
Lemma web_preserves_bind {A B} (m : st transaction A) (k : A → st transaction B) :
  preserves m → (∀ a, preserves (k a)) → preserves (m ≫= k).
Proof.
  intros Hm Hk x. unfold mbind, st_bind. specialize (Hm x). destruct (m x) as [x1 [a|e]]; simpl in *; [|done].
  by rewrite Hk.
Qed.
Lemma web_preserves_iter {A} (k : A → st transaction unit) l : (∀ a, preserves (k a)) → preserves (st_iter k l).
Proof. intros Hk. induction l; [apply web_preserves_ret|]. apply web_preserves_bind; auto. Qed.
Lemma web_preserves_modify g : (∀ x, f (g x) = f x) → preserves (st_modify g).
Proof. intros Hg x. apply Hg. Qed.
Lemma preserves_run {A} (m : st transaction A) x x' r : preserves m → m x = (x', r) → f x' = f x.
Proof. intros Hm E. specialize (Hm x). by rewrite E in Hm. Qed.
End Preserves.
Notation keeps := (preserves (λ x, auth_part (tx_web x))).
Section Keeps.
Context `{IPyLib}.
Lemma keeps_handler {A} (m : st handler A) : keeps (with_handler m).
Proof. intros x. unfold with_handler. by destruct (m (tx_handler x)). Qed.
Lemma keeps_message s : keeps (message s).
Proof. by apply web_preserves_modify. Qed.
Lemma find_one_Ok {A} (l : list A) (x x' : transaction) o : find_one l x = (x', Ok o) → x' = x ∧ query_one l = Ok o.
Proof. unfold find_one, st_lift. by intros [= -> ->]. Qed.
Lemma query_one_Some {A} (l : list A) a : query_one l = Ok (Some a) → l = [a].
Proof. destruct l as [|b [|c l]]; simpl; congruence. Qed.
Lemma web_Ok (x x' : transaction) t : web x = (x', Ok t) → x' = x ∧ t = tx_web x.
Proof. unfold web. cbn. by intros [= -> ->]. Qed.
Lemma new_pk_Ok (uuid : nat → string) (x x' : transaction) k :
  new_pk uuid x = (x', Ok k) → x' = set_web (set_next (S (w_next (tx_web x)))) x ∧ k = uuid (w_next (tx_web x)).
Proof. unfold new_pk, web, modify_web. cbn. by intros [= <- <-]. Qed.
Lemma modify_web_Ok f (x x' : transaction) r : modify_web f x = (x', Ok r) → x' = set_web f x.
Proof. unfold modify_web, st_modify. by intros [= <- _]. Qed.
End Keeps.
Create HintDb keeps.
#[export] Hint Resolve web_preserves_ret web_preserves_raise web_preserves_lift web_preserves_get keeps_handler keeps_message : keeps.
Ltac preserves_tac :=
  repeat match goal with
  | |- preserves _ (_ ≫= _) => apply web_preserves_bind; [|intros]
  | |- preserves _ (if ?b then _ else _) => destruct b
  | |- preserves _ (match ?o with _ => _ end) => destruct o
  | |- preserves _ (let _ := _ in _) => cbv zeta
  | |- preserves _ (st_iter _ _) => apply web_preserves_iter; intros
  | |- preserves _ (st_modify _) => apply web_preserves_modify; reflexivity
  | |- preserves _ (modify_web _) => apply web_preserves_modify; reflexivity
  | |- preserves _ _ => solve [auto with keeps]
  end.

Ltac st_step H :=
  apply st_bind_Ok in H as (?x & ?a & ?E & H);
  repeat match goal with
  | E : find_one _ _ = (_, Ok _) |- _ => apply find_one_Ok in E as [-> E]
  | E : web _ = (_, Ok _) |- _ => apply web_Ok in E as [-> ->]
  | E : new_pk _ _ = (_, Ok _) |- _ => apply new_pk_Ok in E as [-> ->]
  | E : modify_web _ _ = (_, Ok _) |- _ => apply modify_web_Ok in E as ->
  | E : st_lift _ _ = (_, Ok _) |- _ => apply st_lift_Ok in E as [-> E]
  | E : st_get _ = (_, Ok _) |- _ => injection E as <- <-
  end.
(** The rest of an endpoint keeps the tables. *)
Ltac st_rest H := match type of H with ?m ?x = (_, ?r) => apply (preserves_run (λ y, auth_part (tx_web y)) m x _ r) in H; [|preserves_tac] end.

Lemma same_eq a b : same a b = true ↔ a = b.
Proof. apply String.eqb_eq. Qed.

Lemma fmap_key_unique {A B} (f : A → B) (l : list A) x y : NoDup (f <$> l) → x ∈ l → y ∈ l → f x = f y → x = y.
Proof.
  induction l as [|a l IH]; [by intros _ ?%elem_of_nil|].
  rewrite fmap_cons. intros [Ha Hl]%NoDup_cons [->|Hx]%elem_of_cons [->|Hy]%elem_of_cons E; [done| | |by apply IH].
  - exfalso. apply Ha. rewrite E. by apply list_elem_of_fmap_2.
  - exfalso. apply Ha. rewrite <- E. by apply list_elem_of_fmap_2.
Qed.

Section Tables.
Context (uuid : nat → string).

(** ** What the tables always satisfy *)

Definition permission_count (t : web_tables) (mntner_pk : string) : nat :=
  length (List.filter (λ x, same (wp_mntner_id x) mntner_pk) (w_permissions t)).
Record tables_wf (t : web_tables) : Prop := {
  wf_generated : Forall (λ k, ∃ n, k = uuid n ∧ n < w_next t) (wm_pk <$> w_mntners t);
  wf_permission_pks : Forall (λ k, ∃ n, k = uuid n ∧ n < w_next t) (wp_pk <$> w_permissions t);
  wf_mntners_unique : NoDup (wm_pk <$> w_mntners t);
  wf_permissions_unique : NoDup (wp_pk <$> w_permissions t);
  wf_pairs_unique : NoDup ((λ x, (wp_user_id x, wp_mntner_id x)) <$> w_permissions t);
  wf_permission_mntner : ∀ x, x ∈ w_permissions t → wp_mntner_id x ∈ wm_pk <$> w_mntners t;
  (** Every maintainer has a permission, and one whose migration is pending just one. *)
  wf_managed : ∀ m, m ∈ w_mntners t → 1 ≤ permission_count t (wm_pk m);
  wf_pending : ∀ m, m ∈ w_mntners t → migration_complete m = false → permission_count t (wm_pk m) = 1;
}.
(** Keys of tokens are unique. *)
Record tokens_wf (t : web_tables) : Prop := {
  wf_token_pks : Forall (λ k, ∃ n, k = uuid n ∧ n < w_next t) (wt_pk <$> w_tokens t);
  wf_tokens_unique : NoDup (wt_pk <$> w_tokens t);
}.
Lemma tables_wf_ext t t' :
  w_mntners t' = w_mntners t → w_permissions t' = w_permissions t → w_next t ≤ w_next t' → tables_wf t → tables_wf t'.
Proof.
  intros Hm Hp Hn [G1 G2 U1 U2 U3 R M P]. split; unfold permission_count; rewrite ?Hm, ?Hp; try done.
  - eapply Forall_impl; [exact G1|]. intros k (n & -> & ?). exists n. split; [done|lia].
  - eapply Forall_impl; [exact G2|]. intros k (n & -> & ?). exists n. split; [done|lia].
Qed.
Lemma permission_count_app t l k :
  length (List.filter (λ x, same (wp_mntner_id x) k) (w_permissions t ++ l))
  = permission_count t k + length (List.filter (λ x, same (wp_mntner_id x) k) l).
Proof. unfold permission_count. by rewrite List.filter_app, length_app. Qed.
Lemma generated_S n (l : list string) : Forall (λ k, ∃ i, k = uuid i ∧ i < n) l → Forall (λ k, ∃ i, k = uuid i ∧ i < S n) l.
Proof. intros Hl. eapply Forall_impl; [exact Hl|]. intros k (i & -> & ?). exists i. split; [done|lia]. Qed.
Lemma fresh_uuid `{!Inj (=) (=) uuid} n (l : list string) : Forall (λ k, ∃ i, k = uuid i ∧ i < n) l → ∀ i, n ≤ i → uuid i ∉ l.
Proof. intros Hl i Hi Hin. rewrite Forall_forall in Hl. destruct (Hl _ Hin) as (j & ->%(inj uuid) & ?). lia. Qed.
Lemma NoDup_snoc {A} (l : list A) x : NoDup l → x ∉ l → NoDup (l ++ [x]).
Proof. intros Hl Hx. apply NoDup_app. split_and!; [done|set_solver|]. apply NoDup_singleton. Qed.
Lemma no_permission t user_id mntner_id :
  permissions_of t user_id mntner_id = [] → (user_id, mntner_id) ∉ (λ x, (wp_user_id x, wp_mntner_id x)) <$> w_permissions t.
Proof.
  intros Hnone (x & [= -> ->] & Hx)%list_elem_of_fmap.
  assert (x ∈ permissions_of t (wp_user_id x) (wp_mntner_id x)) as Hin; [|rewrite Hnone in Hin; by apply elem_of_nil in Hin].
  apply list_elem_of_In, filter_In. split; [by apply list_elem_of_In|]. unfold same. by rewrite !String.eqb_refl.
Qed.
Lemma wf_insert_permission `{!Inj (=) (=) uuid} t m p :
  tables_wf t → m ∈ w_mntners t → migration_complete m = true → wp_mntner_id p = wm_pk m → wp_pk p = uuid (w_next t) →
  permissions_of t (wp_user_id p) (wm_pk m) = [] →
  tables_wf (set_next (S (w_next t)) (set_permissions (w_permissions t ++ [p]) t)).
Proof.
  intros [G1 G2 U1 U2 U3 R M P] Hm Hc Hpm Hpk Hnone. split; cbn [w_mntners w_permissions w_next set_next set_permissions].
  - by apply generated_S.
  - rewrite fmap_app, Forall_app. split; [by apply generated_S|]. repeat constructor. exists (w_next t). split; [done|lia].
  - done.
  - rewrite fmap_app. apply NoDup_snoc; [done|]. rewrite Hpk. by apply (fresh_uuid (w_next t)).
  - rewrite fmap_app. apply NoDup_snoc; [done|]. rewrite Hpm. by apply no_permission.
  - intros x [Hx| ->%list_elem_of_singleton]%elem_of_app; [by apply R|]. rewrite Hpm. by apply list_elem_of_fmap_2.
  - intros m' Hm'. unfold permission_count. cbn. rewrite permission_count_app. specialize (M m' Hm'). lia.
  - intros m' Hm' Hc'. unfold permission_count. cbn. rewrite permission_count_app, (P m' Hm' Hc'). cbn. rewrite Hpm.
    destruct (same (wm_pk m) (wm_pk m')) eqn:E; [|done]. apply same_eq in E. exfalso.
    by rewrite (fmap_key_unique wm_pk _ m m' U1 Hm Hm' E), Hc' in Hc.
Qed.
Lemma filter_fmap_subseteq {A B} (f : A → B) (p : A → bool) l : NoDup (f <$> l) → NoDup (f <$> List.filter p l).
Proof.
  induction l as [|a l IH]; [done|]. rewrite fmap_cons. intros [Ha Hl]%NoDup_cons. simpl. destruct (p a); [|by apply IH].
  rewrite fmap_cons. apply NoDup_cons. split; [|by apply IH]. intros (x & Hx & [Hin _]%list_elem_of_In%filter_In)%list_elem_of_fmap.
  apply Ha. rewrite Hx. apply list_elem_of_fmap_2. by apply list_elem_of_In.
Qed.
(** Removing the row with one key leaves out at most one. *)
Lemma remove_key_count (l : list web_permission) k (q : web_permission → bool) :
  NoDup (wp_pk <$> l) →
  length (List.filter q l) ≤ S (length (List.filter q (List.filter (λ x, negb (same (wp_pk x) k)) l))).
Proof.
  induction l as [|a l IH]; [simpl; lia|]. rewrite fmap_cons. intros [Ha Hl]%NoDup_cons. specialize (IH Hl). simpl.
  destruct (same (wp_pk a) k) eqn:E; simpl.
  - apply same_eq in E. subst k. assert (List.filter (λ x, negb (same (wp_pk x) (wp_pk a))) l = l) as Hsame.
    { clear -Ha. induction l as [|b l IH]; [done|]. rewrite fmap_cons, not_elem_of_cons in Ha. destruct Ha as [Hb Ha]. simpl.
      rewrite IH by done. unfold same. by rewrite (proj2 (String.eqb_neq _ _) (not_eq_sym Hb)). }
    rewrite Hsame. destruct (q a); simpl; lia.
  - destruct (q a); simpl; lia.
Qed.
Lemma remove_key_count_other (l : list web_permission) k (q : web_permission → bool) :
  (∀ x, x ∈ l → wp_pk x = k → q x = false) → List.filter q (List.filter (λ x, negb (same (wp_pk x) k)) l) = List.filter q l.
Proof.
  induction l as [|a l IH]; [done|]. intros Hk. simpl. destruct (same (wp_pk a) k) eqn:E; simpl.
  - apply same_eq in E. rewrite (Hk a) by (done || by left). apply IH. intros x Hx. apply Hk. by right.
  - rewrite IH; [done|]. intros x Hx. apply Hk. by right.
Qed.
Lemma wf_remove_permission t p :
  tables_wf t → p ∈ w_permissions t → permission_count t (wp_mntner_id p) ≠ 1 →
  tables_wf (set_permissions (List.filter (λ x, negb (same (wp_pk x) (wp_pk p))) (w_permissions t)) t).
Proof.
  intros [G1 G2 U1 U2 U3 R M P] Hp Hcount. assert (∀ m, wm_pk m ≠ wp_mntner_id p →
    permission_count (set_permissions (List.filter (λ x, negb (same (wp_pk x) (wp_pk p))) (w_permissions t)) t) (wm_pk m)
    = permission_count t (wm_pk m)) as Hother.
  { intros m Hm. unfold permission_count. cbn. f_equal. apply remove_key_count_other. intros x Hx Hk.
    rewrite (fmap_key_unique wp_pk _ x p U2 Hx Hp Hk). by apply String.eqb_neq, not_eq_sym. }
  assert (∀ x, x ∈ List.filter (λ x, negb (same (wp_pk x) (wp_pk p))) (w_permissions t) → x ∈ w_permissions t) as Hsub.
  { intros x [Hx _]%list_elem_of_In%filter_In. by apply list_elem_of_In. }
  split; cbn [w_mntners w_permissions w_next set_permissions]; try done.
  - apply Forall_forall. intros k (x & -> & Hx%Hsub)%list_elem_of_fmap. rewrite Forall_forall in G2. apply G2. by apply list_elem_of_fmap_2.
  - by apply filter_fmap_subseteq.
  - by apply filter_fmap_subseteq.
  - intros x Hx%Hsub. by apply R.
  - intros m Hm. destruct (decide (wm_pk m = wp_mntner_id p)) as [E|E]; [|rewrite Hother by done; by apply M].
    specialize (M m Hm). rewrite E in *. unfold permission_count in *. cbn.
    pose proof (remove_key_count (w_permissions t) (wp_pk p) (λ x, same (wp_mntner_id x) (wp_mntner_id p)) U2). lia.
  - intros m Hm Hc. specialize (P m Hm Hc). rewrite Hother; [done|]. intros E. by rewrite E in P.
Qed.
Lemma wf_initiate `{!Inj (=) (=) uuid} t m p :
  tables_wf t → wm_pk m = uuid (w_next t) → migration_complete m = false →
  wp_pk p = uuid (S (w_next t)) → wp_mntner_id p = wm_pk m → permissions_of t (wp_user_id p) (wm_pk m) = [] →
  tables_wf (set_next (S (S (w_next t))) (set_mntners (w_mntners t ++ [m]) (set_permissions (w_permissions t ++ [p]) t))).
Proof.
  intros [G1 G2 U1 U2 U3 R M P] Hm Hc Hp Hpm Hnone.
  assert (wm_pk m ∉ wm_pk <$> w_mntners t) as Hfresh by (rewrite Hm; by apply (fresh_uuid (w_next t))).
  assert (permission_count t (wm_pk m) = 0) as Hzero.
  { unfold permission_count. destruct (List.filter _ _) as [|x l] eqn:E; [done|]. exfalso.
    assert (x ∈ List.filter (λ x, same (wp_mntner_id x) (wm_pk m)) (w_permissions t)) as Hx by (rewrite E; by left).
    apply list_elem_of_In, filter_In in Hx as [Hx Hk%same_eq]. apply list_elem_of_In, R in Hx. by rewrite Hk in Hx. }
  split; cbn [w_mntners w_permissions w_next set_next set_permissions set_mntners].
  - rewrite fmap_app, Forall_app. split; [by apply generated_S, generated_S|]. repeat constructor. exists (w_next t). split; [done|lia].
  - rewrite fmap_app, Forall_app. split; [by apply generated_S, generated_S|]. repeat constructor. exists (S (w_next t)). split; [done|lia].
  - rewrite fmap_app. by apply NoDup_snoc.
  - rewrite fmap_app. apply NoDup_snoc; [done|]. rewrite Hp. apply (fresh_uuid (w_next t)); [done|lia].
  - rewrite fmap_app. apply NoDup_snoc; [done|]. rewrite Hpm. by apply no_permission.
  - intros x [Hx| ->%list_elem_of_singleton]%elem_of_app; rewrite fmap_app, elem_of_app; [left; by apply R|right]. rewrite Hpm. by left.
  - intros m' Hm'. unfold permission_count. cbn. rewrite permission_count_app. apply elem_of_app in Hm' as [Hm'| ->%list_elem_of_singleton].
    + specialize (M m' Hm'). lia.
    + rewrite Hzero. cbn. rewrite Hpm. unfold same. rewrite String.eqb_refl. simpl. lia.
  - intros m' Hm' Hc'. unfold permission_count. cbn. rewrite permission_count_app. apply elem_of_app in Hm' as [Hm'| ->%list_elem_of_singleton].
    + rewrite (P m' Hm' Hc'). cbn. rewrite Hpm. destruct (same (wm_pk m) (wm_pk m')) eqn:E; [|done]. apply same_eq in E.
      exfalso. apply Hfresh. rewrite E. by apply list_elem_of_fmap_2.
    + rewrite Hzero. cbn. rewrite Hpm. unfold same. by rewrite String.eqb_refl.
Qed.
Lemma clear_token_pk k m : wm_pk (clear_token k m) = wm_pk m.
Proof. unfold clear_token. by destruct (same (wm_pk m) k). Qed.
Lemma clear_token_pending k m : migration_complete (clear_token k m) = false → clear_token k m = m.
Proof. unfold clear_token. by destruct (same (wm_pk m) k). Qed.
Lemma wf_complete t k : tables_wf t → tables_wf (set_mntners (clear_token k <$> w_mntners t) t).
Proof.
  intros [G1 G2 U1 U2 U3 R M P].
  assert (wm_pk <$> (clear_token k <$> w_mntners t) = wm_pk <$> w_mntners t) as Hpks.
  { rewrite <- list_fmap_compose. apply list_fmap_ext. intros i m _. apply clear_token_pk. }
  split; cbn [w_mntners w_permissions w_next set_mntners]; rewrite ?Hpks; try done.
  - intros m (m' & -> & Hm')%list_elem_of_fmap. rewrite clear_token_pk. by apply M.
  - intros m (m' & -> & Hm')%list_elem_of_fmap Hc. assert (clear_token k m' = m') as E by (by apply clear_token_pending).
    rewrite E in Hc |- *. by apply P.
Qed.
Lemma tokens_wf_ext t t' : w_tokens t' = w_tokens t → w_next t ≤ w_next t' → tokens_wf t → tokens_wf t'.
Proof.
  intros Hk Hn [G U]. split; rewrite Hk; [|done]. eapply Forall_impl; [exact G|]. intros k (n & -> & ?). exists n. split; [done|lia].
Qed.
Lemma edit_token_pk k name ip f z : wt_pk (edit_token k name ip f z) = wt_pk z.
Proof. unfold edit_token. by destruct (same _ _). Qed.
Lemma tokens_wf_add `{!Inj (=) (=) uuid} t k :
  tokens_wf t → wt_pk k = uuid (w_next t) → tokens_wf (set_next (S (S (w_next t))) (set_tokens (w_tokens t ++ [k]) t)).
Proof.
  intros [G U] Hk. split; cbn [w_tokens w_next set_next set_tokens]; rewrite fmap_app.
  - apply Forall_app. split; [by apply generated_S, generated_S|]. repeat constructor. exists (w_next t). rewrite Hk. split; [done|lia].
  - apply NoDup_snoc; [done|]. rewrite Hk. by apply (fresh_uuid (w_next t)).
Qed.
Lemma tokens_wf_edit t k name ip f : tokens_wf t → tokens_wf (set_tokens (edit_token k name ip f <$> w_tokens t) t).
Proof.
  intros [G U]. assert (wt_pk <$> (edit_token k name ip f <$> w_tokens t) = wt_pk <$> w_tokens t) as E.
  { rewrite <- list_fmap_compose. apply list_fmap_ext. intros i z _. apply edit_token_pk. }
  split; cbn [w_tokens w_next set_tokens]; by rewrite E.
Qed.
Lemma tokens_wf_delete t p : tokens_wf t → tokens_wf (set_tokens (List.filter p (w_tokens t)) t).
Proof.
  intros [G U]. split; cbn [w_tokens w_next set_tokens]; [|by apply filter_fmap_subseteq]. apply Forall_forall.
  intros k (z & -> & [Hz _]%list_elem_of_In%filter_In)%list_elem_of_fmap. rewrite Forall_forall in G. apply G.
  apply list_elem_of_fmap_2. by apply list_elem_of_In.
Qed.
End Tables.

Section WebTheory.
Context `{IPyLib} `{Radix node_data} `{redis : Redis} (cfg : configuration).
Context (collate_lt : string → string → bool) (uuid : nat → string) (timestamp_text : Z → string).
Context (gpg_import_keys : string → list string * option string) (gpg_uids : string → list string).
Context (hasher_verify : string → string → string → option bool).
Context (smtp : string * string * string → res unit) (mail_footer : string).
Context (password_verify : string → string → option bool).
Context (migrate_mail : web_mntner → web_user → string * string) (set_order : list string → list string).
Notation verify_password := (verify_password password_verify).
Notation RPSLMntner := (RPSLMntner cfg gpg_import_keys gpg_uids).
Notation mntner_password_valid := (mntner_password_valid cfg hasher_verify).
Notation send_email := (send_email cfg smtp mail_footer).
Notation notify_mntner := (notify_mntner cfg smtp mail_footer set_order).
Notation run_endpoint :=
  (run_endpoint cfg uuid timestamp_text gpg_import_keys gpg_uids hasher_verify smtp mail_footer password_verify migrate_mail set_order).

Lemma keeps_send_email a b c : keeps (send_email a b c).
Proof using Type. unfold send_email. preserves_tac. Qed.
Hint Resolve keeps_send_email : keeps.
Lemma keeps_notify u m s : keeps (notify_mntner u m s).
Proof using Type. unfold notify_mntner, find_one. preserves_tac. Qed.
Lemma keeps_log_change rq u m d a : keeps (log_change rq u m d a).
Proof using Type. unfold log_change. preserves_tac. Qed.
Lemma keeps_migrate_mail u m o : keeps (send_mntner_migrate_initiate_mail cfg smtp mail_footer migrate_mail set_order u m o).
Proof using Type. unfold send_mntner_migrate_initiate_mail. preserves_tac. Qed.
Hint Resolve keeps_notify keeps_log_change keeps_migrate_mail : keeps.

(** ** The changes *)

(** The user has a permission on the maintainer, as loaded or as stored. *)
Definition has_permission (permissions : list web_permission) (user_id mntner_id : string) (p : web_permission → bool) : Prop :=
  ∃ x, x ∈ permissions ∧ wp_user_id x = user_id ∧ wp_mntner_id x = mntner_id ∧ p x = true.
(** A password of the maintainer's object in the database. *)
Definition knows_password (d : database) (mntner_obj_id : string) (password : option string) : Prop :=
  ∃ r o, r ∈ db_objects d ∧ r_pk r = mntner_obj_id ∧ RPSLMntner (r_object_text r) = Ok o ∧ mntner_password_valid o password = Ok true.

Inductive change (u : loaded_user) (d : database) (t : web_tables) : endpoint → web_tables → Prop :=
| change_none ep t' : auth_part t' = auth_part t → change u d t ep t'
| change_token_add m f name ip t' :
    m ∈ w_mntners t → migration_complete m = true →
    has_permission (w_permissions t) (wu_pk (lu_user u)) (wm_pk m) (λ _, true) →
    ApiTokenForm_validate f = inr (name, ip) →
    auth_part t' = auth_part (set_next (S (S (w_next t))) (set_tokens (w_tokens t ++ [{|
      wt_pk := uuid (w_next t); wt_token := uuid (S (w_next t)); wt_name := name; wt_creator_id := wu_pk (lu_user u);
      wt_mntner_id := wm_pk m; wt_ip_restriction := ip; wt_enabled_webapi := tf_enabled_webapi f;
      wt_enabled_email := tf_enabled_email f |}]) t)) →
    change u d t (ep_api_token_add (wm_pk m) f) t'
| change_token_edit k f name ip t' :
    tokens_of t u (wt_pk k) = [k] → ApiTokenForm_validate f = inr (name, ip) →
    auth_part t' = auth_part (set_tokens (edit_token (wt_pk k) name ip f <$> w_tokens t) t) →
    change u d t (ep_api_token_edit (wt_pk k) f) t'
| change_token_delete k t' :
    tokens_of t u (wt_pk k) = [k] →
    auth_part t' = auth_part (set_tokens (List.filter (λ k', negb (same (wt_pk k') (wt_pk k))) (w_tokens t)) t) →
    change u d t (ep_api_token_delete (wt_pk k)) t'
| change_permission_add m x f t' :
    m ∈ w_mntners t → migration_complete m = true →
    has_permission (w_permissions t) (wu_pk (lu_user u)) (wm_pk m) wp_user_management →
    verify_password u (default "" (pf_current_password f)) = true →
    x ∈ w_users t → pf_new_user_email f = Some (wu_email x) → permissions_of t (wu_pk x) (wm_pk m) = [] →
    auth_part t' = auth_part (set_next (S (w_next t)) (set_permissions (w_permissions t ++ [{|
      wp_pk := uuid (w_next t); wp_user_id := wu_pk x; wp_mntner_id := wm_pk m; wp_user_management := pf_user_management f |}]) t)) →
    change u d t (ep_permission_add (wm_pk m) f) t'
| change_permission_delete p f t' :
    managed_permissions t u (wp_pk p) = [p] →
    length (List.filter (λ x, same (wp_mntner_id x) (wp_mntner_id p)) (w_permissions t)) ≠ 1 →
    verify_password u (default "" (df_current_password f)) = true →
    auth_part t' = auth_part (set_permissions (List.filter (λ x, negb (same (wp_pk x) (wp_pk p))) (w_permissions t)) t) →
    change u d t (ep_permission_delete (wp_pk p) f) t'
| change_initiate secret f m t' :
    knows_password d (wm_rpsl_mntner_obj_id m) (mf_mntner_password f) → wm_migration_token m = Some secret →
    wm_pk m = uuid (w_next t) → permissions_of t (wu_pk (lu_user u)) (wm_pk m) = [] →
    Forall (λ m', wm_rpsl_mntner_obj_id m' ≠ wm_rpsl_mntner_obj_id m) (w_mntners t) →
    auth_part t' = auth_part (set_next (S (S (w_next t))) (set_mntners (w_mntners t ++ [m])
      (set_permissions (w_permissions t ++ [{|
        wp_pk := uuid (S (w_next t)); wp_user_id := wu_pk (lu_user u); wp_mntner_id := wm_pk m; wp_user_management := true |}]) t))) →
    change u d t (ep_mntner_migrate_initiate secret f) t'
| change_complete m token f t' :
    m ∈ w_mntners t → wm_migration_token m = Some token →
    has_permission (w_permissions t) (wu_pk (lu_user u)) (wm_pk m) wp_user_management →
    knows_password d (wm_rpsl_mntner_obj_id m) (cf_mntner_password f) →
    auth_part t' = auth_part (set_mntners (clear_token (wm_pk m) <$> w_mntners t) t) →
    change u d t (ep_mntner_migrate_complete (wm_pk m) token f) t'.
(** ** Every endpoint is one of the changes *)

Lemma joined_mntners_one t user_id p q m :
  joined_mntners t user_id p q = [m] → m ∈ w_mntners t ∧ q m = true ∧ has_permission (w_permissions t) user_id (wm_pk m) p.
Proof using Type.
  intros E. assert (m ∈ joined_mntners t user_id p q) as Hin by (rewrite E; by left). clear E.
  unfold joined_mntners in Hin. apply list_elem_of_In, in_concat in Hin as (l & Hl & Hm). apply in_map_iff in Hl as (m' & <- & Hm').
  apply in_map_iff in Hm as (y & -> & Hy). apply filter_In in Hm' as [Hm' Hq]. apply filter_In in Hy as [Hy Hp].
  rewrite !andb_true_iff, !same_eq in Hp. destruct Hp as [[H1 H2] H3].
  split_and!; [by apply list_elem_of_In|done|]. exists y. split_and!; [by apply list_elem_of_In|done..].
Qed.
Notation changed u x ep x' := (change u (h_db (tx_handler x)) (tx_web x) ep (tx_web x')).
Lemma none_changed u (x x' : transaction) ep : auth_part (tx_web x') = auth_part (tx_web x) → changed u x ep x'.
Proof using Type. apply change_none. Qed.

Lemma api_token_add_change rq mntner f u x x' r :
  api_token_add cfg uuid smtp mail_footer set_order rq mntner f u x = (x', Ok r) → changed u x (ep_api_token_add mntner f) x'.
Proof using Type.
  unfold api_token_add. intros Hrun. st_step Hrun. st_step Hrun.
  destruct a as [m|]; [|by injection Hrun as <- _; apply none_changed].
  apply query_one_Some, joined_mntners_one in E as (Hm & <-%same_eq & Hp).
  destruct (migration_complete m) eqn:Hc; [|by injection Hrun as <- _; apply none_changed]. simpl in Hrun.
  destruct (rq_post rq); [|by injection Hrun as <- _; apply none_changed]. simpl in Hrun.
  destruct (ApiTokenForm_validate f) as [errors|[name ip]] eqn:Hf; [by injection Hrun as <- _; apply none_changed|].
  do 3 st_step Hrun. st_rest Hrun. by eapply change_token_add.
Qed.
Lemma tokens_of_pk t u pk k : tokens_of t u pk = [k] → wt_pk k = pk.
Proof using Type.
  intros E. assert (k ∈ tokens_of t u pk) as Hin by (rewrite E; by left). clear E.
  apply list_elem_of_In, filter_In in Hin as [_ Hin]. apply andb_true_iff in Hin as [Hin _]. by apply same_eq.
Qed.
Lemma api_token_edit_change rq token_pk f u x x' r :
  api_token_edit rq token_pk f u x = (x', Ok r) → changed u x (ep_api_token_edit token_pk f) x'.
Proof using Type.
  unfold api_token_edit. intros Hrun. st_step Hrun. st_step Hrun.
  destruct a as [k|]; [|by injection Hrun as <- _; apply none_changed]. apply query_one_Some in E.
  destruct (rq_post rq); [|by injection Hrun as <- _; apply none_changed]. simpl in Hrun.
  destruct (ApiTokenForm_validate f) as [errors|[name ip]] eqn:Hf; [by injection Hrun as <- _; apply none_changed|].
  do 2 st_step Hrun. st_rest Hrun. pose proof (tokens_of_pk _ _ _ _ E) as <-. by eapply change_token_edit.
Qed.
Lemma api_token_delete_change rq token_pk u x x' r :
  api_token_delete cfg smtp mail_footer set_order rq token_pk u x = (x', Ok r) → changed u x (ep_api_token_delete token_pk) x'.
Proof using Type.
  unfold api_token_delete. intros Hrun. st_step Hrun. st_step Hrun.
  destruct a as [k|]; [|by injection Hrun as <- _; apply none_changed]. apply query_one_Some in E.
  case_bool_decide as Hget; [by injection Hrun as <- _; apply none_changed|].
  do 2 st_step Hrun. st_rest Hrun. pose proof (tokens_of_pk _ _ _ _ E) as <-. by eapply change_token_delete.
Qed.
Lemma current_password_ok fields password u :
  current_password_errors password_verify fields password u = [] →
  fields = [] ∧ verify_password u (default "" password) = true.
Proof using Type.
  unfold current_password_errors. destruct (fields ++ _) as [|e l] eqn:E; [|done].
  apply app_nil in E as [-> _]. by destruct (verify_password u _).
Qed.
Lemma data_required_ok field data : data_required field data = [] → ∃ s, data = Some s.
Proof using Type. destruct data; [eauto|done]. Qed.
Lemma insert_permission_Ok user_id mntner_id b (x x' : transaction) p :
  insert_permission uuid user_id mntner_id b x = (x', Ok p) →
  permissions_of (tx_web x) user_id mntner_id = [] ∧
  p = {| wp_pk := uuid (w_next (tx_web x)); wp_user_id := user_id; wp_mntner_id := mntner_id; wp_user_management := b |} ∧
  x' = set_web (λ t, set_permissions (w_permissions t ++ [p]) t) (set_web (set_next (S (w_next (tx_web x)))) x).
Proof using Type.
  unfold insert_permission. intros Hrun. st_step Hrun. case_bool_decide as Hnone; [|done]. simpl in Hrun.
  do 2 st_step Hrun. injection Hrun as <- <-. done.
Qed.
Lemma permission_add_change rq mntner f u x x' r :
  permission_add cfg uuid smtp mail_footer password_verify set_order rq mntner f u x = (x', Ok r) →
  changed u x (ep_permission_add mntner f) x'.
Proof using Type.
  unfold permission_add. intros Hrun. st_step Hrun. st_step Hrun.
  destruct a as [m|]; [|by injection Hrun as <- _; apply none_changed].
  apply query_one_Some, joined_mntners_one in E as (Hm & <-%same_eq & Hp).
  destruct (migration_complete m) eqn:Hc; [|by injection Hrun as <- _; apply none_changed]. simpl in Hrun.
  destruct (rq_post rq); [|by injection Hrun as <- _; apply none_changed]. simpl in Hrun. st_step Hrun.
  destruct a as [errors|nu]; [by injection Hrun as <- _; apply none_changed|].
  unfold PermissionAddForm_validate in E. destruct (current_password_errors _ _ _ _) eqn:Herr; [|done].
  apply current_password_ok in Herr as [[Hmail _]%app_nil Hpw]. apply data_required_ok in Hmail as [mail Hmail].
  apply res_bind_Ok in E as ([nu'|] & Hnu & E); [|done]. apply query_one_Some in Hnu.
  assert (nu' ∈ w_users (tx_web x) ∧ wu_email nu' = mail) as [Hin Heq].
  { assert (nu' ∈ List.filter (λ y, same (wu_email y) mail) (w_users (tx_web x))) as Hin.
    { rewrite Hmail in Hnu. simpl in Hnu. rewrite Hnu. by left. }
    apply list_elem_of_In, filter_In in Hin as [Hin Heq%same_eq]. by apply list_elem_of_In in Hin. }
  case_bool_decide as Hnone; [|done]. injection E as ->.
  apply st_bind_Ok in Hrun as (x1 & p & Hins & Hrun). apply insert_permission_Ok in Hins as (_ & -> & ->).
  st_rest Hrun. eapply change_permission_add; try done. by rewrite Hmail, Heq.
Qed.
Lemma managed_permissions_pk t u pk p : managed_permissions t u pk = [p] → wp_pk p = pk.
Proof using Type.
  intros E. assert (p ∈ managed_permissions t u pk) as Hin by (rewrite E; by left). clear E.
  apply list_elem_of_In, filter_In in Hin as [_ Hin]. apply andb_true_iff in Hin as [Hin _]. by apply same_eq.
Qed.
Lemma mntner_of_pk pk t m : mntner_of pk t = Ok m → m ∈ w_mntners t ∧ wm_pk m = pk.
Proof using Type.
  unfold mntner_of, mntner_by_pk. destruct (List.find _ _) eqn:E; [|done]. intros [= ->].
  apply find_some in E as [Hin Heq%same_eq]. by apply list_elem_of_In in Hin.
Qed.
Lemma permission_delete_change rq permission f u x x' r :
  permission_delete cfg smtp mail_footer password_verify set_order rq permission f u x = (x', Ok r) →
  changed u x (ep_permission_delete permission f) x'.
Proof using Type.
  unfold permission_delete. intros Hrun. st_step Hrun. st_step Hrun.
  destruct a as [p|]; [|by injection Hrun as <- _; apply none_changed]. apply query_one_Some in E. st_step Hrun.
  destruct (migration_complete a) eqn:Hc; [|by injection Hrun as <- _; apply none_changed]. simpl in Hrun.
  case_bool_decide as Hlast; [by injection Hrun as <- _; apply none_changed|]. st_step Hrun.
  destruct (rq_post rq); [|by injection Hrun as <- _; apply none_changed]. simpl in Hrun.
  destruct (PermissionDeleteForm_validate _ _ _ _) eqn:Herr; [|by injection Hrun as <- _; apply none_changed].
  apply current_password_ok in Herr as [_ Hpw]. apply mntner_of_pk in E0 as [_ Hpk]. rewrite Hpk in Hlast.
  pose proof (managed_permissions_pk _ _ _ _ E) as <-.
  apply st_bind_Ok in Hrun as (x1 & [] & Hn & Hrun). apply (preserves_run (λ x, auth_part (tx_web x)) _ _ _ _ (keeps_notify _ _ _)) in Hn.
  st_step Hrun. st_rest Hrun. eapply change_permission_delete; try done. rewrite Hrun. injection Hn as F1 F2 F3 F4 F5.
  unfold auth_part. simpl. by rewrite F1, F2, F3, F4, F5.
Qed.
Lemma objects_where_one p d r : objects_where p d = [r] → r ∈ db_objects d ∧ p r = true.
Proof using Type.
  intros E. assert (r ∈ objects_where p d) as Hin by (rewrite E; by left). apply list_elem_of_In, filter_In in Hin as [Hin Hp].
  by apply list_elem_of_In in Hin.
Qed.
Lemma mntner_migrate_initiate_change rq secret f u x x' r :
  mntner_migrate_initiate cfg uuid gpg_import_keys gpg_uids hasher_verify smtp mail_footer migrate_mail set_order
    rq secret f u x = (x', Ok r) →
  changed u x (ep_mntner_migrate_initiate secret f) x'.
Proof using Type.
  unfold mntner_migrate_initiate. intros Hrun. destruct (truthy _); [|by injection Hrun as <- _; apply none_changed].
  destruct (rq_post rq); [|by injection Hrun as <- _; apply none_changed]. simpl in Hrun. do 2 st_step Hrun.
  destruct a as [errors|[row o]]; [by injection Hrun as <- _; apply none_changed|].
  unfold MntnerMigrateInitiateForm_validate in E. destruct (_ ++ _ ++ _) eqn:Herr; [|done]. clear Herr.
  apply res_bind_Ok in E as ([row'|] & Hrow & Hv); [|done]. apply query_one_Some, objects_where_one in Hrow as [Hrow _].
  destruct (existsb _ _) eqn:Hnew; [done|]. apply res_bind_Ok in Hv as (o' & Ho & Hv).
  apply res_bind_Ok in Hv as (valid & Hvalid & Hv). destruct valid; [|done]. injection Hv as -> ->.
  do 2 st_step Hrun. apply st_bind_Ok in Hrun as (x2 & p & Hins & Hrun).
  apply insert_permission_Ok in Hins as (Hnone & -> & ->). st_rest Hrun.
  eapply change_initiate with (m := {| wm_pk := uuid (w_next (tx_web x)); wm_rpsl_mntner_pk := pk o; wm_rpsl_mntner_obj_id := r_pk row;
           wm_rpsl_mntner_source := default "" (mf_mntner_source f); wm_migration_token := Some secret |}); try done.
  - by exists row, o.
  - apply Forall_forall. intros m' Hm' Hid. apply not_true_iff_false in Hnew. apply Hnew, existsb_exists. exists m'.
    split; [by apply list_elem_of_In|by apply same_eq].
Qed.
Lemma mntner_migrate_complete_change rq mntner_pk token f u x x' r :
  mntner_migrate_complete cfg uuid timestamp_text gpg_import_keys gpg_uids hasher_verify smtp mail_footer set_order
    rq mntner_pk token f u x = (x', Ok r) →
  changed u x (ep_mntner_migrate_complete mntner_pk token f) x'.
Proof using Type.
  unfold mntner_migrate_complete. intros Hrun. do 2 st_step Hrun.
  destruct a as [m|]; [|by injection Hrun as <- _; apply none_changed].
  apply query_one_Some, joined_mntners_one in E as (Hm & [<-%same_eq Htoken%bool_decide_eq_true]%andb_true_iff & Hp).
  destruct (rq_post rq); [|by injection Hrun as <- _; apply none_changed]. simpl in Hrun. st_step Hrun.
  destruct a as [errors|o]; [by injection Hrun as <- _; apply none_changed|].
  unfold MntnerMigrateCompleteForm_validate in E. destruct (_ ++ _) eqn:Herr; [|done]. clear Herr.
  apply res_bind_Ok in E as (row & Hrow & Hv). apply res_bind_Ok in Hv as (o' & Ho & Hv).
  apply res_bind_Ok in Hv as (valid & Hvalid & Hv). destruct valid; [|done]. injection Hv as ->.
  unfold mntner_row in Hrow. destruct (objects_where _ _) as [|row' rows] eqn:Hrows; [done|]. injection Hrow as ->.
  assert (row ∈ objects_where (λ r, same (r_pk r) (wm_rpsl_mntner_obj_id m)) (h_db (tx_handler x))) as Hin by (rewrite Hrows; by left).
  apply list_elem_of_In, filter_In in Hin as [Hin Hid%same_eq]. apply list_elem_of_In in Hin.
  st_step Hrun. st_rest Hrun. eapply change_complete; try done. by exists row, o.
Qed.

(** What an endpoint does is one of the changes. *)
Lemma endpoint_change rq ep u x x' r : run_endpoint rq ep u x = (x', Ok r) → changed u x ep x'.
Proof using Type.
  destruct ep; [apply api_token_add_change|apply api_token_edit_change|apply api_token_delete_change|apply permission_add_change
    |apply permission_delete_change|apply mntner_migrate_initiate_change|apply mntner_migrate_complete_change].
Qed.
(** The page that asks for confirmation is only shown for GET. *)
Definition shows_page (rq : request) (ep : endpoint) : bool :=
  if ep is ep_api_token_delete _ then bool_decide (rq_method rq = GET) else negb (rq_post rq).
(** A request that is answered with a page changes nothing. *)
Lemma endpoint_page rq ep u : shows_page rq ep = true → keeps (run_endpoint rq ep u).
Proof using Type.
  intros Hpage. destruct ep; cbn [WebMntners.run_endpoint shows_page] in *;
    unfold api_token_add, api_token_edit, api_token_delete, permission_add, permission_delete, mntner_migrate_initiate,
      mntner_migrate_complete, web, find_one; rewrite Hpage; preserves_tac.
Qed.
Notation handle_request := (handle_request cfg collate_lt uuid timestamp_text gpg_import_keys gpg_uids hasher_verify smtp
  mail_footer password_verify migrate_mail set_order).
(** The user of a request that may change something. *)
Definition acts (rq : request) (s : session) (u : loaded_user) : Prop :=
  rq_user rq = Some u ∧ ss_mfa_complete s = true ∧ rq_post rq = true ∧ rq_csrf rq = true.
(** A request that deletes a token without the submission of a form, and without its CSRF token. *)
Definition heads (rq : request) (s : session) (u : loaded_user) (ep : endpoint) : Prop :=
  rq_user rq = Some u ∧ ss_mfa_complete s = true ∧ rq_method rq = HEAD ∧ ∃ k, ep = ep_api_token_delete k.
Lemma no_page rq ep : shows_page rq ep = false → rq_post rq = true ∨ rq_method rq = HEAD ∧ ∃ k, ep = ep_api_token_delete k.
Proof using Type.
  unfold shows_page, rq_post. destruct ep, (rq_method rq) eqn:E; cbn; try done; eauto.
Qed.
(** A request that changes the tables was one of an authenticated user, and the change is committed as a whole. *)
Lemma request_change now rq s ep e e' s' r :
  handle_request now rq s ep e = (e', s', r) →
  auth_part (we_web e') = auth_part (we_web e)
  ∨ ∃ u, (acts rq s u ∨ heads rq s u ep) ∧ change u (we_db e) (we_web e) ep (we_web e').
Proof using Type.
  unfold WebMntners.handle_request, rate_limit_post, csrf_protect, denied. intros Hrun.
  assert ((if rq_post rq && negb (rq_csrf rq) then (e, s, Ok forbidden)
           else session_provider_manager cfg collate_lt uuid now s (authentication_required true rq (run_endpoint rq ep)) e) = (e', s', r)
          ∨ e' = e) as [Hbody| ->]; [|clear Hrun|by left].
  { destruct (rate_limited ep); [|by left]. destruct (rq_post rq && negb (rq_permitted rq)); [right; congruence|by left]. }
  destruct (rq_post rq && negb (rq_csrf rq)) eqn:Hcsrf; [injection Hbody as <- <- <-; by left|].
  revert Hbody. unfold session_provider_manager.
  match goal with |- (match ?m with _ => _ end = _ → _) => destruct m as [x [r0|ex]] eqn:Hx end; intros [= <- _ _]; [|by left]. simpl.
  apply st_bind_Ok in Hx as (x1 & r1 & Hep & Hx). apply st_bind_Ok in Hx as (x2 & [] & Hc & Hx). injection Hx as <- <-.
  apply (preserves_run (λ x, auth_part (tx_web x)) _ _ _ _ (keeps_handler _)) in Hc. unfold authentication_required in Hep.
  destruct (rq_user rq) as [u|] eqn:Hu; [|injection Hep as <- <-; by left].
  apply st_bind_Ok in Hep as (x3 & a & [= <- <-] & Hep). cbn [tx_session] in Hep.
  destruct (ss_mfa_complete s) eqn:Hmfa; [|injection Hep as <- <-; by left]. cbn [negb andb] in Hep.
  destruct (shows_page rq ep) eqn:Hpage.
  { left. rewrite Hc. by rewrite (preserves_run (λ x, auth_part (tx_web x)) _ _ _ _ (endpoint_page rq ep u Hpage) Hep). }
  right. exists u. split.
  { apply no_page in Hpage as [Hpost|[Hhead Hdel]]; [left|by right]. rewrite Hpost in Hcsrf. split_and!; try done. by destruct (rq_csrf rq). }
  apply endpoint_change in Hep. cbn [tx_web tx_handler h_db DatabaseHandler_init] in Hep. revert Hc Hep. clear.
  generalize (tx_web x1), (tx_web x2). intros t1 t2 Et Hchange. destruct Hchange; econstructor; try eassumption; congruence.
Qed.
(** Deleting a token changes no maintainer and no permission. *)
Lemma delete_keeps_permissions u d t k t' :
  change u d t (ep_api_token_delete k) t' → w_mntners t' = w_mntners t ∧ w_permissions t' = w_permissions t.
Proof using Type. inversion 1 as [? ? E| | |? ? ? E| | | |]; subst; by injection E. Qed.

(** ** Runs of the web interface *)

(** A request, or a change of the database, of accounts or of the log that others make. *)
Inductive web_step (e e' : web_state) : Prop :=
| step_request now rq s ep s' r : handle_request now rq s ep e = (e', s', r) → web_step e e'
| step_other :
    w_mntners (we_web e') = w_mntners (we_web e) → w_permissions (we_web e') = w_permissions (we_web e) →
    w_tokens (we_web e') = w_tokens (we_web e) → w_next (we_web e') = w_next (we_web e) → web_step e e'.

Lemma auth_part_wf t t' : auth_part t' = auth_part t → tables_wf uuid t → tables_wf uuid t'.
Proof using Type. intros E. injection E as Eu Em Ep Ek En. apply tables_wf_ext; [exact Em|exact Ep|by rewrite En]. Qed.
Lemma change_wf `{!Inj (=) (=) uuid} u d t ep t' : change u d t ep t' → tables_wf uuid t → tables_wf uuid t'.
Proof using Type.
  intros Hchange Hwf. destruct Hchange as [ep t' E|m f name ip t' Hm Hc Hp Hf E|k f name ip t' Hk Hf E|k t' Hk E
    |m x f t' Hm Hc Hp Hpw Hx Hmail Hnone E|p f t' Hp Hlast Hpw E|secret f m t' Hpw Htok Hpk Hnone Hobj E|m token f t' Hm Htok Hp Hpw E];
    apply (auth_part_wf _ _ E).
  - exact Hwf.
  - apply (tables_wf_ext uuid t); [done|done|repeat constructor|exact Hwf].
  - by apply (tables_wf_ext uuid t).
  - by apply (tables_wf_ext uuid t).
  - by eapply wf_insert_permission.
  - assert (p ∈ managed_permissions t u (wp_pk p)) as Hin by (rewrite Hp; by left).
    apply list_elem_of_In, filter_In in Hin as [Hin _]. apply wf_remove_permission; [exact Hwf|by apply list_elem_of_In|exact Hlast].
  - apply wf_initiate; try done. unfold migration_complete. by rewrite Htok.
  - by apply wf_complete.
Qed.
Lemma change_tokens_wf `{!Inj (=) (=) uuid} u d t ep t' : change u d t ep t' → tokens_wf uuid t → tokens_wf uuid t'.
Proof using Type.
  intros Hchange Hwf. assert (∀ t0, auth_part t' = auth_part t0 → tokens_wf uuid t0 → tokens_wf uuid t') as Hext.
  { intros t0 E. injection E as Eu Em Ep Ek En. apply tokens_wf_ext; [exact Ek|by rewrite En]. }
  destruct Hchange; (eapply Hext; [eassumption|]); clear Hext; try exact Hwf.
  - by apply tokens_wf_add.
  - by apply tokens_wf_edit.
  - by apply tokens_wf_delete.
  - apply (tokens_wf_ext uuid t); [done|repeat constructor|done].
  - by apply (tokens_wf_ext uuid t).
  - apply (tokens_wf_ext uuid t); [done|repeat constructor|done].
  - by apply (tokens_wf_ext uuid t).
Qed.
Definition web_wf (t : web_tables) : Prop := tables_wf uuid t ∧ tokens_wf uuid t.
Lemma request_wf `{!Inj (=) (=) uuid} now rq s ep e e' s' r :
  handle_request now rq s ep e = (e', s', r) → web_wf (we_web e) → web_wf (we_web e').
Proof using Type.
  intros Hrun [Hwf Htok]. apply request_change in Hrun as [E|(u & _ & Hchange)];
    [|split; [by eapply change_wf|by eapply change_tokens_wf]].
  split; [by eapply auth_part_wf|]. injection E as Eu Em Ep Ek En. by apply (tokens_wf_ext uuid (we_web e)); [|rewrite En|].
Qed.
(** C16. However requests of the web interface, made by whom and with whatever
    earlier state of their user, follow on each other and on changes of others:
    no two permissions are for the same user and maintainer, every permission is
    for a maintainer that exists, every maintainer keeps a permission, one whose
    migration is pending has only that of the user who started it, and the keys of
    permissions, maintainers and tokens stay unique. *)
Theorem maintainers_keep_permissions `{!Inj (=) (=) uuid} e e' : rtc web_step e e' → web_wf (we_web e) → web_wf (we_web e').
Proof using Type.
  induction 1 as [|e e1 e' Hstep _ IH]; [done|]. intros Hwf. apply IH. clear IH.
  destruct Hstep as [now rq s ep s' r Hrun|Hm Hp Hk Hn]; [by eapply request_wf|]. destruct Hwf.
  split; [apply (tables_wf_ext uuid (we_web e))|apply (tokens_wf_ext uuid (we_web e))]; (done || by rewrite Hn).
Qed.

(** ** Access to maintainers *)

(** The validators of updates find that the user has a permission on the maintainer. *)
Definition permits (t : web_tables) (x : web_user) (mntner_pk : string) : Prop :=
  ∃ a, a ∈ mntners (view_tables t) (view_user x) ∧ am_pk a = mntner_pk.
Lemma permits_spec t x k :
  permits t x k ↔ (∃ m, m ∈ w_mntners t ∧ wm_pk m = k ∧ migration_complete m = true) ∧ has_permission (w_permissions t) (wu_pk x) k (λ _, true).
Proof using Type.
  unfold permits, mntners, permitted_mntners. split.
  - intros (a & [Ha Hp]%list_elem_of_In%filter_In & <-). apply in_map_iff in Ha as (m & <- & Hm). cbn in Hp.
    apply andb_true_iff in Hp as [Hc (a & Ha & Hq)%existsb_exists]. apply in_map_iff in Ha as (y & <- & Hy).
    rewrite !andb_true_iff in Hq. destruct Hq as [[H1%same_eq H2%same_eq] _].
    split; [exists m|exists y]; split_and!; try done; by apply list_elem_of_In.
  - intros [(m & Hm & <- & Hc) (y & Hy & H1 & H2 & _)]. exists (view_mntner m). split; [|done].
    apply list_elem_of_In, filter_In. split; [apply in_map_iff; exists m; split; [done|by apply list_elem_of_In]|].
    apply andb_true_iff. split; [exact Hc|]. apply existsb_exists. exists (view_permission y).
    split; [apply in_map_iff; exists y; split; [done|by apply list_elem_of_In]|].
    cbn. rewrite H1, H2. by rewrite !String.eqb_refl.
Qed.
Lemma pending_permission t k m x y :
  tables_wf uuid t → m ∈ w_mntners t → wm_pk m = k → migration_complete m = false →
  has_permission (w_permissions t) x k (λ _, true) → has_permission (w_permissions t) y k wp_user_management → x = y.
Proof using Type.
  intros Hwf Hm <- Hc (p & Hp & <- & Hpk & _) (q & Hq & <- & Hqk & _). pose proof (wf_pending _ _ Hwf m Hm Hc) as Hone.
  unfold permission_count in Hone. destruct (List.filter _ _) as [|z [|z' l]] eqn:E; [done| |done].
  assert (∀ a, a ∈ w_permissions t → wp_mntner_id a = wm_pk m → a = z) as Hz.
  { intros a Ha Hak. assert (a ∈ [z]) as Hin; [|by apply list_elem_of_singleton in Hin].
    rewrite <- E. apply list_elem_of_In, filter_In. split; [by apply list_elem_of_In|by apply same_eq]. }
  by rewrite (Hz p Hp Hpk), (Hz q Hq Hqk).
Qed.
Lemma has_permission_app l p user k q :
  has_permission (l ++ [p]) user k q → has_permission l user k q ∨ wp_user_id p = user ∧ wp_mntner_id p = k.
Proof using Type.
  intros (y & [Hy| ->%list_elem_of_singleton]%elem_of_app & H1 & H2 & H3); [left|by right]. by exists y.
Qed.
(** C14. When a request gives a user a permission that update submissions accept,
    it is the submission, with its CSRF token, of a user who logged in with a second
    factor, and either that user's password and permission to manage users of the
    maintainer grant it to the user with the given address; or it completes the
    migration of the maintainer that the same user started, with the token mailed
    to its contacts and a password of its object. *)
Theorem web_access_granted `{!Inj (=) (=) uuid} now rq s ep e e' s' r x k :
  tables_wf uuid (we_web e) → handle_request now rq s ep e = (e', s', r) →
  ¬ permits (we_web e) x k → permits (we_web e') x k →
  ∃ u, acts rq s u ∧ has_permission (w_permissions (we_web e)) (wu_pk (lu_user u)) k wp_user_management ∧
    ((∃ f y, ep = ep_permission_add k f ∧ verify_password u (default "" (pf_current_password f)) = true
        ∧ y ∈ w_users (we_web e) ∧ wu_pk y = wu_pk x ∧ pf_new_user_email f = Some (wu_email y))
     ∨ (∃ m token f, ep = ep_mntner_migrate_complete k token f ∧ wu_pk x = wu_pk (lu_user u)
        ∧ m ∈ w_mntners (we_web e) ∧ wm_pk m = k ∧ wm_migration_token m = Some token
        ∧ knows_password (we_db e) (wm_rpsl_mntner_obj_id m) (cf_mntner_password f))).
Proof using Type.
  intros Hwf Hrun Hbefore Hafter. apply request_change in Hrun as [E|(u & Hacts & Hchange)].
  { injection E as Eu Em Ep _ _. exfalso. apply Hbefore. apply permits_spec. apply permits_spec in Hafter. by rewrite Em, Ep in Hafter. }
  rewrite permits_spec in Hbefore, Hafter. destruct Hacts as [Hacts|(_ & _ & _ & k0 & ->)].
  2: { apply delete_keeps_permissions in Hchange as [Em Ep]. exfalso. by rewrite Em, Ep in Hafter. }
  exists u. split; [done|]. destruct Hafter as [(m' & Hm' & Hk & Hc') Hperm].
  destruct Hchange as [ep t' E|m f name ip t' Hm Hc Hp Hf E|k' f name ip t' Hk' Hf E|k' t' Hk' E
    |m y f t' Hm Hc Hp Hpw Hy Hmail Hnone E|p f t' Hp Hlast Hpw E|secret f m t' Hpw Htok Hpk Hnone Hobj E|m token f t' Hm Htok Hp Hpw E];
    injection E as Eu Em Ep Ek En; rewrite Em in Hm'; rewrite Ep in Hperm; cbn in Hm', Hperm.
  1-4: exfalso; apply Hbefore; split; [by exists m'|done].
  - apply has_permission_app in Hperm as [Hperm|[Hy' Hk']]; [exfalso; apply Hbefore; split; [by exists m'|done]|].
    cbn in Hy', Hk'. subst. split; [by rewrite <- Hk'|]. left. exists f, y. by rewrite <- Hk'.
  - exfalso. apply Hbefore. split; [by exists m'|]. destruct Hperm as (z & [Hz _]%list_elem_of_In%filter_In & Hrest).
    exists z. split; [by apply list_elem_of_In|done].
  - exfalso. apply elem_of_app in Hm' as [Hm'| ->%list_elem_of_singleton]; [|unfold migration_complete in Hc'; by rewrite Htok in Hc'].
    apply has_permission_app in Hperm as [Hperm|[_ Hk']]; [apply Hbefore; split; [by exists m'|done]|]. cbn in Hk'.
    apply (fresh_uuid uuid (w_next (we_web e)) _ (wf_generated _ _ Hwf) (w_next (we_web e)) (le_n _)).
    rewrite <- Hpk, Hk', <- Hk. by apply list_elem_of_fmap_2.
  - apply list_elem_of_fmap in Hm' as (m'' & -> & Hm''). rewrite clear_token_pk in Hk.
    destruct (decide (wm_pk m'' = wm_pk m)) as [Epk|Epk].
    + assert (k = wm_pk m) as -> by congruence. split; [done|]. right. exists m, token, f. split_and!; try done.
      eapply (pending_permission (we_web e) (wm_pk m) m); try done. unfold migration_complete. by rewrite Htok.
    + exfalso. apply Hbefore. split; [|done]. exists m''. split_and!; try done.
      unfold clear_token in Hc'. by rewrite (proj2 (String.eqb_neq _ _) Epk : same _ _ = false) in Hc'.
Qed.

(** ** API tokens *)

(** C17. API tokens are created and changed by submissions of a form, with its CSRF
    token: created by users with a permission on a migrated maintainer, changed by
    users whose loaded permissions include one on the token's maintainer; a change
    keeps the token's secret, its maintainer and its creator.  A token is deleted
    only by a request to delete this token of a user whose loaded permissions
    include one on its maintainer: the submission of the form with its CSRF token,
    or a HEAD request, for which no CSRF token is asked ([WebExamples.head_deletes_token]). *)
Theorem web_token_changes now rq s ep e e' s' r k :
  tokens_wf uuid (we_web e) → handle_request now rq s ep e = (e', s', r) →
  (k ∈ w_tokens (we_web e') → k ∉ w_tokens (we_web e) →
    ∃ u, acts rq s u ∧
      ((∃ f m, ep = ep_api_token_add (wm_pk m) f ∧ m ∈ w_mntners (we_web e) ∧ migration_complete m = true
          ∧ has_permission (w_permissions (we_web e)) (wu_pk (lu_user u)) (wm_pk m) (λ _, true)
          ∧ wt_mntner_id k = wm_pk m ∧ wt_creator_id k = wu_pk (lu_user u))
       ∨ (∃ f k0, ep = ep_api_token_edit (wt_pk k) f ∧ k0 ∈ w_tokens (we_web e)
          ∧ (wt_pk k, wt_token k, wt_mntner_id k, wt_creator_id k) = (wt_pk k0, wt_token k0, wt_mntner_id k0, wt_creator_id k0)
          ∧ wt_mntner_id k ∈ wp_mntner_id <$> lu_permissions u)))
  ∧ (k ∈ w_tokens (we_web e) → wt_pk k ∉ wt_pk <$> w_tokens (we_web e') →
    ∃ u, (acts rq s u ∨ heads rq s u ep) ∧ ep = ep_api_token_delete (wt_pk k) ∧ wt_mntner_id k ∈ wp_mntner_id <$> lu_permissions u).
Proof using Type.
  intros [_ Huniq] Hrun. assert (∀ t t', auth_part t' = auth_part t → w_tokens t' = w_tokens t) as Hsame by (by intros t t' [= _ _ _ -> _]).
  apply request_change in Hrun as [E%Hsame|(u & Hacts & Hchange)].
  { rewrite E. split; [done|]. intros Hk Hno. exfalso. by apply Hno, list_elem_of_fmap_2. }
  assert (∀ k', tokens_of (we_web e) u (wt_pk k') = [k'] →
    k' ∈ w_tokens (we_web e) ∧ wt_mntner_id k' ∈ wp_mntner_id <$> lu_permissions u) as Hone.
  { intros k' E. assert (k' ∈ tokens_of (we_web e) u (wt_pk k')) as [Hin Hk]%list_elem_of_In%filter_In by (rewrite E; by left).
    apply andb_true_iff in Hk as [_ Hk%bool_decide_eq_true]. split; [by apply list_elem_of_In|done]. }
  assert (∀ k1 k2, k1 ∈ w_tokens (we_web e) → k2 ∈ w_tokens (we_web e) → wt_pk k1 = wt_pk k2 → k1 = k2) as Hpk.
  { intros k1 k2 H1 H2. by apply (fmap_key_unique wt_pk (w_tokens (we_web e))). }
  destruct Hchange as [ep t' E|m f name ip t' Hm Hc Hp Hf E|k' f name ip t' Hk' Hf E|k' t' Hk' E
    |m y f t' Hm Hc Hp Hpw Hy Hmail Hnone E|p f t' Hp Hlast Hpw E|secret f m t' Hpw Htok Hnew Hnone Hobj E|m token f t' Hm Htok Hp Hpw E];
    apply Hsame in E; cbn in E; rewrite E.
  2-3: destruct Hacts as [Hacts|(_ & _ & _ & ? & ?)]; [|done].
  1,5-8: split; [done|intros Hk Hno; exfalso; by apply Hno, list_elem_of_fmap_2].
  - split; [|intros Hk Hno; exfalso; apply Hno; rewrite fmap_app; apply elem_of_app; left; by apply list_elem_of_fmap_2].
    intros [Hk| ->%list_elem_of_singleton]%elem_of_app Hno; [done|]. exists u. split; [done|]. left. by exists f, m.
  - destruct (Hone k' Hk') as [Hin Hperm]. split.
    + intros (k0 & -> & Hk0)%list_elem_of_fmap Hno. exists u. split; [done|]. right.
      destruct (decide (wt_pk k0 = wt_pk k')) as [Epk|Epk];
        [|exfalso; apply Hno; unfold edit_token; by rewrite (proj2 (String.eqb_neq _ _) Epk : same _ _ = false)].
      assert (k0 = k') as -> by (by apply Hpk). exists f, k'. rewrite edit_token_pk. unfold edit_token, same.
      rewrite String.eqb_refl. done.
    + intros Hk Hno. exfalso. apply Hno. apply list_elem_of_fmap. exists (edit_token (wt_pk k') name ip f k).
      split; [by rewrite edit_token_pk|]. by apply list_elem_of_fmap_2.
  - destruct (Hone k' Hk') as [Hin Hperm]. split; [by intros [Hk _]%list_elem_of_In%filter_In Hno; apply list_elem_of_In in Hk|].
    intros Hk Hno. exists u. split; [done|]. destruct (decide (wt_pk k = wt_pk k')) as [Epk|Epk].
    + assert (k = k') as -> by (by apply Hpk). done.
    + exfalso. apply Hno, list_elem_of_fmap_2, list_elem_of_In, filter_In. split; [by apply list_elem_of_In|].
      by rewrite (proj2 (String.eqb_neq _ _) Epk : same _ _ = false).
Qed.
End WebTheory.
