(* ===== verification/WebExamples.v ===== *)
(** * A maintainer in the web interface

    A migration from its start, and what the users of the maintainer then do. *)
From S2P Require Import Prelude PyStr Conf Net Models Text Rpki ScopeFilter Fields RpslObjects RpslParser Queries RoutePref RoutePrefTheory Database DatabaseHandler JournalTheory Nrtm UpdateValidators UpdateExamples Web WebMntners WebMntnersTheory.

Module WebExamples.
Import ConcreteIP ConcreteRadix ConcreteRedis.
Notation ex_uuid := JournalExamples.ex_uuid.
#[local] Existing Instance JournalExamples.ex_uuid_inj.
Definition web_cfg : configuration :=
  conf_of (VDict [("sources", VDict [("TEST", VDict [("authoritative", VBool true); ("keep_journal", VBool true)])]);
    ("email", VDict [("from", VStr "irrd@example.com"); ("footer", VStr "footer"); ("notification_header", VStr "Changes in {sources_str}")]);
    ("auth", VDict [("irrd_internal_migration_enabled", VBool true);
                    ("password_hashers", VDict [("bcrypt-pw", VStr "enabled"); ("md5-pw", VStr "legacy"); ("crypt-pw", VStr "legacy")])])]).
Definition account (pk email : string) : web_user := {|
  wu_pk := pk; wu_email := email; wu_name := "User " +:+ pk; wu_password := "pw-" +:+ pk; wu_totp_secret := None;
  wu_totp_last_used := None; wu_override := false; wu_updated := "" |}.
Definition alice : web_user := account "1" "alice@example.com".
Definition bob : web_user := account "2" "bob@example.com".
Definition tables_0 : web_tables := {|
  w_users := [alice; bob]; w_authns := []; w_mntners := []; w_permissions := []; w_tokens := []; w_log := [];
  w_secret_key := None; w_next := 0 |}.
Definition state_0 : web_state := {| we_web := tables_0; we_db := UpdateExamples.ex_db; we_mails := [] |}.
Definition logged_in : session := {|
  ss_user := None; ss_hash := None; ss_mfa_complete := true; ss_challenge := None; ss_totp_secret := None; ss_messages := [] |}.
Definition post_of (x : web_user) (e : web_state) : request := {|
  rq_method := POST; rq_host := Some "192.0.2.1"; rq_csrf := true; rq_permitted := true; rq_user := Some (load_user (we_web e) x) |}.
Notation submit x ep e :=
  (handle_request web_cfg UpdateExamples.ex_collate ex_uuid str_of_Z UpdateExamples.no_keys UpdateExamples.no_uids
    UpdateExamples.plain_verify (λ _, Ok tt) "" (λ plain hashed, Some (String.eqb plain hashed)) (λ _ _, ("Migration", "Token")) id
    0%Z (post_of x e) logged_in ep e).
Definition state_of (r : web_state * session * res response) : web_state := r.1.1.
Definition answer (r : web_state * session * res response) : res response := r.2.

Definition initiate : endpoint := ep_mntner_migrate_initiate "token" {|
  mf_mntner_key := Some "m-mnt"; mf_mntner_source := Some "TEST"; mf_mntner_password := Some "secret"; mf_confirm := true |}.
Definition complete (token : string) : endpoint :=
  ep_mntner_migrate_complete "" token {| cf_mntner_password := Some "secret"; cf_confirm := true |}.
Example ex_initiate : answer (submit alice initiate state_0) = Ok (redirect "ui:user_permissions").
Proof. vm_compute. reflexivity. Qed.
Definition state_1 : web_state := Eval vm_compute in state_of (submit alice initiate state_0).
Definition state_2 : web_state := Eval vm_compute in state_of (submit alice (complete "token") state_1).
Definition grant_bob : endpoint := ep_permission_add "" {|
  pf_new_user_email := Some "bob@example.com"; pf_confirm := true; pf_user_management := false; pf_current_password := Some "pw-1" |}.
Definition state_3 : web_state := Eval vm_compute in state_of (submit alice grant_bob state_2).
Definition new_token : endpoint := ep_api_token_add "" {|
  tf_name := Some "script"; tf_ip_restriction := Some "192.0.2.0/24"; tf_enabled_webapi := true; tf_enabled_email := false |}.
Definition state_4 : web_state := Eval vm_compute in state_of (submit bob new_token state_3).
(** The manager of the maintainer removes the own permission. *)
Definition leave (permission : string) : endpoint := ep_permission_delete permission {|
  df_confirm := true; df_confirm_self_delete := true; df_current_password := Some "pw-1" |}.
Definition state_5 : web_state := Eval vm_compute in state_of (submit alice (leave "u") state_3).

Example ex_answers :
  answer (submit alice (complete "guess") state_1) = Ok not_found
  ∧ answer (submit alice (complete "token") state_1) = Ok (redirect "ui:user_permissions")
  ∧ answer (submit bob (complete "token") state_1) = Ok not_found
  ∧ answer (submit bob grant_bob state_2) = Ok not_found
  ∧ answer (submit alice grant_bob state_3) = Ok (page "permission_form.html" [("new_user_email", "This user already has permissions on this mntner.")])
  ∧ answer (submit alice (leave "u") state_2) = Ok (page "permission_delete.html" [("", "refused_last_permission")]).
Proof. vm_compute. done. Qed.
Example ex_mails : (λ m : string * string * string, m.1) <$> we_mails state_3 = [("a@example.com", "Migration")].
Proof. vm_compute. reflexivity. Qed.
(** ** The theorems at this maintainer *)

Lemma triple_eta {A B C} (x : A * B * C) : x = (x.1.1, x.1.2, x.2).
Proof. by destruct x as [[a b] c]. Qed.
Notation wf := (web_wf ex_uuid).
Lemma state_1_eq : state_of (submit alice initiate state_0) = state_1.
Proof. vm_compute. reflexivity. Qed.
Lemma state_2_eq : state_of (submit alice (complete "token") state_1) = state_2.
Proof. vm_compute. reflexivity. Qed.
Lemma state_3_eq : state_of (submit alice grant_bob state_2) = state_3.
Proof. vm_compute. reflexivity. Qed.
Lemma state_4_eq : state_of (submit bob new_token state_3) = state_4.
Proof. vm_compute. reflexivity. Qed.
Lemma submitted {x ep e e'} : state_of (submit x ep e) = e' → submit x ep e = (e', (submit x ep e).1.2, (submit x ep e).2).
Proof. intros <-. apply triple_eta. Qed.
Lemma state_0_wf : wf (we_web state_0).
Proof. repeat split; try constructor; cbn; by intros m ?%elem_of_nil. Qed.
Lemma submit_wf {x ep e e'} : state_of (submit x ep e) = e' → wf (we_web e) → wf (we_web e').
Proof. intros E. eapply request_wf; [exact JournalExamples.ex_uuid_inj|exact (submitted E)]. Qed.
Lemma state_2_wf : wf (we_web state_2).
Proof. exact (submit_wf state_2_eq (submit_wf state_1_eq state_0_wf)). Qed.
Lemma state_3_wf : wf (we_web state_3).
Proof. exact (submit_wf state_3_eq state_2_wf). Qed.

Lemma maintainers_keep_permissions_witness :
  wf (we_web state_0) ∧ length (w_permissions (we_web state_3)) = 2 ∧ wf (we_web state_3).
Proof.
  split; [exact state_0_wf|]. split; [reflexivity|].
  eapply (maintainers_keep_permissions web_cfg UpdateExamples.ex_collate ex_uuid str_of_Z UpdateExamples.no_keys UpdateExamples.no_uids
    UpdateExamples.plain_verify (λ _, Ok tt) "" (λ plain hashed, Some (String.eqb plain hashed)) (λ _ _, ("Migration", "Token")) id state_0 state_3); [|exact state_0_wf].
  eapply rtc_l; [exact (step_request _ _ _ _ _ _ _ _ _ _ _ _ _ _ _ _ _ _ _ _ (submitted state_1_eq))|].
  eapply rtc_l; [exact (step_request _ _ _ _ _ _ _ _ _ _ _ _ _ _ _ _ _ _ _ _ (submitted state_2_eq))|].
  eapply rtc_l; [exact (step_request _ _ _ _ _ _ _ _ _ _ _ _ _ _ _ _ _ _ _ _ (submitted state_3_eq))|]. apply rtc_refl.
Defined.
Lemma bob_denied : ¬ permits (we_web state_2) bob "".
Proof. intros [_ (p & Hp & Hu & _)]%permits_spec. apply list_elem_of_singleton in Hp. by rewrite Hp in Hu. Qed.
Lemma bob_permitted : permits (we_web state_3) bob "".
Proof.
  apply permits_spec. split.
  - eexists. split; [by left|]. by split.
  - eexists. split; [right; by left|]. by split_and!.
Qed.
Lemma web_access_granted_witness :
  permits (we_web state_3) bob "" ∧
  ∃ u, acts (post_of alice state_2) logged_in u
    ∧ has_permission (w_permissions (we_web state_2)) (wu_pk (lu_user u)) "" wp_user_management.
Proof.
  split; [exact bob_permitted|].
  destruct (web_access_granted web_cfg UpdateExamples.ex_collate ex_uuid str_of_Z UpdateExamples.no_keys UpdateExamples.no_uids
    UpdateExamples.plain_verify (λ _, Ok tt) "" (λ plain hashed, Some (String.eqb plain hashed)) (λ _ _, ("Migration", "Token")) id
    0%Z (post_of alice state_2) logged_in grant_bob state_2 state_3 _ _ bob ""
    (proj1 state_2_wf) (submitted state_3_eq) bob_denied bob_permitted) as (u & Hu & Hp & _).
  exists u. by split.
Defined.
Definition bobs_token : web_token := {|
  wt_pk := "uuu"; wt_token := "uuuu"; wt_name := "script"; wt_creator_id := "2"; wt_mntner_id := "";
  wt_ip_restriction := Some "192.0.2.0/24"; wt_enabled_webapi := true; wt_enabled_email := false |}.
Lemma bobs_token_new : bobs_token ∈ w_tokens (we_web state_4) ∧ bobs_token ∉ w_tokens (we_web state_3).
Proof. split; [by left|by intros ?%elem_of_nil]. Qed.
Lemma web_token_changes_witness :
  bobs_token ∈ w_tokens (we_web state_4) ∧ ∃ u, acts (post_of bob state_3) logged_in u.
Proof.
  split; [exact (proj1 bobs_token_new)|].
  destruct (web_token_changes web_cfg UpdateExamples.ex_collate ex_uuid str_of_Z UpdateExamples.no_keys UpdateExamples.no_uids
    UpdateExamples.plain_verify (λ _, Ok tt) "" (λ plain hashed, Some (String.eqb plain hashed)) (λ _ _, ("Migration", "Token")) id
    0%Z (post_of bob state_3) logged_in new_token state_3 state_4 _ _ bobs_token
    (proj2 state_3_wf) (submitted state_4_eq)) as [Hnew _].
  destruct (Hnew (proj1 bobs_token_new) (proj2 bobs_token_new)) as (u & Hu & _). by exists u.
Defined.
(** The last user who can manage the users of a maintainer may leave it, as long
    as another permission stays: nobody can manage its users then. *)
Example last_manager_leaves :
  answer (submit alice (leave "u") state_3) = Ok (redirect "ui:user_permissions")
  ∧ wp_user_management <$> w_permissions (we_web state_5) = [false].
Proof. split; vm_compute; reflexivity. Qed.
(** A HEAD request for the page that deletes a token deletes it, whatever its CSRF token. *)
Definition head_of (x : web_user) (e : web_state) : request := {|
  rq_method := HEAD; rq_host := Some "192.0.2.1"; rq_csrf := false; rq_permitted := true; rq_user := Some (load_user (we_web e) x) |}.
Example head_deletes_token :
  let r := handle_request web_cfg UpdateExamples.ex_collate ex_uuid str_of_Z UpdateExamples.no_keys UpdateExamples.no_uids
    UpdateExamples.plain_verify (λ _, Ok tt) "" (λ plain hashed, Some (String.eqb plain hashed)) (λ _ _, ("Migration", "Token")) id
    0%Z (head_of bob state_4) logged_in (ep_api_token_delete "uuu") state_4 in
  wt_pk <$> w_tokens (we_web state_4) = ["uuu"] ∧ wt_pk <$> w_tokens (we_web (state_of r)) = []
  ∧ answer r = Ok (redirect "ui:user_permissions").
Proof. vm_compute. done. Qed.
End WebExamples.
