(* ===== verification/WebAccounts.v ===== *)
(** * User accounts of the web interface ([irrd/webui/auth])

    Logging in with a second factor, creating accounts, and changing passwords,
    profiles and second factors.  imia's login manager, passlib, zxcvbn, pyotp,
    WebAuthn, the hash functions of the standard library, and the templates of
    mails are parameters; the data of a form is what WTForms gives. *)
From S2P Require Import Prelude PyStr Conf Net Models Text Rpki ScopeFilter Fields RpslObjects RpslParser Queries RoutePref Database DatabaseHandler Nrtm Retrieval UpdateValidators Web.

Section WebAccounts.
Context `{IPyLib} `{Radix node_data} `{redis : Redis} (cfg : configuration).
Context (collate_lt : string → string → bool) (uuid : nat → string).
Context (smtp : string * string * string → res unit) (mail_footer : string).
Context (password_verify : string → string → option bool) (password_hash : string → string).
(** SHA-512, SHA-224 and the keyed hash of sessions, and URL-safe base 64 with [None] for its [ValueError]. *)
Context (sha512 sha224 : string → string) (session_hmac : string → string → string).
Context (b64encode : string → string) (b64decode : string → option string).
(** The id that imia's authenticator reads from a session, and its login and logout:
    with the users it may find and the check of their passwords, the session
    and the user that logged in. *)
Context (session_user_id : session → option string).
Context (imia_login : (string → res (option loaded_user)) → (string → string → bool) → string → session → string → string
                        → res (session * option loaded_user)).
Context (imia_logout : session → session).
(** zxcvbn's score, and its warning and suggestions. *)
Context (zxcvbn : string → Z * list string).
(** [totp.verify(token, valid_window=1)] at a time, for a secret. *)
Context (totp_verify : string → string → Z → bool).
(** WebAuthn: the id of a credential, and the new count of a verified authentication;
    what a verified registration gives. *)
Context (webauthn_credential_id : string → option string).
Context (webauthn_verify : string → string → string → Z → option Z).
Context (webauthn_registration : string → string → option (string * string * Z)).
(** Email addresses that WTForms accepts, and rendered templates. *)
Context (email_valid : string → bool) (template : string → list (string * string) → string * string).
Notation W := (st transaction).
Notation send_email := (send_email cfg smtp mail_footer).

(** ** Secrets and passwords ([helpers.py], [users.py]) *)

(** [secret_key_derive(scope)]: without a key in the database it raises. *)
Definition secret_key_derive (t : web_tables) (scope : string) : res string :=
  match w_secret_key t with
  | Some value => Ok (sha512 (scope +:+ value))
  | None => Raise (ValueError "secret_key_derive called in non thread safe, but no key found in database")
  end.
(** [secret_key_derive(scope, thread_safe=False)] as the server starts, with the random key it may need. *)
Definition secret_key_create (random : string) (t : web_tables) (scope : string) : web_tables * string :=
  match w_secret_key t with
  | Some value => (t, sha512 (scope +:+ value))
  | None => (set_secret_key (Some random) t, sha512 (scope +:+ random))
  end.
Definition session_hash (secret password : string) : string := session_hmac ("imia.session.hash" +:+ secret) password.
Definition set_ss_hash (h : string) (s : session) : session := {|
  ss_user := ss_user s; ss_hash := Some h; ss_mfa_complete := ss_mfa_complete s; ss_challenge := ss_challenge s;
  ss_totp_secret := ss_totp_secret s; ss_messages := ss_messages s |}.
Definition set_ss_mfa (s : session) : session := {|
  ss_user := ss_user s; ss_hash := ss_hash s; ss_mfa_complete := true; ss_challenge := ss_challenge s;
  ss_totp_secret := ss_totp_secret s; ss_messages := ss_messages s |}.
Definition set_ss_challenge (c : option string) (s : session) : session := {|
  ss_user := ss_user s; ss_hash := ss_hash s; ss_mfa_complete := ss_mfa_complete s; ss_challenge := c;
  ss_totp_secret := ss_totp_secret s; ss_messages := ss_messages s |}.
Definition set_ss_totp_secret (secret : string) (s : session) : session := {|
  ss_user := ss_user s; ss_hash := ss_hash s; ss_mfa_complete := ss_mfa_complete s; ss_challenge := ss_challenge s;
  ss_totp_secret := Some secret; ss_messages := ss_messages s |}.
(** [update_session_hash]. *)
Definition update_session_hash (password : string) : W unit :=
  t ← web; secret ← st_lift (secret_key_derive t "web.login_manager");
  st_modify (set_session (set_ss_hash (session_hash secret password))).
(** [HashValidatingSessionAuthenticator.authenticate]. *)
Definition authenticate (t : web_tables) (s : session) : res (option loaded_user) :=
  match session_user_id s with
  | None => Ok None
  | Some id =>
      u ← find_by_id t id;
      match u, ss_hash s with
      | Some u, Some h =>
          if same h "" then Ok None
          else
            secret ← secret_key_derive t "web.login_manager";
            Ok (if same h (session_hash secret (wu_password (lu_user u))) then Some u else None)
      | _, _ => Ok None
      end
  end.

Definition WEBAUTH_MIN_ZXCVBN_SCORE : Z := 2.
Definition WEBAUTH_MAX_PASSWORD_LEN : nat := 1000.
(** [validate_password_strength]: the advice for a password that is refused. *)
Definition validate_password_strength (plain : string) : option string :=
  if (WEBAUTH_MAX_PASSWORD_LEN <? String.length plain)%nat then Some "This password is too long."
  else
    let '(score, feedback) := zxcvbn (str_take 100 plain) in
    if (score <? WEBAUTH_MIN_ZXCVBN_SCORE)%Z then Some (join " " feedback) else None.

(** *** Tokens to reset a password; dates are day numbers *)

(** [date(2022, 1, 1).toordinal()]. *)
Definition PASSWORD_RESET_TOKEN_ROOT : Z := 738156.
Definition PASSWORD_RESET_VALIDITY_DAYS : Z := 2.
Definition MAX_ORDINAL : Z := 3652059.
Definition user_key (u : web_user) : string := wu_pk u +:+ wu_updated u +:+ wu_password u.
Definition reset_hash (t : web_tables) (u : web_user) (expiry_days : string) : res string :=
  secret ← secret_key_derive t "web.password_reset_token2";
  Ok (sha224 (secret +:+ user_key u +:+ expiry_days)).
Definition generate_token (t : web_tables) (u : web_user) (today : Z) : res string :=
  let expiry_days := str_of_Z (today + PASSWORD_RESET_VALIDITY_DAYS - PASSWORD_RESET_TOKEN_ROOT) in
  h ← reset_hash t u expiry_days;
  Ok (expiry_days +:+ "-" +:+ b64encode h).
(** A date out of range is an [OverflowError], which is no [ValueError]. *)
Definition validate_token (t : web_tables) (u : web_user) (today : Z) (token : string) : res bool :=
  match split_once "-"%char token with
  | None => Ok false
  | Some (expiry_days, input_hash_encoded) =>
      match py_int expiry_days with
      | None => Ok false
      | Some days =>
          let expiry_date := (PASSWORD_RESET_TOKEN_ROOT + days)%Z in
          if negb ((1 <=? expiry_date)%Z && (expiry_date <=? MAX_ORDINAL)%Z) then Raise (GenericException "OverflowError")
          else
            match reset_hash t u expiry_days with
            | Raise e => if is_ValueError e then Ok false else Raise e
            | Ok expected_hash =>
                match b64decode input_hash_encoded with
                | None => Ok false
                | Some input_hash => Ok ((today <=? expiry_date)%Z && same input_hash expected_hash)
                end
            end
      end
  end.

(** ** Logging in *)

(** [clean_next_url]: the path of the [next] parameter, after [unquote_plus]. *)
Definition clean_next_url (next default : string) : string :=
  let path := url_path (urlsplit next) in
  if same path "" then default else path.
Definition has_totp (u : web_user) : bool := match wu_totp_secret u with Some s => negb (same s "") | None => false end.
Definition has_webauthn (u : loaded_user) : bool := negb (bool_decide (length (lu_webauthns u) = 0)).
Definition has_mfa (u : loaded_user) : bool := has_webauthn u || has_totp (lu_user u).
(** [login], for the data of a submitted form.  For HEAD it returns nothing, which
    is no response. *)
Definition login (rq : request) (next email password : string) : W response :=
  match rq_method rq with
  | GET => mret (page "login.html" [])
  | HEAD => st_raise (GenericException "TypeError")
  | POST =>
    t ← web;
    secret ← st_lift (secret_key_derive t "web.login_manager");
    '(s, u) ← st_lift (imia_login (find_by_id t) (PasswordHandler_verify password_verify) secret session_empty email password);
    _ ← st_modify (set_session (λ _, s));
    match u with
    | Some u =>
        if has_mfa u then mret (redirect (clean_next_url next "ui:auth:mfa_authenticate"))
        else _ ← st_modify (set_session set_ss_mfa); mret (redirect (clean_next_url next "ui:index"))
    | None => mret (page "login.html" [("", "Invalid account or password.")])
    end
  end.
Definition logout (u : loaded_user) : W response :=
  _ ← st_modify (set_session imia_logout); mret (redirect "ui:index").

(** Changing the row of a user. *)
Definition update_user (pk : string) (f : web_user → web_user) : W unit :=
  modify_web (λ t, set_users ((λ u, if same (wu_pk u) pk then f u else u) <$> w_users t) t).
Definition with_password (p : string) (u : web_user) : web_user := {|
  wu_pk := wu_pk u; wu_email := wu_email u; wu_name := wu_name u; wu_password := p; wu_totp_secret := wu_totp_secret u;
  wu_totp_last_used := wu_totp_last_used u; wu_override := wu_override u; wu_updated := wu_updated u |}.
Definition with_profile (email name : string) (u : web_user) : web_user := {|
  wu_pk := wu_pk u; wu_email := email; wu_name := name; wu_password := wu_password u; wu_totp_secret := wu_totp_secret u;
  wu_totp_last_used := wu_totp_last_used u; wu_override := wu_override u; wu_updated := wu_updated u |}.
Definition with_totp_secret (secret : option string) (u : web_user) : web_user := {|
  wu_pk := wu_pk u; wu_email := wu_email u; wu_name := wu_name u; wu_password := wu_password u; wu_totp_secret := secret;
  wu_totp_last_used := wu_totp_last_used u; wu_override := wu_override u; wu_updated := wu_updated u |}.
Definition with_totp_last_used (token : string) (u : web_user) : web_user := {|
  wu_pk := wu_pk u; wu_email := wu_email u; wu_name := wu_name u; wu_password := wu_password u; wu_totp_secret := wu_totp_secret u;
  wu_totp_last_used := Some token; wu_override := wu_override u; wu_updated := wu_updated u |}.

(** [TOTPAuthenticateForm.validate]: the errors, or the token.  [testing] is the
    environment variable TESTING, which is looked up when a token is reused. *)
Definition input_required (field : string) (data : string) : list (string * string) :=
  if same data "" then [(field, required_message)] else [].
Definition TOTPAuthenticateForm_validate (testing : option string) (now : Z) (secret : string) (last_used : option string)
    (token : string) : res (list (string * string) + string) :=
  match input_required "token" token with
  | [] =>
      let token := replace_all " " "" token in
      if negb (totp_verify secret token now) then Ok (inl [("token", "Incorrect token.")])
      else if bool_decide (Some token = last_used) then
        match testing with
        | None => Raise (KeyError "TESTING")
        | Some v => if same v "" then Ok (inl [("token", "Token already used. Wait for the next token.")]) else Ok (inr token)
        end
      else Ok (inr token)
  | errors => Ok (inl errors)
  end.
(** [mfa_authenticate]; [challenge] is the one that WebAuthn generates. *)
Definition mfa_authenticate (testing : option string) (rq : request) (now : Z) (challenge next token : string) (u : loaded_user)
  : W response :=
  let next_url := clean_next_url next "ui:index" in
  _ ← (if has_webauthn u then st_modify (set_session (set_ss_challenge (Some challenge))) else mret tt);
  if has_totp (lu_user u) && rq_post rq then
    v ← st_lift (TOTPAuthenticateForm_validate testing now (default "" (wu_totp_secret (lu_user u))) (wu_totp_last_used (lu_user u)) token);
    match v with
    | inl errors => mret (page "mfa_authenticate.html" errors)
    | inr token =>
        _ ← st_modify (set_session (λ s, set_ss_mfa (set_ss_challenge None s)));
        _ ← update_user (wu_pk (lu_user u)) (with_totp_last_used token);
        mret (redirect next_url)
    end
  else mret (page "mfa_authenticate.html" []).

(** ** Accounts *)

(** [send_template_email], and [send_authentication_change_mail]. *)
Definition send_template_email (recipient key : string) (kwargs : list (string * string)) : W unit :=
  send_email recipient (template key kwargs).1 (template key kwargs).2.
Definition send_authentication_change_mail (u : web_user) (msg : string) (recipient_override : option string) : W unit :=
  send_template_email (match recipient_override with Some r => if same r "" then wu_email u else r | None => wu_email u end)
    "authentication_change" [("name", wu_name u); ("email", wu_email u); ("msg", msg)].

Definition email_errors (email : option string) : list (string * string) :=
  match data_required "email" email with
  | [] => if email_valid (default "" email) then [] else [("email", "Invalid email address.")]
  | errors => errors
  end.
(** [create_account]; [password] is the random one that the account starts with,
    [updated] the time that the database gives it.  The [commit] of the session only
    flushes, inside the transaction of its database handler. *)
Definition create_account (rq : request) (today : Z) (password updated : string) (email name : option string) : W response :=
  if negb (rq_post rq) then mret (page "create_account_form.html" [])
  else
    match email_errors email ++ data_required "name" name with
    | [] =>
        t ← web;
        if existsb (λ u, same (wu_email u) (default "" email)) (w_users t)
        then mret (page "create_account_form.html" [("email", "An account with this email address already exists.")])
        else
          pk ← new_pk uuid;
          let u := {| wu_pk := pk; wu_email := default "" email; wu_name := default "" name; wu_password := password;
                      wu_totp_secret := None; wu_totp_last_used := None; wu_override := false; wu_updated := updated |} in
          _ ← modify_web (λ t, set_users (w_users t ++ [u]) t);
          token ← st_lift (generate_token t u today);
          _ ← send_template_email (default "" email) "create_account" [("user_pk", pk); ("token", token)];
          _ ← message ("You have been sent an email to confirm your account on " +:+ default "" email +:+ ".");
          mret (redirect "ui:index")
    | errors => mret (page "create_account_form.html" errors)
    end.
Definition reset_password_request (rq : request) (today : Z) (email : option string) : W response :=
  if negb (rq_post rq) then mret (page "reset_password_request_form.html" [])
  else
    match email_errors email with
    | [] =>
        t ← web;
        u ← find_one (List.filter (λ u, same (wu_email u) (default "" email)) (w_users t));
        _ ← (match u with
             | Some u =>
                 token ← st_lift (generate_token t u today);
                 send_template_email (default "" email) "reset_password_request" [("user_pk", wu_pk u); ("token", token)]
             | None => mret tt
             end);
        _ ← message ("You have been sent an email to reset your password on " +:+ default "" email +:+ ", if this account exists.");
        mret (redirect "ui:index")
    | errors => mret (page "reset_password_request_form.html" errors)
    end.
(** The two fields for a new password. *)
Definition new_password_errors (new_password confirmation : option string) : list (string * string) :=
  match validate_password_strength (default "" new_password) with
  | Some tips => [("new_password", "Passwords is not strong enough. " +:+ tips)]
  | None => if bool_decide (new_password = confirmation) then [] else [("new_password_confirmation", "Passwords do not match.")]
  end.
Definition ChangePasswordForm_validate (u : loaded_user) (new_password confirmation current_password : option string)
  : list (string * string) :=
  match current_password_errors password_verify
          (data_required "new_password" new_password ++ data_required "new_password_confirmation" confirmation) current_password u with
  | [] => new_password_errors new_password confirmation
  | errors => errors
  end.
Definition change_password (rq : request) (new_password confirmation current_password : option string) (u : loaded_user)
  : W response :=
  if negb (rq_post rq) then mret (page "password_change_form.html" [])
  else
    match ChangePasswordForm_validate u new_password confirmation current_password with
    | [] =>
        let p := password_hash (default "" new_password) in
        _ ← update_user (wu_pk (lu_user u)) (with_password p);
        _ ← update_session_hash p;
        _ ← message "Your password has been changed.";
        _ ← send_authentication_change_mail (with_password p (lu_user u)) "Your password was changed." None;
        mret (redirect "ui:index")
    | errors => mret (page "password_change_form.html" errors)
    end.
(** [change_profile]; the address of an account is unique. *)
Definition change_profile (rq : request) (email name current_password : option string) (u : loaded_user) : W response :=
  if negb (rq_post rq) then mret (page "profile_change_form.html" [])
  else
    match current_password_errors password_verify (email_errors email ++ data_required "name" name) current_password u with
    | [] =>
        t ← web;
        if existsb (λ x, same (wu_email x) (default "" email) && negb (same (wu_pk x) (wu_pk (lu_user u)))) (w_users t)
        then st_raise (GenericException "IntegrityError")
        else
          let u' := with_profile (default "" email) (default "" name) (lu_user u) in
          _ ← update_user (wu_pk (lu_user u)) (with_profile (default "" email) (default "" name));
          _ ← message "Your name/e-mail address have been changed.";
          _ ← send_authentication_change_mail u' ("Your name and/or email address were updated. The current email address on your account is "
                +:+ wu_email u' +:+ ".") (Some (wu_email (lu_user u)));
          mret (redirect "ui:index")
    | errors => mret (page "profile_change_form.html" errors)
    end.
(** [set_password], with the key of the account and the token of the link. *)
Definition set_password (rq : request) (today : Z) (pk token : string) (initial : Z) (new_password confirmation : option string)
  : W response :=
  t ← web;
  u ← find_one (List.filter (λ u, same (wu_pk u) pk) (w_users t));
  match u with
  | None => mret not_found
  | Some u =>
      valid ← st_lift (validate_token t u today token);
      if negb valid then mret not_found
      else if negb (rq_post rq) then mret (page "create_account_confirm_form.html" [])
      else
        match data_required "new_password" new_password ++ data_required "new_password_confirmation" confirmation with
        | [] =>
            match new_password_errors new_password confirmation with
            | [] =>
                let p := password_hash (default "" new_password) in
                _ ← update_user pk (with_password p);
                _ ← message "Your password has been changed.";
                _ ← (if (initial =? 0)%Z then send_authentication_change_mail (with_password p u) "Your password was reset." None else mret tt);
                mret (redirect "ui:auth:login")
            | errors => mret (page "create_account_confirm_form.html" errors)
            end
        | errors => mret (page "create_account_confirm_form.html" errors)
        end
  end.

(** ** Second factors ([endpoints_mfa.py]) *)

Definition update_authn (pk : string) (count : Z) (a : web_authn) : web_authn :=
  if same (wa_pk a) pk then {|
    wa_pk := wa_pk a; wa_user_id := wa_user_id a; wa_name := wa_name a; wa_credential_id := wa_credential_id a;
    wa_credential_public_key := wa_credential_public_key a; wa_credential_sign_count := count |}
  else a.
Definition webauthn_verify_authentication_response (credential : string) (u : loaded_user) : W response :=
  x ← st_get;
  match ss_challenge (tx_session x), webauthn_credential_id credential with
  | Some challenge, Some credential_id =>
      match query_one (List.filter (λ a, same (wa_user_id a) (wu_pk (lu_user u)) && same (wa_credential_id a) credential_id)
                        (w_authns (tx_web x))) with
      | Ok (Some a) =>
          match webauthn_verify credential challenge (wa_credential_public_key a) (wa_credential_sign_count a) with
          | Some count =>
              _ ← modify_web (λ t, set_authns (update_authn (wa_pk a) count <$> w_authns t) t);
              _ ← st_modify (set_session (λ s, set_ss_mfa (set_ss_challenge None s)));
              mret (json true)
          | None => mret (json false)
          end
      | _ => mret (json false)
      end
  | _, _ => mret (json false)
  end.
Definition webauthn_register (challenge : string) (u : loaded_user) : W response :=
  _ ← st_modify (set_session (set_ss_challenge (Some challenge))); mret (page "webauthn_register.html" []).
(** The name and the registration response in the body. *)
Definition webauthn_verify_registration_response (name : option string) (registration : string) (u : loaded_user) : W response :=
  x ← st_get;
  match ss_challenge (tx_session x) with
  | Some challenge =>
      match webauthn_registration registration challenge with
      | Some (credential_id, public_key, count) =>
          match name with
          | None => st_raise (KeyError "name")
          | Some name =>
              pk ← new_pk uuid;
              _ ← modify_web (λ t, set_authns (w_authns t ++ [{|
                    wa_pk := pk; wa_user_id := wu_pk (lu_user u); wa_name := name; wa_credential_id := credential_id;
                    wa_credential_public_key := public_key; wa_credential_sign_count := count |}]) t);
              _ ← st_modify (set_session (set_ss_challenge None));
              _ ← message "Your security token has been added to your account. You may need to re-authenticate.";
              _ ← send_authentication_change_mail (lu_user u) "A security token was added to your account." None;
              mret (json true)
          end
      | None => mret (json false)
      end
  | None => mret (json false)
  end.
Definition webauthn_remove (rq : request) (webauthn : string) (current_password : option string) (u : loaded_user) : W response :=
  t ← web;
  target ← find_one (List.filter (λ a, same (wa_pk a) webauthn && same (wa_user_id a) (wu_pk (lu_user u))) (w_authns t));
  match target with
  | None => mret not_found
  | Some a =>
      if negb (rq_post rq) then mret (page "webauthn_remove.html" [])
      else
        match current_password_errors password_verify [] current_password u with
        | [] =>
            _ ← modify_web (λ t, set_authns (List.filter (λ a, negb (same (wa_pk a) webauthn)) (w_authns t)) t);
            _ ← message "The security token has been removed.";
            _ ← send_authentication_change_mail (lu_user u) "A security token was removed from your account." None;
            mret (redirect "ui:auth:mfa_status")
        | errors => mret (page "webauthn_remove.html" errors)
        end
  end.
(** [totp_register]; [random] and [random'] are the new secrets. *)
Definition totp_register (rq : request) (now : Z) (random random' token : string) (current_password : option string) (u : loaded_user)
  : W response :=
  x ← st_get;
  let secret := default random (ss_totp_secret (tx_session x)) in
  let errors :=
    if rq_post rq then
      match current_password_errors password_verify (input_required "token" token) current_password u with
      | [] => if totp_verify secret (replace_all " " "" token) now then [] else [("token", "Incorrect token.")]
      | errors => errors
      end
    else [("", "")] in
  match errors with
  | [] =>
      _ ← update_user (wu_pk (lu_user u)) (with_totp_secret (Some secret));
      _ ← message "One time passwords have been enabled. You may need to re-authenticate.";
      _ ← send_authentication_change_mail (lu_user u) "One time password was added to your account." None;
      mret (redirect "ui:auth:mfa_status")
  | errors =>
      _ ← st_modify (set_session (set_ss_totp_secret random'));
      mret (page "totp_register.html" (if rq_post rq then errors else []))
  end.
Definition totp_remove (rq : request) (current_password : option string) (u : loaded_user) : W response :=
  if negb (rq_post rq) then mret (page "totp_remove.html" [])
  else
    match current_password_errors password_verify [] current_password u with
    | [] =>
        _ ← update_user (wu_pk (lu_user u)) (with_totp_secret None);
        _ ← message "The one time password been removed.";
        _ ← send_authentication_change_mail (lu_user u) "One time password was removed from your account." None;
        mret (redirect "ui:auth:mfa_status")
    | errors => mret (page "totp_remove.html" errors)
    end.

(** ** One request *)

Inductive account_endpoint :=
| ae_login (next email password : string)
| ae_logout
| ae_create_account (password updated : string) (email name : option string)
| ae_reset_password_request (email : option string)
| ae_change_password (new_password confirmation current_password : option string)
| ae_change_profile (email name current_password : option string)
| ae_set_password (pk token : string) (initial : Z) (new_password confirmation : option string)
| ae_mfa_authenticate (challenge next token : string)
| ae_webauthn_authenticate (credential : string)
| ae_webauthn_register (challenge : string)
| ae_webauthn_registration (name : option string) (registration : string)
| ae_webauthn_remove (webauthn : string) (current_password : option string)
| ae_totp_register (random random' token : string) (current_password : option string)
| ae_totp_remove (current_password : option string).
(** An endpoint that has no transaction of its own. *)
Definition without_transaction (now : Z) (s : session) (f : W response) (e : web_state) : web_state * session * res response :=
  match f {| tx_web := we_web e; tx_handler := DatabaseHandler_init cfg true (we_db e) now; tx_session := s; tx_mails := we_mails e |} with
  | (x, Ok r) => (e, tx_session x, Ok r)
  | (_, Raise ex) => (e, s, Raise ex)
  end.
(** The decorated endpoints, at a time and on a date. *)
Definition handle_account (testing : option string) (now today : Z) (rq : request) (s : session) (ep : account_endpoint) (e : web_state)
  : web_state * session * res response :=
  let in_transaction f := session_provider_manager cfg collate_lt uuid now s f e in
  let limited r := rate_limit_post rq (denied s e) r in
  let protected r := csrf_protect rq (denied s e) r in
  match ep with
  | ae_login next email password => limited (without_transaction now s (login rq next email password) e)
  | ae_logout => without_transaction now s (authentication_required false rq logout) e
  | ae_create_account password updated email name =>
      limited (protected (in_transaction (create_account rq today password updated email name)))
  | ae_reset_password_request email => limited (protected (in_transaction (reset_password_request rq today email)))
  | ae_change_password new confirmation current =>
      limited (protected (in_transaction (authentication_required true rq (change_password rq new confirmation current))))
  | ae_change_profile email name current =>
      limited (protected (in_transaction (authentication_required true rq (change_profile rq email name current))))
  | ae_set_password pk token initial new confirmation =>
      protected (in_transaction (set_password rq today pk token initial new confirmation))
  | ae_mfa_authenticate challenge next token =>
      limited (authentication_before false rq s e (λ u, in_transaction (mfa_authenticate testing rq now challenge next token u)))
  | ae_webauthn_authenticate credential =>
      in_transaction (authentication_required false rq (webauthn_verify_authentication_response credential))
  | ae_webauthn_register challenge => without_transaction now s (authentication_required true rq (webauthn_register challenge)) e
  | ae_webauthn_registration name registration =>
      in_transaction (authentication_required true rq (webauthn_verify_registration_response name registration))
  | ae_webauthn_remove webauthn current =>
      limited (protected (in_transaction (authentication_required true rq (webauthn_remove rq webauthn current))))
  | ae_totp_register random random' token current =>
      authentication_before true rq s e (λ u, in_transaction (totp_register rq now random random' token current u))
  | ae_totp_remove current =>
      limited (protected (in_transaction (authentication_required true rq (totp_remove rq current))))
  end.
End WebAccounts.
