(* ===== verification/WebAccountsTheory.v ===== *)
(** * What protects user accounts

    The links to reset a password are good for two days and until the password
    changes; a session passes the second factor only by verifying one, or by
    logging in to an account without one; and a password changes only with the
    current one or with such a link. *)
From S2P Require Import Prelude PyStr Conf Net Models Text Rpki ScopeFilter Fields RpslObjects RpslParser Queries RoutePref RoutePrefTheory Database DatabaseHandler Nrtm Retrieval UpdateValidators Web WebMntnersTheory WebAccounts.

(** ** Links to reset a password *)

Lemma append_inj_l a x y : a +:+ x = a +:+ y → x = y.
Proof. induction a as [|c a IH]; [done|]. simpl. intros [= E]. by apply IH. Qed.
Lemma append_inj_length a b x y : String.length a = String.length b → a +:+ x = b +:+ y → a = b ∧ x = y.
Proof.
  revert b. induction a as [|c a IH]; intros [|d b] Hl; simpl; try done. intros [= -> E]. injection Hl as Hl.
  by destruct (IH b Hl E) as [-> ->].
Qed.
Lemma append_inj_r a x y : x +:+ a = y +:+ a → x = y.
Proof.
  intros E. assert (String.length x = String.length y) as Hl.
  { apply (f_equal String.length) in E. rewrite !str_length_app in E. lia. }
  by apply append_inj_length in E as [-> _].
Qed.
Section ResetTokens.
Context (sha512 sha224 : string → string) (b64encode : string → string) (b64decode : string → option string).
Context (b64_decodes : ∀ h, b64decode (b64encode h) = Some h).
(** What the hash of a link is made of, with the key of the installation. *)
Definition reset_message (k : string) (u : web_user) (expiry_days : string) : string :=
  sha512 ("web.password_reset_token2" +:+ k) +:+ user_key u +:+ expiry_days.
(** Two different texts with the same SHA-224. *)
Definition collide (a b : string) : Prop := a ≠ b ∧ sha224 a = sha224 b.
Lemma reset_hash_eq t k u days : w_secret_key t = Some k → reset_hash sha512 sha224 t u days = Ok (sha224 (reset_message k u days)).
Proof using Type. unfold reset_hash, secret_key_derive. by intros ->. Qed.
Lemma reset_message_eq k u v days : reset_message k u days = reset_message k v days ↔ user_key u = user_key v.
Proof using Type.
  unfold reset_message. split; [|by intros ->]. by intros E%append_inj_l%append_inj_r.
Qed.
Lemma user_key_eq u v : wu_pk v = wu_pk u → wu_updated v = wu_updated u → user_key v = user_key u ↔ wu_password v = wu_password u.
Proof using Type. unfold user_key. intros -> ->. split; [by intros E%append_inj_l%append_inj_l|by intros ->]. Qed.
Lemma same_hash k u v days :
  sha224 (reset_message k u days) = sha224 (reset_message k v days)
  ↔ user_key u = user_key v ∨ collide (reset_message k u days) (reset_message k v days).
Proof using Type.
  rewrite <- (reset_message_eq k u v days). unfold collide. split; [|by intros [->|[_ ?]]].
  intros E. destruct (decide (reset_message k u days = reset_message k v days)); [by left|by right].
Qed.
End ResetTokens.

(** ** Sessions and passwords *)

Section Accounts.
Context `{IPyLib} `{Radix node_data} `{redis : Redis} (cfg : configuration).
Context (collate_lt : string → string → bool) (uuid : nat → string).
Context (smtp : string * string * string → res unit) (mail_footer : string).
Context (password_verify : string → string → option bool) (password_hash : string → string).
Context (sha512 sha224 : string → string) (session_hmac : string → string → string).
Context (b64encode : string → string) (b64decode : string → option string).
Context (imia_login : (string → res (option loaded_user)) → (string → string → bool) → string → session → string → string
                        → res (session * option loaded_user)).
Context (imia_logout : session → session).
Context (zxcvbn : string → Z * list string) (totp_verify : string → string → Z → bool).
Context (webauthn_credential_id : string → option string).
Context (webauthn_verify : string → string → string → Z → option Z).
Context (webauthn_registration : string → string → option (string * string * Z)).
Context (email_valid : string → bool) (template : string → list (string * string) → string * string).
Notation handle_account := (handle_account cfg collate_lt uuid smtp mail_footer password_verify password_hash sha512 sha224
  session_hmac b64encode b64decode imia_login imia_logout zxcvbn totp_verify webauthn_credential_id webauthn_verify
  webauthn_registration email_valid template).
Notation mfa := (λ x, ss_mfa_complete (tx_session x)).
(** The password hashes of the accounts. *)
Definition passwords (t : web_tables) : list (string * string) := (λ u, (wu_pk u, wu_password u)) <$> w_users t.
Notation keeps_passwords := (preserves (λ x, passwords (tx_web x))).

Lemma update_user_passwords pk f : (∀ u, wu_pk (f u) = wu_pk u ∧ wu_password (f u) = wu_password u) → keeps_passwords (update_user pk f).
Proof using Type.
  intros Hf. apply web_preserves_modify. intros x. unfold passwords. cbn. rewrite <- list_fmap_compose. apply list_fmap_ext.
  intros i u _. cbn. destruct (same _ _); [|done]. by destruct (Hf u) as [-> ->].
Qed.
Lemma required_preserves {X} (f : transaction → X) b rq k :
  (∀ u, preserves f (k u)) → preserves f (authentication_required b rq k).
Proof using Type. intros Hk. unfold authentication_required. destruct (rq_user rq); preserves_tac. Qed.
Lemma mail_preserves {X} (f : transaction → X) a k l :
  (∀ l x, f (set_mails l x) = f x) → preserves f (send_template_email cfg smtp mail_footer template a k l).
Proof using Type.
  intros Hf. unfold send_template_email, send_email. preserves_tac. apply web_preserves_modify. intros x. apply Hf.
Qed.
Ltac account_tac :=
  unfold send_authentication_change_mail, find_one, web, message, modify_web, new_pk, update_session_hash;
  repeat first [progress preserves_tac | apply update_user_passwords; done | apply mail_preserves; reflexivity
               | apply web_preserves_modify; intros; reflexivity | progress unfold web, message, modify_web].

(** What a transaction leaves is what its endpoint leaves, or nothing changes. *)
Lemma manager_effect now s m (e e' : web_state) s' r :
  session_provider_manager cfg collate_lt uuid now s m e = (e', s', r) →
  (we_web e' = we_web e ∧ s' = s) ∨
  ∃ x x' r', m x = (x', Ok r') ∧ tx_web x = we_web e ∧ tx_session x = s ∧ tx_web x' = we_web e' ∧ (s' = tx_session x' ∨ s' = s).
Proof using Type.
  unfold session_provider_manager.
  match goal with |- (match ?m with _ => _ end = _ → _) => destruct m as [x [r0|ex]] eqn:Hx end; intros [= <- <- _]; [|by left].
  right. apply st_bind_Ok in Hx as (x1 & r1 & Hm & Hx). apply st_bind_Ok in Hx as (x2 & [] & Hc & Hx). injection Hx as <- <-.
  eexists _, x1, r1. split; [exact Hm|]. revert Hc. unfold with_handler.
  destruct (commit_sql _ _ _ _) as [h [a|ex]]; [|done]. intros [= <-]. cbn. split_and!; try done.
  destruct (or_rollback _ _) as [h' [[]|ex]]; [by left|by right].
Qed.
Lemma plain_effect now s m (e e' : web_state) s' r :
  without_transaction cfg now s m e = (e', s', r) →
  e' = e ∧ (s' = s ∨ ∃ x x' r', m x = (x', Ok r') ∧ tx_web x = we_web e ∧ tx_session x = s ∧ tx_session x' = s').
Proof using Type.
  unfold without_transaction. destruct (m _) as [x [r0|ex]] eqn:Hx; intros [= <- <- <-]; (split; [done|]); [right|by left]. eauto 10.
Qed.
Lemma denied_effect (b : bool) (s : session) (e : web_state) result e' s' r :
  (if b then denied s e else result) = (e', s', r) → result = (e', s', r) ∨ (e' = e ∧ s' = s).
Proof using Type. destruct b; [|by left]. intros [= <- <- _]. by right. Qed.
Lemma required_effect b rq k (x x' : transaction) r :
  authentication_required b rq k x = (x', Ok r) → x' = x ∨ ∃ u, rq_user rq = Some u ∧ (b = true → ss_mfa_complete (tx_session x) = true) ∧ k u x = (x', Ok r).
Proof using Type.
  unfold authentication_required. destruct (rq_user rq) as [u|]; [|intros [= <- _]; by left].
  intros Hrun. apply st_bind_Ok in Hrun as (x1 & a & [= <- <-] & Hrun).
  destruct (b && negb _) eqn:Hb; [injection Hrun as <- _; by left|]. right. exists u. split_and!; [done| |done].
  intros ->. by destruct (ss_mfa_complete _).
Qed.
Lemma before_effect b rq s e k e' s' r :
  authentication_before b rq s e k = (e', s', r) →
  (e' = e ∧ s' = s) ∨ ∃ u, rq_user rq = Some u ∧ (b = true → ss_mfa_complete s = true) ∧ k u = (e', s', r).
Proof using Type.
  unfold authentication_before. destruct (rq_user rq) as [u|]; [|intros [= <- <- _]; by left].
  destruct (b && negb _) eqn:Hb; [intros [= <- <- _]; by left|]. intros Hrun. right. exists u. split_and!; [done| |done].
  intros ->. by destruct (ss_mfa_complete s).
Qed.
(** The second factors that a session can pass. *)
Inductive second_factor (now : Z) (testing : option string) (rq : request) (s : session) (t : web_tables) : account_endpoint → Prop :=
| no_second_factor next email password secret s1 u :
    imia_login (find_by_id t) (PasswordHandler_verify password_verify) secret session_empty email password = Ok (s1, Some u) →
    has_mfa u = false → second_factor now testing rq s t (ae_login next email password)
| totp_passed challenge next token u secret :
    rq_user rq = Some u → wu_totp_secret (lu_user u) = Some secret → totp_verify secret (replace_all " " "" token) now = true →
    (wu_totp_last_used (lu_user u) ≠ Some (replace_all " " "" token) ∨ ∃ v, testing = Some v ∧ v ≠ "") →
    second_factor now testing rq s t (ae_mfa_authenticate challenge next token)
| webauthn_passed credential u challenge a count :
    rq_user rq = Some u → ss_challenge s = Some challenge → a ∈ w_authns t → wa_user_id a = wu_pk (lu_user u) →
    webauthn_verify credential challenge (wa_credential_public_key a) (wa_credential_sign_count a) = Some count →
    second_factor now testing rq s t (ae_webauthn_authenticate credential).

Section Sessions.
(** imia's login starts, and its logout leaves, a session without the second factor. *)
Context (login_plain : ∀ find verify secret email password s1 u,
  imia_login find verify secret session_empty email password = Ok (s1, u) → ss_mfa_complete s1 = false).
Context (logout_plain : ∀ s, ss_mfa_complete s = false → ss_mfa_complete (imia_logout s) = false).

Lemma login_second_factor now testing rq next email password (x x' : transaction) r :
  login password_verify sha512 imia_login rq next email password x = (x', Ok r) →
  ss_mfa_complete (tx_session x) = false → ss_mfa_complete (tx_session x') = true →
  second_factor now testing rq (tx_session x) (tx_web x) (ae_login next email password).
Proof using login_plain.
  unfold login. intros Hrun Hb Ha. destruct (rq_method rq); [injection Hrun as <- _; congruence|done|].
  do 3 st_step Hrun. destruct a0 as [s1 u]. pose proof (login_plain _ _ _ _ _ _ _ E0) as Hplain. st_step Hrun.
  apply modify_web_Ok in E1 || (injection E1 as <-). destruct u as [u|]; [|injection Hrun as <- _; cbn in Ha; congruence].
  destruct (has_mfa u) eqn:Hm; [injection Hrun as <- _; cbn in Ha; congruence|]. by eapply no_second_factor.
Qed.
Lemma totp_second_factor testing rq now challenge next token u (x x' : transaction) r :
  rq_user rq = Some u → mfa_authenticate totp_verify testing rq now challenge next token u x = (x', Ok r) →
  ss_mfa_complete (tx_session x) = false → ss_mfa_complete (tx_session x') = true →
  second_factor now testing rq (tx_session x) (tx_web x) (ae_mfa_authenticate challenge next token).
Proof using Type.
  intros Hu. unfold mfa_authenticate. intros Hrun Hb Ha.
  apply st_bind_Ok in Hrun as (x1 & [] & Hc & Hrun).
  apply (preserves_run mfa) in Hc; [|preserves_tac; by apply web_preserves_modify]. rewrite Hb in Hc.
  destruct (has_totp (lu_user u)) eqn:Ht; [|injection Hrun as <- _; congruence].
  destruct (rq_post rq); [|injection Hrun as <- _; congruence]. cbn [andb] in Hrun. st_step Hrun.
  destruct a as [errors|t]; [injection Hrun as <- _; congruence|]. unfold has_totp in Ht.
  destruct (wu_totp_secret (lu_user u)) as [secret|] eqn:Es; [|done]. cbn [default] in E. revert E.
  unfold TOTPAuthenticateForm_validate. destruct (input_required _ _); [|done].
  destruct (totp_verify _ _ _) eqn:Ev; [|done]. cbn [negb]. intros E. eapply totp_passed; [exact Hu|exact Es|exact Ev|].
  case_bool_decide as Hlast; [|left; congruence]. right. destruct testing as [v|]; [|done]. exists v. split; [done|]. intros ->. done.
Qed.
Lemma webauthn_second_factor testing rq now credential u (x x' : transaction) r :
  rq_user rq = Some u → webauthn_verify_authentication_response webauthn_credential_id webauthn_verify credential u x = (x', Ok r) →
  ss_mfa_complete (tx_session x) = false → ss_mfa_complete (tx_session x') = true →
  second_factor now testing rq (tx_session x) (tx_web x) (ae_webauthn_authenticate credential).
Proof using Type.
  intros Hu. unfold webauthn_verify_authentication_response. intros Hrun Hb Ha. st_step Hrun.
  destruct (ss_challenge _) as [challenge|] eqn:Hc; [|injection Hrun as <- _; congruence].
  destruct (webauthn_credential_id credential) as [id|]; [|injection Hrun as <- _; congruence].
  destruct (query_one _) as [[a|]|] eqn:Hone; [|injection Hrun as <- _; congruence..].
  apply query_one_Some in Hone.
  match type of Hone with ?l = _ => assert (a ∈ l) as [Hin Hp]%list_elem_of_In%filter_In by (rewrite Hone; by left) end.
  apply andb_true_iff in Hp as [Huser%same_eq _].
  destruct (webauthn_verify _ _ _ _) as [count|] eqn:Hv; [|injection Hrun as <- _; congruence].
  eapply webauthn_passed; [exact Hu|exact Hc|by apply list_elem_of_In|exact Huser|exact Hv].
Qed.

Lemma second_factor_gained testing now today rq s ep e e' s' r :
  handle_account testing now today rq s ep e = (e', s', r) → ss_mfa_complete s = false → ss_mfa_complete s' = true →
  second_factor now testing rq s (we_web e) ep.
Proof using login_plain logout_plain.
  intros Hrun Hb Ha.
  assert (∀ m, preserves mfa m → session_provider_manager cfg collate_lt uuid now s m e = (e', s', r) → False) as Hkeep.
  { intros m Hm [[_ ->]|(x & x' & r' & Hx & _ & <- & _ & [->| ->])]%manager_effect; [congruence| |congruence].
    apply (preserves_run mfa) in Hx; [congruence|done]. }
  assert (∀ b m, preserves mfa m → (if b : bool then denied s e else session_provider_manager cfg collate_lt uuid now s m e) = (e', s', r) → False) as Hkeep1.
  { intros b m Hm [Hx|[_ ->]]%denied_effect; [by eapply Hkeep|congruence]. }
  assert (∀ b c m, preserves mfa m →
    (if b : bool then denied s e else if c : bool then denied s e else session_provider_manager cfg collate_lt uuid now s m e) = (e', s', r) → False) as Hkeep2.
  { intros b c m Hm [Hx|[_ ->]]%denied_effect; [by eapply Hkeep1|congruence]. }
  destruct ep; cbn [WebAccounts.handle_account] in Hrun; unfold rate_limit_post, csrf_protect in Hrun;
    try (exfalso; revert Hrun; (apply Hkeep2 || apply Hkeep1 || apply Hkeep); try (apply required_preserves; intros u);
         unfold create_account, reset_password_request, change_password, change_profile, set_password,
           webauthn_verify_registration_response, webauthn_remove, totp_register, totp_remove; account_tac; fail).
  - apply denied_effect in Hrun as [Hrun|[_ ->]]; [|congruence]. apply plain_effect in Hrun as [_ [->|(x & x' & r' & Hx & <- & <- & <-)]]; [congruence|].
    by eapply login_second_factor.
  - apply plain_effect in Hrun as [_ [->|(x & x' & r' & Hx & _ & <- & <-)]]; [congruence|]. exfalso.
    apply required_effect in Hx as [->|(u & _ & _ & Hx)]; [congruence|]. unfold logout in Hx.
    apply st_bind_Ok in Hx as (x1 & [] & Hx & [= <- _]). injection Hx as <-. cbn in Ha. by rewrite logout_plain in Ha.
  - apply denied_effect in Hrun as [Hrun|[_ ->]]; [|congruence].
    apply before_effect in Hrun as [[_ ->]|(u & Hu & _ & Hrun)]; [congruence|].
    apply manager_effect in Hrun as [[_ ->]|(x & x' & r' & Hx & <- & <- & _ & [->| ->])]; [congruence| |congruence]. by eapply totp_second_factor.
  - apply manager_effect in Hrun as [[_ ->]|(x & x' & r' & Hx & <- & <- & _ & [->| ->])]; [congruence| |congruence].
    apply required_effect in Hx as [->|(u & Hu & _ & Hx)]; [congruence|]. by eapply webauthn_second_factor.
  - apply plain_effect in Hrun as [_ [->|(x & x' & r' & Hx & _ & <- & <-)]]; [congruence|]. exfalso.
    apply (preserves_run mfa) in Hx; [congruence|]. apply required_preserves. intros u. unfold webauthn_register. account_tac.
  - apply before_effect in Hrun as [[_ ->]|(u & _ & _ & Hrun)]; [congruence|]. exfalso. revert Hrun. apply Hkeep.
    unfold totp_register. account_tac.
Qed.
End Sessions.
(** *** Password hashes *)

Notation verify_password := (verify_password password_verify).
Notation strong p := (validate_password_strength zxcvbn (default "" p) = None).
Definition with_new_password (pk p : string) (l : list (string * string)) : list (string * string) :=
  (λ x, if same x.1 pk then (x.1, p) else x) <$> l.
Inductive password_change (today : Z) (rq : request) (s : session) (t : web_tables) : account_endpoint → list (string * string) → Prop :=
| account_created password updated email name :
    password_change today rq s t (ae_create_account password updated email name) (passwords t ++ [(uuid (w_next t), password)])
| password_changed new confirmation current u :
    acts rq s u → verify_password u (default "" current) = true → strong new →
    password_change today rq s t (ae_change_password new confirmation current)
      (with_new_password (wu_pk (lu_user u)) (password_hash (default "" new)) (passwords t))
| password_reset token initial new confirmation u :
    u ∈ w_users t → validate_token sha512 sha224 b64decode t u today token = Ok true → rq_post rq = true → rq_csrf rq = true → strong new →
    password_change today rq s t (ae_set_password (wu_pk u) token initial new confirmation)
      (with_new_password (wu_pk u) (password_hash (default "" new)) (passwords t)).

Lemma update_password_passwords pk p (x x' : transaction) r :
  update_user pk (with_password p) x = (x', Ok r) → passwords (tx_web x') = with_new_password pk p (passwords (tx_web x)).
Proof using Type.
  unfold update_user. intros ->%modify_web_Ok. unfold passwords, with_new_password. cbn. rewrite <- !list_fmap_compose.
  apply list_fmap_ext. intros i u _. unfold compose. cbn [fst snd]. by destruct (same (wu_pk u) pk).
Qed.
Lemma new_password_strong new confirmation : new_password_errors zxcvbn new confirmation = [] → strong new.
Proof using Type. unfold new_password_errors. by destruct (validate_password_strength _ _). Qed.
Ltac rest_passwords H :=
  match type of H with ?m ?x = (?x', ?r) =>
    apply (preserves_run (λ y, passwords (tx_web y)) m x x' r) in H; [|account_tac] end.
Lemma change_password_effect rq new confirmation current u (x x' : transaction) r :
  change_password cfg smtp mail_footer password_verify password_hash sha512 session_hmac zxcvbn template rq new confirmation current u x = (x', Ok r) →
  passwords (tx_web x') = passwords (tx_web x) ∨
  rq_post rq = true ∧ verify_password u (default "" current) = true ∧ strong new
    ∧ passwords (tx_web x') = with_new_password (wu_pk (lu_user u)) (password_hash (default "" new)) (passwords (tx_web x)).
Proof using Type.
  unfold change_password. destruct (rq_post rq); [|by intros [= <- _]; left]. cbn [negb].
  destruct (ChangePasswordForm_validate _ _ _ _ _ _) eqn:Hf; [|by intros [= <- _]; left]. intros Hrun. right.
  unfold ChangePasswordForm_validate in Hf. destruct (current_password_errors _ _ _ _) eqn:Hc; [|done].
  apply current_password_ok in Hc as [_ Hc]. apply new_password_strong in Hf. split_and!; [done..|].
  apply st_bind_Ok in Hrun as (x1 & a & Hu & Hrun). apply update_password_passwords in Hu. rest_passwords Hrun. congruence.
Qed.
Lemma set_password_effect rq today pk token initial new confirmation (x x' : transaction) r :
  set_password cfg smtp mail_footer password_hash sha512 sha224 b64decode zxcvbn template rq today pk token initial new confirmation x = (x', Ok r) →
  passwords (tx_web x') = passwords (tx_web x) ∨
  ∃ u, u ∈ w_users (tx_web x) ∧ wu_pk u = pk ∧ validate_token sha512 sha224 b64decode (tx_web x) u today token = Ok true
    ∧ rq_post rq = true ∧ strong new
    ∧ passwords (tx_web x') = with_new_password pk (password_hash (default "" new)) (passwords (tx_web x)).
Proof using Type.
  unfold set_password. intros Hrun. do 2 st_step Hrun. destruct a as [u|]; [|injection Hrun as <- _; by left].
  apply query_one_Some in E.
  match type of E with ?l = _ => assert (u ∈ l) as [Hin Hpk%same_eq]%list_elem_of_In%filter_In by (rewrite E; by left) end.
  st_step Hrun. destruct a as [|]; [|injection Hrun as <- _; by left]. cbn [negb] in Hrun.
  destruct (rq_post rq); [|injection Hrun as <- _; by left]. cbn [negb] in Hrun.
  destruct (data_required _ _ ++ _); [|injection Hrun as <- _; by left].
  destruct (new_password_errors _ _ _) eqn:Hn; [|injection Hrun as <- _; by left]. apply new_password_strong in Hn. right.
  exists u. split_and!; try done; [by apply list_elem_of_In|].
  apply st_bind_Ok in Hrun as (x1 & b & Hu & Hrun). apply update_password_passwords in Hu. rest_passwords Hrun. congruence.
Qed.
Lemma create_account_effect rq today password updated email name (x x' : transaction) r :
  create_account cfg uuid smtp mail_footer sha512 sha224 b64encode email_valid template rq today password updated email name x = (x', Ok r) →
  passwords (tx_web x') = passwords (tx_web x) ∨
  passwords (tx_web x') = passwords (tx_web x) ++ [(uuid (w_next (tx_web x)), password)].
Proof using Type.
  unfold create_account. destruct (negb _); [by intros [= <- _]; left|]. destruct (_ ++ _); [|by intros [= <- _]; left].
  intros Hrun. st_step Hrun. destruct (existsb _ _); [injection Hrun as <- _; by left|]. right. do 3 st_step Hrun.
  rest_passwords Hrun. rewrite Hrun. unfold passwords. cbn. by rewrite fmap_app.
Qed.
Lemma passwords_changed testing now today rq s ep e e' s' r :
  handle_account testing now today rq s ep e = (e', s', r) →
  passwords (we_web e') = passwords (we_web e) ∨ password_change today rq s (we_web e) ep (passwords (we_web e')).
Proof using Type.
  intros Hrun.
  assert (∀ m, keeps_passwords m → session_provider_manager cfg collate_lt uuid now s m e = (e', s', r) → passwords (we_web e') = passwords (we_web e)) as Hkeep.
  { intros m Hm [[-> _]|(x & x' & r' & Hx & <- & _ & <- & _)]%manager_effect; [done|].
    by apply (preserves_run (λ y, passwords (tx_web y))) in Hx. }
  assert (∀ b m, keeps_passwords m →
    (if b : bool then denied s e else session_provider_manager cfg collate_lt uuid now s m e) = (e', s', r) → passwords (we_web e') = passwords (we_web e)) as Hkeep1.
  { intros b m Hm [Hx|[-> _]]%denied_effect; [by eapply Hkeep|done]. }
  assert (∀ b c m, keeps_passwords m →
    (if b : bool then denied s e else if c : bool then denied s e else session_provider_manager cfg collate_lt uuid now s m e) = (e', s', r) →
    passwords (we_web e') = passwords (we_web e)) as Hkeep2.
  { intros b c m Hm [Hx|[-> _]]%denied_effect; [by eapply Hkeep1|done]. }
  destruct ep; cbn [WebAccounts.handle_account] in Hrun; unfold rate_limit_post, csrf_protect in Hrun;
    try (left; revert Hrun; (apply Hkeep2 || apply Hkeep1 || apply Hkeep); try (apply required_preserves; intros u);
         unfold reset_password_request, change_profile, mfa_authenticate, webauthn_verify_authentication_response,
           webauthn_verify_registration_response, webauthn_remove, totp_register, totp_remove; account_tac; fail).
  - apply denied_effect in Hrun as [Hrun|[-> _]]; [|by left]. apply plain_effect in Hrun as [-> _]. by left.
  - apply plain_effect in Hrun as [-> _]. by left.
  - apply denied_effect in Hrun as [Hrun|[-> _]]; [|by left]. apply denied_effect in Hrun as [Hrun|[-> _]]; [|by left].
    apply manager_effect in Hrun as [[-> _]|(x & x' & r' & Hx & Et & _ & <- & _)]; [by left|].
    apply create_account_effect in Hx as [Hx|Hx]; rewrite Hx, Et; [by left|right; constructor].
  - apply denied_effect in Hrun as [Hrun|[-> _]]; [|by left].
    destruct (rq_post rq && negb (rq_csrf rq)) eqn:Hcsrf; [injection Hrun as <- _ _; by left|].
    apply manager_effect in Hrun as [[-> _]|(x & x' & r' & Hx & Et & <- & <- & _)]; [by left|].
    apply required_effect in Hx as [->|(u & Hu & Hmfa & Hx)]; [rewrite Et; by left|].
    apply change_password_effect in Hx as [Hx|(Hpost & Hpw & Hstrong & Hx)]; rewrite Hx, Et; [by left|]. right.
    apply password_changed; [|done..]. split_and!; [done|by apply Hmfa|done|]. rewrite Hpost in Hcsrf. by destruct (rq_csrf rq).
  - destruct (rq_post rq && negb (rq_csrf rq)) eqn:Hcsrf; [injection Hrun as <- _ _; by left|].
    apply manager_effect in Hrun as [[-> _]|(x & x' & r' & Hx & Et & _ & <- & _)]; [by left|].
    apply set_password_effect in Hx as [Hx|(u & Hu & <- & Htoken & Hpost & Hstrong & Hx)]; rewrite Hx, Et; [by left|]. right.
    rewrite Et in Hu, Htoken. apply password_reset; try done. rewrite Hpost in Hcsrf. by destruct (rq_csrf rq).
  - left. apply denied_effect in Hrun as [Hrun|[-> _]]; [|done]. apply before_effect in Hrun as [[-> _]|(u & _ & _ & Hrun)]; [done|].
    revert Hrun. apply Hkeep. unfold mfa_authenticate. account_tac.
  - apply plain_effect in Hrun as [-> _]. by left.
  - left. apply before_effect in Hrun as [[-> _]|(u & _ & _ & Hrun)]; [done|]. revert Hrun. apply Hkeep. unfold totp_register. account_tac.
Qed.
(** C15. Whatever request is made to an account endpoint: the session passes the
    second factor only when the user verified a one time password or a security
    token, or logged in to an account that has neither; and password hashes change
    only by creating an account, by a user with the current password who passed
    the second factor, or with a link that was mailed for the account; a new
    password is always one that the strength check accepts. *)
Theorem accounts_protected testing now today rq s ep e e' s' r :
  (∀ find verify secret email password s1 u,
    imia_login find verify secret session_empty email password = Ok (s1, u) → ss_mfa_complete s1 = false) →
  (∀ s0, ss_mfa_complete s0 = false → ss_mfa_complete (imia_logout s0) = false) →
  handle_account testing now today rq s ep e = (e', s', r) →
  (ss_mfa_complete s = false → ss_mfa_complete s' = true → second_factor now testing rq s (we_web e) ep)
  ∧ (passwords (we_web e') = passwords (we_web e) ∨ password_change today rq s (we_web e) ep (passwords (we_web e'))).
Proof using Type.
  intros Hlogin Hlogout Hrun. split; [|by eapply passwords_changed].
  intros Hb Ha. by eapply second_factor_gained.
Qed.
End Accounts.
