(* ===== verification/WebAccountsExamples.v ===== *)
(** * An account in the web interface

    Logging in with a one time password, resetting a password, and what the
    endpoints do at the edges. *)
From S2P Require Import Prelude PyStr Conf Net Models Text Rpki ScopeFilter Fields RpslObjects RpslParser Queries RoutePref RoutePrefTheory Database DatabaseHandler JournalTheory Nrtm Retrieval UpdateValidators UpdateExamples Web WebMntnersTheory WebExamples WebAccounts WebAccountsTheory.

Module AccountExamples.
Import ConcreteIP ConcreteRadix ConcreteRedis WebExamples.
(** Keys and hashes that are easy to read, and a second factor that never expires. *)
Definition carol : web_user := {|
  wu_pk := "3"; wu_email := "carol@example.com"; wu_name := "Carol"; wu_password := "pw-3"; wu_totp_secret := Some "123456";
  wu_totp_last_used := Some "654321"; wu_override := false; wu_updated := "2024" |}.
Definition accounts_0 : web_tables := {|
  w_users := [alice; carol]; w_authns := []; w_mntners := []; w_permissions := []; w_tokens := []; w_log := [];
  w_secret_key := Some "key"; w_next := 0 |}.
Definition web_0 : web_state := {| we_web := accounts_0; we_db := UpdateExamples.ex_db; we_mails := [] |}.
Definition ex_login (find : string → res (option loaded_user)) (verify : string → string → bool) (secret : string) (s : session)
    (email password : string) : res (session * option loaded_user) :=
  u ← find email;
  match u with
  | Some u =>
      if verify password (wu_password (lu_user u)) then
        Ok ({| ss_user := Some email; ss_hash := Some (secret +:+ wu_password (lu_user u)); ss_mfa_complete := ss_mfa_complete s;
               ss_challenge := None; ss_totp_secret := None; ss_messages := [] |}, Some u)
      else Ok (s, None)
  | None => Ok (s, None)
  end.
Definition ex_zxcvbn (p : string) : Z * list string :=
  if (String.length p <? 8)%nat then (0%Z, ["Add another word."; "Avoid dates."]) else (3%Z, []).
Definition ex_template (key : string) (kwargs : list (string * string)) : string * string :=
  (key, concat_str ((λ x : string * string, x.1 +:+ "=" +:+ x.2 +:+ ";") <$> kwargs)).
Notation submit testing today rq s ep e :=
  (handle_account web_cfg UpdateExamples.ex_collate JournalExamples.ex_uuid (λ _, Ok tt) "" (λ plain hashed, Some (String.eqb plain hashed)) id
    id id String.append id Some ex_login (λ _, session_empty) ex_zxcvbn (λ secret token _, String.eqb secret token)
    Some (λ _ _ _ _, None) (λ _ _, None) (λ _, true) ex_template testing 0%Z today rq s ep e).
Definition anonymous : request := {|
  rq_method := POST; rq_host := Some "192.0.2.1"; rq_csrf := true; rq_permitted := true; rq_user := None |}.
Definition day : Z := 739000.
Definition session_of (r : web_state * session * res response) : session := r.1.2.

(** ** Logging in *)

Definition login_carol : account_endpoint := ae_login "/ui/user/" "carol@example.com" "pw-3".
Definition login_alice : account_endpoint := ae_login "" "alice@example.com" "pw-1".
Definition totp (token : string) : account_endpoint := ae_mfa_authenticate "c" "/ui/user/" token.
Definition carol_session : session := Eval vm_compute in session_of (submit None day anonymous session_empty login_carol web_0).
Example ex_logins :
  answer (submit None day anonymous session_empty login_alice web_0) = Ok (redirect "ui:index")
  ∧ ss_mfa_complete (session_of (submit None day anonymous session_empty login_alice web_0)) = true
  ∧ answer (submit None day anonymous session_empty login_carol web_0) = Ok (redirect "/ui/user/")
  ∧ ss_mfa_complete carol_session = false
  ∧ answer (submit None day anonymous session_empty (ae_login "" "carol@example.com" "pw-1") web_0)
    = Ok (page "login.html" [("", "Invalid account or password.")])
  ∧ answer (submit None day (post_of carol web_0) carol_session (totp "123 456") web_0) = Ok (redirect "/ui/user/")
  ∧ answer (submit None day (post_of carol web_0) carol_session (totp "111111") web_0)
    = Ok (page "mfa_authenticate.html" [("token", "Incorrect token.")])
  ∧ answer (submit None day (post_of carol web_0) carol_session (ae_totp_remove (Some "pw-3")) web_0)
    = Ok (redirect "ui:auth:mfa_authenticate").
Proof. vm_compute. done. Qed.
(** The path of a [next] parameter may itself start with two slashes. *)
Example next_url_other_host : clean_next_url "https://evil.example/x" "ui:index" = "/x"
  ∧ clean_next_url "////evil.example/x" "ui:index" = "//evil.example/x".
Proof. vm_compute. done. Qed.
(** A token that is used again: without the variable TESTING the look-up of it fails. *)
Definition web_1 : web_state := Eval vm_compute in state_of (submit None day (post_of carol web_0) carol_session (totp "123456") web_0).
Definition carol_1 : web_user := with_totp_last_used "123456" carol.
Example totp_reused :
  answer (submit None day (post_of carol_1 web_1) carol_session (totp "123456") web_1) = Raise (KeyError "TESTING")
  ∧ answer (submit (Some "") day (post_of carol_1 web_1) carol_session (totp "123456") web_1)
    = Ok (page "mfa_authenticate.html" [("token", "Token already used. Wait for the next token.")])
  ∧ ss_mfa_complete (session_of (submit (Some "true") day (post_of carol_1 web_1) carol_session (totp "123456") web_1)) = true.
Proof. vm_compute. done. Qed.

(** ** Resetting a password *)

Definition reset_token : string := Eval vm_compute in default "" (match generate_token id id id accounts_0 carol day with Ok t => Some t | Raise _ => None end).
Definition new_password (pk token password : string) : account_endpoint := ae_set_password pk token 0 (Some password) (Some password).
Definition web_2 : web_state := Eval vm_compute in state_of (submit None (day + 2) anonymous session_empty (new_password "3" reset_token "a longer one") web_0).
Example ex_reset :
  answer (submit None day anonymous session_empty (ae_reset_password_request (Some "carol@example.com")) web_0) = Ok (redirect "ui:index")
  ∧ (λ m : string * string * string, m.1) <$> we_mails (state_of (submit None day anonymous session_empty (ae_reset_password_request (Some "carol@example.com")) web_0))
    = [("carol@example.com", "reset_password_request")]
  ∧ answer (submit None (day + 3) anonymous session_empty (new_password "3" reset_token "a longer one") web_0) = Ok not_found
  ∧ answer (submit None (day + 2) anonymous session_empty (new_password "1" reset_token "a longer one") web_0) = Ok not_found
  ∧ answer (submit None (day + 2) anonymous session_empty (new_password "3" reset_token "short") web_0)
    = Ok (page "create_account_confirm_form.html" [("new_password", "Passwords is not strong enough. Add another word. Avoid dates.")])
  ∧ answer (submit None (day + 2) anonymous session_empty (new_password "3" reset_token "a longer one") web_0) = Ok (redirect "ui:auth:login")
  ∧ passwords (we_web web_2) = [("1", "pw-1"); ("3", "a longer one")]
  ∧ answer (submit None (day + 2) anonymous session_empty (new_password "3" reset_token "another one") web_2) = Ok not_found.
Proof. vm_compute. done. Qed.
(** A link with a day that no date has is an internal error. *)
Example reset_day_out_of_range :
  answer (submit None day anonymous session_empty (new_password "3" "9999999-x" "a longer one") web_0) = Raise (GenericException "OverflowError").
Proof. vm_compute. reflexivity. Qed.
(** Changing the address of an account keeps its links, since the time of the change is not stored. *)
Definition new_address : account_endpoint := ae_change_profile (Some "carol@example.net") (Some "Carol") (Some "pw-3").
Definition web_3 : web_state := Eval vm_compute in state_of (submit None day (post_of carol web_0) logged_in new_address web_0).
Example profile_keeps_links :
  wu_email <$> w_users (we_web web_3) = ["alice@example.com"; "carol@example.net"]
  ∧ validate_token id id Some (we_web web_3) (with_profile "carol@example.net" "Carol" carol) day reset_token = Ok true.
Proof. vm_compute. done. Qed.

(** ** The theorems at these accounts *)


Lemma ex_login_plain find verify secret email password s1 u :
  ex_login find verify secret session_empty email password = Ok (s1, u) → ss_mfa_complete s1 = false.
Proof.
  unfold ex_login. destruct (find email) as [[v|]|]; cbn; [|by intros [= <- _]|done].
  destruct (verify _ _); by intros [= <- _].
Qed.
Definition carol_passed : web_state * session * res response :=
  Eval vm_compute in submit None day (post_of carol web_0) carol_session (totp "123 456") web_0.
Lemma accounts_protected_witness :
  ss_mfa_complete carol_passed.1.2 = true
  ∧ second_factor (λ plain hashed, Some (String.eqb plain hashed)) ex_login (λ secret token _, String.eqb secret token) (λ _ _ _ _, None)
      0 None (post_of carol web_0) carol_session accounts_0 (totp "123 456")
  ∧ passwords (we_web carol_passed.1.1) = passwords accounts_0.
Proof.
  split; [reflexivity|].
  assert (submit None day (post_of carol web_0) carol_session (totp "123 456") web_0 = (carol_passed.1.1, carol_passed.1.2, carol_passed.2)) as E
    by (vm_compute; reflexivity).
  pose proof (accounts_protected _ _ _ _ _ _ _ _ _ _ _ _ _ _ _ _ _ _ _ _ _ None 0 day (post_of carol web_0) carol_session (totp "123 456") web_0 _ _ _
    ex_login_plain (λ (s : session) (_ : ss_mfa_complete s = false), eq_refl : ss_mfa_complete session_empty = false) E) as [Hfactor Hpasswords].
  split; [apply Hfactor; reflexivity|]. destruct Hpasswords as [Hp|Hp]; [exact Hp|inversion Hp].
Defined.
End AccountExamples.
