(* ===== verification/GraphqlSchema.v ===== *)
(** * The schema of GraphQL queries ([irrd/server/graphql/schema_generator.py])

    The types and parameters that are generated from the tables of RPSL classes.
    The fixed types of the schema, and the scalars, are text for Ariadne. *)
From stdpp Require Import sorting.
From S2P Require Import Prelude PyStr Conf Models Fields RpslObjects QueryResolver.

(** ** Names ([utils/text.py]) *)

Definition is_letter (c : ascii) : bool := negb (bool_decide (upper_ascii c = lower_ascii c)).
(** [str.title]. *)
Fixpoint title_from (after_letter : bool) (s : string) : string :=
  match s with
  | "" => ""
  | String c s' => String (if after_letter then lower_ascii c else upper_ascii c) (title_from (is_letter c) s')
  end.
Definition str_title : string → string := title_from false.
Definition snake_to_camel_case (snake : string) : string :=
  match split_on "-"%char (replace_all "_" "-" snake) with
  | [] => ""
  | component :: components => component +:+ concat_str (str_title <$> components)
  end.

(** ** Types of fields *)

(** [klass.__name__]. *)
Definition class_names : list (string * string) := [
  ("as-block", "RPSLAsBlock"); ("as-set", "RPSLAsSet"); ("aut-num", "RPSLAutNum"); ("domain", "RPSLDomain");
  ("filter-set", "RPSLFilterSet"); ("inet-rtr", "RPSLInetRtr"); ("inet6num", "RPSLInet6Num"); ("inetnum", "RPSLInetnum");
  ("irt", "RPSLIrt"); ("key-cert", "RPSLKeyCert"); ("mntner", "RPSLMntner"); ("organisation", "RPSLOrganisation"); ("peering-set", "RPSLPeeringSet");
  ("person", "RPSLPerson"); ("role", "RPSLRole"); ("route", "RPSLRoute"); ("route-set", "RPSLRouteSet");
  ("route6", "RPSLRoute6"); ("rtr-set", "RPSLRtrSet")].
Definition class_name (object_class : string) : string := default "" (assoc object_class class_names).
(** Whether the class of the field has [RPSLFieldListMixin] among its bases. *)
Definition is_list_field (k : field_kind) : bool :=
  match k with
  | RPSLIPv4PrefixesField | RPSLIPv6PrefixesField | RPSLRouteSetMembersField _ | RPSLReferenceListField _ _ _ => true
  | _ => false
  end.
Definition _graphql_type_for_rpsl_field (f : field) : string :=
  if is_list_field (f_kind f) || f_multiple f then "[String!]" else "String".
Definition camel_objs (field_name : string) : string := snake_to_camel_case field_name +:+ "Objs".
(** Weak references to single numbers and routers are left out; what is left is
    persons and roles, or one class. *)
Definition real_references (f : field) : list string :=
  List.filter (λ c, negb (bool_decide (c ∈ ["aut-num"; "inet-rtr"]))) (referring_of (f_kind f)).
Definition _grapql_type_for_reference_field (field_name : string) (f : field) : option (string * string) :=
  match referring_of (f_kind f) with
  | [] => None
  | _ =>
      let referring := real_references f in
      let t :=
        if forallb (λ c, bool_decide (c ∈ ["person"; "role"])) referring
           && forallb (λ c, bool_decide (c ∈ referring)) ["person"; "role"]
        then "[RPSLContactUnion!]" else "[" +:+ class_name (default "" (head referring)) +:+ "!]" in
      Some (camel_objs field_name, t)
  end.

(** ** Schemas, as the types of their fields *)

Definition type_fields := list (string * string).
Definition add_field (nf : string * field) (d : type_fields) : type_fields :=
  let d := dict_set (snake_to_camel_case nf.1) (_graphql_type_for_rpsl_field nf.2) d in
  match _grapql_type_for_reference_field nf.1 nf.2 with
  | Some (name, t) => dict_set name t d
  | None => d
  end.
Definition extracts_of (k : field_kind) : list string :=
  match k with
  | RPSLIPv4PrefixField | RPSLIPv4PrefixesField | RPSLIPv6PrefixField | RPSLIPv6PrefixesField =>
      ["ip_first"; "ip_last"; "prefix"; "prefix_length"]
  | RPSLIPv4AddressRangeField => ["ip_first"; "ip_last"]
  | RPSLASNumberField => ["asn"]
  | RPSLASBlockField => ["asn_first"; "asn_last"]
  | _ => []
  end.
Definition field_extracts (c : rpsl_class) : list string :=
  concat ((λ nf : string * field, if f_primary_key nf.2 || f_lookup_key nf.2 then extracts_of (f_kind nf.2) else []) <$> c_fields c).
Definition extract_type (field_name : string) : string :=
  if startswith "asn" field_name then "ASN"
  else if String.eqb field_name "prefix" then "IP"
  else if String.eqb field_name "prefix_length" then "Int"
  else "String".
Definition meta_fields : type_fields := [
  ("rpslPk", "String"); ("objectClass", "String"); ("objectText", "String"); ("updated", "String")].
(** The fields of the type of a class, and what [graphql_types] keeps for the resolvers. *)
Definition object_fields (c : rpsl_class) : type_fields :=
  let d := foldl (λ d nf, add_field nf d) (meta_fields ++ [("journal", "[RPSLJournalEntry]")]) (c_fields c) in
  let d := foldl (λ d e, dict_set (snake_to_camel_case e) (extract_type e) d) d (field_extracts c) in
  if c_is_route c then
    dict_set "routePreferenceStatus" "RoutePreferenceStatus" (dict_set "rpkiMaxLength" "Int" (dict_set "rpkiStatus" "RPKIStatus" d))
  else d.
Definition graphql_types (c : rpsl_class) : type_fields :=
  let d := foldl (λ d (nf : string * field),
    let d := dict_set nf.1 (_graphql_type_for_rpsl_field nf.2) d in
    match _grapql_type_for_reference_field nf.1 nf.2 with Some (name, t) => dict_set name t d | None => d end) [] (c_fields c) in
  if c_is_route c then dict_set "rpki_max_length" "Int" d else d.
(** [_dict_for_common_fields]: the fields that are not of [RPSLPerson] are text. *)
Definition sorted_names : list string → list string := merge_sort (λ a b, Is_true (String.leb a b)).
Definition _dict_for_common_fields (common_fields : list string) : type_fields :=
  foldl (λ d name,
    match assoc name (c_fields RPSLPerson) with
    | Some f =>
        let d := match _grapql_type_for_reference_field name f with Some (n, t) => dict_set n t d | None => d end in
        dict_set (snake_to_camel_case name) (_graphql_type_for_rpsl_field f) d
    | None => dict_set (snake_to_camel_case name) "String" d
    end) [] (sorted_names common_fields).
Definition names_in_all (classes : list rpsl_class) : list string :=
  match classes with
  | [] => []
  | c :: classes => List.filter (λ n, forallb (λ c', bool_decide (n ∈ attrs_allowed c')) classes) (attrs_allowed c)
  end.
Definition rpsl_object_interface : type_fields :=
  dict_set "journal" "[RPSLJournalEntry]"
    (_dict_for_common_fields (meta_fields.*1 ++ names_in_all OBJECT_CLASS_MAPPING.*2)).
Definition rpsl_contact_interface : type_fields :=
  _dict_for_common_fields (meta_fields.*1 ++ names_in_all [RPSLPerson; RPSLRole]).
Definition interfaces (object_class : string) : list (string * type_fields) :=
  (if bool_decide (object_class ∈ ["person"; "role"]) then [("RPSLContact", rpsl_contact_interface)] else [])
  ++ [("RPSLObject", rpsl_object_interface)].

(** ** The text of the schema *)

Definition _generate_schema_str (name graphql_type : string) (fields : type_fields) (implements : list string) : string :=
  graphql_type +:+ " " +:+ name +:+ " "
  +:+ match implements with [] => "" | _ => "implements " +:+ join " & " implements +:+ " " end
  +:+ "{" +:+ NL
  +:+ concat_str ((λ f : string * string, "  " +:+ f.1 +:+ ": " +:+ f.2 +:+ NL) <$> fields)
  +:+ "}" +:+ NL +:+ NL.
Definition rpsl_object_schemas : list (string * string) :=
  (λ nc : string * rpsl_class,
    let name := class_name nc.1 in
    (name, _generate_schema_str name "type" (object_fields nc.2) (interfaces nc.1).*1)) <$> OBJECT_CLASS_MAPPING.
Definition rpsl_object_interface_schema : string := _generate_schema_str "RPSLObject" "interface" rpsl_object_interface [].
Definition rpsl_contact_schema : string := _generate_schema_str "RPSLContact" "interface" rpsl_contact_interface [].
Definition enum_schema (name : string) (values : list string) : string :=
  "enum " +:+ name +:+ " {" +:+ NL +:+ concat_str ((λ v, "    " +:+ v +:+ NL) <$> values) +:+ "}" +:+ NL +:+ NL.
Definition enums : string :=
  enum_schema "RPKIStatus" ["valid"; "invalid"; "not_found"]
  +:+ enum_schema "ScopeFilterStatus" ["in_scope"; "out_scope_as"; "out_scope_prefix"]
  +:+ enum_schema "RoutePreferenceStatus" ["visible"; "suppressed"].
(** The parameters of a query for objects. *)
Definition query_parameters : type_fields :=
  ((λ p, (snake_to_camel_case p, "[String!]")) <$>
     sorted_names (oset_update ["rpsl_pk"; "sources"; "object_class"] lookup_field_names))
  ++ [("ipExact", "IP"); ("ipLessSpecific", "IP"); ("ipLessSpecificOneLevel", "IP"); ("ipMoreSpecific", "IP"); ("ipAny", "IP");
      ("asn", "[ASN!]"); ("rpkiStatus", "[RPKIStatus!]"); ("scopeFilterStatus", "[ScopeFilterStatus!]");
      ("routePreferenceStatus", "[RoutePreferenceStatus!]"); ("textSearch", "String"); ("recordLimit", "Int");
      ("sqlTrace", "Boolean")].
Definition rpsl_query_fields : string := join ", " ((λ f : string * string, f.1 +:+ ": " +:+ f.2) <$> query_parameters).

(** ** Resolvers that the executable schema attaches ([schema_builder.py]) *)

Definition attached_objs : list string := ["adminCObjs"; "techCObjs"; "mbrsByRefObjs"; "memberOfObjs"; "membersObjs"].
Definition resolved_fields (c : rpsl_class) : list string :=
  ["mntByObjs"; "journal"] ++ List.filter (λ n, bool_decide (n ∈ (graphql_types c).*1)) attached_objs.
