(* ===== verification/GraphqlResolvers.v ===== *)
(** * Resolving GraphQL queries ([irrd/server/graphql/resolvers.py])

    Each resolver on a database: the look-up of RPSL objects, the objects that
    their attributes refer to, their journal, and the queries on the preload store.
    Ariadne parses a query, converts names from camel case and calls resolvers; the
    arguments that a query leaves out are [None].  The context of a request is the
    state, and so are the tables of RPSL classes, of which one resolver changes a
    list in place. *)
From S2P Require Import Prelude PyStr Conf Net Models Text Fields RpslObjects Database DatabaseHandler Queries Preload QueryResolver Nrtm Whois GraphqlSchema.

(** ** Values and rows *)

Inductive gql :=
| GStr (s : string)
| GInt (z : Z)
| GList (l : list string)
| GRpki (s : RPKIStatus)
| GScope (s : ScopeFilterStatus)
| GPref (s : RoutePreferenceStatus)
| GTime (t : Z)
| GNone.
Notation rpsl_result := (gmap string gql).
Definition opt_gql {A} (f : A → gql) (o : option A) : gql := match o with Some a => f a | None => GNone end.
Definition row_columns (r : rpsl_row) : list (string * gql) := [
  ("pk", GStr (r_pk r)); ("rpsl_pk", GStr (r_rpsl_pk r)); ("source", GStr (r_source r));
  ("object_class", GStr (r_object_class r)); ("object_text", GStr (r_object_text r));
  ("ip_version", opt_gql GInt (r_ip_version r)); ("ip_first", opt_gql GStr (r_ip_first r));
  ("ip_last", opt_gql GStr (r_ip_last r)); ("ip_size", opt_gql GInt (r_ip_size r));
  ("prefix_length", opt_gql GInt (r_prefix_length r)); ("prefix", opt_gql GStr (r_prefix r));
  ("asn_first", opt_gql GInt (r_asn_first r)); ("asn_last", opt_gql GInt (r_asn_last r));
  ("rpki_status", GRpki (r_rpki_status r)); ("scopefilter_status", GScope (r_scopefilter_status r));
  ("route_preference_status", GPref (r_route_preference_status r)); ("created", GTime (r_created r));
  ("updated", GTime (r_updated r))].
(** [RPSLDatabaseQuery().columns], which also has [parsed_data]. *)
Definition column_names : list string := [
  "pk"; "rpsl_pk"; "source"; "object_class"; "parsed_data"; "object_text"; "ip_version"; "ip_first"; "ip_last"; "ip_size";
  "prefix_length"; "prefix"; "asn_first"; "asn_last"; "rpki_status"; "scopefilter_status"; "route_preference_status";
  "created"; "updated"].
Definition row_items (columns : gset string) (r : rpsl_row) : list (string * gql) :=
  List.filter (λ kv : string * gql, bool_decide (kv.1 ∈ columns)) (row_columns r).

(** ** The selection of fields *)

Inductive selection :=
| Selected (name : string)
| InlineFragment (l : list selection)
| FragmentSpread (name : string).
(** [_collect_predicate_names] takes the name of a fragment for that of a field. *)
Fixpoint predicate_names (s : selection) : list string :=
  match s with
  | InlineFragment l => concat (predicate_names <$> l)
  | Selected name | FragmentSpread name => [name]
  end.
Definition _collect_predicate_names (l : list selection) : list string := concat (predicate_names <$> l).

Section Graphql.
Context `{IPyLib} (cfg : configuration) (collate_lt : string → string → bool).
Context (query_repr : query → string) (status_query_repr : list string → string).
Context (isoformat : Z → string) (status_updated : status_row → Z) (recursion_limit : nat).
(** Ariadne's conversion of names, and the order in which Python iterates over a set. *)
Context (convert_camel_case_to_snake : string → string) (set_order : list string → list string).
Context (client_ip : string) (preloader : memory) (d : database).

(** The selections of the nodes of the field that is resolved: only the first is looked at. *)
Definition _columns_for_graphql_selection (field_nodes : list (list selection)) : gset string :=
  let fields := convert_camel_case_to_snake <$> _collect_predicate_names (default [] (head field_nodes)) in
  let more field :=
    (if bool_decide (field ∈ column_names) then [field] else [])
    ++ (if String.eqb field "asn" then ["asn_first"; "asn_last"] else [])
    ++ (if String.eqb field "prefix" then ["ip_first"; "prefix_length"] else []) in
  list_to_set (["object_class"; "source"; "parsed_data"; "rpsl_pk"] ++ concat (more <$> fields)).

(** ** Results *)

Record gql_context := {
  gc_sql_trace : bool;
  gc_sql_queries : option (list string);
  gc_classes : list (string * rpsl_class);
}.
Notation G := (st gql_context).
Definition set_sql_trace (x : gql_context) : gql_context := {|
  gc_sql_trace := true; gc_sql_queries := gc_sql_queries x; gc_classes := gc_classes x |}.
Definition set_sql_queries (l : list string) (x : gql_context) : gql_context := {|
  gc_sql_trace := gc_sql_trace x; gc_sql_queries := Some l; gc_classes := gc_classes x |}.
Definition set_classes (l : list (string * rpsl_class)) (x : gql_context) : gql_context := {|
  gc_sql_trace := gc_sql_trace x; gc_sql_queries := gc_sql_queries x; gc_classes := l |}.

(** Values of [parsed_data], with hashes removed from those of [auth]; a text is
    iterated by its characters. *)
Definition auth_values (v : pdata) : pdata :=
  match v with
  | PList l => PList (remove_auth_hashes <$> l)
  | PStr s => PList (remove_auth_hashes <$> ((λ c, String c "") <$> String.list_ascii_of_string s))
  | PInt z => PInt z
  end.
Definition clean_parsed_data (m : gmap string pdata) : gmap string pdata :=
  map_imap (λ key v, Some (if String.eqb key "auth" then auth_values v else v)) m.
Definition gql_of (graphql_type : string) (v : pdata) : gql :=
  match v with
  | PList l => if String.eqb graphql_type "String" then GStr (join NL l) else GList l
  | PStr s => GStr s
  | PInt z => GInt z
  end.
Definition parsed_item (types : type_fields) (kv : string * pdata) : res (string * gql) :=
  match assoc kv.1 types with
  | None => Raise (KeyError kv.1)
  | Some t => Ok (snake_to_camel_case kv.1, gql_of t kv.2)
  end.
Definition text_and_prefix (columns : gset string) (r : rpsl_row) : list (string * gql) :=
  (if bool_decide ("object_text" ∈ columns) then [("objectText", GStr (remove_auth_hashes (r_object_text r)))] else [])
  ++ match r_ip_first r, r_prefix_length r with
     | Some first, Some n =>
         if bool_decide ("ip_first" ∈ columns) && bool_decide ("prefix_length" ∈ columns) && negb (n =? 0)%Z
         then [("prefix", GStr (first +:+ "/" +:+ str_of_Z n))] else []
     | _, _ => []
     end
  ++ match r_asn_first r with
     | Some asn =>
         if bool_decide ("asn_first" ∈ columns) && bool_decide ("asn_last" ∈ columns) && bool_decide (r_asn_last r = Some asn)
         then [("asn", GInt asn)] else []
     | None => []
     end.
(** One row as a result, by the types of the class of the object. *)
Definition graphql_result (classes : list (string * rpsl_class)) (columns : gset string) (r : rpsl_row) : res rpsl_result :=
  match assoc (r_object_class r) classes with
  | None => Raise (KeyError (r_object_class r))
  | Some c =>
      parsed ← res_map (parsed_item (graphql_types c)) (map_to_list (clean_parsed_data (r_parsed_data r)));
      Ok (foldl (λ m (kv : string * gql), <[kv.1 := kv.2]> m) ∅
            (((λ kv : string * gql, (snake_to_camel_case kv.1, kv.2)) <$> row_items columns r)
               ++ text_and_prefix columns r ++ parsed))
  end.
Definition _rpsl_db_query_to_graphql_out (columns : gset string) (q : query) : G (list rpsl_result) :=
  x ← st_get;
  _ ← (if gc_sql_trace x then st_modify (set_sql_queries (default [] (gc_sql_queries x) ++ [query_repr q])) else mret tt);
  st_lift (res_map (graphql_result (gc_classes x) columns) (execute_query collate_lt q (db_objects d))).

(** ** Objects *)

Record rpsl_kwargs := {
  kw_record_limit : option nat;
  kw_rpsl_pk : option (list string);
  kw_object_class : option (list string);
  kw_asn : option (list Z);
  kw_text_search : option string;
  kw_rpki_status : option (list RPKIStatus);
  kw_scope_filter_status : option (list ScopeFilterStatus);
  kw_route_preference_status : option (list RoutePreferenceStatus);
  kw_sources : option (list string);
  (** The other parameters that are attributes, in snake case. *)
  kw_lookups : list (string * list string);
  kw_ip_exact : option IP;
  kw_ip_less_specific : option IP;
  kw_ip_more_specific : option IP;
  kw_ip_less_specific_one_level : option IP;
  kw_ip_any : option IP;
  kw_sql_trace : option bool;
}.
Definition low_specificity (kw : rpsl_kwargs) : bool :=
  match kw_record_limit kw, kw_rpsl_pk kw, kw_asn kw, kw_text_search kw, kw_lookups kw,
        kw_ip_exact kw, kw_ip_less_specific kw, kw_ip_more_specific kw, kw_ip_less_specific_one_level kw, kw_ip_any kw with
  | None, None, None, None, [], None, None, None, None, None =>
      negb (bool_decide (default [] (kw_rpki_status kw) ∈ [[rpki_valid]; [rpki_invalid]]))
  | _, _, _, _, _, _, _, _, _, _ => false
  end.
(** [if key in kwargs: query.method(kwargs[key])]. *)
Definition if_given {A} (o : option A) (f : A → query → res query) (q : query) : res query :=
  match o with Some a => f a q | None => Ok q end.
Definition lookup_filter (kv : string * list string) (q : query) : res query :=
  let attr := replace_all "_" "-" kv.1 in
  if bool_decide (attr ∈ lookup_field_names) then lookup_attrs_in q [attr] (Some <$> kv.2) else Ok q.
Fixpoint lookup_filters (l : list (string * list string)) (q : query) : res query :=
  match l with
  | [] => Ok q
  | kv :: l => q ← lookup_filter kv q; lookup_filters l q
  end.
Definition rpsl_objects_query (kw : rpsl_kwargs) : res query :=
  let q := RPSLDatabaseQuery false false in
  let q := match kw_record_limit kw with Some n => limit q n | None => q end in
  q ← if_given (kw_rpsl_pk kw) (λ l q, rpsl_pks q l) q;
  q ← if_given (kw_object_class kw) (λ l q, object_classes q l) q;
  q ← if_given (kw_asn kw) (λ l q, asns_first q l) q;
  q ← if_given (kw_text_search kw) (λ s q, text_search cfg q s true) q;
  q ← rpki_status q (default [rpki_not_found; rpki_valid] (kw_rpki_status kw));
  q ← scopefilter_status q (default [in_scope] (kw_scope_filter_status kw));
  q ← route_preference_status q (default [rp_visible] (kw_route_preference_status kw));
  manager ← (match kw_sources kw with
             | Some l => set_query_sources_of (Some l) (QuerySourceManager_init cfg)
             | None => Ok (QuerySourceManager_init cfg)
             end);
  q ← sources q (sources_resolved cfg manager);
  q ← lookup_filters (kw_lookups kw) q;
  q ← if_given (kw_ip_exact kw) (λ a q, ip_exact q a) q;
  q ← if_given (kw_ip_less_specific kw) (λ a q, ip_less_specific cfg q a) q;
  q ← if_given (kw_ip_more_specific kw) (λ a q, ip_more_specific cfg q a) q;
  q ← if_given (kw_ip_less_specific_one_level kw) (λ a q, ip_less_specific_one_level q a) q;
  if_given (kw_ip_any kw) (λ a q, ip_any cfg q a) q.
Definition resolve_rpsl_objects (kw : rpsl_kwargs) (field_nodes : list (list selection)) : G (list rpsl_result) :=
  if low_specificity kw then st_raise (ValueError "Your query must be more specific.")
  else
    _ ← (if default false (kw_sql_trace kw) then st_modify set_sql_trace else mret tt);
    q ← st_lift (rpsl_objects_query kw);
    _rpsl_db_query_to_graphql_out (_columns_for_graphql_selection field_nodes) q.

(** ** What an object refers to *)

(** [obj[key]] for a text. *)
Definition text_at (key : string) (obj : rpsl_result) : res string :=
  match obj !! key with
  | Some (GStr s) => Ok s
  | Some _ => Raise AttributeError
  | None => Raise (KeyError key)
  end.
(** The keys in an attribute, [None] for what is not true. *)
Definition referred_pks (pk_field : string) (obj : rpsl_result) : res (list string) :=
  match obj !! pk_field with
  | None | Some GNone => Ok []
  | Some (GStr s) => Ok (if String.eqb s "" then [] else [s])
  | Some (GList l) => Ok l
  | Some _ => Raise AttributeError
  end.
Definition _resolve_subquery (obj : rpsl_result) (field_nodes : list (list selection)) (classes : list string) (pk_field : string)
    (sticky_source : bool) : G (list rpsl_result) :=
  pks ← st_lift (referred_pks pk_field obj);
  match pks with
  | [] => mret []
  | _ =>
      q ← st_lift (q ← object_classes (RPSLDatabaseQuery false false) classes; rpsl_pks q pks);
      q ← (if sticky_source then source ← st_lift (text_at "source" obj); st_lift (sources q [source]) else mret q);
      _rpsl_db_query_to_graphql_out (_columns_for_graphql_selection field_nodes) q
  end.
Definition resolve_rpsl_object_mnt_by_objs obj nodes := _resolve_subquery obj nodes ["mntner"] "mntBy" true.
Definition resolve_rpsl_object_adminc_objs obj nodes := _resolve_subquery obj nodes ["role"; "person"] "adminC" true.
Definition resolve_rpsl_object_techc_objs obj nodes := _resolve_subquery obj nodes ["role"; "person"] "techC" true.
Definition resolve_rpsl_object_members_by_ref_objs obj nodes := _resolve_subquery obj nodes ["mntner"] "mbrsByRef" true.
(** [OBJECT_CLASS_MAPPING[object_class].fields[name].referring]. *)
Definition referring_at (classes : list (string * rpsl_class)) (object_class name : string) : res (list string) :=
  match assoc object_class classes with
  | None => Raise (KeyError object_class)
  | Some c =>
      match assoc name (c_fields c) with
      | None => Raise (KeyError name)
      | Some f =>
          match f_kind f with
          | RPSLReferenceField referring _ | RPSLReferenceListField referring _ _ => Ok referring
          | _ => Raise AttributeError
          end
      end
  end.
Definition resolve_rpsl_object_member_of_objs (obj : rpsl_result) (nodes : list (list selection)) : G (list rpsl_result) :=
  x ← st_get;
  object_class ← st_lift (text_at "objectClass" obj);
  sub_object_classes ← st_lift (referring_at (gc_classes x) object_class "member-of");
  _resolve_subquery obj nodes sub_object_classes "memberOf" true.
(** [list.remove], and the tables after it was called on the list of a field. *)
Fixpoint remove_first (s : string) (l : list string) : list string :=
  match l with
  | [] => []
  | x :: l => if String.eqb x s then l else x :: remove_first s l
  end.
Definition with_referring (referring : list string) (f : field) : field :=
  mk_field (f_optional f) (f_multiple f) (f_primary_key f) (f_lookup_key f)
    (match f_kind f with
     | RPSLReferenceField _ s => RPSLReferenceField referring s
     | RPSLReferenceListField _ s a => RPSLReferenceListField referring s a
     | k => k
     end).
Definition update_referring (object_class name : string) (referring : list string) (classes : list (string * rpsl_class))
  : list (string * rpsl_class) :=
  (λ nc : string * rpsl_class,
     if String.eqb nc.1 object_class then
       (nc.1, {| c_fields := (λ nf : string * field, if String.eqb nf.1 name then (nf.1, with_referring referring nf.2) else nf)
                               <$> c_fields nc.2;
                 c_discarded_fields := c_discarded_fields nc.2; c_is_route := c_is_route nc.2; c_is_set := c_is_set nc.2 |})
     else nc) <$> classes.
Definition resolve_rpsl_object_members_objs (obj : rpsl_result) (nodes : list (list selection)) : G (list rpsl_result) :=
  x ← st_get;
  object_class ← st_lift (text_at "objectClass" obj);
  referring ← st_lift (referring_at (gc_classes x) object_class "members");
  let sub_object_classes := remove_first "inet-rtr" (remove_first "aut-num" referring) in
  _ ← st_modify (set_classes (update_referring object_class "members" sub_object_classes (gc_classes x)));
  _resolve_subquery obj nodes sub_object_classes "members" false.

(** ** The journal of an object *)

Record journal_result := {
  jr_rpsl_pk : string;
  jr_source : string;
  jr_serial_nrtm : Z;
  jr_serial_global : Z;
  jr_operation : string;
  jr_origin : string;
  jr_object_class : string;
  jr_object_text : string;
  jr_timestamp : Z;
}.
(** The [name] of the enumerations. *)
Definition operation_name (o : DatabaseOperation) : string :=
  match o with add_or_update => "add_or_update" | delete_op => "delete" end.
Definition origin_name (o : JournalEntryOrigin) : string :=
  match o with
  | jo_unknown => "unknown" | jo_mirror => "mirror" | jo_synthetic_nrtm => "synthetic_nrtm" | jo_pseudo_irr => "pseudo_irr"
  | jo_auth_change => "auth_change" | jo_rpki_status => "rpki_status" | jo_scope_filter => "scope_filter"
  | jo_suspension => "suspension" | jo_route_preference => "route_preference"
  end.
Definition journal_response (j : journal_row) : journal_result := {|
  jr_rpsl_pk := j_rpsl_pk j; jr_source := j_source j; jr_serial_nrtm := j_serial_nrtm j; jr_serial_global := j_serial_global j;
  jr_operation := operation_name (j_operation j); jr_origin := origin_name (j_origin j); jr_object_class := j_object_class j;
  jr_object_text := remove_auth_hashes (j_object_text j); jr_timestamp := j_timestamp j |}.
(** [RPSLDatabaseJournalQuery().sources([source]).rpsl_pk(rpsl_pk)]. *)
Definition journal_of_object (source rpsl_pk : string) : list journal_row :=
  sort_serial (List.filter (λ j, bool_decide (j_rpsl_pk j = strip (str_upper rpsl_pk))) (journal_of (strip (str_upper source)) d)).
Definition resolve_rpsl_object_journal (obj : rpsl_result) : res (list journal_result) :=
  source ← text_at "source" obj;
  permitted ← is_client_permitted cfg client_ip ("sources." +:+ source +:+ ".nrtm_access_list") true;
  if negb permitted then Raise (GenericException ("Access to journal denied for source " +:+ source))
  else rpsl_pk ← text_at "rpslPk" obj; Ok (journal_response <$> journal_of_object source rpsl_pk).

(** ** Queries on the status and the preload store *)

(** A resolver makes a new [QueryResolver]. *)
Definition with_new_resolver {A} (m : st resolver A) : res A := (m (QueryResolver_init cfg)).2.
Definition camel_case_data (nd : string * list (string * pyval)) : list (string * pyval) :=
  foldl (λ acc (kv : string * pyval), dict_set (snake_to_camel_case kv.1) kv.2 acc) (dict_set "source" (VStr nd.1) nd.2) nd.2.
Definition resolve_database_status (sources : option (list string)) : res (list (list (string * pyval))) :=
  status ← with_new_resolver (database_status cfg collate_lt status_query_repr isoformat status_updated d sources);
  Ok (camel_case_data <$> (status : list (string * list (string * pyval)))).
Fixpoint asn_prefixes (asns : list Z) (version : option Z) : st resolver (list (Z * list string)) :=
  match asns with
  | [] => mret []
  | asn :: asns =>
      prefixes ← routes_for_origin cfg preloader ("AS" +:+ str_of_Z asn) version;
      others ← asn_prefixes asns version;
      mret ((asn, prefixes) :: others)
  end.
Definition resolve_asn_prefixes (asns : list Z) (version : option Z) (sources : option (list string))
  : res (list (Z * list string)) :=
  with_new_resolver (_ ← set_query_sources sources; asn_prefixes asns version).
(** Sets of names in upper case, in the order in which they are iterated. *)
Definition upper_set (l : list string) : list string := set_order (oset_update [] (str_upper <$> l)).
Fixpoint as_set_prefixes (set_names excluded : list string) (version : option Z) : st resolver (list (string * list string)) :=
  match set_names with
  | [] => mret []
  | set_name :: set_names =>
      prefixes ← routes_for_as_set cfg recursion_limit preloader set_name version excluded;
      others ← as_set_prefixes set_names excluded version;
      mret ((set_name, prefixes) :: others)
  end.
(** What was traced, when [sql_trace] is asked for, comes with the result. *)
Definition traced {A} (trace : bool) (m : st resolver A) : st resolver (A * option (list string)) :=
  _ ← (if trace then enable_sql_trace else mret tt);
  a ← m;
  if trace then queries ← retrieve_sql_trace; mret (a, Some queries) else mret (a, None).
Definition resolve_as_set_prefixes (set_names : list string) (sources : option (list string)) (version : option Z)
    (exclude_sets : option (list string)) (sql_trace : bool) : res (list (string * list string) * option (list string)) :=
  with_new_resolver (traced sql_trace
    (_ ← set_query_sources sources;
     as_set_prefixes (upper_set set_names) (upper_set (default [] exclude_sets)) version)).
Fixpoint recursive_set_members (set_names excluded : list string) (depth : Z)
  : st resolver (list (string * string * list string)) :=
  match set_names with
  | [] => mret []
  | set_name :: set_names =>
      results ← members_for_set_per_source cfg collate_lt query_repr recursion_limit preloader d set_name excluded depth true;
      others ← recursive_set_members set_names excluded depth;
      mret (((λ sm : string * list string, (set_name, sm.1, sm.2)) <$> results) ++ others)
  end.
Definition resolve_recursive_set_members (set_names : list string) (depth : Z) (sources : option (list string))
    (exclude_sets : option (list string)) (sql_trace : bool) : res (list (string * string * list string) * option (list string)) :=
  with_new_resolver (traced sql_trace
    (_ ← set_query_sources sources;
     recursive_set_members (upper_set set_names) (upper_set (default [] exclude_sets)) depth)).
End Graphql.

(** ** Errors ([extensions.py])

    [original] tells of an error that a resolver raised whether it is a [GraphQLError];
    it is [None] for an error of GraphQL itself. *)
Definition error_formatter (original : option bool) (debug : bool) (message : string) : string :=
  if debug || default true original then message else "Internal server error".
