(* ===== verification/GraphqlTheory.v ===== *)
(** * What GraphQL answers

    Every type of the schema implements its interfaces; answers do not depend on
    password hashes; without status arguments only visible objects are found; and
    the journal of an object is only for clients with access to NRTM. *)
From S2P Require Import Prelude PyStr Conf Net Models Text Fields RpslObjects Database DatabaseHandler Queries Preload QueryResolver QueriesTheory Nrtm Whois GraphqlSchema GraphqlResolvers.

(** ** The schema *)

Definition has_fields (i d : type_fields) : bool :=
  forallb (λ ft : string * string, bool_decide (assoc ft.1 d = Some ft.2)) i.
Definition implements_all (nc : string * rpsl_class) : bool :=
  forallb (λ i : string * type_fields, has_fields i.2 (object_fields nc.2)) (interfaces nc.1).
Lemma all_implemented : forallb implements_all OBJECT_CLASS_MAPPING = true.
Proof. vm_compute. reflexivity. Qed.
(** The type that is generated for each RPSL class has every field of the
    interfaces it implements, with the same type. *)
Theorem schema_implements_interfaces object_class c i fields f t :
  (object_class, c) ∈ OBJECT_CLASS_MAPPING → (i, fields) ∈ interfaces object_class → (f, t) ∈ fields →
  assoc f (object_fields c) = Some t.
Proof.
  intros Hc Hi Hf. pose proof all_implemented as Hall. rewrite forallb_forall in Hall.
  specialize (Hall _ (proj1 (list_elem_of_In _ _) Hc)). unfold implements_all in Hall. rewrite forallb_forall in Hall.
  specialize (Hall _ (proj1 (list_elem_of_In _ _) Hi)). unfold has_fields in Hall. rewrite forallb_forall in Hall.
  specialize (Hall _ (proj1 (list_elem_of_In _ _) Hf)). by apply bool_decide_eq_true in Hall.
Qed.

(** ** Lists that look the same through a function *)

Section Alike.
Context {A B : Type} (f : A → B).
Definition alike (l l' : list A) : Prop := f <$> l = f <$> l'.
Lemma alike_cons a l a' l' : alike (a :: l) (a' :: l') → f a = f a' ∧ alike l l'.
Proof. intros E. split; [exact (f_equal (λ l, default (f a) (head l)) E)|exact (f_equal (@tail _) E)]. Qed.
Lemma alike_filter p l l' : (∀ a a', f a = f a' → p a = p a') → alike l l' → alike (List.filter p l) (List.filter p l').
Proof.
  intros Hp. revert l'. induction l as [|a l IH]; intros [|a' l'] E; try done. apply alike_cons in E as [Ea El].
  cbn. rewrite (Hp a a' Ea). destruct (p a'); [|by apply IH]. unfold alike. rewrite !fmap_cons, Ea. f_equal. by apply IH.
Qed.
Lemma alike_map {C} (g : A → C) l l' : (∀ a a', f a = f a' → g a = g a') → alike l l' → g <$> l = g <$> l'.
Proof.
  intros Hg. revert l'. induction l as [|a l IH]; intros [|a' l'] E; try done. apply alike_cons in E as [Ea El].
  cbn. f_equal; [by apply Hg|by apply IH].
Qed.
End Alike.

(** ** Rows without their secrets *)

Definition public (r : rpsl_row) : rpsl_row := {|
  r_pk := r_pk r; r_rpsl_pk := r_rpsl_pk r; r_source := r_source r; r_object_class := r_object_class r;
  r_parsed_data := clean_parsed_data (r_parsed_data r); r_object_text := remove_auth_hashes (r_object_text r);
  r_ip_version := r_ip_version r; r_ip_first := r_ip_first r; r_ip_last := r_ip_last r; r_ip_size := r_ip_size r;
  r_prefix := r_prefix r; r_prefix_length := r_prefix_length r; r_asn_first := r_asn_first r; r_asn_last := r_asn_last r;
  r_rpki_status := r_rpki_status r; r_scopefilter_status := r_scopefilter_status r;
  r_route_preference_status := r_route_preference_status r; r_created := r_created r; r_updated := r_updated r |}.
Definition public_entry (j : journal_row) : journal_row := {|
  j_serial_global := j_serial_global j; j_rpsl_pk := j_rpsl_pk j; j_source := j_source j; j_origin := j_origin j;
  j_serial_nrtm := j_serial_nrtm j; j_operation := j_operation j; j_object_class := j_object_class j;
  j_object_text := remove_auth_hashes (j_object_text j); j_timestamp := j_timestamp j |}.

Lemma clean_lookup m k : k ≠ "auth" → clean_parsed_data m !! k = m !! k.
Proof.
  intros Hk. unfold clean_parsed_data. rewrite map_lookup_imap. apply String.eqb_neq in Hk.
  destruct (m !! k); cbn; [by rewrite Hk|done].
Qed.
(** A condition that does not look at secrets. *)
Definition blind {A} (f : rpsl_row → A) : Prop := ∀ r r', public r = public r' → f r = f r'.
Lemma blind_public {A} (f : rpsl_row → A) : (∀ r, f (public r) = f r) → blind f.
Proof. intros Hf r r' E. by rewrite <- (Hf r), <- (Hf r'), E. Qed.
Lemma blind_attr_matches attr v : attr ≠ "auth" → blind (λ r, attr_matches r attr v).
Proof. intros Ha. apply blind_public. intros r. unfold attr_matches. cbn. by rewrite clean_lookup. Qed.
Lemma blind_or f g : blind f → blind g → blind (λ r, f r || g r).
Proof. intros Hf Hg r r' E. by rewrite (Hf r r' E), (Hg r r' E). Qed.
Lemma blind_existsb {A} (f : A → rpsl_row → bool) l : (∀ a, a ∈ l → blind (f a)) → blind (λ r, existsb (λ a, f a r) l).
Proof.
  intros Hf r r' E. induction l as [|a l IH]; [done|]. cbn.
  rewrite (Hf a ltac:(by left) r r' E), IH; [done|]. intros b Hb. apply Hf. by right.
Qed.
Lemma not_auth n : n ∈ lookup_field_names → n ≠ "auth".
Proof. intros Hn ->. revert Hn. apply (bool_decide_unpack _). vm_compute. exact I. Qed.

(** ** Queries that do not look at secrets *)

Section Blind.
Context `{IPyLib} (cfg : configuration) (collate_lt : string → string → bool).
(** What building a query may add to it. *)
Record grows (q q' : query) : Prop := {
  grows_where : ∃ fs, q_where q' = q_where q ++ fs ∧ Forall blind fs;
  grows_ordering : q_enable_ordering q' = q_enable_ordering q;
  grows_one_level : ∀ fs, q_one_level q' = Some fs →
    q_one_level q = Some fs ∨ ∃ gs, fs = q_where q ++ gs ∧ Forall blind gs;
}.
#[export] Instance grows_preorder : PreOrder grows.
Proof using Type.
  split.
  - intros q. split; [by exists []; rewrite app_nil_r|done|by left].
  - intros q q1 q2 [(fs & Hw & Hfs) Ho Hone] [(fs1 & Hw1 & Hfs1) Ho1 Hone1]. split.
    + exists (fs ++ fs1). split; [by rewrite Hw1, Hw, app_assoc|by apply Forall_app].
    + by rewrite Ho1.
    + intros l [Hl|(gs & -> & Hgs)]%Hone1; [by apply Hone|]. right. exists (fs ++ gs).
      split; [by rewrite Hw, app_assoc|by apply Forall_app].
Qed.
Lemma grows_filter q f q' : _filter q f = Ok q' → blind f → grows q q'.
Proof using Type.
  unfold _filter, _check_query_frozen. destruct (q_frozen q); [done|]. intros [= <-] Hf.
  split; [|done|by left]. exists [f]. split; [done|]. by constructor.
Qed.
Ltac simple := intros E; apply grows_filter in E; [destruct E as [? ? ?]; by split|by apply blind_public].
Lemma grows_sources q l q' : sources q l = Ok q' → grows q q'.
Proof using Type. unfold sources. simple. Qed.
Lemma grows_object_classes q l q' : object_classes q l = Ok q' → grows q q'.
Proof using Type. unfold object_classes. simple. Qed.
Lemma grows_rpsl_pks q l q' : rpsl_pks q l = Ok q' → grows q q'.
Proof using Type. unfold rpsl_pks. simple. Qed.
Lemma grows_asns_first q l q' : asns_first q l = Ok q' → grows q q'.
Proof using Type. unfold asns_first. simple. Qed.
Lemma grows_rpki q l q' : rpki_status q l = Ok q' → grows q q'.
Proof using Type. unfold rpki_status. simple. Qed.
Lemma grows_scopefilter q l q' : scopefilter_status q l = Ok q' → grows q q'.
Proof using Type. unfold scopefilter_status. simple. Qed.
Lemma grows_route_preference q l q' : route_preference_status q l = Ok q' → grows q q'.
Proof using Type. unfold route_preference_status. simple. Qed.
Lemma grows_ip_exact q a q' : ip_exact q a = Ok q' → grows q q'.
Proof using Type. unfold ip_exact. simple. Qed.
Lemma grows_less_specific q a q' : ip_less_specific cfg q a = Ok q' → grows q q'.
Proof using Type. unfold ip_less_specific. destruct (_prefix_query_permitted _ _); simple. Qed.
Lemma grows_more_specific q a q' : ip_more_specific cfg q a = Ok q' → grows q q'.
Proof using Type. unfold ip_more_specific. destruct (_prefix_query_permitted _ _); simple. Qed.
Lemma grows_ip_any q a q' : ip_any cfg q a = Ok q' → grows q q'.
Proof using Type. unfold ip_any. destruct (_prefix_query_permitted _ _); simple. Qed.
Lemma grows_one_less q a q' : ip_less_specific_one_level q a = Ok q' → grows q q'.
Proof using Type.
  unfold ip_less_specific_one_level, _check_query_frozen. destruct (q_frozen q); [done|]. intros [= <-].
  assert (Forall blind [strictly_less_range a]) as Hf by (constructor; [by apply blind_public|constructor]).
  split; [eauto|done|]. intros fs [= <-]. right. eauto.
Qed.
Lemma grows_text_search q s b q' : text_search cfg q s b = Ok q' → grows q q'.
Proof using Type.
  assert (blind (text_filter s)) as Htext.
  { unfold text_filter. repeat apply blind_or; try by apply blind_public.
    all: apply blind_public; intros r; unfold name_matches; cbn; by rewrite clean_lookup. }
  unfold text_search, _check_query_frozen. destruct (q_frozen q); [done|]. cbn [mbind res_bind]. destruct b.
  - destruct (parse_as_number _ _ _ _) as [[t asn]|].
    + destruct (object_classes q _) as [q1|] eqn:E1; [|done]. cbn [mbind res_bind]. intros E2.
      transitivity q1; [by eapply grows_object_classes|]. revert E2. unfold asn_less_specific. simple.
    + destruct (ip_of 0 s); [|by apply grows_less_specific]. intros. by eapply grows_filter.
  - intros. by eapply grows_filter.
Qed.
Lemma grows_lookup_attrs q names values q' : lookup_attrs_in q names values = Ok q' → grows q q'.
Proof using Type.
  unfold lookup_attrs_in. destruct (List.find _ _) eqn:Hfind; [done|].
  unfold _check_query_frozen. destruct (q_frozen q); [done|]. cbn [mbind res_bind].
  assert (∀ n, n ∈ str_lower <$> names → n ≠ "auth") as Hne.
  { intros n Hn. apply not_auth. apply list_elem_of_In in Hn. pose proof (List.find_none _ _ Hfind n Hn) as E.
    cbn beta in E. apply negb_false_iff in E. by apply bool_decide_eq_true in E. }
  destruct (str_lower <$> names) as [|n l]; [by intros [= <-]|]. destruct values as [|v values]; [by intros [= <-]|].
  intros E. eapply grows_filter; [exact E|]. apply blind_existsb. intros m Hm. apply blind_existsb. intros w _.
  apply blind_attr_matches. by apply Hne.
Qed.
Lemma grows_if_given {A} (o : option A) f q q' :
  (∀ a q1, f a q = Ok q1 → grows q q1) → if_given o f q = Ok q' → grows q q'.
Proof using Type. destruct o as [a|]; cbn; [eauto|by intros _ [= <-]]. Qed.
Lemma grows_lookups l q q' : lookup_filters l q = Ok q' → grows q q'.
Proof using Type.
  revert q. induction l as [|kv l IH]; intros q; [by intros [= <-]|]. cbn [lookup_filters].
  destruct (lookup_filter kv q) as [q1|] eqn:E1; [|done]. cbn [mbind res_bind]. intros E2%IH.
  transitivity q1; [|done]. revert E1. unfold lookup_filter. case_bool_decide; [|by intros [= <-]].
  apply grows_lookup_attrs.
Qed.
(** A query that does not look at secrets. *)
Definition blind_query (q : query) : Prop :=
  Forall blind (q_where q) ∧ (∀ fs, q_one_level q = Some fs → Forall blind fs) ∧ q_enable_ordering q = false.
Lemma grows_blind q q' : grows q q' → blind_query q → blind_query q'.
Proof using Type.
  intros [(fs & Hw & Hfs) Ho Hone] (Hq & Hqone & Hqo). split_and!.
  - rewrite Hw. by apply Forall_app.
  - intros l [Hl|(gs & -> & Hgs)]%Hone; [by apply Hqone|by apply Forall_app].
  - by rewrite Ho.
Qed.

(** *** Running them *)

Notation same_rows := (alike public).
Lemma blind_holds fs : Forall blind fs → blind (holds fs).
Proof using Type. intros Hfs r r' E. unfold holds. induction Hfs as [|f fs Hf _ IH]; [done|]. cbn. by rewrite (Hf r r' E), IH. Qed.
Lemma selected_same q l l' : blind_query q → same_rows l l' → same_rows (selected q l) (selected q l').
Proof using Type.
  intros (Hw & Hone & _) Hl. unfold selected.
  assert (∀ r, one_level_ok q l r = one_level_ok q l' r) as Hok.
  { intros r. unfold one_level_ok. destruct (q_one_level q) as [fs|] eqn:Eq; [|done]. do 2 f_equal.
    apply (alike_map public); [by apply blind_public|]. apply alike_filter; [|done]. apply blind_holds. by apply Hone. }
  rewrite (List.filter_ext _ (λ r, holds (q_where q) r && one_level_ok q l' r)) by (intros r; by rewrite Hok).
  apply alike_filter; [|done]. intros r r' E. rewrite (blind_holds _ Hw r r' E). f_equal.
  unfold one_level_ok. destruct (q_one_level q); [|done]. f_equal. by apply (f_equal r_ip_size) in E.
Qed.
Lemma execute_same q l l' : blind_query q → same_rows l l' → same_rows (execute_query collate_lt q l) (execute_query collate_lt q l').
Proof using Type.
  intros Hq Hl. pose proof (selected_same q l l' Hq Hl) as Hs. destruct Hq as (_ & _ & Ho).
  unfold execute_query, finalise_statement. rewrite Ho. unfold alike in *. destruct (q_limit q) as [n|]; [|done].
  by rewrite !fmap_take, Hs.
Qed.
End Blind.

(** ** Answers *)

Section Answers.
Context `{IPyLib} (cfg : configuration) (collate_lt : string → string → bool).
Context (query_repr : query → string) (convert_camel_case_to_snake : string → string) (client_ip : string).
Notation same_rows := (alike public).
Notation run := (_rpsl_db_query_to_graphql_out collate_lt query_repr).
Notation subquery := (_resolve_subquery collate_lt query_repr convert_camel_case_to_snake).

(** The columns of two rows agree but for the text, which the cleaned text replaces. *)
Definition column_like (a b : string * gql) : Prop := a.1 = b.1 ∧ (a.1 = "object_text" ∨ a.2 = b.2).
Lemma row_columns_like r r' : public r = public r' → Forall2 column_like (row_columns r) (row_columns r').
Proof using Type.
  intros [=]. unfold row_columns.
  repeat match goal with
  | |- Forall2 _ (_ :: _) (_ :: _) => apply List.Forall2_cons; [split; [reflexivity|first [left; reflexivity|right; cbn [snd]; congruence]]|]
  end.
  constructor.
Qed.
Lemma row_items_like columns r r' : public r = public r' → Forall2 column_like (row_items columns r) (row_items columns r').
Proof using Type.
  intros E. unfold row_items. induction (row_columns_like r r' E) as [|a b l l' [Hk Hv] _ IH]; [constructor|].
  cbn [List.filter]. rewrite <- Hk. destruct (bool_decide _); [|done]. by constructor.
Qed.
Lemma row_items_same columns r r' :
  "object_text" ∉ columns → public r = public r' → row_items columns r = row_items columns r'.
Proof using Type.
  intros Hc E. unfold row_items. induction (row_columns_like r r' E) as [|a b l l' [Hk Hv] _ IH]; [done|].
  cbn [List.filter]. rewrite <- Hk. destruct (bool_decide (a.1 ∈ columns)) eqn:Ha; [|done].
  apply bool_decide_eq_true in Ha. rewrite IH. f_equal. destruct Hv as [Hv|Hv]; [by rewrite Hv in Ha|].
  destruct a, b; cbn in *; by subst.
Qed.
Notation put := (λ m (kv : string * gql), <[kv.1 := kv.2]> m).
Notation camel := (λ kv : string * gql, (snake_to_camel_case kv.1, kv.2)).
Lemma put_all_like (l l' : list (string * gql)) (m m' : rpsl_result) :
  Forall2 column_like l l' → delete "objectText" m = delete "objectText" m' →
  delete "objectText" (foldl put m (camel <$> l)) = delete "objectText" (foldl put m' (camel <$> l')).
Proof using Type.
  intros Hl. revert m m'. induction Hl as [|a b l l' [Hk Hv] _ IH]; intros m m' Hm; [done|]. cbn. apply IH.
  rewrite <- Hk. destruct Hv as [Hv|Hv].
  - rewrite Hv. change (snake_to_camel_case "object_text") with "objectText". by rewrite !delete_insert_eq.
  - rewrite Hv. destruct (decide (snake_to_camel_case a.1 = "objectText")) as [->|Hne]; [by rewrite !delete_insert_eq|].
    by rewrite !delete_insert_ne, Hm.
Qed.
Lemma put_text (m m' : rpsl_result) v :
  delete "objectText" m = delete "objectText" m' → <["objectText" := v]> m = <["objectText" := v]> m'.
Proof using Type. intros E. by rewrite <- (insert_delete_eq m "objectText"), <- (insert_delete_eq m' "objectText"), E. Qed.
Lemma put_items columns r r' (l : list (string * gql)) v : public r = public r' →
  foldl put (∅ : rpsl_result) ((camel <$> row_items columns r) ++ ("objectText", v) :: l)
  = foldl put ∅ ((camel <$> row_items columns r') ++ ("objectText", v) :: l).
Proof using Type.
  intros E. rewrite !foldl_app. cbn [foldl fst snd].
  by rewrite (put_text _ _ v (put_all_like _ _ ∅ ∅ (row_items_like columns r r' E) eq_refl)).
Qed.
Lemma blind_text_and_prefix columns : blind (text_and_prefix columns).
Proof using Type.
  intros r r' E. unfold text_and_prefix.
  rewrite (f_equal r_object_text E : remove_auth_hashes (r_object_text r) = remove_auth_hashes (r_object_text r')).
  rewrite (f_equal r_ip_first E : r_ip_first r = r_ip_first r'), (f_equal r_prefix_length E : r_prefix_length r = r_prefix_length r').
  rewrite (f_equal r_asn_first E : r_asn_first r = r_asn_first r'), (f_equal r_asn_last E : r_asn_last r = r_asn_last r').
  reflexivity.
Qed.
Lemma blind_graphql_result classes columns : blind (graphql_result classes columns).
Proof using Type.
  intros r r' E. unfold graphql_result.
  assert (r_object_class r = r_object_class r') as <- by (by apply (f_equal r_object_class) in E).
  assert (clean_parsed_data (r_parsed_data r) = clean_parsed_data (r_parsed_data r')) as <- by (by apply (f_equal r_parsed_data) in E).
  destruct (assoc _ classes) as [c|]; [|done]. destruct (res_map _ _) as [parsed|]; [|done]. cbn [mbind res_bind].
  rewrite <- (blind_text_and_prefix columns r r' E). destruct (decide ("object_text" ∈ columns)) as [Hc|Hc].
  - unfold text_and_prefix. rewrite bool_decide_eq_true_2 by exact Hc. cbn [app]. by rewrite (put_items columns r r').
  - by rewrite (row_items_same columns r r').
Qed.
Lemma run_same d d' columns q x :
  same_rows (db_objects d) (db_objects d') → blind_query q → run d columns q x = run d' columns q x.
Proof using Type.
  intros Hd Hq. unfold _rpsl_db_query_to_graphql_out. unfold mbind, st_bind, st_get. cbn. f_equal.
  pose proof (execute_same collate_lt q _ _ Hq Hd) as Hs.
  assert (∀ classes l l', same_rows l l' → res_map (graphql_result classes columns) l = res_map (graphql_result classes columns) l') as Hmap.
  { intros classes l. induction l as [|r l IH]; intros [|r' l'] Hl; try done. apply alike_cons in Hl as [Er El]. cbn.
    by rewrite (blind_graphql_result classes columns r r' Er), (IH l' El). }
  destruct (gc_sql_trace x); cbn; by rewrite (Hmap _ _ _ Hs).
Qed.

Lemma initial_blind : blind_query (RPSLDatabaseQuery false false).
Proof using Type. split_and!; [constructor|by intros fs|done]. Qed.
Ltac steps E :=
  repeat match type of E with
  | (?m ≫= _) = Ok _ =>
      let q := fresh "q" in let Eq := fresh "Eq" in
      destruct m as [q|] eqn:Eq; [|done]; cbn [mbind res_bind] in E
  end.
Definition query_manager (kw : rpsl_kwargs) : res QuerySourceManager :=
  match kw_sources kw with
  | Some l => set_query_sources_of (Some l) (QuerySourceManager_init cfg)
  | None => Ok (QuerySourceManager_init cfg)
  end.
(** The conditions that every query for objects has. *)
Definition kept (kw : rpsl_kwargs) (manager : QuerySourceManager) (r : rpsl_row) : bool :=
  bool_decide (r_rpki_status r ∈ default [rpki_not_found; rpki_valid] (kw_rpki_status kw))
  && bool_decide (r_scopefilter_status r ∈ default [in_scope] (kw_scope_filter_status kw))
  && bool_decide (r_route_preference_status r ∈ default [rp_visible] (kw_route_preference_status kw))
  && bool_decide (r_source r ∈ ((λ s, strip (str_upper s)) <$> sources_resolved cfg manager)).
Lemma filter_where q f q' r : _filter q f = Ok q' → holds (q_where q') r = holds (q_where q) r && f r.
Proof using Type.
  unfold _filter, _check_query_frozen. destruct (q_frozen q); [done|]. intros [= <-]. unfold holds. cbn [with_filter q_where].
  rewrite forallb_app. cbn. by rewrite andb_true_r.
Qed.
Lemma grows_holds q q' r : grows q q' → holds (q_where q') r = true → holds (q_where q) r = true.
Proof using Type. intros [(fs & -> & _) _ _]. unfold holds. rewrite forallb_app. by intros [? _]%andb_true_iff. Qed.
Lemma rpsl_objects_query_ok kw q : rpsl_objects_query cfg kw = Ok q →
  grows (RPSLDatabaseQuery false false) q
  ∧ ∃ manager, query_manager kw = Ok manager ∧ ∀ r, holds (q_where q) r = true → kept kw manager r = true.
Proof using Type.
  unfold rpsl_objects_query. intros E. steps E.
  assert (grows (RPSLDatabaseQuery false false)
            (match kw_record_limit kw with Some n => limit (RPSLDatabaseQuery false false) n | None => RPSLDatabaseQuery false false end)) as H0.
  { destruct (kw_record_limit kw); [|reflexivity]. split; [by exists []|done|by left]. }
  apply grows_if_given in Eq; [|intros ? ?; apply grows_rpsl_pks].
  apply grows_if_given in Eq0; [|intros ? ?; apply grows_object_classes].
  apply grows_if_given in Eq1; [|intros ? ?; apply grows_asns_first].
  apply grows_if_given in Eq2; [|intros ? ?; apply grows_text_search].
  pose proof (grows_rpki _ _ _ Eq3) as G3. pose proof (grows_scopefilter _ _ _ Eq4) as G4.
  pose proof (grows_route_preference _ _ _ Eq5) as G5. pose proof (grows_sources _ _ _ Eq7) as G7.
  apply grows_lookups in Eq8.
  apply grows_if_given in Eq9; [|intros ? ?; apply grows_ip_exact].
  apply grows_if_given in Eq10; [|intros ? ?; apply grows_less_specific].
  apply grows_if_given in Eq11; [|intros ? ?; apply grows_more_specific].
  apply grows_if_given in Eq12; [|intros ? ?; apply grows_one_less].
  apply grows_if_given in E; [|intros ? ?; apply grows_ip_any].
  assert (grows q8 q) as Hend by (by rewrite Eq8, Eq9, Eq10, Eq11, Eq12).
  split; [by rewrite H0, Eq, Eq0, Eq1, Eq2, G3, G4, G5, G7|]. exists q7. split; [exact Eq6|].
  intros r Hr. apply (grows_holds _ _ r Hend) in Hr.
  unfold sources in Eq7. rewrite (filter_where _ _ _ r Eq7) in Hr. apply andb_true_iff in Hr as [Hr Hsource]. cbn [q_where] in Hr.
  rewrite (filter_where _ _ _ r Eq5), (filter_where _ _ _ r Eq4), (filter_where _ _ _ r Eq3) in Hr.
  apply andb_true_iff in Hr as [[[_ Hrpki]%andb_true_iff Hscope]%andb_true_iff Hpref].
  unfold kept. by rewrite Hrpki, Hscope, Hpref, Hsource.
Qed.

Lemma grows_classes_pks classes pks q :
  (q ← object_classes (RPSLDatabaseQuery false false) classes; rpsl_pks q pks) = Ok q → grows (RPSLDatabaseQuery false false) q.
Proof using Type.
  destruct (object_classes _ classes) as [q0|] eqn:E0; [|done]. cbn [mbind res_bind]. intros E.
  transitivity q0; [by eapply grows_object_classes|by eapply grows_rpsl_pks].
Qed.
Lemma blind_journal_response j j' : public_entry j = public_entry j' → journal_response j = journal_response j'.
Proof using Type.
  intros E. unfold journal_response.
  rewrite (f_equal j_object_text E : remove_auth_hashes (j_object_text j) = remove_auth_hashes (j_object_text j')).
  rewrite (f_equal j_rpsl_pk E : j_rpsl_pk j = j_rpsl_pk j'), (f_equal j_source E : j_source j = j_source j').
  rewrite (f_equal j_serial_nrtm E : j_serial_nrtm j = j_serial_nrtm j'), (f_equal j_serial_global E : j_serial_global j = j_serial_global j').
  rewrite (f_equal j_operation E : j_operation j = j_operation j'), (f_equal j_origin E : j_origin j = j_origin j').
  rewrite (f_equal j_object_class E : j_object_class j = j_object_class j'), (f_equal j_timestamp E : j_timestamp j = j_timestamp j').
  reflexivity.
Qed.
Lemma alike_insert_serial j j' l l' :
  public_entry j = public_entry j' → alike public_entry l l' → alike public_entry (insert_serial j l) (insert_serial j' l').
Proof using Type.
  intros Ej. revert l'. induction l as [|k l IH]; intros [|k' l'] El; try done.
  - unfold alike. cbn. by rewrite Ej.
  - destruct (alike_cons _ _ _ _ _ El) as [Ek El']. cbn.
    rewrite (f_equal j_serial_nrtm Ej : j_serial_nrtm j = j_serial_nrtm j'), (f_equal j_serial_nrtm Ek : j_serial_nrtm k = j_serial_nrtm k').
    destruct (_ <=? _)%Z; unfold alike; rewrite !fmap_cons; [rewrite Ej, Ek; by do 2 f_equal|]. rewrite Ek. f_equal. by apply IH.
Qed.
Lemma alike_sort_serial l l' : alike public_entry l l' → alike public_entry (sort_serial l) (sort_serial l').
Proof using Type.
  revert l'. induction l as [|j l IH]; intros [|j' l'] El; try done. apply alike_cons in El as [Ej El].
  apply alike_insert_serial; [done|by apply IH].
Qed.

(** C19. Password hashes never reach a GraphQL client: on two databases whose
    objects and journal entries only differ in what the removal of hashes hides,
    every resolver that reads them gives the same answer, whatever the query, the
    object whose fields are resolved, and the fields selected. *)
Theorem graphql_hides_secrets d d' x :
  public <$> db_objects d = public <$> db_objects d' → public_entry <$> db_journal d = public_entry <$> db_journal d' →
  (∀ kw nodes, resolve_rpsl_objects cfg collate_lt query_repr convert_camel_case_to_snake d kw nodes x
             = resolve_rpsl_objects cfg collate_lt query_repr convert_camel_case_to_snake d' kw nodes x)
  ∧ (∀ obj nodes classes pk sticky, subquery d obj nodes classes pk sticky x = subquery d' obj nodes classes pk sticky x)
  ∧ (∀ obj nodes, resolve_rpsl_object_member_of_objs collate_lt query_repr convert_camel_case_to_snake d obj nodes x
                = resolve_rpsl_object_member_of_objs collate_lt query_repr convert_camel_case_to_snake d' obj nodes x)
  ∧ (∀ obj nodes, resolve_rpsl_object_members_objs collate_lt query_repr convert_camel_case_to_snake d obj nodes x
                = resolve_rpsl_object_members_objs collate_lt query_repr convert_camel_case_to_snake d' obj nodes x)
  ∧ (∀ obj, resolve_rpsl_object_journal cfg client_ip d obj = resolve_rpsl_object_journal cfg client_ip d' obj).
Proof using Type.
  intros Hd Hj.
  assert (∀ obj nodes classes pk sticky y, subquery d obj nodes classes pk sticky y = subquery d' obj nodes classes pk sticky y) as Hsub.
  { intros. unfold _resolve_subquery. apply st_bind_same. intros [|k pks] y1; [done|]. apply st_bind_same'. intros q y2 Hq.
    apply st_bind_same'. intros q' y3 Hq'. apply run_same; [done|]. eapply grows_blind, initial_blind.
    transitivity q; [exact (grows_classes_pks _ _ _ (f_equal snd Hq))|].
    destruct sticky; [|by injection Hq' as _ <-].
    apply st_bind_Ok in Hq' as (y4 & source & _ & Hq'). injection Hq' as _ Hq'. by eapply grows_sources. }
  split_and!.
  - intros kw nodes. unfold resolve_rpsl_objects. destruct (low_specificity kw); [done|]. apply st_bind_same. intros _ y1.
    apply st_bind_same'. intros q y2 Hq. apply run_same; [done|].
    eapply grows_blind, initial_blind. injection Hq as <- Hq. by apply rpsl_objects_query_ok in Hq as [? _].
  - intros. apply Hsub.
  - intros obj nodes. unfold resolve_rpsl_object_member_of_objs. do 3 (apply st_bind_same; intros ? ?). apply Hsub.
  - intros obj nodes. unfold resolve_rpsl_object_members_objs. do 4 (apply st_bind_same; intros ? ?). apply Hsub.
  - intros obj. unfold resolve_rpsl_object_journal. destruct (text_at "source" obj) as [source|]; [|done]. cbn [mbind res_bind].
    destruct (is_client_permitted _ _ _ _) as [b|]; [|done]. cbn [mbind res_bind]. destruct (negb b); [done|].
    destruct (text_at "rpslPk" obj) as [pk|]; [|done]. cbn [mbind res_bind]. f_equal.
    apply (alike_map public_entry); [apply blind_journal_response|]. apply alike_sort_serial.
    apply alike_filter; [by intros j j' E; pose proof (f_equal j_rpsl_pk E) as Ek; pose proof (f_equal j_source E) as Es; cbn in Ek, Es; by rewrite ?Ek, ?Es|]. by apply alike_filter; [intros j j' E; pose proof (f_equal j_rpsl_pk E) as Ek; pose proof (f_equal j_source E) as Es; cbn in Ek, Es; by rewrite ?Ek, ?Es|].
Qed.

Lemma execute_selected (q : query) rows : execute_query collate_lt q rows ⊆ selected q rows.
Proof using Type.
  assert (finalise_statement collate_lt q (selected q rows) ⊆ selected q rows) as Hf.
  { intros r. unfold finalise_statement. destruct (q_enable_ordering q); [|done]. by rewrite sort_rows_elem. }
  unfold execute_query. destruct (q_limit q) as [n|]; [|done]. intros r Hr. apply Hf.
  rewrite <- (take_drop n (finalise_statement _ _ _)). apply elem_of_app. by left.
Qed.
Lemma elem_of_selected (q : query) rows r : r ∈ selected q rows → (holds (q_where q) r && one_level_ok q rows r) = true ∧ r ∈ rows.
Proof using Type. unfold selected. intros [? ?]%list_elem_of_In%filter_In. split; [done|by apply list_elem_of_In]. Qed.
Lemma visible_statuses r : r_rpki_status r ∈ [rpki_not_found; rpki_valid] → r_scopefilter_status r ∈ [in_scope] →
  r_route_preference_status r ∈ [rp_visible] → row_visible r = true.
Proof using Type.
  intros H1 H2%list_elem_of_singleton H3%list_elem_of_singleton. unfold row_visible. rewrite H2, H3.
  apply elem_of_cons in H1 as [H1|H1%list_elem_of_singleton]; by rewrite H1.
Qed.
(** Without parameters on statuses, a query only finds objects that are
    visible, in the sources that the query asks for or that are the default. *)
Theorem graphql_finds_visible d kw nodes x x' results :
  kw_rpki_status kw = None → kw_scope_filter_status kw = None → kw_route_preference_status kw = None →
  resolve_rpsl_objects cfg collate_lt query_repr convert_camel_case_to_snake d kw nodes x = (x', Ok results) →
  ∃ manager rows, query_manager kw = Ok manager ∧ rows ⊆ db_objects d
    ∧ Forall (λ r, row_visible r = true ∧ r_source r ∈ ((λ s, strip (str_upper s)) <$> sources_resolved cfg manager)) rows
    ∧ Forall2 (λ r m, graphql_result (gc_classes x) (_columns_for_graphql_selection convert_camel_case_to_snake nodes) r = Ok m)
        rows results.
Proof using Type.
  intros Hrpki Hscope Hpref. unfold resolve_rpsl_objects. destruct (low_specificity kw); [done|]. intros Hrun.
  apply st_bind_Ok in Hrun as (x1 & [] & Htrace & Hrun). assert (gc_classes x1 = gc_classes x) as Hx.
  { destruct (default false _); by injection Htrace as <-. }
  apply st_bind_Ok in Hrun as (x2 & q & Hq & Hrun). pose proof (f_equal snd Hq : rpsl_objects_query cfg kw = Ok q) as Hkw.
  apply (f_equal fst) in Hq. cbn in Hq. subst x2.
  apply rpsl_objects_query_ok in Hkw as [_ (manager & Hm & Hkept)]. exists manager, (execute_query collate_lt q (db_objects d)).
  assert (execute_query collate_lt q (db_objects d) ⊆ selected q (db_objects d)) as Hsel by apply execute_selected.
  split_and!; [exact Hm| | |].
  - intros r [_ Hr]%Hsel%elem_of_selected. done.
  - apply Forall_forall. intros r [[Hr _]%andb_true_iff _]%Hsel%elem_of_selected. apply Hkept in Hr.
    unfold kept in Hr. rewrite Hrpki, Hscope, Hpref in Hr.
    apply andb_true_iff in Hr as [[[H1 H2]%andb_true_iff H3]%andb_true_iff H4]. apply bool_decide_eq_true in H1, H2, H3, H4.
    split; [|exact H4]. apply visible_statuses; set_solver.
  - apply st_bind_Ok in Hrun as (x3 & y & [= <- <-] & Hrun). apply st_bind_Ok in Hrun as (x4 & [] & _ & Hrun).
    pose proof (f_equal snd Hrun) as Hres. cbn in Hres. rewrite <- Hx. by apply res_map_Forall2.
Qed.
End Answers.
