(* ===== verification/GraphqlExamples.v ===== *)
(** * GraphQL queries on a small database

    The theorems at concrete queries, and what some queries show of the code. *)
From S2P Require Import Prelude PyStr Conf Net Models Text RpslObjects Queries RoutePref RoutePrefTheory Database DatabaseHandler Nrtm UpdateExamples QueryResolver Whois GraphqlSchema GraphqlResolvers GraphqlTheory.

Module GraphqlExamples.
Import ConcreteIP ConcreteRadix ConcreteRedis.
Definition gql_cfg : configuration := conf_of (VDict [
  ("sources", VDict [("TEST", VDict [("nrtm_access_list", VStr "mirrors")]); ("OTHER", VDict [])]);
  ("access_lists", VDict [("mirrors", VList [VStr "192.0.2.0/24"])])]).
Definition mntner_with (hash : string) : string :=
  UpdateExamples.text_of ["mntner: M-MNT"; "descr: x"; "admin-c: JD-TEST"; "upd-to: a@example.com"; "auth: MD5-PW " +:+ hash; "mnt-by: M-MNT"; "source: TEST"].
Definition as_set_text : string :=
  UpdateExamples.text_of ["as-set: AS-TEST"; "descr: x"; "members: AS65537, AS-OTHER"; "admin-c: JD-TEST"; "tech-c: JD-TEST"; "mnt-by: M-MNT"; "source: TEST"].
Definition other_set_text : string :=
  UpdateExamples.text_of ["as-set: AS-OTHER"; "descr: x"; "members: AS65538"; "admin-c: JD-TEST"; "tech-c: JD-TEST"; "mnt-by: M-MNT"; "source: TEST"].
Definition entry (hash : string) : journal_row := {|
  j_serial_global := 7; j_rpsl_pk := "M-MNT"; j_source := "TEST"; j_origin := jo_auth_change; j_serial_nrtm := 3;
  j_operation := add_or_update; j_object_class := "mntner"; j_object_text := mntner_with hash; j_timestamp := 0 |}.
Definition gql_db (hash : string) : database := {|
  db_objects := omap id [UpdateExamples.stored_row "a" (mntner_with hash); UpdateExamples.stored_row "b" (UpdateExamples.person_text "JD-TEST" []);
                         UpdateExamples.stored_row "c" as_set_text; set_scopefilter_status out_scope_as <$> UpdateExamples.stored_row "d" other_set_text];
  db_suspended := []; db_journal := [entry hash]; db_status := []; db_roas := []; db_protected := []; db_next_uuid := 10; db_next_global := 8 |}.
Definition db_1 : database := Eval vm_compute in gql_db "$1$fgW84Y9r$kKEn9MUq8PChNKpQhO6BM.".
Definition db_2 : database := Eval vm_compute in gql_db "$1$OTHER$aaaaaaaaaaaaaaaaaaaaaa.".
(** Upper case letters start a word. *)
Fixpoint to_snake (s : string) : string :=
  match s with
  | "" => ""
  | String c s' => if negb (bool_decide (lower_ascii c = c)) then String "_" (String (lower_ascii c) (to_snake s')) else String c (to_snake s')
  end.
Definition context : gql_context := {| gc_sql_trace := false; gc_sql_queries := None; gc_classes := OBJECT_CLASS_MAPPING |}.
Definition no_kwargs : rpsl_kwargs := {|
  kw_record_limit := None; kw_rpsl_pk := None; kw_object_class := None; kw_asn := None; kw_text_search := None;
  kw_rpki_status := None; kw_scope_filter_status := None; kw_route_preference_status := None; kw_sources := None;
  kw_lookups := []; kw_ip_exact := None; kw_ip_less_specific := None; kw_ip_more_specific := None;
  kw_ip_less_specific_one_level := None; kw_ip_any := None; kw_sql_trace := None |}.
Definition by_key (keys : list string) : rpsl_kwargs := {|
  kw_record_limit := None; kw_rpsl_pk := Some keys; kw_object_class := None; kw_asn := None; kw_text_search := None;
  kw_rpki_status := None; kw_scope_filter_status := None; kw_route_preference_status := None; kw_sources := None;
  kw_lookups := []; kw_ip_exact := None; kw_ip_less_specific := None; kw_ip_more_specific := None;
  kw_ip_less_specific_one_level := None; kw_ip_any := None; kw_sql_trace := None |}.
Notation objects d kw nodes := (resolve_rpsl_objects gql_cfg UpdateExamples.ex_collate (λ _, "") to_snake d kw nodes context).
Notation members d obj nodes := (resolve_rpsl_object_members_objs UpdateExamples.ex_collate (λ _, "") to_snake d obj nodes context).
Notation journal d client obj := (resolve_rpsl_object_journal gql_cfg client d obj).
Definition values (key : string) (r : gql_context * res (list rpsl_result)) : list (option gql) :=
  match r.2 with Ok l => (λ m : rpsl_result, m !! key) <$> l | Raise _ => [] end.
Definition text_nodes : list (list selection) := [[Selected "rpslPk"; InlineFragment [Selected "objectText"; Selected "auth"]]].
Definition first_result (r : gql_context * res (list rpsl_result)) : rpsl_result :=
  match r.2 with Ok (m :: _) => m | _ => ∅ end.
Definition as_set_object : rpsl_result := Eval vm_compute in first_result (objects db_1 (by_key ["AS-TEST"]) text_nodes).
Definition mntner_object : rpsl_result := Eval vm_compute in first_result (objects db_1 (by_key ["M-MNT"]) text_nodes).

Example ex_objects :
  values "rpslPk" (objects db_1 (by_key ["m-mnt"; "AS-TEST"; "AS-OTHER"]) text_nodes) = [Some (GStr "M-MNT"); Some (GStr "AS-TEST")]
  ∧ values "auth" (objects db_1 (by_key ["M-MNT"]) text_nodes) = [Some (GList ["MD5-PW DummyValue  # Filtered for security"])]
  ∧ values "members" (objects db_1 (by_key ["AS-TEST"]) text_nodes) = [Some (GList ["AS65537"; "AS-OTHER"])]
  ∧ (objects db_1 no_kwargs text_nodes).2 = Raise (ValueError "Your query must be more specific.").
Proof. vm_compute. done. Qed.
(** The members of a set are found although they are not visible. *)
Example ex_members : values "rpslPk" (members db_1 as_set_object text_nodes) = [Some (GStr "AS-OTHER")].
Proof. vm_compute. reflexivity. Qed.
Example ex_journal :
  (length <$> res_option (journal db_1 "192.0.2.1" mntner_object)) = Some 1%nat
  ∧ journal db_1 "198.51.100.1" mntner_object = Raise (GenericException "Access to journal denied for source TEST").
Proof. vm_compute. done. Qed.

(** ** What queries show *)

(** The name of a fragment is taken for a field, so what it selects is not read;
    nor is what a second node of the same field selects. *)
Example fragment_fields_missing :
  values "objectText" (objects db_1 (by_key ["JD-TEST"]) [[FragmentSpread "F"]]) = [None]
  ∧ values "objectText" (objects db_1 (by_key ["JD-TEST"]) [[Selected "rpslPk"]; [Selected "objectText"]]) = [None].
Proof. vm_compute. done. Qed.
(** Fields of the schema that hold referred objects, but have no resolver. *)
Definition unresolved (nc : string * rpsl_class) : list string :=
  List.filter (λ n, endswith "Objs" n && negb (bool_decide (n ∈ resolved_fields nc.2))) (object_fields nc.2).*1.
Example references_without_resolver :
  concat ((λ nc, (λ n, (nc.1, n)) <$> unresolved nc) <$> OBJECT_CLASS_MAPPING) = [("domain", "zoneCObjs"); ("rtr-set", "mpMembersObjs")].
Proof. vm_compute. reflexivity. Qed.
(** Resolving members changes the class of the set, and with it its template. *)
Definition as_set_template (x : gql_context) : string := default "" (generate_template <$> assoc "as-set" (gc_classes x)).
Example members_change_template :
  contains "weak references aut-num/as-set" (as_set_template context) = true
  ∧ contains "weak references as-set" (as_set_template (members db_1 as_set_object text_nodes).1) = true.
Proof. vm_compute. done. Qed.
(** What is wrong with a query is not told to the client. *)
Example query_errors_hidden : error_formatter (Some false) false "Your query must be more specific." = "Internal server error".
Proof. reflexivity. Qed.

(** ** The theorems at these databases *)

Lemma schema_implements_interfaces_witness : assoc "journal" (object_fields RPSLMntner) = Some "[RPSLJournalEntry]".
Proof.
  apply (schema_implements_interfaces "mntner" RPSLMntner "RPSLObject" rpsl_object_interface).
  - apply list_elem_of_In. do 10 right. by left.
  - by left.
  - apply list_elem_of_In. vm_compute. tauto.
Defined.
Lemma graphql_hides_secrets_witness :
  r_object_text <$> head (db_objects db_1) ≠ r_object_text <$> head (db_objects db_2)
  ∧ objects db_1 (by_key ["M-MNT"]) text_nodes = objects db_2 (by_key ["M-MNT"]) text_nodes
  ∧ journal db_1 "192.0.2.1" mntner_object = journal db_2 "192.0.2.1" mntner_object.
Proof.
  assert (public <$> db_objects db_1 = public <$> db_objects db_2) as Hd by (vm_compute; reflexivity).
  assert (public_entry <$> db_journal db_1 = public_entry <$> db_journal db_2) as Hj by (vm_compute; reflexivity).
  destruct (graphql_hides_secrets gql_cfg UpdateExamples.ex_collate (λ _, "") to_snake "192.0.2.1" db_1 db_2 context Hd Hj)
    as (Hobjects & _ & _ & _ & Hjournal).
  split; [intros [=]|]. split; [apply Hobjects|apply Hjournal].
Defined.
Notation query_sets := (objects db_1 (by_key ["AS-TEST"; "AS-OTHER"]) text_nodes).
Definition found_context : gql_context := Eval vm_compute in query_sets.1.
Definition found_results : list rpsl_result := Eval vm_compute in default [] (res_option query_sets.2).
Lemma graphql_finds_visible_witness :
  query_sets = (found_context, Ok found_results)
  ∧ ∃ rows, length rows = length found_results ∧ Forall (λ r, row_visible r = true) rows.
Proof.
  assert (query_sets = (found_context, Ok found_results)) as E by (vm_compute; reflexivity).
  split; [exact E|].
  destruct (graphql_finds_visible gql_cfg UpdateExamples.ex_collate (λ _, "") to_snake db_1 (by_key ["AS-TEST"; "AS-OTHER"]) text_nodes context
    found_context found_results eq_refl eq_refl eq_refl E) as (manager & rows & _ & _ & Hrows & Hresults).
  exists rows. split; [exact (Forall2_length _ _ _ Hresults)|]. eapply Forall_impl; [exact Hrows|]. by intros r [? _].
Defined.
End GraphqlExamples.
