(* ===== verification/EventStream.v ===== *)
(** * The event stream ([irrd/server/http/event_stream.py], [irrd/storage/event_stream.py])

    The initial download of all objects, and the WebSocket that follows the
    journal: the endpoint with its subscription, the follower that sends journal
    entries and events, and both as steps that interleave with the transactions of
    other handlers.  JSON, the CSV that PostgreSQL writes, and pydantic's reading of
    a subscription are parameters; the messages are what is encoded. *)
From S2P Require Import Prelude PyStr Conf Net Models Text Rpki ScopeFilter Fields RpslObjects RpslParser Queries RoutePref Database DatabaseHandler StorageTheory QueryResolver Nrtm Whois GraphqlSchema GraphqlResolvers.

(** ** The initial download *)

Inductive http_response (A : Type) :=
| plain_text (status : Z) (text : string)
| streaming (a : A).
Arguments plain_text {A} _ _.
Arguments streaming {A} _.

Record download_header := {
  dh_sources_filter : list string;
  dh_object_classes_filter : list string;
  dh_max_serial_global : option Z;
  dh_last_change_timestamp : option string;
}.
Record download_row := {
  dr_pk : string;
  dr_object_class : string;
  dr_object_text : string;
  dr_source : string;
  dr_updated : string;
  dr_parsed_data : gmap string pdata;
}.

Section InitialDownload.
Context `{IPyLib} (cfg : configuration) (collate_lt : string → string → bool) (isoformat : Z → string).

(** [RPSLDatabaseJournalStatisticsQuery]. *)
Definition max_serial_global (d : database) : option Z := opt_max (j_serial_global <$> db_journal d).
Definition max_timestamp (d : database) : option Z := opt_max (j_timestamp <$> db_journal d).
Definition generate_header (srcs classes : list string) (d : database) : download_header := {|
  dh_sources_filter := srcs; dh_object_classes_filter := classes; dh_max_serial_global := max_serial_global d;
  dh_last_change_timestamp := isoformat <$> max_timestamp d |}.
Definition generate_sql_query (srcs classes : list string) : res query :=
  q ← default_suppression (RPSLDatabaseQuery true true);
  q ← (match srcs with [] => Ok q | _ => sources q srcs end);
  match classes with [] => Ok q | _ => object_classes q classes end.
Definition download_row_of (r : rpsl_row) : download_row := {|
  dr_pk := r_rpsl_pk r; dr_object_class := r_object_class r; dr_object_text := remove_auth_hashes (r_object_text r);
  dr_source := r_source r; dr_updated := isoformat (r_updated r); dr_parsed_data := clean_parsed_data (r_parsed_data r) |}.
Definition stream_response (srcs classes : list string) (d : database) : res (download_header * list download_row) :=
  q ← generate_sql_query srcs classes;
  Ok (generate_header srcs classes d, download_row_of <$> execute_query collate_lt q (db_objects d)).
Definition split_param (o : option string) : list string :=
  match o with Some s => if String.eqb s "" then [] else split_on ","%char s | None => [] end.
(** [EventStreamInitialDownloadEndpoint.get], for the parameters of the request;
    the order in which Python iterates over a set of names is a parameter. *)
Definition initial_download (set_order : list string → list string) (host : string) (params : list (string * string)) (d : database)
  : res (http_response (download_header * list download_row)) :=
  permitted ← is_client_permitted cfg host "server.http.event_stream_access_list" true;
  if negb permitted then Ok (plain_text 403 "Access denied")
  else
    match List.filter (λ k, negb (bool_decide (k ∈ ["sources"; "object_classes"]))) (oset_update [] params.*1) with
    | [] => r ← stream_response (split_param (assoc "sources" params)) (split_param (assoc "object_classes" params)) d; Ok (streaming r)
    | unknown => Ok (plain_text 400 ("Unknown GET parameters: " +:+ join ", " (set_order unknown)))
    end.
End InitialDownload.

(** ** Messages *)

Record journal_event := {
  je_pk : string;
  je_source : string;
  je_operation : string;
  je_object_class : string;
  je_serial_global : Z;
  je_serial_nrtm : Z;
  je_origin : string;
  je_timestamp : string;
  je_object_text : string;
  je_parsed_data : gmap string pdata;
}.
Inductive message :=
| stream_status (streamed_sources : list string) (last_reload_times : list (string * string))
| rpsl_journal (e : journal_event)
| stream_event (event_id : Z) (source operation : string)
| invalid_request (errors : list string).

(** An entry of the Redis stream, whose identifiers grow. *)
Record stream_entry := { se_id : Z; se_source : string; se_operation : string }.
Definition EVENT_STREAM_WS_CHUNK_SIZE : nat := 1000.
Definition entries_after (id : Z) (l : list stream_entry) : list stream_entry :=
  take EVENT_STREAM_WS_CHUNK_SIZE (List.filter (λ e, (id <? se_id e)%Z) l).
Definition last_id (l : list stream_entry) : Z := foldr Z.max 0%Z (se_id <$> l).

Section EventStream.
Context `{IPyLib} `{Radix node_data} `{redis : Redis} (cfg : configuration) (collate_lt : string → string → bool) (uuid : nat → string).
Context (timestamp_text : Z → string).
Context (gpg_import_keys : string → list string * option string) (gpg_uids : string → list string).
(** Times as text, and the column [created] of the status table. *)
Context (isoformat : Z → string) (status_created : status_row → Z).

(** ** The follower *)

(** What the task of a follower does next: send journal entries, ask for events,
    wait for those after an identifier, or nothing after an exception. *)
Inductive follower_phase := Sending | Asking | Waiting (after : Z) | Ended (e : exn).
Record follower := {
  fo_after_global_serial : option Z;
  (** [None] is the end of the stream. *)
  fo_after_redis_event_id : option Z;
  fo_phase : follower_phase;
  (** The messages given to the callback. *)
  fo_sent : list message;
}.
Definition set_phase (p : follower_phase) (f : follower) : follower := {|
  fo_after_global_serial := fo_after_global_serial f; fo_after_redis_event_id := fo_after_redis_event_id f;
  fo_phase := p; fo_sent := fo_sent f |}.
Definition callback (m : message) (f : follower) : follower := {|
  fo_after_global_serial := fo_after_global_serial f; fo_after_redis_event_id := fo_after_redis_event_id f;
  fo_phase := fo_phase f; fo_sent := fo_sent f ++ [m] |}.
Definition set_after_serial (n : Z) (f : follower) : follower := {|
  fo_after_global_serial := Some n; fo_after_redis_event_id := fo_after_redis_event_id f;
  fo_phase := fo_phase f; fo_sent := fo_sent f |}.
Definition set_after_event (id : Z) (f : follower) : follower := {|
  fo_after_global_serial := fo_after_global_serial f; fo_after_redis_event_id := Some id;
  fo_phase := fo_phase f; fo_sent := fo_sent f |}.
Notation F := (st follower).

(** [RPSLDatabaseJournalQuery().serial_global_range(start)], which is ordered by
    source and serial in the source. *)
Definition journal_before (a b : journal_row) : bool :=
  collate_lt (j_source a) (j_source b)
  || String.eqb (j_source a) (j_source b) && (j_serial_nrtm a <=? j_serial_nrtm b)%Z.
Fixpoint insert_entry (j : journal_row) (l : list journal_row) : list journal_row :=
  match l with
  | [] => [j]
  | x :: l' => if journal_before j x then j :: l else x :: insert_entry j l'
  end.
Definition journal_query (start : Z) (d : database) : list journal_row :=
  foldr insert_entry [] (List.filter (λ j, (start <=? j_serial_global j)%Z) (db_journal d)).
Definition journal_message (j : journal_row) : res message :=
  let text := remove_auth_hashes (j_object_text j) in
  o ← rpsl_object_from_text cfg gpg_import_keys gpg_uids text false None;
  Ok (rpsl_journal {|
    je_pk := j_rpsl_pk j; je_source := j_source j; je_operation := operation_name (j_operation j);
    je_object_class := j_object_class j; je_serial_global := j_serial_global j; je_serial_nrtm := j_serial_nrtm j;
    je_origin := origin_name (j_origin j); je_timestamp := isoformat (j_timestamp j); je_object_text := text;
    je_parsed_data := o_parsed_data o |}).
Definition send_entry (j : journal_row) : F unit :=
  m ← st_lift (journal_message j);
  _ ← st_modify (callback m);
  st_modify (λ f, set_after_serial (Z.max (j_serial_global j) (default 0%Z (fo_after_global_serial f))) f).
Definition _send_new_journal_entries (d : database) : F unit :=
  f ← st_get;
  match fo_after_global_serial f with
  | None => st_raise (GenericException "TypeError")
  | Some after => st_iter send_entry (journal_query (after + 1) d)
  end.
Definition send_events (entries : list stream_entry) : F unit :=
  st_iter (λ e, _ ← st_modify (callback (stream_event (se_id e) (se_source e) (se_operation e)));
                st_modify (set_after_event (se_id e))) entries.
(** A part of the task, which ends with an exception. *)
Definition in_task (next : follower_phase) (m : F unit) (f : follower) : follower :=
  match m f with
  | (f', Ok tt) => set_phase next f'
  | (f', Raise e) => set_phase (Ended e) f'
  end.

(** [AsyncEventStreamFollower.create]: the follower, or the message that refuses
    the subscription. *)
Definition create (after_global_serial : option Z) (d : database) : res (follower + message) :=
  let follower_after after := {|
    fo_after_global_serial := after; fo_after_redis_event_id := None; fo_phase := Sending; fo_sent := [] |} in
  match after_global_serial with
  | None => Ok (inl (follower_after (max_serial_global d)))
  | Some after =>
      match max_serial_global d with
      | None => Raise (GenericException "TypeError")
      | Some max =>
          if (max <? after)%Z then Ok (inr (invalid_request ["The maximum known serial is " +:+ str_of_Z max]))
          else Ok (inl (follower_after (Some after)))
      end
  end.

(** ** The endpoint *)

Record websocket := {
  ws_permitted : bool;
  ws_follower : option follower;
  (** The messages sent by the endpoint itself, and the code the socket was closed with. *)
  ws_sent : list message;
  ws_closed : option Z;
}.
Definition WS_1003_UNSUPPORTED_DATA : Z := 1003.
Definition WS_1008_POLICY_VIOLATION : Z := 1008.
Definition send_header (d : database) : message :=
  let journaled_sources := List.filter (λ s, truthy (source_setting cfg s "keep_journal")) (sources_keys cfg) in
  stream_status journaled_sources
    ((λ s, (s_source s, isoformat (status_created s))) <$> status_rows collate_lt d journaled_sources).
Definition on_connect (host : string) (d : database) : res websocket :=
  permitted ← is_client_permitted cfg host "server.http.event_stream_access_list" true;
  Ok (if negb permitted
      then {| ws_permitted := false; ws_follower := None; ws_sent := []; ws_closed := Some WS_1008_POLICY_VIOLATION |}
      else {| ws_permitted := true; ws_follower := None; ws_sent := [send_header d]; ws_closed := None |}).
Definition ws_send (m : message) (closed : option Z) (w : websocket) : websocket := {|
  ws_permitted := ws_permitted w; ws_follower := ws_follower w; ws_sent := ws_sent w ++ [m]; ws_closed := closed |}.
Definition ws_follow (f : option follower) (w : websocket) : websocket := {|
  ws_permitted := ws_permitted w; ws_follower := f; ws_sent := ws_sent w; ws_closed := ws_closed w |}.
(** A subscription as pydantic reads it: its errors, or [after_global_serial]. *)
Definition on_receive (request : list string + option Z) (d : database) (w : websocket) : websocket * res unit :=
  match request with
  | inl errors => (ws_send (invalid_request errors) (Some WS_1003_UNSUPPORTED_DATA) w, Ok tt)
  | inr after_global_serial =>
      match ws_follower w with
      | Some _ => (ws_send (invalid_request ["The stream is already running, request ignored."]) (ws_closed w) w, Ok tt)
      | None =>
          match create after_global_serial d with
          | Raise e => (w, Raise e)
          | Ok (inl f) => (ws_follow (Some f) w, Ok tt)
          | Ok (inr m) => (ws_send m (ws_closed w) w, Ok tt)
          end
      end
  end.
Definition on_disconnect (w : websocket) : websocket := ws_follow None w.

(** ** Following, interleaved with transactions

    Transactions that write the journal hold a lock on it until they commit, so they
    follow on each other; each step of a follower is one pass between two waits. *)
Record stream_world := {
  sw_db : database;
  sw_stream : list stream_entry;
  sw_follower : follower;
}.
Notation world d l f := {| sw_db := d; sw_stream := l; sw_follower := f |}.
(** The steps of others: a transaction, that ends or raises; one that is rolled back
    and has used up a serial; and any change of the stream. *)
Inductive other_step : stream_world → stream_world → Prop :=
| step_transaction cs now d l f :
    other_step (world d l f)
      (world (h_committed (st_iter (run_call cfg collate_lt uuid timestamp_text) cs (DatabaseHandler_init cfg false d now)).1) l f)
| step_rolled_back d l f : other_step (world d l f) (world (next_global d) l f)
| step_stream d l l' f : other_step (world d l f) (world d l' f).
(** The steps of the follower's task. *)
Inductive follower_step : stream_world → stream_world → Prop :=
| step_send d l f : fo_phase f = Sending →
    follower_step (world d l f) (world d l (in_task Asking (_send_new_journal_entries d) f))
| step_ask d l f : fo_phase f = Asking →
    follower_step (world d l f) (world d l (set_phase (Waiting (default (last_id l) (fo_after_redis_event_id f))) f))
| step_events d l f after : fo_phase f = Waiting after → entries_after after l ≠ [] →
    follower_step (world d l f) (world d l (in_task Sending (send_events (entries_after after l)) f))
| step_timeout d l f after : fo_phase f = Waiting after → follower_step (world d l f) (world d l (set_phase Sending f)).
(** A run, with the number of steps the follower makes in it. *)
Inductive stream_run : nat → stream_world → stream_world → Prop :=
| run_done w : stream_run 0 w w
| run_other n w1 w2 w3 : other_step w1 w2 → stream_run n w2 w3 → stream_run n w1 w3
| run_follower n w1 w2 w3 : follower_step w1 w2 → stream_run n w2 w3 → stream_run (S n) w1 w3.
End EventStream.
