(* ===== verification/EventStreamTheory.v ===== *)
(** * Following the journal

    Serials of the journal are new in every transaction, and what a follower of
    the event stream has sent when transactions interleave with it. *)
From S2P Require Import Prelude PyStr Conf Net Models Text Rpki ScopeFilter Fields RpslObjects RpslParser Queries RoutePref Database DatabaseHandler StorageTheory TransactionTheory QueryResolver Nrtm Whois GraphqlSchema GraphqlResolvers EventStream.

(** ** The journal over transactions *)

(** The global serials of the entries are different, and already used. *)
Definition journal_wf (d : database) : Prop :=
  NoDup (j_serial_global <$> db_journal d) ∧ ∀ j, j ∈ db_journal d → (j_serial_global j < db_next_global d)%Z.
(** Entries are removed, or added with serials that were not used. *)
Record journal_grows (d d' : database) : Prop := {
  grows_next : (db_next_global d ≤ db_next_global d')%Z;
  grows_new j : j ∈ db_journal d' → j ∈ db_journal d ∨ (db_next_global d ≤ j_serial_global j)%Z;
  grows_wf : journal_wf d → journal_wf d';
}.
#[export] Instance journal_grows_preorder : PreOrder journal_grows.
Proof.
  split.
  - intros d. split; [done|by left|done].
  - intros d d1 d2 [N1 G1 W1] [N2 G2 W2]. split; [lia| |auto].
    intros j [Hj|Hj]%G2; [by apply G1|right; lia].
Qed.
Definition journal_part (d : database) : list journal_row * Z := (db_journal d, db_next_global d).
Lemma part_grows d d' : journal_part d' = journal_part d → journal_grows d d'.
Proof. unfold journal_part. intros [= Ej En]. split; [lia|rewrite Ej; by left|]. unfold journal_wf. by rewrite Ej, En. Qed.
Lemma filter_grows p d : journal_grows d (set_journal (List.filter p (db_journal d)) d).
Proof.
  assert (∀ j l, j ∈ List.filter p l → j ∈ l) as Hin.
  { intros j l. rewrite !list_elem_of_In. by intros [? _]%filter_In. }
  split; simpl; [done|intros j ?%Hin; by left|]. intros [Hd Hlt]. split; simpl; [|auto].
  clear Hlt. induction (db_journal d) as [|x l IH]; csimpl; [done|]. apply NoDup_cons in Hd as [Hx Hd].
  destruct (p x); [|auto]. csimpl. apply NoDup_cons. split; [|auto].
  intros (y & Ey & Hy%Hin)%list_elem_of_fmap. apply Hx. rewrite Ey. by apply list_elem_of_fmap_2.
Qed.
Lemma next_global_grows d : journal_grows d (next_global d).
Proof. split; simpl; [lia|by left|]. intros [Hd Hlt]. split; simpl; [done|]. intros j ?%Hlt. lia. Qed.
Lemma append_grows d j :
  j_serial_global j = db_next_global d → journal_grows d (next_global (set_journal (db_journal d ++ [j]) d)).
Proof.
  intros Ej. split; simpl; [lia| |].
  { intros x [?| ->%list_elem_of_singleton]%elem_of_app; [by left|right; lia]. }
  intros [Hd Hlt]. split; simpl.
  - rewrite fmap_app. apply NoDup_app. split; [done|]. split; [|apply NoDup_singleton].
    intros s (x & -> & Hx)%list_elem_of_fmap ?%list_elem_of_singleton. apply Hlt in Hx. lia.
  - intros x [?%Hlt| ->%list_elem_of_singleton]%elem_of_app; lia.
Qed.

(** Both the database of the transaction and the committed one have only grown. *)
Definition both_grow `{IPyLib} (h h' : handler) : Prop :=
  ∀ d, journal_grows d (h_db h) → journal_grows d (h_committed h) → journal_grows d (h_db h') ∧ journal_grows d (h_committed h').
#[export] Instance both_grow_preorder `{IPyLib} : PreOrder both_grow.
Proof. split; [by intros h d|]. intros h1 h2 h3 H12 H23 d H1 H2. destruct (H12 d H1 H2). by apply H23. Qed.

Section Growth.
Context `{IPyLib} `{Radix node_data} `{redis : Redis} (cfg : configuration).
Context (collate_lt : string → string → bool) (uuid : nat → string) (timestamp_text : Z → string).
Notation grows := (moves both_grow).

Lemma db_grows h h' : journal_grows (h_db h) (h_db h') → h_committed h' = h_committed h → both_grow h h'.
Proof using Type. intros Hd Hc d H1 H2. rewrite Hc. split; [by trans (h_db h)|done]. Qed.
Lemma rollback_grows h : both_grow h (sql_rollback h).
Proof using Type. by intros d _ Hc. Qed.
Lemma modify_db_grows f : (∀ d, journal_grows d (f d)) → grows (modify (with_db f)).
Proof using Type. intros Hf. apply (moves_modify _). intros h. by apply db_grows; [apply Hf|]. Qed.
Lemma modify_part_grows f : (∀ d, journal_part (f d) = journal_part d) → grows (modify (with_db f)).
Proof using Type. intros Hf. apply modify_db_grows. intros d. by apply part_grows. Qed.
Lemma modify_other_grows f :
  (∀ h, h_db (f h) = h_db h) → (∀ h, h_committed (f h) = h_committed h) → grows (modify f).
Proof using Type. intros Hd Hc. apply (moves_modify _). intros h. apply db_grows; [by rewrite Hd|done]. Qed.
Lemma write_permitted_grows : grows _check_write_permitted.
Proof using Type. intros h. unfold _check_write_permitted. by destruct (h_readonly h). Qed.
Lemma synchronised_grows src : grows (_is_serial_synchronised cfg src).
Proof using Type. intros h. by apply db_grows. Qed.
Lemma insert_journal_grows op rpsl_pk src class text origin serial :
  grows (insert_journal op rpsl_pk src class text origin serial).
Proof using Type.
  intros h. unfold insert_journal, sql_insert_journal. destruct serial; [|done].
  case_bool_decide; [done|]. apply db_grows; [|done]. by apply append_grows.
Qed.
Lemma delete_returning_grows p : grows (delete_returning p).
Proof using Type. intros h. by apply db_grows; [apply part_grows|]. Qed.
Hint Resolve write_permitted_grows synchronised_grows insert_journal_grows delete_returning_grows modify_other_grows : moves.
Lemma record_operation_grows op rpsl_pk src class text origin serial :
  grows (record_operation cfg op rpsl_pk src class text origin serial).
Proof using Type. unfold record_operation. moves_tac. Qed.
Hint Resolve record_operation_grows : moves.

Lemma upsert_row_part d r : journal_part (upsert_row uuid d r) = journal_part d.
Proof using Type. unfold upsert_row. by destruct (existsb _ _). Qed.
Lemma flush_statement_part buffer guaranteed d d' :
  flush_statement uuid buffer guaranteed d = Ok d' → journal_part d' = journal_part d.
Proof using Type.
  unfold flush_statement. generalize (u_row <$> buffer). intros l. destruct guaranteed.
  - revert d. induction l as [|r l IH]; intros d; simpl; [by intros [= <-]|].
    unfold insert_row. destruct (existsb _ _); simpl; [done|]. by intros ->%IH.
  - unfold sql_upsert. case_bool_decide as Hd; [|done]. intros [= <-]. clear Hd.
    revert d. induction l as [|r l IH]; intros d; simpl; [done|]. by rewrite IH, upsert_row_part.
Qed.
Lemma execute_flush_grows buffer guaranteed : grows (execute_flush uuid buffer guaranteed).
Proof using Type.
  intros h. unfold execute_flush. destruct (flush_statement _ _ _ _) as [d|] eqn:E; [|apply rollback_grows].
  apply db_grows; [|done]. by apply part_grows, (flush_statement_part buffer guaranteed).
Qed.
Hint Resolve execute_flush_grows : moves.
Lemma flush_grows : grows (_flush_rpsl_object_writing_buffer cfg uuid).
Proof using Type. unfold _flush_rpsl_object_writing_buffer, journal_entry. moves_tac. Qed.
Lemma flush_roas_grows : grows _flush_roa_writing_buffer.
Proof using Type.
  unfold _flush_roa_writing_buffer. moves_tac. intros h. unfold execute_statement, copy_roas.
  case_bool_decide; [|done]. by apply db_grows; [apply part_grows|].
Qed.
Hint Resolve flush_grows flush_roas_grows : moves.
Lemma object_modified_grows a b c d : grows (object_modified a b c d).
Proof using Type. by apply modify_other_grows. Qed.
Lemma object_modified_dict_grows r o : grows (object_modified_dict r o).
Proof using Type. apply object_modified_grows. Qed.
Hint Resolve object_modified_grows object_modified_dict_grows : moves.
Lemma visibility_changed_grows op o r : grows (visibility_changed cfg op o r).
Proof using Type. unfold visibility_changed, record_operation_from_rpsl_dict. moves_tac. Qed.
Lemma update_where_grows {A} `{EqDecision A} (key : rpsl_row → A) objs f : grows (update_where key objs f).
Proof using Type. unfold update_where. moves_tac. by apply modify_part_grows. Qed.
Hint Resolve visibility_changed_grows update_where_grows : moves.
Lemma update_pref_grows a b : grows (update_route_preference_status cfg a b).
Proof using Type. unfold update_route_preference_status, pref_changed. moves_tac. Qed.
Hint Resolve update_pref_grows : moves.

(** *** Commit *)

Lemma foldl_part {A} (f : database → A → database) l d :
  (∀ d x, journal_part (f d x) = journal_part d) → journal_part (foldl f d l) = journal_part d.
Proof using Type. intros Hf. revert d. induction l as [|x l IH]; intros d; simpl; [done|]. by rewrite IH, Hf. Qed.
Lemma finalise_dicts_part t now d : journal_part (finalise_dicts t now d) = journal_part d.
Proof using Type. unfold finalise_dicts, for_dict. by rewrite !foldl_part. Qed.
Lemma finalise_grows : grows (finalise_transaction cfg).
Proof using Type.
  unfold finalise_transaction, finalise_source. moves_tac; apply modify_part_grows; intros d.
  - unfold sql_upsert_status. by destruct (status_of _ d).
  - apply finalise_dicts_part.
Qed.
Lemma sql_commit_grows : grows (modify sql_commit).
Proof using Type. apply (moves_modify _). intros h d H1 H2. done. Qed.
Hint Resolve finalise_grows sql_commit_grows : moves.
Lemma pre_commit_grows : grows (pre_commit cfg collate_lt).
Proof using Type. unfold pre_commit. moves_tac. Qed.
Hint Resolve pre_commit_grows : moves.
Lemma announce_grows m : grows (announce m).
Proof using Type. intros h. unfold announce. destruct (redis_publish _ _ _ m); [|done]. destruct m; by apply db_grows. Qed.
Hint Resolve announce_grows : moves.
Lemma or_rollback_grows m : grows m → grows (or_rollback m).
Proof using Type.
  intros Hm h. specialize (Hm h). unfold or_rollback. destruct (m h) as [h1 [[]|e]]; [done|].
  etrans; [exact Hm|apply rollback_grows].
Qed.
Lemma commit_grows : grows (commit cfg collate_lt uuid).
Proof using Type.
  unfold commit. moves_tac. apply or_rollback_grows.
  unfold before_commit, after_commit, tracker_commit, publish_event_stream, _start_transaction. moves_tac.
Qed.

Lemma run_call_grows c : grows (run_call cfg collate_lt uuid timestamp_text c).
Proof using Type.
  destruct c; simpl.
  - unfold upsert_rpsl_object, upsert_rendered, flush_if_seen, append_row. moves_tac.
  - unfold insert_roa_object. moves_tac.
  - unfold update_rpki_status, rpki_now_visible, rpki_now_hidden. moves_tac.
  - unfold update_scopefilter_status, scope_now_visible, scope_now_hidden. moves_tac.
  - moves_tac.
  - unfold delete_rpsl_object. moves_tac. by apply modify_part_grows.
  - unfold suspend_rpsl_object. moves_tac. by apply modify_part_grows.
  - unfold delete_suspended_rpsl_objects. moves_tac. by apply modify_part_grows.
  - unfold delete_journal_entries_before_date. moves_tac. apply modify_db_grows. intros d. apply filter_grows.
  - unfold delete_all_rpsl_objects_with_journal, all_object_classes_updated.
    moves_tac; apply modify_db_grows; intros d; solve [apply filter_grows | by apply part_grows].
  - unfold delete_all_roa_objects. moves_tac. by apply modify_part_grows.
  - unfold set_force_reload. moves_tac. by apply modify_part_grows.
  - unfold record_serial_newest_mirror. moves_tac.
  - unfold record_serial_seen. moves_tac.
  - unfold record_mirror_error. moves_tac.
  - unfold record_serial_exported. moves_tac.
  - unfold record_nrtm4_client_status. moves_tac.
  - unfold record_nrtm4_server_status. moves_tac.
  - apply commit_grows.
Qed.
(** What a transaction commits, whether it ends or raises. *)
Lemma transaction_grows cs now d :
  journal_grows d (h_committed (st_iter (run_call cfg collate_lt uuid timestamp_text) cs (DatabaseHandler_init cfg false d now)).1).
Proof using Type.
  assert (grows (st_iter (run_call cfg collate_lt uuid timestamp_text) cs)) as Hg.
  { apply (moves_iter both_grow). apply run_call_grows. }
  by apply Hg.
Qed.
End Growth.

(** ** What a follower has sent *)

Definition message_serial (m : message) : option Z :=
  match m with rpsl_journal e => Some (je_serial_global e) | _ => None end.
Definition sent_serials (f : follower) : list Z := omap message_serial (fo_sent f).
Definition ended (f : follower) : Prop := ∃ e, fo_phase f = Ended e.

Lemma max_serials_ge a l : (a ≤ foldr Z.max a l)%Z ∧ (∀ s, s ∈ l → (s ≤ foldr Z.max a l)%Z).
Proof.
  induction l as [|x l [IH1 IH2]]; simpl; [split; [lia|set_solver]|]. split; [lia|].
  intros s [->|?%IH2]%elem_of_cons; lia.
Qed.
Lemma max_serials_in a l : foldr Z.max a l = a ∨ foldr Z.max a l ∈ l.
Proof.
  induction l as [|x l IH]; simpl; [by left|].
  destruct (Z.max_spec x (foldr Z.max a l)) as [[_ ->]|[_ ->]]; [|right; set_solver]. destruct IH as [->|?]; [by left|right; set_solver].
Qed.

Lemma opt_max_in l m : opt_max l = Some m → m ∈ l.
Proof.
  destruct l as [|x l]; [done|]. intros [= <-]. apply elem_of_cons.
  destruct (max_serials_in x l) as [->|?]; [by left|by right].
Qed.

Section Following.
Context `{IPyLib} `{Radix node_data} `{redis : Redis} (cfg : configuration) (collate_lt : string → string → bool) (uuid : nat → string).
Context (timestamp_text : Z → string).
Context (gpg_import_keys : string → list string * option string) (gpg_uids : string → list string).
Context (isoformat : Z → string) (status_created : status_row → Z).
Notation journal_message := (journal_message cfg gpg_import_keys gpg_uids isoformat).
Notation send_entry := (send_entry cfg gpg_import_keys gpg_uids isoformat).
Notation send_pass := (_send_new_journal_entries cfg collate_lt gpg_import_keys gpg_uids isoformat).
Notation other := (other_step cfg collate_lt uuid timestamp_text).
Notation own := (follower_step cfg collate_lt gpg_import_keys gpg_uids isoformat).
Notation run := (stream_run cfg collate_lt uuid timestamp_text gpg_import_keys gpg_uids isoformat).
Notation world d l f := {| sw_db := d; sw_stream := l; sw_follower := f |}.

Lemma insert_entry_perm j l : insert_entry collate_lt j l ≡ₚ j :: l.
Proof using Type.
  induction l as [|x l IH]; simpl; [done|]. destruct (journal_before collate_lt j x); [done|].
  rewrite IH. by rewrite Permutation_swap.
Qed.
Lemma journal_query_perm start d :
  journal_query collate_lt start d ≡ₚ List.filter (λ j, (start <=? j_serial_global j)%Z) (db_journal d).
Proof using Type.
  unfold journal_query. induction (List.filter _ _) as [|j l IH]; simpl; [done|]. by rewrite insert_entry_perm, IH.
Qed.
Lemma journal_query_in start d j :
  j ∈ journal_query collate_lt start d ↔ j ∈ db_journal d ∧ (start ≤ j_serial_global j)%Z.
Proof using Type. rewrite journal_query_perm, !list_elem_of_In, filter_In, Z.leb_le. done. Qed.
Lemma journal_query_nodup start d : journal_wf d → NoDup (j_serial_global <$> journal_query collate_lt start d).
Proof using Type.
  intros Hwf. rewrite journal_query_perm. apply (grows_wf _ _ (filter_grows _ _) Hwf).
Qed.
Lemma journal_message_serial j m : journal_message j = Ok m → message_serial m = Some (j_serial_global j).
Proof using Type. unfold EventStream.journal_message. destruct (rpsl_object_from_text _ _ _ _ _ _); [|done]. by intros [= <-]. Qed.

(** A pass sends the entries of a part of the query, all unless it raises. *)
Lemma send_entries_run l f f' r a :
  fo_after_global_serial f = Some a → st_iter send_entry l f = (f', r) →
  ∃ l1 l2 ms, l = l1 ++ l2 ∧ Forall2 (λ j m, journal_message j = Ok m) l1 ms ∧ fo_sent f' = fo_sent f ++ ms ∧
    fo_after_global_serial f' = Some (foldr Z.max a (j_serial_global <$> l1)) ∧
    match r with Ok _ => l2 = [] | Raise e => ∃ j, j ∈ l ∧ journal_message j = Raise e end.
Proof using Type.
  intros Ha. revert f a Ha. induction l as [|j l IH]; intros f a Ha.
  { intros [= <- <-]. exists [], [], []. rewrite !app_nil_r. by split_and!; try apply Forall2_nil_2. }
  simpl. unfold mbind at 1, st_bind at 1. unfold EventStream.send_entry at 1.
  unfold mbind at 1, st_bind at 1, st_lift. destruct (journal_message j) as [m|e] eqn:Em.
  - simpl. unfold mbind, st_bind, st_modify. simpl. intros Hr.
    apply (IH _ (Z.max (j_serial_global j) a)) in Hr as (l1 & l2 & ms & -> & Hms & Hs & Ha' & Hok);
      [|simpl; by rewrite Ha].
    exists (j :: l1), l2, (m :: ms). split; [done|]. split; [by constructor|]. split; [by rewrite Hs; simpl; rewrite <- app_assoc|].
    split.
    + rewrite Ha'. csimpl. f_equal. clear. induction l1 as [|x l1 IH]; csimpl; lia.
    + destruct r as [|e]; [done|]. destruct Hok as (j' & Hin & He). exists j'. split; [|done]. by right.
  - intros [= <- <-]. exists [], (j :: l), []. rewrite !app_nil_r. split_and!; try apply Forall2_nil_2; try done.
    exists j. split; [by left|done].
Qed.
Lemma sent_entries l ms : Forall2 (λ j m, journal_message j = Ok m) l ms → omap message_serial ms = j_serial_global <$> l.
Proof using Type. induction 1 as [|j m l ms Hm Hms IH]; csimpl; [done|]. by rewrite (journal_message_serial _ _ Hm), IH. Qed.
(** What holds of a follower that started after a serial. *)
Record following (start : Z) (d : database) (f : follower) (a : Z) : Prop := {
  fw_after : fo_after_global_serial f = Some a;
  fw_range : (start ≤ a < db_next_global d)%Z;
  fw_once : NoDup (sent_serials f);
  fw_sent_range s : s ∈ sent_serials f → (start < s ≤ a)%Z;
  fw_sent j : ¬ ended f → j ∈ db_journal d → (start < j_serial_global j ≤ a)%Z →
    ∃ m, journal_message j = Ok m ∧ m ∈ fo_sent f;
}.
Lemma following_grows start d d' f a : journal_grows d d' → following start d f a → following start d' f a.
Proof using Type.
  intros [Hn Hg _] [Ha Hr Ho Hs Hj]. split; auto; [lia|]. intros j He Hin Hrj. apply Hg in Hin as [Hin|Hge]; [|lia]. apply (Hj j He Hin Hrj).
Qed.
(** Other messages, and steps between passes. *)
Lemma following_other start d f f' a es :
  following start d f a → fo_after_global_serial f' = fo_after_global_serial f → fo_sent f' = fo_sent f ++ es →
  omap message_serial es = [] → (¬ ended f' → ¬ ended f) → following start d f' a.
Proof using Type.
  intros [Ha Hr Ho Hs Hj] Ea Es Ee He. assert (sent_serials f' = sent_serials f) as Ess.
  { unfold sent_serials. by rewrite Es, omap_app, Ee, app_nil_r. }
  split; rewrite ?Ea, ?Ess; auto. intros j Hne Hin Hrj. destruct (Hj j) as (m & Hm & Hin'); auto. exists m. split; [done|].
  rewrite Es. apply elem_of_app. by left.
Qed.

(** A pass: afterwards every entry after the start has been sent, or the task has ended. *)
Lemma send_pass_following start d f f' r a :
  journal_wf d → following start d f a → ¬ ended f → send_pass d f = (f', r) →
  ∃ a', fo_after_global_serial f' = Some a' ∧ (start ≤ a' < db_next_global d)%Z ∧ NoDup (sent_serials f') ∧
    (∀ s, s ∈ sent_serials f' → (start < s ≤ a')%Z) ∧
    match r with
    | Ok _ => ∀ j, j ∈ db_journal d → (start < j_serial_global j)%Z → ∃ m, journal_message j = Ok m ∧ m ∈ fo_sent f'
    | Raise e => ∃ j, j ∈ db_journal d ∧ (start < j_serial_global j)%Z ∧ journal_message j = Raise e
    end.
Proof using Type.
  intros Hwf [Ha Hr Ho Hs Hj] He. unfold _send_new_journal_entries, mbind, st_bind, st_get. rewrite Ha.
  intros Hrun. apply (send_entries_run _ _ _ _ a Ha) in Hrun as (l1 & l2 & ms & Hl & Hms & Hsent & Ha' & Hok).
  pose proof (journal_query_nodup (a + 1) d Hwf) as Hnd. rewrite Hl, fmap_app in Hnd. apply NoDup_app in Hnd as (Hnd & _ & _).
  assert (∀ s, s ∈ j_serial_global <$> l1 → (a < s < db_next_global d)%Z) as Hl1.
  { intros s (j & -> & Hjin)%list_elem_of_fmap. assert (j ∈ journal_query collate_lt (a + 1) d) as Hin.
    { rewrite Hl. apply elem_of_app. by left. }
    apply journal_query_in in Hin as [Hin ?]. apply Hwf in Hin. lia. }
  assert (sent_serials f' = sent_serials f ++ (j_serial_global <$> l1)) as Ess.
  { unfold sent_serials. by rewrite Hsent, omap_app, (sent_entries _ _ Hms). }
  destruct (max_serials_ge a (j_serial_global <$> l1)) as [Hge Hmax].
  exists (foldr Z.max a (j_serial_global <$> l1)). split; [done|]. split.
  { destruct (max_serials_in a (j_serial_global <$> l1)) as [E|E%Hl1]; lia. }
  rewrite Ess. split.
  { apply NoDup_app. split; [done|]. split; [|done]. intros s Hin%Hs Hin'%Hl1. lia. }
  split.
  { intros s [Hin%Hs|Hin]%elem_of_app; [lia|]. pose proof (Hl1 s Hin). apply Hmax in Hin. lia. }
  destruct r as [u|e].
  2: { destruct Hok as (j & [Hin Hsj]%journal_query_in & Hjr). exists j. split; [done|]. split; [lia|done]. }
  rewrite Hok, app_nil_r in Hl. intros j Hin Hst.
  destruct (decide (j_serial_global j ≤ a)%Z) as [Hle|Hgt].
  - destruct (Hj j) as (m & Hm & Hm'); auto. exists m. split; [done|]. rewrite Hsent. apply elem_of_app. by left.
  - assert (j ∈ l1) as Hin1. { rewrite <- Hl. apply journal_query_in. split; [done|lia]. }
    apply list_elem_of_lookup in Hin1 as [i Hi]. destruct (Forall2_lookup_l _ _ _ _ _ Hms Hi) as (m & Hm & Hjm).
    exists m. split; [done|]. rewrite Hsent. apply elem_of_app. right. by eapply list_elem_of_lookup_2.
Qed.
Lemma in_task_cases next m f f' r : m f = (f', r) →
  in_task next m f = set_phase (match r with Ok _ => next | Raise e => Ended e end) f'.
Proof using Type. intros E. unfold in_task. rewrite E. by destruct r as [[]|]. Qed.
(** The same as the task of a follower, which ends when an entry raises. *)
Lemma pass_following start d f a :
  journal_wf d → following start d f a → ¬ ended f →
  (∃ a', following start d (in_task Asking (send_pass d) f) a') ∧
  ((∃ j e, j ∈ db_journal d ∧ (start < j_serial_global j)%Z ∧ journal_message j = Raise e) ∨
   (∀ j, j ∈ db_journal d → (start < j_serial_global j)%Z →
      ∃ m, journal_message j = Ok m ∧ m ∈ fo_sent (in_task Asking (send_pass d) f))).
Proof using Type.
  intros Hwf Hf He. destruct (send_pass d f) as [f' r] eqn:Hrun.
  destruct (send_pass_following _ _ _ _ _ _ Hwf Hf He Hrun) as (a' & Ha & Hr & Ho & Hs & Hall).
  rewrite (in_task_cases _ _ _ _ _ Hrun). destruct r as [u|e].
  - split; [|by right]. exists a'. split; auto. intros j _ Hin [Hst _]. by apply Hall.
  - split; [|left; destruct Hall as (j & ?); by exists j, e]. exists a'. split; auto.
    intros j Hne. destruct Hne. by exists e.
Qed.

Lemma send_events_run entries f f' r : send_events entries f = (f', r) →
  r = Ok tt ∧ fo_after_global_serial f' = fo_after_global_serial f ∧
  fo_sent f' = fo_sent f ++ ((λ e, stream_event (se_id e) (se_source e) (se_operation e)) <$> entries).
Proof using Type.
  revert f. unfold send_events. induction entries as [|e l IH]; intros f.
  { intros [= <- <-]. by rewrite app_nil_r. }
  simpl. unfold mbind, st_bind, st_modify. simpl. intros (-> & Ea & Es)%IH. split; [done|]. split; [by rewrite Ea|].
  rewrite Es. simpl. by rewrite <- app_assoc.
Qed.

Definition following_world (start : Z) (w : stream_world) : Prop :=
  journal_wf (sw_db w) ∧ ∃ a, following start (sw_db w) (sw_follower w) a.
Lemma other_grows w w' : other w w' → journal_grows (sw_db w) (sw_db w') ∧ sw_follower w' = sw_follower w.
Proof using Type.
  intros [cs now d l f|d l f|d l l' f]; simpl; (split; [|done]); [|apply next_global_grows|done]. apply transaction_grows.
Qed.
Lemma other_following start w w' : following_world start w → other w w' → following_world start w'.
Proof using Type.
  intros [Hwf [a Hf]] [Hg Ef]%other_grows. split; [by apply (grows_wf _ _ Hg)|]. exists a. rewrite Ef.
  by eapply following_grows.
Qed.
Lemma own_following start w w' : following_world start w → own w w' → following_world start w'.
Proof using Type.
  intros [Hwf [a Hf]] Hstep. unfold following_world. revert Hwf Hf.
  destruct Hstep as [d l f Hp|d l f Hp|d l f after Hp _|d l f after Hp]; simpl; intros Hwf Hf; (split; [done|]).
  - destruct (pass_following start d f a) as [[a' Hf'] _]; [done..| |by exists a']. intros [e He]. congruence.
  - exists a. apply (following_other _ _ f _ _ [] Hf); [done|by rewrite app_nil_r|done|]. intros _ [e He]. congruence.
  - exists a. destruct (send_events (entries_after after l) f) as [f' r] eqn:Hrun.
    rewrite (in_task_cases _ _ _ _ _ Hrun). apply send_events_run in Hrun as (-> & Ea & Es).
    eapply (following_other _ _ f _ _ _ Hf); [done|exact Es| |intros _ [e He]; congruence].
    clear. by induction (entries_after after l).
  - exists a. apply (following_other _ _ f _ _ [] Hf); [done|by rewrite app_nil_r|done|]. intros _ [e He]. congruence.
Qed.
Lemma own_sent w w' : own w w' → sw_db w' = sw_db w ∧ ∃ ms, fo_sent (sw_follower w') = fo_sent (sw_follower w) ++ ms.
Proof using Type.
  intros [d l f Hp|d l f Hp|d l f after Hp _|d l f after Hp]; simpl; (split; [done|]); try (by exists []; rewrite app_nil_r).
  - destruct (send_pass d f) as [f' r] eqn:Hrun. rewrite (in_task_cases _ _ _ _ _ Hrun). simpl.
    unfold _send_new_journal_entries, mbind, st_bind, st_get in Hrun.
    destruct (fo_after_global_serial f) as [a|] eqn:Ha; [|injection Hrun as <- _; exists []; by rewrite app_nil_r].
    apply (send_entries_run _ _ _ _ a Ha) in Hrun as (l1 & l2 & ms & _ & _ & Hs & _). by exists ms.
  - destruct (send_events (entries_after after l) f) as [f' r] eqn:Hrun. rewrite (in_task_cases _ _ _ _ _ Hrun).
    apply send_events_run in Hrun as (_ & _ & Es). eexists. exact Es.
Qed.
Lemma own_running w w' : own w w' → ¬ ended (sw_follower w).
Proof using Type. intros [d l f Hp|d l f Hp|d l f after Hp _|d l f after Hp] [e He]; simpl in He; congruence. Qed.

(** *** Runs *)

Lemma run_following start n w w' : following_world start w → run n w w' → following_world start w'.
Proof using Type. intros Hw Hrun. induction Hrun; eauto using other_following, own_following. Qed.
Lemma run_grows n w w' : run n w w' →
  journal_grows (sw_db w) (sw_db w') ∧ ∃ ms, fo_sent (sw_follower w') = fo_sent (sw_follower w) ++ ms.
Proof using Type.
  induction 1 as [w|n w1 w2 w3 Hstep Hrun [IHg [ms IHs]]|n w1 w2 w3 Hstep Hrun [IHg [ms IHs]]].
  - split; [done|]. exists []. by rewrite app_nil_r.
  - apply other_grows in Hstep as [Hg Ef]. split; [by trans (sw_db w2)|]. exists ms. by rewrite IHs, Ef.
  - apply own_sent in Hstep as [Ed [ms' Es]]. rewrite <- Ed. split; [done|]. exists (ms' ++ ms). by rewrite IHs, Es, app_assoc.
Qed.
(** A task that has ended stays so. *)
Lemma run_ended n w w' e : run n w w' → fo_phase (sw_follower w) = Ended e → fo_phase (sw_follower w') = Ended e.
Proof using Type.
  induction 1 as [w|n w1 w2 w3 Hstep Hrun IH|n w1 w2 w3 Hstep Hrun IH]; intros He; [done| |].
  - apply IH. apply other_grows in Hstep as [_ ->]. done.
  - apply own_running in Hstep. destruct Hstep. by exists e.
Qed.
Lemma own_ends start w w' e : following_world start w → own w w' → fo_phase (sw_follower w') = Ended e →
  ∃ j, j ∈ db_journal (sw_db w) ∧ (start < j_serial_global j)%Z ∧ journal_message j = Raise e.
Proof using Type.
  intros [Hwf [a Hf]] Hstep. pose proof (own_running _ _ Hstep) as Hne. revert Hwf Hf Hne.
  destruct Hstep as [d l f Hp|d l f Hp|d l f after Hp _|d l f after Hp]; simpl; intros Hwf Hf Hne He; try done.
  - destruct (send_pass d f) as [f' r] eqn:Hrun. rewrite (in_task_cases _ _ _ _ _ Hrun) in He.
    destruct (send_pass_following _ _ _ _ _ _ Hwf Hf Hne Hrun) as (a' & _ & _ & _ & _ & Hall).
    destruct r as [u|e']; [done|]. simpl in He. injection He as ->. exact Hall.
  - destruct (send_events (entries_after after l) f) as [f' r] eqn:Hrun. rewrite (in_task_cases _ _ _ _ _ Hrun) in He.
    apply send_events_run in Hrun as (-> & _ & _). done.
Qed.
Lemma decide_ended f : ended f ∨ ¬ ended f.
Proof using Type. unfold ended. destruct (fo_phase f); [right|right|right|left; eauto]; by intros [? [=]]. Qed.
Lemma run_ends start n w w' e : following_world start w → ¬ ended (sw_follower w) → run n w w' →
  fo_phase (sw_follower w') = Ended e →
  ∃ n1 n2 w1 j, run n1 w w1 ∧ run n2 w1 w' ∧ j ∈ db_journal (sw_db w1) ∧ (start < j_serial_global j)%Z
                ∧ journal_message j = Raise e.
Proof using Type.
  intros Hw Hne Hrun. revert Hw Hne.
  induction Hrun as [w|n w1 w2 w3 Hstep Hrun IH|n w1 w2 w3 Hstep Hrun IH]; intros Hw Hne He.
  - destruct Hne. by exists e.
  - destruct IH as (n1 & n2 & wj & j & Hr1 & Hr2 & Hj); [by eapply other_following| |done|].
    { by apply other_grows in Hstep as [_ ->]. }
    exists n1, n2, wj, j. split; [by eapply run_other|done].
  - destruct (decide_ended (sw_follower w2)) as [[e' He']|Hne2].
    + pose proof (run_ended _ _ _ _ Hrun He') as He2. rewrite He in He2. injection He2 as <-.
      destruct (own_ends _ _ _ _ Hw Hstep He') as (j & Hj). exists 0%nat, (S n), w1, j.
      split; [apply run_done|]. split; [by eapply run_follower|done].
    + destruct IH as (n1 & n2 & wj & j & Hr1 & Hr2 & Hj); [by eapply own_following|done|done|].
      exists (S n1), n2, wj, j. split; [by eapply run_follower|done].
Qed.
(** The steps of its own until a follower has made a pass. *)
Definition pending (p : follower_phase) : nat :=
  match p with Sending => 1 | Waiting _ => 2 | Asking => 3 | Ended _ => 0 end.
Lemma run_sends start n w w' j : following_world start w → run n w w' → (pending (fo_phase (sw_follower w)) ≤ n)%nat →
  j ∈ db_journal (sw_db w) → j ∈ db_journal (sw_db w') → (start < j_serial_global j)%Z → ¬ ended (sw_follower w') →
  ∃ m, journal_message j = Ok m ∧ m ∈ fo_sent (sw_follower w').
Proof using Type.
  intros Hw Hrun. revert Hw. induction Hrun as [w|n w1 w2 w3 Hstep Hrun IH|n w1 w2 w3 Hstep Hrun IH]; intros Hw Hn Hj Hj' Hst Hne.
  - destruct Hne. unfold ended. destruct (fo_phase (sw_follower w)) as [| | |e]; simpl in Hn; try lia. by exists e.
  - pose proof (other_following _ _ _ Hw Hstep) as Hw2. apply other_grows in Hstep as [Hg Ef].
    apply IH; try done; [by rewrite Ef|]. destruct (run_grows _ _ _ Hrun) as [Hg' _].
    destruct (grows_new _ _ Hg' j Hj') as [?|Hnew]; [done|]. apply Hw in Hj. pose proof (grows_next _ _ Hg). lia.
  - pose proof (own_following _ _ _ Hw Hstep) as Hw2. destruct (own_sent _ _ Hstep) as [Ed _].
    destruct (decide_ended (sw_follower w2)) as [[e He]|Hne2]; [destruct Hne; exists e; by eapply run_ended|].
    destruct Hstep as [d l f Hp|d l f Hp|d l f after Hp _|d l f after Hp]; simpl in *.
    + destruct Hw as [Hwf [a Hf]]. assert (¬ ended f) as Hnf by (intros [e He]; congruence).
      destruct (run_grows _ _ _ Hrun) as [_ [ms Hs]]. simpl in Hs. rewrite Hs.
      destruct (send_pass d f) as [f' r] eqn:Hpass. rewrite (in_task_cases _ _ _ _ _ Hpass) in *.
      destruct (send_pass_following _ _ _ _ _ _ Hwf Hf Hnf Hpass) as (a' & _ & _ & _ & _ & Hall).
      destruct r as [u|e]; [|destruct Hne2; by exists e]. destruct (Hall j Hj Hst) as (m & Hm & Hin).
      exists m. split; [done|]. apply elem_of_app. by left.
    + apply IH; try done. rewrite Hp in Hn. simpl in *. lia.
    + apply IH; try done. rewrite Hp in Hn. destruct (send_events (entries_after after l) f) as [f' r] eqn:Hrun'.
      rewrite (in_task_cases _ _ _ _ _ Hrun'). apply send_events_run in Hrun' as (-> & _ & _). simpl in *. lia.
    + apply IH; try done. rewrite Hp in Hn. simpl in *. lia.
Qed.
Lemma own_enabled w : ¬ ended (sw_follower w) → ∃ w', own w w'.
Proof using Type.
  destruct w as [d l f]. simpl. intros Hne. destruct (fo_phase f) as [| |id|e] eqn:Hp.
  - eexists. by apply step_send.
  - eexists. by apply step_ask.
  - eexists. by eapply step_timeout.
  - destruct Hne. by exists e.
Qed.

(** A follower as it is created. *)
Lemma create_phase serial d f : create serial d = Ok (inl f) → fo_phase f = Sending.
Proof using Type.
  unfold create. destruct serial; [|intros E; by injection E as <-]. destruct (max_serial_global d); [|done].
  case_match; [done|]. intros E. by injection E as <-.
Qed.
Lemma created_following serial d f start :
  journal_wf d → create serial d = Ok (inl f) → fo_after_global_serial f = Some start → following start d f start.
Proof using Type.
  intros [_ Hlt] Hc Ha. assert (start < db_next_global d)%Z as Hst.
  { assert (∃ m, max_serial_global d = Some m ∧ (start ≤ m)%Z) as (m & Hm & Hle).
    { unfold create in Hc. destruct serial as [n|].
      - destruct (max_serial_global d) as [m|] eqn:E; [|done]. destruct (Z.ltb_spec m n); [done|].
        simplify_eq/=. exists m. split; [done|lia].
      - simplify_eq/=. exists start. split; [done|lia]. }
    apply opt_max_in, list_elem_of_fmap in Hm as (j & Ej & Hj%Hlt). lia. }
  assert (fo_sent f = []) as Es.
  { unfold create in Hc. destruct serial; [|by simplify_eq]. destruct (max_serial_global d); [|done].
    case_match; [done|]. by simplify_eq. }
  split; [done|lia| | |intros j _ _ ?; lia]; unfold sent_serials; rewrite Es; [apply NoDup_nil_2|by intros s ?%elem_of_nil].
Qed.

End Following.
