(* ===== verification/EventStreamExamples.v ===== *)
(** * A follower of the event stream

    The theorem at a follower that sends an entry twice asked for, and what some
    subscriptions show of the code. *)
From S2P Require Import Prelude PyStr Conf Net Models Text Rpki ScopeFilter Fields RpslObjects RpslParser Queries RoutePref RoutePrefTheory Database DatabaseHandler StorageTheory TransactionTheory QueryResolver Nrtm UpdateExamples Whois GraphqlSchema GraphqlResolvers EventStream EventStreamTheory.

Module EventStreamExamples.
Import ConcreteIP ConcreteRadix ConcreteRedis.
Definition es_cfg : configuration := conf_of (VDict [
  ("sources", VDict [("TEST", VDict [("keep_journal", VBool true)]); ("OTHER", VDict [("keep_journal", VBool true)])]);
  ("server", VDict [("http", VDict [("event_stream_access_list", VStr "streamers")])]);
  ("access_lists", VDict [("streamers", VList [VStr "192.0.2.0/24"])])]).
Definition uuids : nat → string := λ n, str_of_Z (Z.of_nat n).
Definition keys : string → list string * option string := λ _, ([], None).
Definition uids : string → list string := λ _, [].
Definition person (source : string) : string := UpdateExamples.text_of ["person: John"; "address: x"; "phone: +31205354444"; "nic-hdl: JD-TEST"; "mnt-by: M-MNT"; "source: " +:+ source].
Definition entry_of (source class text : string) (global nrtm : Z) : journal_row := {|
  j_serial_global := global; j_rpsl_pk := "JD-TEST"; j_source := source; j_origin := jo_auth_change; j_serial_nrtm := nrtm;
  j_operation := add_or_update; j_object_class := class; j_object_text := text; j_timestamp := 0 |}.
Definition db_with (l : list journal_row) (next : Z) : database := {|
  db_objects := omap id [UpdateExamples.stored_row "b" (UpdateExamples.person_text "JD-TEST" [])];
  db_suspended := []; db_journal := l; db_status := []; db_roas := []; db_protected := []; db_next_uuid := 10; db_next_global := next |}.
Definition db_1 : database := Eval vm_compute in sql_upsert_status "TEST" false 0 (db_with [entry_of "TEST" "person" (person "TEST") 7 3] 8).
Notation pass d := (in_task Asking (_send_new_journal_entries es_cfg String.ltb keys uids str_of_Z d)).
Notation run := (stream_run es_cfg String.ltb uuids str_of_Z keys uids str_of_Z).
Notation message_of := (journal_message es_cfg keys uids str_of_Z).
Notation transaction cs d := (st_iter (run_call es_cfg String.ltb uuids str_of_Z) cs (DatabaseHandler_init es_cfg false d 5)).
Definition delete_person : list call := [c_delete jo_auth_change "JD-TEST" "TEST" "person" None false; c_commit].
Definition new_follower (after : option Z) : follower := {|
  fo_after_global_serial := after; fo_after_redis_event_id := None; fo_phase := Sending; fo_sent := [] |}.
Definition f_1 : follower := new_follower (Some 6%Z).
Definition f_2 : follower := Eval vm_compute in pass db_1 f_1.
Definition db_2 : database := Eval vm_compute in h_committed (transaction delete_person db_1).1.
Definition w_1 : stream_world := {| sw_db := db_1; sw_stream := []; sw_follower := f_1 |}.
(** The entry is sent, then another is written. *)
Definition w_2 : stream_world := {| sw_db := db_2; sw_stream := []; sw_follower := f_2 |}.

Lemma w_2_reached : run 1 w_1 w_2.
Proof.
  eapply run_follower; [apply (step_send _ _ _ _ _ db_1 [] f_1); reflexivity|].
  replace (pass db_1 f_1) with f_2 by (vm_compute; reflexivity).
  eapply run_other; [apply (step_transaction _ _ _ _ delete_person 5)|].
  replace (h_committed (transaction delete_person db_1).1) with db_2 by (vm_compute; reflexivity). apply run_done.
Qed.

(** ** What subscriptions show *)

(** Entries are sent in the order of their source, so a client that asks again after
    the serial it was last sent does not get entries of another source. *)
Definition db_sources : database := Eval vm_compute in db_with [entry_of "TEST" "person" (person "TEST") 7 3; entry_of "OTHER" "person" (person "OTHER") 8 1] 9.
Example resume_misses_entry :
  sent_serials (pass db_sources f_1) = [8%Z; 7%Z] ∧ sent_serials (pass db_sources (new_follower (Some 8%Z))) = [].
Proof. vm_compute. done. Qed.
(** When no source keeps a journal, the reload times of all sources are sent. *)
Definition db_two : database := Eval vm_compute in sql_upsert_status "OTHER" false 0 db_1.
Example header_of_all_sources :
  send_header es_cfg String.ltb str_of_Z (λ _, 4%Z) db_two = stream_status ["TEST"; "OTHER"] [("TEST", "4"); ("OTHER", "4")]
  ∧ send_header (conf_of (VDict [("sources", VDict [("TEST", VDict [])])])) String.ltb str_of_Z (λ _, 4%Z) db_two
    = stream_status [] [("OTHER", "4"); ("TEST", "4")].
Proof. vm_compute. done. Qed.
(** No entry is ever sent when there was none at the subscription, which raises when
    it gives a serial. *)
Definition db_none : database := db_with [] 1.
Example empty_journal_ends :
  create None db_none = Ok (inl (new_follower None))
  ∧ fo_phase (pass db_1 (new_follower None)) = Ended (GenericException "TypeError")
  ∧ create (Some 0%Z) db_none = Raise (GenericException "TypeError").
Proof. vm_compute. done. Qed.
(** An entry of an unknown class ends the task, before the entries after it. *)
Definition db_unknown : database := Eval vm_compute in db_with [entry_of "OTHER" "poem" "poem: x" 7 1; entry_of "TEST" "person" (person "TEST") 8 3] 9.
Example unknown_class_ends : sent_serials (pass db_unknown f_1) = [] ∧ ended (pass db_unknown f_1).
Proof. split; [reflexivity|]. eexists. vm_compute. reflexivity. Qed.
(** Until the first event, events that come while the task does not wait are never sent. *)
Example event_missed :
  ∃ f, run 2 w_1 {| sw_db := db_1; sw_stream := [{| se_id := 1; se_source := "TEST"; se_operation := "full_reload" |}]; sw_follower := f |}
       ∧ fo_phase f = Waiting 1 ∧ sent_serials f = [7%Z] ∧ length (fo_sent f) = 1%nat
       ∧ entries_after 1 [{| se_id := 1; se_source := "TEST"; se_operation := "full_reload" |}] = [].
Proof.
  eexists. split.
  - eapply run_follower; [apply (step_send _ _ _ _ _ db_1 [] f_1); reflexivity|].
    eapply run_other; [apply step_stream|]. eapply run_follower; [apply step_ask; vm_compute; reflexivity|]. apply run_done.
  - vm_compute. done.
Qed.
End EventStreamExamples.
